(* ===== verification/_CoqProject ===== *)
-Q . S2P
Prelude.v
DbTypeClass.v
Text.v
DateNormalize.v
Hash.v
Cache.v
CacheSpec.v
KeyedStore.v
SessionCache.v
AuthzCache.v
SqlDependency.v
ResultsetCache.v
MetadataCache.v
Fifo.v
GenericQueue.v
QueueManager.v
TransactionManager.v
ConnectionPool.v
MssqlText.v
MssqlConnection.v
MssqlDialect.v
Dialect.v
InsertValidate.v
DdlModules.v
XmlHelper.v
Response.v
DbEvents.v
DdlExecute.v
Requests.v
Level1Parser.v
Level1Formats.v
ResultsetBuilder.v
ResponseWriter.v
Level2Parser.v
DmlDriver.v
InsertExecute.v
UpdateExecute.v
Writes.v
SessionManager.v
AuthManager.v
Dispatcher.v
QueryBatch.v
Procedures.v
Application.v
