(* ===== verification/Prelude.v ===== *)
(** * A verification library for the data manager gateway (src/src)

    The program is a gateway in C between clients (files, HTTP) and a
    database.  A request is parsed, given a session and a transaction, checked
    against the session's permissions, turned into database calls, and
    answered; HTTP requests go through queues to worker threads; sessions,
    permissions, metadata and results are kept in one kind of cache.

    ** Files, from the bottom

    - Prelude (this file): C strings as lists of characters (a pointer into a
      string is the suffix left to read), <ctype.h>, searches, 64-bit
      wrap-around, results of fallible functions ([res], [let!], [check]),
      reachability ([star]), the tactics [all_ascii], [break_match], [bools].
    - Text: numbers and tokens in C strings (%d, atol, strtok, strncpy).
    - DbTypeClass: execute/db_type_class.c, type names to column classes.
    - DateNormalize: execute/date_normalize.c, a date text and its mask to the
      canonical date, or the reason why not.
    - Hash, Cache, CacheSpec: infra/cache.c and include/cache.h.  Cache.v has
      the functions on the record [cache] (buckets, chains, counters);
      CacheSpec.v the contract - a finite map from keys to entries - and the
      simulation between the two.
    - KeyedStore: the class that states what the session and permission caches
      need of a cache, with the cache of Cache.v as its instance.
    - SessionCache: infra/session_cache.c, include/session_cache.h.
    - AuthzCache: infra/authz_cache.c and infra/Authz_Manager.c.
    - SqlDependency: core/level 2/sql_dependency_extractor.c, the tables and
      columns a SELECT reads, and the loop of execute/
      Execute_Query_Batch_Module.c that turns the tables into a tag.
    - ResultsetCache: infra/resultset_cache.c, results under the text of their
      statement, expired by table; it meets SqlDependency in the tag.
    - MetadataCache: infra/metadata_cache.c, table descriptions fetched on a
      miss; the fetch is a parameter.
    - Fifo: the circular buffer that three queue implementations write out,
      behind the class [BoundedFifo].
    - GenericQueue: infra/generic_queue.c, session/session_touch_queue.c; the
      threads waiting on the condition variable are part of the state and the
      theorems hold for every interleaving.
    - QueueManager: infra/queue_manager.c and the routing of
      infra/http_worker_pool.c.
    - TransactionManager: execute/Transaction_Manager.c; handles in a store, a
      driver that is a record of answers, the calls made to it as events.
    - ConnectionPool: infra/Connection_Pool.c and infra/MSSQL_Pool.c; what the
      two do alike is written once, over the class [flavour] of what they do
      differently.
    - MssqlText, MssqlConnection, MssqlDialect: execute/mssql_text.c, the
      diagnostics, connection string and transaction modes of MSSQL_Pool.c,
      and execute/mssql_dialect.c with its scanner of SQL text.
    - InsertValidate: execute/Insert_Validate_Module.c, a value against the
      type of its column.
    - XmlHelper, Response: core/XML_Helper.c, core/response_object.c and the
      error envelope of core/dispatcher.c, with a reader of XML and of JSON.
    - Dialect: the two dialects of execute/db_driver.c as one class, the Oracle
      one from execute/driver_oracle.c beside that of MssqlDialect.
    - DdlModules, DdlExecute: execute/DDL_Modules.c (requests to statements),
      execute/DDL_Execute_Module.c and the six DDL operations of the
      dispatcher.
    - Requests: the structs a parsed request consists of
      (include/Request_Response_Types.h and the headers of the modules).
    - DbEvents: the calls an execution makes to the database, as a list of
      events, and what commits and rolls back among them.
    - Level1Parser: core/level 1/Level1_Parser.c, from a document to a request,
      over the classes [XmlTree] and [JsonTree] of what the XML and JSON
      libraries answer.  Level1Formats: writers of requests in both formats.
    - ResultsetBuilder, ResponseWriter: execute/Resultset_Builder.c and the
      documents core/Response_Writer.c makes of a result and of a write, with
      readers of both; what cJSON does is the class [JsonPrinter].
    - Level2Parser: core/level 2/Level2_Parser.c, the checks before anything
      is executed.
    - DmlDriver, InsertExecute, UpdateExecute: execute/Insert_Execute_Module.c,
      Update_Execute_Module.c and Delete_Execute_Module.c on the prepared
      statements of a driver; Writes: the theorems that hold for all three.
    - SessionManager: session/Session_Manager.c and the loop of
      session/session_manager_runner.c, on any [KeyedStore] and a table that is
      the class [SessionDb].
    - AuthManager: infra/Auth_Manager.c; what it calls is the class
      [AuthServices], what the statements do to an account [AuthLaws].
    - Dispatcher: the rest of core/dispatcher.c, from the text of a request to
      its response; what it calls is the class [Executors], what a
      transaction relies on [ExecutorLaws].
    - QueryBatch: execute/Execute_Query_Batch_Module.c, a SELECT from the cache
      to the cursor of the driver (the class [SelectDriver], [SelectLaws]) and
      back, on ResultsetCache, SqlDependency, ResultsetBuilder and
      ResponseWriter; db_select_int of execute/db_driver.c.
    - Procedures: execute/Execute_Procedure_Module.c, a procedure, the values
      and the cursors it returns, on the class [ProcDriver]; its documents.
    - Application: the dispatcher with the write modules of Writes in the place
      of its parameters, so that what a request does to the database is said
      of the code from the request down to the statements.

    A request goes Dispatcher - Level1Parser - Level2Parser (columns from MetadataCache,
    types from DbTypeClass, values by InsertValidate, dates by DateNormalize,
    SELECTs by SqlDependency, DDL by DdlModules) - the operations, within a
    transaction of TransactionManager - Response.

    ** How the model corresponds to the code

    A definition has the name of the C function it models, a record that of
    the struct, a constructor that of the enum.  A function that changes a
    struct takes and returns it; a function called through a pointer that may
    be NULL takes an [option].  A critical section of a lock is one function
    on the state, because nothing else runs in between; where a thread gives
    the lock up in the middle (the condition waits), each part is a step of
    its own.  Two sections are taken for whole that are not: [cache_lookup]
    counts under a lock held for reading, and the driver's answers to commits
    ([db_driver]) depend on the attempt, not on earlier calls.  Clocks, random
    bytes, the outcome of each allocation the code looks at and the answers of
    the database driver are arguments, so the theorems hold for all of them.
    The memory of the XML builder (core/XML_Helper.c) is taken without a look:
    without it the behaviour is undefined, the callers' tests for NULL are dead
    code, and what is modelled are the runs that get it.  The two reallocations
    of Execute_Procedure_Module.c that are not looked at are arguments too, and
    make the run undefined, [None], where they fail.  Integers are [Z]; where a C operation can leave its type the
    wrap-around is written out ([u64], [i64]).  Logging, metrics records and
    elapsed-time measurements that nothing reads back are left out.

    ** What the theorems show

    - Cache: the concrete structure does what the finite map does, for every
      call ([cache_refines_map]); an entry that is borrowed is not freed
      ([borrowed_entry_survives]), counts and memory charges are exact
      ([cache_accounting]), what is inserted is found until it expires,
      invalidation by tag hits exactly the tagged entries.  Two theorems state
      defects as the code has them: LRU eviction never evicts, and the second
      borrower of an entry is not protected.
    - Dates: every accepted text becomes the canonical text of a date of the
      calendar, which is stated anew, and normalising twice changes nothing
      ([date_normalize_valid]); the tokenizer is total and its result
      well-formed.
    - Type names: each class gets the listed names, case and blanks do not
      matter, the three LOB questions agree.
    - Queues: first in first out and nothing lost or doubled, for every
      interleaving; no sleeper is left behind when there is work; writes go to
      queue 0 and only writes; shutdown drains.
    - Cached results: the extractor reads back every statement of the grammar
      it is written for ([extract_reads_back]) and stays within its arrays;
      a write to a table the extractor found expires the cached result
      ([write_invalidates_dependents]); the defects found on the way
      (a table after a JOIN condition, a lower-case table name, the case of
      a literal) are stated as examples.
    - Metadata: a description read through the cache is one the database gave
      for that table ([metadata_cache_transparent]) and an invalidated one is
      fetched again.
    - Sessions and permissions: encoding and decoding are inverse on the
      records the program makes; a session the cache has taken is accepted
      until its TTL has run out and not from then on nor after its end
      ([session_lifetime]; one it has not taken never is), unless a touch
      overlaps the end ([touch_revives_ended_session]); the reconciliation ends
      what the query lists; a permission is granted exactly when a row of the
      database has it between its commas ([authz_grants_exactly]), and every
      failure on the way denies.
    - Transactions: a commit always resolves the transaction and says
      COMMITTED only if the driver committed; the registered transaction is
      always ACTIVE; bounded retries; timeouts; identifiers are version 4
      UUIDs; nested standalone calls leave the context as they found it.
    - Connection pools: for every interleaving of borrows, waits, releases and
      health checks no two threads have one session and no thread sleeps on a
      free slot; creation is all or nothing.  The sessions are exclusive only
      as long as releases come from holders: a failed reconnect breaks that,
      and [failed_reconnect_shares_session] is the run that shows it.

    - SQL Server: a statement in UTF-8 arrives unchanged, and any bytes at all
      give well-formed text; the connection string holds the attributes it was
      given; no write runs under autocommit; the scanner answers the questions
      it stands for, asked of tokens defined by rules of their own
      ([mssql_sql_shape_spec]); a quoted key column is that
      column and nothing else.
    - Values and DDL: a value is accepted exactly when the rules the code has
      for its class hold, which are looser than the header file's; CREATE TABLE is accepted exactly when it is well-formed; a GRANT
      is one statement with nothing added; DDL never runs within a transaction.
      What is cut or left unchecked is stated as such.
    - Documents: escaped text is read back as it was, in XML and in JSON; the
      two documents of a result say the same ([result_documents_agree]), but
      for BLOBs without a name ([blob_documents_differ]).
    - Queries: a SELECT answers with the rows of its cursor in order
      ([select_returns_rows]) in a well-formed result ([query_result_typed]);
      it always returns, every cursor closed ([query_answers]); the cache
      serves only what a run under the same key gave ([cached_select]); an
      asynchronous request gets numbered batches, the last one marked
      ([async_batches_end]).  That two statements can share a key and that
      counted rows can be gone when they are fetched are stated as examples.
    - Procedures: every cursor handle a procedure returns is given back once,
      on every path ([procedure_handles_released]); the answer reports the
      values and all the rows, as a specification of their own says
      ([procedure_reports]).
    - Writes: a write is all or nothing ([write_all_or_nothing]) and ends for
      every answer of the driver ([write_answers]); the text it runs is never
      a cut one ([statements_whole]); an insert gives each column the value
      of its name ([insert_binds_by_name]); a refused write leaves the
      caller's pointer to freed memory ([refused_write_dangles]).  Under the
      dispatcher: all writes of a transaction or none ([write_transaction]),
      also when the second check of a write finds other columns than the
      first; and, where it finds the same, none is left active
      ([application_leaves_no_transaction]).
    - Level 1: no array of a request is overrun and no text is longer than its
      member ([level1_fits]); what is refused is named ([level1_accepts]); a
      request written in either format is read back ([level1_round_trip]).
    - Level 2: what is accepted obeys the rules for its operation
      ([level2_accepts_only]) and is accepted unchanged when it is checked
      again ([level2_accepts_twice]), on any later day.
    - Authentication: wrong passwords are denied whatever the database does,
      lock an account exactly at the limit as long as it counts them, and no
      attempt unlocks it ([wrong_passwords_lock]); a session needs a verified credential.  Failures
      counted at the same time count once, and a login commits what is pending.
    - Dispatcher: nothing reaches the database without session and Level 2; a
      transaction is all or nothing ([transaction_all_or_nothing]) - but for a
      login in it ([login_breaks_atomicity]) -; none is left active.

    ** Bounds and fuel

    The loops that are not structural take fuel and have a lemma that the fuel
    is enough: the mask tokenizer (one unit per character), the eviction loop
    of [cache_insert] (one per entry), the rounding of the bucket count (64
    doublings; beyond 2^63 the C loop does not end and the function says so),
    the loop over the JOIN clauses (one unit per character left, since each
    turn moves past a keyword), the scanner of SQL Server text and the loops
    over XML elements and prologs (one unit per character), the decimal
    printer (20 digits hold any 64-bit value), the commit loop
    ([max_retries + 1] turns), the fetch loop of a SELECT (the rows its cursor
    has left, which every batch makes fewer by what it gives).  A builder that
    the C code would overrun, and a format string it would misread, give
    [None].

    ** Not modelled

    The parts of the database drivers that call the Oracle and SQL Server
    client libraries, and the XML and JSON libraries, which are not in the
    sources: they are classes.  The assembly of audit rows, the configuration
    reader, the LDAP helper, the consumers, the worker threads, logging,
    metrics and start-up.  The dispatcher's [Executors] have the writes as
    Writes has them; queries and procedures, though modelled in QueryBatch and
    Procedures, work on worlds of their own.  The manifest lists all of them
    part by part. *)

From Stdlib Require Import Ascii String ZArith Lia Bool.
From stdpp Require Import base list strings numbers.

#[local] Open Scope Z_scope.

Declare Scope c_scope.
Delimit Scope c_scope with c.

(** ** Characters *)

(** A C string: the characters before its terminating NUL.  A pointer into
    the string is a suffix of the list; reading [*p] at the end is the case
    [[]]. *)
Abbreviation cstr := (list ascii) (only parsing).

(** A string literal of the C source. *)
Definition str (s : string) : list ascii := String.list_ascii_of_string s.

(** The value of a character, as an [unsigned char], and back. *)
Definition code (c : ascii) : Z := Z.of_N (N_of_ascii c).
Definition chr (z : Z) : ascii := ascii_of_N (Z.to_N z).

(** The double quote, and a text between two of them. *)
Definition dquote : ascii := chr 34.
Definition quoted (s : string) : list ascii := dquote :: str s ++ [dquote].

Definition in_range (lo hi : Z) (c : ascii) : bool :=
  (lo <=? code c)%Z && (code c <=? hi)%Z.

(** The <ctype.h> functions in the "C" locale (nothing in the program calls
    [setlocale]). *)
Definition isspace (c : ascii) : bool := (code c =? 32)%Z || in_range 9 13 c.
Definition isdigit (c : ascii) : bool := in_range 48 57 c.
Definition isupper (c : ascii) : bool := in_range 65 90 c.
Definition islower (c : ascii) : bool := in_range 97 122 c.
Definition isalpha (c : ascii) : bool := isupper c || islower c.
Definition isalnum (c : ascii) : bool := isalpha c || isdigit c.
Definition isxdigit (c : ascii) : bool := isdigit c || in_range 65 70 c || in_range 97 102 c.
Definition toupper (c : ascii) : ascii := if islower c then chr (code c - 32) else c.
Definition tolower (c : ascii) : ascii := if isupper c then chr (code c + 32) else c.
Definition digit_val (c : ascii) : Z := code c - 48.
Definition digit_char (d : Z) : ascii := chr (48 + d).

(** Every fact about one character is checked on its 256 values. *)
Ltac all_ascii c :=
  destruct c as [[] [] [] [] [] [] [] []]; vm_compute; intros; (reflexivity || congruence || auto).

Lemma toupper_idemp (c : ascii) : toupper (toupper c) = toupper c.
Proof. all_ascii c. Qed.

Lemma tolower_toupper (c : ascii) : tolower (toupper c) = tolower c.
Proof. all_ascii c. Qed.

Lemma isspace_toupper (c : ascii) : isspace (toupper c) = isspace c.
Proof. all_ascii c. Qed.

Lemma isspace_tolower (c : ascii) : isspace (tolower c) = isspace c.
Proof. all_ascii c. Qed.

Lemma isdigit_not_space (c : ascii) : isdigit c = true -> isspace c = false.
Proof. all_ascii c. Qed.

Lemma isdigit_isalnum (c : ascii) : isdigit c = true -> isalnum c = true.
Proof. unfold isalnum. intros ->. apply orb_true_r. Qed.

Lemma isalnum_not_space (c : ascii) : isalnum c = true -> isspace c = false.
Proof. all_ascii c. Qed.

Lemma code_chr z : 0 <= z < 256 -> code (chr z) = z.
Proof. intros H. unfold code, chr. rewrite N_ascii_embedding by lia. lia. Qed.

Lemma digit_char_spec x : 0 <= x < 10 -> isdigit (digit_char x) = true /\ digit_val (digit_char x) = x.
Proof.
  intros H. assert (x = 0 \/ x = 1 \/ x = 2 \/ x = 3 \/ x = 4 \/ x = 5 \/ x = 6 \/ x = 7 \/ x = 8 \/ x = 9)
    as Hx by lia.
  repeat destruct Hx as [->|Hx]; try subst; done.
Qed.

(** ** Prefix tests, searches and trims *)

(** [strncasecmp(s, w, strlen(w)) == 0]. *)
Fixpoint ci_prefix (w s : list ascii) : bool :=
  match w, s with
  | [], _ => true
  | c :: w', d :: s' => Ascii.eqb (tolower c) (tolower d) && ci_prefix w' s'
  | _ :: _, [] => false
  end.

(** [strncmp(s, w, strlen(w)) == 0]. *)
Fixpoint prefix_b (w s : list ascii) : bool :=
  match w, s with
  | [], _ => true
  | c :: w', d :: s' => Ascii.eqb c d && prefix_b w' s'
  | _ :: _, [] => false
  end.

(** [strcmp(a, b) == 0] and [strcasecmp(a, b) == 0]. *)
Definition str_eqb (a b : list ascii) : bool := bool_decide (a = b).
Definition ci_eqb (a b : list ascii) : bool := str_eqb (map tolower a) (map tolower b).

(** [strstr(s, w)]: the suffix of [s] that starts with the first occurrence. *)
Fixpoint strstr (w s : list ascii) : option (list ascii) :=
  if prefix_b w s then Some s
  else match s with [] => None | _ :: s' => strstr w s' end.

(** "s contains w, whatever the case". *)
Fixpoint contains_ci (w s : list ascii) : bool :=
  match s with [] => false | _ :: s' => ci_prefix w s || contains_ci w s' end.

(** [while (f( *p)) p++;] and the characters it passes over. *)
Fixpoint skip (f : ascii -> bool) (s : list ascii) : list ascii :=
  match s with
  | c :: s' => if f c then skip f s' else s
  | [] => []
  end.

Fixpoint span (f : ascii -> bool) (s : list ascii) : list ascii :=
  match s with
  | c :: s' => if f c then c :: span f s' else []
  | [] => []
  end.

(** Drop from the end while [f] holds. *)
Definition rskip (f : ascii -> bool) (s : list ascii) : list ascii := rev (skip f (rev s)).

Section searches.
Implicit Types (w s : list ascii) (f : ascii -> bool).

Lemma ci_prefix_spec w s :
  ci_prefix w s = true <-> map tolower w `prefix_of` map tolower s.
Proof.
  revert s. induction w as [|c w IH]; intros [|d s]; simpl.
  - split; [intros _; by exists [] | done].
  - split; [intros _; by eexists | done].
  - split; [done |]. intros [k Hk]. discriminate Hk.
  - rewrite andb_true_iff, Ascii.eqb_eq, IH. split.
    + intros [-> ?]. by apply prefix_cons.
    + intros H. split; [by apply prefix_cons_inv_1 in H | by apply prefix_cons_inv_2 in H].
Qed.

Lemma prefix_b_spec w s : prefix_b w s = true <-> w `prefix_of` s.
Proof.
  revert s. induction w as [|c w IH]; intros [|d s]; simpl.
  - split; [intros _; by exists [] | done].
  - split; [intros _; by eexists | done].
  - split; [done |]. intros [k Hk]. discriminate Hk.
  - rewrite andb_true_iff, Ascii.eqb_eq, IH. split.
    + intros [-> ?]. by apply prefix_cons.
    + intros H. split; [by apply prefix_cons_inv_1 in H | by apply prefix_cons_inv_2 in H].
Qed.

Lemma ci_prefix_map_ext w s s' :
  map tolower s = map tolower s' -> ci_prefix w s = ci_prefix w s'.
Proof. intros H. apply eq_true_iff_eq. rewrite !ci_prefix_spec. by rewrite H. Qed.

Lemma ci_prefix_app w s k : ci_prefix w s = true -> ci_prefix w (s ++ k) = true.
Proof. rewrite !ci_prefix_spec, map_app. apply prefix_app_r. Qed.

Lemma contains_ci_spec w s :
  contains_ci w s = true <-> exists p q, s = p ++ q /\ q <> [] /\ ci_prefix w q = true.
Proof.
  induction s as [|d s IH]; simpl.
  - split; [done|]. intros (p & q & H & Hq & _). symmetry in H. by apply app_eq_nil in H as [-> ->].
  - rewrite orb_true_iff, IH. split.
    + intros [H|(p & q & -> & Hq)]; [by exists [], (d :: s) | by exists (d :: p), q].
    + intros ([|e p] & q & H & Hn & Hq); simpl in H.
      * left. by subst.
      * right. injection H as -> ->. by exists p, q.
Qed.

Lemma strstr_spec w s :
  is_Some (strstr w s) <-> exists p q, s = p ++ w ++ q.
Proof.
  induction s as [|d s IH]; simpl; destruct (prefix_b w _) eqn:E.
  - split; [|by eauto]. intros _. apply prefix_b_spec in E as [k ->]. by exists [], k.
  - split; [by intros [? ?] |]. intros (p & q & H).
    destruct p; [|done]. simpl in H.
    exfalso. apply not_true_iff_false in E. apply E, prefix_b_spec. by exists q.
  - split; [|by eauto]. intros _. apply prefix_b_spec in E as [k Hk]. exists [], k. by rewrite Hk.
  - rewrite IH. split.
    + intros (p & q & ->). by exists (d :: p), q.
    + intros ([|e p] & q & H); simpl in H.
      * exfalso. apply not_true_iff_false in E. apply E, prefix_b_spec. by exists q.
      * injection H as -> ->. by exists p, q.
Qed.

Lemma span_skip f s : span f s ++ skip f s = s.
Proof. induction s as [|c s IH]; simpl; [done|]. destruct (f c); simpl; by rewrite ?IH. Qed.

Lemma span_Forall f s : Forall (fun c => f c = true) (span f s).
Proof. induction s as [|c s IH]; simpl; [done|]. destruct (f c) eqn:E; by constructor. Qed.

Lemma skip_length f s : (length (skip f s) <= length s)%nat.
Proof. induction s as [|c s IH]; simpl; [lia|]. destruct (f c); simpl; lia. Qed.

Lemma skip_nohead f s : match skip f s with [] => True | c :: _ => f c = false end.
Proof. induction s as [|c s IH]; simpl; [done|]. destruct (f c) eqn:E; done. Qed.

Lemma skip_id f c s : f c = false -> skip f (c :: s) = c :: s.
Proof. simpl. by intros ->. Qed.

Lemma skip_skip f s : skip f (skip f s) = skip f s.
Proof.
  pose proof (skip_nohead f s) as H. destruct (skip f s) as [|c t]; [done|]. by apply skip_id.
Qed.

Lemma skip_app_all f k s : Forall (fun c => f c = true) k -> skip f (k ++ s) = skip f s.
Proof. induction 1 as [|c k E _ IH]; simpl; [done|]. by rewrite E. Qed.

Lemma skip_map_comm f g s :
  (forall c, f (g c) = f c) -> skip f (map g s) = map g (skip f s).
Proof. intros H. induction s as [|c s IH]; simpl; [done|]. rewrite H. by destruct (f c). Qed.

Lemma span_app_stop f s c k :
  Forall (fun d => f d = true) s -> f c = false -> span f (s ++ c :: k) = s.
Proof. intros H E. induction H as [|d s Hd _ IH]; simpl; [by rewrite E|]. by rewrite Hd, IH. Qed.

Lemma skip_app_stop f s c k :
  Forall (fun d => f d = true) s -> f c = false -> skip f (s ++ c :: k) = c :: k.
Proof. intros H E. rewrite skip_app_all by done. by apply skip_id. Qed.

Lemma skip_app_cons f s c k : f c = false -> skip f (s ++ c :: k) = skip f s ++ c :: k.
Proof. intros Hc. induction s as [|a s IH]; simpl; [by rewrite Hc|]. by destruct (f a). Qed.

Lemma span_app_cons f s c k : f c = false -> span f (s ++ c :: k) = span f s.
Proof. intros Hc. induction s as [|a s IH]; simpl; [by rewrite Hc|]. destruct (f a); [by f_equal|done]. Qed.

(** Dropping from the end stops at the latest at a character that is kept. *)
Lemma rskip_app_cons f s c k : f c = false -> rskip f (s ++ c :: k) = s ++ c :: rskip f k.
Proof.
  intros Hc. unfold rskip. rewrite rev_app_distr. cbn [rev]. rewrite <- app_assoc. cbn [app].
  rewrite skip_app_cons by done. rewrite rev_app_distr. cbn [rev]. rewrite rev_involutive, <- app_assoc. done.
Qed.
End searches.

Lemma concat_replicate_nil {A} (n : nat) : concat (replicate n ([] : list A)) = [].
Proof. by induction n. Qed.

(** ** Machine integers *)

Definition u64 (z : Z) : Z := z mod 2 ^ 64.
(** Conversion of an unsigned 64-bit value to a signed 64-bit type (two's
    complement, as on the LP64 targets of the build files). *)
Definition i64 (z : Z) : Z := let m := z mod 2 ^ 64 in if (m <? 2 ^ 63)%Z then m else m - 2 ^ 64.
(** Conversion to a signed 32-bit [int]. *)
Definition i32 (z : Z) : Z := let m := z mod 2 ^ 32 in if (m <? 2 ^ 31)%Z then m else m - 2 ^ 32.

Lemma u64_bounds z : (0 <= u64 z < 2 ^ 64)%Z.
Proof. apply Z.mod_pos_bound. lia. Qed.

Lemma u64_small z : (0 <= z < 2 ^ 64)%Z -> u64 z = z.
Proof. apply Z.mod_small. Qed.

Lemma u64_add_l a b : u64 (u64 a + b) = u64 (a + b).
Proof. apply Zplus_mod_idemp_l. Qed.

Lemma u64_sub_l a b : u64 (u64 a - b) = u64 (a - b).
Proof. apply Zminus_mod_idemp_l. Qed.

(** ** Results of fallible C functions *)

Inductive res (E A : Type) : Type :=
| Ok (a : A)
| Err (e : E).
Arguments Ok {E A} a.
Arguments Err {E A} e.

Definition res_bind {E A B} (r : res E A) (k : A -> res E B) : res E B :=
  match r with Ok a => k a | Err e => Err e end.

Notation "'let!' x ':=' r 'in' k" := (res_bind r (fun x => k))
  (at level 10, x pattern, r at level 100, k at level 200) : c_scope.
Notation "'check' b 'else' e ';;' k" := (if b then k else Err e)
  (at level 10, b at level 100, e at level 99, k at level 200) : c_scope.

Lemma res_bind_Ok {E A B} (r : res E A) (k : A -> res E B) b :
  res_bind r k = Ok b -> exists a, r = Ok a /\ k a = Ok b.
Proof. destruct r as [a|e]; simpl; [by eauto | done]. Qed.

(** Case analysis on the scrutinee of the first [match]/[if] found. *)
Ltac break_match :=
  match goal with
  | |- context [match ?x with _ => _ end] =>
      lazymatch x with context [match _ with _ => _ end] => fail | _ => destruct x eqn:? end
  end.
Ltac break_match_in H :=
  match type of H with
  | context [match ?x with _ => _ end] =>
      lazymatch x with context [match _ with _ => _ end] => fail | _ => destruct x eqn:? end
  end.
Ltac break_in H := repeat (break_match_in H; try discriminate H).

(** Turn boolean hypotheses into propositions. *)
Ltac bools :=
  repeat match goal with
  | H : _ && _ = true |- _ => apply andb_prop in H as [? ?]
  | H : _ || _ = false |- _ => apply orb_false_elim in H as [? ?]
  | H : negb _ = true |- _ => apply negb_true_iff in H
  | H : negb _ = false |- _ => apply negb_false_iff in H
  | H : (_ <=? _)%Z = true |- _ => apply Z.leb_le in H
  | H : (_ <=? _)%Z = false |- _ => apply Z.leb_gt in H
  | H : (_ <? _)%Z = true |- _ => apply Z.ltb_lt in H
  | H : (_ <? _)%Z = false |- _ => apply Z.ltb_ge in H
  | H : (_ =? _)%Z = true |- _ => apply Z.eqb_eq in H
  | H : (_ =? _)%Z = false |- _ => apply Z.eqb_neq in H
  | H : bool_decide _ = true |- _ => apply bool_decide_eq_true in H
  | H : bool_decide _ = false |- _ => apply bool_decide_eq_false in H
  end.

(** ** Steps and reachability *)

Section star.
Context {S : Type} (step : S -> S -> Prop).

Inductive star : S -> S -> Prop :=
| star_refl s : star s s
| star_step s1 s2 s3 : star s1 s2 -> step s2 s3 -> star s1 s3.

Lemma star_invariant (I : S -> Prop) s s' :
  (forall a b, I a -> step a b -> I b) -> I s -> star s s' -> I s'.
Proof. intros Hstep Hs Hstar. induction Hstar as [|? ? ? _ IH]; eauto. Qed.
End star.

Create HintDb ocidb.
Create Rewrite HintDb ocirw.
#[export] Hint Resolve span_Forall skip_length : ocidb.
#[export] Hint Rewrite u64_add_l u64_sub_l : ocirw.
#[export] Hint Extern 2 (_ <= _)%Z => lia : ocidb.

(** Inner wrap-arounds are absorbed by the outer one. *)
Ltac u64_norm := autorewrite with ocirw.
