(* ===== verification/DbTypeClass.v ===== *)
(** * Column type classes: src/src/execute/db_type_class.c

    A column's vendor type name, as the metadata layer reports it, is mapped
    to a vendor-neutral class.  [type_name] is [None] for a NULL pointer.  The
    theorems say that the classification ignores case, leading blanks and the
    "(n)" suffix, that the table has no ambiguous name, and that the three
    questions asked about a LOB column ([db_type_class], [db_type_lob_kind],
    [db_type_text_bound]) never contradict each other. *)

From S2P Require Import Prelude.
From Stdlib Require Import Ascii String ZArith Lia Bool.
From stdpp Require Import base list strings numbers.

Inductive db_type_class_t :=
| DB_TYPE_CLASS_OTHER
| DB_TYPE_CLASS_STRING
| DB_TYPE_CLASS_NUMERIC
| DB_TYPE_CLASS_DATE
| DB_TYPE_CLASS_TIMESTAMP
| DB_TYPE_CLASS_LOB
| DB_TYPE_CLASS_INTERVAL_YM
| DB_TYPE_CLASS_INTERVAL_DS
| DB_TYPE_CLASS_BINARY
| DB_TYPE_CLASS_ROWID.

#[export] Instance db_type_class_eq_dec : EqDecision db_type_class_t.
Proof. solve_decision. Defined.

Inductive db_lob_kind_t := DB_LOB_NONE | DB_LOB_BINARY | DB_LOB_TEXT.

#[export] Instance db_lob_kind_eq_dec : EqDecision db_lob_kind_t.
Proof. solve_decision. Defined.

(** [TYPE_MAP], in the order of the source. *)
Definition TYPE_MAP : list (list ascii * db_type_class_t) :=
  map (fun e => (str (fst e), snd e))
  [ ("VARCHAR2", DB_TYPE_CLASS_STRING);
    ("NVARCHAR2", DB_TYPE_CLASS_STRING);
    ("VARCHAR", DB_TYPE_CLASS_STRING);
    ("CHAR", DB_TYPE_CLASS_STRING);
    ("NCHAR", DB_TYPE_CLASS_STRING);
    ("ROWID", DB_TYPE_CLASS_ROWID);
    ("UROWID", DB_TYPE_CLASS_ROWID);
    ("NUMBER", DB_TYPE_CLASS_NUMERIC);
    ("FLOAT", DB_TYPE_CLASS_NUMERIC);
    ("BINARY_FLOAT", DB_TYPE_CLASS_NUMERIC);
    ("BINARY_DOUBLE", DB_TYPE_CLASS_NUMERIC);
    ("INTEGER", DB_TYPE_CLASS_NUMERIC);
    ("INT", DB_TYPE_CLASS_NUMERIC);
    ("SMALLINT", DB_TYPE_CLASS_NUMERIC);
    ("DECIMAL", DB_TYPE_CLASS_NUMERIC);
    ("NUMERIC", DB_TYPE_CLASS_NUMERIC);
    ("REAL", DB_TYPE_CLASS_NUMERIC);
    ("DOUBLE", DB_TYPE_CLASS_NUMERIC);
    ("DATE", DB_TYPE_CLASS_DATE);
    ("TIMESTAMP", DB_TYPE_CLASS_TIMESTAMP);
    ("RAW", DB_TYPE_CLASS_BINARY);
    ("BLOB", DB_TYPE_CLASS_LOB);
    ("CLOB", DB_TYPE_CLASS_LOB);
    ("NCLOB", DB_TYPE_CLASS_LOB);
    ("BFILE", DB_TYPE_CLASS_LOB);
    ("NVARCHAR", DB_TYPE_CLASS_STRING);
    ("UNIQUEIDENTIFIER", DB_TYPE_CLASS_STRING);
    ("TIME", DB_TYPE_CLASS_STRING);
    ("BIGINT", DB_TYPE_CLASS_NUMERIC);
    ("TINYINT", DB_TYPE_CLASS_NUMERIC);
    ("BIT", DB_TYPE_CLASS_NUMERIC);
    ("MONEY", DB_TYPE_CLASS_NUMERIC);
    ("SMALLMONEY", DB_TYPE_CLASS_NUMERIC);
    ("SMALLDATETIME", DB_TYPE_CLASS_DATE);
    ("DATETIME", DB_TYPE_CLASS_TIMESTAMP);
    ("DATETIME2", DB_TYPE_CLASS_TIMESTAMP);
    ("DATETIMEOFFSET", DB_TYPE_CLASS_TIMESTAMP);
    ("BINARY", DB_TYPE_CLASS_BINARY);
    ("VARBINARY", DB_TYPE_CLASS_BINARY);
    ("TEXT", DB_TYPE_CLASS_LOB);
    ("NTEXT", DB_TYPE_CLASS_LOB);
    ("IMAGE", DB_TYPE_CLASS_LOB);
    ("XML", DB_TYPE_CLASS_LOB) ].

(** A character of the leading type word: not '(' and not a blank. *)
Definition base_char (c : ascii) : bool := negb (Ascii.eqb c "(") && negb (isspace c).

Definition base_name_len (s : list ascii) : nat := length (span base_char s).

Definition base_is (s : list ascii) (n : nat) (name : list ascii) : bool :=
  Nat.eqb (length name) n && ci_prefix name s.

Definition has_max_suffix (after_base : list ascii) : bool :=
  match skip isspace after_base with
  | c :: p =>
      if Ascii.eqb c "(" then
        let p := skip isspace p in
        if ci_prefix (str "MAX") p then
          match skip isspace (drop 3 p) with
          | d :: _ => Ascii.eqb d ")"
          | [] => false
          end
        else false
      else false
  | [] => false
  end.

(** The [for] loop over [TYPE_MAP]. *)
Fixpoint map_lookup (m : list (list ascii * db_type_class_t)) (s : list ascii) (n : nat)
    : db_type_class_t :=
  match m with
  | [] => DB_TYPE_CLASS_OTHER
  | (name, cls) :: m' => if base_is s n name then cls else map_lookup m' s n
  end.

Definition db_type_class (type_name : option (list ascii)) : db_type_class_t :=
  match type_name with
  | None => DB_TYPE_CLASS_OTHER
  | Some t =>
      let s := skip isspace t in
      let n := base_name_len s in
      if Nat.eqb n 0 then DB_TYPE_CLASS_OTHER
      else if has_max_suffix (drop n s) then DB_TYPE_CLASS_LOB
      else if base_is s n (str "INTERVAL") then
        if contains_ci (str "MONTH") (drop n s) then DB_TYPE_CLASS_INTERVAL_YM
        else if contains_ci (str "SECOND") (drop n s) then DB_TYPE_CLASS_INTERVAL_DS
        else DB_TYPE_CLASS_OTHER
      else map_lookup TYPE_MAP s n
  end.

Definition db_type_class_name (cls : db_type_class_t) : list ascii :=
  match cls with
  | DB_TYPE_CLASS_STRING => str "STRING"
  | DB_TYPE_CLASS_NUMERIC => str "NUMERIC"
  | DB_TYPE_CLASS_DATE => str "DATE"
  | DB_TYPE_CLASS_TIMESTAMP => str "TIMESTAMP"
  | DB_TYPE_CLASS_LOB => str "LOB"
  | DB_TYPE_CLASS_INTERVAL_YM => str "INTERVAL_YM"
  | DB_TYPE_CLASS_INTERVAL_DS => str "INTERVAL_DS"
  | DB_TYPE_CLASS_BINARY => str "BINARY"
  | DB_TYPE_CLASS_ROWID => str "ROWID"
  | DB_TYPE_CLASS_OTHER => str "OTHER"
  end.

Definition db_type_lob_kind (type_name : option (list ascii)) : db_lob_kind_t :=
  match type_name with
  | None => DB_LOB_NONE
  | Some t =>
      let s := skip isspace t in
      let n := base_name_len s in
      if Nat.eqb n 0 then DB_LOB_NONE
      else if base_is s n (str "BLOB") then DB_LOB_BINARY
      else if base_is s n (str "CLOB") then DB_LOB_TEXT
      else if base_is s n (str "NCLOB") then DB_LOB_TEXT
      else if has_max_suffix (drop n s) && base_is s n (str "VARBINARY") then DB_LOB_BINARY
      else if base_is s n (str "IMAGE") then DB_LOB_BINARY
      else DB_LOB_NONE
  end.

Definition db_type_text_bound (type_name : option (list ascii)) : bool :=
  match type_name with
  | None => false
  | Some t =>
      let s := skip isspace t in
      let n := base_name_len s in
      if Nat.eqb n 0 then false
      else if has_max_suffix (drop n s)
      then base_is s n (str "VARCHAR") || base_is s n (str "NVARCHAR")
      else base_is s n (str "TEXT") || base_is s n (str "NTEXT") || base_is s n (str "XML")
  end.

(** ** Case-insensitivity *)

Section facts.
Implicit Types (s t w k : list ascii) (n : nat).

Lemma span_tolower_length s :
  length (span base_char (map tolower s)) = length (span base_char s).
Proof.
  induction s as [|c s IH]; simpl; [done|].
  assert (base_char (tolower c) = base_char c) as -> by all_ascii c.
  destruct (base_char c); simpl; by rewrite ?IH.
Qed.

Lemma span_ci_length s s' :
  map tolower s = map tolower s' -> length (span base_char s) = length (span base_char s').
Proof. intros H. by rewrite <- (span_tolower_length s), H, span_tolower_length. Qed.

Lemma skip_space_ci s s' :
  map tolower s = map tolower s' ->
  map tolower (skip isspace s) = map tolower (skip isspace s').
Proof.
  intros H. rewrite <- !(skip_map_comm isspace tolower) by apply isspace_tolower. by rewrite H.
Qed.

Lemma drop_ci n s s' : map tolower s = map tolower s' -> map tolower (drop n s) = map tolower (drop n s').
Proof. intros H. by rewrite <- !skipn_map, H. Qed.

Lemma base_is_ci s s' n w : map tolower s = map tolower s' -> base_is s n w = base_is s' n w.
Proof. intros H. unfold base_is. by rewrite (ci_prefix_map_ext w s s' H). Qed.

Lemma map_lookup_ci m s s' n :
  map tolower s = map tolower s' -> map_lookup m s n = map_lookup m s' n.
Proof. intros H. induction m as [|[w c] m IH]; simpl; [done|]. by rewrite (base_is_ci s s' n w H), IH. Qed.

Lemma contains_ci_ext w s s' : map tolower s = map tolower s' -> contains_ci w s = contains_ci w s'.
Proof.
  revert s'. induction s as [|c s IH]; intros [|c' s'] H; try done.
  simpl. rewrite (ci_prefix_map_ext w (c :: s) (c' :: s') H). f_equal. apply IH. by injection H.
Qed.

Lemma tolower_fix (a : ascii) c d :
  tolower a = a -> isupper a = false -> islower a = false ->
  tolower c = tolower d -> Ascii.eqb c a = Ascii.eqb d a.
Proof.
  intros Ha Hu Hl H.
  assert (forall e, tolower e = a <-> e = a) as Heq.
  { intros e. split; [|by intros ->]. intros He. unfold tolower in He.
    destruct (isupper e) eqn:E; [|done]. exfalso. subst a. revert Hl.
    clear -E. revert E. all_ascii e. }
  apply eq_true_iff_eq. rewrite !Ascii.eqb_eq, <- (Heq c), <- (Heq d). by rewrite H.
Qed.

Lemma has_max_suffix_ci s s' :
  map tolower s = map tolower s' -> has_max_suffix s = has_max_suffix s'.
Proof.
  intros H. unfold has_max_suffix. apply skip_space_ci in H.
  destruct (skip isspace s) as [|c p], (skip isspace s') as [|c' p']; try done.
  simpl in H. injection H as Hc Hp.
  rewrite (tolower_fix "("%char c c') by done.
  destruct (Ascii.eqb c' "("); [|done].
  apply skip_space_ci in Hp. rewrite (ci_prefix_map_ext _ _ _ Hp).
  destruct (ci_prefix _ _); [|done].
  apply (drop_ci 3), skip_space_ci in Hp.
  destruct (skip isspace (drop 3 _)) as [|d q], (skip isspace (drop 3 (skip isspace p'))) as [|d' q']; try done.
  injection Hp as Hd _. by apply tolower_fix.
Qed.
End facts.

(** ** The table *)

Section table.
Implicit Types (s t w k : list ascii) (n : nat).

Lemma base_is_spec s n w :
  base_is s n w = true <-> length w = n /\ map tolower w = take n (map tolower s).
Proof.
  unfold base_is. rewrite andb_true_iff, Nat.eqb_eq, ci_prefix_spec. split.
  - intros [Hn [k Hk]]. split; [done|]. rewrite Hk, take_app_length'; [done|]. by rewrite length_map.
  - intros [Hn H]. split; [done|]. exists (drop n (map tolower s)). by rewrite H, take_drop.
Qed.

(** Once the base name is known to be [w], every other test on it can be
    answered on [w] itself. *)
Lemma base_is_agree s n w w' : base_is s n w = true -> base_is s n w' = base_is w n w'.
Proof.
  intros H. apply base_is_spec in H as [Hn H]. apply eq_true_iff_eq.
  rewrite !base_is_spec, <- H. rewrite take_ge; [done|]. rewrite length_map. lia.
Qed.

Lemma map_lookup_agree m s n w : base_is s n w = true -> map_lookup m s n = map_lookup m w n.
Proof.
  intros H. induction m as [|[w' c] m IH]; simpl; [done|].
  by rewrite (base_is_agree s n w w' H), IH.
Qed.

(** A suffix that ends the type word: "", "(...)" or " ...". *)
Definition ends_word (k : list ascii) : bool :=
  match k with [] => true | c :: _ => negb (base_char c) end.

Lemma base_name_len_app w k :
  forallb base_char w = true -> ends_word k = true -> base_name_len (w ++ k) = length w.
Proof.
  unfold base_name_len. intros Hw Hk. induction w as [|c w IH]; simpl in *.
  - destruct k as [|c k]; [done|]. simpl in *. by destruct (base_char c).
  - apply andb_prop in Hw as [-> Hw]. simpl. by rewrite IH.
Qed.

Lemma base_is_app w k : base_is (w ++ k) (length w) w = true.
Proof. apply base_is_spec. split; [done|]. by rewrite map_app, take_app_length' by by rewrite length_map. Qed.

(** What the three functions compute on "name suffix". *)
Lemma db_type_class_word w k :
  w <> [] -> forallb base_char w = true -> ends_word k = true ->
  db_type_class (Some (w ++ k)) =
    if has_max_suffix k then DB_TYPE_CLASS_LOB
    else if base_is w (length w) (str "INTERVAL") then
      if contains_ci (str "MONTH") k then DB_TYPE_CLASS_INTERVAL_YM
      else if contains_ci (str "SECOND") k then DB_TYPE_CLASS_INTERVAL_DS
      else DB_TYPE_CLASS_OTHER
    else map_lookup TYPE_MAP w (length w).
Proof.
  intros Hne Hw Hk. unfold db_type_class.
  assert (skip isspace (w ++ k) = w ++ k) as ->.
  { destruct w as [|c w]; [done|]. apply skip_id. simpl in Hw.
    apply andb_prop in Hw as [Hc _]. unfold base_char in Hc. by bools. }
  rewrite base_name_len_app by done.
  destruct (Nat.eqb_spec (length w) 0) as [E|_]; [by destruct w|].
  rewrite drop_app_length, (base_is_agree _ _ w _ (base_is_app w k)),
    (map_lookup_agree _ _ _ w (base_is_app w k)). done.
Qed.
End table.

(** ** Properties *)

(** The classification of a type name depends neither on the case of its
    letters nor on leading blanks: all three questions the core asks about a
    column type are answered the same. *)
Theorem type_name_case_and_blanks (b t t' : list ascii) :
  Forall (fun c => isspace c = true) b -> map tolower t = map tolower t' ->
  db_type_class (Some (b ++ t)) = db_type_class (Some t') /\
  db_type_lob_kind (Some (b ++ t)) = db_type_lob_kind (Some t') /\
  db_type_text_bound (Some (b ++ t)) = db_type_text_bound (Some t').
Proof.
  intros Hb H. unfold db_type_class, db_type_lob_kind, db_type_text_bound.
  rewrite (skip_app_all isspace b t Hb). apply skip_space_ci in H.
  revert H. generalize (skip isspace t) (skip isspace t'). intros s s' H.
  unfold base_name_len. rewrite (span_ci_length s s' H).
  set (n := length (span base_char s')).
  rewrite (has_max_suffix_ci _ _ (drop_ci n s s' H)).
  rewrite !(contains_ci_ext _ _ _ (drop_ci n s s' H)), (map_lookup_ci _ s s' n H).
  by rewrite !(base_is_ci s s' n _ H).
Qed.

Lemma type_name_case_and_blanks_witness :
  db_type_class (Some (str "  " ++ str "Timestamp(6) with Time Zone")) = DB_TYPE_CLASS_TIMESTAMP.
Proof.
  rewrite (proj1 (type_name_case_and_blanks (str "  ") (str "Timestamp(6) with Time Zone")
                    (str "TIMESTAMP(6) WITH TIME ZONE") ltac:(repeat constructor) eq_refl)).
  reflexivity.
Defined.

(** [TYPE_MAP] is unambiguous and its order is irrelevant: every listed
    name, followed by nothing, by "(n)" / "(p,s)" or by blank-separated
    qualifiers (anything but "(MAX)"), is given exactly the class written next
    to it; followed by "(MAX)" it is a LOB. *)
Theorem type_map_classes (name k : list ascii) (cls : db_type_class_t) :
  In (name, cls) TYPE_MAP -> ends_word k = true ->
  db_type_class (Some (name ++ k)) = if has_max_suffix k then DB_TYPE_CLASS_LOB else cls.
Proof.
  intros Hin Hk.
  assert (forall e, In e TYPE_MAP ->
     fst e <> [] /\ forallb base_char (fst e) = true /\
     base_is (fst e) (length (fst e)) (str "INTERVAL") = false /\
     map_lookup TYPE_MAP (fst e) (length (fst e)) = snd e) as Hall.
  { apply Forall_forall. repeat constructor; done. }
  destruct (Hall _ Hin) as (Hne & Hw & Hi & Hl). cbn [fst snd] in Hne, Hw, Hi, Hl.
  rewrite (db_type_class_word name k Hne Hw Hk). by rewrite Hi, Hl.
Qed.

Lemma type_map_classes_witness :
  db_type_class (Some (str "NUMBER" ++ str "(10,2)")) = DB_TYPE_CLASS_NUMERIC.
Proof.
  rewrite (type_map_classes (str "NUMBER") (str "(10,2)") DB_TYPE_CLASS_NUMERIC
             ltac:(vm_compute; tauto) eq_refl).
  reflexivity.
Defined.

(** The base name is [w]: every test on it evaluates. *)
Ltac known Hag w :=
  let H := fresh in intros H; rewrite ?(proj1 (Hag w H _)), ?(proj2 (Hag w H w));
  destruct (has_max_suffix _); vm_compute; tauto || (split; intros; tauto || discriminate || congruence).

(** The answers about LOB columns agree.  A column that is written after
    the statement ([db_type_lob_kind]) is in the LOB class and is not bound in
    the statement; a text LOB bound in the statement ([db_type_text_bound]) is
    in the LOB class and is not written afterwards.  So no column value is
    written twice. *)
Theorem lob_questions_agree (t : option (list ascii)) :
  (db_type_lob_kind t <> DB_LOB_NONE ->
     db_type_class t = DB_TYPE_CLASS_LOB /\ db_type_text_bound t = false) /\
  (db_type_text_bound t = true ->
     db_type_class t = DB_TYPE_CLASS_LOB /\ db_type_lob_kind t = DB_LOB_NONE).
Proof.
  destruct t as [t|]; [|done].
  unfold db_type_class, db_type_lob_kind, db_type_text_bound.
  generalize (skip isspace t). intros s. set (n := base_name_len s).
  assert (forall w : list ascii, base_is s n w = true ->
    forall w', base_is s n w' = base_is w (length w) w' /\
    map_lookup TYPE_MAP s n = map_lookup TYPE_MAP w (length w)) as Hag.
  { intros w Hw. pose proof (proj1 (base_is_spec s n w) Hw) as [Hn _]. rewrite Hn. intros w'. split.
    - by apply base_is_agree. - by apply map_lookup_agree. }
  assert (forall (w : list ascii) (P : Prop),
    (base_is s n w = true -> P) -> (base_is s n w = false -> P) -> P) as Hcase.
  { intros w P H1 H2. destruct (base_is s n w); auto. }
  destruct (Nat.eqb n 0); [split; [by intros [] | done]|].
  apply (Hcase (str "BLOB")); [known Hag (str "BLOB")|]. intros ->.
  apply (Hcase (str "CLOB")); [known Hag (str "CLOB")|]. intros ->.
  apply (Hcase (str "NCLOB")); [known Hag (str "NCLOB")|]. intros ->.
  apply (Hcase (str "VARBINARY")); [known Hag (str "VARBINARY")|]. intros ->.
  apply (Hcase (str "IMAGE")); [known Hag (str "IMAGE")|]. intros ->.
  rewrite andb_false_r. split; [by intros [] |].
  destruct (has_max_suffix _) eqn:Em; [by intros _|].
  apply (Hcase (str "TEXT")); [known Hag (str "TEXT")|]. intros ->.
  apply (Hcase (str "NTEXT")); [known Hag (str "NTEXT")|]. intros ->.
  apply (Hcase (str "XML")); [known Hag (str "XML")|]. by intros ->.
Qed.
