(* ===== verification/Text.v ===== *)
(** * Text: numbers and tokens in C strings

    What the program uses of <stdio.h>, <stdlib.h> and <string.h> to write
    and read back fields: [%ld] and [%d], [atol] and [atoi], [strtok],
    [strchr], [strncpy].  Shared by the modules that encode records as text. *)

From Stdlib Require Import Ascii String ZArith Lia Bool SpecFloat.
From stdpp Require Import base list strings numbers.
From S2P Require Import Prelude.

#[local] Open Scope Z_scope.

(** ** Decimal numbers *)

(** The digits of [n >= 0]; 20 digits hold every 64-bit value. *)
Fixpoint dec_loop (fuel : nat) (n : Z) (acc : list ascii) : list ascii :=
  let acc := digit_char (n mod 10) :: acc in
  match fuel with
  | O => acc
  | S f => if n <? 10 then acc else dec_loop f (n / 10) acc
  end.
Definition print_dec (n : Z) : list ascii := dec_loop 20 n [].

(** [%d], [%ld]. *)
Definition print_int (n : Z) : list ascii :=
  if n <? 0 then "-"%char :: print_dec (- n) else print_dec n.

Fixpoint read_dec (s : list ascii) (acc : Z) : Z :=
  match s with
  | c :: s' => if isdigit c then read_dec s' (acc * 10 + digit_val c) else acc
  | [] => acc
  end.

(** [atol], [atoi]: blanks, a sign, digits.  (A value outside the type is
    undefined in C.) *)
Definition atol (s : list ascii) : Z :=
  match skip isspace s with
  | c :: s' => if Ascii.eqb c "-" then - read_dec s' 0
               else if Ascii.eqb c "+" then read_dec s' 0
               else read_dec (c :: s') 0
  | [] => 0
  end.

(** [w] decimal digits of [n], with leading zeros. *)
Fixpoint pad (w : nat) (n : Z) : list ascii :=
  match w with O => [] | S w' => pad w' (n / 10) ++ [digit_char (n mod 10)] end.

(** [double]: binary64, rounded to nearest. *)
Abbreviation double := spec_float (only parsing).
Definition dbl_of (n : Z) : double := binary_normalize 53 1024 n 0 false.
Definition dbl_add : double -> double -> double := SFadd 53 1024.
Definition dbl_mul : double -> double -> double := SFmul 53 1024.
Definition dbl_div : double -> double -> double := SFdiv 53 1024.
Definition dbl_ltb : double -> double -> bool := SFltb.

(** [a / b] rounded to the nearest integer, a tie to the even one. *)
Definition round_half_even (a b : Z) : Z :=
  let q := a / b in
  match 2 * (a mod b) ?= b with
  | Lt => q
  | Gt => q + 1
  | Eq => if Z.even q then q else q + 1
  end.

(** ["%.6f"] of a finite [x >= 0]: the exact value [m * 2 ^ e] in millionths,
    rounded. *)
Definition print_fixed6 (x : double) : list ascii :=
  let n := match x with
           | S754_finite _ m e =>
               if 0 <=? e then Z.pos m * 2 ^ e * 1000000
               else round_half_even (Z.pos m * 1000000) (2 ^ (- e))
           | _ => 0
           end in
  print_int (n / 1000000) ++ str "." ++ pad 6 (n mod 1000000).

Section decimal.
Implicit Types (n : Z) (s k : list ascii).

Lemma read_dec_app s k acc :
  Forall (fun c => isdigit c = true) s -> read_dec (s ++ k) acc = read_dec k (read_dec s acc).
Proof. intros H. revert acc. induction H as [|c s Hc _ IH]; intros acc; simpl; [done|]. by rewrite Hc. Qed.

Lemma dec_loop_acc fuel n k : dec_loop fuel n k = dec_loop fuel n [] ++ k.
Proof.
  revert n k. induction fuel as [|f IH]; intros n k; simpl; [done|].
  destruct (n <? 10); [done|]. rewrite IH, (IH _ [digit_char (n mod 10)]), <- app_assoc. done.
Qed.

Lemma dec_loop_digits fuel n : Forall (fun c => isdigit c = true) (dec_loop fuel n []).
Proof.
  assert (forall m, isdigit (digit_char (m mod 10)) = true) as Hd
    by (intros m; apply digit_char_spec, Z.mod_pos_bound; lia).
  revert n. induction fuel as [|f IH]; intros n; simpl; [by constructor|].
  destruct (n <? 10); [by constructor|]. rewrite dec_loop_acc. apply Forall_app; split; [done|]. by constructor.
Qed.

Lemma read_dec_loop fuel n acc :
  0 <= n < 10 ^ (Z.of_nat fuel + 1) ->
  exists d, 0 <= d /\ read_dec (dec_loop fuel n []) acc = acc * 10 ^ d + n /\ d = Z.of_nat (length (dec_loop fuel n [])).
Proof.
  revert n acc. induction fuel as [|f IH]; intros n acc Hn.
  - change (10 ^ (Z.of_nat 0 + 1)) with 10 in Hn. exists 1. split; [lia|]. simpl.
    rewrite Z.mod_small by lia. destruct (digit_char_spec n ltac:(lia)) as [-> ->]. lia.
  - simpl dec_loop. destruct (Z.ltb_spec n 10).
    + exists 1. split; [lia|]. simpl. rewrite Z.mod_small by lia.
      destruct (digit_char_spec n ltac:(lia)) as [-> ->]. lia.
    + rewrite dec_loop_acc, read_dec_app by apply dec_loop_digits.
      assert (0 <= n / 10 < 10 ^ (Z.of_nat f + 1)) as Hq.
      { split; [apply Z.div_pos; lia|]. apply Z.div_lt_upper_bound; [lia|].
        rewrite <- Z.pow_succ_r by lia. replace (Z.succ (Z.of_nat f + 1)) with (Z.of_nat (S f) + 1) by lia. lia. }
      destruct (IH (n / 10) acc Hq) as (d & Hd & E & El). rewrite E.
      exists (d + 1). split; [lia|]. pose proof (Z.mod_pos_bound n 10 ltac:(lia)) as Hb. simpl.
      destruct (digit_char_spec (n mod 10) Hb) as [-> ->]. rewrite length_app. simpl. split; [|lia].
      rewrite Z.pow_add_r by lia. pose proof (Z.div_mod n 10 ltac:(lia)). nia.
Qed.

Lemma print_dec_digits n : Forall (fun c => isdigit c = true) (print_dec n).
Proof. apply dec_loop_digits. Qed.

Lemma dec_loop_nonempty fuel n k : dec_loop fuel n k <> [].
Proof.
  revert n k. induction fuel as [|f IH]; intros n k; simpl; [done|]. destruct (n <? 10); [done|]. apply IH.
Qed.

Lemma print_dec_head n : exists c s, print_dec n = c :: s /\ isdigit c = true.
Proof.
  pose proof (print_dec_digits n) as H. destruct (print_dec n) as [|c s] eqn:E.
  - by apply dec_loop_nonempty in E.
  - apply Forall_cons_1 in H as [? _]. by exists c, s.
Qed.

Lemma read_print_dec n : 0 <= n < 10 ^ 21 -> read_dec (print_dec n) 0 = n.
Proof. intros H. destruct (read_dec_loop 20 n 0 H) as (d & _ & E & _). unfold print_dec. rewrite E. lia. Qed.

Lemma atol_print_int n : - 10 ^ 21 < n < 10 ^ 21 -> atol (print_int n) = n.
Proof.
  intros H. unfold atol, print_int. destruct (Z.ltb_spec n 0).
  - rewrite skip_id by done. change (Ascii.eqb "-" "-") with true. cbn iota. rewrite read_print_dec by lia. lia.
  - destruct (print_dec_head n) as (c & s & E & Hc).
    pose proof (read_print_dec n ltac:(lia)) as Hr. rewrite E in *.
    rewrite skip_id by (by apply isdigit_not_space).
    replace (Ascii.eqb c "-") with false by (revert Hc; clear; all_ascii c).
    replace (Ascii.eqb c "+") with false by (revert Hc; clear; all_ascii c). exact Hr.
Qed.

Lemma dec_loop_length fuel n m :
  0 <= n < 10 ^ Z.of_nat (S m) -> (m <= fuel)%nat -> (length (dec_loop fuel n []) <= S m)%nat.
Proof.
  revert n m. induction fuel as [|f IH]; intros n m Hn Hm; simpl; [lia|].
  destruct (Z.ltb_spec n 10); [simpl; lia|].
  destruct m as [|m]; [change (10 ^ Z.of_nat 1) with 10 in Hn; lia|].
  rewrite dec_loop_acc, length_app. simpl.
  enough (length (dec_loop f (n / 10) []) <= S m)%nat by lia. apply IH; [|lia].
  split; [apply Z.div_pos; lia|]. apply Z.div_lt_upper_bound; [lia|].
  rewrite <- Z.pow_succ_r by lia. rewrite <- Nat2Z.inj_succ. lia.
Qed.

Lemma print_int_length n m :
  - 10 ^ Z.of_nat (S m) < n < 10 ^ Z.of_nat (S m) -> (m <= 20)%nat -> (length (print_int n) <= S (S m))%nat.
Proof.
  intros H Hm. unfold print_int. destruct (Z.ltb_spec n 0); simpl; unfold print_dec.
  - pose proof (dec_loop_length 20 (- n) m ltac:(lia) Hm). lia.
  - pose proof (dec_loop_length 20 n m ltac:(lia) Hm). lia.
Qed.

Lemma dec_loop_short fuel n acc : (length (dec_loop fuel n acc) <= S fuel + length acc)%nat.
Proof.
  revert n acc. induction fuel as [|f IH]; intros n acc; cbn [dec_loop]; [simpl; lia|].
  destruct (n <? 10); [simpl; lia|]. pose proof (IH (n / 10) (digit_char (n mod 10) :: acc)). simpl in *. lia.
Qed.

Lemma print_int_short n : (length (print_int n) <= 22)%nat.
Proof.
  unfold print_int, print_dec. destruct (n <? 0); cbn [length].
  - pose proof (dec_loop_short 20 (- n) []). cbn [length] in *. lia.
  - pose proof (dec_loop_short 20 n []). cbn [length] in *. lia.
Qed.

Lemma print_fixed6_short x : (length (print_fixed6 x) <= 29)%nat.
Proof.
  unfold print_fixed6. cbv zeta. match goal with |- context [print_int (?m / 1000000)] => generalize m end. intros n.
  rewrite !length_app. pose proof (print_int_short (n / 1000000)). change (length (str ".")) with 1%nat.
  enough (length (pad 6 (n mod 1000000)) = 6)%nat by lia. cbn [pad]. by rewrite !length_app.
Qed.

(** The characters a printed number is made of. *)
Lemma print_int_chars n : Forall (fun c => isdigit c || Ascii.eqb c "-" = true) (print_int n).
Proof.
  assert (forall m, Forall (fun c => isdigit c || Ascii.eqb c "-" = true) (print_dec m)) as H
    by (intros m; induction (print_dec_digits m) as [|c s Hc _ IH]; constructor; [by rewrite Hc | done]).
  unfold print_int. destruct (n <? 0); [|done]. by constructor.
Qed.

Lemma print_int_nonempty n : print_int n <> [].
Proof.
  unfold print_int. destruct (n <? 0); [done|]. by destruct (print_dec_head n) as (c & s & -> & _).
Qed.
End decimal.

(** ** Tokens *)

(** [strtok(s, "d")] to exhaustion: the maximal runs without the delimiter. *)
Fixpoint tokens (d : ascii) (s : list ascii) : list (list ascii) :=
  match s with
  | [] => []
  | c :: s' =>
      if Ascii.eqb c d then tokens d s'
      else match s' with
           | [] => [[c]]
           | c' :: _ => if Ascii.eqb c' d then [c] :: tokens d s'
                        else match tokens d s' with t :: ts => (c :: t) :: ts | [] => [[c]] end
           end
  end.

(** [s1 d s2 d ... sn]. *)
Fixpoint sep_by (d : ascii) (l : list (list ascii)) : list ascii :=
  match l with
  | [] => []
  | [s] => s
  | s :: l' => s ++ d :: sep_by d l'
  end.

Definition no_char (d : ascii) (s : list ascii) : Prop := Forall (fun c => Ascii.eqb c d = false) s.

Section tokens.
Context (d : ascii).
Implicit Types (s : list ascii) (l : list (list ascii)).

Lemma tokens_delim s : tokens d (d :: s) = tokens d s.
Proof. cbn [tokens]. by rewrite Ascii.eqb_refl. Qed.

Lemma tokens_field s k :
  s <> [] -> no_char d s -> tokens d (s ++ d :: k) = s :: tokens d k.
Proof.
  intros Hne H. induction H as [|c s Hc Hs IH]; [done|].
  simpl app. cbn [tokens]. rewrite Hc. destruct s as [|c' s'].
  - simpl. by rewrite Ascii.eqb_refl.
  - simpl app in *. apply Forall_cons_1 in Hs as [Hc' _]. rewrite Hc'. by rewrite IH.
Qed.

Lemma tokens_one s : s <> [] -> no_char d s -> tokens d s = [s].
Proof.
  intros Hne H. induction H as [|c s Hc Hs IH]; [done|].
  cbn [tokens]. rewrite Hc. destruct s as [|c' s']; [done|].
  apply Forall_cons_1 in Hs as [Hc' _]. rewrite Hc'. by rewrite IH.
Qed.

Lemma tokens_sep_by l :
  Forall (fun s => s <> [] /\ no_char d s) l -> tokens d (sep_by d l) = l.
Proof.
  induction 1 as [|s l [Hne Hs] Hl IH]; [done|]. destruct l as [|s' l'].
  - by apply tokens_one.
  - cbn [sep_by] in *. rewrite tokens_field by done. by rewrite IH.
Qed.

Lemma tokens_no_delim s t : In t (tokens d s) -> t <> [] /\ no_char d t.
Proof.
  revert t. induction s as [|c s IH]; intros t; [done|]. cbn [tokens].
  destruct (Ascii.eqb c d) eqn:Hc; [apply IH|]. destruct s as [|c' s'].
  - intros [<-|[]]. split; [done|]. by repeat constructor.
  - destruct (Ascii.eqb c' d).
    + intros [<-|Hin]; [|by apply IH]. split; [done|]. by repeat constructor.
    + destruct (tokens d (c' :: s')) as [|t0 ts].
      * intros [<-|[]]. split; [done|]. by repeat constructor.
      * intros [<-|Hin]; [|apply IH; by right]. destruct (IH t0 ltac:(by left)) as [_ Ht].
        split; [done|]. by constructor.
Qed.
End tokens.

(** [strchr(s, d)]: what precedes the first [d], and what follows it. *)
Definition split_at (d : ascii) (s : list ascii) : option (list ascii * list ascii) :=
  match skip (fun c => negb (Ascii.eqb c d)) s with
  | [] => None
  | _ :: after => Some (span (fun c => negb (Ascii.eqb c d)) s, after)
  end.

Lemma split_at_app d s k : no_char d s -> split_at d (s ++ d :: k) = Some (s, k).
Proof.
  intros H. unfold split_at.
  assert (Forall (fun c => negb (Ascii.eqb c d) = true) s) as H' by (induction H as [|c s Hc _ IH]; constructor; [by rewrite Hc | done]).
  rewrite skip_app_stop, span_app_stop by (done || by rewrite Ascii.eqb_refl). done.
Qed.
