(* ===== verification/DateNormalize.v ===== *)
(** * Date normalisation: src/src/execute/date_normalize.c

    [tokenize_mask], [parse_value], [finish] and [date_normalize] follow the C
    functions step by step: a pointer into the mask or the value is the suffix
    that is left to read, a [goto] to an error label is the result [Err].  The
    tokenizer's [while] loop takes fuel; one unit per character of the mask is
    enough ([tokenize_mask_total]).  The clock is the argument [now_y, now_m]
    (local year and month). *)

From S2P Require Import Prelude.
From Stdlib Require Import Ascii String ZArith Lia Bool.
From stdpp Require Import base list strings numbers.

#[local] Open Scope Z_scope.
#[local] Open Scope c_scope.

(** ** Mask elements *)

Inductive el_kind :=
| EL_SEP | EL_LIT
| EL_YYYY | EL_RRRR | EL_YY | EL_RR
| EL_MM | EL_MON | EL_MONTH
| EL_DD
| EL_HH24 | EL_HH12
| EL_MI | EL_SS | EL_FF
| EL_AMPM.

#[export] Instance el_kind_eq_dec : EqDecision el_kind.
Proof. solve_decision. Defined.

Inductive el_group := G_NONE | G_YEAR | G_MONTH | G_DAY | G_HOUR | G_MIN | G_SEC | G_FRAC | G_MER.

#[export] Instance el_group_eq_dec : EqDecision el_group.
Proof. solve_decision. Defined.

Record fmt_el := mk_el { kind : el_kind; ff_digits : Z; text : list ascii }.

Definition MAX_ELEMENTS : nat := 48.
(** [sizeof(el->text) - 1]. *)
Definition TEXT_MAX : nat := 63.

Definition KEYWORDS : list (list ascii * el_kind) :=
  map (fun e => (str (fst e), snd e))
  [ ("HH24", EL_HH24); ("HH12", EL_HH12); ("HH", EL_HH12);
    ("MONTH", EL_MONTH); ("MON", EL_MON); ("MM", EL_MM); ("MI", EL_MI);
    ("YYYY", EL_YYYY); ("RRRR", EL_RRRR); ("YY", EL_YY); ("RR", EL_RR);
    ("DD", EL_DD); ("SS", EL_SS);
    ("A.M.", EL_AMPM); ("P.M.", EL_AMPM); ("AM", EL_AMPM); ("PM", EL_AMPM) ].

Definition UNSUPPORTED_PREFIXES : list (list ascii) := map str ["SSSSS"; "DDD"; "DAY"].

Definition group_of (k : el_kind) : el_group :=
  match k with
  | EL_YYYY | EL_RRRR | EL_YY | EL_RR => G_YEAR
  | EL_MM | EL_MON | EL_MONTH => G_MONTH
  | EL_DD => G_DAY
  | EL_HH24 | EL_HH12 => G_HOUR
  | EL_MI => G_MIN
  | EL_SS => G_SEC
  | EL_FF => G_FRAC
  | EL_AMPM => G_MER
  | EL_SEP | EL_LIT => G_NONE
  end.

Definition is_time_element (k : el_kind) : bool :=
  match k with
  | EL_HH24 | EL_HH12 | EL_MI | EL_SS | EL_FF | EL_AMPM => true
  | _ => false
  end.

(** ** Return codes; the text is what [set_reason] writes. *)

Inductive norm_error :=
| DATE_NORM_BAD_VALUE (reason : list ascii)
| DATE_NORM_BAD_MASK (reason : list ascii)
| DATE_NORM_BAD_ARG (reason : list ascii).

Definition bad_mask {A} (s : list ascii) : res norm_error A := Err (DATE_NORM_BAD_MASK s).
Definition bad_value {A} (s : string) : res norm_error A := Err (DATE_NORM_BAD_VALUE (str s)).

(** ** Mask tokenizer *)

Fixpoint find_prefix (ws : list (list ascii)) (p : list ascii) : option (list ascii) :=
  match ws with
  | [] => None
  | w :: ws' => if ci_prefix w p then Some w else find_prefix ws' p
  end.

Fixpoint find_keyword (ks : list (list ascii * el_kind)) (p : list ascii)
    : option (list ascii * el_kind) :=
  match ks with
  | [] => None
  | (w, k) :: ks' => if ci_prefix w p then Some (w, k) else find_keyword ks' p
  end.

(** The element that starts at [p] ([p] not empty) and the rest of the mask:
    the body of the loop down to "per-element mask rules". *)
Definition next_element (p : list ascii) : res norm_error (fmt_el * list ascii) :=
  match p with
  | [] => bad_mask []
  | c :: p1 =>
    if Ascii.eqb c dquote then
      match skip (fun d => negb (Ascii.eqb d dquote)) p1 with
      | _ :: after =>
          Ok (mk_el EL_LIT 0 (take TEXT_MAX (span (fun d => negb (Ascii.eqb d dquote)) p1)), after)
      | [] => bad_mask (str "format has unterminated quoted text")
      end
    else if negb (isalnum c) then
      let sep := fun d => negb (Ascii.eqb d dquote) && negb (isalnum d) in
      Ok (mk_el EL_SEP 0 (take TEXT_MAX (span sep p)), skip sep p)
    else
      match find_prefix UNSUPPORTED_PREFIXES p with
      | Some u => bad_mask (str "unsupported format element '" ++ take (length u) p ++ str "'")
      | None =>
        if ci_prefix (str "FF") p then
          match drop 2 p with
          | d :: p3 =>
              if in_range 49 57 d
              then Ok (mk_el EL_FF (digit_val d) (str "FF" ++ [d]), p3)
              else Ok (mk_el EL_FF 0 (str "FF"), drop 2 p)
          | [] => Ok (mk_el EL_FF 0 (str "FF"), [])
          end
        else
          match find_keyword KEYWORDS p with
          | Some (w, k) => Ok (mk_el k 0 w, drop (length w) p)
          | None =>
              bad_mask (str "unsupported format element '" ++ take 16 (span isalnum p) ++ str "'")
          end
      end
  end.

(** The duplicate and FF rules, on an element just read; quoted literals and
    separators never reach them ([continue]) and have group [G_NONE]. *)
Definition element_rules (el : fmt_el) (is_timestamp : bool) (seen : list el_group)
    : res norm_error (list el_group) :=
  let g := group_of (kind el) in
  if bool_decide (g <> G_NONE) && bool_decide (g ∈ seen) then
    bad_mask (str "format element '" ++ text el ++
              str "' appears twice (or clashes with another element for the same field)")
  else if bool_decide (kind el = EL_FF) && negb is_timestamp then
    bad_mask (str "fractional seconds (FF) are only valid for TIMESTAMP columns")
  else Ok (if decide (g = G_NONE) then seen else g :: seen).

(** The [while] loop; [els] is in reverse order.  [None]: out of fuel. *)
Fixpoint tokenize_loop (fuel : nat) (p : list ascii) (is_timestamp : bool)
    (seen : list el_group) (els : list fmt_el) : option (res norm_error (list fmt_el)) :=
  match p with
  | [] => Some (Ok (rev els))
  | _ :: _ =>
    match fuel with
    | O => None
    | S fuel' =>
      if (MAX_ELEMENTS <=? length els)%nat then Some (bad_mask (str "format is too long"))
      else
        match next_element p with
        | Err e => Some (Err e)
        | Ok (el, p') =>
          match element_rules el is_timestamp seen with
          | Err e => Some (Err e)
          | Ok seen' => tokenize_loop fuel' p' is_timestamp seen' (el :: els)
          end
        end
    end
  end.

Definition has_kind (k : el_kind) (els : list fmt_el) : bool :=
  existsb (fun el => bool_decide (kind el = k)) els.

Definition is_data (el : fmt_el) : bool :=
  match kind el with EL_SEP | EL_LIT => false | _ => true end.

(** The checks on the whole element list. *)
Definition mask_checks (els : list fmt_el) : res norm_error (list fmt_el) :=
  if has_kind EL_HH24 els && has_kind EL_AMPM els
  then bad_mask (str "HH24 cannot be used with AM/PM")
  else if negb (existsb is_data els)
  then bad_mask (str "format has no date or time elements")
  else Ok els.

Definition tokenize_mask (mask : list ascii) (is_timestamp : bool)
    : option (res norm_error (list fmt_el)) :=
  match tokenize_loop (length mask) mask is_timestamp [] [] with
  | None => None
  | Some (Err e) => Some (Err e)
  | Some (Ok els) => Some (mask_checks els)
  end.

(** ** Value parser *)

Record dt_parts := mk_dt {
  year : Z; month : Z; day : Z; hour : Z; minute : Z; second : Z;
  year_set : bool; month_set : bool; day_set : bool; hour_set : bool;
  hour_is_12 : bool;
  meridian : Z;                  (* 0 none, 1 AM, 2 PM *)
  frac : list ascii }.

(** [memset(&dt, 0, sizeof(dt))]. *)
Definition dt_zero : dt_parts := mk_dt 0 0 0 0 0 0 false false false false false 0 [].

Definition set_year (y : Z) (d : dt_parts) : dt_parts :=
  mk_dt y (month d) (day d) (hour d) (minute d) (second d)
        true (month_set d) (day_set d) (hour_set d) (hour_is_12 d) (meridian d) (frac d).
Definition set_month (m : Z) (d : dt_parts) : dt_parts :=
  mk_dt (year d) m (day d) (hour d) (minute d) (second d)
        (year_set d) true (day_set d) (hour_set d) (hour_is_12 d) (meridian d) (frac d).
Definition set_day (n : Z) (d : dt_parts) : dt_parts :=
  mk_dt (year d) (month d) n (hour d) (minute d) (second d)
        (year_set d) (month_set d) true (hour_set d) (hour_is_12 d) (meridian d) (frac d).
Definition set_hour (n : Z) (is12 : bool) (d : dt_parts) : dt_parts :=
  mk_dt (year d) (month d) (day d) n (minute d) (second d)
        (year_set d) (month_set d) (day_set d) true is12 (meridian d) (frac d).
Definition set_minute (n : Z) (d : dt_parts) : dt_parts :=
  mk_dt (year d) (month d) (day d) (hour d) n (second d)
        (year_set d) (month_set d) (day_set d) (hour_set d) (hour_is_12 d) (meridian d) (frac d).
Definition set_second (n : Z) (d : dt_parts) : dt_parts :=
  mk_dt (year d) (month d) (day d) (hour d) (minute d) n
        (year_set d) (month_set d) (day_set d) (hour_set d) (hour_is_12 d) (meridian d) (frac d).
Definition set_meridian (n : Z) (d : dt_parts) : dt_parts :=
  mk_dt (year d) (month d) (day d) (hour d) (minute d) (second d)
        (year_set d) (month_set d) (day_set d) (hour_set d) (hour_is_12 d) n (frac d).
Definition set_frac (f : list ascii) (d : dt_parts) : dt_parts :=
  mk_dt (year d) (month d) (day d) (hour d) (minute d) (second d)
        (year_set d) (month_set d) (day_set d) (hour_set d) (hour_is_12 d) (meridian d) f.

Definition MONTH_FULL : list (list ascii) :=
  map str ["JANUARY"; "FEBRUARY"; "MARCH"; "APRIL"; "MAY"; "JUNE";
           "JULY"; "AUGUST"; "SEPTEMBER"; "OCTOBER"; "NOVEMBER"; "DECEMBER"].

(** The two [for] loops: [len] picks how much of each name must match. *)
Fixpoint month_loop (names : list (list ascii)) (len : list ascii -> nat) (m : Z) (v : list ascii)
    : option (Z * list ascii) :=
  match names with
  | [] => None
  | w :: ws =>
      if ci_prefix (take (len w) w) v then Some (m + 1, drop (len w) v)
      else month_loop ws len (m + 1) v
  end.

Definition read_month_name (v : list ascii) : option (Z * list ascii) :=
  match month_loop MONTH_FULL (@length ascii) 0 v with
  | Some r => Some r
  | None => month_loop MONTH_FULL (fun _ => 3%nat) 0 v
  end.

(** Up to [max_width] digits: (number of digits, value, rest). *)
Fixpoint read_digits (max_width : nat) (v : list ascii) (acc : Z) : nat * Z * list ascii :=
  match max_width, v with
  | S w, c :: v' =>
      if isdigit c then
        let '(n, x, r) := read_digits w v' (acc * 10 + digit_val c) in (S n, x, r)
      else (O, acc, v)
  | _, _ => (O, acc, v)
  end.

Definition expand_two_digit_year (yy : Z) (is_rr : bool) (current_year : Z) : Z :=
  let century := Z.quot current_year 100 in
  if negb is_rr then century * 100 + yy
  else
    let cur_yy := Z.rem current_year 100 in
    if yy <? 50 then (if cur_yy <? 50 then century else century + 1) * 100 + yy
    else (if cur_yy <? 50 then century - 1 else century) * 100 + yy.

(** The [EL_SEP] case: blanks are free, other punctuation is counted. *)
Fixpoint skip_separator (max_punct : nat) (punct : nat) (v : list ascii) : list ascii :=
  match v with
  | c :: v' =>
      if isalnum c then v
      else if isspace c then skip_separator max_punct punct v'
      else if (max_punct <=? punct)%nat then v
      else skip_separator max_punct (S punct) v'
  | [] => []
  end.

Definition non_numeric {A} : res norm_error A :=
  bad_value "a non-numeric character was found where a numeric was expected".
Definition bad_month {A} : res norm_error A := bad_value "not a valid month".

Definition parse_number (width : nat) (v : list ascii) : res norm_error (nat * Z * list ascii) :=
  let r := read_digits width v 0 in
  if Nat.eqb (fst (fst r)) 0 then non_numeric else Ok r.

(** The [switch (el->kind)] of [parse_value]. *)
Definition parse_element (el : fmt_el) (current_year : Z) (v : list ascii) (dt : dt_parts)
    : res norm_error (list ascii * dt_parts) :=
  match kind el with
  | EL_SEP => Ok (skip_separator (length (text el)) 0 v, dt)
  | EL_LIT =>
      if ci_prefix (text el) v then Ok (drop (length (text el)) v, dt)
      else bad_value "literal does not match format string"
  | EL_YYYY | EL_RRRR | EL_YY | EL_RR =>
      let! (nd, num, v') := parse_number 4 v in
      let num :=
        if (nd <=? 2)%nat && negb (bool_decide (kind el = EL_YYYY))
        then expand_two_digit_year num
               (bool_decide (kind el = EL_RR) || bool_decide (kind el = EL_RRRR)) current_year
        else num in
      Ok (v', set_year num dt)
  | EL_MM =>
      match v with
      | c :: _ =>
        if isalpha c then
          match read_month_name v with
          | Some (m, v') => Ok (v', set_month m dt)
          | None => bad_month
          end
        else
          let! (_, num, v') := parse_number 2 v in Ok (v', set_month num dt)
      | [] => non_numeric
      end
  | EL_MON | EL_MONTH =>
      match read_month_name v with
      | Some (m, v') => Ok (v', set_month m dt)
      | None => bad_month
      end
  | EL_DD => let! (_, num, v') := parse_number 2 v in Ok (v', set_day num dt)
  | EL_HH24 | EL_HH12 =>
      let! (_, num, v') := parse_number 2 v in
      Ok (v', set_hour num (bool_decide (kind el = EL_HH12)) dt)
  | EL_MI => let! (_, num, v') := parse_number 2 v in Ok (v', set_minute num dt)
  | EL_SS => let! (_, num, v') := parse_number 2 v in Ok (v', set_second num dt)
  | EL_FF =>
      let width := if ff_digits el =? 0 then 9%nat else Z.to_nat (ff_digits el) in
      let f := take width (span isdigit v) in
      if Nat.eqb (length f) 0 then non_numeric
      else Ok (drop (length f) v, set_frac f dt)
  | EL_AMPM =>
      if ci_prefix (str "A.M.") v then Ok (drop 4 v, set_meridian 1 dt)
      else if ci_prefix (str "P.M.") v then Ok (drop 4 v, set_meridian 2 dt)
      else if ci_prefix (str "AM") v then Ok (drop 2 v, set_meridian 1 dt)
      else if ci_prefix (str "PM") v then Ok (drop 2 v, set_meridian 2 dt)
      else bad_value "AM/A.M. or PM/P.M. required"
  end.

Definition may_be_missing (el : fmt_el) : bool := negb (is_data el) || is_time_element (kind el).

(** The [for] loop of [parse_value]; the early [break] when the value runs
    out is the first case. *)
Fixpoint parse_elements (els : list fmt_el) (current_year : Z) (v : list ascii) (dt : dt_parts)
    : res norm_error (list ascii * dt_parts) :=
  match els with
  | [] => Ok (v, dt)
  | el :: els' =>
    match v with
    | [] =>
        if forallb may_be_missing els then Ok (v, dt)
        else bad_value "input value not long enough for date format"
    | _ :: _ =>
        let! (v', dt') := parse_element el current_year v dt in
        parse_elements els' current_year v' dt'
    end
  end.

Definition parse_value (value : list ascii) (els : list fmt_el) (current_year : Z) (dt : dt_parts)
    : res norm_error dt_parts :=
  let! (v, dt') := parse_elements els current_year (skip isspace value) dt in
  match skip isspace v with
  | [] => Ok dt'
  | _ :: _ => bad_value "date format picture ends before converting entire input string"
  end.

(** ** Calendar checks and output *)

Definition is_leap (y : Z) : bool :=
  if y <? 1582 then Z.rem y 4 =? 0
  else ((Z.rem y 4 =? 0) && negb (Z.rem y 100 =? 0)) || (Z.rem y 400 =? 0).

Definition DIM : list Z := [31; 28; 31; 30; 31; 30; 31; 31; 30; 31; 30; 31].

Definition days_in_month (y m : Z) : Z :=
  if (m =? 2) && is_leap y then 29 else nth (Z.to_nat (m - 1)) DIM 0.

(** "%0<w>d" of a non-negative number. *)
Fixpoint digits (w : nat) (n : Z) (acc : list ascii) : list ascii :=
  match w with
  | O => acc
  | S w' => digits w' (n / 10) (digit_char (n mod 10) :: acc)
  end.
(** As many digits as the number needs, at least [w] ([n < 10^10]: an int). *)
Fixpoint width (fuel : nat) (w : nat) (n : Z) : nat :=
  match fuel with
  | O => w
  | S f => if n <? 10 ^ Z.of_nat w then w else width f (S w) n
  end.
Definition fmt_0d (w : nat) (n : Z) : list ascii := digits (width 10 w n) n [].

(** "%04d-%02d-%02d %02d:%02d:%02d". *)
Definition fmt_datetime (d : dt_parts) : list ascii :=
  fmt_0d 4 (year d) ++ str "-" ++ fmt_0d 2 (month d) ++ str "-" ++ fmt_0d 2 (day d) ++ str " " ++
  fmt_0d 2 (hour d) ++ str ":" ++ fmt_0d 2 (minute d) ++ str ":" ++ fmt_0d 2 (second d).

(** [f6]: six fraction digits, truncated, right-padded with zeros. *)
Definition frac6 (f : list ascii) : list ascii :=
  take 6 f ++ replicate (6 - length (take 6 f)) "0"%char.

(** The defaults, then the checks in the source's order. *)
Definition with_defaults (cy cm : Z) (d : dt_parts) : dt_parts :=
  mk_dt (if year_set d then year d else cy) (if month_set d then month d else cm)
        (if day_set d then day d else 1) (hour d) (minute d) (second d)
        (year_set d) (month_set d) (day_set d) (hour_set d) (hour_is_12 d) (meridian d) (frac d).

Definition check_date (d : dt_parts) : res norm_error dt_parts :=
  if (year d <? 1) || (9999 <? year d) then bad_value "year must be between 1 and 9999"
  else if (month d <? 1) || (12 <? month d) then bad_value "not a valid month"
  else if (day d <? 1) || (31 <? day d)
  then bad_value "day of month must be between 1 and last day of month"
  else if days_in_month (year d) (month d) <? day d
  then bad_value "date not valid for month specified"
  else if (year d =? 1582) && (month d =? 10) && (5 <=? day d) && (day d <=? 14)
  then Ok (set_day 15 d)
  else Ok d.

Definition check_time (d : dt_parts) : res norm_error dt_parts :=
  let! d :=
    (if hour_set d then
       if hour_is_12 d then
         if (hour d <? 1) || (12 <? hour d) then bad_value "hour must be between 1 and 12"
         else if meridian d =? 1 then Ok (set_hour (Z.rem (hour d) 12) (hour_is_12 d) d)
         else if meridian d =? 2 then Ok (set_hour (Z.rem (hour d) 12 + 12) (hour_is_12 d) d)
         else Ok d
       else if 23 <? hour d then bad_value "hour must be between 0 and 23"
       else Ok d
     else Ok d) in
  if 59 <? minute d then bad_value "minutes must be between 0 and 59"
  else if 59 <? second d then bad_value "seconds must be between 0 and 59"
  else Ok d.

Definition render (is_timestamp : bool) (d : dt_parts) : list ascii :=
  if is_timestamp then fmt_datetime d ++ str "." ++ frac6 (frac d) else fmt_datetime d.

Definition finish (d : dt_parts) (is_timestamp : bool) (cy cm : Z) (out_size : nat)
    : res norm_error (list ascii) :=
  let! d := check_date (with_defaults cy cm d) in
  let! d := check_time d in
  let w := render is_timestamp d in
  if (out_size <=? length w)%nat then Err (DATE_NORM_BAD_ARG (str "output buffer too small"))
  else Ok w.

(** ** Public API *)

Definition DATE_CANONICAL_MASK : list ascii := str "YYYY-MM-DD HH24:MI:SS".
Definition DATE_CANONICAL_MASK_TS : list ascii := str "YYYY-MM-DD HH24:MI:SS.FF6".
Definition DATE_NORMALIZE_OUT_MAX : nat := 32.

(** [out]: the size of the output buffer, [None] when it is NULL.  The result
    is the text left in the buffer on success; on failure it is untouched. *)
Definition date_normalize (value mask : option (list ascii)) (is_timestamp : bool)
    (out : option nat) (now_y now_m : Z) : option (res norm_error (list ascii)) :=
  match value, out with
  | Some value, Some out_size =>
    if (out_size <? DATE_NORMALIZE_OUT_MAX)%nat
    then Some (Err (DATE_NORM_BAD_ARG (str "invalid arguments")))
    else
      let mask := match mask with
                  | Some ((_ :: _) as m) => m
                  | _ => if is_timestamp then DATE_CANONICAL_MASK_TS else DATE_CANONICAL_MASK
                  end in
      match tokenize_mask mask is_timestamp with
      | None => None
      | Some toks => Some (
          let! els := toks in
          let! dt := parse_value value els now_y dt_zero in
          let! tmp := finish dt is_timestamp now_y now_m DATE_NORMALIZE_OUT_MAX in
          Ok (take (out_size - 1) tmp))
      end
  | _, _ => Some (Err (DATE_NORM_BAD_ARG (str "invalid arguments")))
  end.

Definition date_mask_is_canonical (mask : option (list ascii)) : bool :=
  match mask with
  | None => false
  | Some m =>
      let s := rskip isspace (skip isspace m) in
      Nat.eqb (length s) (length DATE_CANONICAL_MASK) && ci_prefix DATE_CANONICAL_MASK s
  end.

Definition dn (v m : string) (ts : bool) :=
  date_normalize (Some (str v)) (Some (str m)) ts (Some 32%nat) 2026 6.

Example dn_1 : dn "25/12/2026" "DD/MM/YYYY" false = Some (Ok (str "2026-12-25 00:00:00")).
Proof. vm_compute. reflexivity. Qed.
Example dn_2 : dn "2026-06-15 9:05:07.5 pm" "YYYY-MM-DD HH:MI:SS.FF3 AM" true
             = Some (Ok (str "2026-06-15 21:05:07.500000")).
Proof. vm_compute. reflexivity. Qed.
Example dn_3 : dn "10/10/1582" "DD/MM/YYYY" false = Some (Ok (str "1582-10-15 00:00:00")).
Proof. vm_compute. reflexivity. Qed.
Example dn_4 : dn "25//12//2026" "DD/MM/YYYY" false
             = Some (bad_value "a non-numeric character was found where a numeric was expected").
Proof. vm_compute. reflexivity. Qed.
Example dn_5 : dn "01-jan-49" "DD-MON-RR" false = Some (Ok (str "2049-01-01 00:00:00")).
Proof. vm_compute. reflexivity. Qed.

(** ** Lemmas: the tokenizer *)

Section tokenizer.
Implicit Types (p w : list ascii) (els : list fmt_el) (el : fmt_el).

Lemma find_keyword_In ks p w k : find_keyword ks p = Some (w, k) -> In (w, k) ks.
Proof.
  induction ks as [|[w' k'] ks IH]; simpl; [done|].
  destruct (ci_prefix w' p); intros H; [injection H as -> ->; by left | right; by apply IH].
Qed.

Lemma keyword_nonempty w k : In (w, k) KEYWORDS -> (0 < length w)%nat /\ k <> EL_SEP /\ k <> EL_LIT.
Proof.
  assert (Forall (fun e => (0 < length e.1)%nat /\ e.2 <> EL_SEP /\ e.2 <> EL_LIT) KEYWORDS) as H.
  { repeat (constructor || discriminate). }
  intros Hin. exact (proj1 (List.Forall_forall _ _) H _ Hin).
Qed.

(** Every element consumes at least one character of the mask. *)
Lemma next_element_progress c p el p' :
  next_element (c :: p) = Ok (el, p') -> (length p' < length (c :: p))%nat.
Proof.
  unfold next_element. destruct (Ascii.eqb c dquote) eqn:Eq.
  { pose proof (skip_length (fun d => negb (Ascii.eqb d dquote)) p) as L.
    destruct (skip _ p) as [|d after]; [done|]. intros [= _ <-]. simpl in *. lia. }
  destruct (isalnum c) eqn:Ea; simpl negb; cbv iota.
  2:{ intros [= _ <-]. simpl. rewrite Eq, Ea. simpl.
      pose proof (skip_length (fun d => negb (Ascii.eqb d dquote) && negb (isalnum d)) p). lia. }
  destruct (find_prefix _ _); [done|].
  destruct (ci_prefix (str "FF") (c :: p)) eqn:Ef.
  { destruct p as [|d p]; [cbn in Ef; by rewrite andb_false_r in Ef|].
    destruct p as [|d2 p]; simpl; [intros [= _ <-]; simpl; lia|].
    destruct (in_range 49 57 d2); intros [= _ <-]; simpl; lia. }
  destruct (find_keyword KEYWORDS (c :: p)) as [[w k]|] eqn:Ek; [|done].
  intros [= _ <-]. apply find_keyword_In, keyword_nonempty in Ek as [Hw _].
  rewrite length_drop. simpl. lia.
Qed.

Lemma tokenize_loop_cons fuel c p ts seen els :
  tokenize_loop (S fuel) (c :: p) ts seen els =
    if (MAX_ELEMENTS <=? length els)%nat then Some (bad_mask (str "format is too long"))
    else match next_element (c :: p) with
         | Err e => Some (Err e)
         | Ok (el, p') =>
             match element_rules el ts seen with
             | Err e => Some (Err e)
             | Ok seen' => tokenize_loop fuel p' ts seen' (el :: els)
             end
         end.
Proof. reflexivity. Qed.

Lemma tokenize_loop_fuel fuel p ts seen els :
  (length p <= fuel)%nat -> is_Some (tokenize_loop fuel p ts seen els).
Proof.
  revert p seen els. induction fuel as [|fuel IH]; intros [|c p] seen els Hl;
    [by eexists | simpl in Hl; lia | by eexists |].
  rewrite tokenize_loop_cons. destruct (Nat.leb MAX_ELEMENTS _); [by eauto|].
  destruct (next_element _) as [[el p']|e] eqn:En; [|by eauto].
  destruct (element_rules _ _ _); [|by eauto].
  apply IH. apply next_element_progress in En. simpl in En, Hl. lia.
Qed.

Lemma tokenize_mask_total mask ts : is_Some (tokenize_mask mask ts).
Proof.
  unfold tokenize_mask.
  destruct (tokenize_loop_fuel (length mask) mask ts [] [] (le_n _)) as [[els|e] ->]; by eauto.
Qed.

(** The groups of the data elements of a list. *)
Definition groups els : list el_group :=
  filter (fun g => g <> G_NONE) (map (fun el => group_of (kind el)) els).

Lemma element_rules_ok el ts seen seen' :
  element_rules el ts seen = Ok seen' ->
  (kind el = EL_FF -> ts = true) /\
  ((group_of (kind el) = G_NONE /\ seen' = seen) \/
   (group_of (kind el) <> G_NONE /\ (group_of (kind el) ∉ seen) /\
    seen' = group_of (kind el) :: seen)).
Proof.
  unfold element_rules, bad_mask. intros H.
  destruct (bool_decide (group_of (kind el) <> G_NONE)) eqn:Eg; simpl in H.
  - destruct (bool_decide (group_of (kind el) ∈ seen)) eqn:Es; [done|].
    bools. destruct (_ && _) eqn:Ef; [done|]. injection H as <-. split.
    + intros HF. rewrite bool_decide_true in Ef by done. simpl in Ef. by bools.
    + right. by rewrite decide_False.
  - destruct (bool_decide (kind el = EL_FF) && negb ts) eqn:Ef; [done|]. injection H as <-. split.
    + intros HF. rewrite bool_decide_true in Ef by done. simpl in Ef. by bools.
    + left. apply bool_decide_eq_false, dec_stable in Eg. by rewrite decide_True.
Qed.

(** The invariant of the loop: [els] and [seen] agree, no group is repeated,
    FF only for a TIMESTAMP, at most [MAX_ELEMENTS] elements. *)
Definition loop_inv (ts : bool) (seen : list el_group) els : Prop :=
  groups els = seen /\ NoDup seen /\ (length els <= MAX_ELEMENTS)%nat /\
  Forall (fun el => kind el = EL_FF -> ts = true) els.

Lemma tokenize_loop_inv fuel p ts seen els els' :
  loop_inv ts seen els -> tokenize_loop fuel p ts seen els = Some (Ok els') ->
  exists seen', loop_inv ts seen' (rev els').
Proof.
  revert p seen els. induction fuel as [|fuel IH]; intros [|c p] seen els Hinv.
  - intros [= <-]. exists seen. by rewrite rev_involutive.
  - done.
  - intros [= <-]. exists seen. by rewrite rev_involutive.
  - destruct Hinv as (Hg & Hnd & Hlen & HFF). rewrite tokenize_loop_cons.
    destruct (Nat.leb_spec MAX_ELEMENTS (length els)) as [?|Hlt]; [done|].
    destruct (next_element (c :: p)) as [[el p']|e]; [|done].
    destruct (element_rules el ts seen) as [seen'|e] eqn:Er; [|done].
    apply IH. apply element_rules_ok in Er as [Hff Hcase].
    unfold loop_inv, MAX_ELEMENTS in *. split; [|split; [|split]].
    + unfold groups in *. simpl. destruct Hcase as [[Hn ->]|(Hn & _ & ->)].
      * rewrite filter_cons_False; [done|]. by intros [].
      * rewrite filter_cons_True by done. by rewrite Hg.
    + destruct Hcase as [[_ ->]|(_ & Hni & ->)]; [done|]. by constructor.
    + simpl. lia.
    + by constructor.
Qed.
End tokenizer.

(** ** Lemmas: the value parser *)

(** What is known of the parts after any number of elements. *)
Definition dt_ok (d : dt_parts) : Prop :=
  0 <= hour d /\ 0 <= minute d /\ 0 <= second d /\ Forall (fun c => isdigit c = true) (frac d) /\
  (hour_set d = false -> hour d = 0).

Section parser.
Implicit Types (v : list ascii) (d : dt_parts).

Lemma digit_val_bounds c : isdigit c = true -> 0 <= digit_val c <= 9.
Proof. unfold isdigit, in_range, digit_val. intros H. bools. lia. Qed.

Lemma read_digits_nonneg w v a : 0 <= a -> 0 <= (read_digits w v a).1.2.
Proof.
  revert v a. induction w as [|w IH]; intros [|c v] a Ha; simpl; try done.
  destruct (isdigit c) eqn:E; [|done]. apply digit_val_bounds in E.
  specialize (IH v (a * 10 + digit_val c)). destruct (read_digits _ _ _) as [[n x] r]. simpl in *. lia.
Qed.

Lemma parse_number_nonneg w v n x r : parse_number w v = Ok (n, x, r) -> 0 <= x.
Proof.
  unfold parse_number. intros H. destruct (Nat.eqb _ _); [done|]. injection H as H.
  pose proof (read_digits_nonneg w v 0 ltac:(lia)) as Hn. rewrite H in Hn. done.
Qed.

Lemma span_take_Forall (f : ascii -> bool) n v : Forall (fun c => f c = true) (take n (span f v)).
Proof. apply Forall_take, span_Forall. Qed.

Lemma parse_element_ok el cy v d v' d' :
  dt_ok d -> parse_element el cy v d = Ok (v', d') -> dt_ok d'.
Proof.
  unfold dt_ok. intros (Hh & Hm & Hs & Hf & H0) H.
  unfold parse_element, non_numeric, bad_month, bad_value in H.
  destruct (kind el);
    repeat match goal with
    | H : Ok _ = Ok _ |- _ => injection H as <- <-
    | H : Err _ = Ok _ |- _ => discriminate H
    | H : res_bind _ _ = Ok _ |- _ =>
        apply res_bind_Ok in H as ([[? ?] ?] & ?%parse_number_nonneg & H)
    | H : context [match ?x with _ => _ end] |- _ =>
        lazymatch x with context [match _ with _ => _ end] => fail | _ => destruct x end
    end; simpl; repeat split; auto using span_take_Forall; discriminate.
Qed.

Lemma parse_elements_ok els cy v d v' d' :
  dt_ok d -> parse_elements els cy v d = Ok (v', d') -> dt_ok d'.
Proof.
  revert v d. induction els as [|el els IH]; intros v d Hd; simpl; [by intros H; injection H as _ <-|].
  destruct v as [|c v].
  - destruct (_ && _); [by intros H; injection H as _ <- | done].
  - intros H. apply res_bind_Ok in H as ([v1 d1] & H1 & H). eauto using parse_element_ok.
Qed.

Lemma parse_value_ok v els cy d d' : dt_ok d -> parse_value v els cy d = Ok d' -> dt_ok d'.
Proof.
  intros Hd H. unfold parse_value in H. apply res_bind_Ok in H as ([v1 d1] & H1 & H).
  destruct (skip isspace v1); [|done]. injection H as <-. eauto using parse_elements_ok.
Qed.
End parser.

(** ** Lemmas: the checks and the output *)

(** A calendar date and time of day as the gateway may store it. *)
Definition valid_datetime (d : dt_parts) : Prop :=
  1 <= year d <= 9999 /\ 1 <= month d <= 12 /\ 1 <= day d <= days_in_month (year d) (month d) /\
  ~ (year d = 1582 /\ month d = 10 /\ 5 <= day d <= 14) /\
  0 <= hour d <= 23 /\ 0 <= minute d <= 59 /\ 0 <= second d <= 59 /\
  Forall (fun c => isdigit c = true) (frac d).

Section checks.
Implicit Types (d : dt_parts).

Lemma check_date_ok d d' :
  check_date d = Ok d' ->
  1 <= year d' <= 9999 /\ 1 <= month d' <= 12 /\ 1 <= day d' <= days_in_month (year d') (month d') /\
  ~ (year d' = 1582 /\ month d' = 10 /\ 5 <= day d' <= 14) /\
  hour d' = hour d /\ minute d' = minute d /\ second d' = second d /\ frac d' = frac d /\
  meridian d' = meridian d /\ hour_set d' = hour_set d.
Proof.
  unfold check_date, bad_value. intros H.
  destruct ((_ <? _) || (_ <? _)) eqn:Ey in H; [done|].
  destruct ((_ <? _) || (_ <? _)) eqn:Em in H; [done|].
  destruct ((_ <? _) || (_ <? _)) eqn:Ed in H; [done|].
  destruct (_ <? _) eqn:El in H; [done|].
  destruct (_ && _) eqn:Eg in H; injection H as <-; simpl.
  - bools. repeat match goal with H : year d = _ |- _ => rewrite H in * | H : month d = _ |- _ => rewrite H in * end.
    vm_compute (days_in_month 1582 10). repeat split; lia || (intros [_ [_ ?]]; lia).
  - bools. repeat split; lia.
Qed.

Lemma check_time_ok d d' :
  dt_ok d -> check_time d = Ok d' ->
  0 <= hour d' <= 23 /\ 0 <= minute d' <= 59 /\ 0 <= second d' <= 59 /\
  year d' = year d /\ month d' = month d /\ day d' = day d /\ frac d' = frac d.
Proof.
  unfold check_time, bad_value. intros (Hh & Hm & Hs & _ & H0) H.
  apply res_bind_Ok in H as (d1 & H1 & H).
  destruct (59 <? minute d1) eqn:E1; [done|]. destruct (59 <? second d1) eqn:E2; [done|].
  injection H as <-. destruct (hour_set d).
  2:{ injection H1 as <-. bools. rewrite H0 by done. repeat split; lia. }
  destruct (hour_is_12 d).
  - destruct ((_ <? _) || (_ <? _)) eqn:E in H1; [done|].
    destruct (meridian d =? 1); [|destruct (meridian d =? 2)]; injection H1 as <-; simpl in *; bools;
      repeat split; Z.to_euclidean_division_equations; lia.
  - destruct (23 <? hour d) eqn:E; [done|]. injection H1 as <-. bools. repeat split; lia.
Qed.
End checks.

Section output.
Implicit Types (d : dt_parts) (k : list ascii).

Lemma digits_acc w n k : digits w n k = digits w n [] ++ k.
Proof.
  revert n k. induction w as [|w IH]; intros n k; [done|].
  simpl. rewrite IH, (IH _ [_]), <- app_assoc. done.
Qed.

Lemma digits_S w n : digits (S w) n [] = digits w (n / 10) [] ++ [digit_char (n mod 10)].
Proof. simpl. apply digits_acc. Qed.

Lemma digits_length w n : length (digits w n []) = w.
Proof.
  revert n. induction w as [|w IH]; intros n; [done|]. rewrite digits_S, length_app, IH. simpl. lia.
Qed.

Lemma fmt_0d_small w n : n < 10 ^ Z.of_nat w -> fmt_0d w n = digits w n [].
Proof. intros H. unfold fmt_0d. simpl. by rewrite (proj2 (Z.ltb_lt _ _) H). Qed.

Lemma digits_isdigit w n : Forall (fun c => isdigit c = true) (digits w n []).
Proof.
  revert n. induction w as [|w IH]; intros n; [constructor|]. rewrite digits_S.
  apply Forall_app; split; [done|]. constructor; [|done].
  apply digit_char_spec, Z.mod_pos_bound. lia.
Qed.

(** Reading back what "%0<w>d" prints. *)
Lemma read_digits_print w w' n k a :
  0 <= n < 10 ^ Z.of_nat w ->
  read_digits (w + w') (digits w n [] ++ k) a =
    let '(m, x, r) := read_digits w' k (a * 10 ^ Z.of_nat w + n) in ((w + m)%nat, x, r).
Proof.
  revert w' n k a. induction w as [|w IH]; intros w' n k a Hn.
  - simpl in Hn. assert (n = 0) as -> by lia. simpl. rewrite Z.mul_1_r, Z.add_0_r.
    by destruct (read_digits w' k a) as [[m x] r].
  - rewrite digits_S, <- app_assoc. replace (S w + w')%nat with (w + S w')%nat by lia.
    assert (10 ^ Z.of_nat (S w) = 10 * 10 ^ Z.of_nat w) as Hp.
    { rewrite Nat2Z.inj_succ, Z.pow_succ_r; lia. }
    rewrite IH by (split; [apply Z.div_pos; lia | apply Z.div_lt_upper_bound; lia]).
    pose proof (Z.mod_pos_bound n 10 ltac:(lia)) as Hb.
    destruct (digit_char_spec (n mod 10) Hb) as [E1 E2]. simpl. rewrite E1, E2.
    replace ((a * 10 ^ Z.of_nat w + n / 10) * 10 + n mod 10) with (a * 10 ^ Z.of_nat (S w) + n)
      by (rewrite Hp; pose proof (Z.div_mod n 10 ltac:(lia)); lia).
    destruct (read_digits w' k _) as [[m x] r]. f_equal. f_equal. lia.
Qed.

Lemma parse_number_print w n k :
  (0 < w)%nat -> 0 <= n < 10 ^ Z.of_nat w -> parse_number w (fmt_0d w n ++ k) = Ok (w, n, k).
Proof.
  intros Hw Hn. unfold parse_number. rewrite fmt_0d_small by lia.
  pose proof (read_digits_print w 0 n k 0 Hn) as H. rewrite Nat.add_0_r in H. rewrite H. simpl.
  rewrite Nat.add_0_r. destruct w; [lia|]. done.
Qed.

Lemma fmt_0d_head w n : (0 < w)%nat -> 0 <= n < 10 ^ Z.of_nat w ->
  exists c t, fmt_0d w n = c :: t /\ isdigit c = true.
Proof.
  intros Hw Hn. rewrite fmt_0d_small by lia.
  pose proof (digits_isdigit w n) as H. pose proof (digits_length w n) as L.
  destruct (digits w n []) as [|c t]; [simpl in L; lia|]. exists c, t. split; [done|]. by inversion H.
Qed.

Lemma fmt2_length n : 0 <= n < 100 -> length (fmt_0d 2 n) = 2%nat.
Proof. intros H. rewrite fmt_0d_small; [apply digits_length|]. change (10 ^ Z.of_nat 2) with 100. lia. Qed.
Lemma fmt4_length n : 0 <= n < 10000 -> length (fmt_0d 4 n) = 4%nat.
Proof. intros H. rewrite fmt_0d_small; [apply digits_length|]. change (10 ^ Z.of_nat 4) with 10000. lia. Qed.

Lemma days_in_month_bound y m : 1 <= m <= 12 -> 28 <= days_in_month y m <= 31.
Proof.
  intros H. unfold days_in_month. destruct (_ && _); [lia|].
  assert (Forall (fun x => 28 <= x <= 31) DIM) as HF 
    by (repeat (apply List.Forall_cons; [lia|]); apply List.Forall_nil).
  apply (proj1 (List.Forall_forall _ _) HF), nth_In. change (length DIM) with 12%nat. lia.
Qed.

Lemma frac6_length f : length (frac6 f) = 6%nat.
Proof. unfold frac6. rewrite length_app, length_replicate, length_take. lia. Qed.

Lemma render_length ts d : valid_datetime d -> length (render ts d) = if ts then 26%nat else 19%nat.
Proof.
  intros (Hy & Hm & Hd & _ & Hh & Hmi & Hs & _).
  pose proof (days_in_month_bound (year d) (month d) Hm).
  unfold render, fmt_datetime.
  destruct ts; rewrite !length_app, fmt4_length by lia; rewrite !fmt2_length by lia;
    rewrite ?frac6_length; reflexivity.
Qed.
End output.

(** ** Reading the canonical form *)

Section canonical.
Implicit Types (k : list ascii).

(** The elements of the two canonical masks. *)
Definition canonical_els (ts : bool) : list fmt_el :=
  [ mk_el EL_YYYY 0 (str "YYYY"); mk_el EL_SEP 0 (str "-"); mk_el EL_MM 0 (str "MM");
    mk_el EL_SEP 0 (str "-"); mk_el EL_DD 0 (str "DD"); mk_el EL_SEP 0 (str " ");
    mk_el EL_HH24 0 (str "HH24"); mk_el EL_SEP 0 (str ":"); mk_el EL_MI 0 (str "MI");
    mk_el EL_SEP 0 (str ":"); mk_el EL_SS 0 (str "SS") ] ++
  (if ts then [ mk_el EL_SEP 0 (str "."); mk_el EL_FF 6 (str "FF6") ] else []).

Lemma tokenize_canonical (ts : bool) :
  tokenize_mask (if ts then DATE_CANONICAL_MASK_TS else DATE_CANONICAL_MASK) ts
    = Some (Ok (canonical_els ts)).
Proof. destruct ts; vm_compute; reflexivity. Qed.

(** One separator character of the mask against the same one in the value. *)
Lemma skip_separator_one s c k cy dt :
  isalnum s = false -> isalnum c = true ->
  parse_element (mk_el EL_SEP 0 [s]) cy (s :: c :: k) dt = Ok (c :: k, dt).
Proof.
  intros Hs Hc. unfold parse_element. simpl. rewrite Hs.
  destruct (isspace s); simpl; by rewrite Hc.
Qed.

Lemma parse_num_element el w n k cy dt f :
  (0 < w)%nat -> 0 <= n < 10 ^ Z.of_nat w ->
  (forall v, parse_element el cy v dt = let! (_, num, v') := parse_number w v in Ok (v', f num)) ->
  parse_element el cy (fmt_0d w n ++ k) dt = Ok (k, f n).
Proof. intros Hw Hn H. by rewrite H, parse_number_print. Qed.

Lemma parse_elements_step el els cy v dt v' dt' :
  v <> [] -> parse_element el cy v dt = Ok (v', dt') ->
  parse_elements (el :: els) cy v dt = parse_elements els cy v' dt'.
Proof. intros Hv H. destruct v as [|c v]; [done|]. cbn [parse_elements]. by rewrite H. Qed.

Lemma fmt_0d_ne w n k : (0 < w)%nat -> 0 <= n < 10 ^ Z.of_nat w -> fmt_0d w n ++ k <> [].
Proof. intros Hw Hn. destruct (fmt_0d_head w n Hw Hn) as (c & t & -> & _). done. Qed.

Lemma sep_step s els w n k cy dt :
  isalnum s = false -> (0 < w)%nat -> 0 <= n < 10 ^ Z.of_nat w ->
  parse_elements (mk_el EL_SEP 0 [s] :: els) cy ([s] ++ fmt_0d w n ++ k) dt
    = parse_elements els cy (fmt_0d w n ++ k) dt.
Proof.
  intros Hs Hw Hn. destruct (fmt_0d_head w n Hw Hn) as (c & t & E & Hc).
  apply parse_elements_step; [done|]. rewrite E. simpl.
  by rewrite skip_separator_one by auto using isdigit_isalnum.
Qed.

Definition read_back (ts : bool) (d : dt_parts) : dt_parts :=
  mk_dt (year d) (month d) (day d) (hour d) (minute d) (second d)
        true true true true false 0 (if ts then frac6 (frac d) else []).

Lemma frac6_digits f :
  Forall (fun c => isdigit c = true) f -> Forall (fun c => isdigit c = true) (frac6 f).
Proof.
  intros H. unfold frac6. apply Forall_app. split; [by apply Forall_take|].
  by apply Forall_replicate.
Qed.

Lemma span_all (f : ascii -> bool) k : Forall (fun c => f c = true) k -> span f k = k.
Proof. induction 1 as [|c k E _ IH]; simpl; [done|]. by rewrite E, IH. Qed.

Lemma parse_ff f cy dt :
  length f = 6%nat -> Forall (fun c => isdigit c = true) f ->
  parse_elements [mk_el EL_SEP 0 (str "."); mk_el EL_FF 6 (str "FF6")] cy (str "." ++ f) dt
    = Ok ([], set_frac f dt).
Proof.
  intros Hl Hf. destruct f as [|c f]; [done|].
  rewrite (parse_elements_step _ _ _ _ _ (c :: f) dt); [|done|].
  2:{ simpl. rewrite skip_separator_one; [done|done|]. apply isdigit_isalnum. by inversion Hf. }
  rewrite (parse_elements_step _ _ _ _ _ [] (set_frac (c :: f) dt)); [done|done|].
  unfold parse_element. cbn [kind ff_digits].
  change (if 6 =? 0 then 9%nat else Z.to_nat 6) with 6%nat.
  rewrite span_all by done. rewrite take_ge by lia. rewrite drop_ge by lia.
  by rewrite Hl.
Qed.
End canonical.

Section canonical_value.
Implicit Types (k : list ascii) (t : list ascii) (els : list fmt_el).

Lemma num_step el els w n k cy dt (f : Z -> dt_parts) :
  (0 < w)%nat -> 0 <= n < 10 ^ Z.of_nat w ->
  parse_element el cy (fmt_0d w n ++ k) dt =
    (let! (_, num, v') := parse_number w (fmt_0d w n ++ k) in Ok (v', f num)) ->
  parse_elements (el :: els) cy (fmt_0d w n ++ k) dt = parse_elements els cy k (f n).
Proof.
  intros Hw Hn H. apply parse_elements_step; [by apply fmt_0d_ne|].
  by rewrite H, parse_number_print.
Qed.

Lemma year_step t els n k cy dt :
  0 <= n < 10000 ->
  parse_elements (mk_el EL_YYYY 0 t :: els) cy (fmt_0d 4 n ++ k) dt
    = parse_elements els cy k (set_year n dt).
Proof.
  intros Hn. apply parse_elements_step; [by apply fmt_0d_ne; [lia|]|].
  unfold parse_element. cbn [kind]. rewrite parse_number_print by (done || lia). done.
Qed.

Lemma isdigit_not_alpha c : isdigit c = true -> isalpha c = false.
Proof. all_ascii c. Qed.

Lemma month_step t els n k cy dt :
  0 <= n < 100 ->
  parse_elements (mk_el EL_MM 0 t :: els) cy (fmt_0d 2 n ++ k) dt
    = parse_elements els cy k (set_month n dt).
Proof.
  intros Hn. apply (num_step _ _ 2 n k cy dt (fun x => set_month x dt)); [lia|done|].
  unfold parse_element. cbn [kind].
  destruct (fmt_0d_head 2 n ltac:(lia) Hn) as (c & u & -> & Hc).
  cbn [app]. by rewrite isdigit_not_alpha.
Qed.

Lemma parse_canonical (ts : bool) d cy :
  valid_datetime d -> parse_value (render ts d) (canonical_els ts) cy dt_zero = Ok (read_back ts d).
Proof.
  intros (Hy & Hm & Hd & _ & Hh & Hmi & Hs & Hf).
  pose proof (days_in_month_bound (year d) (month d) Hm) as Hb.
  assert (render ts d = fmt_0d 4 (year d) ++ str "-" ++ fmt_0d 2 (month d) ++ str "-" ++
    fmt_0d 2 (day d) ++ str " " ++ fmt_0d 2 (hour d) ++ str ":" ++ fmt_0d 2 (minute d) ++ str ":" ++
    fmt_0d 2 (second d) ++ (if ts then str "." ++ frac6 (frac d) else [])) as ->.
  { unfold render, fmt_datetime. destruct ts; rewrite <- ?app_assoc; [done|]. by rewrite app_nil_r. }
  unfold parse_value.
  assert (forall k, skip isspace (fmt_0d 4 (year d) ++ k) = fmt_0d 4 (year d) ++ k) as ->.
  { intros k. destruct (fmt_0d_head 4 (year d)) as (c & u & -> & Hc); [lia|simpl; lia|].
    apply skip_id. by apply isdigit_not_space. }
  unfold canonical_els. cbn [app]. rewrite year_step by lia.
  rewrite (sep_step "-"%char) by (done || lia). rewrite month_step by lia.
  rewrite (sep_step "-"%char) by (done || lia).
  rewrite (num_step _ _ 2 _ _ _ _ (fun x => set_day x _)) by (done || lia).
  rewrite (sep_step " "%char) by (done || lia).
  rewrite (num_step _ _ 2 _ _ _ _ (fun x => set_hour x false _)) by (done || lia).
  rewrite (sep_step ":"%char) by (done || lia).
  rewrite (num_step _ _ 2 _ _ _ _ (fun x => set_minute x _)) by (done || lia).
  rewrite (sep_step ":"%char) by (done || lia).
  rewrite (num_step _ _ 2 _ _ _ _ (fun x => set_second x _)) by (done || lia).
  destruct ts; [|done].
  rewrite parse_ff by (apply frac6_length || by apply frac6_digits). done.
Qed.

Lemma finish_read_back (ts : bool) d cy cm :
  valid_datetime d ->
  finish (read_back ts d) ts cy cm DATE_NORMALIZE_OUT_MAX = Ok (render ts d).
Proof.
  intros Hv. pose proof Hv as (Hy & Hm & Hd & Hg & Hh & Hmi & Hs & Hf).
  pose proof (days_in_month_bound (year d) (month d) Hm) as Hb.
  assert (render ts (read_back ts d) = render ts d) as Hr.
  { unfold render. destruct ts; [|done]. f_equal. f_equal. cbn [frac read_back].
    pose proof (frac6_length (frac d)) as L. unfold frac6 at 1. by rewrite take_ge, L, app_nil_r by lia. }
  unfold finish.
  assert (check_date (with_defaults cy cm (read_back ts d)) = Ok (read_back ts d)) as ->.
  { unfold check_date, with_defaults. cbn [read_back year month day year_set month_set day_set].
    rewrite !(proj2 (Z.ltb_ge _ _)) by lia. simpl.
    destruct (_ && _) eqn:E; [|done]. exfalso. apply Hg. bools. lia. }
  cbn [res_bind]. unfold check_time. cbn [read_back hour_set hour_is_12 hour].
  rewrite (proj2 (Z.ltb_ge 23 (hour d))) by lia. cbn [res_bind minute second read_back].
  rewrite (proj2 (Z.ltb_ge 59 (minute d))), (proj2 (Z.ltb_ge 59 (second d))) by lia. cbn [res_bind].
  rewrite Hr, render_length by done. by destruct ts.
Qed.
End canonical_value.

Lemma dt_zero_ok : dt_ok dt_zero.
Proof. split_and!; [done | done | done | constructor | done]. Qed.

(** Any accepted value is the rendering of a valid date. *)
Lemma normalized_form (value mask : option (list ascii)) (ts : bool)
    (out : option nat) (now_y now_m : Z) (o : list ascii) :
  date_normalize value mask ts out now_y now_m = Some (Ok o) ->
  exists d, valid_datetime d /\ o = render ts d.
Proof.
  intros H. unfold date_normalize in H.
  destruct value as [value|], out as [sz|]; try done.
  destruct (Nat.ltb_spec sz DATE_NORMALIZE_OUT_MAX) as [?|Hsz]; [done|].
  destruct (tokenize_mask _ ts) as [toks|]; [|done]. injection H as H.
  apply res_bind_Ok in H as (els & _ & H). apply res_bind_Ok in H as (dt & Hp & H).
  apply res_bind_Ok in H as (tmp & Hf & H). injection H as <-.
  apply parse_value_ok in Hp; [|exact dt_zero_ok].
  unfold finish in Hf. apply res_bind_Ok in Hf as (d1 & Hd & Hf).
  apply res_bind_Ok in Hf as (d2 & Ht & Hf).
  apply check_date_ok in Hd as (Y & M & D & G & Eh & Em & Es & Ef & _ & Ehs).
  destruct Hp as (P1 & P2 & P3 & P4 & P5).
  apply check_time_ok in Ht as (T1 & T2 & T3 & Ey & Emo & Ed & Efr).
  2:{ unfold dt_ok. rewrite Eh, Em, Es, Ef, Ehs. cbn [with_defaults hour minute second frac hour_set]. split; [done|]. split; [done|]. by split. }
  assert (valid_datetime d2) as Hv.
  { unfold valid_datetime. rewrite Ey, Emo, Ed, Efr, Ef. repeat (split; [done|]); done. }
  destruct (_ <=? _)%nat; [done|]. injection Hf as <-.
  exists d2. pose proof (render_length ts d2 Hv) as L. unfold DATE_NORMALIZE_OUT_MAX in Hsz.
  rewrite take_ge by (rewrite L; destruct ts; lia). done.
Qed.

(** ** Properties *)

(** ** Dates and their texts, said anew *)

(** The calendar: the day with every fourth year a leap year up to 1581, the
    centuries excepted from then on, but for every fourth; ten days that never
    were in October 1582. *)
Definition leap_year (y : Z) : Prop := (4 | y) /\ (1582 <= y -> (100 | y) -> (400 | y)).

Inductive month_has (y : Z) : Z -> Z -> Prop :=
| has_31 m : In m [1; 3; 5; 7; 8; 10; 12] -> month_has y m 31
| has_30 m : In m [4; 6; 9; 11] -> month_has y m 30
| has_29 : leap_year y -> month_has y 2 29
| has_28 : ~ leap_year y -> month_has y 2 28.

Definition calendar_date (y m d : Z) : Prop :=
  1 <= y <= 9999 /\ (exists n, month_has y m n /\ 1 <= d <= n) /\ ~ (y = 1582 /\ m = 10 /\ 5 <= d <= 14).

(** [w] decimal digits that read as [n]. *)
Definition decimal_value (t : list ascii) : Z := fold_left (fun n c => 10 * n + (Z.of_N (N_of_ascii c) - 48)) t 0.
Definition decimal (w : nat) (n : Z) (t : list ascii) : Prop :=
  length t = w /\ Forall (fun c => In c (str "0123456789")) t /\ decimal_value t = n.

(** YYYY-MM-DD HH24:MI:SS, for a timestamp with six more digits. *)
Definition written (ts : bool) (y m d h mi s : Z) (o : list ascii) : Prop :=
  exists ty tm td th tmi tsec, decimal 4 y ty /\ decimal 2 m tm /\ decimal 2 d td /\ decimal 2 h th /\ decimal 2 mi tmi /\ decimal 2 s tsec /\
    let text := ty ++ "-"%char :: tm ++ "-"%char :: td ++ " "%char :: th ++ ":"%char :: tmi ++ ":"%char :: tsec in
    if ts then exists f us, decimal 6 us f /\ o = text ++ "."%char :: f else o = text.

(** The canonical text of a date of the calendar and a time of day. *)
Definition calendar_text (ts : bool) (o : list ascii) : Prop :=
  exists y m d h mi s, calendar_date y m d /\ 0 <= h <= 23 /\ 0 <= mi <= 59 /\ 0 <= s <= 59 /\ written ts y m d h mi s o.

Lemma leap_year_spec y : 0 <= y -> is_leap y = true <-> leap_year y.
Proof.
  intros Hy. unfold is_leap, leap_year. rewrite !Z.rem_mod_nonneg by lia.
  assert (forall k, 0 < k -> (y mod k = 0 <-> (k | y))) as Hdiv by (intros k Hk; apply Z.mod_divide; lia).
  pose proof (Hdiv 4 ltac:(lia)) as H4. pose proof (Hdiv 100 ltac:(lia)) as H100. pose proof (Hdiv 400 ltac:(lia)) as H400.
  assert ((400 | y) -> (4 | y)) as H44 by (intros [q ->]; exists (q * 100); lia).
  destruct (Z.ltb_spec y 1582).
  - rewrite Z.eqb_eq, H4. split; [|tauto]. split; [done|lia].
  - rewrite orb_true_iff, andb_true_iff, negb_true_iff, !Z.eqb_eq, Z.eqb_neq, H4, H100, H400.
    split; [intros [[? ?]|?]; tauto|]. intros [? H']. destruct (Z.eq_dec (y mod 100) 0) as [E|E]; [right; apply H'; [lia|by apply H100]|left; tauto].
Qed.

Lemma month_has_spec y m : 0 <= y -> 1 <= m <= 12 -> month_has y m (days_in_month y m).
Proof.
  intros Hy Hm. pose proof (leap_year_spec y Hy) as Hl. unfold days_in_month.
  assert (m = 1 \/ m = 2 \/ m = 3 \/ m = 4 \/ m = 5 \/ m = 6 \/ m = 7 \/ m = 8 \/ m = 9 \/ m = 10 \/ m = 11 \/ m = 12)
    as [->|[->|[->|[->|[->|[->|[->|[->|[->|[->|[->| ->]]]]]]]]]]] by lia; cbn [Z.eqb Pos.eqb andb];
    try (apply has_31; cbn; tauto); try (apply has_30; cbn; tauto).
  destruct (is_leap y); [apply has_29; by apply Hl|apply has_28]. intros H%Hl. done.
Qed.

Lemma isdigit_In c : isdigit c = true -> In c (str "0123456789").
Proof. destruct c as [[] [] [] [] [] [] [] []]; vm_compute; intros; first [congruence|tauto]. Qed.

Lemma digits_value w n : 0 <= n < 10 ^ Z.of_nat w -> decimal_value (digits w n []) = n.
Proof.
  revert n. induction w as [|w IH]; intros n Hn; [cbn in *; lia|]. rewrite digits_S. unfold decimal_value in *. rewrite fold_left_app. cbn [fold_left].
  rewrite Nat2Z.inj_succ, Z.pow_succ_r in Hn by lia.
  rewrite IH by (split; [apply Z.div_pos; lia|apply Z.div_lt_upper_bound; lia]).
  pose proof (Z.mod_pos_bound n 10 ltac:(lia)) as Hm. pose proof (Z.div_mod n 10 ltac:(lia)).
  assert (Z.of_N (N_of_ascii (digit_char (n mod 10))) - 48 = n mod 10) as ->; [|lia].
  set (r := n mod 10) in *. clearbody r.
  assert (r = 0 \/ r = 1 \/ r = 2 \/ r = 3 \/ r = 4 \/ r = 5 \/ r = 6 \/ r = 7 \/ r = 8 \/ r = 9)
    as [->|[->|[->|[->|[->|[->|[->|[->|[->| ->]]]]]]]]] by lia; reflexivity.
Qed.

Lemma fmt_0d_decimal w n : 0 <= n < 10 ^ Z.of_nat w -> decimal w n (fmt_0d w n).
Proof.
  intros Hn. rewrite fmt_0d_small by lia. split; [apply digits_length|]. split; [|by apply digits_value].
  eapply List.Forall_impl; [|apply digits_isdigit]. intros c. apply isdigit_In.
Qed.

Lemma frac6_decimal f : Forall (fun c => isdigit c = true) f -> decimal 6 (decimal_value (frac6 f)) (frac6 f).
Proof.
  intros Hf. split; [apply frac6_length|]. split; [|done]. unfold frac6. apply Forall_app. split.
  - apply Forall_take. eapply List.Forall_impl; [|exact Hf]. intros c. apply isdigit_In.
  - apply Forall_replicate. cbn. tauto.
Qed.

Lemma render_written ts d : valid_datetime d ->
  calendar_date (year d) (month d) (day d) /\ written ts (year d) (month d) (day d) (hour d) (minute d) (second d) (render ts d).
Proof.
  intros (Hy & Hm & Hd & Hgap & Hh & Hmi & Hs & Hf). pose proof (days_in_month_bound (year d) (month d) Hm) as Hb. split.
  - split; [done|]. split; [|done]. exists (days_in_month (year d) (month d)). split; [apply month_has_spec; lia|done].
  - exists (fmt_0d 4 (year d)), (fmt_0d 2 (month d)), (fmt_0d 2 (day d)), (fmt_0d 2 (hour d)), (fmt_0d 2 (minute d)), (fmt_0d 2 (second d)).
    do 6 (split; [apply fmt_0d_decimal; cbn; lia|]). cbv zeta. unfold render. destruct ts; [|done].
    exists (frac6 (frac d)), (decimal_value (frac6 (frac d))). split; [by apply frac6_decimal|]. done.
Qed.

(** A canonical value is read as it is, without a mask. *)
Lemma canonical_read (ts : bool) d (now_y now_m : Z) :
  valid_datetime d ->
  date_normalize (Some (render ts d)) None ts (Some DATE_NORMALIZE_OUT_MAX) now_y now_m = Some (Ok (render ts d)).
Proof.
  intros Hv. unfold date_normalize. rewrite Nat.ltb_irrefl, tokenize_canonical. cbn [res_bind].
  rewrite parse_canonical by done. cbn [res_bind]. rewrite finish_read_back by done. cbn [res_bind].
  pose proof (render_length ts d Hv) as L. rewrite take_ge; [done|]. rewrite L. by destruct ts; simpl; lia.
Qed.

Lemma valid_calendar_text ts d : valid_datetime d -> calendar_text ts (render ts d).
Proof.
  intros Hv. destruct (render_written ts d Hv) as [Hc Hw]. pose proof Hv as (_ & _ & _ & _ & Hh & Hmi & Hs & _).
  by exists (year d), (month d), (day d), (hour d), (minute d), (second d).
Qed.

(** C32: whatever the value, the mask and the date on the clock, a value that
    [date_normalize] accepts has become the canonical text of a date of the
    calendar - months of their lengths, every fourth year a leap year, the
    centuries that 400 does not divide excepted from 1582 on, nothing from 5 to
    14 October 1582 - and of a time of day: the digits of year, month, day,
    hour, minute and second in their places, for a timestamp six digits of a
    fraction, 19 or 26 characters in all; and, read again without a mask on
    whatever day, it stays as it is. *)
Theorem date_normalize_valid (value mask : option (list ascii)) (ts : bool)
    (out : option nat) (now_y now_m : Z) (o : list ascii) :
  date_normalize value mask ts out now_y now_m = Some (Ok o) ->
  length o = (if ts then 26%nat else 19%nat) /\
  calendar_text ts o /\
  forall now_y' now_m', date_normalize (Some o) None ts (Some DATE_NORMALIZE_OUT_MAX) now_y' now_m' = Some (Ok o).
Proof.
  intros (d & Hv & ->)%normalized_form. split; [by apply render_length|]. split; [by apply valid_calendar_text|].
  intros. by apply canonical_read.
Qed.

Lemma date_normalize_valid_witness :
  date_normalize (Some (str "29-FEB-24")) (Some (str "DD-MON-RR")) false (Some 32%nat) 2026 6 = Some (Ok (str "2024-02-29 00:00:00")) /\
  exists y m d h mi s, calendar_date y m d /\ written false y m d h mi s (str "2024-02-29 00:00:00").
Proof.
  assert (date_normalize (Some (str "29-FEB-24")) (Some (str "DD-MON-RR")) false (Some 32%nat) 2026 6 = Some (Ok (str "2024-02-29 00:00:00"))) as E
    by (vm_compute; reflexivity).
  split; [exact E|]. destruct (date_normalize_valid _ _ _ _ _ _ _ E) as (_ & (y & m & d & h & mi & s & Hc & _ & _ & _ & Hw) & _).
  exists y, m, d, h, mi, s. split; [exact Hc|exact Hw].
Defined.

(** Normalisation is idempotent.  A normalised value read again against
    the canonical mask (no mask given), on any later date, is returned
    unchanged. *)
Theorem date_normalize_idempotent (value mask : option (list ascii)) (ts : bool)
    (out : option nat) (now_y now_m now_y' now_m' : Z) (o : list ascii) :
  date_normalize value mask ts out now_y now_m = Some (Ok o) ->
  date_normalize (Some o) None ts (Some DATE_NORMALIZE_OUT_MAX) now_y' now_m' = Some (Ok o).
Proof.
  intros (d & Hv & ->)%normalized_form. by apply canonical_read.
Qed.

Lemma date_normalize_idempotent_witness :
  date_normalize (Some (str "2026-12-25 21:05:07.500000")) None true (Some DATE_NORMALIZE_OUT_MAX) 1999 1
    = Some (Ok (str "2026-12-25 21:05:07.500000")).
Proof.
  apply (date_normalize_idempotent (Some (str "25.12.2026 09:05:07.5 PM"))
           (Some (str "DD/MM/YYYY HH:MI:SS.FF AM")) true (Some 40%nat) 2026 6).
  vm_compute. reflexivity.
Defined.

(** A mask that the tokenizer accepts names at least one date or time
    element and at most 48 elements, never two for the same field, no
    fractional seconds for a DATE column and no AM/PM next to HH24. *)
Theorem tokenize_mask_sound (mask : list ascii) (ts : bool) (els : list fmt_el) :
  tokenize_mask mask ts = Some (Ok els) ->
  existsb is_data els = true /\ (length els <= MAX_ELEMENTS)%nat /\ NoDup (groups els) /\
  (has_kind EL_FF els = true -> ts = true) /\
  has_kind EL_HH24 els && has_kind EL_AMPM els = false.
Proof.
  unfold tokenize_mask. intros H.
  destruct (tokenize_loop (length mask) mask ts [] []) as [[els0|e]|] eqn:E; try done.
  apply tokenize_loop_inv in E as (seen & Hg & Hnd & Hlen & HFF).
  2:{ split_and!; [done | constructor | simpl; lia | constructor]. }
  unfold mask_checks, bad_mask in H.
  destruct (has_kind EL_HH24 els0 && has_kind EL_AMPM els0) eqn:E1; [done|].
  destruct (existsb is_data els0) eqn:E2; [|done]. injection H as <-.
  rewrite length_rev in Hlen. split_and!; try done.
  - unfold groups in *. rewrite map_rev in Hg. rewrite <- Hg in Hnd.
    eapply NoDup_Permutation_proper; [|exact Hnd]. by rewrite <- Permutation_rev.
  - unfold has_kind. intros (el & Hin & Hk)%existsb_exists. apply bool_decide_eq_true in Hk.
    apply Forall_rev in HFF. rewrite rev_involutive in HFF.
    exact (proj1 (List.Forall_forall _ _) HFF el Hin Hk).
Qed.

Lemma tokenize_mask_sound_witness :
  exists els, tokenize_mask (str "DD-MON-YYYY HH:MI AM") false = Some (Ok els) /\ NoDup (groups els).
Proof.
  eexists. split; [vm_compute; reflexivity|].
  exact (proj1 (proj2 (proj2 (tokenize_mask_sound (str "DD-MON-YYYY HH:MI AM") false _ eq_refl)))).
Defined.

(** [date_normalize] always returns: the tokenizer's loop ends on every
    mask, and no argument makes the call run on. *)
Theorem date_normalize_total (value mask : option (list ascii)) (ts : bool)
    (out : option nat) (now_y now_m : Z) :
  is_Some (date_normalize value mask ts out now_y now_m).
Proof.
  unfold date_normalize. destruct value as [value|], out as [sz|]; try by eexists.
  destruct (_ <? _)%nat; [by eexists|].
  match goal with |- context [tokenize_mask ?m ts] => destruct (tokenize_mask_total m ts) as [t ->] end.
  by eexists.
Qed.

(** A two-digit year under RR or RRRR is the only year with those last two
    digits in the hundred years that start 50 years before the round century
    nearest to the current year; under YY it is that year of the current
    century. *)
Theorem expand_two_digit_year_window (yy cy : Z) :
  0 <= yy <= 99 -> 0 <= cy ->
  let w := 100 * ((cy + 50) / 100) - 50 in
  w <= expand_two_digit_year yy true cy < w + 100 /\ w <= cy < w + 100 /\
  expand_two_digit_year yy true cy mod 100 = yy /\
  expand_two_digit_year yy false cy / 100 = cy / 100 /\
  expand_two_digit_year yy false cy mod 100 = yy.
Proof.
  intros Hyy Hcy. cbv zeta. unfold expand_two_digit_year. cbv beta iota delta [negb].
  rewrite Z.quot_div_nonneg, Z.rem_mod_nonneg by lia.
  pose proof (Z.div_mod cy 100 ltac:(lia)) as Hdm. pose proof (Z.mod_pos_bound cy 100 ltac:(lia)) as Hb.
  set (c := cy / 100) in *. set (r := cy mod 100) in *.
  assert ((cy + 50) / 100 = if r <? 50 then c else c + 1) as ->.
  { symmetry. destruct (Z.ltb_spec r 50); [apply Z.div_unique with (r + 50) | apply Z.div_unique with (r - 50)]; lia. }
  assert (forall q, (q * 100 + yy) mod 100 = yy) as Hmod.
  { intros q. symmetry. apply Z.mod_unique with q; lia. }
  assert ((c * 100 + yy) / 100 = c) as Hq by (symmetry; apply Z.div_unique with yy; lia).
  destruct (Z.ltb_spec yy 50), (Z.ltb_spec r 50); rewrite ?Hmod, ?Hq; lia.
Qed.

Lemma expand_two_digit_year_window_witness :
  expand_two_digit_year 49 true 2026 mod 100 = 49.
Proof.
  exact (proj1 (proj2 (proj2 (expand_two_digit_year_window 49 2026 ltac:(lia) ltac:(lia))))).
Defined.
