(* ===== verification/Hash.v ===== *)
(** * Hash: the three 64-bit string hashes of the cache

    Models [hash_fnv1a], [hash_djb2] and [hash_murmur3] of
    src/src/infra/cache.c.  A [uint64_t] is a [Z] reduced modulo 2^64 after
    every operation that can leave the range; blocks are read little-endian,
    as on the targets of the build files. *)

From Stdlib Require Import Ascii String ZArith Lia Bool.
From stdpp Require Import base list strings numbers.
From S2P Require Import Prelude.

#[local] Open Scope Z_scope.

Definition FNV_OFFSET : Z := 14695981039346656037.
Definition FNV_PRIME : Z := 1099511628211.

(** [while ( *p ) { hash ^= *p++; hash *= PRIME; }]. *)
Definition fnv1a_step (hash : Z) (c : ascii) : Z := u64 (Z.lxor hash (code c) * FNV_PRIME).
Definition hash_fnv1a (key : list ascii) : Z := foldl fnv1a_step FNV_OFFSET key.

Definition djb2_step (hash : Z) (c : ascii) : Z :=
  u64 (u64 (u64 (Z.shiftl hash 5) + hash) + code c).
Definition hash_djb2 (key : list ascii) : Z := foldl djb2_step 5381 key.

(** [(k << r) | (k >> (64 - r))]. *)
Definition rotl64 (k r : Z) : Z := Z.lor (u64 (Z.shiftl k r)) (Z.shiftr k (64 - r)).

(** [memcpy] of the next bytes into an integer, least significant first. *)
Fixpoint le_bytes (bs : list ascii) : Z :=
  match bs with
  | [] => 0
  | c :: bs' => code c + 256 * le_bytes bs'
  end.

Definition MURMUR_SEED : Z := 0xdeadbeefcafe1234.
Definition MURMUR_C1 : Z := 0x87c37b91114253d5.
Definition MURMUR_C2 : Z := 0x4cf5ad432745937f.

Definition murmur_mix (k : Z) : Z := u64 (rotl64 (u64 (k * MURMUR_C1)) 31 * MURMUR_C2).

Definition murmur_block (h k : Z) : Z :=
  u64 (u64 (rotl64 (Z.lxor h (murmur_mix k)) 27 * 5) + 0x52dce729).

(** The block loop; what is left at the end is the tail (fewer than 8 bytes). *)
Fixpoint murmur_body (nblocks : nat) (h : Z) (data : list ascii) : Z * list ascii :=
  match nblocks with
  | O => (h, data)
  | S n => murmur_body n (murmur_block h (le_bytes (take 8 data))) (drop 8 data)
  end.

(** The [switch (len & 7)]: the tail bytes [xor]ed at their shifts. *)
Definition murmur_tail (h : Z) (tail : list ascii) : Z :=
  match tail with
  | [] => h
  | _ :: _ => Z.lxor h (murmur_mix (le_bytes tail))
  end.

Definition murmur_final (h len : Z) : Z :=
  let h := Z.lxor h len in
  let h := Z.lxor h (Z.shiftr h 33) in
  let h := u64 (h * 0xff51afd7ed558ccd) in
  let h := Z.lxor h (Z.shiftr h 33) in
  let h := u64 (h * 0xc4ceb9fe1a85ec53) in
  Z.lxor h (Z.shiftr h 33).

Definition hash_murmur3 (key : list ascii) : Z :=
  let len := Z.of_nat (length key) in
  let '(h, tail) := murmur_body (length key / 8) (Z.lxor MURMUR_SEED len) key in
  murmur_final (murmur_tail h tail) len.

Inductive cache_hash_algorithm := CACHE_HASH_FNV1A | CACHE_HASH_DJB2 | CACHE_HASH_MURMUR3.

Definition compute_hash (alg : cache_hash_algorithm) (key : list ascii) : Z :=
  match alg with
  | CACHE_HASH_DJB2 => hash_djb2 key
  | CACHE_HASH_MURMUR3 => hash_murmur3 key
  | CACHE_HASH_FNV1A => hash_fnv1a key
  end.

Example fnv1a_a : hash_fnv1a (str "a") = 0xaf63dc4c8601ec8c.
Proof. vm_compute. reflexivity. Qed.
Example fnv1a_foobar : hash_fnv1a (str "foobar") = 0x85944171f73967e8.
Proof. vm_compute. reflexivity. Qed.
Example djb2_ab : hash_djb2 (str "ab") = (5381 * 33 + 97) * 33 + 98.
Proof. vm_compute. reflexivity. Qed.

(** ** Ranges *)

Definition is_u64 (z : Z) : Prop := 0 <= z < 2 ^ 64.

Lemma u64_is_u64 z : is_u64 (u64 z).
Proof. apply u64_bounds. Qed.

Lemma is_u64_bits z : is_u64 z <-> 0 <= z /\ forall i, 64 <= i -> Z.testbit z i = false.
Proof.
  unfold is_u64. split.
  - intros [H0 H]. split; [done|]. intros i Hi.
    destruct (Z.eq_dec z 0) as [->|?]; [apply Z.bits_0|].
    apply Z.bits_above_log2; [done|]. apply Z.log2_lt_pow2; [lia|].
    eapply Z.lt_le_trans; [exact H|]. by apply Z.pow_le_mono_r.
  - intros [H0 H]. split; [done|]. destruct (Z.lt_ge_cases z (2 ^ 64)) as [|Hge]; [done|].
    exfalso. assert (64 <= Z.log2 z) as Hl by (apply Z.log2_le_pow2; lia).
    specialize (H _ Hl). rewrite Z.bit_log2 in H; [done|lia].
Qed.

Lemma lxor_is_u64 a b : is_u64 a -> is_u64 b -> is_u64 (Z.lxor a b).
Proof.
  rewrite !is_u64_bits. intros [Ha Ba] [Hb Bb]. split.
  - apply Z.lxor_nonneg. lia.
  - intros i Hi. by rewrite Z.lxor_spec, Ba, Bb.
Qed.

Lemma shiftr_is_u64 a r : is_u64 a -> 0 <= r -> is_u64 (Z.shiftr a r).
Proof.
  rewrite !is_u64_bits. intros [Ha Ba] Hr. split; [by apply Z.shiftr_nonneg|].
  intros i Hi. rewrite Z.shiftr_spec by lia. apply Ba. lia.
Qed.

#[local] Hint Resolve u64_is_u64 lxor_is_u64 shiftr_is_u64 : ocidb.

Lemma foldl_is_u64 {A} (f : Z -> A -> Z) (h : Z) (l : list A) :
  (forall h x, is_u64 (f h x)) -> is_u64 h -> is_u64 (foldl f h l).
Proof. intros Hf. revert h. induction l as [|x l IH]; intros h Hh; simpl; eauto. Qed.

Lemma compute_hash_is_u64 alg key : is_u64 (compute_hash alg key).
Proof.
  destruct alg; simpl.
  - apply foldl_is_u64; [intros; apply u64_is_u64 | done].
  - apply foldl_is_u64; [intros; apply u64_is_u64 | done].
  - unfold hash_murmur3. destruct (murmur_body _ _ _). unfold murmur_final. auto with ocidb.
Qed.
