(* ===== verification/Cache.v ===== *)
(** * Cache: the general-purpose hash-table cache

    Models src/src/infra/cache.c and the types of src/include/cache.h: every
    function but the logging ones.  A [cache_t] is the record [cache]; each
    bucket's chain of [next] pointers is a list, head first; [addr] is the
    address [calloc] gave the entry, so that a borrowed pointer can be told
    from a freed one.  Each function is one critical section of the cache's
    lock, so it is one function on the state - [cache_lookup] too, although it
    holds the lock only for reading while it counts and marks the entry, so
    that two lookups at once may lose a count or an access time: that race is
    not modelled; the clock ([time(NULL)]), the
    outcome of each allocation and the lookup's elapsed time are arguments.
    The structural lemmas at the end say what each loop over the buckets does
    to the entries taken together; CacheSpec.v states the contract. *)

From Stdlib Require Import Ascii String ZArith Lia Bool SpecFloat.
From stdpp Require Import base list strings numbers.
From S2P Require Import Prelude Text Hash.

#[local] Open Scope Z_scope.

(** ** Data *)

(** [sizeof(cache_entry_t)] on LP64. *)
Definition SIZEOF_CACHE_ENTRY : Z := 176.

Record cache_entry_opts := mk_opts {
  o_ttl_seconds : Z;
  o_pinned : bool;
  o_row_count : Z;
  o_output_document_json : option (list ascii);
  o_output_length_json : Z;
  o_client_ip : option (list ascii);
  o_client_host : option (list ascii);
  o_client_id : option (list ascii);
  o_server_host : option (list ascii);
  o_server_name : option (list ascii);
  o_process_id : option (list ascii);
  o_tx_trace : option (list ascii);
  o_table_dependency_tag : option (list ascii) }.

Record cache_entry := mk_entry {
  addr : nat;
  hash_key : Z;
  normalized_sql : list ascii;
  client_ip : option (list ascii);
  client_host : option (list ascii);
  client_id : option (list ascii);
  server_host : option (list ascii);
  server_name : option (list ascii);
  process_id : option (list ascii);
  tx_trace : option (list ascii);
  output_document : list ascii;
  output_length : Z;
  row_count : Z;
  output_document_json : option (list ascii);
  output_length_json : Z;
  table_dependency_tag : option (list ascii);
  created_ts : Z;
  last_access_ts : Z;
  expiry_ts : Z;
  hit_count : Z;
  in_use : bool;
  pinned : bool;
  dirty : bool;
  entry_memory_bytes : Z }.

Record query_execution_stats := mk_stats {
  execution_count : Z;
  success_count : Z;
  failure_count : Z;
  rows_returned : Z;
  s_cache_hits : Z;
  s_cache_misses : Z;
  total_execution_ms : double;
  avg_execution_ms : double;
  total_fetch_ms : double;
  avg_fetch_ms : double;
  min_execution_ms : double;
  max_execution_ms : double;
  last_execution_ts : Z;
  memory_pressure_pct : double;
  eviction_rate : Z;
  compression_ratio : double;
  avg_lookup_us : Z;
  peak_entry_size : Z }.

Record cache_config := mk_config {
  cache_name : list ascii;
  cfg_bucket_count : Z;
  cfg_max_entries : Z;
  cfg_max_memory_bytes : Z;
  cfg_ttl_seconds : Z;
  hash_algorithm : cache_hash_algorithm;
  eviction_policy : Z;
  cfg_enabled : bool }.

Record cache := mk_cache {
  buckets : list (list cache_entry);
  bucket_count : Z;
  entry_count : Z;
  cache_hits : Z;
  cache_misses : Z;
  cache_evictions : Z;
  cache_inserts : Z;
  collision_count : Z;
  max_entries : Z;
  max_memory_bytes : Z;
  ttl_seconds : Z;
  enabled : bool;
  current_memory_bytes : Z;
  config : cache_config;
  stats : query_execution_stats }.

(** ** Field updates *)

Definition set_state (u : bool) (ts h : Z) (e : cache_entry) : cache_entry :=
  mk_entry (addr e) (hash_key e) (normalized_sql e) (client_ip e) (client_host e) (client_id e)
    (server_host e) (server_name e) (process_id e) (tx_trace e) (output_document e)
    (output_length e) (row_count e) (output_document_json e) (output_length_json e)
    (table_dependency_tag e) (created_ts e) ts (expiry_ts e) h u (pinned e) (dirty e)
    (entry_memory_bytes e).
Definition set_expiry (x : Z) (e : cache_entry) : cache_entry :=
  mk_entry (addr e) (hash_key e) (normalized_sql e) (client_ip e) (client_host e) (client_id e)
    (server_host e) (server_name e) (process_id e) (tx_trace e) (output_document e)
    (output_length e) (row_count e) (output_document_json e) (output_length_json e)
    (table_dependency_tag e) (created_ts e) (last_access_ts e) x (hit_count e) (in_use e)
    (pinned e) (dirty e) (entry_memory_bytes e).

(** The table, the number of entries and the bytes charged. *)
Definition set_table (bs : list (list cache_entry)) (n m : Z) (c : cache) : cache :=
  mk_cache bs (bucket_count c) n (cache_hits c) (cache_misses c) (cache_evictions c)
    (cache_inserts c) (collision_count c) (max_entries c) (max_memory_bytes c) (ttl_seconds c)
    (enabled c) m (config c) (stats c).
(** Every counter of the cache: hits, misses, evictions, inserts, collisions. *)
Definition set_counters (h mi ev ins col : Z) (st : query_execution_stats) (c : cache) : cache :=
  mk_cache (buckets c) (bucket_count c) (entry_count c) h mi ev ins col (max_entries c)
    (max_memory_bytes c) (ttl_seconds c) (enabled c) (current_memory_bytes c) (config c) st.

Definition stats_hit (lookup_us : Z) (s : query_execution_stats) : query_execution_stats :=
  let n := u64 (s_cache_hits s + 1) in
  mk_stats (execution_count s) (success_count s) (failure_count s) (rows_returned s)
    n (s_cache_misses s) (total_execution_ms s) (avg_execution_ms s) (total_fetch_ms s)
    (avg_fetch_ms s) (min_execution_ms s) (max_execution_ms s) (last_execution_ts s)
    (memory_pressure_pct s) (eviction_rate s) (compression_ratio s)
    (u64 (u64 (avg_lookup_us s * u64 (n - 1)) + lookup_us) / n) (peak_entry_size s).
Definition stats_miss (s : query_execution_stats) : query_execution_stats :=
  mk_stats (execution_count s) (success_count s) (failure_count s) (rows_returned s)
    (s_cache_hits s) (u64 (s_cache_misses s + 1)) (total_execution_ms s) (avg_execution_ms s)
    (total_fetch_ms s) (avg_fetch_ms s) (min_execution_ms s) (max_execution_ms s)
    (last_execution_ts s) (memory_pressure_pct s) (eviction_rate s) (compression_ratio s)
    (avg_lookup_us s) (peak_entry_size s).
Definition stats_evicted (rate : Z) (s : query_execution_stats) : query_execution_stats :=
  mk_stats (execution_count s) (success_count s) (failure_count s) (rows_returned s)
    (s_cache_hits s) (s_cache_misses s) (total_execution_ms s) (avg_execution_ms s)
    (total_fetch_ms s) (avg_fetch_ms s) (min_execution_ms s) (max_execution_ms s)
    (last_execution_ts s) (memory_pressure_pct s) rate (compression_ratio s)
    (avg_lookup_us s) (peak_entry_size s).
Definition stats_peak (n : Z) (s : query_execution_stats) : query_execution_stats :=
  mk_stats (execution_count s) (success_count s) (failure_count s) (rows_returned s)
    (s_cache_hits s) (s_cache_misses s) (total_execution_ms s) (avg_execution_ms s)
    (total_fetch_ms s) (avg_fetch_ms s) (min_execution_ms s) (max_execution_ms s)
    (last_execution_ts s) (memory_pressure_pct s) (eviction_rate s) (compression_ratio s)
    (avg_lookup_us s) n.
(** [memset(&stats, 0, sizeof(stats)); min_execution_ms = 1e18]. *)
Definition stats_zero : query_execution_stats :=
  mk_stats 0 0 0 0 0 0 (S754_zero false) (S754_zero false) (S754_zero false) (S754_zero false)
    (dbl_of (10 ^ 18)) (S754_zero false) 0 (S754_zero false) 0 (S754_zero false) 0 0.

(** [n] evictions on the two eviction counters. *)
Definition count_evictions (n : nat) (c : cache) : cache :=
  set_counters (cache_hits c) (cache_misses c) (u64 (cache_evictions c + Z.of_nat n))
    (cache_inserts c) (collision_count c)
    (stats_evicted (u64 (eviction_rate (stats c) + Z.of_nat n)) (stats c)) c.

(** ** Memory accounting and entries *)

Definition opt_size (s : option (list ascii)) : Z :=
  match s with Some s => Z.of_nat (length s) + 1 | None => 0 end.

Definition entry_memory_size (e : cache_entry) : Z :=
  u64 (SIZEOF_CACHE_ENTRY
       + (Z.of_nat (length (normalized_sql e)) + 1)
       + (output_length e + 1)
       + (match output_document_json e with Some _ => output_length_json e + 1 | None => 0 end)
       + opt_size (client_ip e) + opt_size (client_host e) + opt_size (client_id e)
       + opt_size (server_host e) + opt_size (server_name e)
       + opt_size (process_id e) + opt_size (tx_trace e)).

(** [strdup] of an optional string, when the allocation succeeds. *)
Definition dup (ok : bool) (s : option (list ascii)) : option (list ascii) :=
  if ok then s else None.

(** [al i]: the [i]-th allocation below succeeds; [a]: the address of the
    entry.  [None]: [NULL], and everything allocated has been freed. *)
Definition alloc_entry (al : nat -> bool) (a : nat) (now : Z) (key output_doc : list ascii)
    (doc_len hash ttl : Z) (opts : option cache_entry_opts) : option cache_entry :=
  if negb (al 0%nat) then None                      (* calloc *)
  else if negb (al 1%nat) then None                 (* strdup(key) *)
  else
    let field (i : nat) (f : cache_entry_opts -> option (list ascii)) :=
      match opts with Some o => dup (al i) (f o) | None => None end in
    let json := field 2%nat o_output_document_json in
    let e0 :=
      mk_entry a hash key
        (field 4%nat o_client_ip) (field 5%nat o_client_host) (field 6%nat o_client_id)
        (field 7%nat o_server_host) (field 8%nat o_server_name) (field 9%nat o_process_id)
        (field 10%nat o_tx_trace)
        output_doc doc_len (match opts with Some o => o_row_count o | None => 0 end)
        json (match opts, json with Some o, Some _ => o_output_length_json o | _, _ => 0 end)
        (field 3%nat o_table_dependency_tag)
        now now (if 0 <? ttl then now + ttl else 0) 0 false
        (match opts with Some o => o_pinned o | None => false end) false 0 in
    Some (mk_entry (addr e0) (hash_key e0) (normalized_sql e0) (client_ip e0) (client_host e0)
            (client_id e0) (server_host e0) (server_name e0) (process_id e0) (tx_trace e0)
            (output_document e0) (output_length e0) (row_count e0) (output_document_json e0)
            (output_length_json e0) (table_dependency_tag e0) (created_ts e0)
            (last_access_ts e0) (expiry_ts e0) (hit_count e0) (in_use e0) (pinned e0) (dirty e0)
            (entry_memory_size e0)).

(** ** LRU eviction *)

(** [(time_t)UINT64_MAX]. *)
Definition OLDEST_ACCESS_INIT : Z := i64 (2 ^ 64 - 1).

(** The inner loop over bucket [b]: the oldest access time so far and the
    victim's bucket and place in the chain. *)
Fixpoint lru_scan_chain (b pos : nat) (chain : list cache_entry) (acc : Z * option (nat * nat))
    : Z * option (nat * nat) :=
  match chain with
  | [] => acc
  | cur :: rest =>
      let acc' :=
        if negb (pinned cur) && negb (in_use cur) && (last_access_ts cur <? fst acc)
        then (last_access_ts cur, Some (b, pos)) else acc in
      lru_scan_chain b (S pos) rest acc'
  end.

Fixpoint lru_scan (b : nat) (bs : list (list cache_entry)) (acc : Z * option (nat * nat))
    : Z * option (nat * nat) :=
  match bs with
  | [] => acc
  | chain :: rest => lru_scan (S b) rest (lru_scan_chain b 0 chain acc)
  end.

(** [None]: nothing evictable (the C function returns 0). *)
Definition evict_lru_under_lock (c : cache) : option cache :=
  match snd (lru_scan 0 (buckets c) (OLDEST_ACCESS_INIT, None)) with
  | None => None
  | Some (b, pos) =>
      match buckets c !! b ≫= (fun chain => chain !! pos) with
      | None => None
      | Some victim =>
          Some (count_evictions 1
            (set_table (alter (fun chain => delete pos chain) b (buckets c))
               (u64 (entry_count c - 1))
               (u64 (current_memory_bytes c - entry_memory_bytes victim)) c))
      end
  end.

(** [while (over(cache)) if (!evict_lru_under_lock(cache)) break;] and the
    number of entries evicted.  Each turn frees an entry, so as many turns as
    there are entries are enough. *)
Fixpoint evict_while (fuel : nat) (over : cache -> bool) (c : cache) : cache * nat :=
  match fuel with
  | O => (c, O)
  | S f =>
      if over c then
        match evict_lru_under_lock c with
        | Some c' => let '(c'', n) := evict_while f over c' in (c'', S n)
        | None => (c, O)
        end
      else (c, O)
  end.

Definition entries (c : cache) : list cache_entry := concat (buckets c).

(** ** Creation *)

(** [pw2 = 1; while (pw2 < buckets) pw2 <<= 1;] on a [size_t].  [None]: the
    loop has not ended after [fuel] turns. *)
Fixpoint round_pow2 (fuel : nat) (pw2 n : Z) : option Z :=
  if pw2 <? n then
    match fuel with
    | O => None
    | S f => round_pow2 f (u64 (Z.shiftl pw2 1)) n
    end
  else Some pw2.

(** [al]: the handle and the bucket array are allocated and the lock
    initialised.  The result is [None] when the rounding loop never ends. *)
Definition cache_create (al : bool) (cfg : option cache_config) : option (option cache) :=
  match cfg with
  | None => Some None
  | Some cfg =>
      let n := if cfg_bucket_count cfg =? 0 then 1024 else cfg_bucket_count cfg in
      match round_pow2 64 1 n with
      | None => None
      | Some n =>
          if negb al then Some None
          else Some (Some
            (mk_cache (replicate (Z.to_nat n) []) n 0 0 0 0 0 0
               (if 0 <? cfg_max_entries cfg then cfg_max_entries cfg else 10000)
               (if 0 <? cfg_max_memory_bytes cfg then cfg_max_memory_bytes cfg else 256 * 1024 * 1024)
               (if 0 <? cfg_ttl_seconds cfg then cfg_ttl_seconds cfg else 300)
               (cfg_enabled cfg) 0
               (mk_config (cache_name cfg) n (cfg_max_entries cfg) (cfg_max_memory_bytes cfg)
                  (cfg_ttl_seconds cfg) (hash_algorithm cfg) (eviction_policy cfg) (cfg_enabled cfg))
               stats_zero))
      end
  end.

(** ** Operations *)

Definition hash_of (c : cache) (key : list ascii) : Z := compute_hash (hash_algorithm (config c)) key.

(** [(size_t)(hash & (cache->bucket_count - 1))]. *)
Definition bucket_of (c : cache) (key : list ascii) : nat :=
  Z.to_nat (Z.land (hash_of c key) (u64 (bucket_count c - 1))).

Definition matches (h : Z) (key : list ascii) (e : cache_entry) : bool :=
  (hash_key e =? h) && str_eqb (normalized_sql e) key.

(** The chain walk common to insert, lookup and expire: what precedes the
    first match, the match, what follows. *)
Fixpoint find_match (h : Z) (key : list ascii) (chain : list cache_entry)
    : option (list cache_entry * cache_entry * list cache_entry) :=
  match chain with
  | [] => None
  | cur :: rest =>
      if matches h key cur then Some ([], cur, rest)
      else match find_match h key rest with
           | Some (pre, e, post) => Some (cur :: pre, e, post)
           | None => None
           end
  end.

Definition chain_of (c : cache) (key : list ascii) : list cache_entry :=
  default [] (buckets c !! bucket_of c key).

Definition cache_hash_string (c : cache) (key : option (list ascii)) : Z :=
  match key with Some k => hash_of c k | None => 0 end.

(** What becomes of the document passed to [cache_insert]: the cache holds
    it, the cache has freed it, or the caller still owns it. *)
Inductive doc_fate := DOC_STORED | DOC_FREED | DOC_CALLER.

(** The end of [cache_insert], once room has been made. *)
Definition insert_entry (c : cache) (key : list ascii) (e : cache_entry) : cache :=
  let b := bucket_of c key in
  let chain := chain_of c key in
  let st := if peak_entry_size (stats c) <? entry_memory_bytes e
            then stats_peak (entry_memory_bytes e) (stats c) else stats c in
  set_counters (cache_hits c) (cache_misses c) (cache_evictions c) (u64 (cache_inserts c + 1))
    (match chain with [] => collision_count c | _ :: _ => u64 (collision_count c + 1) end) st
    (set_table (<[b := e :: chain]> (buckets c)) (u64 (entry_count c + 1))
       (u64 (current_memory_bytes c + entry_memory_bytes e)) c).

Definition unlink (c : cache) (key : list ascii) (pre post : list cache_entry) (e : cache_entry) : cache :=
  set_table (<[bucket_of c key := pre ++ post]> (buckets c))
    (u64 (entry_count c - 1)) (u64 (current_memory_bytes c - entry_memory_bytes e)) c.

(** The two eviction loops. *)
Definition make_room (c : cache) (key : list ascii) (doc_len : Z) : cache :=
  let estimated := u64 (SIZEOF_CACHE_ENTRY + Z.of_nat (length key) + 1 + doc_len + 1) in
  let c1 := fst (evict_while (length (entries c)) (fun c => max_entries c <=? entry_count c) c) in
  fst (evict_while (length (entries c1))
         (fun c => max_memory_bytes c <? u64 (current_memory_bytes c + estimated)) c1).

Definition cache_insert (al : nat -> bool) (a : nat) (now : Z) (c : cache)
    (key output_doc : option (list ascii)) (doc_len : Z) (opts : option cache_entry_opts)
    : cache * Z * doc_fate :=
  match key, output_doc with
  | Some key, Some doc =>
      if negb (enabled c) then (c, 0, DOC_FREED)
      else
        let ttl := match opts with
                   | Some o => if 0 <? o_ttl_seconds o then o_ttl_seconds o else ttl_seconds c
                   | None => ttl_seconds c
                   end in
        let store (c : cache) :=
          let c := make_room c key doc_len in
          match alloc_entry al a now key doc doc_len (hash_of c key) ttl opts with
          | None => (c, -1, DOC_CALLER)
          | Some e => (insert_entry c key e, 0, DOC_STORED)
          end in
        match find_match (hash_of c key) key (chain_of c key) with
        | Some (pre, cur, post) =>
            if in_use cur then (c, 0, DOC_FREED) else store (unlink c key pre post cur)
        | None => store c
        end
  | _, _ => (c, -1, DOC_CALLER)
  end.

Definition expired (now : Z) (e : cache_entry) : bool := (0 <? expiry_ts e) && (expiry_ts e <=? now).

Definition miss (c : cache) : cache :=
  set_counters (cache_hits c) (u64 (cache_misses c + 1)) (cache_evictions c) (cache_inserts c)
    (collision_count c) (stats_miss (stats c)) c.

Definition set_chain (c : cache) (key : list ascii) (chain : list cache_entry) : cache :=
  set_table (<[bucket_of c key := chain]> (buckets c)) (entry_count c) (current_memory_bytes c) c.

(** [None]: [NULL]; otherwise the entry, as it is after the call.  The C function
    changes the counters and the marks of the entry under the read lock; here
    it is one step. *)
Definition cache_lookup (now lookup_us : Z) (c : cache) (key : option (list ascii))
    : cache * option cache_entry :=
  match key with
  | None => (c, None)
  | Some key =>
      if negb (enabled c) then (c, None)
      else
        match find_match (hash_of c key) key (chain_of c key) with
        | None => (miss c, None)
        | Some (pre, cur, post) =>
            if expired now cur then (miss c, None)
            else
              let cur' := set_state true now (u64 (hit_count cur + 1)) cur in
              let c' := set_chain c key (pre ++ cur' :: post) in
              (set_counters (u64 (cache_hits c + 1)) (cache_misses c) (cache_evictions c)
                 (cache_inserts c) (collision_count c) (stats_hit lookup_us (stats c)) c', Some cur')
        end
  end.

(** The caller hands back the pointer [a] that [cache_lookup] gave it.
    [None]: no entry has this address any more, so the C function writes to
    freed memory. *)
Definition release_entry (a : nat) (e : cache_entry) : cache_entry :=
  if Nat.eqb (addr e) a then set_state false (last_access_ts e) (hit_count e) e else e.

Definition cache_release (c : cache) (entry : option nat) : option cache :=
  match entry with
  | None => Some c
  | Some a =>
      if existsb (fun e => Nat.eqb (addr e) a) (entries c)
      then Some (set_table (map (map (release_entry a)) (buckets c)) (entry_count c)
                   (current_memory_bytes c) c)
      else None
  end.

Definition past (now : Z) : Z := if 0 <? now then now - 1 else 1.

Definition cache_expire_entry (now : Z) (c : cache) (key : option (list ascii)) : cache * Z :=
  match key with
  | None => (c, -1)
  | Some key =>
      match find_match (hash_of c key) key (chain_of c key) with
      | Some (pre, cur, post) =>
          (count_evictions 1 (set_chain c key (pre ++ set_expiry (past now) cur :: post)), 0)
      | None => (c, 1)
      end
  end.

(** The entries [cache_invalidate_by_tag] marks. *)
Definition tag_hit (now : Z) (tag : list ascii) (e : cache_entry) : bool :=
  match table_dependency_tag e with
  | None => false
  | Some t => negb (expired now e) && match strstr tag t with Some _ => true | None => false end
  end.

Definition cache_invalidate_by_tag (now : Z) (c : cache) (tag : option (list ascii)) : cache * Z :=
  match tag with
  | None | Some [] => (c, -1)
  | Some ((_ :: _) as tag) =>
      let mark e := if tag_hit now tag e then set_expiry (past now) e else e in
      let matched := length (List.filter (tag_hit now tag) (entries c)) in
      (count_evictions matched
         (set_table (map (map mark) (buckets c)) (entry_count c) (current_memory_bytes c) c),
       Z.of_nat matched)
  end.

Definition reclaimable (now : Z) (e : cache_entry) : bool :=
  expired now e && negb (pinned e) && negb (in_use e).

Definition mem_sum (es : list cache_entry) : Z := foldr (fun e n => entry_memory_bytes e + n) 0 es.

(** A sweep that frees the entries [gone] selects, chain order kept. *)
Definition sweep (gone : cache_entry -> bool) (c : cache) : cache :=
  let out := List.filter gone (entries c) in
  set_table (map (List.filter (fun e => negb (gone e))) (buckets c))
    (u64 (entry_count c - Z.of_nat (length out)))
    (u64 (current_memory_bytes c - mem_sum out)) c.

Definition cache_evict_expired (now : Z) (c : cache) : cache * Z :=
  let evicted := length (List.filter (reclaimable now) (entries c)) in
  let c1 := count_evictions evicted (sweep (reclaimable now) c) in
  let '(c2, lru_evicted) :=
    evict_while (length (entries c1)) (fun c => max_memory_bytes c <? current_memory_bytes c) c1 in
  (c2, Z.of_nat evicted + Z.of_nat lru_evicted).

Definition cache_reinitialize (c : cache) : cache * Z :=
  (set_counters 0 0 0 0 0 stats_zero (sweep (fun e => negb (pinned e)) c), 0).

(** Everything is freed; the entries, then the handle. *)
Definition cache_destroy (c : cache) : list cache_entry := entries c.

(** The figures of the report, and the fields it writes back. *)
Record cache_report := mk_report {
  mem_pct : double; hit_rate : double; max_depth : Z; used_buckets : Z }.

Definition stats_report (pct : double) (s : query_execution_stats) : query_execution_stats :=
  mk_stats (execution_count s) (success_count s) (failure_count s) (rows_returned s)
    (s_cache_hits s) (s_cache_misses s) (total_execution_ms s) (avg_execution_ms s)
    (total_fetch_ms s) (avg_fetch_ms s) (min_execution_ms s) (max_execution_ms s)
    (last_execution_ts s) pct 0 (compression_ratio s) (avg_lookup_us s) (peak_entry_size s).

Definition percent (a b : Z) : double :=
  if 0 <? b then dbl_mul (dbl_div (dbl_of a) (dbl_of b)) (dbl_of 100) else S754_zero false.

Definition cache_dump_report (c : cache) : cache * cache_report :=
  let pct := percent (current_memory_bytes c) (max_memory_bytes c) in
  (set_counters (cache_hits c) (cache_misses c) (cache_evictions c) (cache_inserts c)
     (collision_count c) (stats_report pct (stats c)) c,
   mk_report pct (percent (cache_hits c) (u64 (cache_hits c + cache_misses c)))
     (foldr (fun ch d => Z.max (Z.of_nat (length ch)) d) 0 (buckets c))
     (Z.of_nat (length (List.filter (fun ch => negb (Nat.eqb (length ch) 0)) (buckets c))))).

Definition cache_update_exec_stats (now : Z) (c : cache) (execution_ms fetch_ms : double)
    (rows : Z) (was_cache_hit success : bool) : cache :=
  let s := stats c in
  let n := u64 (execution_count s + 1) in
  let total := dbl_add (total_execution_ms s) execution_ms in
  let total_fetch := dbl_add (total_fetch_ms s) fetch_ms in
  let s' :=
    mk_stats n
      (if success then u64 (success_count s + 1) else success_count s)
      (if success then failure_count s else u64 (failure_count s + 1))
      (u64 (rows_returned s + rows))
      (if was_cache_hit then u64 (s_cache_hits s + 1) else s_cache_hits s)
      (if was_cache_hit then s_cache_misses s else u64 (s_cache_misses s + 1))
      total (dbl_div total (dbl_of n)) total_fetch (dbl_div total_fetch (dbl_of n))
      (if dbl_ltb execution_ms (min_execution_ms s) then execution_ms else min_execution_ms s)
      (if dbl_ltb (max_execution_ms s) execution_ms then execution_ms else max_execution_ms s)
      now
      (if 0 <? max_memory_bytes c then percent (current_memory_bytes c) (max_memory_bytes c)
       else memory_pressure_pct s)
      (eviction_rate s) (compression_ratio s) (avg_lookup_us s) (peak_entry_size s) in
  set_counters (cache_hits c) (cache_misses c) (cache_evictions c) (cache_inserts c)
    (collision_count c) s' c.

(** ** Key normalisation *)

(** The loop; [len] characters have been written, [out] is their reverse. *)
Fixpoint normalize_loop (dest_max : nat) (s : list ascii) (len : nat) (in_ws : bool)
    (out : list ascii) : list ascii :=
  match s with
  | [] => out
  | c :: s' =>
      if (len <? dest_max - 1)%nat then
        if isspace c then
          if negb in_ws && (len <? dest_max - 2)%nat
          then normalize_loop dest_max s' (S len) true (" "%char :: out)
          else normalize_loop dest_max s' len in_ws out
        else normalize_loop dest_max s' (S len) false (toupper c :: out)
      else out
  end.

Definition trim_last (out : list ascii) : list ascii :=
  match out with
  | c :: out' => if Ascii.eqb c " " then out' else out
  | [] => []
  end.

Definition cache_normalize_sql (sql : option (list ascii)) (dest_max : nat) : option (list ascii) :=
  match sql with
  | None => None
  | Some s =>
      if (dest_max <? 2)%nat then None
      else Some (rev (trim_last (normalize_loop dest_max s 0 true [])))
  end.

(** ** Structural lemmas *)

Section structure.
Implicit Types (c : cache) (e : cache_entry) (bs : list (list cache_entry)) (key : list ascii).

Lemma concat_split bs b (ch : list cache_entry) :
  bs !! b = Some ch ->
  exists R, concat bs ≡ₚ ch ++ R /\ forall ch', concat (<[b := ch']> bs) ≡ₚ ch' ++ R.
Proof.
  intros H. exists (concat (take b bs) ++ concat (drop (S b) bs)). split; [|intros ch'].
  - rewrite <- (take_drop_middle bs b ch H) at 1. rewrite concat_app. simpl. solve_Permutation.
  - rewrite insert_take_drop by (eapply lookup_lt_Some; exact H).
    rewrite concat_app. simpl. solve_Permutation.
Qed.

Lemma concat_elem bs e : e ∈ concat bs <-> exists b ch, bs !! b = Some ch /\ e ∈ ch.
Proof.
  rewrite list_elem_of_In, in_concat. split.
  - intros (ch & Hch & He). apply list_elem_of_In, list_elem_of_lookup in Hch as [b Hb].
    exists b, ch. by rewrite list_elem_of_In.
  - intros (b & ch & Hb & He). exists ch. split.
    + apply list_elem_of_In. by eapply list_elem_of_lookup_2.
    + by apply list_elem_of_In.
Qed.

Lemma concat_map_filter (f : cache_entry -> bool) bs :
  concat (map (List.filter f) bs) = List.filter f (concat bs).
Proof. induction bs as [|ch bs IH]; simpl; [done|]. by rewrite filter_app, IH. Qed.

Lemma matches_spec h key e : matches h key e = true <-> hash_key e = h /\ normalized_sql e = key.
Proof. unfold matches, str_eqb. by rewrite andb_true_iff, Z.eqb_eq, bool_decide_eq_true. Qed.

Lemma find_match_Some h key chain pre e post :
  find_match h key chain = Some (pre, e, post) ->
  chain = pre ++ e :: post /\ hash_key e = h /\ normalized_sql e = key.
Proof.
  revert pre. induction chain as [|cur rest IH]; simpl; intros pre H; [done|].
  destruct (matches h key cur) eqn:E.
  - injection H as <- <- <-. by apply matches_spec in E.
  - destruct (find_match h key rest) as [[[p e'] q]|]; [|done]. injection H as <- <- <-.
    destruct (IH p eq_refl) as [-> ?]. done.
Qed.

Lemma find_match_None h key chain e :
  find_match h key chain = None -> e ∈ chain -> hash_key e = h -> normalized_sql e <> key.
Proof.
  induction chain as [|cur rest IH]; simpl; intros H He Hh; [by apply elem_of_nil in He|].
  destruct (matches h key cur) eqn:E; [done|].
  destruct (find_match h key rest) as [[[? ?] ?]|]; [done|].
  apply elem_of_cons in He as [->|He]; [|by apply IH].
  intros Hk. by rewrite (proj2 (matches_spec _ _ _)) in E.
Qed.

Lemma find_match_ext h key chain (f : cache_entry -> cache_entry) :
  (forall e, hash_key (f e) = hash_key e /\ normalized_sql (f e) = normalized_sql e) ->
  find_match h key (map f chain) =
  match find_match h key chain with
  | Some (pre, e, post) => Some (map f pre, f e, map f post)
  | None => None
  end.
Proof.
  intros Hf. induction chain as [|cur rest IH]; simpl; [done|].
  destruct (Hf cur) as [Hh Hk].
  assert (matches h key (f cur) = matches h key cur) as -> by (unfold matches; by rewrite Hh, Hk).
  destruct (matches h key cur); [done|]. rewrite IH.
  by destruct (find_match h key rest) as [[[? ?] ?]|].
Qed.

Lemma mem_sum_perm (l1 l2 : list cache_entry) : l1 ≡ₚ l2 -> mem_sum l1 = mem_sum l2.
Proof. unfold mem_sum. induction 1; simpl; lia. Qed.

Lemma mem_sum_app (l1 l2 : list cache_entry) : mem_sum (l1 ++ l2) = mem_sum l1 + mem_sum l2.
Proof. unfold mem_sum. induction l1 as [|e l1 IH]; simpl; lia. Qed.

Lemma filter_partition (f : cache_entry -> bool) l :
  l ≡ₚ List.filter f l ++ List.filter (fun e => negb (f e)) l.
Proof.
  induction l as [|e l IH]; simpl; [done|]. destruct (f e); simpl.
  - by f_equiv.
  - rewrite <- Permutation_middle. by f_equiv.
Qed.

(** The scan: nothing to evict leaves the accumulator as it was; no entry
    accessed before [OLDEST_ACCESS_INIT] is ever chosen. *)
Lemma lru_scan_chain_old b pos chain acc :
  Forall (fun e => fst acc <= last_access_ts e) chain -> lru_scan_chain b pos chain acc = acc.
Proof.
  revert pos. induction chain as [|cur rest IH]; simpl; intros pos H; [done|].
  apply Forall_cons_1 in H as [H1 H2].
  rewrite (proj2 (Z.ltb_ge (last_access_ts cur) (fst acc))), andb_false_r by done. by apply IH.
Qed.

Lemma lru_scan_old b bs acc :
  Forall (fun e => fst acc <= last_access_ts e) (concat bs) -> lru_scan b bs acc = acc.
Proof.
  revert b. induction bs as [|chain bs IH]; simpl; intros b H; [done|].
  apply Forall_app in H as [H1 H2]. rewrite lru_scan_chain_old by done. by apply IH.
Qed.

Lemma evict_lru_none c :
  Forall (fun e => -1 <= last_access_ts e) (entries c) -> evict_lru_under_lock c = None.
Proof. intros H. unfold evict_lru_under_lock. by rewrite lru_scan_old. Qed.

Lemma evict_while_none fuel over c :
  Forall (fun e => -1 <= last_access_ts e) (entries c) -> evict_while fuel over c = (c, O).
Proof.
  intros H. destruct fuel as [|f]; simpl; [done|].
  destruct (over c); [|done]. by rewrite evict_lru_none.
Qed.

(** The fuel of the eviction loops is enough: each turn removes an entry. *)
Definition valid_place bs (r : option (nat * nat)) : Prop :=
  match r with
  | None => True
  | Some (b, pos) => exists ch e, bs !! b = Some ch /\ ch !! pos = Some e
  end.

Lemma lru_scan_chain_place bs b pos chain chain0 acc :
  bs !! b = Some chain0 -> drop pos chain0 = chain -> valid_place bs (snd acc) ->
  valid_place bs (snd (lru_scan_chain b pos chain acc)).
Proof.
  intros Hb. revert pos acc. induction chain as [|cur rest IH]; simpl; intros pos acc Hd Ha; [done|].
  apply IH.
  - replace (S pos) with (pos + 1)%nat by lia. by rewrite <- drop_drop, Hd.
  - destruct (_ && _); [|done]. simpl. exists chain0, cur. split; [done|].
    rewrite <- (Nat.add_0_r pos), <- lookup_drop, Hd. done.
Qed.

Lemma lru_scan_place bs0 b bs acc :
  drop b bs0 = bs -> valid_place bs0 (snd acc) -> valid_place bs0 (snd (lru_scan b bs acc)).
Proof.
  revert b acc. induction bs as [|chain bs IH]; simpl; intros b acc Hd Ha; [done|].
  apply IH.
  - replace (S b) with (b + 1)%nat by lia. by rewrite <- drop_drop, Hd.
  - apply lru_scan_chain_place with chain; [|by rewrite drop_0 | done].
    rewrite <- (Nat.add_0_r b), <- lookup_drop, Hd. done.
Qed.

Lemma evict_lru_shrinks c c' :
  evict_lru_under_lock c = Some c' -> S (length (entries c')) = length (entries c).
Proof.
  unfold evict_lru_under_lock. intros H.
  pose proof (lru_scan_place (buckets c) 0 (buckets c) (OLDEST_ACCESS_INIT, None) eq_refl I) as Hp.
  destruct (snd (lru_scan _ _ _)) as [[b pos]|]; [|done].
  destruct Hp as (ch & e & Hb & He). rewrite Hb in H. simpl in H. rewrite He in H.
  injection H as <-. unfold entries. simpl.
  destruct (concat_split _ _ _ Hb) as (R & H1 & H2).
  assert (alter (fun chain => delete pos chain) b (buckets c) = <[b := delete pos ch]> (buckets c)) as ->.
  { apply list_eq. intros i. destruct (decide (i = b)) as [->|].
    - rewrite list_lookup_alter_eq, Hb, list_lookup_insert_eq by (by eapply lookup_lt_Some). done.
    - by rewrite list_lookup_alter_ne, list_lookup_insert_ne by congruence. }
  rewrite H1, H2, !length_app. rewrite length_delete by (by eexists).
  apply lookup_lt_Some in He. lia.
Qed.

Lemma evict_while_fuel n m over c :
  (length (entries c) <= n)%nat -> (length (entries c) <= m)%nat ->
  evict_while n over c = evict_while m over c.
Proof.
  revert m c. induction n as [|n IH]; intros m c Hn Hm; destruct m as [|m]; simpl.
  - done.
  - destruct (over c); [|done]. destruct (evict_lru_under_lock c) eqn:E; [|done].
    apply evict_lru_shrinks in E. lia.
  - destruct (over c); [|done]. destruct (evict_lru_under_lock c) eqn:E; [|done].
    apply evict_lru_shrinks in E. lia.
  - destruct (over c); [|done]. destruct (evict_lru_under_lock c) as [c'|] eqn:E; [|done].
    apply evict_lru_shrinks in E. rewrite (IH m c') by lia. done.
Qed.
End structure.
