(* ===== verification/CacheSpec.v ===== *)
(** * CacheSpec: the cache is a finite map

    The contract of src/src/infra/cache.c.  The abstract state is a finite map
    from keys to entries; [spec_run] says what each call does to it and what
    it answers, without buckets, hashes, counters or limits.  [cinv] is the
    invariant of the concrete cache: entries in the bucket of their hash, no
    key and no address twice, the entry count and the memory charge exact.
    [cache_refines_map] is the simulation: from a state in the invariant every
    call does what [spec_run] says and keeps the invariant.  The properties
    after it are read off the map. *)

From Stdlib Require Import Ascii String ZArith Lia Bool SpecFloat.
From stdpp Require Import base list strings numbers gmap.
From S2P Require Import Prelude Hash Cache.

#[local] Open Scope Z_scope.

(** ** The abstract state *)

Abbreviation amap := (gmap (list ascii) cache_entry) (only parsing).

Definition keyed (e : cache_entry) : list ascii * cache_entry := (normalized_sql e, e).
Definition labs (l : list cache_entry) : amap := list_to_map (map keyed l).
Definition abs (c : cache) : amap := labs (entries c).

(** Calls and answers. *)
Inductive call :=
| CallInsert (al : nat -> bool) (a : nat) (now : Z) (key doc : option (list ascii)) (doc_len : Z)
    (opts : option cache_entry_opts)
| CallLookup (now us : Z) (key : option (list ascii))
| CallRelease (entry : option nat)
| CallExpire (now : Z) (key : option (list ascii))
| CallInvalidate (now : Z) (tag : option (list ascii))
| CallEvictExpired (now : Z)
| CallReinitialize
| CallReport
| CallExecStats (now : Z) (exec_ms fetch_ms : spec_float) (rows : Z) (hit success : bool).

Inductive answer :=
| AnsInt (z : Z)
| AnsInsert (z : Z) (f : doc_fate)
| AnsEntry (e : option cache_entry)
| AnsVoid.

Definition run (c : cache) (o : call) : option (cache * answer) :=
  match o with
  | CallInsert al a now key doc n opts =>
      let '(c', z, f) := cache_insert al a now c key doc n opts in Some (c', AnsInsert z f)
  | CallLookup now us key => let '(c', e) := cache_lookup now us c key in Some (c', AnsEntry e)
  | CallRelease entry => c' ← cache_release c entry; Some (c', AnsVoid)
  | CallExpire now key => let '(c', z) := cache_expire_entry now c key in Some (c', AnsInt z)
  | CallInvalidate now tag => let '(c', z) := cache_invalidate_by_tag now c tag in Some (c', AnsInt z)
  | CallEvictExpired now => let '(c', z) := cache_evict_expired now c in Some (c', AnsInt z)
  | CallReinitialize => let '(c', z) := cache_reinitialize c in Some (c', AnsInt z)
  | CallReport => Some (fst (cache_dump_report c), AnsVoid)
  | CallExecStats now x f r h s => Some (cache_update_exec_stats now c x f r h s, AnsVoid)
  end.

(** What a cache never changes: its switch, its default TTL and its hash. *)
Record params := mk_params { p_enabled : bool; p_ttl : Z; p_hash : list ascii -> Z }.
Definition params_of (c : cache) : params := mk_params (enabled c) (ttl_seconds c) (hash_of c).

Definition count_of (p : cache_entry -> bool) (m : amap) : Z :=
  Z.of_nat (length (List.filter p (map snd (map_to_list m)))).

Definition spec_insert (p : params) (m : amap) (al : nat -> bool) (a : nat) (now : Z)
    (key doc : option (list ascii)) (n : Z) (opts : option cache_entry_opts) : amap * answer :=
  match key, doc with
  | Some k, Some d =>
      if negb (p_enabled p) then (m, AnsInsert 0 DOC_FREED)
      else
        let put :=
          let ttl := match opts with
                     | Some o => if 0 <? o_ttl_seconds o then o_ttl_seconds o else p_ttl p
                     | None => p_ttl p
                     end in
          match alloc_entry al a now k d n (p_hash p k) ttl opts with
          | None => (delete k m, AnsInsert (-1) DOC_CALLER)
          | Some e => (<[k := e]> m, AnsInsert 0 DOC_STORED)
          end in
        match m !! k with
        | Some old => if in_use old then (m, AnsInsert 0 DOC_FREED) else put
        | None => put
        end
  | _, _ => (m, AnsInsert (-1) DOC_CALLER)
  end.

Definition touched (now : Z) (e : cache_entry) : cache_entry := set_state true now (u64 (hit_count e + 1)) e.

Definition spec_lookup (p : params) (m : amap) (now : Z) (key : option (list ascii)) : amap * answer :=
  match key with
  | None => (m, AnsEntry None)
  | Some k =>
      if negb (p_enabled p) then (m, AnsEntry None)
      else match m !! k with
           | None => (m, AnsEntry None)
           | Some e => if expired now e then (m, AnsEntry None)
                       else (<[k := touched now e]> m, AnsEntry (Some (touched now e)))
           end
  end.

Definition spec_run (p : params) (m : amap) (o : call) : amap * answer :=
  match o with
  | CallInsert al a now key doc n opts => spec_insert p m al a now key doc n opts
  | CallLookup now _ key => spec_lookup p m now key
  | CallRelease entry => (match entry with Some a => release_entry a <$> m | None => m end, AnsVoid)
  | CallExpire now (Some k) =>
      match m !! k with
      | Some e => (<[k := set_expiry (past now) e]> m, AnsInt 0)
      | None => (m, AnsInt 1)
      end
  | CallExpire _ None => (m, AnsInt (-1))
  | CallInvalidate now (Some ((_ :: _) as tag)) =>
      ((fun e => if tag_hit now tag e then set_expiry (past now) e else e) <$> m,
       AnsInt (count_of (tag_hit now tag) m))
  | CallInvalidate _ _ => (m, AnsInt (-1))
  | CallEvictExpired now =>
      (filter (fun kv => reclaimable now (snd kv) = false) m, AnsInt (count_of (reclaimable now) m))
  | CallReinitialize => (filter (fun kv => pinned (snd kv) = true) m, AnsInt 0)
  | CallReport | CallExecStats _ _ _ _ _ _ => (m, AnsVoid)
  end.

(** What a call relies on: a clock after the epoch, an allocator that does not
    hand out an address in use, a caller that releases an entry it was given
    and that is still there. *)
Definition call_ok (c : cache) (o : call) : Prop :=
  match o with
  | CallInsert _ a now _ _ _ _ => 0 <= now /\ a ∉ map addr (entries c)
  | CallLookup now _ _ => 0 <= now
  | CallRelease (Some a) => a ∈ map addr (entries c)
  | _ => True
  end.

(** ** The concrete invariant *)

Definition entry_ok (h : list ascii -> Z) (e : cache_entry) : Prop :=
  hash_key e = h (normalized_sql e) /\ entry_memory_bytes e = entry_memory_size e /\
  0 <= last_access_ts e.

Definition placed (c : cache) (bs : list (list cache_entry)) : Prop :=
  forall b ch e, bs !! b = Some ch -> e ∈ ch -> bucket_of c (normalized_sql e) = b.

(** What depends only on the entries taken together and on the hash. *)
Record bag_ok (h : list ascii -> Z) (l : list cache_entry) : Prop := {
  bag_entry : Forall (entry_ok h) l;
  bag_keys : NoDup (map normalized_sql l);
  bag_addrs : NoDup (map addr l) }.

Record cinv (c : cache) : Prop := {
  inv_pow2 : exists k, 0 <= k <= 63 /\ bucket_count c = 2 ^ k;
  inv_len : Z.of_nat (length (buckets c)) = bucket_count c;
  inv_placed : placed c (buckets c);
  inv_bag : bag_ok (hash_of c) (entries c);
  inv_count : entry_count c = u64 (Z.of_nat (length (entries c)));
  inv_mem : current_memory_bytes c = u64 (mem_sum (entries c)) }.

(** ** Lemmas on the abstraction *)

Section bags.
Implicit Types (l : list cache_entry) (e : cache_entry) (h : list ascii -> Z) (k : list ascii).

Lemma map_fst_keyed l : (map keyed l).*1 = map normalized_sql l.
Proof. induction l as [|e l IH]; simpl; [done|]. by f_equal. Qed.

Lemma labs_perm l1 l2 : NoDup (map normalized_sql l1) -> l1 ≡ₚ l2 -> labs l1 = labs l2.
Proof.
  intros Hn Hp. apply list_to_map_proper; [by rewrite map_fst_keyed|]. by apply Permutation_map.
Qed.

Lemma labs_cons e l : labs (e :: l) = <[normalized_sql e := e]> (labs l).
Proof. done. Qed.

Lemma labs_lookup l k e :
  NoDup (map normalized_sql l) -> labs l !! k = Some e <-> e ∈ l /\ normalized_sql e = k.
Proof.
  intros Hn. unfold labs. rewrite <- elem_of_list_to_map by (by rewrite map_fst_keyed).
  rewrite list_elem_of_In, in_map_iff. split.
  - intros (e' & H & He). unfold keyed in H. injection H as <- <-. split; [|done]. by apply list_elem_of_In.
  - intros [He <-]. exists e. split; [done|]. by apply list_elem_of_In.
Qed.

Lemma labs_lookup_None l k : labs l !! k = None <-> k ∉ map normalized_sql l.
Proof. unfold labs. by rewrite <- not_elem_of_list_to_map, map_fst_keyed. Qed.

Lemma labs_delete e l :
  NoDup (map normalized_sql (e :: l)) -> labs l = delete (normalized_sql e) (labs (e :: l)).
Proof.
  simpl. intros [Hn _]%NoDup_cons. rewrite labs_cons, delete_insert_id; [done|]. by apply labs_lookup_None.
Qed.

Lemma labs_fmap (f : cache_entry -> cache_entry) l :
  (forall e, normalized_sql (f e) = normalized_sql e) -> labs (map f l) = f <$> labs l.
Proof.
  intros Hf. induction l as [|e l IH]; [done|]. simpl. rewrite !labs_cons, fmap_insert, IH, Hf. done.
Qed.

Lemma labs_filter (p : cache_entry -> bool) l :
  NoDup (map normalized_sql l) ->
  labs (List.filter p l) = filter (fun kv => p (snd kv) = true) (labs l).
Proof.
  intros Hn. assert (NoDup (map normalized_sql (List.filter p l))) as Hn'.
  { clear -Hn. induction l as [|e l IH]; simpl in *; [done|]. apply NoDup_cons in Hn as [H1 H2].
    destruct (p e); simpl; [|by apply IH]. apply NoDup_cons. split; [|by apply IH].
    intros Hin. apply H1. apply list_elem_of_In, in_map_iff in Hin as (x & Hx & Hin).
    apply filter_In in Hin as [Hin _]. apply list_elem_of_In, in_map_iff. eauto. }
  apply map_eq. intros k. apply option_eq. intros e.
  rewrite labs_lookup, map_lookup_filter_Some, labs_lookup by done. simpl.
  rewrite !list_elem_of_In, filter_In. tauto.
Qed.

Lemma labs_values l : NoDup (map normalized_sql l) -> map snd (map_to_list (labs l)) ≡ₚ l.
Proof.
  intros Hn. unfold labs. rewrite map_to_list_to_map by (by rewrite map_fst_keyed).
  rewrite map_map. simpl. by rewrite map_id.
Qed.

Lemma filter_length_perm (p : cache_entry -> bool) l1 l2 :
  l1 ≡ₚ l2 -> length (List.filter p l1) = length (List.filter p l2).
Proof.
  induction 1 as [|x l1 l2 _ IH|x y l|l1 l2 l3 _ IH1 _ IH2]; simpl; [done | | | congruence].
  - destruct (p x); simpl; congruence.
  - by destruct (p x), (p y).
Qed.

Lemma count_of_labs (p : cache_entry -> bool) l :
  NoDup (map normalized_sql l) -> count_of p (labs l) = Z.of_nat (length (List.filter p l)).
Proof.
  intros Hn. unfold count_of. f_equal. apply filter_length_perm. by apply labs_values.
Qed.

Lemma bag_ok_perm h l1 l2 : l1 ≡ₚ l2 -> bag_ok h l1 -> bag_ok h l2.
Proof.
  intros Hp [H1 H2 H3]. split.
  - by rewrite <- Hp.
  - eapply NoDup_Permutation_proper; [|exact H2]. symmetry. by apply Permutation_map.
  - eapply NoDup_Permutation_proper; [|exact H3]. symmetry. by apply Permutation_map.
Qed.

Lemma bag_ok_tail h e l : bag_ok h (e :: l) -> bag_ok h l.
Proof.
  intros [H1 H2 H3]. simpl in *. apply Forall_cons_1 in H1 as [_ ?].
  apply NoDup_cons in H2 as [_ ?]. apply NoDup_cons in H3 as [_ ?]. done.
Qed.

Lemma bag_ok_cons h e l :
  entry_ok h e -> normalized_sql e ∉ map normalized_sql l -> addr e ∉ map addr l ->
  bag_ok h l -> bag_ok h (e :: l).
Proof. intros He Hk Ha [H1 H2 H3]. split; simpl; by constructor. Qed.

Lemma bag_ok_map h (f : cache_entry -> cache_entry) l :
  (forall e, normalized_sql (f e) = normalized_sql e /\ addr (f e) = addr e) ->
  (forall e, entry_ok h e -> entry_ok h (f e)) ->
  bag_ok h l -> bag_ok h (map f l).
Proof.
  intros Hf He [H1 H2 H3]. split.
  - apply Forall_fmap. eapply Forall_impl; [exact H1|]. simpl. auto.
  - rewrite map_map. erewrite map_ext; [exact H2|]. intros e. apply Hf.
  - rewrite map_map. erewrite map_ext; [exact H3|]. intros e. apply Hf.
Qed.
End bags.

(** ** Lemmas on the invariant *)

Section inv.
Implicit Types (c : cache) (e : cache_entry) (key : list ascii) (l : list cache_entry).

Lemma bucket_valid c key :
  cinv c -> (bucket_of c key < length (buckets c))%nat.
Proof.
  intros [(k & Hk & Hc) Hl _ _ _ _]. unfold bucket_of. rewrite Hc.
  assert (1 <= 2 ^ k <= 2 ^ 63) as Hp.
  { split; [|apply Z.pow_le_mono_r; lia]. pose proof (Z.pow_pos_nonneg 2 k). lia. }
  rewrite u64_small by lia. rewrite <- Z.ones_equiv || idtac.
  replace (2 ^ k - 1) with (Z.ones k) by (rewrite Z.ones_equiv; lia).
  rewrite Z.land_ones by lia. pose proof (Z.mod_pos_bound (hash_of c key) (2 ^ k) ltac:(lia)). lia.
Qed.

Lemma chain_lookup c key : cinv c -> buckets c !! bucket_of c key = Some (chain_of c key).
Proof.
  intros H. unfold chain_of. destruct (lookup_lt_is_Some_2 _ _ (bucket_valid c key H)) as [ch ->]. done.
Qed.

Lemma abs_lookup c key e : cinv c -> abs c !! key = Some e <-> e ∈ entries c /\ normalized_sql e = key.
Proof. intros H. apply labs_lookup, (inv_bag c H). Qed.

Lemma chain_elem c key e :
  cinv c -> e ∈ entries c -> normalized_sql e = key -> e ∈ chain_of c key.
Proof.
  intros H (b & ch & Hb & He)%concat_elem Hk.
  pose proof (inv_placed c H b ch e Hb He) as Hpl. rewrite Hk in Hpl. subst b.
  rewrite (chain_lookup c key H) in Hb. by injection Hb as ->.
Qed.

Lemma find_spec c key :
  cinv c ->
  match find_match (hash_of c key) key (chain_of c key) with
  | Some (pre, e, post) =>
      chain_of c key = pre ++ e :: post /\ normalized_sql e = key /\ abs c !! key = Some e
  | None => abs c !! key = None
  end.
Proof.
  intros H. destruct (find_match _ _ _) as [[[pre e] post]|] eqn:E.
  - apply find_match_Some in E as (Hch & _ & Hk). split_and!; [done..|].
    apply abs_lookup; [done|]. split; [|done]. apply concat_elem.
    exists (bucket_of c key), (chain_of c key). split; [by apply chain_lookup|].
    rewrite Hch. apply elem_of_app. right. by left.
  - destruct (abs c !! key) as [e|] eqn:Ea; [|done]. exfalso.
    apply abs_lookup in Ea as [He Hk]; [|done].
    eapply find_match_None; [exact E | by eapply chain_elem | | exact Hk].
    pose proof (bag_entry _ _ (inv_bag c H)) as Hf.
    apply list_elem_of_In in He. destruct (proj1 (List.Forall_forall _ _) Hf e He) as [-> _]. by rewrite Hk.
Qed.

(** Replacing the chain of one bucket. *)
Lemma chain_update c key :
  cinv c -> exists rest, entries c ≡ₚ chain_of c key ++ rest /\
  forall ch' n m,
    (forall e, e ∈ ch' -> bucket_of c (normalized_sql e) = bucket_of c key) ->
    bag_ok (hash_of c) (ch' ++ rest) ->
    n = u64 (Z.of_nat (length (ch' ++ rest))) -> m = u64 (mem_sum (ch' ++ rest)) ->
    let c' := set_table (<[bucket_of c key := ch']> (buckets c)) n m c in
    cinv c' /\ entries c' ≡ₚ ch' ++ rest /\ abs c' = labs (ch' ++ rest).
Proof.
  intros H. destruct (concat_split _ _ _ (chain_lookup c key H)) as (rest & H1 & H2).
  exists rest. split; [exact H1|]. intros ch' n m Hpl Hb -> ->. specialize (H2 ch').
  pose proof (bucket_valid c key H) as Hlt. destruct H as [Hp Hl Hpl0 _ _ _]. cbv zeta. split_and!.
  - split; simpl.
    + exact Hp.
    + by rewrite length_insert.
    + intros b ch e Hlk He. destruct (decide (b = bucket_of c key)) as [->|Hne].
      * rewrite list_lookup_insert_eq in Hlk by exact Hlt. injection Hlk as <-. by apply Hpl.
      * rewrite list_lookup_insert_ne in Hlk by congruence. by apply (Hpl0 b ch e).
    + eapply bag_ok_perm; [symmetry; exact H2 | exact Hb].
    + do 2 f_equal. symmetry. by apply Permutation_length.
    + f_equal. symmetry. by apply mem_sum_perm.
  - exact H2.
  - apply labs_perm; [|exact H2]. eapply bag_keys, bag_ok_perm; [symmetry; exact H2 | exact Hb].
Qed.

Lemma chain_same_bucket c key e :
  cinv c -> e ∈ chain_of c key -> bucket_of c (normalized_sql e) = bucket_of c key.
Proof. intros H He. eapply (inv_placed c H); [by apply chain_lookup | done]. Qed.

Lemma cinv_counters c h mi ev ins col st : cinv c -> cinv (set_counters h mi ev ins col st c).
Proof. intros [? ? ? ? ? ?]. by split. Qed.

(** No entry is older than the eviction scan's starting point. *)
Lemma cinv_no_lru c fuel over : cinv c -> evict_while fuel over c = (c, O).
Proof.
  intros H. apply evict_while_none. eapply Forall_impl; [exact (bag_entry _ _ (inv_bag c H))|].
  intros e (_ & _ & ?). simpl. lia.
Qed.

Lemma make_room_id c key n : cinv c -> make_room c key n = c.
Proof. intros H. unfold make_room. rewrite (cinv_no_lru c _ _ H). simpl. by rewrite cinv_no_lru. Qed.
End inv.

(** ** One entry out, changed, in *)

Section one_entry.
Implicit Types (c : cache) (e : cache_entry) (key : list ascii) (l : list cache_entry).

Lemma unlink_inv c key pre e post :
  cinv c -> chain_of c key = pre ++ e :: post -> normalized_sql e = key ->
  let c' := unlink c key pre post e in
  cinv c' /\ abs c' = delete key (abs c) /\ entries c ≡ₚ e :: entries c'.
Proof.
  intros H Hch Hk. destruct (chain_update c key H) as (rest & H1 & H2).
  rewrite Hch in H1.
  assert (entries c ≡ₚ e :: ((pre ++ post) ++ rest)) as Hp by (rewrite H1; solve_Permutation).
  pose proof (bag_ok_perm _ _ _ Hp (inv_bag c H)) as Hb.
  destruct (H2 (pre ++ post) (u64 (entry_count c - 1)) (u64 (current_memory_bytes c - entry_memory_bytes e)))
    as (Hi & He & Ha).
  - intros x [Hx|Hx]%elem_of_app; (apply chain_same_bucket; [done|]);
      rewrite Hch, elem_of_app, elem_of_cons; auto.
  - by eapply bag_ok_tail.
  - rewrite (inv_count c H). u64_norm. f_equal. apply Permutation_length in Hp. simpl in Hp. lia.
  - rewrite (inv_mem c H). u64_norm. f_equal. rewrite (mem_sum_perm _ _ Hp). simpl. lia.
  - cbv zeta. split; [exact Hi|]. split.
    + unfold unlink. rewrite Ha. unfold abs. rewrite <- Hk.
      rewrite (labs_perm _ _ (bag_keys _ _ (inv_bag c H)) Hp). apply labs_delete. exact (bag_keys _ _ Hb).
    + rewrite Hp. f_equiv. symmetry. exact He.
Qed.

Lemma update_inv c key pre e e' post :
  cinv c -> chain_of c key = pre ++ e :: post -> normalized_sql e = key ->
  normalized_sql e' = key -> addr e' = addr e -> entry_memory_bytes e' = entry_memory_bytes e ->
  entry_ok (hash_of c) e' ->
  let c' := set_chain c key (pre ++ e' :: post) in
  cinv c' /\ abs c' = <[key := e']> (abs c) /\ map addr (entries c') ≡ₚ map addr (entries c).
Proof.
  intros H Hch Hk Hk' Had Hm Hok. destruct (chain_update c key H) as (rest & H1 & H2).
  rewrite Hch in H1.
  assert (entries c ≡ₚ e :: ((pre ++ post) ++ rest)) as Hp by (rewrite H1; solve_Permutation).
  assert ((pre ++ e' :: post) ++ rest ≡ₚ e' :: ((pre ++ post) ++ rest)) as Hp' by solve_Permutation.
  pose proof (bag_ok_perm _ _ _ Hp (inv_bag c H)) as Hb.
  assert (bag_ok (hash_of c) (e' :: ((pre ++ post) ++ rest))) as Hb'.
  { pose proof (bag_ok_tail _ _ _ Hb). destruct Hb as [_ Hbk Hba]. simpl in Hbk, Hba.
    apply NoDup_cons in Hbk as [? _]. apply NoDup_cons in Hba as [? _].
    apply bag_ok_cons; [done | congruence | congruence | done]. }
  destruct (H2 (pre ++ e' :: post) (entry_count c) (current_memory_bytes c)) as (Hi & He & Ha).
  - intros x [Hx|[->|Hx]%elem_of_cons]%elem_of_app; [|by rewrite Hk'|];
      (apply chain_same_bucket; [done|]); rewrite Hch, elem_of_app, elem_of_cons; auto.
  - eapply bag_ok_perm; [symmetry; exact Hp' | exact Hb'].
  - rewrite (inv_count c H). do 2 f_equal. apply Permutation_length in Hp, Hp'. simpl in Hp, Hp'. lia.
  - rewrite (inv_mem c H), (mem_sum_perm _ _ Hp), (mem_sum_perm _ _ Hp'). simpl. by rewrite Hm.
  - cbv zeta. split; [exact Hi|]. split.
    + unfold set_chain. rewrite Ha, (labs_perm _ _ (bag_keys _ _ (bag_ok_perm _ _ _ (symmetry Hp') Hb')) Hp').
      rewrite labs_cons, Hk'. unfold abs. rewrite (labs_perm _ _ (bag_keys _ _ (inv_bag c H)) Hp), labs_cons, Hk.
      by rewrite insert_insert_eq.
    + unfold set_chain. rewrite He, Hp', Hp. simpl. by rewrite Had.
Qed.

Lemma insert_inv c key e :
  cinv c -> abs c !! key = None -> normalized_sql e = key -> addr e ∉ map addr (entries c) ->
  entry_ok (hash_of c) e ->
  let c' := insert_entry c key e in cinv c' /\ abs c' = <[key := e]> (abs c).
Proof.
  intros H Hnone Hk Had Hok. destruct (chain_update c key H) as (rest & H1 & H2).
  assert (bag_ok (hash_of c) (e :: entries c)) as Hb.
  { apply bag_ok_cons; [done | | done | apply (inv_bag c H)]. rewrite Hk. by apply labs_lookup_None. }
  assert (e :: entries c ≡ₚ (e :: chain_of c key) ++ rest) as Hp by (simpl; by f_equiv).
  destruct (H2 (e :: chain_of c key) (u64 (entry_count c + 1))
              (u64 (current_memory_bytes c + entry_memory_bytes e))) as (Hi & He & Ha).
  - intros x [->|Hx]%elem_of_cons; [by rewrite Hk | by apply chain_same_bucket].
  - by eapply bag_ok_perm.
  - rewrite (inv_count c H). u64_norm. f_equal. apply Permutation_length in Hp. simpl in Hp |- *. lia.
  - rewrite (inv_mem c H). u64_norm. f_equal. rewrite <- (mem_sum_perm _ _ Hp). simpl. lia.
  - cbv zeta. unfold insert_entry. split; [by apply cinv_counters|].
    change (abs (set_counters ?h ?m ?ev ?i ?cl ?s ?x)) with (abs x).
    rewrite Ha, <- (labs_perm _ _ (bag_keys _ _ Hb) Hp), labs_cons. by rewrite Hk.
Qed.

Lemma mem_sum_map (f : cache_entry -> cache_entry) l :
  (forall e, entry_memory_bytes (f e) = entry_memory_bytes e) -> mem_sum (map f l) = mem_sum l.
Proof. intros Hf. induction l as [|e l IH]; simpl; [done|]. by rewrite IH, Hf. Qed.

(** Every entry changed in place, its key, address, hash and size kept. *)
Lemma map_inv c (f : cache_entry -> cache_entry) :
  (forall e, normalized_sql (f e) = normalized_sql e /\ addr (f e) = addr e /\
             entry_memory_bytes (f e) = entry_memory_bytes e) ->
  (forall h e, entry_ok h e -> entry_ok h (f e)) ->
  cinv c ->
  let c' := set_table (map (map f) (buckets c)) (entry_count c) (current_memory_bytes c) c in
  cinv c' /\ abs c' = f <$> abs c.
Proof.
  intros Hf Hok [Hp Hl Hpl Hb Hc Hm]. cbv zeta.
  assert (entries (set_table (map (map f) (buckets c)) (entry_count c) (current_memory_bytes c) c)
          = map f (entries c)) as He by (unfold entries; simpl; by rewrite concat_map).
  split.
  - split.
    + exact Hp.
    + simpl. by rewrite length_map.
    + intros b ch e Hlk Hin. simpl in Hlk. rewrite list_lookup_fmap in Hlk.
      destruct (buckets c !! b) as [ch0|] eqn:Hb0; [|done]. injection Hlk as <-.
      apply list_elem_of_In, in_map_iff in Hin as (e0 & <- & Hin).
      rewrite (proj1 (Hf e0)). apply (Hpl b ch0); [done|]. by apply list_elem_of_In.
    + rewrite He. apply bag_ok_map; [intros e; split; apply Hf | intros e; apply Hok | done].
    + rewrite He, length_map. exact Hc.
    + rewrite He, mem_sum_map by (intros e; apply Hf). exact Hm.
  - unfold abs. rewrite He. apply labs_fmap. intros e. apply Hf.
Qed.

(** A sweep keeps exactly the entries it does not select. *)
Lemma sweep_inv c (gone : cache_entry -> bool) :
  cinv c ->
  cinv (sweep gone c) /\ abs (sweep gone c) = filter (fun kv => gone (snd kv) = false) (abs c).
Proof.
  intros [Hp Hl Hpl Hb Hc Hm]. set (stay := fun e => negb (gone e)).
  assert (entries (sweep gone c) = List.filter stay (entries c)) as He
    by (unfold entries; apply concat_map_filter).
  pose proof (filter_partition gone (entries c)) as Hpart.
  assert (bag_ok (hash_of c) (List.filter gone (entries c) ++ List.filter stay (entries c))) as Hb2
    by (by eapply bag_ok_perm).
  assert (bag_ok (hash_of c) (List.filter stay (entries c))) as Hb3.
  { clear -Hb2. revert Hb2. generalize (List.filter stay (entries c)). intros l.
    induction (List.filter gone (entries c)) as [|e l' IH]; simpl; [done|].
    intros H%bag_ok_tail. by apply IH. }
  split.
  - split.
    + exact Hp.
    + simpl. by rewrite length_map.
    + intros b ch e Hlk Hin. simpl in Hlk. rewrite list_lookup_fmap in Hlk.
      destruct (buckets c !! b) as [ch0|] eqn:Hb0; [|done]. injection Hlk as <-.
      apply list_elem_of_In, filter_In in Hin as [Hin _]. apply (Hpl b ch0); [done|]. by apply list_elem_of_In.
    + rewrite He. exact Hb3.
    + rewrite He. simpl. rewrite Hc. u64_norm. f_equal. apply Permutation_length in Hpart.
      rewrite length_app in Hpart. unfold stay. lia.
    + rewrite He. simpl. rewrite Hm. u64_norm. f_equal. apply mem_sum_perm in Hpart.
      rewrite mem_sum_app in Hpart. unfold stay. lia.
  - unfold abs at 1. rewrite He, labs_filter by apply Hb. apply map_filter_ext.
    intros k e _. simpl. unfold stay. by rewrite negb_true_iff.
Qed.
End one_entry.

(** ** The simulation, one call at a time *)

Section simulation.
Implicit Types (c : cache) (e : cache_entry).

Lemma set_state_ok h u ts n e : 0 <= ts -> entry_ok h e -> entry_ok h (set_state u ts n e).
Proof. by intros Hts (? & ? & _). Qed.

Lemma set_expiry_ok h x e : entry_ok h e -> entry_ok h (set_expiry x e).
Proof. by intros (? & ? & ?). Qed.

Lemma release_entry_ok h a e : entry_ok h e -> entry_ok h (release_entry a e).
Proof.
  intros H. unfold release_entry. destruct (Nat.eqb _ _); [|done].
  apply set_state_ok; [apply H | done].
Qed.

Lemma alloc_entry_ok al a now key doc n h ttl opts e :
  0 <= now -> alloc_entry al a now key doc n (h key) ttl opts = Some e ->
  entry_ok h e /\ normalized_sql e = key /\ addr e = a.
Proof.
  unfold alloc_entry. intros Hnow H. destruct (negb (al 0%nat)); [done|]. destruct (negb (al 1%nat)); [done|].
  by injection H as <-.
Qed.

(** The state after a call: invariant, abstraction and parameters. *)
Definition simulates (c : cache) (r : cache * answer) (spec : amap * answer) : Prop :=
  cinv (fst r) /\ params_of (fst r) = params_of c /\ (abs (fst r), snd r) = spec.

Lemma simulates_same c a : cinv c -> simulates c (c, a) (abs c, a).
Proof. by intros H. Qed.

(** A state that differs from [c] in its counters only. *)
Lemma simulates_counters c c1 h mi ev ins col st a m :
  simulates c (c1, a) m -> simulates c (set_counters h mi ev ins col st c1, a) m.
Proof. intros (H1 & H2 & H3). split; [by apply cinv_counters | done]. Qed.

Lemma insert_simulates c al a now key doc n opts :
  cinv c -> call_ok c (CallInsert al a now key doc n opts) ->
  let '(c', z, f) := cache_insert al a now c key doc n opts in
  simulates c (c', AnsInsert z f) (spec_insert (params_of c) (abs c) al a now key doc n opts).
Proof.
  intros H [Hnow Ha]. unfold cache_insert, spec_insert. destruct key as [k|], doc as [d|]; try by split.
  change (p_enabled (params_of c)) with (enabled c). destruct (enabled c); cbn [negb]; [|by split].
  cbv zeta. change (p_ttl (params_of c)) with (ttl_seconds c). change (p_hash (params_of c)) with (hash_of c).
  generalize (match opts with Some o => if 0 <? o_ttl_seconds o then o_ttl_seconds o else ttl_seconds c
              | None => ttl_seconds c end). intros ttl.
  pose proof (find_spec c k H) as Hf. destruct (find_match _ _ _) as [[[pre old] post]|].
  - destruct Hf as (Hch & Hk & ->). destruct (in_use old); [by split|].
    destruct (unlink_inv c k pre old post H Hch Hk) as (Hi & Hab & Hp).
    rewrite make_room_id by done. change (hash_of (unlink c k pre post old)) with (hash_of c).
    destruct (alloc_entry _ _ _ _ _ _ _ _ _) as [e|] eqn:Ea.
    + destruct (alloc_entry_ok _ _ _ _ _ _ (hash_of c) _ _ _ Hnow Ea) as (Hok & Hek & Had).
      destruct (insert_inv (unlink c k pre post old) k e Hi) as [Hi' Hab'].
      * rewrite Hab. apply lookup_delete_eq.
      * done.
      * rewrite Had. intros Hin. apply Ha. rewrite Hp. simpl. by right.
      * done.
      * split; [done|]. split; [done|]. cbn [fst snd]. by rewrite Hab', Hab, insert_delete_eq.
    + split; [done|]. split; [done|]. cbn [fst snd]. by rewrite Hab.
  - rewrite Hf, make_room_id by done.
    destruct (alloc_entry _ _ _ _ _ _ _ _ _) as [e|] eqn:Ea.
    + destruct (alloc_entry_ok _ _ _ _ _ _ (hash_of c) _ _ _ Hnow Ea) as (Hok & Hek & Had).
      destruct (insert_inv c k e H Hf Hek) as [Hi' Hab']; [by rewrite Had | done |].
      split; [done|]. split; [done|]. cbn [fst snd]. by rewrite Hab'.
    + split; [done|]. split; [done|]. cbn [fst snd]. by rewrite delete_id.
Qed.

Lemma entry_ok_found c key e : cinv c -> abs c !! key = Some e -> entry_ok (hash_of c) e.
Proof.
  intros H He. apply abs_lookup in He as [He _]; [|done]. apply list_elem_of_In in He.
  exact (proj1 (List.Forall_forall _ _) (bag_entry _ _ (inv_bag c H)) e He).
Qed.

Lemma lookup_simulates c now us key :
  cinv c -> 0 <= now ->
  let '(c', e) := cache_lookup now us c key in
  simulates c (c', AnsEntry e) (spec_lookup (params_of c) (abs c) now key).
Proof.
  intros H Hnow. unfold cache_lookup, spec_lookup. destruct key as [k|]; [|by split].
  change (p_enabled (params_of c)) with (enabled c). destruct (enabled c); cbn [negb]; [|by split].
  pose proof (find_spec c k H) as Hf. destruct (find_match _ _ _) as [[[pre e] post]|].
  - destruct Hf as (Hch & Hk & Hl). rewrite Hl. destruct (expired now e).
    + apply simulates_counters. by split.
    + apply simulates_counters.
      destruct (update_inv c k pre e (touched now e) post H Hch Hk) as (Hi & Hab & _); try done.
      { apply set_state_ok; [done | by eapply entry_ok_found]. }
      split; [done|]. split; [done|]. cbn [fst snd]. by rewrite <- Hab.
  - rewrite Hf. apply simulates_counters. by split.
Qed.

Lemma release_simulates c entry :
  cinv c -> call_ok c (CallRelease entry) ->
  exists c', cache_release c entry = Some c' /\
             simulates c (c', AnsVoid) (spec_run (params_of c) (abs c) (CallRelease entry)).
Proof.
  intros H Ha. destruct entry as [a|]; simpl in *; [|by exists c].
  assert (existsb (fun e => Nat.eqb (addr e) a) (entries c) = true) as ->.
  { apply existsb_exists. apply list_elem_of_In, in_map_iff in Ha as (e & <- & He).
    exists e. split; [done|]. apply Nat.eqb_refl. }
  eexists. split; [done|].
  destruct (map_inv c (release_entry a)) as [Hi Hab]; [| intros h e; apply release_entry_ok | done |].
  - intros e. unfold release_entry. by destruct (Nat.eqb _ _).
  - split; [done|]. split; [done|]. cbn [fst snd]. by rewrite Hab.
Qed.

Lemma expire_simulates c now key :
  cinv c ->
  let '(c', z) := cache_expire_entry now c key in
  simulates c (c', AnsInt z) (spec_run (params_of c) (abs c) (CallExpire now key)).
Proof.
  intros H. unfold cache_expire_entry. destruct key as [k|]; simpl; [|by split].
  pose proof (find_spec c k H) as Hf. destruct (find_match _ _ _) as [[[pre e] post]|].
  - destruct Hf as (Hch & Hk & Hl). rewrite Hl. apply simulates_counters.
    destruct (update_inv c k pre e (set_expiry (past now) e) post H Hch Hk) as (Hi & Hab & _); try done.
    { apply set_expiry_ok. by eapply entry_ok_found. }
    split; [done|]. split; [done|]. cbn [fst snd]. by rewrite <- Hab.
  - rewrite Hf. by split.
Qed.

Lemma count_of_abs (p : cache_entry -> bool) c :
  cinv c -> count_of p (abs c) = Z.of_nat (length (List.filter p (entries c))).
Proof. intros H. apply count_of_labs, (inv_bag c H). Qed.

Lemma invalidate_simulates c now tag :
  cinv c ->
  let '(c', z) := cache_invalidate_by_tag now c tag in
  simulates c (c', AnsInt z) (spec_run (params_of c) (abs c) (CallInvalidate now tag)).
Proof.
  intros H. unfold cache_invalidate_by_tag. destruct tag as [[|t tag]|]; simpl; [by split | | by split].
  apply simulates_counters.
  destruct (map_inv c (fun e => if tag_hit now (t :: tag) e then set_expiry (past now) e else e))
    as [Hi Hab]; [| | done |].
  - intros e. by destruct (tag_hit _ _ _).
  - intros h e He. destruct (tag_hit _ _ _); [by apply set_expiry_ok | done].
  - split; [done|]. split; [done|]. cbn [fst snd]. rewrite Hab.
    by rewrite count_of_abs by done.
Qed.

Lemma evict_expired_simulates c now :
  cinv c ->
  let '(c', z) := cache_evict_expired now c in
  simulates c (c', AnsInt z) (spec_run (params_of c) (abs c) (CallEvictExpired now)).
Proof.
  intros H. unfold cache_evict_expired. destruct (sweep_inv c (reclaimable now) H) as [Hi Hab].
  rewrite cinv_no_lru by (by apply cinv_counters). apply simulates_counters.
  split; [done|]. split; [done|]. cbn [fst snd]. rewrite Hab.
  cbn [spec_run]. rewrite count_of_abs by done. by rewrite Z.add_0_r.
Qed.

Lemma reinitialize_simulates c :
  cinv c ->
  let '(c', z) := cache_reinitialize c in
  simulates c (c', AnsInt z) (spec_run (params_of c) (abs c) CallReinitialize).
Proof.
  intros H. unfold cache_reinitialize. destruct (sweep_inv c (fun e => negb (pinned e)) H) as [Hi Hab].
  apply simulates_counters. split; [done|]. split; [done|]. cbn [fst snd]. rewrite Hab. cbn [spec_run]. f_equal.
  apply map_filter_ext. intros k e _. simpl. by rewrite negb_false_iff.
Qed.

Lemma run_simulates c o :
  cinv c -> call_ok c o ->
  exists c' a, run c o = Some (c', a) /\ simulates c (c', a) (spec_run (params_of c) (abs c) o).
Proof.
  intros H Hok. destruct o as [al a now key doc n opts|now us key|entry|now key|now tag|now| | |]; cbn [run].
  - pose proof (insert_simulates c al a now key doc n opts H Hok) as Hs.
    destruct (cache_insert _ _ _ _ _ _ _ _) as [[c' z] f]. by eexists _, _.
  - pose proof (lookup_simulates c now us key H Hok) as Hs.
    destruct (cache_lookup _ _ _ _) as [c' e]. by eexists _, _.
  - destruct (release_simulates c entry H Hok) as (c' & -> & Hs). by eexists _, _.
  - pose proof (expire_simulates c now key H) as Hs.
    destruct (cache_expire_entry _ _ _) as [c' z]. by eexists _, _.
  - pose proof (invalidate_simulates c now tag H) as Hs.
    destruct (cache_invalidate_by_tag _ _ _) as [c' z]. by eexists _, _.
  - pose proof (evict_expired_simulates c now H) as Hs.
    destruct (cache_evict_expired _ _) as [c' z]. by eexists _, _.
  - pose proof (reinitialize_simulates c H) as Hs.
    destruct (cache_reinitialize c) as [c' z]. by eexists _, _.
  - eexists _, _. split; [done|]. apply simulates_counters. by split.
  - eexists _, _. split; [done|]. apply simulates_counters. by split.
Qed.
End simulation.

(** ** Histories *)

Fixpoint run_all (c : cache) (os : list call) : option (cache * list answer) :=
  match os with
  | [] => Some (c, [])
  | o :: os' =>
      match run c o with
      | None => None
      | Some (c', a) => match run_all c' os' with
                        | None => None
                        | Some (c'', l) => Some (c'', a :: l)
                        end
      end
  end.

Fixpoint spec_all (p : params) (m : amap) (os : list call) : amap * list answer :=
  match os with
  | [] => (m, [])
  | o :: os' => let '(m', a) := spec_run p m o in
                let '(m'', l) := spec_all p m' os' in (m'', a :: l)
  end.

Fixpoint calls_ok (c : cache) (os : list call) : Prop :=
  match os with
  | [] => True
  | o :: os' => call_ok c o /\ match run c o with Some (c', _) => calls_ok c' os' | None => True end
  end.

Section histories.
Implicit Types (c : cache) (os : list call).

Lemma round_pow2_spec fuel k n :
  0 <= k -> k + Z.of_nat fuel = 64 -> 2 ^ k < 2 * n -> n <= 2 ^ 63 -> (k <= 63) ->
  (k = 0 \/ 2 ^ (k - 1) < n) ->
  exists j, round_pow2 fuel (2 ^ k) n = Some (2 ^ j) /\ 0 <= j <= 63 /\ n <= 2 ^ j /\
            (j = 0 \/ 2 ^ (j - 1) < n).
Proof.
  revert k. induction fuel as [|f IH]; intros k Hk Hf Hn Hmax H63 Hlow; cbn [round_pow2].
  - lia.
  - destruct (Z.ltb_spec (2 ^ k) n) as [Hlt|Hge]; [|by exists k].
    assert (k < 63).
    { destruct (Z.lt_ge_cases k 63); [done|]. assert (2 ^ 63 <= 2 ^ k) by (by apply Z.pow_le_mono_r). lia. }
    assert (2 ^ (k + 1) = 2 * 2 ^ k) as Hs by (rewrite Z.pow_add_r by lia; lia).
    assert (2 ^ (k + 1) <= 2 ^ 63) by (apply Z.pow_le_mono_r; lia).
    rewrite Z.shiftl_mul_pow2, (Z.mul_comm (2 ^ k)) by lia. change (2 ^ 1) with 2. rewrite <- Hs.
    rewrite u64_small by (split; [apply Z.pow_nonneg|]; lia).
    apply IH; try lia. right. replace (k + 1 - 1) with k by lia. done.
Qed.

Lemma round_pow2_ok n :
  1 <= n <= 2 ^ 63 ->
  exists j, round_pow2 64 1 n = Some (2 ^ j) /\ 0 <= j <= 63 /\ n <= 2 ^ j /\ (j = 0 \/ 2 ^ (j - 1) < n).
Proof. intros Hn. apply (round_pow2_spec 64 0 n); change (2 ^ 0) with 1; lia || auto. Qed.

Lemma round_pow2_loop fuel k n :
  2 ^ 63 < n -> (k = 0 \/ exists j, 0 <= j <= 63 /\ k = 2 ^ j) -> round_pow2 fuel k n = None.
Proof.
  intros Hn. revert k. induction fuel as [|f IH]; intros k Hk; cbn [round_pow2].
  - destruct (Z.ltb_spec k n) as [|Hge]; [done|]. exfalso. destruct Hk as [->|(j & Hj & ->)]; [lia|].
    assert (2 ^ j <= 2 ^ 63) by (apply Z.pow_le_mono_r; lia). lia.
  - destruct (Z.ltb_spec k n) as [|Hge].
    + apply IH. destruct Hk as [->|(j & Hj & ->)]; [by left|].
      rewrite Z.shiftl_mul_pow2, <- Z.pow_add_r by lia. destruct (Z.eq_dec j 63) as [->|].
      * left. vm_compute. reflexivity.
      * right. exists (j + 1). split; [lia|]. apply u64_small. split; [apply Z.pow_nonneg; lia|].
        apply Z.pow_lt_mono_r; lia.
    + exfalso. destruct Hk as [->|(j & Hj & ->)]; [lia|].
      assert (2 ^ j <= 2 ^ 63) by (apply Z.pow_le_mono_r; lia). lia.
Qed.

Lemma create_inv al cfg c :
  0 <= cfg_bucket_count cfg ->
  cache_create al (Some cfg) = Some (Some c) -> cinv c /\ abs c = ∅.
Proof.
  unfold cache_create. intros H0 H. set (n := if cfg_bucket_count cfg =? 0 then 1024 else cfg_bucket_count cfg) in *.
  assert (1 <= n) as Hn by (subst n; destruct (Z.eqb_spec (cfg_bucket_count cfg) 0); lia).
  destruct (Z.lt_ge_cases (2 ^ 63) n) as [Hbig|Hsmall].
  - rewrite (round_pow2_loop 64 1 n Hbig) in H; [done|]. right. by exists 0.
  - destruct (round_pow2_ok n ltac:(lia)) as (j & Hr & Hj & _). rewrite Hr in H.
    destruct al; [|done]. injection H as <-.
    assert (entries (mk_cache (replicate (Z.to_nat (2 ^ j)) []) (2 ^ j) 0 0 0 0 0 0
      (if 0 <? cfg_max_entries cfg then cfg_max_entries cfg else 10000)
      (if 0 <? cfg_max_memory_bytes cfg then cfg_max_memory_bytes cfg else 256 * 1024 * 1024)
      (if 0 <? cfg_ttl_seconds cfg then cfg_ttl_seconds cfg else 300)
      (cfg_enabled cfg) 0
      (mk_config (cache_name cfg) (2 ^ j) (cfg_max_entries cfg) (cfg_max_memory_bytes cfg)
        (cfg_ttl_seconds cfg) (hash_algorithm cfg) (eviction_policy cfg) (cfg_enabled cfg))
      stats_zero) = []) as He by apply concat_replicate_nil.
    split; [|unfold abs; by rewrite He].
    split.
    + by exists j.
    + simpl. rewrite length_replicate, Z2Nat.id; [done|]. apply Z.pow_nonneg. lia.
    + intros b ch e Hb Hin. simpl in Hb. apply lookup_replicate in Hb as [-> _]. by apply elem_of_nil in Hin.
    + rewrite He. split; constructor.
    + by rewrite He.
    + by rewrite He.
Qed.

Lemma run_all_simulates c os :
  cinv c -> calls_ok c os ->
  exists c' l, run_all c os = Some (c', l) /\ cinv c' /\ params_of c' = params_of c /\
               spec_all (params_of c) (abs c) os = (abs c', l).
Proof.
  revert c. induction os as [|o os IH]; intros c H Hok; simpl.
  - by exists c, [].
  - destruct Hok as [Hok Hoks].
    destruct (run_simulates c o H Hok) as (c1 & a & Hr & H1 & Hp1 & Hs). rewrite Hr in Hoks |- *.
    simpl in Hp1, Hs. rewrite <- Hs.
    destruct (IH c1 H1 Hoks) as (c2 & l & -> & H2 & Hp2 & Hs2). rewrite <- Hp1, Hs2.
    exists c2, (a :: l). split_and!; congruence.
Qed.
End histories.

(** A state of a cache in use: created, then any calls made properly. *)
Definition reachable (c : cache) : Prop :=
  exists al cfg c0 os l, 0 <= cfg_bucket_count cfg /\ cache_create al (Some cfg) = Some (Some c0) /\
    calls_ok c0 os /\ run_all c0 os = Some (c, l).

Lemma reachable_inv c : reachable c -> cinv c.
Proof.
  intros (al & cfg & c0 & os & l & H0 & Hc & Hok & Hr).
  destruct (create_inv al cfg c0 H0 Hc) as [H _].
  destruct (run_all_simulates c0 os H Hok) as (c' & l' & Hr' & H' & _). congruence.
Qed.

(** ** Properties *)

(** A cache with four buckets for the witnesses, and calls on it. *)
Definition demo_cfg : cache_config := mk_config (str "demo") 4 2 4096 60 CACHE_HASH_FNV1A 0 true.
Definition demo : cache :=
  match cache_create true (Some demo_cfg) with Some (Some c) => c | _ => mk_cache [] 0 0 0 0 0 0 0 0 0 0 false 0 demo_cfg stats_zero end.
Definition demo_put (a : nat) (now : Z) (k d : string) : call :=
  CallInsert (fun _ => true) a now (Some (str k)) (Some (str d)) (Z.of_nat (length (str d))) None.
Definition demo_after (os : list call) : cache :=
  match run_all demo os with Some (c, _) => c | None => demo end.

(** [calls_ok], decided. *)
Definition call_okb (c : cache) (o : call) : bool :=
  match o with
  | CallInsert _ a now _ _ _ _ => (0 <=? now) && negb (existsb (Nat.eqb a) (map addr (entries c)))
  | CallLookup now _ _ => 0 <=? now
  | CallRelease (Some a) => existsb (Nat.eqb a) (map addr (entries c))
  | _ => true
  end.
Fixpoint calls_okb (c : cache) (os : list call) : bool :=
  match os with
  | [] => true
  | o :: os' => call_okb c o && match run c o with Some (c', _) => calls_okb c' os' | None => true end
  end.

Lemma existsb_elem (a : nat) (l : list nat) : existsb (Nat.eqb a) l = true <-> a ∈ l.
Proof.
  rewrite existsb_exists, list_elem_of_In. split.
  - by intros (x & Hx & ->%Nat.eqb_eq).
  - intros H. exists a. split; [done|]. apply Nat.eqb_refl.
Qed.

Lemma call_okb_sound (c : cache) (o : call) : call_okb c o = true -> call_ok c o.
Proof.
  destruct o as [al a now key doc n opts|now us key|[a|]|now key|now tag|now| | |]; simpl; intros Ho; bools; try done.
  - split; [done|]. rewrite <- existsb_elem. congruence.
  - by apply existsb_elem.
Qed.

Lemma calls_okb_sound (c : cache) (os : list call) : calls_okb c os = true -> calls_ok c os.
Proof.
  revert c. induction os as [|o os IH]; intros c; simpl; [done|].
  intros [Ho Hos]%andb_prop. split.
  - by apply call_okb_sound.
  - destruct (run c o) as [[c' a]|]; [by apply IH | done].
Qed.

Ltac demo_ok := apply calls_okb_sound; vm_compute; reflexivity.

Lemma demo_reachable os :
  calls_ok demo os -> is_Some (run_all demo os) -> reachable (demo_after os).
Proof.
  intros Hok [[c l] Hr]. exists true, demo_cfg, demo, os, l. split; [done|]. split; [done|].
  split; [done|]. unfold demo_after. by rewrite Hr.
Qed.

(** C1: the cache implements a finite map.  From creation on, any sequence of
    inserts, lookups, releases, expirations, invalidations, sweeps, flushes
    and reports returns, answers exactly what the map from keys to entries of
    [spec_run] answers, and ends in a state that represents that map. *)
Theorem cache_refines_map (al : bool) (cfg : cache_config) (c0 : cache) (os : list call) :
  0 <= cfg_bucket_count cfg ->
  cache_create al (Some cfg) = Some (Some c0) -> calls_ok c0 os ->
  exists c l, run_all c0 os = Some (c, l) /\ spec_all (params_of c0) ∅ os = (abs c, l).
Proof.
  intros H0 Hc Hok. destruct (create_inv al cfg c0 H0 Hc) as [H Ha].
  destruct (run_all_simulates c0 os H Hok) as (c & l & Hr & _ & _ & Hs).
  rewrite Ha in Hs. by exists c, l.
Qed.

Definition demo_calls : list call :=
  [demo_put 1 100 "SELECT 1" "one"; demo_put 2 100 "SELECT 2" "two";
   CallLookup 101 3 (Some (str "SELECT 1")); demo_put 3 102 "SELECT 1" "uno";
   CallRelease (Some 1%nat); CallExpire 103 (Some (str "SELECT 2")); CallEvictExpired 104].

Lemma cache_refines_map_witness :
  exists c l, run_all demo demo_calls = Some (c, l) /\ spec_all (params_of demo) ∅ demo_calls = (abs c, l).
Proof. apply (cache_refines_map true demo_cfg); [done | vm_compute; reflexivity | demo_ok]. Defined.

(** C33: in every reachable state the bookkeeping is exact: the number of
    buckets is a power of two, each entry hangs in the bucket of its hash and
    records that hash, no key and no address occurs twice, [entry_count] is
    the number of entries, every entry is charged its size and
    [current_memory_bytes] is the sum of the charges (modulo 2^64, as in the
    code). *)
Theorem cache_accounting (c : cache) :
  reachable c ->
  (exists k, 0 <= k <= 63 /\ Z.of_nat (length (buckets c)) = 2 ^ k) /\
  (forall b ch e, buckets c !! b = Some ch -> e ∈ ch ->
     b = bucket_of c (normalized_sql e) /\ hash_key e = hash_of c (normalized_sql e) /\
     entry_memory_bytes e = entry_memory_size e) /\
  NoDup (map normalized_sql (entries c)) /\ NoDup (map addr (entries c)) /\
  entry_count c = u64 (Z.of_nat (length (entries c))) /\
  current_memory_bytes c = u64 (mem_sum (entries c)).
Proof.
  intros H%reachable_inv. destruct (inv_pow2 c H) as (k & Hk & Hc).
  split; [exists k; by rewrite (inv_len c H)|]. split.
  - intros b ch e Hb He. split; [symmetry; by eapply (inv_placed c H)|].
    assert (In e (entries c)) as Hin by (apply list_elem_of_In, concat_elem; by exists b, ch).
    by destruct (proj1 (List.Forall_forall _ _) (bag_entry _ _ (inv_bag c H)) e Hin) as (? & ? & _).
  - split_and!; try apply (inv_bag c H); apply H.
Qed.

Lemma cache_accounting_witness :
  NoDup (map normalized_sql (entries (demo_after demo_calls))).
Proof.
  refine (proj1 (proj2 (proj2 (cache_accounting (demo_after demo_calls) _)))).
  apply demo_reachable; [demo_ok | vm_compute; by eexists].
Defined.

Section borrowed.
Context (p : params) (m : amap) (k : list ascii) (e : cache_entry).
Hypothesis (He : m !! k = Some e) (Hu : in_use e = true).

Lemma spec_insert_borrowed al a now key doc n opts m' ans :
  spec_insert p m al a now key doc n opts = (m', ans) -> m' !! k = Some e.
Proof.
  unfold spec_insert. intros Hs.
  destruct key as [k1|], doc as [d|]; try (injection Hs as <- _; done).
  destruct (negb _); [by injection Hs as <- _|]. destruct (decide (k1 = k)) as [->|Hk].
  - rewrite He, Hu in Hs. by injection Hs as <- _.
  - cbv zeta in Hs.
    destruct (m !! k1) as [old|]; [destruct (in_use old); [by injection Hs as <- _|]|];
      destruct (alloc_entry _ _ _ _ _ _ _ _ _) as [e1|]; injection Hs as <- _;
      by rewrite ?lookup_delete_ne, ?lookup_insert_ne.
Qed.

(** What a call may do to a borrowed entry. *)
Definition kept (o : call) (m' : amap) : Prop :=
  exists e', m' !! k = Some e' /\ addr e' = addr e /\ output_document e' = output_document e /\
    (in_use e' = false -> o = CallRelease (Some (addr e))).

Lemma kept_same o m' : m' !! k = Some e -> kept o m'.
Proof. intros H. exists e. by rewrite Hu. Qed.

Lemma spec_lookup_borrowed now us key m' ans :
  spec_lookup p m now key = (m', ans) -> kept (CallLookup now us key) m'.
Proof.
  unfold spec_lookup. intros Hs. destruct key as [k1|]; [|injection Hs as <- _; by apply kept_same].
  destruct (negb _); [injection Hs as <- _; by apply kept_same|].
  destruct (m !! k1) as [e1|] eqn:E1; [|injection Hs as <- _; by apply kept_same].
  destruct (expired now e1); injection Hs as <- _; [by apply kept_same|].
  destruct (decide (k1 = k)) as [->|]; [|apply kept_same; by rewrite lookup_insert_ne].
  exists (touched now e1). rewrite lookup_insert_eq. split; [done|]. assert (e1 = e) as -> by congruence. done.
Qed.

Lemma spec_run_borrowed o m' ans :
  spec_run p m o = (m', ans) -> o <> CallReinitialize -> kept o m'.
Proof.
  destruct o as [al ad now key doc n opts|now us key|entry|now key|now tag|now| | |]; cbn [spec_run]; intros Hs Hne.
  - apply kept_same. by eapply spec_insert_borrowed.
  - by eapply spec_lookup_borrowed.
  - injection Hs as <- _. destruct entry as [ad|]; [|by apply kept_same].
    exists (release_entry ad e). rewrite lookup_fmap, He. split; [done|].
    unfold release_entry. destruct (Nat.eqb_spec (addr e) ad) as [<-|]; simpl; [done|]. by rewrite Hu.
  - destruct key as [k1|]; [|injection Hs as <- _; by apply kept_same].
    destruct (m !! k1) as [e1|] eqn:E1; injection Hs as <- _; [|by apply kept_same].
    destruct (decide (k1 = k)) as [->|]; [|apply kept_same; by rewrite lookup_insert_ne].
    exists (set_expiry (past now) e1). rewrite lookup_insert_eq. split; [done|].
    assert (e1 = e) as -> by congruence. simpl. by rewrite Hu.
  - destruct tag as [[|t tag]|]; injection Hs as <- _; try by apply kept_same.
    exists (if tag_hit now (t :: tag) e then set_expiry (past now) e else e).
    rewrite lookup_fmap, He. split; [done|]. destruct (tag_hit _ _ _); simpl; by rewrite Hu.
  - injection Hs as <- _. apply kept_same, map_lookup_filter_Some. split; [done|].
    simpl. unfold reclaimable. by rewrite Hu, andb_false_r.
  - done.
  - injection Hs as <- _. by apply kept_same.
  - injection Hs as <- _. by apply kept_same.
Qed.
End borrowed.

(** C20: a borrowed entry stays.  While a lookup's pointer has not been
    released, no insert (even of the same key), lookup, expiration,
    invalidation, sweep or report frees the entry or changes its document;
    only [cache_release] of its own address clears the flag.  (The one call left
    out is [cache_reinitialize].) *)
Theorem borrowed_entry_survives (c c' : cache) (o : call) (a : answer) (k : list ascii) (e : cache_entry) :
  reachable c -> call_ok c o -> run c o = Some (c', a) ->
  abs c !! k = Some e -> in_use e = true -> o <> CallReinitialize ->
  exists e', abs c' !! k = Some e' /\ addr e' = addr e /\
    output_document e' = output_document e /\
    (in_use e' = false -> o = CallRelease (Some (addr e))).
Proof.
  intros H%reachable_inv Hok Hr He Hu Hne.
  destruct (run_simulates c o H Hok) as (c1 & a1 & Hr1 & _ & _ & Hs).
  rewrite Hr in Hr1. injection Hr1 as <- <-. symmetry in Hs.
  by apply (spec_run_borrowed (params_of c) (abs c) k e He Hu o (abs c') a).
Qed.

Definition demo_borrowed : list call :=
  [demo_put 1 100 "SELECT 1" "one"; CallLookup 101 3 (Some (str "SELECT 1"))].

Lemma borrowed_entry_survives_witness :
  exists e', abs (demo_after (demo_borrowed ++ [demo_put 3 102 "SELECT 1" "uno"])) !! str "SELECT 1" = Some e' /\
    output_document e' = str "one".
Proof.
  destruct (borrowed_entry_survives (demo_after demo_borrowed)
     (demo_after (demo_borrowed ++ [demo_put 3 102 "SELECT 1" "uno"]))
     (demo_put 3 102 "SELECT 1" "uno") (AnsInsert 0 DOC_FREED) (str "SELECT 1")
     (match abs (demo_after demo_borrowed) !! str "SELECT 1" with
      | Some e => e
      | None => mk_entry 0 0 [] None None None None None None None [] 0 0 None 0 None 0 0 0 0 false false false 0
      end)) as (e' & He & _ & Hd & _).
  - apply demo_reachable; [demo_ok | vm_compute; by eexists].
  - apply call_okb_sound. vm_compute. reflexivity.
  - vm_compute. reflexivity.
  - vm_compute. reflexivity.
  - vm_compute. reflexivity.
  - done.
  - exists e'. split; [exact He|]. rewrite Hd. vm_compute. reflexivity.
Defined.

(** An entry that [cache_expire_entry] has marked is never served again:
    whoever looks the key up, from the same second on, gets a miss (for a
    clock past its first second; at time 1 the mark is 0, "never expires"). *)
Theorem expire_then_miss (c : cache) (k : list ascii) (now now' us : Z) :
  reachable c -> 1 < now -> now - 1 <= now' -> 0 <= now' ->
  snd (cache_lookup now' us (fst (cache_expire_entry now c (Some k))) (Some k)) = None.
Proof.
  intros H%reachable_inv Hn Hn' H0. pose proof (expire_simulates c now (Some k) H) as Hs.
  destruct (cache_expire_entry now c (Some k)) as [c1 z]. destruct Hs as (H1 & _ & Hs).
  cbn [fst snd] in *. pose proof (lookup_simulates c1 now' us (Some k) H1 H0) as Hl.
  destruct (cache_lookup now' us c1 (Some k)) as [c2 r]. destruct Hl as (_ & _ & Hl).
  cbn [fst snd spec_run] in *. unfold spec_lookup in Hl.
  destruct (negb _); [by injection Hl as _ ->|].
  assert (abs c1 !! k = (set_expiry (past now)) <$> (abs c !! k)) as Hk.
  { destruct (abs c !! k) as [e|] eqn:E; injection Hs as -> _; [by rewrite lookup_insert_eq | done]. }
  rewrite Hk in Hl. destruct (abs c !! k) as [e|]; simpl in Hl; [|by injection Hl].
  assert (expired now' (set_expiry (past now) e) = true) as Hx.
  { unfold expired, past. simpl. destruct (Z.ltb_spec 0 now); [|lia].
    apply andb_true_intro. split; [apply Z.ltb_lt | apply Z.leb_le]; lia. }
  rewrite Hx in Hl. by injection Hl.
Qed.

Lemma expire_then_miss_witness :
  snd (cache_lookup 103 5 (fst (cache_expire_entry 103 (demo_after demo_borrowed) (Some (str "SELECT 1"))))
         (Some (str "SELECT 1"))) = None.
Proof.
  apply (expire_then_miss (demo_after demo_borrowed)); try lia.
  apply demo_reachable; [demo_ok | vm_compute; by eexists].
Defined.

(** The two halves of invalidation, from the invariant. *)
Lemma invalidated_misses c tag now k e t now' us :
  cinv c -> 1 < now -> tag <> [] -> abs c !! k = Some e -> table_dependency_tag e = Some t ->
  is_Some (strstr tag t) -> now <= now' ->
  snd (cache_lookup now' us (fst (cache_invalidate_by_tag now c (Some tag))) (Some k)) = None.
Proof.
  intros H Hn Ht He Hte Hsub Hn'. pose proof (invalidate_simulates c now (Some tag) H) as Hs.
  destruct (cache_invalidate_by_tag now c (Some tag)) as [c' z]. destruct Hs as (H' & _ & Hs).
  destruct tag as [|t0 tag]; [done|]. cbn [fst snd spec_run] in *. injection Hs as Ha _.
  pose proof (lookup_simulates c' now' us (Some k) H' ltac:(lia)) as Hl.
  destruct (cache_lookup now' us c' (Some k)) as [c2 r]. destruct Hl as (_ & _ & Hl).
  cbn [fst snd] in *. unfold spec_lookup in Hl. destruct (negb _); [by injection Hl|].
  rewrite Ha, lookup_fmap, He in Hl. simpl in Hl.
  match type of Hl with context [expired now' ?e'] => assert (expired now' e' = true) as Hx end.
  { unfold tag_hit. rewrite Hte. destruct Hsub as [x ->]. destruct (expired now e) eqn:Ex; simpl.
    - unfold expired in *. bools. apply andb_true_intro. split; [apply Z.ltb_lt | apply Z.leb_le]; lia.
    - unfold expired, past. simpl. destruct (Z.ltb_spec 0 now); [|lia].
      apply andb_true_intro. split; [apply Z.ltb_lt | apply Z.leb_le]; lia. }
  rewrite Hx in Hl. by injection Hl.
Qed.

Lemma invalidated_others c tag now k :
  cinv c -> tag <> [] ->
  (forall e t, abs c !! k = Some e -> table_dependency_tag e = Some t -> strstr tag t = None) ->
  abs (fst (cache_invalidate_by_tag now c (Some tag))) !! k = abs c !! k.
Proof.
  intros H Ht Hk. pose proof (invalidate_simulates c now (Some tag) H) as Hs.
  destruct (cache_invalidate_by_tag now c (Some tag)) as [c' z]. destruct Hs as (_ & _ & Hs).
  destruct tag as [|t0 tag]; [done|]. cbn [fst snd spec_run] in *. injection Hs as Ha _.
  rewrite Ha, lookup_fmap. destruct (abs c !! k) as [e|] eqn:He; [|done]. simpl. f_equal.
  unfold tag_hit. destruct (table_dependency_tag e) as [t|] eqn:Hte; [|done].
  rewrite (Hk e t eq_refl Hte). by rewrite andb_false_r.
Qed.

(** Table-level invalidation.  After [cache_invalidate_by_tag] no entry
    whose dependency list contains the table's name is served any more, and
    every other entry is exactly as it was. *)
Theorem invalidate_by_tag_exact (c : cache) (tag : list ascii) (now : Z) :
  reachable c -> 1 < now -> tag <> [] ->
  let c' := fst (cache_invalidate_by_tag now c (Some tag)) in
  (forall k e t now' us, abs c !! k = Some e -> table_dependency_tag e = Some t ->
     is_Some (strstr tag t) -> now <= now' -> snd (cache_lookup now' us c' (Some k)) = None) /\
  (forall k, (forall e t, abs c !! k = Some e -> table_dependency_tag e = Some t -> strstr tag t = None) ->
     abs c' !! k = abs c !! k).
Proof.
  intros H%reachable_inv Hn Ht. cbv zeta. split; [|by intros k; apply invalidated_others].
  intros k e t now' us He Hte Hsub Hn'. by eapply invalidated_misses.
Qed.

Definition demo_tagged : call :=
  CallInsert (fun _ => true) 7 100 (Some (str "SELECT 7")) (Some (str "seven")) 5
    (Some (mk_opts 0 false 1 None 0 None None None None None None None (Some (str "EMP,DEPT")))).

Lemma invalidate_by_tag_exact_witness :
  abs (fst (cache_invalidate_by_tag 105 (demo_after [demo_tagged; demo_put 1 100 "SELECT 1" "one"])
              (Some (str "DEPT")))) !! str "SELECT 1"
  = abs (demo_after [demo_tagged; demo_put 1 100 "SELECT 1" "one"]) !! str "SELECT 1".
Proof.
  destruct (invalidate_by_tag_exact (demo_after [demo_tagged; demo_put 1 100 "SELECT 1" "one"])
              (str "DEPT") 105) as [_ H]; [| lia | done |].
  - apply demo_reachable; [demo_ok | vm_compute; by eexists].
  - apply H. intros e t He. vm_compute in He. injection He as <-. done.
Defined.

Definition ttl_of (c : cache) (opts : option cache_entry_opts) : Z :=
  match opts with Some o => if 0 <? o_ttl_seconds o then o_ttl_seconds o else ttl_seconds c | None => ttl_seconds c end.

(** What an insert that has its memory and finds nobody reading the key does
    to the map. *)
Lemma insert_stores c a now k d n opts :
  cinv c -> enabled c = true -> 0 <= now -> a ∉ map addr (entries c) ->
  (forall e, abs c !! k = Some e -> in_use e = false) ->
  exists c' e, cache_insert (fun _ => true) a now c (Some k) (Some d) n opts = (c', 0, DOC_STORED) /\
    cinv c' /\ params_of c' = params_of c /\ abs c' = <[k := e]> (abs c) /\
    alloc_entry (fun _ => true) a now k d n (hash_of c k) (ttl_of c opts) opts = Some e.
Proof.
  intros H Hen Hn Ha Hfree.
  pose proof (insert_simulates c (fun _ => true) a now (Some k) (Some d) n opts H (conj Hn Ha)) as Hs.
  destruct (cache_insert _ _ _ _ _ _ _ _) as [[c' z] f]. destruct Hs as (H' & Hp & Hs).
  cbn [fst snd] in *. unfold spec_insert in Hs.
  change (p_enabled (params_of c)) with (enabled c) in Hs. rewrite Hen in Hs. cbn [negb] in Hs.
  change (p_ttl (params_of c)) with (ttl_seconds c) in Hs. cbv zeta in Hs. fold (ttl_of c opts) in Hs.
  change (p_hash (params_of c)) with (hash_of c) in Hs.
  destruct (alloc_entry _ _ _ _ _ _ _ _ _) as [e|] eqn:Ea; [|done]. exists c', e.
  assert (abs c' = <[k := e]> (abs c) /\ z = 0 /\ f = DOC_STORED) as (Habs & -> & ->); [|done].
  destruct (abs c !! k) as [old|] eqn:E; [rewrite (Hfree old eq_refl) in Hs|]; by injection Hs as -> -> ->.
Qed.

(** An insert is readable.  After an insert that stores its document, a
    lookup of that key within its time to live returns that document, marked
    as borrowed, and no other key of the cache has changed. *)
Theorem insert_then_lookup (c : cache) (a : nat) (now now' us : Z) (k d : list ascii) (n : Z)
    (opts : option cache_entry_opts) :
  reachable c -> enabled c = true -> 0 <= now -> 0 <= now' -> a ∉ map addr (entries c) ->
  (forall e, abs c !! k = Some e -> in_use e = false) ->
  now' < now + match opts with
               | Some o => if 0 <? o_ttl_seconds o then o_ttl_seconds o else ttl_seconds c
               | None => ttl_seconds c
               end ->
  let '(c', z, f) := cache_insert (fun _ => true) a now c (Some k) (Some d) n opts in
  z = 0 /\ f = DOC_STORED /\
  (exists e, snd (cache_lookup now' us c' (Some k)) = Some e /\ output_document e = d /\
             output_length e = n /\ in_use e = true) /\
  (forall k', k' <> k -> abs c' !! k' = abs c !! k').
Proof.
  intros H%reachable_inv Hen Hn Hn' Ha Hfree Httl. fold (ttl_of c opts) in Httl.
  destruct (insert_stores c a now k d n opts H Hen Hn Ha Hfree) as (c' & e & -> & H' & Hp & Habs & Ea).
  split; [done|]. split; [done|]. split; [|intros k' Hk'; by rewrite Habs, lookup_insert_ne].
  pose proof (lookup_simulates c' now' us (Some k) H' Hn') as Hl.
  destruct (cache_lookup now' us c' (Some k)) as [c2 r]. destruct Hl as (_ & _ & Hl).
  cbn [fst snd] in *. unfold spec_lookup in Hl. rewrite Hp in Hl.
  change (p_enabled (params_of c)) with (enabled c) in Hl. rewrite Hen, Habs, lookup_insert_eq in Hl. cbn [negb] in Hl.
  unfold alloc_entry in Ea. cbn [negb] in Ea. injection Ea as <-.
  match type of Hl with context [expired now' ?e'] => assert (expired now' e' = false) as Hx end.
  { unfold expired. cbn [expiry_ts]. destruct (Z.ltb_spec 0 (ttl_of c opts)); [|done].
    apply andb_false_iff. right. apply Z.leb_gt. lia. }
  rewrite Hx in Hl. injection Hl as _ ->. by eexists.
Qed.

Lemma insert_then_lookup_witness :
  exists e, snd (cache_lookup 130 2
    (fst (fst (cache_insert (fun _ => true) 9 120 demo (Some (str "K")) (Some (str "doc")) 3 None)))
    (Some (str "K"))) = Some e /\ output_document e = str "doc".
Proof.
  pose proof (insert_then_lookup demo 9 120 130 2 (str "K") (str "doc") 3 None
    (demo_reachable [] I ltac:(by eexists)) eq_refl ltac:(lia) ltac:(lia)
    ltac:(vm_compute; by intros ?%elem_of_nil) ltac:(by intros e He; vm_compute in He)
    ltac:(vm_compute; reflexivity)) as H.
  destruct (cache_insert _ _ _ _ _ _ _ _) as [[c' z] f].
  destruct H as (_ & _ & (e & He & Hd & _) & _). by exists e.
Defined.

(** The LRU limit is not enforced.  [(time_t)UINT64_MAX] is -1, no access
    time is older than that, so in every reachable state
    [evict_lru_under_lock] evicts nothing, even above [max_entries] or
    [max_memory_bytes]: making room leaves the cache as it is. *)
Theorem lru_never_evicts (c : cache) (k : list ascii) (n : Z) :
  reachable c -> evict_lru_under_lock c = None /\ make_room c k n = c.
Proof.
  intros H%reachable_inv. split; [|by apply make_room_id].
  apply evict_lru_none. eapply Forall_impl; [exact (bag_entry _ _ (inv_bag c H))|].
  intros e (_ & _ & ?). simpl. lia.
Qed.

(** Three entries in a cache of at most two. *)
Definition demo_over : list call :=
  [demo_put 1 100 "A" "a"; demo_put 2 200 "B" "b"; demo_put 3 300 "C" "c"].

Lemma lru_never_evicts_witness :
  max_entries (demo_after demo_over) < entry_count (demo_after demo_over) /\
  evict_lru_under_lock (demo_after demo_over) = None.
Proof.
  split; [vm_compute; reflexivity|].
  refine (proj1 (lru_never_evicts (demo_after demo_over) [] 0 _)).
  apply demo_reachable; [demo_ok | vm_compute; by eexists].
Defined.

(** A borrow is a flag, not a count.  Two callers look the same key up,
    the first releases it, an insert then replaces the entry: the second
    caller's release is handed an address no entry has any more
    ([cache_release] is undefined there).  All four calls before it are
    proper. *)
Theorem double_borrow_dangles :
  let os := [demo_put 1 100 "K" "old"; CallLookup 101 1 (Some (str "K"));
             CallLookup 102 1 (Some (str "K")); CallRelease (Some 1%nat);
             demo_put 2 103 "K" "new"] in
  calls_ok demo os /\ exists c l, run_all demo os = Some (c, l) /\ cache_release c (Some 1%nat) = None.
Proof.
  cbv zeta. split; [demo_ok|].
  match goal with |- exists c l, ?r = Some (c, l) /\ _ => destruct r as [[c l]|] eqn:E end.
  - exists c, l. split; [done|]. vm_compute in E. injection E as <- <-. reflexivity.
  - vm_compute in E. done.
Qed.

(** [cache_create] rounds the bucket count up to the least power of two
    that holds it (1024 when none is given), which is what makes the mask
    arithmetic of every other call select a bucket; above 2^63 the rounding
    loop never ends, whatever the number of turns. *)
Theorem cache_create_buckets (cfg : cache_config) :
  0 <= cfg_bucket_count cfg < 2 ^ 64 ->
  let n := if cfg_bucket_count cfg =? 0 then 1024 else cfg_bucket_count cfg in
  if n <=? 2 ^ 63 then
    exists c j, cache_create true (Some cfg) = Some (Some c) /\ bucket_count c = 2 ^ j /\ 0 <= j <= 63 /\
      n <= 2 ^ j /\ (forall i, 0 <= i -> n <= 2 ^ i -> j <= i) /\
      forall key, (bucket_of c key < length (buckets c))%nat
  else forall fuel, round_pow2 fuel 1 n = None.
Proof.
  intros Hb. cbv zeta. set (n := if cfg_bucket_count cfg =? 0 then 1024 else cfg_bucket_count cfg).
  assert (1 <= n) as Hn by (subst n; destruct (Z.eqb_spec (cfg_bucket_count cfg) 0); lia).
  destruct (Z.leb_spec n (2 ^ 63)) as [Hle|Hgt].
  - destruct (round_pow2_ok n ltac:(lia)) as (j & Hr & Hj & Hge & Hlow).
    destruct (cache_create true (Some cfg)) as [[c|]|] eqn:Hc;
      [|unfold cache_create in Hc; fold n in Hc; by rewrite Hr in Hc..].
    pose proof (create_inv true cfg c (proj1 Hb) Hc) as [Hi _].
    exists c, j. split; [done|]. split.
    { unfold cache_create in Hc. fold n in Hc. rewrite Hr in Hc. by injection Hc as <-. }
    split; [done|]. split; [done|]. split; [|intros key; by apply bucket_valid].
    intros i Hi0 Hni. destruct Hlow as [->|Hlow]; [done|].
    destruct (Z.lt_ge_cases i j) as [Hlt|]; [|done]. exfalso.
    assert (2 ^ i <= 2 ^ (j - 1)) by (apply Z.pow_le_mono_r; lia). lia.
  - intros fuel. apply round_pow2_loop; [done|]. right. exists 0. split; [lia | done].
Qed.

Lemma cache_create_buckets_witness :
  exists c j, cache_create true (Some (mk_config [] 1000 0 0 0 CACHE_HASH_DJB2 0 true)) = Some (Some c) /\
              bucket_count c = 2 ^ j /\ 1000 <= 2 ^ j.
Proof.
  destruct (cache_create_buckets (mk_config [] 1000 0 0 0 CACHE_HASH_DJB2 0 true) ltac:(simpl; lia))
    as (c & j & Hc & Hj & _ & Hge & _).
  by exists c, j.
Defined.

(** ** Key normalisation *)

(** The words of a text: its maximal runs of non-blank characters. *)
Fixpoint words (s : list ascii) : list (list ascii) :=
  match s with
  | [] => []
  | c :: s' =>
      if isspace c then words s'
      else match s' with
           | [] => [[c]]
           | d :: _ => if isspace d then [c] :: words s'
                       else match words s' with w :: ws => (c :: w) :: ws | [] => [[c]] end
           end
  end.

Fixpoint join (ws : list (list ascii)) : list ascii :=
  match ws with
  | [] => []
  | [w] => w
  | w :: ws' => w ++ " "%char :: join ws'
  end.

Section normalize.
Implicit Types (s out : list ascii) (c : ascii).

Definition canon s : list ascii := join (map (map toupper) (words s)).

(** What follows a non-blank character just written. *)
Definition rest s : list ascii :=
  match s with
  | [] => []
  | d :: _ => if isspace d then match words s with [] => [] | _ :: _ => " "%char :: canon s end
              else canon s
  end.

Lemma canon_cons c s : isspace c = false -> canon (c :: s) = toupper c :: rest s.
Proof.
  intros Hc. unfold canon. cbn [words]. rewrite Hc. destruct s as [|d s']; [done|].
  cbn [rest]. destruct (isspace d) eqn:Hd.
  - destruct (words (d :: s')) as [|w ws] eqn:E; [done|]. unfold canon. rewrite E. done.
  - unfold canon. destruct (words (d :: s')) as [|w ws]; [done|]. simpl. by destruct ws.
Qed.

Lemma canon_space c s : isspace c = true -> words (c :: s) = words s.
Proof. intros Hc. cbn [words]. by rewrite Hc. Qed.

Lemma toupper_not_blank c : isspace c = false -> Ascii.eqb (toupper c) " " = false.
Proof. all_ascii c. Qed.

Lemma normalize_loop_canon n s len out :
  (len + length s + 1 < n)%nat ->
  (match out with [] => True | c :: _ => Ascii.eqb c " " = false end ->
   rev (trim_last (normalize_loop n s len false out)) = rev out ++ rest s) /\
  rev (trim_last (normalize_loop n s len true out)) =
    match words s with [] => rev (trim_last out) | _ :: _ => rev out ++ canon s end.
Proof.
  revert len out. induction s as [|d s IH]; intros len out Hlen; cbn [normalize_loop].
  { split; [|done]. intros Ho. simpl. rewrite app_nil_r. destruct out as [|c out]; [done|].
    cbn [trim_last]. by rewrite Ho. }
  simpl in Hlen. rewrite (proj2 (Nat.ltb_lt len (n - 1))) by lia.
  destruct (isspace d) eqn:Hd; cbn [negb andb].
  - rewrite (proj2 (Nat.ltb_lt len (n - 2))) by lia. rewrite (canon_space d s Hd). split.
    + intros _. rewrite (proj2 (IH (S len) (" "%char :: out) ltac:(lia))). cbn [rest]. rewrite Hd.
      rewrite (canon_space d s Hd).
      destruct (words s) as [|w ws] eqn:E; [cbn; by rewrite app_nil_r|].
      simpl. rewrite <- app_assoc. do 2 f_equal. unfold canon. by rewrite (canon_space d s Hd).
    + rewrite (proj2 (IH len out ltac:(lia))).
      destruct (words s) as [|w ws] eqn:E; [done|]. f_equal. unfold canon. by rewrite (canon_space d s Hd).
  - rewrite (proj1 (IH (S len) (toupper d :: out) ltac:(lia)) (toupper_not_blank d Hd)).
    assert (rev (toupper d :: out) ++ rest s = rev out ++ canon (d :: s)) as Heq
      by (rewrite (canon_cons d s Hd); simpl; by rewrite <- app_assoc).
    split.
    + intros _. rewrite Heq. cbn [rest]. by rewrite Hd.
    + rewrite Heq. destruct (words (d :: s)) eqn:E; [|done]. exfalso. revert E. cbn [words]. rewrite Hd.
      destruct s as [|d2 s2]; [done|]. destruct (isspace d2); [done|]. by destruct (words (d2 :: s2)).
Qed.

Lemma normalize_loop_length n s len in_ws out :
  length out = len -> (len <= n - 1)%nat ->
  (length (normalize_loop n s len in_ws out) <= n - 1)%nat.
Proof.
  revert len in_ws out. induction s as [|d s IH]; intros len in_ws out Ho Hl; cbn [normalize_loop]; [lia|].
  destruct (Nat.ltb_spec len (n - 1)) as [Hlt|]; [|lia].
  destruct (isspace d); [destruct (negb in_ws && _)|]; apply IH; simpl; lia.
Qed.
End normalize.

(** The cache key of a statement never overflows its buffer, and for a
    statement that fits it is the statement's words, upper-cased and separated
    by single blanks, so that statements with the same words up to case share
    a key, whatever their layout. *)
Theorem cache_normalize_sql_words (s : list ascii) (n : nat) :
  (2 <= n)%nat ->
  exists r, cache_normalize_sql (Some s) n = Some r /\ (length r < n)%nat /\
            ((length s + 1 < n)%nat -> r = canon s).
Proof.
  intros Hn. unfold cache_normalize_sql. rewrite (proj2 (Nat.ltb_ge n 2)) by lia.
  eexists. split; [done|]. split.
  - rewrite length_rev. pose proof (normalize_loop_length n s 0 true [] eq_refl ltac:(lia)) as Hl.
    destruct (normalize_loop _ _ _ _ _) as [|c out]; simpl in *; [lia|]. destruct (Ascii.eqb c " "); simpl; lia.
  - intros Hf. rewrite (proj2 (normalize_loop_canon n s 0 [] ltac:(lia))).
    unfold canon. by destruct (words s).
Qed.

Lemma cache_normalize_sql_words_witness :
  exists r, cache_normalize_sql (Some (str " select  *
   from emp ")) 64 = Some r /\ (length r < 64)%nat /\ r = str "SELECT * FROM EMP".
Proof.
  destruct (cache_normalize_sql_words (str " select  *
   from emp ") 64 ltac:(lia)) as (r & Hr & Hl & Hc).
  exists r. split; [done|]. split; [done|]. rewrite Hc by (vm_compute; lia). vm_compute. reflexivity.
Defined.
