(* ===== verification/KeyedStore.v ===== *)
(** * KeyedStore: what the session and permission caches rely on

    [KeyedStore] is the promise of a document store with borrowing: documents
    under string keys, each with an expiry time and a borrowed flag.  The
    wrappers of src/src/infra/session_cache.c and src/src/infra/authz_cache.c
    are defined and proved against it; [cache_store] is the proof that the
    cache of Cache.v keeps it, read off the simulation of CacheSpec.v. *)

From Stdlib Require Import Ascii String ZArith Lia Bool.
From stdpp Require Import base list strings numbers gmap.
From S2P Require Import Prelude Hash Cache CacheSpec.

#[local] Open Scope Z_scope.

Record stored := mk_stored { st_doc : list ascii; st_expiry : Z; st_borrowed : bool }.

Definition live (now : Z) (s : stored) : bool := negb ((0 <? st_expiry s) && (st_expiry s <=? now)).
Definition lend (u : bool) (s : stored) : stored := mk_stored (st_doc s) (st_expiry s) u.

(** [put k v m]: the function [m] changed at [k]. *)
Definition upd {V} (k : list ascii) (v : option V) (m : list ascii -> option V) : list ascii -> option V :=
  fun k' => if decide (k' = k) then v else m k'.

Lemma upd_eq {V} k (v : option V) m : upd k v m k = v.
Proof. unfold upd. by rewrite decide_True. Qed.
Lemma upd_ne {V} k k' (v : option V) m : k' <> k -> upd k v m k' = m k'.
Proof. intros H. unfold upd. by rewrite decide_False. Qed.

Class KeyedStore (C : Type) := {
  ks_ok : C -> Prop;
  ks_on : C -> bool;                              (* the store is enabled *)
  ks_ttl : C -> Z;                                (* its default time to live *)
  ks_view : C -> list ascii -> option stored;
  ks_fresh : C -> nat -> Prop;                    (* addresses free for [malloc] *)
  ks_held : C -> nat -> list ascii -> Prop;       (* a pointer to the entry of a key *)
  ks_get : Z -> Z -> C -> option (list ascii) -> C * option (nat * list ascii);
  ks_release : C -> option nat -> option C;
  ks_put : (nat -> bool) -> nat -> Z -> C -> list ascii -> list ascii -> cache_entry_opts -> C * Z * doc_fate;
  ks_expire : Z -> C -> option (list ascii) -> C * Z;
  get_law c now us k : ks_ok c -> 0 <= now ->
    let '(c', r) := ks_get now us c (Some k) in
    ks_ok c' /\ ks_on c' = ks_on c /\ ks_ttl c' = ks_ttl c /\
    match (if ks_on c then ks_view c k else None) with
    | Some s =>
        if live now s then
          exists a, r = Some (a, st_doc s) /\ ks_held c' a k /\
                    forall k', ks_view c' k' = upd k (Some (lend true s)) (ks_view c) k'
        else r = None /\ forall k', ks_view c' k' = ks_view c k'
    | None => r = None /\ forall k', ks_view c' k' = ks_view c k'
    end;
  release_law c a k s : ks_ok c -> ks_held c a k -> ks_view c k = Some s ->
    exists c', ks_release c (Some a) = Some c' /\ ks_ok c' /\ ks_on c' = ks_on c /\ ks_ttl c' = ks_ttl c /\
               forall k', ks_view c' k' = upd k (Some (lend false s)) (ks_view c) k';
  put_law c a now k doc opts : ks_ok c -> ks_on c = true -> 0 <= now -> ks_fresh c a ->
    (forall s, ks_view c k = Some s -> st_borrowed s = false) ->
    let '(c', rc, fate) := ks_put (fun _ => true) a now c k doc opts in
    let ttl := if 0 <? o_ttl_seconds opts then o_ttl_seconds opts else ks_ttl c in
    rc = 0 /\ fate = DOC_STORED /\ ks_ok c' /\ ks_on c' = true /\ ks_ttl c' = ks_ttl c /\
    forall k', ks_view c' k' =
      upd k (Some (mk_stored doc (if 0 <? ttl then now + ttl else 0) false)) (ks_view c) k';
  put_borrowed_law al c a now k doc opts s : ks_ok c -> ks_on c = true -> 0 <= now -> ks_fresh c a ->
    ks_view c k = Some s -> st_borrowed s = true ->
    ks_put al a now c k doc opts = (c, 0, DOC_FREED);
  (* a store that fails, or that is off, has no document where there was none *)
  put_lost_law al c a now k doc opts : ks_ok c -> 0 <= now -> ks_fresh c a -> ks_view c k = None ->
    let '(c', rc, _) := ks_put al a now c k doc opts in
    ks_ok c' /\ ks_on c' = ks_on c /\ (ks_on c = false \/ rc <> 0 -> ks_view c' k = None);
  expire_law c now k : ks_ok c ->
    let '(c', rc) := ks_expire now c (Some k) in
    ks_ok c' /\ ks_on c' = ks_on c /\ ks_ttl c' = ks_ttl c /\
    match ks_view c k with
    | Some s => rc = 0 /\ forall k', ks_view c' k' = upd k (Some (mk_stored (st_doc s) (past now) (st_borrowed s))) (ks_view c) k'
    | None => rc = 1 /\ forall k', ks_view c' k' = ks_view c k'
    end }.

(** ** The cache is such a store *)

Definition view_entry (e : cache_entry) : stored := mk_stored (output_document e) (expiry_ts e) (in_use e).
Definition cache_view (c : cache) (k : list ascii) : option stored := view_entry <$> abs c !! k.

Definition cache_get (now us : Z) (c : cache) (k : option (list ascii)) : cache * option (nat * list ascii) :=
  let '(c', e) := cache_lookup now us c k in (c', (fun e => (addr e, output_document e)) <$> e).
Definition cache_put (al : nat -> bool) (a : nat) (now : Z) (c : cache) (k doc : list ascii)
    (opts : cache_entry_opts) : cache * Z * doc_fate :=
  cache_insert al a now c (Some k) (Some doc) (Z.of_nat (length doc)) (Some opts).

Section cache_laws.
Implicit Types (c : cache) (k : list ascii).

Lemma view_insert c c' k e :
  abs c' = <[k := e]> (abs c) -> forall k', cache_view c' k' = upd k (Some (view_entry e)) (cache_view c) k'.
Proof.
  intros H k'. unfold cache_view. rewrite H. destruct (decide (k' = k)) as [->|Hne].
  - by rewrite lookup_insert_eq, upd_eq.
  - by rewrite lookup_insert_ne, upd_ne.
Qed.

Lemma params_eq c c' : params_of c' = params_of c -> enabled c' = enabled c /\ ttl_seconds c' = ttl_seconds c.
Proof. unfold params_of. intros H. by injection H. Qed.

Lemma live_expired now e : live now (view_entry e) = negb (expired now e).
Proof. done. Qed.

Lemma cache_get_law c now us k : cinv c -> 0 <= now ->
  let '(c', r) := cache_get now us c (Some k) in
  cinv c' /\ enabled c' = enabled c /\ ttl_seconds c' = ttl_seconds c /\
  match (if enabled c then cache_view c k else None) with
  | Some s =>
      if live now s then
        exists a, r = Some (a, st_doc s) /\ (exists e, abs c' !! k = Some e /\ addr e = a) /\
                  forall k', cache_view c' k' = upd k (Some (lend true s)) (cache_view c) k'
      else r = None /\ forall k', cache_view c' k' = cache_view c k'
  | None => r = None /\ forall k', cache_view c' k' = cache_view c k'
  end.
Proof.
  intros H Hn. pose proof (lookup_simulates c now us (Some k) H Hn) as Hs. unfold cache_get.
  destruct (cache_lookup now us c (Some k)) as [c' r]. destruct Hs as (H' & Hp & Hs).
  cbn [fst snd] in *. apply params_eq in Hp as [He Ht]. split_and!; [done..|].
  unfold spec_lookup in Hs. change (p_enabled (params_of c)) with (enabled c) in Hs.
  unfold cache_view at 1. destruct (enabled c); cbn [negb] in Hs.
  2:{ injection Hs as Ha ->. split; [done|]. intros k'. unfold cache_view. by rewrite Ha. }
  destruct (abs c !! k) as [e|] eqn:E; cbn [fmap option_fmap option_map].
  2:{ injection Hs as Ha ->. split; [done|]. intros k'. unfold cache_view. by rewrite Ha. }
  rewrite live_expired. destruct (expired now e); cbn [negb]; injection Hs as Ha ->.
  - split; [done|]. intros k'. unfold cache_view. by rewrite Ha.
  - exists (addr e). split; [done|]. split; [exists (touched now e); by rewrite Ha, lookup_insert_eq|].
    exact (view_insert c c' k _ Ha).
Qed.

Lemma cache_release_law c a k s :
  cinv c -> (exists e, abs c !! k = Some e /\ addr e = a) -> cache_view c k = Some s ->
  exists c', cache_release c (Some a) = Some c' /\ cinv c' /\ enabled c' = enabled c /\
    ttl_seconds c' = ttl_seconds c /\
    forall k', cache_view c' k' = upd k (Some (lend false s)) (cache_view c) k'.
Proof.
  intros H (e & He & <-) Hv.
  assert (addr e ∈ map addr (entries c)) as Hin.
  { apply abs_lookup in He as [He _]; [|done]. apply list_elem_of_In, in_map. by apply list_elem_of_In. }
  destruct (release_simulates c (Some (addr e)) H Hin) as (c' & Hr & H' & Hp & Hs).
  cbn [fst snd spec_run] in *. apply params_eq in Hp as [? ?]. injection Hs as Ha.
  exists c'. split_and!; try done. intros k'. unfold cache_view. rewrite Ha, lookup_fmap.
  destruct (decide (k' = k)) as [->|Hne].
  - rewrite upd_eq, He. simpl. unfold release_entry. rewrite Nat.eqb_refl. unfold cache_view in Hv.
    rewrite He in Hv. by injection Hv as <-.
  - rewrite upd_ne by done. destruct (abs c !! k') as [e'|] eqn:E'; [|done]. simpl. f_equal.
    unfold release_entry. destruct (Nat.eqb_spec (addr e') (addr e)) as [Heq|]; [|done]. exfalso. apply Hne.
    apply abs_lookup in He as [He <-]; [|done]. apply abs_lookup in E' as [E' <-]; [|done].
    apply list_elem_of_lookup in He as [i Hi]. apply list_elem_of_lookup in E' as [j Hj].
    assert (i = j) as ->.
    { eapply (NoDup_lookup (map addr (entries c)));
        [apply (inv_bag c H) | rewrite list_lookup_fmap, Hi; reflexivity | rewrite list_lookup_fmap, Hj; simpl; by rewrite Heq]. }
    congruence.
Qed.

Lemma cache_put_law c a now k doc opts :
  cinv c -> enabled c = true -> 0 <= now -> a ∉ map addr (entries c) ->
  (forall s, cache_view c k = Some s -> st_borrowed s = false) ->
  let '(c', rc, fate) := cache_put (fun _ => true) a now c k doc opts in
  let ttl := if 0 <? o_ttl_seconds opts then o_ttl_seconds opts else ttl_seconds c in
  rc = 0 /\ fate = DOC_STORED /\ cinv c' /\ enabled c' = true /\ ttl_seconds c' = ttl_seconds c /\
  forall k', cache_view c' k' =
    upd k (Some (mk_stored doc (if 0 <? ttl then now + ttl else 0) false)) (cache_view c) k'.
Proof.
  intros H Hen Hn Ha Hfree. unfold cache_put.
  pose proof (insert_simulates c (fun _ => true) a now (Some k) (Some doc) (Z.of_nat (length doc)) (Some opts)
                H (conj Hn Ha)) as Hs.
  destruct (cache_insert _ _ _ _ _ _ _ _) as [[c' z] f]. destruct Hs as (H' & Hp & Hs).
  cbn [fst snd] in *. apply params_eq in Hp as [He Ht]. unfold spec_insert in Hs.
  change (p_enabled (params_of c)) with (enabled c) in Hs. rewrite Hen in Hs. cbn [negb] in Hs.
  change (p_ttl (params_of c)) with (ttl_seconds c) in Hs. cbv zeta in Hs |- *.
  match type of Hs with context [alloc_entry ?al ?aa ?nn ?kk ?dd ?ll ?hh ?tt ?oo] =>
    destruct (alloc_entry al aa nn kk dd ll hh tt oo) as [e|] eqn:Ea; [|done] end.
  assert (abs c' = <[k := e]> (abs c) /\ z = 0 /\ f = DOC_STORED) as (Habs & -> & ->).
  { unfold cache_view in Hfree. destruct (abs c !! k) as [old|] eqn:E.
    - assert (in_use old = false) as Hold by exact (Hfree _ eq_refl). rewrite Hold in Hs. by injection Hs as -> -> ->.
    - by injection Hs as -> -> ->. }
  split_and!; try done; [congruence|]. unfold alloc_entry in Ea. cbn [negb] in Ea. injection Ea as <-.
  exact (view_insert c c' k _ Habs).
Qed.

Lemma cache_put_borrowed_law al c a now k doc opts s :
  cinv c -> enabled c = true -> 0 <= now -> a ∉ map addr (entries c) ->
  cache_view c k = Some s -> st_borrowed s = true -> cache_put al a now c k doc opts = (c, 0, DOC_FREED).
Proof.
  intros H Hen Hn Ha Hv Hb. unfold cache_put, cache_insert. rewrite Hen. cbn [negb].
  unfold cache_view in Hv. destruct (abs c !! k) as [e|] eqn:E; [|done]. injection Hv as <-.
  pose proof (find_spec c k H) as Hf. destruct (find_match _ _ _) as [[[pre e'] post]|]; [|congruence].
  destruct Hf as (_ & _ & Hf). assert (e' = e) as -> by congruence. cbn in Hb. by rewrite Hb.
Qed.

Lemma cache_put_lost_law al c a now k doc opts :
  cinv c -> 0 <= now -> a ∉ map addr (entries c) -> cache_view c k = None ->
  let '(c', rc, _) := cache_put al a now c k doc opts in
  cinv c' /\ enabled c' = enabled c /\ (enabled c = false \/ rc <> 0 -> cache_view c' k = None).
Proof.
  intros H Hn Ha Hv. unfold cache_put.
  pose proof (insert_simulates c al a now (Some k) (Some doc) (Z.of_nat (length doc)) (Some opts) H (conj Hn Ha)) as Hs.
  destruct (cache_insert _ _ _ _ _ _ _ _) as [[c' z] f]. destruct Hs as (H' & Hp & Hs).
  cbn [fst snd] in *. apply params_eq in Hp as [He Ht]. split; [done|]. split; [done|]. unfold spec_insert in Hs.
  change (p_enabled (params_of c)) with (enabled c) in Hs. unfold cache_view in *.
  destruct (abs c !! k) as [old|] eqn:E; [done|]. destruct (enabled c); cbn [negb] in Hs.
  - cbv zeta in Hs. destruct (alloc_entry _ _ _ _ _ _ _ _ _) as [e|]; injection Hs as -> -> _.
    + by intros [?|?].
    + intros _. by rewrite lookup_delete_eq.
  - injection Hs as -> _ _. by rewrite E.
Qed.

Lemma cache_expire_law c now k :
  cinv c ->
  let '(c', rc) := cache_expire_entry now c (Some k) in
  cinv c' /\ enabled c' = enabled c /\ ttl_seconds c' = ttl_seconds c /\
  match cache_view c k with
  | Some s => rc = 0 /\ forall k', cache_view c' k' =
      upd k (Some (mk_stored (st_doc s) (past now) (st_borrowed s))) (cache_view c) k'
  | None => rc = 1 /\ forall k', cache_view c' k' = cache_view c k'
  end.
Proof.
  intros H. pose proof (expire_simulates c now (Some k) H) as Hs.
  destruct (cache_expire_entry now c (Some k)) as [c' z]. destruct Hs as (H' & Hp & Hs).
  cbn [fst snd spec_run] in *. apply params_eq in Hp as [? ?]. split_and!; try done.
  unfold cache_view at 1. destruct (abs c !! k) as [e|] eqn:E; injection Hs as Ha ->; simpl.
  - split; [done|]. exact (view_insert c c' k _ Ha).
  - split; [done|]. intros k'. unfold cache_view. by rewrite Ha.
Qed.
End cache_laws.

#[export] Instance cache_store : KeyedStore cache := {|
  ks_ok := cinv; ks_on := enabled; ks_ttl := ttl_seconds; ks_view := cache_view;
  ks_fresh c a := a ∉ map addr (entries c);
  ks_held c a k := exists e, abs c !! k = Some e /\ addr e = a;
  ks_get := cache_get; ks_release := cache_release; ks_put := cache_put; ks_expire := cache_expire_entry;
  get_law := cache_get_law; release_law := cache_release_law; put_law := cache_put_law;
  put_borrowed_law := cache_put_borrowed_law; put_lost_law := cache_put_lost_law; expire_law := cache_expire_law |}.
