(* ===== verification/SessionCache.v ===== *)
(** * SessionCache: session records in the cache

    Models src/src/infra/session_cache.c on any [KeyedStore]: the text
    encoding of a session record and the calls that store, look up, release
    and invalidate it.  A NULL cache is [None].  The configuration read by
    [session_cache_init] is a record of the ini values it uses. *)

From Stdlib Require Import Ascii String ZArith Lia Bool.
From stdpp Require Import base list strings numbers.
From S2P Require Import Prelude Text Hash Cache CacheSpec KeyedStore.

#[local] Open Scope Z_scope.

(** ** Data *)

Inductive session_status :=
| SESSION_STATUS_CREATED
| SESSION_STATUS_ACTIVE
| SESSION_STATUS_EXPIRED
| SESSION_STATUS_LOGGED_OUT
| SESSION_STATUS_EXPIRED_ORPHAN.

Record session_record := mk_session {
  session_id : list ascii;
  status : session_status;
  s_created_ts : Z;
  last_activity_ts : Z;
  s_ttl_seconds : Z;
  s_client_id : list ascii;
  s_client_ip : list ascii;
  s_client_host : list ascii;
  application_name : list ascii }.

Definition session_status_str (s : session_status) : list ascii :=
  match s with
  | SESSION_STATUS_CREATED => str "CREATED"
  | SESSION_STATUS_ACTIVE => str "ACTIVE"
  | SESSION_STATUS_EXPIRED => str "EXPIRED"
  | SESSION_STATUS_LOGGED_OUT => str "LOGGED_OUT"
  | SESSION_STATUS_EXPIRED_ORPHAN => str "EXPIRED_ORPHAN"
  end.

Definition session_status_from_str (s : option (list ascii)) : session_status :=
  match s with
  | None => SESSION_STATUS_CREATED
  | Some s =>
      if ci_eqb s (str "ACTIVE") then SESSION_STATUS_ACTIVE
      else if ci_eqb s (str "EXPIRED") then SESSION_STATUS_EXPIRED
      else if ci_eqb s (str "LOGGED_OUT") then SESSION_STATUS_LOGGED_OUT
      else if ci_eqb s (str "EXPIRED_ORPHAN") then SESSION_STATUS_EXPIRED_ORPHAN
      else SESSION_STATUS_CREATED
  end.

Definition parse_hash_algorithm (s : option (list ascii)) : cache_hash_algorithm :=
  match s with
  | None => CACHE_HASH_FNV1A
  | Some s => if ci_eqb s (str "djb2") then CACHE_HASH_DJB2
              else if ci_eqb s (str "murmur3") then CACHE_HASH_MURMUR3
              else CACHE_HASH_FNV1A
  end.

(** The [session_cache_*] (or [authz_cache_*]) values of the configuration. *)
Record cache_ini := mk_cache_ini {
  ini_enabled : bool;
  ini_ttl_seconds : Z;
  ini_max_entries : Z;
  ini_max_memory_mb : Z;
  ini_bucket_count : Z;
  ini_hash_algorithm : list ascii }.

Definition pos_or (n d : Z) : Z := if 0 <? n then n else d.

Definition session_cache_config (ini : cache_ini) : cache_config :=
  mk_config (str "session_cache") (pos_or (ini_bucket_count ini) 4096) (pos_or (ini_max_entries ini) 5000)
    (u64 (u64 (pos_or (ini_max_memory_mb ini) 128 * 1024) * 1024)) (pos_or (ini_ttl_seconds ini) 1800)
    (parse_hash_algorithm (Some (ini_hash_algorithm ini))) 0 (ini_enabled ini).

(** [None]: [cache_create] never returns. *)
Definition session_cache_init (al : bool) (ini : option cache_ini) : option (option cache) :=
  match ini with
  | None => Some None
  | Some ini =>
      if negb (ini_enabled ini) then Some None
      else cache_create al (Some (session_cache_config ini))
  end.

(** ** Encoding *)

Definition SESSION_CACHE_ENCODING_VERSION : list ascii := str "SC1".
Definition bar : ascii := "|"%char.

(** [s[0] ? s : "-"]. *)
Definition or_dash (s : list ascii) : list ascii := match s with [] => str "-" | _ :: _ => s end.

Definition session_fields (rec : session_record) : list (list ascii) :=
  [ SESSION_CACHE_ENCODING_VERSION; session_id rec; session_status_str (status rec);
    print_int (s_created_ts rec); print_int (last_activity_ts rec); print_int (s_ttl_seconds rec);
    or_dash (s_client_id rec); or_dash (s_client_ip rec); or_dash (s_client_host rec);
    or_dash (application_name rec) ].

(** [al]: the 1024-byte buffer is allocated. *)
Definition session_cache_encode (al : bool) (rec : session_record) : option (list ascii) :=
  if negb al then None
  else
    let buf := sep_by bar (session_fields rec) in
    if (1024 <=? length buf)%nat then None else Some buf.

(** [if (s && strcmp(s, "-") != 0) strncpy(out, s, size - 1)] on a zeroed
    field. *)
Definition un_dash (size : nat) (s : option (list ascii)) : list ascii :=
  match s with
  | Some s => if str_eqb s (str "-") then [] else take (size - 1) s
  | None => []
  end.

Definition session_cache_decode (encoded : option (list ascii)) : option session_record :=
  match encoded with
  | None => None
  | Some encoded =>
      let ts := tokens bar (take 1023 encoded) in
      match ts !! 0%nat with
      | None => None
      | Some version =>
          if negb (str_eqb version SESSION_CACHE_ENCODING_VERSION) then None
          else
            match ts !! 1%nat, ts !! 2%nat, ts !! 3%nat, ts !! 4%nat, ts !! 5%nat with
            | Some sid, Some status_str, Some created, Some last_act, Some ttl =>
                Some (mk_session (take 36 sid) (session_status_from_str (Some status_str))
                        (atol created) (atol last_act) (atol ttl)
                        (un_dash 128 (ts !! 6%nat)) (un_dash 64 (ts !! 7%nat))
                        (un_dash 128 (ts !! 8%nat)) (un_dash 128 (ts !! 9%nat)))
            | _, _, _, _, _ => None
            end
      end
  end.

(** ** Operations, on any store *)

Section operations.
Context {C : Type} {K : KeyedStore C}.

Definition session_cache_lookup (now us : Z) (c : C) (sid : option (list ascii)) : C * option (nat * list ascii) :=
  match sid with None => (c, None) | Some _ => ks_get now us c sid end.

Definition session_cache_release (c : C) (entry : option nat) : option C := ks_release c entry.

Definition non_empty (s : list ascii) : option (list ascii) := match s with [] => None | _ :: _ => Some s end.

Definition session_opts (rec : session_record) : cache_entry_opts :=
  mk_opts (s_ttl_seconds rec) false 0 None 0 (non_empty (s_client_ip rec)) (non_empty (s_client_host rec))
    (non_empty (s_client_id rec)) None None None None None.

(** [al_doc]: the encoding buffer; [al], [a]: the allocations of the cache.
    On failure the document is freed here: it never leaks. *)
Definition session_cache_store (al_doc : bool) (al : nat -> bool) (a : nat) (now : Z) (c : C)
    (rec : option session_record) : C * Z :=
  match rec with
  | None => (c, -1)
  | Some rec =>
      match session_id rec with
      | [] => (c, -1)
      | _ :: _ =>
          match session_cache_encode al_doc rec with
          | None => (c, -1)
          | Some doc => let '(c', rc, _) := ks_put al a now c (session_id rec) doc (session_opts rec) in (c', rc)
          end
      end
  end.

Definition session_cache_invalidate (now : Z) (c : C) (sid : option (list ascii)) : C * Z :=
  match sid with None => (c, -1) | Some _ => ks_expire now c sid end.
End operations.

Definition session_cache_evict (now : Z) (c : option cache) : option cache * Z :=
  match c with None => (None, -1) | Some c => let '(c', n) := cache_evict_expired now c in (Some c', n) end.
Definition session_cache_report (c : option cache) : option cache :=
  match c with None => None | Some c => Some (fst (cache_dump_report c)) end.
Definition session_cache_destroy (c : option cache) : list cache_entry :=
  match c with None => [] | Some c => cache_destroy c end.

(** ** Round trip *)

(** A field that fits its array and survives the encoding: no separator, and
    not the text that stands for the empty field. *)
Definition field_ok (size : nat) (s : list ascii) : Prop :=
  (length s < size)%nat /\ no_char bar s /\ s <> str "-".

Record session_ok (rec : session_record) : Prop := {
  so_id : session_id rec <> [] /\ (length (session_id rec) < 37)%nat /\ no_char bar (session_id rec);
  so_created : - 2 ^ 63 <= s_created_ts rec < 2 ^ 63;
  so_last : - 2 ^ 63 <= last_activity_ts rec < 2 ^ 63;
  so_ttl : - 2 ^ 31 <= s_ttl_seconds rec < 2 ^ 31;
  so_cid : field_ok 128 (s_client_id rec);
  so_cip : field_ok 64 (s_client_ip rec);
  so_host : field_ok 128 (s_client_host rec);
  so_app : field_ok 128 (application_name rec) }.

Section codec.
Implicit Types (rec : session_record) (s : list ascii).

Lemma status_round_trip st : session_status_from_str (Some (session_status_str st)) = st.
Proof. by destruct st. Qed.

Lemma un_dash_or_dash size s : field_ok size s -> un_dash size (Some (or_dash s)) = s.
Proof.
  intros (Hl & _ & Hd). unfold un_dash, or_dash, str_eqb. destruct s as [|c s]; [done|].
  rewrite bool_decide_eq_false_2 by done. apply take_ge. lia.
Qed.

Lemma or_dash_ok size s : field_ok size s -> or_dash s <> [] /\ no_char bar (or_dash s).
Proof. intros (_ & H & _). destruct s as [|c s]; simpl; [split; [done | by repeat constructor] | done]. Qed.

Lemma print_int_no_bar n : no_char bar (print_int n).
Proof.
  unfold no_char. induction (print_int_chars n) as [|c s Hc _ IH]; constructor; [|done].
  revert Hc. unfold bar. all_ascii c.
Qed.

Lemma fields_ok rec : session_ok rec -> Forall (fun s => s <> [] /\ no_char bar s) (session_fields rec).
Proof.
  intros [(H1 & _ & H2) _ _ _ Hc Hi Hh Ha].
  repeat constructor; try done; try apply print_int_nonempty; try apply print_int_no_bar; try by eapply or_dash_ok.
  - by destruct (status rec).
  - unfold no_char. destruct (status rec); by repeat constructor.
Qed.

Lemma or_dash_length size s : field_ok size s -> (0 < size)%nat -> (length (or_dash s) <= size)%nat.
Proof. intros (H & _) Hs. destruct s; simpl in *; lia. Qed.

Lemma sep_by_length d (l : list (list ascii)) :
  (length (sep_by d l) <= foldr (fun s n => length s + 1 + n) 0 l)%nat.
Proof.
  induction l as [|s l IH]; simpl; [lia|]. destruct l as [|s' l'].
  - simpl in *. lia.
  - rewrite length_app. cbn [length]. lia.
Qed.

Lemma encoded_length rec : session_ok rec -> (length (sep_by bar (session_fields rec)) < 1023)%nat.
Proof.
  intros [(_ & H2 & _) Hcr Hla Htt Hc Hi Hh Ha].
  eapply Nat.le_lt_trans; [apply sep_by_length|]. cbn [session_fields foldr].
  pose proof (print_int_length (s_created_ts rec) 19 ltac:(lia) ltac:(lia)).
  pose proof (print_int_length (last_activity_ts rec) 19 ltac:(lia) ltac:(lia)).
  pose proof (print_int_length (s_ttl_seconds rec) 9 ltac:(lia) ltac:(lia)).
  pose proof (or_dash_length 128 _ Hc ltac:(lia)). pose proof (or_dash_length 64 _ Hi ltac:(lia)).
  pose proof (or_dash_length 128 _ Hh ltac:(lia)). pose proof (or_dash_length 128 _ Ha ltac:(lia)).
  assert (length (session_status_str (status rec)) <= 14)%nat by (destruct (status rec); simpl; lia).
  change (length SESSION_CACHE_ENCODING_VERSION) with 3%nat. lia.
Qed.

Lemma encode_ok rec : session_ok rec -> session_cache_encode true rec = Some (sep_by bar (session_fields rec)).
Proof.
  intros H. pose proof (encoded_length rec H). unfold session_cache_encode. cbn [negb].
  by rewrite (proj2 (Nat.leb_gt 1024 _)) by lia.
Qed.

Lemma decode_encoded rec : session_ok rec -> session_cache_decode (Some (sep_by bar (session_fields rec))) = Some rec.
Proof.
  intros H. pose proof (encoded_length rec H) as Hlen. unfold session_cache_decode.
  rewrite take_ge, tokens_sep_by by (lia || by apply fields_ok).
  destruct H as [(H1 & H2 & H3) Hcr Hla Htt Hc Hi Hh Ha]. unfold session_fields.
  cbn [lookup list_lookup]. unfold str_eqb. rewrite bool_decide_eq_true_2 by done. cbn [negb].
  rewrite status_round_trip, !atol_print_int, !un_dash_or_dash, take_ge by (done || lia). by destruct rec.
Qed.
End codec.

(** A session record survives the cache's text encoding: any record whose
    fields fit their arrays and hold no separator is encoded, and decoding the
    text gives the record back - every status, time, TTL and client field. *)
Theorem session_codec_round_trip (rec : session_record) :
  session_ok rec ->
  exists doc, session_cache_encode true rec = Some doc /\ session_cache_decode (Some doc) = Some rec.
Proof. intros H. eexists. split; [by apply encode_ok | by apply decode_encoded]. Qed.

Definition demo_session : session_record :=
  mk_session (str "0a1b2c3d-0000-4000-8000-00112233aabb") SESSION_STATUS_LOGGED_OUT 1790000000 (-5) 900
    (str "teller-7") [] (str "branch.example") (str "ledger").

Ltac field_tac := repeat split; try done; try lia; try (simpl; lia); try (unfold no_char; repeat constructor).

Lemma demo_session_ok : session_ok demo_session.
Proof. split; try (unfold demo_session; simpl; lia); field_tac. Qed.

Lemma session_codec_round_trip_witness :
  exists doc, session_cache_encode true demo_session = Some doc /\ session_cache_decode (Some doc) = Some demo_session.
Proof. exact (session_codec_round_trip demo_session demo_session_ok). Defined.

(** A stored session is found again.  On any store that keeps the
    [KeyedStore] promise, [session_cache_store] of a well-formed record whose
    key nobody has borrowed succeeds, and until the record's own TTL (or the
    cache's) runs out [session_cache_lookup] of its id answers a document that
    decodes to that very record; every other session is untouched; after
    [session_cache_invalidate] the lookup answers nothing. *)
Theorem session_store_lookup {C : Type} {K : KeyedStore C} (c : C) (a : nat) (now now' us us' : Z)
    (rec : session_record) :
  ks_ok c -> ks_on c = true -> ks_fresh c a -> session_ok rec -> 1 < now -> now <= now' ->
  (forall s, ks_view c (session_id rec) = Some s -> st_borrowed s = false) ->
  now' < now + (if 0 <? s_ttl_seconds rec then s_ttl_seconds rec else ks_ttl c) ->
  let '(c1, rc) := session_cache_store true (fun _ => true) a now c (Some rec) in
  rc = 0 /\
  (exists p doc, snd (session_cache_lookup now' us c1 (Some (session_id rec))) = Some (p, doc) /\
                 session_cache_decode (Some doc) = Some rec) /\
  (forall k, k <> session_id rec -> ks_view c1 k = ks_view c k) /\
  snd (session_cache_lookup now' us' (fst (session_cache_invalidate now c1 (Some (session_id rec))))
         (Some (session_id rec))) = None.
Proof.
  intros Hok Hon Hfr Hrec Hn Hn' Hb Httl. unfold session_cache_store.
  destruct (session_id rec) as [|x sid] eqn:Esid; [by destruct (so_id rec Hrec) as [? _]|]. rewrite <- Esid in *.
  rewrite (encode_ok rec Hrec).
  pose proof (put_law c a now (session_id rec) (sep_by bar (session_fields rec)) (session_opts rec)
                Hok Hon ltac:(lia) Hfr Hb) as Hp.
  destruct (ks_put _ _ _ _ _ _ _) as [[c1 rc] fate]. cbv zeta in Hp. cbn [session_opts o_ttl_seconds] in Hp.
  destruct Hp as (-> & _ & Hok1 & Hon1 & Httl1 & Hv).
  set (ttl := if 0 <? s_ttl_seconds rec then s_ttl_seconds rec else ks_ttl c) in *.
  pose proof (Hv (session_id rec)) as Hvk. rewrite upd_eq in Hvk.
  split; [done|]. split; [|split].
  - pose proof (get_law c1 now' us (session_id rec) Hok1 ltac:(lia)) as Hg.
    unfold session_cache_lookup. destruct (ks_get now' us c1 (Some (session_id rec))) as [c2 r].
    destruct Hg as (_ & _ & _ & Hg). rewrite Hon1, Hvk in Hg.
    match type of Hg with context [live now' ?s] => assert (live now' s = true) as Hl end.
    { unfold live. simpl. destruct (Z.ltb_spec 0 ttl); [|done].
      apply negb_true_iff, andb_false_iff. right. apply Z.leb_gt. lia. }
    rewrite Hl in Hg. destruct Hg as (p & -> & _). exists p. eexists. split; [done|]. by apply decode_encoded.
  - intros k Hk. by rewrite Hv, upd_ne.
  - pose proof (expire_law c1 now (session_id rec) Hok1) as He. unfold session_cache_invalidate.
    destruct (ks_expire now c1 (Some (session_id rec))) as [c2 rc2]. rewrite Hvk in He.
    destruct He as (Hok2 & Hon2 & _ & _ & Hv2). cbn [fst].
    pose proof (get_law c2 now' us' (session_id rec) Hok2 ltac:(lia)) as Hg.
    unfold session_cache_lookup. destruct (ks_get now' us' c2 (Some (session_id rec))) as [c3 r].
    destruct Hg as (_ & _ & _ & Hg). rewrite Hon2, Hon1, Hv2, upd_eq in Hg.
    match type of Hg with context [live now' ?s] => assert (live now' s = false) as Hl end.
    { unfold live, past. simpl. destruct (Z.ltb_spec 0 now); [|lia]. apply negb_false_iff.
      apply andb_true_intro. split; [apply Z.ltb_lt | apply Z.leb_le]; lia. }
    rewrite Hl in Hg. by destruct Hg as [-> _].
Qed.

Lemma session_store_lookup_witness :
  exists p doc, snd (session_cache_lookup 1700000100 2
    (fst (session_cache_store true (fun _ => true) 5 1700000000 demo (Some demo_session)))
    (Some (session_id demo_session))) = Some (p, doc) /\ session_cache_decode (Some doc) = Some demo_session.
Proof.
  pose proof (session_store_lookup demo 5 1700000000 1700000100 2 2 demo_session
    (reachable_inv demo (demo_reachable [] I ltac:(by eexists))) eq_refl
    ltac:(vm_compute; by intros ?%elem_of_nil) demo_session_ok ltac:(lia) ltac:(lia)
    ltac:(by intros s Hs; vm_compute in Hs) ltac:(vm_compute; reflexivity)) as H.
  destruct (session_cache_store _ _ _ _ _ _) as [c1 rc].
  destruct H as (_ & (p & doc & H & Hd) & _). by exists p, doc.
Defined.
