(* ===== verification/AuthzCache.v ===== *)
(** * AuthzCache: permissions of a session

    Models src/src/infra/authz_cache.c and src/src/infra/Authz_Manager.c on
    any [KeyedStore]: the permission list of a session is a comma-separated
    text under the session's id; a permission is granted when it is a token of
    that list.  The answer of the database driver to the permission query is
    an argument; logging and metrics are left out. *)

From Stdlib Require Import Ascii String ZArith Lia Bool.
From stdpp Require Import base list strings numbers.
From S2P Require Import Prelude Text Hash Cache CacheSpec KeyedStore SessionCache.

#[local] Open Scope Z_scope.

Inductive authz_result := AUTHZ_OK | AUTHZ_ERR_INVALID_ARG | AUTHZ_ERR_DB_FAILURE | AUTHZ_ERR_DENIED.

Definition authz_cache_config (ini : cache_ini) : cache_config :=
  mk_config (str "authz_cache") (pos_or (ini_bucket_count ini) 1024) (pos_or (ini_max_entries ini) 5000)
    (u64 (u64 (pos_or (ini_max_memory_mb ini) 32 * 1024) * 1024)) (pos_or (ini_ttl_seconds ini) 1800)
    (parse_hash_algorithm (Some (ini_hash_algorithm ini))) 0 (ini_enabled ini).

Definition authz_cache_init (al : bool) (ini : option cache_ini) : option (option cache) :=
  match ini with
  | None => Some None
  | Some ini =>
      if negb (ini_enabled ini) then Some None
      else cache_create al (Some (authz_cache_config ini))
  end.

(** ** Encoding *)

Definition AUTHZ_CACHE_ENCODING_VERSION : list ascii := str "AZ1".
Definition comma : ascii := ","%char.

(** The buffer is allocated at the exact length, so only the allocation can fail. *)
Definition authz_cache_encode (al : bool) (csv : option (list ascii)) : option (list ascii) :=
  let codes := match csv with Some ((_ :: _) as s) => s | _ => str "-" end in
  if negb al then None else Some (AUTHZ_CACHE_ENCODING_VERSION ++ bar :: codes).

(** [None]: -1; otherwise what is left in [out_csv]. *)
Definition authz_cache_decode (encoded : option (list ascii)) (out_csv_size : nat) : option (list ascii) :=
  match encoded, out_csv_size with
  | None, _ | _, O => None
  | Some encoded, S n =>
      match split_at bar encoded with
      | None => None
      | Some (version, codes) =>
          if negb (str_eqb version AUTHZ_CACHE_ENCODING_VERSION) then None
          else if str_eqb codes (str "-") then Some []
          else Some (take n codes)
      end
  end.

(** ** Operations, on any store; a NULL cache is [None] *)

Section operations.
Context {C : Type} {K : KeyedStore C}.

Definition empty_opts : cache_entry_opts :=
  mk_opts 0 false 0 None 0 None None None None None None None None.

Definition authz_cache_lookup (now us : Z) (c : C) (sid : option (list ascii)) : C * option (nat * list ascii) :=
  match sid with None => (c, None) | Some _ => ks_get now us c sid end.
Definition authz_cache_release (c : C) (entry : option nat) : option C := ks_release c entry.

Definition authz_cache_store (al_doc : bool) (al : nat -> bool) (a : nat) (now : Z) (c : C)
    (sid csv : option (list ascii)) : C * Z :=
  match sid with
  | None | Some [] => (c, -1)
  | Some ((_ :: _) as sid) =>
      match authz_cache_encode al_doc (Some (default [] csv)) with
      | None => (c, -1)
      | Some doc => let '(c', rc, _) := ks_put al a now c sid doc empty_opts in (c', rc)
      end
  end.

Definition authz_cache_invalidate (now : Z) (c : C) (sid : option (list ascii)) : C * Z :=
  match sid with None => (c, -1) | Some _ => ks_expire now c sid end.

Definition AUTHZ_PERMISSION_LIST_BUF_SIZE : nat := Z.to_nat 8192.

(** The loop over [strtok_r(permission_list, ",")]. *)
Definition has_token (l p : list ascii) : bool := existsb (fun t => str_eqb t p) (tokens comma l).

(** [None]: [authz_cache_release] was handed a freed entry. *)
Definition authz_has_permission (now us : Z) (c : option C) (sid code : option (list ascii))
    : option (option C * authz_result) :=
  match sid, code with
  | Some ((_ :: _) as sid), Some ((_ :: _) as code) =>
      match c with
      | None => Some (None, AUTHZ_ERR_DENIED)
      | Some c =>
          match authz_cache_lookup now us c (Some sid) with
          | (c1, None) => Some (Some c1, AUTHZ_ERR_DENIED)
          | (c1, Some (entry, doc)) =>
              let list := authz_cache_decode (Some doc) AUTHZ_PERMISSION_LIST_BUF_SIZE in
              match authz_cache_release c1 (Some entry) with
              | None => None
              | Some c2 =>
                  match list with
                  | None => Some (Some c2, AUTHZ_ERR_DENIED)
                  | Some l => Some (Some c2, if has_token l code then AUTHZ_OK else AUTHZ_ERR_DENIED)
                  end
              end
          end
      end
  | _, _ => Some (c, AUTHZ_ERR_INVALID_ARG)
  end.

(** ** Building the list from the database *)

(** One row of the query; [None]: the list is truncated here. *)
Definition add_code (l code : list ascii) : option (list ascii) :=
  let needed := (length code + (if (0 <? length l)%nat then 1 else 0))%nat in
  if (AUTHZ_PERMISSION_LIST_BUF_SIZE <=? length l + needed)%nat then None
  else Some (if (0 <? length l)%nat then l ++ comma :: code else l ++ code).

(** The rows of a batch: the list and whether it was truncated. *)
Fixpoint add_codes (l : list ascii) (codes : list (list ascii)) : list ascii * bool :=
  match codes with
  | [] => (l, false)
  | code :: codes' => match add_code l code with
                      | None => (l, true)
                      | Some l' => add_codes l' codes'
                      end
  end.

(** What the driver's cursor answers: batches of rows, then the end or an
    error.  An empty batch is the end. *)
Inductive fetches :=
| FetchRows (rows : list (list ascii)) (more : fetches)
| FetchEnd
| FetchError.

(** The [while (!truncated)] loop: the list and whether a fetch failed. *)
Fixpoint fetch_all (l : list ascii) (f : fetches) : list ascii * bool :=
  match f with
  | FetchError => (l, true)
  | FetchEnd => (l, false)
  | FetchRows [] _ => (l, false)
  | FetchRows rows more =>
      let '(l', truncated) := add_codes l rows in
      if truncated then (l', false) else fetch_all l' more
  end.

(** [query]: [None] when the placeholder or [select_open] fails, otherwise
    the number of columns and the fetches. *)
Definition authz_build_permission_cache (al_doc : bool) (al : nat -> bool) (a : nat) (now : Z)
    (c : option C) (sid : option (list ascii)) (user_id : Z) (query : option (Z * fetches))
    : option C * authz_result :=
  match sid with
  | None | Some [] => (c, AUTHZ_ERR_INVALID_ARG)
  | Some (_ :: _) =>
      if user_id <=? 0 then (c, AUTHZ_ERR_INVALID_ARG)
      else match query with
           | None => (c, AUTHZ_ERR_DB_FAILURE)
           | Some (col_count, f) =>
               let '(l, fetch_failed) := fetch_all [] f in
               if fetch_failed || negb (col_count =? 1) then (c, AUTHZ_ERR_DB_FAILURE)
               else (match c with
                     | None => None
                     | Some c => Some (fst (authz_cache_store al_doc al a now c sid (Some l)))
                     end, AUTHZ_OK)
           end
  end.
End operations.

Definition authz_cache_evict (now : Z) (c : option cache) : option cache * Z :=
  match c with None => (None, -1) | Some c => let '(c', n) := cache_evict_expired now c in (Some c', n) end.
Definition authz_cache_report (c : option cache) : option cache :=
  match c with None => None | Some c => Some (fst (cache_dump_report c)) end.
Definition authz_cache_destroy (c : option cache) : list cache_entry :=
  match c with None => [] | Some c => cache_destroy c end.

(** ** Lemmas *)

Section authz.
Context {C : Type} {K : KeyedStore C}.
Implicit Types (c : C) (l p code : list ascii).

Definition code_ok code : Prop := code <> [].

(** The codes a row of the query stands for, once the list is split again: one,
    when it has no comma. *)
Definition codes_of (row : list ascii) (codes : list (list ascii)) : Prop :=
  row = sep_by comma codes /\ Forall (no_char comma) codes.

Lemma decode_encode l n :
  l <> str "-" -> (length l < n)%nat ->
  exists doc, authz_cache_encode true (Some l) = Some doc /\ authz_cache_decode (Some doc) n = Some l.
Proof.
  intros Hd Hn. eexists. split; [reflexivity|]. unfold authz_cache_decode. destruct n as [|n]; [lia|].
  rewrite split_at_app by (unfold no_char; by repeat constructor).
  unfold str_eqb. rewrite bool_decide_eq_true_2 by done. cbn [negb].
  destruct l as [|x l]; [by rewrite bool_decide_eq_true_2|].
  rewrite bool_decide_eq_false_2 by done. rewrite take_ge; [done|]. lia.
Qed.

Lemma has_token_in l p : has_token l p = true <-> In p (tokens comma l).
Proof.
  unfold has_token. rewrite existsb_exists. unfold str_eqb. split.
  - intros (t & Ht & E). bools. by subst.
  - intros Ht. exists p. split; [done|]. by apply bool_decide_eq_true.
Qed.

Lemma tokens_app s k : tokens comma (s ++ comma :: k) = tokens comma s ++ tokens comma k.
Proof.
  induction s as [|c s IH]; [apply tokens_delim|]. cbn [app tokens]. destruct (Ascii.eqb c comma) eqn:Ec; [exact IH|].
  destruct s as [|d s]; [done|]. cbn [app] in *. destruct (Ascii.eqb d comma) eqn:Ed; [by rewrite IH|].
  rewrite IH. destruct (tokens comma (d :: s)) as [|t ts] eqn:Et; [|done]. exfalso. cbn [tokens] in Et. rewrite Ed in Et.
  destruct s as [|e s]; [done|]. destruct (Ascii.eqb e comma); [done|]. by destruct (tokens comma (e :: s)).
Qed.

Lemma tokens_joined (rows : list (list ascii)) : tokens comma (sep_by comma rows) = concat (map (tokens comma) rows).
Proof.
  induction rows as [|r rows IH]; [done|]. destruct rows as [|r' rows]; [cbn; by rewrite app_nil_r|].
  change (sep_by comma (r :: r' :: rows)) with (r ++ comma :: sep_by comma (r' :: rows)). by rewrite tokens_app, IH.
Qed.

Lemma row_has_codes row : exists x codes, codes_of row (x :: codes).
Proof.
  unfold codes_of. induction row as [|c row (x & codes & -> & Hc)]; [exists [], []; split; [done|by repeat constructor]|].
  destruct (Ascii.eqb c comma) eqn:E.
  - apply Ascii.eqb_eq in E as ->. exists [], (x :: codes). split; [done|]. constructor; [constructor|done].
  - apply Forall_cons_1 in Hc as [Hx Hc]. exists (c :: x), codes. split; [by destruct codes|]. constructor; [by constructor|done].
Qed.

Lemma codes_tokens row codes p : codes_of row codes -> p <> [] -> In p (tokens comma row) <-> In p codes.
Proof.
  intros [-> Hc] Hp. rewrite tokens_joined, in_concat. split.
  - intros (t & (code & <- & Hin)%in_map_iff & Ht). rewrite List.Forall_forall in Hc.
    destruct code as [|x code]; [done|]. rewrite tokens_one in Ht by (done || by apply Hc). by destruct Ht as [<-|[]].
  - intros Hin. exists (tokens comma p). split; [by apply in_map|]. rewrite List.Forall_forall in Hc.
    rewrite tokens_one by (done || by apply Hc). by left.
Qed.

(** What the joined rows grant. *)
Lemma has_token_spec (rows : list (list ascii)) p : p <> [] ->
  has_token (sep_by comma rows) p = true <-> exists row codes, In row rows /\ codes_of row codes /\ In p codes.
Proof.
  intros Hp. rewrite has_token_in, tokens_joined, in_concat. split.
  - intros (t & (row & <- & Hin)%in_map_iff & Ht). destruct (row_has_codes row) as (x & codes & Hc).
    exists row, (x :: codes). split; [done|]. split; [done|]. by apply (codes_tokens row).
  - intros (row & codes & Hin & Hc & Hpc). exists (tokens comma row). split; [by apply in_map|]. by apply (codes_tokens row codes).
Qed.

Lemma one_code row codes : no_char comma row -> row <> [] -> codes_of row codes -> codes = [row].
Proof.
  intros Hr Hne [-> Hc]. destruct codes as [|x [|y codes]]; [done|done|]. exfalso.
  change (sep_by comma (x :: y :: codes)) with (x ++ comma :: sep_by comma (y :: codes)) in Hr. apply Forall_app in Hr as [_ Hr].
  by apply Forall_cons_1 in Hr as [Hr _].
Qed.

Lemma has_token_no_empty l p : has_token l p = true -> p <> [] /\ no_char comma p.
Proof.
  unfold has_token. intros (t & Ht & Heq)%existsb_exists. unfold str_eqb in Heq. bools. subst t.
  by apply tokens_no_delim in Ht.
Qed.

Lemma has_permission_spec now us c sid p :
  ks_ok c -> 0 <= now -> sid <> [] -> p <> [] ->
  exists c', ks_ok c' /\
  (forall k, ks_view c' k = match ks_view c k with
                            | Some s => if decide (k = sid) then
                                          if ks_on c && live now s then Some (lend false s) else Some s
                                        else Some s
                            | None => None end) /\
  authz_has_permission now us (Some c) (Some sid) (Some p) =
  Some (Some c',
        match (if ks_on c then ks_view c sid else None) with
        | Some s => if live now s then
                      match authz_cache_decode (Some (st_doc s)) AUTHZ_PERMISSION_LIST_BUF_SIZE with
                      | Some l => if has_token l p then AUTHZ_OK else AUTHZ_ERR_DENIED
                      | None => AUTHZ_ERR_DENIED
                      end
                    else AUTHZ_ERR_DENIED
        | None => AUTHZ_ERR_DENIED
        end).
Proof.
  intros Hok Hn Hs Hp. unfold authz_has_permission.
  destruct sid as [|x sid0]; [done|]. destruct p as [|y p0]; [done|].
  set (sid := x :: sid0) in *. set (p := y :: p0) in *. unfold authz_cache_lookup.
  pose proof (get_law c now us sid Hok Hn) as Hg.
  destruct (ks_get now us c (Some sid)) as [c1 r]. destruct Hg as (Hok1 & Hon1 & _ & Hg).
  destruct (if ks_on c then ks_view c sid else None) as [s|] eqn:Ev.
  - destruct (ks_on c) eqn:Eon; [|done]. destruct (live now s) eqn:El.
    + destruct Hg as (a & -> & Hh & Hv).
      destruct (release_law c1 a sid (lend true s) Hok1 Hh) as (c2 & Hr & Hok2 & _ & _ & Hv2);
        [by rewrite Hv, upd_eq|].
      unfold authz_cache_release. rewrite Hr. exists c2. split; [done|]. split.
      { intros k. rewrite Hv2. destruct (decide (k = sid)) as [->|Hne].
        - rewrite upd_eq, Ev. cbn [andb]. rewrite El. done.
        - rewrite upd_ne, Hv, upd_ne by done. by destruct (ks_view c k). }
      by destruct (authz_cache_decode _ _).
    + destruct Hg as [-> Hv]. exists c1. split; [done|]. split; [|done].
      intros k. rewrite Hv. destruct (ks_view c k) as [s'|] eqn:Ek; [|done].
      destruct (decide (k = sid)) as [->|]; [|done]. cbn [andb].
      assert (s' = s) as -> by congruence. by rewrite El.
  - destruct Hg as [-> Hv]. exists c1. split; [done|]. split; [|done].
    intros k. rewrite Hv. destruct (ks_view c k) as [s'|] eqn:Ek; [|done].
    destruct (decide (k = sid)) as [->|]; [|done]. destruct (ks_on c); [congruence | done].
Qed.

(** The list built from the rows is a prefix of them, joined. *)
Lemma sep_by_snoc (codes : list (list ascii)) code :
  codes <> [] -> sep_by comma (codes ++ [code]) = sep_by comma codes ++ comma :: code.
Proof.
  intros H. induction codes as [|x codes IH]; [done|]. destruct codes as [|y codes]; [done|].
  specialize (IH ltac:(done)). cbn [sep_by app] in *. rewrite IH. by rewrite <- app_assoc.
Qed.

Lemma sep_by_nonempty (codes : list (list ascii)) :
  Forall code_ok codes -> codes <> [] -> (0 < length (sep_by comma codes))%nat.
Proof.
  intros H Hne. destruct H as [|x codes Hx _]; [done|]. destruct x; [done|].
  destruct codes; simpl; lia.
Qed.

Lemma add_codes_spec done_codes rows :
  Forall code_ok done_codes -> Forall code_ok rows ->
  (length (sep_by comma done_codes) < AUTHZ_PERMISSION_LIST_BUF_SIZE)%nat ->
  exists n, (n <= length rows)%nat /\
    let all := done_codes ++ take n rows in
    add_codes (sep_by comma done_codes) rows = (sep_by comma all, negb (n =? length rows)%nat) /\
    (length (sep_by comma all) < AUTHZ_PERMISSION_LIST_BUF_SIZE)%nat /\
    ((n < length rows)%nat ->
       (AUTHZ_PERMISSION_LIST_BUF_SIZE <= length (sep_by comma (done_codes ++ take (S n) rows)))%nat).
Proof.
  intros Hd Hr Hlen. revert done_codes Hd Hlen.
  induction Hr as [|code rows Hc Hr IH]; intros done_codes Hd Hlen.
  - exists 0%nat. simpl. rewrite app_nil_r. split_and!; [lia | done | done | lia].
  - cbn [add_codes]. unfold add_code.
    assert ((if (0 <? length (sep_by comma done_codes))%nat
             then sep_by comma done_codes ++ comma :: code else sep_by comma done_codes ++ code)
            = sep_by comma (done_codes ++ [code]) /\
            length (sep_by comma (done_codes ++ [code])) =
              (length (sep_by comma done_codes) +
                (length code + (if (0 <? length (sep_by comma done_codes))%nat then 1 else 0)))%nat) as [Hj Hl].
    { destruct done_codes as [|x xs].
      - simpl. split; [done | lia].
      - pose proof (sep_by_nonempty (x :: xs) Hd ltac:(done)) as Hp.
        rewrite (proj2 (Nat.ltb_lt 0 _) Hp), sep_by_snoc by done. split; [done|].
        rewrite length_app. simpl. lia. }
    rewrite <- Hl, Hj. destruct (Nat.leb_spec AUTHZ_PERMISSION_LIST_BUF_SIZE (length (sep_by comma (done_codes ++ [code])))).
    + exists 0%nat. simpl. rewrite app_nil_r. split_and!; [lia | done | done | done].
    + destruct (IH (done_codes ++ [code])) as (n & Hn & He & Hb & Ht);
        [apply Forall_app; split; [done | by constructor] | done |].
      exists (S n). cbn [take length]. rewrite <- app_assoc in He, Hb. simpl in He, Hb. split_and!; [lia | exact He | exact Hb |].
      intros Hlt. specialize (Ht ltac:(lia)). rewrite <- app_assoc in Ht. exact Ht.
Qed.
End authz.

Section build.
Implicit Types (codes : list (list ascii)) (bs : list (list (list ascii))).

Definition cursor_of bs : fetches := foldr FetchRows FetchEnd bs.

Lemma sep_by_prefix_length codes codes' :
  (length (sep_by comma codes) <= length (sep_by comma (codes ++ codes')))%nat.
Proof.
  induction codes as [|x codes IH]; simpl; [lia|].
  destruct codes as [|y codes]; simpl in *.
  - destruct codes'; simpl; [lia|]. rewrite length_app. lia.
  - rewrite !length_app. cbn [length]. lia.
Qed.

(** The whole loop: a maximal prefix of the codes, joined, never part of one. *)
Lemma fetch_all_spec done_codes bs :
  Forall code_ok done_codes -> Forall code_ok (concat bs) -> Forall (fun b => b <> []) bs ->
  (length (sep_by comma done_codes) < AUTHZ_PERMISSION_LIST_BUF_SIZE)%nat ->
  exists n, let all := done_codes ++ take n (concat bs) in
    fetch_all (sep_by comma done_codes) (cursor_of bs) = (sep_by comma all, false) /\
    (length (sep_by comma all) < AUTHZ_PERMISSION_LIST_BUF_SIZE)%nat /\
    ((n < length (concat bs))%nat ->
       (AUTHZ_PERMISSION_LIST_BUF_SIZE <= length (sep_by comma (done_codes ++ take (S n) (concat bs))))%nat).
Proof.
  intros Hd Hc Hne Hlen. revert done_codes Hd Hc Hlen.
  induction Hne as [|b bs Hb _ IH]; intros done_codes Hd Hc Hlen.
  - exists 0%nat. simpl. rewrite app_nil_r. split_and!; [done | done | lia].
  - simpl in Hc. apply Forall_app in Hc as [Hcb Hcs].
    destruct (add_codes_spec done_codes b Hd Hcb Hlen) as (n & Hn & He & Hl & Hmax).
    destruct b as [|code b]; [done|]. cbn [cursor_of foldr fetch_all]. rewrite He.
    destruct (Nat.eqb_spec n (length (code :: b))) as [->|Hlt]; cbn [negb].
    + rewrite take_ge in * by lia.
      destruct (IH (done_codes ++ (code :: b))) as (m & Hm & Hml & Hmm);
        [by apply Forall_app | done | done |].
      exists (length (code :: b) + m)%nat. cbn [concat].
      rewrite take_app_add. rewrite <- app_assoc in Hm, Hml. split; [exact Hm|]. split; [exact Hml|].
      intros Hx. rewrite length_app in Hx. specialize (Hmm ltac:(lia)).
      replace (S (length (code :: b) + m)) with (length (code :: b) + S m)%nat by lia.
      rewrite take_app_add. by rewrite <- app_assoc in Hmm.
    + exists n. cbn [concat]. rewrite take_app_le by lia. split; [done|]. split; [done|].
      intros _. rewrite take_app_le by lia. apply Hmax. lia.
Qed.

Lemma fetch_all_fits bs :
  Forall code_ok (concat bs) -> Forall (fun b => b <> []) bs ->
  (length (sep_by comma (concat bs)) < AUTHZ_PERMISSION_LIST_BUF_SIZE)%nat ->
  fetch_all [] (cursor_of bs) = (sep_by comma (concat bs), false).
Proof.
  intros Hc Hne Hl. destruct (fetch_all_spec [] bs ltac:(by constructor) Hc Hne) as (n & He & _ & Hmax);
    [unfold AUTHZ_PERMISSION_LIST_BUF_SIZE; simpl; lia|].
  change (sep_by comma []) with ([] : list ascii) in He. rewrite He. simpl in *. do 2 f_equal.
  apply take_ge. destruct (Nat.le_gt_cases (length (concat bs)) n) as [|Hlt]; [done|]. exfalso.
  specialize (Hmax Hlt).
  pose proof (sep_by_prefix_length (take (S n) (concat bs)) (drop (S n) (concat bs))) as Hp.
  rewrite take_drop in Hp. lia.
Qed.
End build.

(** ** Properties *)

(** C34: a session has exactly the permissions the database gave it.  A cache
    that is on and has memory for the list, and in which nobody holds an older
    list of the session, is filled from the query's rows - not empty, in
    batches of any size, not just the one row "-", which stands for no row,
    and together fitting the list.  Until its time to live has run out, and if
    the store is left alone in between, [authz_has_permission] then grants a
    code that a row has, denies every other one ("CUSTOMER.READ" is not granted
    by "CUSTOMER.READALL"), and leaves the store as it was, nothing borrowed.
    The codes a row has are what lies between its commas: the row itself, and
    only it, when it has none; a row with a comma in it grants its parts and
    not itself. *)
Theorem authz_grants_exactly {C : Type} {K : KeyedStore C} (c : C) (a : nat) (now now' us user : Z)
    (sid p : list ascii) (bs : list (list (list ascii))) :
  ks_ok c -> ks_on c = true -> ks_fresh c a -> 0 <= now -> now <= now' -> now' < now + ks_ttl c ->
  (forall s, ks_view c sid = Some s -> st_borrowed s = false) -> sid <> [] -> p <> [] -> 0 < user ->
  Forall (fun b => b <> []) bs -> Forall code_ok (concat bs) -> concat bs <> [str "-"] ->
  (length (sep_by comma (concat bs)) < AUTHZ_PERMISSION_LIST_BUF_SIZE)%nat ->
  exists c1 c2 r,
    authz_build_permission_cache true (fun _ => true) a now (Some c) (Some sid) user (Some (1, cursor_of bs))
      = (Some c1, AUTHZ_OK) /\
    authz_has_permission now' us (Some c1) (Some sid) (Some p) = Some (Some c2, r) /\
    (r = AUTHZ_OK <-> exists row codes, In row (concat bs) /\ codes_of row codes /\ In p codes) /\
    (Forall (no_char comma) (concat bs) -> r = AUTHZ_OK <-> In p (concat bs)) /\
    (r = AUTHZ_OK \/ r = AUTHZ_ERR_DENIED) /\
    (forall k, ks_view c2 k = ks_view c1 k).
Proof.
  intros Hok Hon Hfr Hn Hn' Httl Hb Hs Hp Hu Hne Hcs Hdash Hlen.
  assert (sep_by comma (concat bs) <> str "-") as Hd.
  { intros E. apply Hdash. destruct (concat bs) as [|x [|y l]]; [discriminate E|by cbn in E; rewrite E|]. exfalso.
    apply Forall_cons_1 in Hcs as [Hx Hcs]. apply Forall_cons_1 in Hcs as [Hy _].
    change (sep_by comma (x :: y :: l)) with (x ++ comma :: sep_by comma (y :: l)) in E.
    apply (f_equal (@length _)) in E. rewrite length_app in E. destruct x; [done|]. cbn in E. lia. }
  destruct (decode_encode (sep_by comma (concat bs)) AUTHZ_PERMISSION_LIST_BUF_SIZE Hd Hlen) as (doc & Henc & Hdec).
  unfold authz_build_permission_cache. destruct sid as [|x sid0]; [done|]. set (sid := x :: sid0) in *.
  rewrite (proj2 (Z.leb_gt user 0)) by lia. rewrite fetch_all_fits by done.
  cbn [orb negb Z.eqb Pos.eqb]. unfold authz_cache_store. change (default [] (Some ?l)) with l.
  cbn [default]. unfold id. rewrite Henc.
  pose proof (put_law c a now sid doc empty_opts Hok Hon ltac:(lia) Hfr Hb) as Hput. fold sid.
  destruct (ks_put _ _ _ _ _ _ _) as [[c1 rc] fate]. cbv zeta in Hput.
  destruct Hput as (-> & _ & Hok1 & Hon1 & _ & Hv). cbn [empty_opts o_ttl_seconds Z.ltb Z.compare] in Hv.
  destruct (has_permission_spec now' us c1 sid p Hok1 ltac:(lia) Hs Hp) as (c2 & _ & Hv2 & Hperm).
  pose proof (Hv sid) as Hvs. rewrite upd_eq in Hvs.
  match type of Hvs with _ = Some ?s0 => set (s := s0) in * end.
  assert (live now' s = true) as Hlive.
  { unfold live, s. simpl. destruct (Z.ltb_spec 0 (ks_ttl c)); [|lia].
    apply negb_true_iff, andb_false_iff. right. apply Z.leb_gt. lia. }
  rewrite Hon1, Hvs, Hlive in Hperm. change (st_doc s) with doc in Hperm. rewrite Hdec in Hperm.
  eexists c1, c2, _. split; [done|]. split; [exact Hperm|].
  pose proof (has_token_spec (concat bs) p Hp) as Hspec.
  assert ((if has_token (sep_by comma (concat bs)) p then AUTHZ_OK else AUTHZ_ERR_DENIED) = AUTHZ_OK <->
          has_token (sep_by comma (concat bs)) p = true) as Hr by (destruct (has_token _ p); split; congruence).
  split; [by rewrite Hr|]. split; [|split].
  - intros Hnc. rewrite Hr, Hspec. rewrite List.Forall_forall in Hnc, Hcs. split.
    + intros (row & codes & Hin & Hc & Hpc). rewrite (one_code row codes (Hnc _ Hin) (Hcs _ Hin) Hc) in Hpc. by destruct Hpc as [<-|[]].
    + intros Hin. exists p, [p]. split; [done|]. split; [split; [done|constructor; [by apply Hnc|constructor]]|by left].
  - destruct (has_token _ p); auto.
  - intros k. rewrite Hv2. destruct (ks_view c1 k) as [s'|] eqn:Ek; [|done].
    destruct (decide (k = sid)) as [->|]; [|done]. rewrite Hon1. assert (s' = s) as -> by congruence.
    by rewrite Hlive.
Qed.

(** A row of the column PERMISSION_CODE, any text of up to 100 characters,
    that has a comma: the code it holds is denied, its parts are granted. *)
Definition comma_built : option cache :=
  fst (authz_build_permission_cache true (fun _ => true) 5 1000 (Some demo) (Some (str "sid")) 7 (Some (1, FetchRows [str "A,ADMIN"] FetchEnd))).

Example comma_in_code_grants_parts :
  option_map snd (authz_has_permission 1010 2 comma_built (Some (str "sid")) (Some (str "ADMIN"))) = Some AUTHZ_OK /\
  option_map snd (authz_has_permission 1010 2 comma_built (Some (str "sid")) (Some (str "A,ADMIN"))) = Some AUTHZ_ERR_DENIED.
Proof. split; vm_compute; reflexivity. Qed.

Definition demo_rows : list (list (list ascii)) :=
  [[str "CUSTOMER.READALL"; str "ORDER.READ"]; [str "ORDER.WRITE"]].

Lemma authz_grants_exactly_witness :
  exists c1 c2, authz_build_permission_cache true (fun _ => true) 5 1000 (Some demo) (Some (str "sid")) 7
                  (Some (1, cursor_of demo_rows)) = (Some c1, AUTHZ_OK) /\
    authz_has_permission 1010 2 (Some c1) (Some (str "sid")) (Some (str "CUSTOMER.READ"))
      = Some (Some c2, AUTHZ_ERR_DENIED).
Proof.
  destruct (authz_grants_exactly demo 5 1000 1010 2 7 (str "sid") (str "CUSTOMER.READ") demo_rows
    (reachable_inv demo (demo_reachable [] I ltac:(by eexists))) eq_refl
    ltac:(vm_compute; by intros ?%elem_of_nil) ltac:(lia) ltac:(lia) ltac:(vm_compute; reflexivity)
    ltac:(by intros s Hs; vm_compute in Hs) ltac:(done) ltac:(done) ltac:(lia)
    ltac:(by repeat constructor) ltac:(repeat constructor; done) ltac:(done)
    ltac:(apply Nat.ltb_lt; vm_compute; reflexivity)) as (c1 & c2 & r & H1 & H2 & _ & Hin & [-> | ->] & _).
  - specialize (Hin ltac:(repeat constructor)). exfalso. destruct (proj1 Hin eq_refl) as [E|[E|[E|[]]]]; vm_compute in E; discriminate E.
  - by exists c1, c2.
Defined.

(** Authorisation fails closed and never touches freed memory.  Whatever
    the store holds, [authz_has_permission] of a proper session id and code
    returns; it grants only when the permission cache exists and is on, holds
    an unexpired document for that session, the document decodes and the code
    is one of its tokens; every other case is a denial. *)
Theorem authz_fails_closed {C : Type} {K : KeyedStore C} (c : option C) (now us : Z) (sid p : list ascii) :
  (match c with Some c => ks_ok c | None => True end) -> 0 <= now -> sid <> [] -> p <> [] ->
  exists c' r, authz_has_permission now us c (Some sid) (Some p) = Some (c', r) /\
    (r = AUTHZ_OK <-> exists c0 s l, c = Some c0 /\ ks_on c0 = true /\ ks_view c0 sid = Some s /\ live now s = true /\
       authz_cache_decode (Some (st_doc s)) AUTHZ_PERMISSION_LIST_BUF_SIZE = Some l /\ In p (tokens comma l)) /\
    (r <> AUTHZ_OK -> r = AUTHZ_ERR_DENIED).
Proof.
  intros Hok Hn Hs Hp. destruct c as [c|].
  2:{ exists None, AUTHZ_ERR_DENIED. split; [by destruct sid, p|]. split; [|done].
      split; [done|]. by intros (c0 & ? & ? & ? & _). }
  destruct (has_permission_spec now us c sid p Hok Hn Hs Hp) as (c' & _ & _ & ->).
  eexists _, _. split; [done|].
  destruct (ks_on c) eqn:Eon; [destruct (ks_view c sid) as [s|] eqn:Ev; [destruct (live now s) eqn:El;
    [destruct (authz_cache_decode (Some (st_doc s)) AUTHZ_PERMISSION_LIST_BUF_SIZE) as [l|] eqn:Ed;
      [destruct (has_token l p) eqn:Et|]|]|]|];
    (split; [split; [try done | intros (c0 & s' & l' & Hc & ? & ? & ? & Hd' & Hin)] | done]); try congruence.
  - intros _. exists c, s, l. split_and!; try done. by apply has_token_in.
  - exfalso. injection Hc as <-. assert (s' = s) as -> by congruence. assert (l' = l) as -> by congruence.
    apply has_token_in in Hin. congruence.
Qed.

Lemma authz_fails_closed_witness :
  exists c' r, authz_has_permission 1000 1 (Some demo) (Some (str "nobody")) (Some (str "X")) = Some (c', r) /\
               r = AUTHZ_ERR_DENIED.
Proof.
  destruct (authz_fails_closed (Some demo) 1000 1 (str "nobody") (str "X")
    (reachable_inv demo (demo_reachable [] I ltac:(by eexists))) ltac:(lia) ltac:(done) ltac:(done))
    as (c' & r & H & Hiff & Hden).
  exists c', r. split; [done|]. apply Hden. intros ->.
  destruct (proj1 Hiff eq_refl) as (c0 & s & l & Hc & _ & Hv & _). injection Hc as <-. vm_compute in Hv. discriminate Hv.
Defined.

(** The permission list never holds part of a code.  Whatever the rows,
    the list is a prefix of them joined by commas, shorter than its buffer,
    and the next code would not have fitted. *)
Theorem permission_list_whole_codes (bs : list (list (list ascii))) :
  Forall (fun b => b <> []) bs -> Forall code_ok (concat bs) ->
  exists n, fetch_all [] (cursor_of bs) = (sep_by comma (take n (concat bs)), false) /\
    (length (sep_by comma (take n (concat bs))) < AUTHZ_PERMISSION_LIST_BUF_SIZE)%nat /\
    ((n < length (concat bs))%nat ->
       (AUTHZ_PERMISSION_LIST_BUF_SIZE <= length (sep_by comma (take (S n) (concat bs))))%nat).
Proof.
  intros Hne Hc. apply (fetch_all_spec [] bs); [by constructor | done | done |].
  unfold AUTHZ_PERMISSION_LIST_BUF_SIZE. simpl. lia.
Qed.

Lemma permission_list_whole_codes_witness :
  exists n, fetch_all [] (cursor_of demo_rows) = (sep_by comma (take n (concat demo_rows)), false).
Proof.
  destruct (permission_list_whole_codes demo_rows ltac:(by repeat constructor)
              ltac:(repeat constructor; done)) as (n & H & _). by exists n.
Defined.
