(* ===== verification/SqlDependency.v ===== *)
(** * SqlDependency: the tables and fields of a SELECT

    Models src/src/core/level 2/sql_dependency_extractor.c, and the loop of
    src/src/execute/Execute_Query_Batch_Module.c that writes the tables of a
    statement into the dependency tag of its cached result.  A pointer into a
    text is the pair of what lies before it and the suffix it points at; the
    cursor that walks over the JOINs takes fuel, one unit per character being
    enough ([join_loop_fuel]).  Log lines are left out; [dep_fail] is the
    error with its reason. *)

From Stdlib Require Import Ascii String ZArith Lia Bool.
From stdpp Require Import base list strings numbers.
From S2P Require Import Prelude Text.

#[local] Open Scope nat_scope.
#[local] Open Scope c_scope.

(** ** Data *)

Definition NORM_SQL_MAX : nat := Z.to_nat 8192.
Definition SQL_DEP_MAX_OBJECTS : nat := 64.
Definition SQL_DEP_MAX_FIELDS : nat := 256.

Inductive field_expansion :=
| SQL_FIELD_NORMAL
| SQL_FIELD_WILDCARD_ALL
| SQL_FIELD_WILDCARD_TBL
| SQL_FIELD_UNQUALIFIED.

#[export] Instance field_expansion_eq_dec : EqDecision field_expansion.
Proof. solve_decision. Defined.

(** [object_type] is SQL_OBJ_TYPE_TABLE and [field_pos] 0 in every entry the
    extractor writes. *)
Record OBJECT_REF := mk_object {
  owner : list ascii;
  object_name : list ascii;
  alias : list ascii }.

Record FIELD_REF := mk_field {
  table_ref : list ascii;
  field_name : list ascii;
  field_alias : list ascii;
  field_pos : nat;
  expansion_type : field_expansion }.

Record DEPENDENCY_LIST := mk_deps {
  objects : list OBJECT_REF;
  fields : list FIELD_REF;
  needs_expansion : bool }.

#[export] Instance OBJECT_REF_eq_dec : EqDecision OBJECT_REF.
Proof. solve_decision. Defined.

(** [strncpy(dst, s, sizeof(dst) - 1)] into a zeroed buffer of [n] bytes. *)
Definition fit (n : nat) (s : list ascii) : list ascii := take (n - 1) s.

Definition is_blank (c : ascii) : bool := Ascii.eqb c " ".
Definition is_empty (s : list ascii) : bool := match s with [] => true | _ => false end.

(** ** Stage 1: normalisation *)

(** [wi] characters have been written, [out] is their reverse. *)
Fixpoint normalise_loop (out_max : nat) (sql : list ascii) (wi : nat) (in_space : bool)
    (out : list ascii) : list ascii :=
  match sql with
  | [] => out
  | c :: sql' =>
      if wi <? out_max - 1 then
        if isspace c then
          if negb in_space then normalise_loop out_max sql' (S wi) true (" "%char :: out)
          else normalise_loop out_max sql' wi in_space out
        else normalise_loop out_max sql' (S wi) false (toupper c :: out)
      else out
  end.

(** Trailing blanks, one semicolon, trailing blanks again. *)
Definition strip_end (out : list ascii) : list ascii :=
  let out := skip is_blank out in
  let out := match out with c :: out' => if Ascii.eqb c ";" then out' else out | [] => [] end in
  skip is_blank out.

Definition normalise_sql (sql : list ascii) (out_max : nat) : option (list ascii) :=
  if out_max <? 2 then None else Some (rev (strip_end (normalise_loop out_max sql 0 true []))).

(** ** Utilities *)

Definition trim_token (s : list ascii) : list ascii := rskip is_blank (skip is_blank s).

Definition word_char (c : ascii) : bool := isalnum c || Ascii.eqb c "_".
Definition starts_word (s : list ascii) : bool := match s with c :: _ => word_char c | [] => false end.

(** The first occurrence of [kw] with no word character on either side, as
    what lies before it and the suffix it starts; [prev]: the character before
    [s] is one. *)
Fixpoint find_kw (prev : bool) (kw s : list ascii) : option (list ascii * list ascii) :=
  if prefix_b kw s && negb prev && negb (starts_word (drop (length kw) s)) then Some ([], s)
  else match s with
       | [] => None
       | c :: s' => match find_kw (word_char c) kw s' with
                    | Some (b, r) => Some (c :: b, r)
                    | None => None
                    end
       end.
Definition find_keyword (s kw : list ascii) : option (list ascii * list ascii) := find_kw false kw s.

(** The loops that keep the earliest of several keywords. *)
Definition earlier (found best : option (list ascii * list ascii)) : option (list ascii * list ascii) :=
  match found, best with
  | Some (b, _), Some (b', _) => if length b <? length b' then found else best
  | Some _, None => found
  | None, _ => best
  end.
Definition earliest (kws : list (list ascii)) (s : list ascii) : option (list ascii * list ascii) :=
  foldl (fun best kw => earlier (find_keyword s kw) best) None kws.

Fixpoint split_tokens (max_tokens : nat) (p : list ascii) : list (list ascii) :=
  match max_tokens with
  | O => []
  | S m =>
      match skip is_blank p with
      | [] => []
      | p' => match split_at "," p' with
              | None => [p']
              | Some (tok, rest) => tok :: split_tokens m rest
              end
      end
  end.
Definition split_on_comma (buf : list ascii) (max_tokens : nat) : list (list ascii) :=
  map trim_token (split_tokens max_tokens buf).

(** ** Stage 4: one SELECT field *)

Definition has_paren (s : list ascii) : bool :=
  existsb (fun c => Ascii.eqb c "(" || Ascii.eqb c ")") s.

(** NAME, NAME AS ALIAS, NAME ALIAS: the name and the alias, [None] when the
    name is empty or does not fit. *)
Definition name_and_alias (s : list ascii) : option (list ascii * list ascii) :=
  match find_keyword s (str "AS") with
  | Some (before, from) =>
      let name := rskip is_blank before in
      if (length name =? 0) || (128 <=? length name) then None
      else Some (name, fit 128 (skip is_blank (drop 2 from)))
  | None =>
      match split_at " " s with
      | Some (name, rest) =>
          if (length name =? 0) || (128 <=? length name) then None
          else Some (name, fit 128 (skip is_blank rest))
      | None => Some (fit 128 s, [])
      end
  end.

Definition parse_field_token (token : list ascii) (pos : nat) (single_table_ref : option (list ascii))
    : option FIELD_REF :=
  if str_eqb token (str "*") then Some (mk_field [] (str "*") [] pos SQL_FIELD_WILDCARD_ALL)
  else if has_paren token then None
  else
    match split_at "." token with
    | None =>
        match single_table_ref with
        | None => None
        | Some ref =>
            match name_and_alias token with
            | None => None
            | Some (name, al) =>
                let name := trim_token name in
                if is_empty name then None
                else Some (mk_field (fit 64 ref) name al pos SQL_FIELD_UNQUALIFIED)
            end
        end
    | Some (ref, after_dot) =>
        if (length ref =? 0) || (64 <=? length ref) then None
        else
          match after_dot with
          | [] => None
          | c :: rest =>
              if Ascii.eqb c "*" && match rest with [] => true | d :: _ => is_blank d end
              then Some (mk_field ref (str "*") [] pos SQL_FIELD_WILDCARD_TBL)
              else
                match name_and_alias after_dot with
                | None => None
                | Some (name, al) =>
                    let name := trim_token name in
                    if is_empty name then None else Some (mk_field ref name al pos SQL_FIELD_NORMAL)
                end
          end
    end.

(** ** Stage 6: the tables of the FROM clause *)

Definition parse_table_token (token : list ascii) : option OBJECT_REF :=
  if is_empty token then None
  else if has_paren token then None
  else
    let work := fit 512 token in
    let '(work, alias_start) :=
      match find_keyword work (str "AS") with
      | Some (before, from) => (trim_token before, skip is_blank (drop 2 from))
      | None => match split_at " " work with
                | Some (before, rest) => (trim_token before, skip is_blank rest)
                | None => (work, [])
                end
      end in
    match split_at "." work with
    | Some (own, name) =>
        if (length own =? 0) || (64 <=? length own) then None
        else let name := trim_token (fit 128 name) in
             if is_empty name then None else Some (mk_object own name (fit 64 alias_start))
    | None =>
        let name := trim_token (fit 128 work) in
        if is_empty name then None else Some (mk_object [] name (fit 64 alias_start))
    end.

Definition JOIN_KWS : list (list ascii) :=
  [str "INNER JOIN"; str "LEFT OUTER JOIN"; str "RIGHT OUTER JOIN"; str "FULL OUTER JOIN";
   str "CROSS JOIN"; str "LEFT JOIN"; str "RIGHT JOIN"; str "FULL JOIN"; str "JOIN"].
Definition STOP_KWS : list (list ascii) :=
  JOIN_KWS ++ [str "ON"; str "USING"; str "WHERE"; str "GROUP"; str "ORDER"; str "HAVING"].

(** A token that is not a table reference is passed over. *)
Definition add_object (objs : list OBJECT_REF) (token : list ascii) : list OBJECT_REF :=
  if negb (is_empty token) && (length objs <? SQL_DEP_MAX_OBJECTS) then
    match parse_table_token token with Some o => objs ++ [o] | None => objs end
  else objs.
Definition add_objects (objs : list OBJECT_REF) (seg : list ascii) : list OBJECT_REF :=
  foldl add_object objs (split_on_comma seg SQL_DEP_MAX_OBJECTS).

(** The first keyword of the table the cursor is at: its length. *)
Fixpoint matched_kw (kws : list (list ascii)) (cursor : list ascii) : option nat :=
  match kws with
  | [] => None
  | kw :: kws' =>
      if prefix_b kw cursor && match drop (length kw) cursor with [] => true | c :: _ => is_blank c end
      then Some (length kw) else matched_kw kws' cursor
  end.

Fixpoint join_loop (fuel : nat) (cursor : list ascii) (objs : list OBJECT_REF) : list OBJECT_REF :=
  match fuel with
  | O => objs
  | S fuel' =>
      match matched_kw JOIN_KWS cursor with
      | None => objs
      | Some len =>
          let cursor := skip is_blank (drop len cursor) in
          match earliest STOP_KWS cursor with
          | Some (before, rest) =>
              let tok := if length before <? 512 then trim_token before else [] in
              let next :=
                if prefix_b (str "ON") rest || prefix_b (str "USING") rest
                then match earliest JOIN_KWS rest with Some (_, r) => r | None => [] end
                else rest in
              join_loop fuel' next (add_object objs tok)
          | None => add_object objs (trim_token (fit 512 cursor))
          end
      end
  end.

Definition extract_join_tables (from_seg : list ascii) : list OBJECT_REF :=
  let work := fit NORM_SQL_MAX from_seg in
  match earliest JOIN_KWS work with
  | None => add_objects [] work
  | Some (base, first_join) =>
      join_loop (S (length first_join)) first_join (add_objects [] (trim_token base))
  end.

(** ** The entry point *)

Fixpoint parse_fields (i : nat) (tokens : list (list ascii)) (single : option (list ascii))
    (acc : list FIELD_REF) : res string (list FIELD_REF) :=
  match tokens with
  | [] => Ok acc
  | tok :: tokens' =>
      if is_empty tok then parse_fields (S i) tokens' single acc
      else match parse_field_token tok (S i) single with
           | None => Err "SELECT clause field does not meet format requirements."%string
           | Some f =>
               check (length acc <? SQL_DEP_MAX_FIELDS) else "Too many fields in SELECT clause."%string ;;
               parse_fields (S i) tokens' single (acc ++ [f])
           end
  end.

Definition CLAUSE_KWS : list (list ascii) := [str "WHERE"; str "GROUP BY"; str "ORDER BY"; str "HAVING"].

Definition is_some {A} (o : option A) : bool := match o with Some _ => true | None => false end.

Definition single_ref (objs : list OBJECT_REF) : option (list ascii) :=
  match objs with
  | [o] => Some (if is_empty (alias o) then object_name o else alias o)
  | _ => None
  end.

Definition extract_sql_dependencies (sql : option (list ascii)) : res string DEPENDENCY_LIST :=
  match sql with
  | None => Err "NULL sql or deps pointer"%string
  | Some sql =>
      match normalise_sql sql NORM_SQL_MAX with
      | None => Err "SQL too long or normalisation failed"%string
      | Some norm =>
          check (prefix_b (str "SELECT ") norm) else
            "SQL does not begin with SELECT. Only SELECT statements are supported."%string ;;
          match find_keyword norm (str "FROM") with
          | None => Err "SQL has no FROM clause."%string
          | Some (before, from) =>
              check (negb (is_some (find_keyword norm (str "UNION")) ||
                           is_some (find_keyword norm (str "INTERSECT")) ||
                           is_some (find_keyword norm (str "EXCEPT")))) else
                "UNION, INTERSECT and EXCEPT are not supported. Wrap in a stored procedure or view."%string ;;
              let select_clause := rskip is_blank (drop 7 before) in
              check (negb (is_empty select_clause)) else "SELECT clause is empty."%string ;;
              let from_body := skip is_blank (drop 4 from) in
              let from_clause :=
                match earliest CLAUSE_KWS from_body with
                | Some (b, _) => rskip is_blank b
                | None => trim_token (fit NORM_SQL_MAX from_body)
                end in
              check (negb (is_empty from_clause)) else "FROM clause is empty."%string ;;
              let objs := extract_join_tables from_clause in
              check (negb (length objs =? 0)) else "No table references found in FROM clause."%string ;;
              let tokens := split_on_comma (fit NORM_SQL_MAX select_clause) SQL_DEP_MAX_FIELDS in
              check (negb (length tokens =? 0)) else "No fields found in SELECT clause."%string ;;
              let! fs := parse_fields 0 tokens (single_ref objs) [] in
              Ok (mk_deps objs fs
                    (existsb (fun f => negb (bool_decide (expansion_type f = SQL_FIELD_NORMAL))) fs))
          end
      end
  end.

(** ** The dependency tag of a cached result *)

Definition tag_step (tag name : list ascii) : list ascii :=
  if is_empty name then tag
  else
    let tag := if (0 <? length tag) && (length tag <? 511) then tag ++ str "," else tag in
    tag ++ take (512 - length tag - 1) name.
Definition table_tag (deps : DEPENDENCY_LIST) : list ascii := foldl tag_step [] (map object_name (objects deps)).

(** Concrete statements. *)
Definition tables_of (sql : string) : option (list (list ascii)) :=
  match extract_sql_dependencies (Some (str sql)) with Ok d => Some (map object_name (objects d)) | Err _ => None end.

Example tables_join :
  tables_of "select o.id, c.name from sales.orders o left outer join customers c on o.cid = c.id where o.x = 1;"
  = Some [str "ORDERS"; str "CUSTOMERS"].
Proof. vm_compute; reflexivity. Qed.

Example tables_comma : tables_of "SELECT * FROM a, b AS bb , c" = Some [str "A"; str "B"; str "C"].
Proof. vm_compute; reflexivity. Qed.

(** A table listed after a join's condition is not seen. *)
Example tables_join_then_comma : tables_of "SELECT a.x FROM a JOIN b ON a.i = b.i, c" = Some [str "A"; str "B"].
Proof. vm_compute; reflexivity. Qed.

(** A token that is not understood is left out, the statement is accepted. *)
Example tables_subquery : tables_of "SELECT a.x FROM a, (SELECT y FROM secret) s" = Some [str "A"].
Proof. vm_compute; reflexivity. Qed.

(** ** Keyword search: lemmas *)

Section keyword_search.
Implicit Types (w x y s kw : list ascii) (c : ascii).

Definition wordy (w : list ascii) : Prop := w <> [] /\ Forall (fun c => word_char c = true) w.

(** The words a keyword starts with: the characters before its first blank. *)
Definition kw_head (kw : list ascii) : list ascii := span word_char kw.
Definition is_kw (kw : list ascii) : Prop := kw_head kw <> [].

Lemma prefix_b_app w x : prefix_b w (w ++ x) = true.
Proof. apply prefix_b_spec. by exists x. Qed.

Definition at_kw (prev : bool) (kw s : list ascii) : bool :=
  prefix_b kw s && negb prev && negb (starts_word (drop (length kw) s)).

Lemma find_kw_here prev kw s : at_kw prev kw s = true -> find_kw prev kw s = Some ([], s).
Proof. unfold at_kw. destruct s; simpl find_kw; by intros ->. Qed.

Lemma find_kw_step prev kw c s :
  at_kw prev kw (c :: s) = false ->
  find_kw prev kw (c :: s) = match find_kw (word_char c) kw s with Some (b, r) => Some (c :: b, r) | None => None end.
Proof. unfold at_kw. cbn [find_kw]. by intros ->. Qed.

Lemma find_kw_None_step prev kw c s :
  find_kw prev kw (c :: s) = None <-> at_kw prev kw (c :: s) = false /\ find_kw (word_char c) kw s = None.
Proof.
  destruct (at_kw prev kw (c :: s)) eqn:E.
  - rewrite find_kw_here by done. by split; [|intros [? _]].
  - rewrite find_kw_step by done. destruct (find_kw _ kw s) as [[b r]|]; split; [done|by intros [_ ?]|done|done].
Qed.

Lemma kw_not_nil kw : is_kw kw -> exists c kw', kw = c :: kw' /\ word_char c = true.
Proof.
  unfold is_kw, kw_head. destruct kw as [|c kw]; [done|]. simpl. destruct (word_char c) eqn:E; [|done]. eauto.
Qed.

Lemma find_kw_nil prev kw : is_kw kw -> find_kw prev kw [] = None.
Proof. intros (c & kw' & -> & _)%kw_not_nil. done. Qed.

Lemma at_kw_nonword prev kw c s : is_kw kw -> word_char c = false -> at_kw prev kw (c :: s) = false.
Proof.
  intros (d & kw' & -> & Hd)%kw_not_nil Hc. unfold at_kw. simpl.
  destruct (Ascii.eqb_spec d c) as [->|]; [congruence|done].
Qed.

(** A match of a keyword is a match of its first word. *)
Lemma at_kw_spec prev kw s :
  at_kw prev kw s = true <-> exists k, s = kw ++ k /\ prev = false /\ starts_word k = false.
Proof.
  unfold at_kw. rewrite !andb_true_iff, !negb_true_iff, prefix_b_spec. split.
  - intros [[[k ->] Hp] Hs]. rewrite drop_app_length in Hs. by exists k.
  - intros (k & -> & Hp & Hs). rewrite drop_app_length. split; [|done]. split; [by exists k|done].
Qed.

Lemma at_kw_head prev kw s : at_kw prev kw s = true -> at_kw prev (kw_head kw) s = true.
Proof.
  rewrite !at_kw_spec. intros (k & -> & -> & Hk). exists (skip word_char kw ++ k).
  unfold kw_head. rewrite app_assoc, span_skip. split; [done|]. split; [done|].
  pose proof (skip_nohead word_char kw) as Hn. by destruct (skip word_char kw).
Qed.

(** What stands before a character that is no word character hides nothing. *)
Lemma at_kw_app prev w x c y :
  wordy w -> word_char c = false -> at_kw prev w (x ++ c :: y) = at_kw prev w x.
Proof.
  intros [Hne Hw] Hc. unfold at_kw.
  assert (prefix_b w (x ++ c :: y) = prefix_b w x) as Hp.
  { clear Hne. revert x. induction Hw as [|d w Hd Hw IH]; intros x; [by destruct x|].
    destruct x as [|e x]; simpl.
    - destruct (Ascii.eqb_spec d c) as [->|]; [congruence|done].
    - by rewrite IH. }
  rewrite Hp. destruct (prefix_b w x) eqn:E; [|done].
  apply prefix_b_spec in E as [k ->]. simpl. f_equal. f_equal. rewrite <- app_assoc, !drop_app_length.
  by destruct k.
Qed.

Lemma find_kw_clear_app prev kw x c y :
  is_kw kw -> word_char c = false -> find_kw prev (kw_head kw) x = None ->
  find_kw prev kw (x ++ c :: y) =
    match find_kw false kw y with Some (b, r) => Some (x ++ c :: b, r) | None => None end.
Proof.
  intros Hk Hc. assert (wordy (kw_head kw)) as Hw by (split; [exact Hk | apply span_Forall]).
  revert prev. induction x as [|d x IH]; intros prev Hx; cbn [app].
  - rewrite find_kw_step by (by apply at_kw_nonword). by rewrite Hc.
  - apply find_kw_None_step in Hx as [Hat Hx].
    pose proof (at_kw_app prev (kw_head kw) (d :: x) c y Hw Hc) as Ha. cbn [app] in Ha.
    rewrite find_kw_step by (apply not_true_iff_false; intros Hm%at_kw_head; congruence).
    rewrite IH by done.
    by destruct (find_kw false kw y) as [[b r]|].
Qed.

Lemma find_kw_no_head prev kw s : is_kw kw -> find_kw prev (kw_head kw) s = None -> find_kw prev kw s = None.
Proof.
  intros Hk. revert prev. induction s as [|c s IH]; intros prev H; [by apply find_kw_nil|].
  apply find_kw_None_step in H as [Hat H]. apply find_kw_None_step. split; [|by apply IH].
  apply not_true_iff_false. intros Hm. apply at_kw_head in Hm. congruence.
Qed.

(** [s] has no word [w]. *)
Definition no_word (s w : list ascii) : Prop := find_keyword s w = None.

Lemma span_wordy f s : Forall (fun c => f c = true) s -> span f s = s.
Proof. induction 1 as [|c s E _ IH]; simpl; [done|]. by rewrite E, IH. Qed.

Lemma kw_head_wordy w : wordy w -> kw_head w = w.
Proof. intros [_ H]. by apply span_wordy. Qed.
Lemma is_kw_wordy w : wordy w -> is_kw w.
Proof. intros Hw. unfold is_kw. rewrite kw_head_wordy by done. apply Hw. Qed.

Lemma no_word_app w x c y : wordy w -> word_char c = false -> no_word x w -> no_word y w -> no_word (x ++ c :: y) w.
Proof.
  unfold no_word, find_keyword. intros Hw Hc Hx Hy.
  rewrite find_kw_clear_app by (done || (by apply is_kw_wordy) || by rewrite kw_head_wordy). by rewrite Hy.
Qed.

Lemma find_kw_inside w i : wordy w -> Forall (fun c => word_char c = true) i -> find_kw true w i = None.
Proof.
  intros Hw. induction 1 as [|c i Hc _ IH]; [by apply find_kw_nil, is_kw_wordy|].
  apply find_kw_None_step. unfold at_kw. rewrite andb_false_r, Hc. done.
Qed.

Lemma no_word_ident w i : wordy w -> wordy i -> i <> w -> no_word i w.
Proof.
  intros Hw [Hne Hi] Hd. unfold no_word, find_keyword. destruct Hi as [|c i Hc Hi]; [done|].
  apply find_kw_None_step. rewrite Hc. split; [|by apply find_kw_inside].
  apply not_true_iff_false. rewrite at_kw_spec. intros (k & E & _ & Hk). apply Hd. rewrite E.
  assert (Forall (fun c => word_char c = true) (w ++ k)) as HF by (rewrite <- E; by constructor).
  apply Forall_app in HF as [_ HF]. destruct k as [|d k]; [by rewrite app_nil_r|].
  apply Forall_cons_1 in HF as [HF _]. simpl in Hk. congruence.
Qed.
End keyword_search.

(** ** The earliest of several keywords: lemmas *)

Section earliest.
Implicit Types (x y s kw : list ascii) (kws : list (list ascii)) (c : ascii).

Lemma find_kw_split prev kw s b r : find_kw prev kw s = Some (b, r) -> s = b ++ r.
Proof.
  revert prev b. induction s as [|c s IH]; intros prev b.
  - simpl. destruct (_ && _); [|done]. by intros [= <- <-].
  - destruct (at_kw prev kw (c :: s)) eqn:E; [rewrite find_kw_here by done; by intros [= <- <-]|].
    rewrite find_kw_step by done. destruct (find_kw _ kw s) as [[b' r']|] eqn:E'; [|done].
    intros [= <- ->]. simpl. f_equal. by eapply IH.
Qed.

(** None of the keywords, nor its first word, is in [s]. *)
Definition no_heads kws s : Prop := Forall (fun kw => is_kw kw /\ no_word s (kw_head kw)) kws.

Definition after_text x c (o : option (list ascii * list ascii)) : option (list ascii * list ascii) :=
  match o with Some (b, r) => Some (x ++ c :: b, r) | None => None end.

Lemma earlier_after x c o o' : earlier (after_text x c o) (after_text x c o') = after_text x c (earlier o o').
Proof.
  destruct o as [[b r]|], o' as [[b' r']|]; simpl; try done. rewrite !length_app. simpl.
  destruct (Nat.ltb_spec (length b) (length b')), (Nat.ltb_spec (length x + S (length b)) (length x + S (length b')));
    done || lia.
Qed.

Lemma earliest_after kws x c y :
  word_char c = false -> no_heads kws x -> earliest kws (x ++ c :: y) = after_text x c (earliest kws y).
Proof.
  intros Hc H. unfold earliest.
  enough (forall o, foldl (fun best kw => earlier (find_keyword (x ++ c :: y) kw) best) (after_text x c o) kws =
                    after_text x c (foldl (fun best kw => earlier (find_keyword y kw) best) o kws)) as Hg
    by exact (Hg None).
  induction H as [|kw kws [Hk Hx] _ IH]; intros o; simpl; [done|].
  rewrite <- IH. f_equal. rewrite <- earlier_after. f_equal. by apply find_kw_clear_app.
Qed.

Lemma earliest_None kws s : no_heads kws s -> earliest kws s = None.
Proof.
  intros H. unfold earliest. induction H as [|kw kws [Hk Hx] _ IH]; simpl; [done|].
  unfold find_keyword. rewrite find_kw_no_head by done. exact IH.
Qed.

Lemma earliest_here kws s :
  Exists (fun kw => at_kw false kw s = true) kws -> earliest kws s = Some ([], s).
Proof.
  unfold earliest.
  assert (forall kws', foldl (fun best kw => earlier (find_keyword s kw) best) (Some ([], s)) kws' = Some ([], s)) as Hkeep.
  { induction kws' as [|kw kws' IH]; simpl; [done|].
    destruct (find_keyword s kw) as [[b r]|]; simpl; [|done]. destruct (Nat.ltb_spec (length b) 0); [lia|done]. }
  enough (forall best, match best with Some (b, r) => s = b ++ r | None => True end ->
            Exists (fun kw => at_kw false kw s = true) kws ->
            foldl (fun best kw => earlier (find_keyword s kw) best) best kws = Some ([], s)) as Hg
    by (intros H; by apply (Hg None)).
  induction kws as [|kw kws IH]; intros best Hb H; [by apply Exists_nil in H|]. simpl.
  apply Exists_cons in H as [H|H].
  - unfold find_keyword at 2. rewrite find_kw_here by done.
    assert (earlier (Some ([], s)) best = Some ([], s)) as ->; [|apply Hkeep].
    destruct best as [[[|d b] r]|]; simpl in *; [by subst|done|done].
  - apply IH; [|done]. destruct (find_keyword s kw) as [[b r]|] eqn:E; simpl; [|by destruct best as [[? ?]|]].
    apply find_kw_split in E. destruct best as [[b' r']|]; [|done]. by destruct (_ <? _).
Qed.
End earliest.

(** ** Texts without blanks at their ends *)

Section tight.
Implicit Types (s x y : list ascii).

Definition tight_l s : Prop := match s with c :: _ => is_blank c = false | [] => False end.
Definition tight_r s : Prop := match rev s with c :: _ => is_blank c = false | [] => False end.

Lemma tight_l_app x y : tight_l x -> tight_l (x ++ y).
Proof. by destruct x. Qed.
Lemma tight_r_app x y : tight_r y -> tight_r (x ++ y).
Proof. unfold tight_r. rewrite rev_app_distr. by destruct (rev y). Qed.
Lemma skip_tight s : tight_l s -> skip is_blank s = s.
Proof. destruct s as [|c s]; [done|]. apply skip_id. Qed.
Lemma rskip_tight s : tight_r s -> rskip is_blank s = s.
Proof.
  unfold tight_r, rskip. intros H. destruct (rev s) as [|c r] eqn:E; [done|].
  rewrite skip_id, <- E, rev_involutive by done. done.
Qed.
Lemma rskip_blank s : tight_r s -> rskip is_blank (s ++ str " ") = s.
Proof.
  intros H. unfold rskip. rewrite rev_app_distr. cbn [rev app str String.list_ascii_of_string skip].
  change (is_blank " ") with true. cbn iota. exact (rskip_tight s H).
Qed.
Lemma trim_tight s : tight_l s -> tight_r s -> trim_token s = s.
Proof. intros Hl Hr. unfold trim_token. by rewrite skip_tight, rskip_tight. Qed.
Lemma trim_blank s : tight_l s -> tight_r s -> trim_token (s ++ str " ") = s.
Proof.
  intros Hl Hr. unfold trim_token. rewrite skip_tight by by apply tight_l_app. by apply rskip_blank.
Qed.

Lemma word_char_plain c :
  word_char c = true ->
  is_blank c = false /\ Ascii.eqb c "." = false /\ Ascii.eqb c "," = false /\ Ascii.eqb c "*" = false /\
  (Ascii.eqb c "(" || Ascii.eqb c ")") = false.
Proof. all_ascii c. Qed.

Lemma wordy_tight w : wordy w -> tight_l w /\ tight_r w.
Proof.
  intros [Hne Hw]. split.
  - destruct Hw as [|c w Hc _]; [done|]. by apply word_char_plain in Hc as [? _].
  - unfold tight_r. apply Forall_rev in Hw. destruct (rev w) as [|c r] eqn:E.
    + apply Hne. by rewrite <- (rev_involutive w), E.
    + apply Forall_cons_1 in Hw as [Hc _]. by apply word_char_plain in Hc as [? _].
Qed.
End tight.

(** ** A grammar of statements *)

(** An optional alias, with or without AS. *)
Definition al_text : Type := option (bool * list ascii).
Definition print_al (al : al_text) : list ascii :=
  match al with
  | None => []
  | Some (true, a) => str " AS " ++ a
  | Some (false, a) => str " " ++ a
  end.
Definition al_name (al : al_text) : list ascii := match al with Some (_, a) => a | None => [] end.

Record table_text := mk_table { t_owner : option (list ascii); t_name : list ascii; t_alias : al_text }.
Definition print_qname (t : table_text) : list ascii :=
  match t_owner t with Some o => o ++ str "." ++ t_name t | None => t_name t end.
Definition print_table (t : table_text) : list ascii := print_qname t ++ print_al (t_alias t).
Definition table_object (t : table_text) : OBJECT_REF :=
  mk_object (default [] (t_owner t)) (t_name t) (al_name (t_alias t)).

Inductive field_text :=
| FStar
| FTableStar (ref : list ascii)
| FQualified (ref name : list ascii) (al : al_text)
| FUnqualified (name : list ascii) (al : al_text).

Definition print_field (f : field_text) : list ascii :=
  match f with
  | FStar => str "*"
  | FTableStar r => r ++ str ".*"
  | FQualified r n al => r ++ str "." ++ n ++ print_al al
  | FUnqualified n al => n ++ print_al al
  end.
Definition field_ref (single : option (list ascii)) (pos : nat) (f : field_text) : FIELD_REF :=
  match f with
  | FStar => mk_field [] (str "*") [] pos SQL_FIELD_WILDCARD_ALL
  | FTableStar r => mk_field r (str "*") [] pos SQL_FIELD_WILDCARD_TBL
  | FQualified r n al => mk_field r n (al_name al) pos SQL_FIELD_NORMAL
  | FUnqualified n al => mk_field (default [] single) n (al_name al) pos SQL_FIELD_UNQUALIFIED
  end.

Record join_text := mk_join { j_kw : list ascii; j_table : table_text; j_on : option (list ascii) }.
Definition print_join (j : join_text) : list ascii :=
  j_kw j ++ str " " ++ print_table (j_table j) ++
  match j_on j with Some c => str " ON " ++ c | None => [] end.

Record select_text := mk_select {
  q_fields : list field_text;
  q_base : list table_text;
  q_joins : list join_text;
  q_tail : option (list ascii * list ascii) }.     (* WHERE ..., GROUP BY ... *)

Fixpoint commas (l : list (list ascii)) : list ascii :=
  match l with
  | [] => []
  | [x] => x
  | x :: l' => x ++ str ", " ++ commas l'
  end.
Definition print_from (q : select_text) : list ascii :=
  commas (map print_table (q_base q)) ++ concat (map (fun j => str " " ++ print_join j) (q_joins q)).
Definition print_select (q : select_text) : list ascii :=
  str "SELECT " ++ commas (map print_field (q_fields q)) ++ str " FROM " ++ print_from q ++
  match q_tail q with Some (kw, t) => str " " ++ kw ++ str " " ++ t | None => [] end.

(** Identifiers: word characters, none of the extractor's keywords. *)
Definition RESERVED : list (list ascii) :=
  map kw_head (CLAUSE_KWS ++ STOP_KWS ++ [str "FROM"; str "UNION"; str "INTERSECT"; str "EXCEPT"; str "AS"]).

Definition ident_ok (i : list ascii) : bool :=
  negb (is_empty i) && forallb word_char i && (length i <? 64) && negb (bool_decide (i ∈ RESERVED)).
Definition al_ok (al : al_text) : bool := match al with Some (_, a) => ident_ok a | None => true end.
Definition table_ok (t : table_text) : bool :=
  match t_owner t with Some o => ident_ok o | None => true end && ident_ok (t_name t) && al_ok (t_alias t).
Definition field_ok (f : field_text) : bool :=
  match f with
  | FStar => true
  | FTableStar r => ident_ok r
  | FQualified r n al => ident_ok r && ident_ok n && al_ok al
  | FUnqualified n al => ident_ok n && al_ok al
  end.
(** A join condition: any text without the extractor's keywords that does not
    end in a blank. *)
Definition clean (s : list ascii) : bool := forallb (fun w => negb (is_some (find_keyword s w))) RESERVED.
Definition ends_tight (s : list ascii) : bool := match rev s with c :: _ => negb (is_blank c) | [] => false end.
Definition join_ok (j : join_text) : bool :=
  bool_decide (j_kw j ∈ JOIN_KWS) && table_ok (j_table j) &&
  match j_on j with Some c => clean c && ends_tight c | None => true end.
Definition set_ops : list (list ascii) := [str "UNION"; str "INTERSECT"; str "EXCEPT"].
Definition tail_ok (tl : option (list ascii * list ascii)) : bool :=
  match tl with
  | Some (kw, t) => bool_decide (kw ∈ CLAUSE_KWS) && forallb (fun w => negb (is_some (find_keyword t w))) set_ops
  | None => true
  end.
Definition is_unqualified (f : field_text) : bool := match f with FUnqualified _ _ => true | _ => false end.

Definition select_ok (q : select_text) : bool :=
  negb (length (q_fields q) =? 0) && (length (q_fields q) <=? SQL_DEP_MAX_FIELDS) && forallb field_ok (q_fields q) &&
  negb (length (q_base q) =? 0) && (length (q_base q) + length (q_joins q) <=? SQL_DEP_MAX_OBJECTS) &&
  forallb table_ok (q_base q) && forallb join_ok (q_joins q) && tail_ok (q_tail q) &&
  ((length (q_base q) + length (q_joins q) =? 1) || negb (existsb is_unqualified (q_fields q))).

Definition select_tables (q : select_text) : list table_text := q_base q ++ map j_table (q_joins q).

(** ** What the printed pieces do not contain *)

Section pieces.
Implicit Types (w x y s i : list ascii) (c : ascii) (al : al_text) (t : table_text) (f : field_text).

Lemma reserved_wordy w : In w RESERVED -> wordy w.
Proof.
  assert (forallb (fun w => negb (is_empty w) && forallb word_char w) RESERVED = true) as H by (vm_compute; reflexivity).
  rewrite forallb_forall in H. intros Hin. apply H in Hin. bools. split; [by destruct w|].
  apply List.Forall_forall. by apply forallb_forall.
Qed.

Lemma no_word_nil w : In w RESERVED -> no_word [] w.
Proof. intros H. apply find_kw_nil, is_kw_wordy. by apply reserved_wordy. Qed.

Lemma no_word_sep w x c y :
  In w RESERVED -> word_char c = false -> no_word x w -> no_word y w -> no_word (x ++ c :: y) w.
Proof. intros H. apply no_word_app. by apply reserved_wordy. Qed.

Lemma no_word_cons w c y : In w RESERVED -> word_char c = false -> no_word y w -> no_word (c :: y) w.
Proof. intros H Hc Hy. apply (no_word_sep w [] c y); [done|done|by apply no_word_nil|done]. Qed.

Lemma ident_ok_spec i : ident_ok i = true -> wordy i /\ (0 < length i < 64) /\ forall w, In w RESERVED -> no_word i w.
Proof.
  unfold ident_ok. intros H. bools.
  assert (wordy i) as Hw by (split; [by destruct i | by apply List.Forall_forall, forallb_forall]).
  split; [done|]. split; [destruct Hw as [Hne _]; destruct i; [done|]; simpl; apply Nat.ltb_lt in H1; simpl in H1; lia|].
  intros w Hin. apply no_word_ident; [by apply reserved_wordy|done|].
  intros ->. apply H0. by apply list_elem_of_In.
Qed.

Lemma as_no_word w : In w RESERVED -> w <> str "AS" -> no_word (str "AS") w.
Proof.
  intros H Hne. apply no_word_ident; [by apply reserved_wordy | split; [done|by repeat constructor] | congruence].
Qed.

Lemma al_no_word al x w :
  al_ok al = true -> In w RESERVED -> w <> str "AS" -> no_word x w -> no_word (x ++ print_al al) w.
Proof.
  intros Ha Hin Hne Hx. destruct al as [[[] a]|]; cbn [print_al str String.list_ascii_of_string app];
    [apply (no_word_sep w x); [done..|] | apply (no_word_sep w x); [done..|] | by rewrite app_nil_r];
    apply ident_ok_spec in Ha as (_ & _ & Ha).
  - apply (no_word_sep w (str "AS")); [done|done|by apply as_no_word|by apply Ha].
  - by apply Ha.
Qed.

Lemma qname_no_word t w : table_ok t = true -> In w RESERVED -> no_word (print_qname t) w.
Proof.
  unfold table_ok, print_qname. intros H Hin. bools. apply ident_ok_spec in H1 as (_ & _ & Hn).
  destruct (t_owner t) as [o|]; [|by apply Hn]. apply ident_ok_spec in H as (_ & _ & Ho).
  cbn [str String.list_ascii_of_string app]. apply no_word_sep; [done|done|by apply Ho|by apply Hn].
Qed.

Lemma table_no_word t w : table_ok t = true -> In w RESERVED -> w <> str "AS" -> no_word (print_table t) w.
Proof.
  intros H Hin Hne. unfold print_table. apply al_no_word; [|done|done|by apply qname_no_word].
  unfold table_ok in H. by bools.
Qed.

Lemma field_no_word f w : field_ok f = true -> In w RESERVED -> w <> str "AS" -> no_word (print_field f) w.
Proof.
  intros H Hin Hne. destruct f as [|r|r n al|n al]; cbn [print_field field_ok] in *; bools.
  - apply no_word_cons; [done|done|by apply no_word_nil].
  - apply ident_ok_spec in H as (_ & _ & Hr). apply (no_word_sep w r); [done|done|by apply Hr|].
    apply no_word_cons; [done|done|by apply no_word_nil].
  - apply ident_ok_spec in H as (_ & _ & Hr). apply ident_ok_spec in H1 as (_ & _ & Hn).
    apply (no_word_sep w r); [done|done|by apply Hr|]. apply al_no_word; auto.
  - apply ident_ok_spec in H as (_ & _ & Hn). apply al_no_word; auto.
Qed.

Lemma commas_no_word l w : In w RESERVED -> Forall (fun x => no_word x w) l -> no_word (commas l) w.
Proof.
  intros Hin. induction 1 as [|x l Hx Hl IH]; [by apply no_word_nil|]. destruct l as [|y l]; [done|].
  cbn [commas str String.list_ascii_of_string app] in *. apply no_word_sep; [done|done|done|]. by apply no_word_cons.
Qed.

(** ** The printed pieces are read back *)

Lemma wordy_no_char w d : wordy w -> word_char d = false -> no_char d w.
Proof.
  intros [_ Hw] Hd. induction Hw as [|c w Hc _ IH]; constructor; [|done].
  destruct (Ascii.eqb_spec c d) as [->|]; [congruence|done].
Qed.

Lemma no_char_app d x y : no_char d x -> no_char d y -> no_char d (x ++ y).
Proof. unfold no_char. intros. by apply Forall_app. Qed.

Lemma split_at_none d s : no_char d s -> split_at d s = None.
Proof.
  intros H. unfold split_at.
  assert (skip (fun c => negb (Ascii.eqb c d)) s = []) as ->; [|done].
  induction H as [|c s Hc _ IH]; simpl; [done|]. by rewrite Hc.
Qed.

Lemma fit_id n s : (length s < n) -> fit n s = s.
Proof. intros H. unfold fit. apply take_ge. lia. Qed.

Lemma as_found x a :
  no_word x (str "AS") -> find_keyword (x ++ str " AS " ++ a) (str "AS") = Some (x ++ str " ", str "AS " ++ a).
Proof.
  intros Hx. change (x ++ str " AS " ++ a) with (x ++ " "%char :: (str "AS " ++ a)). unfold find_keyword.
  rewrite find_kw_clear_app by (done || exact Hx). by rewrite find_kw_here.
Qed.

Lemma in_as : In (str "AS") RESERVED.
Proof. vm_compute. tauto. Qed.

Lemma name_and_alias_print n al :
  ident_ok n = true -> al_ok al = true -> name_and_alias (n ++ print_al al) = Some (n, al_name al).
Proof.
  intros Hn Ha. apply ident_ok_spec in Hn as (Hw & Hlen & Hcl).
  pose proof (wordy_tight n Hw) as [Htl Htr]. unfold name_and_alias.
  assert ((length n =? 0) || (128 <=? length n) = false) as Hl.
  { apply orb_false_intro; [apply Nat.eqb_neq|apply Nat.leb_gt]; lia. }
  destruct al as [[[] a]|]; cbn [print_al al_name al_ok] in *.
  - rewrite as_found by apply Hcl, in_as. rewrite rskip_blank, Hl by done.
    apply ident_ok_spec in Ha as (Hwa & Hla & _). pose proof (wordy_tight a Hwa) as [Hta _].
    cbn [str String.list_ascii_of_string app drop skip]. change (is_blank " ") with true. cbn iota.
    by rewrite skip_tight, fit_id by (done || lia).
  - apply ident_ok_spec in Ha as (Hwa & Hla & Hca). pose proof (wordy_tight a Hwa) as [Hta _].
    change (n ++ str " " ++ a) with (n ++ " "%char :: a).
    assert (find_keyword (n ++ " "%char :: a) (str "AS") = None) as ->
      by (apply no_word_sep; [apply in_as|done|apply Hcl, in_as|apply Hca, in_as]).
    rewrite split_at_app by by apply wordy_no_char. rewrite Hl. by rewrite skip_tight, fit_id by (done || lia).
  - rewrite app_nil_r. assert (find_keyword n (str "AS") = None) as -> by apply Hcl, in_as.
    rewrite split_at_none by by apply wordy_no_char. by rewrite fit_id by lia.
Qed.
End pieces.

Section read_back.
Implicit Types (w x y s i : list ascii) (c : ascii) (al : al_text) (t : table_text) (f : field_text).

(** No comma, no parenthesis, no blank at the ends: one token of a list. *)
Record token_text s : Prop := {
  tk_l : tight_l s; tk_r : tight_r s; tk_comma : no_char "," s; tk_paren : has_paren s = false }.

Lemma has_paren_app x y : has_paren (x ++ y) = has_paren x || has_paren y.
Proof. apply existsb_app. Qed.

Lemma wordy_token i : wordy i -> token_text i.
Proof.
  intros Hw. pose proof (wordy_tight i Hw) as [? ?]. split; [done|done|by apply wordy_no_char|].
  clear H H0. destruct Hw as [_ Hw]. induction Hw as [|c i Hc _ IH]; [done|]. unfold has_paren in *. simpl.
  apply word_char_plain in Hc as (_ & _ & _ & _ & ->). done.
Qed.

Lemma token_app x y z :
  token_text x -> token_text z -> no_char "," y -> has_paren y = false -> token_text (x ++ y ++ z).
Proof.
  intros [? ? ? Hx] [? ? ? Hz] Hy Hp. split.
  - by apply tight_l_app.
  - rewrite app_assoc. by apply tight_r_app.
  - apply no_char_app; [done|]. by apply no_char_app.
  - by rewrite !has_paren_app, Hx, Hz, Hp.
Qed.

Lemma sep_ok (a : string) : forallb (fun c => negb (Ascii.eqb c ",")) (str a) = true -> no_char "," (str a).
Proof.
  intros H. unfold no_char. apply List.Forall_forall. intros c Hin. rewrite forallb_forall in H.
  specialize (H c Hin). by bools.
Qed.

Lemma ident_token i : ident_ok i = true -> token_text i.
Proof. intros H. by apply wordy_token, ident_ok_spec. Qed.

Lemma al_token x al : al_ok al = true -> token_text x -> token_text (x ++ print_al al).
Proof.
  intros Ha Hx. destruct al as [[[] a]|]; cbn [print_al al_ok] in *; [| |by rewrite app_nil_r];
    apply token_app; try done; try (by apply ident_token); by apply sep_ok.
Qed.

Lemma qname_token t : table_ok t = true -> token_text (print_qname t).
Proof.
  unfold table_ok, print_qname. intros H. bools. destruct (t_owner t) as [o|]; [|by apply ident_token].
  apply token_app; try (by apply ident_token); [by apply sep_ok|done].
Qed.

Lemma table_token t : table_ok t = true -> token_text (print_table t).
Proof. intros H. apply al_token; [|by apply qname_token]. unfold table_ok in H. by bools. Qed.

Lemma star_token : token_text (str "*").
Proof. split; [done|done|by apply sep_ok|done]. Qed.

Lemma field_token f : field_ok f = true -> token_text (print_field f).
Proof.
  intros H. destruct f as [|r|r n al|n al]; cbn [print_field field_ok] in *; bools.
  - apply star_token.
  - apply (token_app r (str ".") (str "*")); [by apply ident_token|apply star_token|by apply sep_ok|done].
  - rewrite (app_assoc (str ".")), app_assoc. apply al_token; [done|].
    apply token_app; try (by apply ident_token); [by apply sep_ok|done].
  - apply al_token; [done|]. by apply ident_token.
Qed.

Lemma token_trim s : token_text s -> trim_token s = s.
Proof. intros [? ? _ _]. by apply trim_tight. Qed.

Lemma token_nonempty s : token_text s -> is_empty s = false.
Proof. intros [Hl _ _ _]. by destruct s. Qed.

Lemma split_tokens_step m p q :
  skip is_blank p = q -> q <> [] ->
  split_tokens (S m) p =
    match split_at "," q with None => [q] | Some (tok, rest) => tok :: split_tokens m rest end.
Proof. intros E Hq. cbn [split_tokens]. rewrite E. by destruct q. Qed.

(** A comma list of tokens is split into them. *)
Lemma split_commas l m : Forall token_text l -> length l <= m -> split_on_comma (commas l) m = l.
Proof.
  unfold split_on_comma. intros H.
  enough (forall p, p = commas l \/ p = str " " ++ commas l -> length l <= m -> map trim_token (split_tokens m p) = l) as Hg
    by (apply Hg; by left).
  revert m. induction H as [|s l Hs Hl IH]; intros m p Hp Hm.
  - assert (skip is_blank p = []) as E by (destruct Hp as [-> | ->]; reflexivity).
    destruct m; simpl; [done|]. by rewrite E.
  - destruct m as [|m]; [simpl in Hm; lia|]. simpl in Hm.
    assert (skip is_blank p = commas (s :: l)) as E.
    { assert (skip is_blank (commas (s :: l)) = commas (s :: l)) as Ec.
      { apply skip_tight. destruct l; [apply Hs|]. cbn [commas]. apply tight_l_app, Hs. }
      destruct Hp as [-> | ->]; exact Ec. }
    assert (commas (s :: l) <> []) as Hne.
    { destruct Hs as [Hs _ _ _]. destruct l, s; done. }
    rewrite (split_tokens_step m p _ E Hne). destruct l as [|s' l].
    + cbn [commas]. rewrite split_at_none by apply Hs. cbn [map]. by rewrite token_trim.
    + change (commas (s :: s' :: l)) with (s ++ ","%char :: str " " ++ commas (s' :: l)).
      rewrite split_at_app by apply Hs. cbn [map]. rewrite token_trim by done.
      f_equal. apply IH; [by right|lia].
Qed.

(** One field. *)
Lemma head_wordy i x : wordy i -> exists c r, i ++ x = c :: r /\ word_char c = true.
Proof. intros [Hne Hw]. destruct Hw as [|c r Hc _]; [done|]. by exists c, (r ++ x). Qed.

Lemma not_star_token i x : wordy i -> str_eqb (i ++ x) (str "*") = false.
Proof.
  intros Hw. destruct (head_wordy i x Hw) as (c & r & -> & Hc).
  apply word_char_plain in Hc as (_ & _ & _ & Hc & _). apply bool_decide_eq_false_2. intros [= -> _]. done.
Qed.

Lemma no_dot_al n al : ident_ok n = true -> al_ok al = true -> no_char "." (n ++ print_al al).
Proof.
  intros Hn Ha. apply ident_ok_spec in Hn as (Hw & _). apply no_char_app; [by apply wordy_no_char|].
  destruct al as [[[] a]|]; cbn [print_al al_ok] in *; [| |constructor];
    apply ident_ok_spec in Ha as (Hwa & _);
    (apply no_char_app; [by repeat constructor|by apply wordy_no_char]).
Qed.

Lemma ref_length r : ident_ok r = true -> (length r =? 0) || (64 <=? length r) = false.
Proof. intros (_ & H & _)%ident_ok_spec. apply orb_false_intro; [apply Nat.eqb_neq|apply Nat.leb_gt]; lia. Qed.

Lemma parse_print_field f pos single :
  field_ok f = true -> (is_unqualified f = true -> exists r, single = Some r /\ length r < 64) ->
  parse_field_token (print_field f) pos single = Some (field_ref single pos f).
Proof.
  intros H Hs. pose proof (tk_paren _ (field_token f H)) as Hp. unfold parse_field_token.
  destruct f as [|r|r n al|n al]; cbn [field_ok print_field] in *; [reflexivity| | |]; bools.
  - pose proof (ident_ok_spec r H) as (Hw & _). rewrite not_star_token, Hp by done.
    change (r ++ str ".*") with (r ++ "."%char :: str "*").
    rewrite split_at_app, ref_length by (done || by apply wordy_no_char). done.
  - pose proof (ident_ok_spec r H) as (Hw & _). pose proof (ident_ok_spec n H1) as (Hwn & _).
    rewrite not_star_token, Hp by done.
    change (r ++ str "." ++ n ++ print_al al) with (r ++ "."%char :: (n ++ print_al al)).
    rewrite split_at_app, ref_length by (done || by apply wordy_no_char).
    destruct (head_wordy n (print_al al) Hwn) as (c & k & E & Hc). rewrite E.
    apply word_char_plain in Hc as (_ & _ & _ & -> & _). cbn [andb]. rewrite <- E, name_and_alias_print by done.
    rewrite token_trim, token_nonempty by by apply ident_token. done.
  - pose proof (ident_ok_spec n H) as (Hw & _). rewrite not_star_token, Hp by done.
    rewrite split_at_none by by apply no_dot_al. destruct (Hs eq_refl) as (r & -> & Hr).
    rewrite name_and_alias_print by done. rewrite token_trim, token_nonempty by by apply ident_token.
    by rewrite fit_id.
Qed.

(** One table. *)
Lemma qname_length t : table_ok t = true -> 0 < length (print_qname t) < 128.
Proof.
  unfold table_ok, print_qname. intros H. bools. apply ident_ok_spec in H1 as (_ & Hn & _).
  destruct (t_owner t) as [o|]; [|lia]. apply ident_ok_spec in H as (_ & Ho & _).
  rewrite !length_app. simpl. lia.
Qed.

Lemma al_length al : al_ok al = true -> length (print_al al) < 68.
Proof.
  destruct al as [[[] a]|]; cbn [al_ok print_al]; [| |simpl; lia];
    intros (_ & Ha & _)%ident_ok_spec; rewrite length_app; simpl; lia.
Qed.

Lemma qname_no_blank t : table_ok t = true -> no_char " " (print_qname t).
Proof.
  unfold table_ok, print_qname. intros H. bools. apply ident_ok_spec in H1 as (Hn & _).
  destruct (t_owner t) as [o|]; [|by apply wordy_no_char]. apply ident_ok_spec in H as (Ho & _).
  apply no_char_app; [by apply wordy_no_char|]. apply no_char_app; [by repeat constructor|by apply wordy_no_char].
Qed.

Lemma parse_qname t :
  table_ok t = true ->
  match split_at "." (print_qname t) with
  | Some (own, name) =>
      t_owner t = Some own /\ name = t_name t /\ (length own =? 0) || (64 <=? length own) = false
  | None => t_owner t = None /\ print_qname t = t_name t
  end.
Proof.
  unfold table_ok, print_qname. intros H. bools. apply ident_ok_spec in H1 as (Hn & _).
  destruct (t_owner t) as [o|].
  - change (o ++ str "." ++ t_name t) with (o ++ "."%char :: t_name t).
    pose proof (ident_ok_spec o H) as (Ho & _). rewrite split_at_app by by apply wordy_no_char.
    split; [done|]. split; [done|]. by apply ref_length.
  - by rewrite split_at_none by by apply wordy_no_char.
Qed.

Lemma parse_print_table t : table_ok t = true -> parse_table_token (print_table t) = Some (table_object t).
Proof.
  intros H. pose proof (table_token t H) as Ht. unfold parse_table_token.
  rewrite (token_nonempty _ Ht), (tk_paren _ Ht).
  pose proof (qname_length t H) as Hq. pose proof (qname_token t H) as Hqt.
  assert (al_ok (t_alias t) = true) as Ha by (unfold table_ok in H; by bools).
  rewrite fit_id by (unfold print_table; rewrite length_app; pose proof (al_length _ Ha); lia).
  match goal with |- (let '(_, _) := ?e in _) = _ =>
    assert (e = (print_qname t, al_name (t_alias t))) as -> end.
  { unfold print_table. destruct (t_alias t) as [[[] a]|]; cbn [print_al al_name al_ok] in *.
    - pose proof (ident_ok_spec a Ha) as (Hwa & _). pose proof (wordy_tight a Hwa) as [Hta _].
      rewrite as_found by (apply qname_no_word; [done|apply in_as]). rewrite trim_blank by apply Hqt.
      cbn [str String.list_ascii_of_string app drop skip]. change (is_blank " ") with true. cbn iota.
      by rewrite skip_tight.
    - pose proof (ident_ok_spec a Ha) as (Hwa & _ & Hca). pose proof (wordy_tight a Hwa) as [Hta _].
      change (print_qname t ++ str " " ++ a) with (print_qname t ++ " "%char :: a).
      assert (find_keyword (print_qname t ++ " "%char :: a) (str "AS") = None) as ->.
      { apply no_word_sep; [apply in_as|done|apply qname_no_word; [done|apply in_as]|apply Hca, in_as]. }
      rewrite split_at_app by by apply qname_no_blank. by rewrite token_trim, skip_tight.
    - rewrite app_nil_r. assert (find_keyword (print_qname t) (str "AS") = None) as ->
        by (apply qname_no_word; [done|apply in_as]).
      by rewrite split_at_none by by apply qname_no_blank. }
  cbv beta iota. pose proof (parse_qname t H) as Hpq.
  assert (ident_ok (t_name t) = true) as Hn by (unfold table_ok in H; by bools).
  pose proof (ident_ok_spec _ Hn) as (_ & Hln & _). pose proof (ident_token _ Hn) as Htn.
  assert (fit 64 (al_name (t_alias t)) = al_name (t_alias t)) as ->.
  { apply fit_id. destruct (t_alias t) as [[? a]|]; cbn [al_name al_ok] in *; [|simpl; lia].
    apply ident_ok_spec in Ha. lia. }
  unfold table_object. destruct (split_at "." (print_qname t)) as [[own name]|].
  - destruct Hpq as (-> & -> & ->). rewrite fit_id, token_trim, token_nonempty by (done || lia). done.
  - destruct Hpq as (-> & ->). rewrite fit_id, token_trim, token_nonempty by (done || lia). done.
Qed.
End read_back.

(** ** Joins and the whole statement *)

Section statement.
Implicit Types (w x y s : list ascii) (c : ascii) (t : table_text) (f : field_text) (j : join_text) (q : select_text).

Definition table_words : list (list ascii) := filter (fun w => w <> str "AS") RESERVED.
Definition outer_words : list (list ascii) := map kw_head CLAUSE_KWS ++ set_ops.

(** The heads of [kws] are keywords that no table, field or name contains. *)
Definition heads_in (kws : list (list ascii)) (ws : list (list ascii)) : bool :=
  forallb (fun kw => negb (is_empty (kw_head kw)) && bool_decide (kw_head kw ∈ ws)) kws.

Lemma no_heads_of kws ws s :
  heads_in kws ws = true -> (forall w, w ∈ ws -> no_word s w) -> no_heads kws s.
Proof.
  intros H Hs. unfold heads_in in H. rewrite forallb_forall in H. apply List.Forall_forall. intros kw Hin.
  specialize (H kw Hin). bools. split; [unfold is_kw; by destruct (kw_head kw)|by apply Hs].
Qed.

Lemma words_reserved ws w :
  forallb (fun w => bool_decide (w ∈ RESERVED) && negb (bool_decide (w = str "AS"))) ws = true ->
  w ∈ ws -> In w RESERVED /\ w <> str "AS".
Proof.
  intros H Hin. rewrite forallb_forall in H. apply list_elem_of_In in Hin. specialize (H w Hin). bools.
  split; [by apply list_elem_of_In|done].
Qed.

Lemma table_word w : w ∈ table_words -> In w RESERVED /\ w <> str "AS".
Proof. apply words_reserved. vm_compute; reflexivity. Qed.
Lemma outer_word w : w ∈ outer_words -> In w RESERVED /\ w <> str "AS".
Proof. apply words_reserved. vm_compute; reflexivity. Qed.

Lemma table_no_heads t kws : heads_in kws table_words = true -> table_ok t = true -> no_heads kws (print_table t).
Proof.
  intros Hk H. apply (no_heads_of kws table_words); [done|]. intros w [? ?]%table_word. by apply table_no_word.
Qed.

Lemma clean_spec s : clean s = true -> forall w, In w RESERVED -> no_word s w.
Proof.
  unfold clean. intros H w Hin. rewrite forallb_forall in H. specialize (H w Hin). unfold no_word.
  by destruct (find_keyword s w).
Qed.

Lemma ends_tight_spec s : ends_tight s = true -> tight_r s.
Proof. unfold ends_tight, tight_r. destruct (rev s); [done|]. by intros ?%negb_true_iff. Qed.

(** *** Lists of tables *)

Lemma add_table objs t :
  table_ok t = true -> length objs < SQL_DEP_MAX_OBJECTS ->
  add_object objs (print_table t) = objs ++ [table_object t].
Proof.
  intros H Hl. unfold add_object. rewrite (token_nonempty _ (table_token t H)), (proj2 (Nat.ltb_lt _ _) Hl).
  cbn [negb andb]. by rewrite parse_print_table.
Qed.

Lemma add_tables objs ts :
  Forall (fun t => table_ok t = true) ts -> length objs + length ts <= SQL_DEP_MAX_OBJECTS ->
  foldl add_object objs (map print_table ts) = objs ++ map table_object ts.
Proof.
  intros H. revert objs. induction H as [|t ts Ht _ IH]; intros objs Hl; cbn [map foldl]; [by rewrite app_nil_r|].
  simpl in Hl. rewrite add_table by (done || lia). rewrite IH by (rewrite length_app; simpl; lia).
  by rewrite <- app_assoc.
Qed.

Lemma tables_tokens ts : Forall (fun t => table_ok t = true) ts -> Forall token_text (map print_table ts).
Proof. induction 1; constructor; [by apply table_token|done]. Qed.

Lemma commas_tight l : Forall token_text l -> l <> [] -> tight_l (commas l) /\ tight_r (commas l).
Proof.
  induction 1 as [|s l [? ? _ _] Hl IH]; [done|]. intros _. destruct l as [|s' l]; [done|].
  destruct (IH ltac:(done)) as [IHl IHr]. change (commas (s :: s' :: l)) with (s ++ str ", " ++ commas (s' :: l)).
  split; [by apply tight_l_app|]. by apply tight_r_app, tight_r_app.
Qed.

(** *** Joins *)

Definition joins_text (js : list join_text) : list ascii := concat (map (fun j => str " " ++ print_join j) js).

(** The text at the cursor: the joins without the first blank. *)
Definition joins_at (js : list join_text) : list ascii := drop 1 (joins_text js).

Lemma joins_text_cons j js : joins_text (j :: js) = " "%char :: joins_at (j :: js).
Proof. done. Qed.
Lemma joins_at_cons j js : joins_at (j :: js) = print_join j ++ joins_text js.
Proof. done. Qed.

Lemma join_kw_cases (P : list ascii -> Prop) kw : kw ∈ JOIN_KWS -> Forall P JOIN_KWS -> P kw.
Proof. intros Hin H. rewrite List.Forall_forall in H. apply H. by apply list_elem_of_In. Qed.

Lemma join_kw_here kw x : kw ∈ JOIN_KWS -> at_kw false kw (kw ++ str " " ++ x) = true.
Proof. intros _. apply at_kw_spec. by exists (str " " ++ x). Qed.

Lemma join_kw_matched kw x : kw ∈ JOIN_KWS -> matched_kw JOIN_KWS (kw ++ str " " ++ x) = Some (length kw).
Proof.
  intros H. apply (join_kw_cases (fun kw => matched_kw JOIN_KWS (kw ++ str " " ++ x) = Some (length kw)) kw H).
  repeat constructor.
Qed.

Lemma join_kw_not_on kw x :
  kw ∈ JOIN_KWS -> prefix_b (str "ON") (kw ++ x) = false /\ prefix_b (str "USING") (kw ++ x) = false.
Proof.
  intros H.
  apply (join_kw_cases (fun kw => prefix_b (str "ON") (kw ++ x) = false /\ prefix_b (str "USING") (kw ++ x) = false) kw H).
  repeat constructor.
Qed.

Lemma join_ok_spec j : join_ok j = true ->
  j_kw j ∈ JOIN_KWS /\ table_ok (j_table j) = true /\
  match j_on j with Some c => clean c = true /\ ends_tight c = true | None => True end.
Proof. unfold join_ok. intros H. bools. split; [done|]. split; [done|]. destruct (j_on j); [|done]. by bools. Qed.

(** The cursor is at a keyword of [kws] when joins follow. *)
Lemma joins_here kws j js :
  join_ok j = true -> (forall kw, kw ∈ JOIN_KWS -> kw ∈ kws) ->
  earliest kws (joins_at (j :: js)) = Some ([], joins_at (j :: js)).
Proof.
  intros (Hk & _)%join_ok_spec Hsub. apply earliest_here, List.Exists_exists. exists (j_kw j). split.
  - by apply list_elem_of_In, Hsub.
  - rewrite joins_at_cons. unfold print_join. rewrite <- !app_assoc. by apply join_kw_here.
Qed.

Lemma stop_has_joins kw : kw ∈ JOIN_KWS -> kw ∈ STOP_KWS.
Proof. intros H. unfold STOP_KWS. apply list_elem_of_In, in_or_app. left. by apply list_elem_of_In. Qed.

Definition join_words : list (list ascii) := map kw_head JOIN_KWS.

(** The next cursor after a text [x] without join keywords. *)
Lemma next_joins x js :
  no_heads JOIN_KWS x -> Forall (fun j => join_ok j = true) js ->
  match earliest JOIN_KWS (x ++ joins_text js) with Some (_, r) => r | None => [] end = joins_at js.
Proof.
  intros Hn H. destruct H as [|j js Hj _]; [by rewrite app_nil_r, earliest_None|].
  rewrite joins_text_cons, earliest_after by done. by rewrite (joins_here JOIN_KWS).
Qed.

Lemma on_no_heads cond : clean cond = true -> no_heads JOIN_KWS (str "ON " ++ cond).
Proof.
  intros Hc. apply (no_heads_of JOIN_KWS join_words); [vm_compute; reflexivity|]. intros w Hin.
  assert (In w RESERVED /\ w <> str "AS") as [Hr _] by (apply (words_reserved join_words); [vm_compute; reflexivity|done]).
  change (str "ON " ++ cond) with (str "ON" ++ " "%char :: cond).
  apply no_word_sep; [done|done| |by apply clean_spec].
  apply list_elem_of_In in Hin. clear Hr. revert w Hin. apply List.Forall_forall. repeat constructor.
Qed.

Lemma join_loop_nil fuel objs : join_loop fuel [] objs = objs.
Proof. by destruct fuel. Qed.

Lemma print_table_length t : table_ok t = true -> length (print_table t) < 200.
Proof.
  intros H. pose proof (qname_length t H). unfold print_table. rewrite length_app.
  assert (al_ok (t_alias t) = true) as Ha by (unfold table_ok in H; by bools). pose proof (al_length _ Ha). lia.
Qed.

(** The table at the cursor, up to the stop word [y]. *)
Lemma table_stop t y :
  table_ok t = true -> earliest STOP_KWS y = Some ([], y) ->
  exists b, earliest STOP_KWS (print_table t ++ " "%char :: y) = Some (b, y) /\
    (if length b <? 512 then trim_token b else []) = print_table t.
Proof.
  intros Ht Hy. pose proof (print_table_length _ Ht) as Hl. pose proof (table_token _ Ht) as HT.
  exists (print_table t ++ str " "). rewrite earliest_after, Hy by (done || by apply table_no_heads). split; [done|].
  rewrite (proj2 (Nat.ltb_lt _ _)) by (rewrite length_app; simpl; lia). apply trim_blank; apply HT.
Qed.

(** One turn of the loop. *)
Lemma join_step fuel j js objs :
  join_ok j = true -> Forall (fun j => join_ok j = true) js ->
  join_loop (S fuel) (joins_at (j :: js)) objs = join_loop fuel (joins_at js) (add_object objs (print_table (j_table j))).
Proof.
  intros Hj Hjs. destruct (join_ok_spec j Hj) as (Hk & Ht & Hon).
  pose proof (table_token _ Ht) as HT. pose proof (print_table_length _ Ht) as HTl.
  set (X := print_table (j_table j) ++ match j_on j with Some c => str " ON " ++ c | None => [] end ++ joins_text js).
  assert (joins_at (j :: js) = j_kw j ++ str " " ++ X) as ->
    by (rewrite joins_at_cons; unfold print_join, X; by rewrite <- !app_assoc).
  cbn [join_loop]. rewrite join_kw_matched, drop_app_length by done.
  assert (skip is_blank (str " " ++ X) = X) as ->
    by (change (skip is_blank X = X); apply skip_tight, tight_l_app, HT).
  subst X. destruct (j_on j) as [cond|].
  - destruct Hon as [Hc _]. change (str " ON " ++ cond) with (" "%char :: (str "ON " ++ cond)). cbn [app].
    destruct (table_stop (j_table j) ((str "ON " ++ cond) ++ joins_text js)) as (b & -> & ->); [done| |].
    { apply earliest_here, List.Exists_exists. exists (str "ON"). split; [vm_compute; tauto|reflexivity]. }
    assert (prefix_b (str "ON") ((str "ON " ++ cond) ++ joins_text js) = true) as ->
      by (rewrite <- app_assoc; exact (prefix_b_app (str "ON") (str " " ++ cond ++ joins_text js))).
    cbn [orb]. rewrite next_joins by (done || by apply on_no_heads). done.
  - destruct Hjs as [|j2 js Hj2 Hjs].
    + unfold joins_text, joins_at. cbn [map concat app drop]. rewrite app_nil_r.
      rewrite earliest_None by by apply table_no_heads. rewrite fit_id, token_trim by (done || lia).
      by rewrite join_loop_nil.
    + rewrite joins_text_cons. cbn [app].
      destruct (table_stop (j_table j) (joins_at (j2 :: js))) as (b & -> & ->);
        [done|apply joins_here; [done|apply stop_has_joins]|].
      destruct (join_ok_spec j2 Hj2) as (Hk2 & _). rewrite joins_at_cons. unfold print_join. rewrite <- app_assoc.
      destruct (join_kw_not_on _ ((str " " ++ print_table (j_table j2) ++
        match j_on j2 with Some c => str " ON " ++ c | None => [] end) ++ joins_text js) Hk2) as [-> ->]. done.
Qed.

Lemma join_loop_joins js : forall fuel objs,
  Forall (fun j => join_ok j = true) js -> length js <= fuel -> length objs + length js <= SQL_DEP_MAX_OBJECTS ->
  join_loop fuel (joins_at js) objs = objs ++ map (fun j => table_object (j_table j)) js.
Proof.
  induction js as [|j js IH]; intros fuel objs H Hf Ho; [by rewrite join_loop_nil, app_nil_r|].
  apply Forall_cons_1 in H as [Hj Hjs]. simpl in Hf, Ho. destruct fuel as [|fuel]; [lia|].
  destruct (join_ok_spec j Hj) as (_ & Ht & _).
  rewrite join_step, add_table, IH by (done || rewrite ?length_app; simpl; lia). by rewrite <- app_assoc.
Qed.

(** *** The FROM clause *)

Definition base_text q : list ascii := commas (map print_table (q_base q)).

Lemma print_from_eq q : print_from q = base_text q ++ joins_text (q_joins q).
Proof. done. Qed.

Lemma base_no_word q w :
  Forall (fun t => table_ok t = true) (q_base q) -> In w RESERVED -> w <> str "AS" -> no_word (base_text q) w.
Proof.
  intros H Hin Hne. apply commas_no_word; [done|]. induction H; constructor; [by apply table_no_word|done].
Qed.

Lemma joins_length js : length js <= length (joins_text js).
Proof.
  induction js as [|j js IH]; [simpl; lia|]. rewrite joins_text_cons, joins_at_cons. simpl. rewrite length_app. lia.
Qed.

Lemma extract_from q :
  Forall (fun t => table_ok t = true) (q_base q) -> Forall (fun j => join_ok j = true) (q_joins q) ->
  q_base q <> [] -> length (q_base q) + length (q_joins q) <= SQL_DEP_MAX_OBJECTS ->
  length (print_from q) < NORM_SQL_MAX ->
  extract_join_tables (print_from q) = map table_object (select_tables q).
Proof.
  intros Hb Hj Hne Hl Hlen. unfold extract_join_tables. rewrite fit_id by done. rewrite print_from_eq.
  assert (no_heads JOIN_KWS (base_text q)) as Hn.
  { apply (no_heads_of JOIN_KWS table_words); [vm_compute; reflexivity|].
    intros w [? ?]%table_word. by apply base_no_word. }
  assert (Forall token_text (map print_table (q_base q))) as Htok by by apply tables_tokens.
  assert (add_objects [] (base_text q) = map table_object (q_base q)) as Hadd.
  { unfold add_objects, base_text. rewrite split_commas by (done || rewrite length_map; lia).
    apply add_tables; [done|]. simpl. lia. }
  unfold select_tables. rewrite map_app, map_map. destruct Hj as [|j js Hj Hjs].
  - unfold joins_text. cbn [map concat]. rewrite app_nil_r, earliest_None by done. by rewrite Hadd, app_nil_r.
  - rewrite joins_text_cons, earliest_after by done. rewrite joins_here by done. cbn [after_text].
    assert (trim_token (base_text q ++ [" "%char]) = base_text q) as ->.
    { destruct (commas_tight _ Htok) as [? ?]; [by destruct (q_base q)|]. by apply trim_blank. }
    rewrite Hadd. apply join_loop_joins; [by constructor| |rewrite length_map; done].
    pose proof (joins_length (j :: js)) as Hx. rewrite joins_text_cons in Hx. simpl length in Hx at 2. lia.
Qed.
End statement.

(** ** The whole statement is read back *)

Section whole.
Implicit Types (w x s : list ascii) (f : field_text) (t : table_text) (j : join_text) (q : select_text).

Definition tables_ok q : Prop := Forall (fun t => table_ok t = true) (q_base q).
Definition joins_ok q : Prop := Forall (fun j => join_ok j = true) (q_joins q).

Lemma joins_no_word js w :
  Forall (fun j => join_ok j = true) js -> w ∈ outer_words ->
  forall x, no_word x w -> (forall j, join_ok j = true -> match j_on j with Some c => no_word c w | None => True end) ->
  no_word (x ++ joins_text js) w.
Proof.
  intros H Hw. pose proof (outer_word w Hw) as [Hin Hne].
  assert (no_word (str "ON") w) as Hon.
  { apply list_elem_of_In in Hw. clear Hin Hne. revert w Hw. apply List.Forall_forall. repeat constructor. }
  assert (forall kw, kw ∈ JOIN_KWS -> no_word kw w) as Hkws.
  { intros kw Hkw. apply (join_kw_cases (fun kw => no_word kw w) kw Hkw). apply list_elem_of_In in Hw.
    clear -Hw. revert w Hw. apply (List.Forall_forall (fun w => Forall (fun kw => no_word kw w) JOIN_KWS)).
    repeat constructor. }
  induction H as [|j js Hj _ IH]; intros x Hx Hc; [by rewrite app_nil_r|].
  destruct (join_ok_spec j Hj) as (Hk & Ht & _). rewrite joins_text_cons, joins_at_cons.
  apply no_word_sep; [done|done|done|]. apply IH; [|done].
  unfold print_join. apply (no_word_sep w (j_kw j) " "); [done|done|by apply Hkws|].
  specialize (Hc j Hj). destruct (j_on j) as [c|]; [|rewrite app_nil_r; by apply table_no_word].
  change (str " ON " ++ c) with (" "%char :: (str "ON" ++ " "%char :: c)).
  apply no_word_sep; [done|done|by apply table_no_word|]. by apply no_word_sep.
Qed.

Lemma from_no_word q w : tables_ok q -> joins_ok q -> w ∈ outer_words -> no_word (print_from q) w.
Proof.
  intros Hb Hj Hw. pose proof (outer_word w Hw) as [Hin Hne]. rewrite print_from_eq.
  apply joins_no_word; [done|done|by apply base_no_word|].
  intros j (_ & _ & Hc)%join_ok_spec. destruct (j_on j); [|done]. destruct Hc as [Hc _]. by apply clean_spec.
Qed.

Lemma joins_tight js x :
  Forall (fun j => join_ok j = true) js -> tight_r x -> tight_r (x ++ joins_text js).
Proof.
  intros H. revert x. induction H as [|j js Hj _ IH]; intros x Hx; [by rewrite app_nil_r|].
  rewrite joins_text_cons, joins_at_cons.
  change (x ++ " "%char :: (print_join j ++ joins_text js)) with (x ++ (str " " ++ print_join j) ++ joins_text js).
  rewrite app_assoc. apply IH, tight_r_app, tight_r_app. unfold print_join.
  destruct (join_ok_spec j Hj) as (_ & Ht & Hon). apply tight_r_app, tight_r_app.
  destruct (j_on j) as [c|]; [|rewrite app_nil_r; apply table_token; done].
  apply tight_r_app, tight_r_app. apply ends_tight_spec. apply Hon.
Qed.

Lemma from_tight q : tables_ok q -> joins_ok q -> q_base q <> [] -> tight_l (print_from q) /\ tight_r (print_from q).
Proof.
  intros Hb Hj Hne. destruct (commas_tight _ (tables_tokens _ Hb)) as [Hl Hr]; [by destruct (q_base q)|].
  rewrite print_from_eq. split; [by apply tight_l_app|]. by apply joins_tight.
Qed.

(** What each field becomes; positions count from 1. *)
Fixpoint field_refs (single : option (list ascii)) (i : nat) (fs : list field_text) : list FIELD_REF :=
  match fs with [] => [] | f :: fs' => field_ref single (S i) f :: field_refs single (S i) fs' end.

Lemma parse_print_fields fs single : forall i acc,
  Forall (fun f => field_ok f = true) fs ->
  (existsb is_unqualified fs = true -> exists r, single = Some r /\ length r < 64) ->
  length acc + length fs <= SQL_DEP_MAX_FIELDS ->
  parse_fields i (map print_field fs) single acc = Ok (acc ++ field_refs single i fs).
Proof.
  induction fs as [|f fs IH]; intros i acc H Hs Hl; cbn [map parse_fields field_refs]; [by rewrite app_nil_r|].
  apply Forall_cons_1 in H as [Hf Hfs]. simpl in Hl.
  rewrite (token_nonempty _ (field_token f Hf)). rewrite parse_print_field; [|done|].
  2:{ intros Hu. apply Hs. simpl. by rewrite Hu. }
  rewrite (proj2 (Nat.ltb_lt _ _)) by lia. rewrite IH; [by rewrite <- app_assoc|done| |rewrite length_app; simpl; lia].
  intros Hu. apply Hs. simpl. by rewrite Hu, orb_true_r.
Qed.

Lemma single_ref_table t :
  table_ok t = true -> exists r, single_ref [table_object t] = Some r /\ length r < 64.
Proof.
  intros H. unfold table_ok in H. bools. simpl. eexists. split; [done|].
  apply ident_ok_spec in H1 as (_ & Hn & _). destruct (t_alias t) as [[b a]|]; cbn [al_name al_ok] in *; [|simpl; lia].
  apply ident_ok_spec in H0 as (_ & Ha & _). destruct (is_empty a); lia.
Qed.

Lemma normalise_loop_length m s : forall n b o,
  length o = n -> n <= m - 1 -> length (normalise_loop m s n b o) <= m - 1.
Proof.
  induction s as [|c s IH]; intros n b o Hl Hn; cbn [normalise_loop]; [lia|].
  destruct (Nat.ltb_spec n (m - 1)); [|lia].
  destruct (isspace c); [destruct b; cbn [negb]|]; apply IH; cbn [length]; lia.
Qed.

Lemma strip_end_length l : length (strip_end l) <= length l.
Proof.
  unfold strip_end. etrans; [apply skip_length|].
  pose proof (skip_length is_blank l) as H. destruct (skip is_blank l) as [|c l']; [done|].
  destruct (Ascii.eqb c ";"); simpl in *; lia.
Qed.

Lemma normalise_length sql m out : normalise_sql sql m = Some out -> length out < m.
Proof.
  unfold normalise_sql. destruct (Nat.ltb_spec m 2); [done|]. intros [= <-]. rewrite length_rev.
  pose proof (strip_end_length (normalise_loop m sql 0 true [])).
  pose proof (normalise_loop_length m sql 0 true [] eq_refl). lia.
Qed.
End whole.

Section round_trip.
Implicit Types (w x s : list ascii) (q : select_text).

Definition tail_text (tl : option (list ascii * list ascii)) : list ascii :=
  match tl with Some (kw, t) => str " " ++ kw ++ str " " ++ t | None => [] end.

Lemma forallb_Forall {A} (p : A -> bool) (l : list A) : forallb p l = true -> Forall (fun e => p e = true) l.
Proof. intros H. apply List.Forall_forall. by apply forallb_forall. Qed.

(** The reading of [select_ok]. *)
Record select_wf q : Prop := {
  wf_fields : Forall (fun f => field_ok f = true) (q_fields q);
  wf_nfields : 0 < length (q_fields q) <= SQL_DEP_MAX_FIELDS;
  wf_base : tables_ok q;
  wf_nonempty : q_base q <> [];
  wf_joins : joins_ok q;
  wf_ntables : length (q_base q) + length (q_joins q) <= SQL_DEP_MAX_OBJECTS;
  wf_tail : tail_ok (q_tail q) = true;
  wf_unqualified : existsb is_unqualified (q_fields q) = true -> length (select_tables q) = 1 }.

Lemma select_ok_spec q : select_ok q = true -> select_wf q.
Proof.
  unfold select_ok. intros H. bools. repeat match goal with
  | H : (_ <=? _) = true |- _ => apply Nat.leb_le in H
  | H : (_ =? _) = false |- _ => apply Nat.eqb_neq in H
  | H : forallb _ _ = true |- _ => apply forallb_Forall in H
  end. split; try done; [lia|by destruct (q_base q)|].
  intros Hu. unfold select_tables. rewrite length_app, length_map.
  apply orb_true_iff in H0 as [H0|H0]; [by apply Nat.eqb_eq|]. by rewrite Hu in H0.
Qed.

(** The FROM clause ends where the tail starts. *)
Lemma clause_found q :
  select_wf q -> length (print_from q) < NORM_SQL_MAX ->
  match earliest CLAUSE_KWS (print_from q ++ tail_text (q_tail q)) with
  | Some (b, _) => rskip is_blank b
  | None => trim_token (fit NORM_SQL_MAX (print_from q ++ tail_text (q_tail q)))
  end = print_from q.
Proof.
  intros Hq Hlen. destruct (from_tight q (wf_base q Hq) (wf_joins q Hq) (wf_nonempty q Hq)) as [Hl Hr].
  assert (no_heads CLAUSE_KWS (print_from q)) as Hn.
  { apply (no_heads_of CLAUSE_KWS outer_words); [vm_compute; reflexivity|].
    intros w Hw. apply from_no_word; [apply Hq|apply Hq|done]. }
  pose proof (wf_tail q Hq) as Ht. destruct (q_tail q) as [[kw t]|]; cbn [tail_text tail_ok] in *; bools.
  - change (str " " ++ kw ++ str " " ++ t) with (" "%char :: (kw ++ str " " ++ t)).
    rewrite earliest_after, earliest_here; [by apply rskip_blank| |done|done].
    apply List.Exists_exists. exists kw. split; [by apply list_elem_of_In|]. apply at_kw_spec. by exists (str " " ++ t).
  - rewrite app_nil_r, earliest_None, fit_id by done. by apply trim_tight.
Qed.

Definition fields_text q : list ascii := commas (map print_field (q_fields q)).

Lemma fields_no_word q w : select_wf q -> In w RESERVED -> w <> str "AS" -> no_word (fields_text q) w.
Proof.
  intros Hq Hin Hne. apply commas_no_word; [done|].
  induction (wf_fields q Hq); constructor; [by apply field_no_word|done].
Qed.

Lemma fields_tokens q : select_wf q -> Forall token_text (map print_field (q_fields q)).
Proof. intros Hq. induction (wf_fields q Hq); constructor; [by apply field_token|done]. Qed.

Lemma print_select_eq q :
  print_select q = (str "SELECT" ++ " "%char :: fields_text q) ++ " "%char :: (str "FROM" ++ " "%char :: (print_from q ++ tail_text (q_tail q))).
Proof. unfold print_select, fields_text. rewrite <- app_assoc. done. Qed.

Lemma keyword_apart w k : In w RESERVED -> In k [str "SELECT"; str "FROM"] -> k <> w -> no_word k w.
Proof.
  intros Hw Hk Hne. apply no_word_ident; [by apply reserved_wordy| |done].
  destruct Hk as [<-|[<-|[]]]; (split; [done|by repeat constructor]).
Qed.

Lemma select_no_set_op q w : select_wf q -> w ∈ set_ops -> no_word (print_select q) w.
Proof.
  intros Hq Hw. assert (w ∈ outer_words) as Ho by (apply list_elem_of_In, in_or_app; right; by apply list_elem_of_In).
  pose proof (outer_word w Ho) as [Hin Hne].
  assert (str "SELECT" <> w /\ str "FROM" <> w) as [Hs Hf].
  { apply list_elem_of_In in Hw. destruct Hw as [<-|[<-|[<-|[]]]]; done. }
  rewrite print_select_eq. apply no_word_sep; [done|done| |].
  - apply no_word_sep; [done|done|apply keyword_apart; [done|by left|done]|by apply fields_no_word].
  - apply no_word_sep; [done|done|apply keyword_apart; [done|by right; left|done]|].
    pose proof (from_no_word q w (wf_base q Hq) (wf_joins q Hq) Ho) as Hfrom.
    pose proof (wf_tail q Hq) as Ht. destruct (q_tail q) as [[kw t]|]; cbn [tail_text tail_ok] in *; [|by rewrite app_nil_r].
    bools. change (str " " ++ kw ++ str " " ++ t) with (" "%char :: (kw ++ " "%char :: t)).
    apply no_word_sep; [done|done|done|]. apply no_word_sep; [done|done| |].
    + assert (Forall (fun kw => Forall (fun w => no_word kw w) set_ops) CLAUSE_KWS) as HF by repeat constructor.
      rewrite List.Forall_forall in HF. apply list_elem_of_In in H. specialize (HF kw H).
      rewrite List.Forall_forall in HF. by apply HF, list_elem_of_In.
    + rewrite forallb_forall in H0. apply list_elem_of_In in Hw. specialize (H0 w Hw). unfold no_word.
      by destruct (find_keyword t w).
Qed.

(** What the extractor answers for a printed statement. *)
Definition select_deps q : DEPENDENCY_LIST :=
  let objs := map table_object (select_tables q) in
  let fs := field_refs (single_ref objs) 0 (q_fields q) in
  mk_deps objs fs (existsb (fun f => negb (bool_decide (expansion_type f = SQL_FIELD_NORMAL))) fs).

Lemma fields_found q :
  select_wf q -> length (fields_text q) < NORM_SQL_MAX ->
  split_on_comma (fit NORM_SQL_MAX (fields_text q)) SQL_DEP_MAX_FIELDS = map print_field (q_fields q) /\
  parse_fields 0 (map print_field (q_fields q)) (single_ref (map table_object (select_tables q))) [] =
    Ok (field_refs (single_ref (map table_object (select_tables q))) 0 (q_fields q)).
Proof.
  intros Hq Hlen. rewrite fit_id by done. split.
  - apply split_commas; [by apply fields_tokens|]. rewrite length_map. apply Hq.
  - apply (parse_print_fields _ _ 0 []); [apply Hq| |simpl; apply Hq].
    intros Hu. apply (wf_unqualified q Hq) in Hu.
    assert (Forall (fun t => table_ok t = true) (select_tables q)) as Hts.
    { unfold select_tables. apply Forall_app. split; [apply Hq|].
      pose proof (wf_joins q Hq) as Hj. unfold joins_ok in Hj.
      induction Hj as [|j js Hj _ IH]; cbn [map]; [constructor|].
      constructor; [apply (join_ok_spec j Hj)|done]. }
    destruct (select_tables q) as [|t [|]]; try done. apply Forall_cons_1 in Hts as [Ht _].
    by apply single_ref_table.
Qed.

Lemma extract_printed q sql :
  select_wf q -> normalise_sql sql NORM_SQL_MAX = Some (print_select q) ->
  extract_sql_dependencies (Some sql) = Ok (select_deps q).
Proof.
  intros Hq Hn. unfold extract_sql_dependencies. rewrite Hn.
  pose proof (normalise_length _ _ _ Hn) as Hlen.
  assert (prefix_b (str "SELECT ") (print_select q) = true) as -> by apply prefix_b_app.
  assert (forall w, w ∈ set_ops -> is_some (find_keyword (print_select q) w) = false) as Hset
    by (intros w Hw; by rewrite (select_no_set_op q w Hq Hw)).
  rewrite !Hset by (apply list_elem_of_In; simpl; tauto). cbn [orb negb].
  rewrite print_select_eq in *. rewrite !length_app in Hlen. cbn [length] in Hlen. rewrite !length_app in Hlen.
  cbn [length] in Hlen. rewrite !length_app in Hlen.
  unfold find_keyword at 1. rewrite find_kw_clear_app; [|done|done|].
  2:{ apply no_word_sep; [vm_compute; tauto|done|reflexivity|]. apply fields_no_word; [done|vm_compute; tauto|done]. }
  rewrite find_kw_here by reflexivity. cbv beta iota.
  destruct (commas_tight _ (fields_tokens q Hq)) as [Hfl Hfr]; [pose proof (wf_nfields q Hq); destruct (q_fields q); [simpl in *; lia|done]|].
  assert (rskip is_blank (drop 7 ((str "SELECT" ++ " "%char :: fields_text q) ++ [" "%char])) = fields_text q) as ->
    by exact (rskip_blank _ Hfr).
  destruct (from_tight q (wf_base q Hq) (wf_joins q Hq) (wf_nonempty q Hq)) as [Hl Hr].
  assert (skip is_blank (drop 4 (str "FROM" ++ " "%char :: (print_from q ++ tail_text (q_tail q)))) =
          print_from q ++ tail_text (q_tail q)) as ->
    by exact (skip_tight _ (tight_l_app _ _ Hl)).
  rewrite clause_found, extract_from; try apply Hq; try lia.
  destruct (fields_found q Hq) as [-> ->]; [lia|].
  assert (is_empty (fields_text q) = false) as -> by (unfold fields_text; by destruct (commas _)).
  assert (is_empty (print_from q) = false) as -> by (by destruct (print_from q)).
  assert ((length (map table_object (select_tables q)) =? 0) = false) as ->.
  { apply Nat.eqb_neq. rewrite length_map. unfold select_tables. rewrite length_app.
    pose proof (wf_nonempty q Hq). destruct (q_base q); [done|]. simpl. lia. }
  assert ((length (map print_field (q_fields q)) =? 0) = false) as ->.
  { apply Nat.eqb_neq. rewrite length_map. pose proof (wf_nfields q Hq). lia. }
  done.
Qed.
End round_trip.

(** ** Bounds *)

Section bounds.
Implicit Types (s : list ascii).

Lemma fit_length n s : 0 < n -> length (fit n s) < n.
Proof. intros H. unfold fit. rewrite length_take. lia. Qed.

Lemma rskip_length f s : length (rskip f s) <= length s.
Proof. unfold rskip. rewrite length_rev. etrans; [apply skip_length|]. by rewrite length_rev. Qed.

Lemma trim_length s : length (trim_token s) <= length s.
Proof. unfold trim_token. etrans; [apply rskip_length|]. apply skip_length. Qed.

Lemma is_empty_false s : is_empty s = false -> 0 < length s.
Proof. destruct s; [done|]. simpl. lia. Qed.

Definition object_fits (o : OBJECT_REF) : Prop :=
  length (owner o) < 64 /\ 0 < length (object_name o) < 128 /\ length (alias o) < 64.
Definition field_fits (f : FIELD_REF) : Prop :=
  length (table_ref f) < 64 /\ 0 < length (field_name f) < 128 /\ length (field_alias f) < 128.

Lemma size_check n s : (length s =? 0) || (n <=? length s) = false -> 0 < length s < n.
Proof. intros H. bools. apply Nat.eqb_neq in H. apply Nat.leb_gt in H0. lia. Qed.

Lemma trim_fits n s : 0 < n -> is_empty (trim_token (fit n s)) = false -> 0 < length (trim_token (fit n s)) < n.
Proof.
  intros Hn H%is_empty_false. pose proof (trim_length (fit n s)). pose proof (fit_length n s Hn). lia.
Qed.

Lemma parse_table_fits tok o : parse_table_token tok = Some o -> object_fits o.
Proof.
  unfold parse_table_token. destruct (is_empty tok); [done|]. destruct (has_paren tok); [done|].
  destruct (match find_keyword _ _ with Some _ => _ | None => _ end) as [work al].
  destruct (split_at "." work) as [[own name]|].
  - destruct (_ || _) eqn:E; [done|]. apply size_check in E. destruct (is_empty _) eqn:E'; [done|].
    intros [= <-]. apply trim_fits in E'; [|lia]. pose proof (fit_length 64 al). split; simpl; lia.
  - destruct (is_empty _) eqn:E'; [done|]. intros [= <-]. apply trim_fits in E'; [|lia].
    pose proof (fit_length 64 al). split; simpl; lia.
Qed.

Lemma name_and_alias_fits s n al : name_and_alias s = Some (n, al) -> length n < 128 /\ length al < 128.
Proof.
  unfold name_and_alias. destruct (find_keyword _ _) as [[b r]|].
  - destruct (_ || _) eqn:E; [done|]. intros [= <- <-]. apply size_check in E.
    pose proof (fit_length 128 (skip is_blank (drop 2 r))). lia.
  - destruct (split_at _ _) as [[b r]|].
    + destruct (_ || _) eqn:E; [done|]. intros [= <- <-]. apply size_check in E.
      pose proof (fit_length 128 (skip is_blank r)). lia.
    + intros [= <- <-]. pose proof (fit_length 128 s). simpl. lia.
Qed.

Lemma parse_field_fits tok pos single f :
  parse_field_token tok pos single = Some f ->
  field_fits f /\ field_pos f = pos /\ (expansion_type f = SQL_FIELD_UNQUALIFIED -> is_some single = true).
Proof.
  unfold parse_field_token. destruct (str_eqb tok (str "*")).
  { intros [= <-]. repeat split; simpl; lia || done. }
  destruct (has_paren tok); [done|]. destruct (split_at "." tok) as [[ref after]|].
  - destruct (_ || _) eqn:E; [done|]. apply size_check in E. destruct after as [|c rest]; [done|].
    destruct (_ && _); [intros [= <-]; repeat split; simpl; lia || done|].
    destruct (name_and_alias _) as [[n al]|] eqn:En; [|done]. apply name_and_alias_fits in En.
    destruct (is_empty _) eqn:E'; [done|]. intros [= <-]. apply is_empty_false in E'. pose proof (trim_length n).
    repeat split; simpl; lia || done.
  - destruct single as [ref|]; [|done].
    destruct (name_and_alias _) as [[n al]|] eqn:En; [|done]. apply name_and_alias_fits in En.
    destruct (is_empty _) eqn:E'; [done|]. intros [= <-]. apply is_empty_false in E'. pose proof (trim_length n).
    pose proof (fit_length 64 ref). repeat split; simpl; lia || done.
Qed.

Definition objects_fit (objs : list OBJECT_REF) : Prop :=
  length objs <= SQL_DEP_MAX_OBJECTS /\ Forall object_fits objs.

Lemma add_object_fits objs tok : objects_fit objs -> objects_fit (add_object objs tok).
Proof.
  intros [Hl H]. unfold add_object. destruct (_ && _) eqn:E; [|done]. bools. apply Nat.ltb_lt in H1.
  destruct (parse_table_token tok) as [o|] eqn:Ep; [|done]. apply parse_table_fits in Ep. split.
  - rewrite length_app. simpl. lia.
  - apply Forall_app. split; [done|]. by constructor.
Qed.

Lemma add_objects_fit objs seg : objects_fit objs -> objects_fit (add_objects objs seg).
Proof.
  unfold add_objects. generalize (split_on_comma seg SQL_DEP_MAX_OBJECTS) as toks. intros toks. revert objs.
  induction toks as [|tok toks IH]; intros objs H; [done|]. simpl. by apply IH, add_object_fits.
Qed.

Lemma join_loop_fits fuel : forall cursor objs, objects_fit objs -> objects_fit (join_loop fuel cursor objs).
Proof.
  induction fuel as [|fuel IH]; intros cursor objs H; [done|]. cbn [join_loop].
  destruct (matched_kw _ _); [|done]. destruct (earliest STOP_KWS _) as [[b r]|]; [|by apply add_object_fits].
  apply IH. by apply add_object_fits.
Qed.

Lemma extract_tables_fit seg : objects_fit (extract_join_tables seg).
Proof.
  assert (objects_fit []) as H0 by (split; [unfold SQL_DEP_MAX_OBJECTS; simpl; lia|constructor]).
  unfold extract_join_tables. destruct (earliest _ _) as [[b r]|]; [apply join_loop_fits|]; by apply add_objects_fit.
Qed.

Lemma parse_fields_fit toks single : forall i acc fs,
  parse_fields i toks single acc = Ok fs -> length acc <= SQL_DEP_MAX_FIELDS ->
  let P f := field_fits f /\ (expansion_type f = SQL_FIELD_UNQUALIFIED -> is_some single = true) in
  Forall P acc -> length fs <= SQL_DEP_MAX_FIELDS /\ Forall P fs.
Proof.
  induction toks as [|tok toks IH]; intros i acc fs H Hl P Hacc; cbn [parse_fields] in H; [by injection H as <-|].
  destruct (is_empty tok); [by apply IH in H|].
  destruct (parse_field_token _ _ _) as [f|] eqn:Ef; [|done]. apply parse_field_fits in Ef as (? & _ & ?).
  destruct (Nat.ltb_spec (length acc) SQL_DEP_MAX_FIELDS); [|done]. apply IH in H; [done|rewrite length_app; simpl; lia|].
  apply Forall_app. split; [done|]. constructor; [by split|constructor].
Qed.

Lemma tag_length names : forall tag, length tag < 512 -> length (foldl tag_step tag names) < 512.
Proof.
  induction names as [|n names IH]; intros tag H; [done|]. simpl. apply IH. unfold tag_step.
  destruct (is_empty n); [done|]. cbv zeta. rewrite length_app, length_take.
  destruct (_ && _) eqn:E; [|lia]. bools. apply Nat.ltb_lt in H1. rewrite length_app. simpl. lia.
Qed.

(** The cursor only moves forward, so [S (length cursor)] turns are enough. *)
Lemma earliest_split kws s b r : earliest kws s = Some (b, r) -> s = b ++ r.
Proof.
  unfold earliest.
  enough (forall best, match best with Some (b, r) => s = b ++ r | None => True end ->
    foldl (fun best kw => earlier (find_keyword s kw) best) best kws = Some (b, r) -> s = b ++ r) as H
    by (by apply (H None)).
  induction kws as [|kw kws IH]; intros best Hb H; simpl in H; [by subst|]. eapply IH; [|exact H].
  destruct (find_keyword s kw) as [[b1 r1]|] eqn:E; [|by destruct best as [[? ?]|]].
  apply find_kw_split in E. destruct best as [[b2 r2]|]; simpl; [by destruct (_ <? _)|done].
Qed.

Lemma matched_kw_pos kws cursor n :
  Forall (fun kw => kw <> []) kws -> matched_kw kws cursor = Some n -> 0 < n <= length cursor.
Proof.
  induction 1 as [|kw kws Hkw _ IH]; cbn [matched_kw]; [done|].
  destruct (prefix_b kw cursor) eqn:E; cbn [andb]; [|done].
  destruct (match drop _ _ with [] => _ | _ => _ end); [|done]. intros [= <-].
  apply prefix_b_spec in E as [k ->]. rewrite length_app. destruct kw; [done|]. simpl. lia.
Qed.

Lemma join_kws_nonempty : Forall (fun kw => kw <> []) JOIN_KWS.
Proof. repeat constructor; discriminate. Qed.

Lemma join_loop_fuel n : forall m cursor objs,
  length cursor < n -> length cursor < m -> join_loop n cursor objs = join_loop m cursor objs.
Proof.
  induction n as [|n IH]; intros [|m] cursor objs Hn Hm; try lia. cbn [join_loop].
  destruct (matched_kw _ _) as [len|] eqn:Em; [|done]. apply matched_kw_pos in Em; [|apply join_kws_nonempty].
  pose proof (skip_length is_blank (drop len cursor)) as Hs. rewrite length_drop in Hs.
  destruct (earliest STOP_KWS _) as [[b r]|] eqn:Es; [|done]. apply earliest_split in Es.
  apply (f_equal length) in Es. rewrite length_app in Es.
  match goal with |- join_loop n ?nx ?o = _ => assert (length nx <= length r) end; [|apply IH; lia].
  destruct (_ || _); [|lia]. destruct (earliest JOIN_KWS r) as [[b' r']|] eqn:Er; [|simpl; lia].
  apply earliest_split in Er. apply (f_equal length) in Er. rewrite length_app in Er. lia.
Qed.
End bounds.

Lemma extract_ok sql d :
  extract_sql_dependencies sql = Ok d ->
  exists from_clause tokens,
    objects d = extract_join_tables from_clause /\ objects d <> [] /\
    parse_fields 0 tokens (single_ref (objects d)) [] = Ok (fields d) /\
    needs_expansion d = existsb (fun f => negb (bool_decide (expansion_type f = SQL_FIELD_NORMAL))) (fields d).
Proof.
  unfold extract_sql_dependencies. destruct sql as [sql|]; [|done]. destruct (normalise_sql _ _) as [norm|]; [|done].
  destruct (prefix_b _ norm); [|done]. destruct (find_keyword norm (str "FROM")) as [[b r]|]; [|done].
  destruct (negb _); [|done]. cbv zeta. destruct (negb (is_empty _)); [|done].
  match goal with |- context [extract_join_tables ?fc] => generalize fc as from_clause end. intros from_clause.
  destruct (negb (is_empty from_clause)); [|done].
  destruct (length (extract_join_tables from_clause) =? 0) eqn:E0; [done|]. apply Nat.eqb_neq in E0. cbn [negb].
  match goal with |- context [parse_fields 0 ?t] => generalize t as tokens end. intros tokens.
  destruct (negb _); [|done]. intros (fs & Hf & [= <-])%res_bind_Ok. exists from_clause, tokens.
  split; [done|]. split; [|done]. cbn [objects]. by destruct (extract_join_tables from_clause).
Qed.

(** ** Properties *)

(** C22: the extractor reads back what a SELECT names.  For every statement
    of the grammar - fields that are a star, a table's star, qualified or
    (with one table) plain columns; tables in a comma list, then joins of the
    nine kinds, each with or without owner, alias and AS; conditions and a
    tail of any text without the extractor's own keywords - every raw text
    that normalises to it (case, blanks, final semicolon) yields exactly its
    tables, in order, with owners and aliases, and exactly its fields, in
    order, with their positions and what needs expanding. *)
Theorem extract_reads_back (sql : list ascii) (q : select_text) :
  select_ok q = true -> normalise_sql sql NORM_SQL_MAX = Some (print_select q) ->
  extract_sql_dependencies (Some sql) = Ok (select_deps q).
Proof. intros H%select_ok_spec. by apply extract_printed. Qed.

Definition demo_select : select_text :=
  mk_select
    [FQualified (str "O") (str "ID") (Some (true, str "ORDER_ID")); FTableStar (str "C")]
    [mk_table (Some (str "SALES")) (str "ORDERS") (Some (false, str "O"))]
    [mk_join (str "LEFT OUTER JOIN") (mk_table None (str "CUSTOMERS") (Some (true, str "C")))
       (Some (str "O.CID = C.ID"));
     mk_join (str "CROSS JOIN") (mk_table None (str "DAYS") None) None]
    (Some (str "WHERE", str "O.X > 1")).
Definition demo_raw : list ascii :=
  str "select o.id as order_id,  c.* from sales.orders o left outer join customers as c on o.cid = c.id cross join days where o.x > 1 ; ".

Lemma extract_reads_back_witness :
  exists d, extract_sql_dependencies (Some demo_raw) = Ok d /\
    map object_name (objects d) = [str "ORDERS"; str "CUSTOMERS"; str "DAYS"] /\
    map field_name (fields d) = [str "ID"; str "*"] /\ needs_expansion d = true.
Proof.
  exists (select_deps demo_select). split; [|vm_compute; repeat split].
  apply extract_reads_back; vm_compute; reflexivity.
Defined.

(** What a successful extraction guarantees for any text at all: between
    one and 64 tables and at most 256 fields, every text within its buffer
    with the names non-empty, plain columns only when there is a single table,
    the expansion flag set exactly when a field needs it, and the dependency
    tag of the cached result within its 512 bytes. *)
Theorem extract_bounds (sql : option (list ascii)) (d : DEPENDENCY_LIST) :
  extract_sql_dependencies sql = Ok d ->
  1 <= length (objects d) <= SQL_DEP_MAX_OBJECTS /\ Forall object_fits (objects d) /\
  length (fields d) <= SQL_DEP_MAX_FIELDS /\ Forall field_fits (fields d) /\
  (1 < length (objects d) -> Forall (fun f => expansion_type f <> SQL_FIELD_UNQUALIFIED) (fields d)) /\
  (needs_expansion d = true <-> Exists (fun f => expansion_type f <> SQL_FIELD_NORMAL) (fields d)) /\
  length (table_tag d) < 512.
Proof.
  intros (from_clause & tokens & Ho & Hne & Hf & Hexp)%extract_ok.
  destruct (extract_tables_fit from_clause) as [Hl Hfit]. rewrite <- Ho in Hl, Hfit.
  apply parse_fields_fit in Hf as [Hn Hf]; [|simpl; lia|constructor].
  assert (0 < length (objects d)) by (destruct (objects d); [done|simpl; lia]).
  split; [lia|]. split; [done|]. split; [done|]. split; [|split; [|split]].
  - apply (List.Forall_impl _ (fun f H => proj1 H) Hf).
  - intros H1. apply (List.Forall_impl (fun f => expansion_type f <> SQL_FIELD_UNQUALIFIED)) in Hf; [done|].
    intros f [_ Hu] E. apply Hu in E. destruct (objects d) as [|o [|]]; simpl in *; done || lia.
  - rewrite Hexp, existsb_exists, List.Exists_exists. split; intros (f & ? & Hfn); exists f; (split; [done|]).
    + by bools.
    + apply negb_true_iff. by apply bool_decide_eq_false_2.
  - unfold table_tag. apply tag_length. simpl. lia.
Qed.

Lemma extract_bounds_witness :
  exists d, extract_sql_dependencies (Some demo_raw) = Ok d /\ Forall object_fits (objects d).
Proof.
  destruct (extract_sql_dependencies (Some demo_raw)) as [d|e] eqn:E; [|vm_compute in E; discriminate E].
  exists d. split; [reflexivity|]. apply (extract_bounds (Some demo_raw) d E).
Defined.
