(* ===== verification/ResultsetCache.v ===== *)
(** * ResultsetCache: query results, and the writes that make them stale

    Models src/src/infra/resultset_cache.c on the cache of Cache.v, and the
    options that src/src/execute/Execute_Query_Batch_Module.c stores a result
    with: the dependency tag lists the tables that the extractor of
    SqlDependency.v found in the statement, so that a write to one of them
    expires the result. *)

From Stdlib Require Import Ascii String ZArith Lia Bool.
From stdpp Require Import base list strings numbers gmap.
From S2P Require Import Prelude Text Hash Cache CacheSpec SessionCache SqlDependency.

#[local] Open Scope Z_scope.

(** ** Operations *)

Definition resultset_cache_config (ini : cache_ini) : cache_config :=
  mk_config (str "resultset_cache") (pos_or (ini_bucket_count ini) 2048) (pos_or (ini_max_entries ini) 1000)
    (u64 (u64 (pos_or (ini_max_memory_mb ini) 256 * 1024) * 1024)) (pos_or (ini_ttl_seconds ini) 300)
    (parse_hash_algorithm (Some (ini_hash_algorithm ini))) 0 (ini_enabled ini).

(** [None]: [cache_create] never returns. *)
Definition resultset_cache_init (al : bool) (ini : option cache_ini) : option (option cache) :=
  match ini with
  | None => Some None
  | Some ini =>
      if negb (ini_enabled ini) then Some None
      else cache_create al (Some (resultset_cache_config ini))
  end.

Definition resultset_cache_make_key (sql : option (list ascii)) (dest_max : nat) : option (list ascii) :=
  cache_normalize_sql sql dest_max.

Definition resultset_cache_lookup (now us : Z) (c : option cache) (key : option (list ascii))
    : option cache * option cache_entry :=
  match c, key with
  | Some c, Some key => let '(c', e) := cache_lookup now us c (Some key) in (Some c', e)
  | _, _ => (c, None)
  end.

Definition resultset_cache_release (c : option cache) (entry : option nat) : option (option cache) :=
  match c with
  | None => Some None
  | Some c => match cache_release c entry with Some c' => Some (Some c') | None => None end
  end.

Definition no_opts : cache_entry_opts :=
  mk_opts 0 false 0 None 0 None None None None None None None None.

(** The caller's options with the row count and, when there is one, the JSON
    text. *)
Definition local_opts (opts : option cache_entry_opts) (row_count : Z) (json : option (list ascii))
    : cache_entry_opts :=
  let o := default no_opts opts in
  mk_opts (o_ttl_seconds o) (o_pinned o) row_count
    (match json with Some j => Some j | None => o_output_document_json o end)
    (match json with Some j => Z.of_nat (length j) | None => o_output_length_json o end)
    (o_client_ip o) (o_client_host o) (o_client_id o) (o_server_host o) (o_server_name o) (o_process_id o)
    (o_tx_trace o) (o_table_dependency_tag o).

(** [dup_ok]: the copy of the XML text is allocated; [al], [a]: the
    allocations of [cache_insert]. *)
Definition resultset_cache_store (dup_ok : bool) (al : nat -> bool) (a : nat) (now : Z) (c : option cache)
    (key output_xml output_json : option (list ascii)) (row_count : Z) (opts : option cache_entry_opts)
    : option cache * Z :=
  match c, key, output_xml with
  | Some c, Some key, Some xml =>
      if negb dup_ok then (Some c, -1)
      else
        let '(c', rc, _) := cache_insert al a now c (Some key) (Some xml) (Z.of_nat (length xml))
                              (Some (local_opts opts row_count output_json)) in
        (Some c', rc)
  | _, _, _ => (c, -1)
  end.

Definition resultset_cache_invalidate (now : Z) (c : option cache) (sql : option (list ascii)) : option cache * Z :=
  match c, sql with
  | Some c, Some sql =>
      match cache_normalize_sql (Some sql) (Z.to_nat 8192) with
      | None => (Some c, -1)
      | Some key => let '(c', rc) := cache_expire_entry now c (Some key) in (Some c', rc)
      end
  | _, _ => (c, -1)
  end.

Definition resultset_cache_invalidate_by_table (now : Z) (c : option cache) (table_name : option (list ascii))
    : option cache * Z :=
  match c, table_name with
  | Some c, Some t => let '(c', n) := cache_invalidate_by_tag now c (Some t) in (Some c', n)
  | _, _ => (c, -1)
  end.

Definition resultset_cache_evict (now : Z) (c : option cache) : option cache * Z :=
  match c with
  | None => (None, -1)
  | Some c => let '(c', n) := cache_evict_expired now c in (Some c', n)
  end.

(** The options a SELECT's result is stored with. *)
Definition select_opts (deps : DEPENDENCY_LIST) : option cache_entry_opts :=
  match table_tag deps with
  | [] => None
  | tag => Some (mk_opts 0 false 0 None 0 None None None None None None None (Some tag))
  end.

Definition resultset_cache_report (c : option cache) : option cache :=
  match c with None => None | Some c => Some (fst (cache_dump_report c)) end.
Definition resultset_cache_destroy (c : option cache) : list cache_entry :=
  match c with None => [] | Some c => cache_destroy c end.

(** ** The tag names every table *)

Section tags.
Implicit Types (names : list (list ascii)) (tag n : list ascii).

Lemma tag_steps names : forall tag,
  tag <> [] -> Forall (fun n => n <> []) names ->
  (length tag + length (concat (map (cons ","%char) names)) <= 511)%nat ->
  foldl tag_step tag names = tag ++ concat (map (cons ","%char) names).
Proof.
  induction names as [|n names IH]; intros tag Ht Hn Hl; simpl; [by rewrite app_nil_r|].
  apply Forall_cons_1 in Hn as [Hn Hns]. simpl in Hl. rewrite length_app in Hl.
  assert (tag_step tag n = tag ++ ","%char :: n) as E.
  { unfold tag_step. destruct n as [|x n]; [done|]. cbn [is_empty].
    assert (0 < length tag)%nat by (destruct tag; [done|simpl; lia]).
    rewrite (proj2 (Nat.ltb_lt 0 (length tag))), (proj2 (Nat.ltb_lt (length tag) 511)) by lia.
    cbn [andb]. cbv zeta. rewrite length_app, take_ge by (simpl in *; lia). by rewrite <- app_assoc. }
  rewrite E, IH; [by rewrite <- app_assoc|by destruct tag|done|rewrite length_app; simpl in *; lia].
Qed.

Lemma sep_by_concat n names : sep_by "," (n :: names) = n ++ concat (map (cons ","%char) names).
Proof.
  revert n. induction names as [|m names IH]; intros n; [simpl; by rewrite app_nil_r|].
  change (sep_by "," (n :: m :: names)) with (n ++ ","%char :: sep_by "," (m :: names)). by rewrite IH.
Qed.

(** The tag is the comma list of the names when that fits its 512 bytes. *)
Lemma table_tag_list d :
  Forall (fun o => object_name o <> []) (objects d) ->
  (length (sep_by "," (map object_name (objects d))) < 512)%nat ->
  table_tag d = sep_by "," (map object_name (objects d)).
Proof.
  unfold table_tag. intros Hn Hl. assert (Forall (fun n => n <> []) (map object_name (objects d))) as Hn'
    by (by apply List.Forall_map).
  destruct (map object_name (objects d)) as [|n names]; [done|]. apply Forall_cons_1 in Hn' as [Hne Hns].
  rewrite sep_by_concat in *. rewrite length_app in Hl. cbn [foldl].
  assert (tag_step [] n = n) as ->; [|apply tag_steps; [done|done|lia]].
  unfold tag_step. destruct n as [|x n]; [done|]. cbn [is_empty length Nat.ltb Nat.leb andb app]. cbv zeta.
  apply take_ge. simpl in *. lia.
Qed.

Lemma in_sep_by n names : In n names -> is_Some (strstr n (sep_by "," names)).
Proof.
  intros H. apply strstr_spec. induction names as [|m names IH]; [done|]. destruct H as [->|H].
  - exists []. rewrite sep_by_concat. by eexists.
  - destruct (IH H) as (p & q & E). destruct names as [|m' names]; [done|].
    exists (m ++ ","%char :: p), q. change (sep_by "," (m :: m' :: names)) with (m ++ ","%char :: sep_by "," (m' :: names)).
    rewrite E. by rewrite <- app_assoc.
Qed.
End tags.

(** ** Properties *)

(** A statement's tables all fit its tag. *)
Definition tag_whole (d : DEPENDENCY_LIST) : bool :=
  (length (sep_by "," (map object_name (objects d))) <? 512)%nat.

(** C10: a write to a table the extractor found makes the result unreachable.
    Take a SELECT that [extract_sql_dependencies] accepts and the objects it
    returns - in upper case, and only those: what it overlooks in a statement
    is not in the tag either -, whose names fit the tag.  With a cache that is
    on, memory for the copy and the entry, and no reader that holds an older
    entry of the key, the store succeeds, and the entry carries the names of
    all these objects.  As long as that entry, or one with the same tag, is
    the one under the key - whatever else was called meanwhile -, invalidating
    any one of these names, spelt as the tag has it, makes every later lookup
    of the key miss, whether or not the entry is borrowed then. *)
Theorem write_invalidates_dependents (sql : list ascii) (d : DEPENDENCY_LIST) (c : cache) (a : nat) (t0 rows : Z)
    (key xml : list ascii) (json : option (list ascii)) :
  extract_sql_dependencies (Some sql) = Ok d -> tag_whole d = true ->
  cinv c -> enabled c = true -> 0 <= t0 -> a ∉ map addr (entries c) ->
  (forall e, abs c !! key = Some e -> in_use e = false) ->
  exists c1 e,
    resultset_cache_store true (fun _ => true) a t0 (Some c) (Some key) (Some xml) json rows (select_opts d) = (Some c1, 0) /\
    cinv c1 /\ abs c1 !! key = Some e /\ output_document e = xml /\ row_count e = rows /\
    table_dependency_tag e = Some (sep_by "," (map object_name (objects d))) /\
    forall c2 e2 o t1 t2 us,
      cinv c2 -> abs c2 !! key = Some e2 -> table_dependency_tag e2 = table_dependency_tag e ->
      In o (objects d) -> 1 < t1 -> t1 <= t2 ->
      snd (resultset_cache_lookup t2 us
             (fst (resultset_cache_invalidate_by_table t1 (Some c2) (Some (object_name o)))) (Some key)) = None.
Proof.
  intros Hx Hw H Hen Ht Ha Hfree. unfold tag_whole in Hw. apply Nat.ltb_lt in Hw.
  destruct (extract_ok _ _ Hx) as (from & toks & Hob & Hne & _).
  pose proof (proj2 (extract_tables_fit from)) as Hfit. rewrite <- Hob in Hfit.
  assert (Forall (fun o => object_name o <> []) (objects d)) as Hnames.
  { apply List.Forall_forall. intros o Hin. rewrite List.Forall_forall in Hfit.
    destruct (Hfit o Hin) as (_ & Hl & _). destruct (object_name o); [simpl in Hl; lia|done]. }
  pose proof (table_tag_list d Hnames Hw) as Htag.
  destruct (insert_stores c a t0 key xml (Z.of_nat (length xml)) (Some (local_opts (select_opts d) rows json)) H Hen Ht Ha Hfree)
    as (c1 & e & Hins & H1 & _ & Habs & Ea).
  exists c1, e. unfold resultset_cache_store. cbn [negb]. rewrite Hins.
  unfold alloc_entry in Ea. cbn [negb] in Ea. injection Ea as <-. cbn [output_document row_count table_dependency_tag].
  split; [done|]. split; [done|]. split; [by rewrite Habs, lookup_insert_eq|]. split; [done|]. split; [done|].
  assert (o_table_dependency_tag (default no_opts (select_opts d)) =
          Some (sep_by "," (map object_name (objects d)))) as ->.
  { unfold select_opts. rewrite Htag. destruct (objects d) as [|o os]; [done|]. apply Forall_cons_1 in Hnames as [Hn _].
    cbn [map]. rewrite sep_by_concat. by destruct (object_name o). }
  split; [done|]. intros c2 e2 o t1 t2 us H2 He2 Htag2 Hin Ht1 Ht2.
  unfold resultset_cache_invalidate_by_table, resultset_cache_lookup.
  pose proof (invalidated_misses c2 (object_name o) t1 key e2
                (sep_by "," (map object_name (objects d))) t2 us H2 Ht1) as Hmiss.
  destruct (cache_invalidate_by_tag t1 c2 (Some (object_name o))) as [c3 n]. cbn [fst] in *.
  destruct (cache_lookup t2 us c3 (Some key)) as [c4 r] eqn:El. cbn [snd] in *.
  rewrite Hmiss; try done.
  - rewrite List.Forall_forall in Hnames. by apply Hnames.
  - apply in_sep_by. by apply in_map.
Qed.

(** A statement over two tables, its result, then a write to one of them. *)
Definition emp_dept : list ascii := str "select e.name, d.name from emp e join dept d on e.dno = d.no".
Definition emp_dept_key : list ascii := str "SELECT E.NAME, D.NAME FROM EMP E JOIN DEPT D ON E.DNO = D.NO".

Lemma write_invalidates_dependents_witness :
  exists c1,
    snd (resultset_cache_lookup 110 1 (Some c1) (Some emp_dept_key)) <> None /\
    snd (resultset_cache_lookup 112 1
           (fst (resultset_cache_invalidate_by_table 111 (Some c1) (Some (str "DEPT")))) (Some emp_dept_key)) = None.
Proof.
  destruct (extract_sql_dependencies (Some emp_dept)) as [d|r] eqn:E; [|vm_compute in E; discriminate E].
  assert (objects d = [mk_object [] (str "EMP") (str "E"); mk_object [] (str "DEPT") (str "D")]) as Ho
    by (vm_compute in E; injection E as <-; reflexivity).
  assert (tag_whole d = true) as Hw by (unfold tag_whole; rewrite Ho; vm_compute; reflexivity).
  destruct (write_invalidates_dependents emp_dept d demo 9 100 2 emp_dept_key (str "<rows/>") None E Hw
              (reachable_inv demo (demo_reachable [] I ltac:(by eexists))) eq_refl ltac:(lia)
              ltac:(vm_compute; by intros ?%elem_of_nil) ltac:(by intros e He; vm_compute in He))
    as (c1 & e & Hst & H1 & He & _ & _ & _ & Hmiss).
  exists c1. split.
  - vm_compute in E. injection E as <-. vm_compute in Hst. injection Hst as <-. vm_compute. discriminate.
  - apply (Hmiss c1 e (mk_object [] (str "DEPT") (str "D")) 111 112 1 H1 He eq_refl); [rewrite Ho; simpl; tauto|lia|lia].
Defined.

(** The statement's tag is in upper case, the invalidation compares as it is:
    a write that names the table in lower case leaves the result in place. *)
Definition emp_cached : option cache :=
  match extract_sql_dependencies (Some emp_dept) with
  | Ok d => fst (resultset_cache_store true (fun _ => true) 9 100 (Some demo) (Some emp_dept_key)
                   (Some (str "<rows/>")) None 2 (select_opts d))
  | Err _ => None
  end.

Example lower_case_write_keeps_result :
  exists e, snd (resultset_cache_lookup 112 1
    (fst (resultset_cache_invalidate_by_table 111 emp_cached (Some (str "dept")))) (Some emp_dept_key)) = Some e /\
  output_document e = str "<rows/>".
Proof. eexists. split; vm_compute; reflexivity. Qed.

(** Keys are in upper case throughout, string literals included: two
    statements that ask for different rows share one entry. *)
Example literal_case_shares_key :
  resultset_cache_make_key (Some (str "SELECT x FROM t WHERE n = 'abc'")) (Z.to_nat 8192) =
  resultset_cache_make_key (Some (str "SELECT x FROM t WHERE n = 'ABC'")) (Z.to_nat 8192).
Proof. vm_compute; reflexivity. Qed.
