(* ===== verification/MetadataCache.v ===== *)
(** * MetadataCache: table metadata, fetched once

    Models src/src/infra/metadata_cache.c on any [KeyedStore]: the columns of
    a table are kept as a count and the raw structs under "OWNER.TABLE".  A
    column is its object representation, [SIZEOF_COL] bytes that the module
    copies and never looks into.  The database driver behind
    [get_request_metadata] is an argument; log lines and the measured times
    are left out. *)

From Stdlib Require Import Ascii String ZArith Lia Bool.
From stdpp Require Import base list strings numbers.
From S2P Require Import Prelude Text Hash Cache CacheSpec KeyedStore SessionCache AuthzCache.

#[local] Open Scope Z_scope.

(** ** Data *)

(** [sizeof(col_metadata_t)]: five character arrays and three ints. *)
Definition SIZEOF_COL : nat := 912.
Definition META_PAYLOAD_HDR_SIZE : nat := 4.

Record metadata_request := mk_request { table_name : list ascii; req_owner : list ascii }.

Record metadata_cache_result := mk_result { was_cache_hit : bool; cache_key : list ascii }.

(** What [describe_table] answers: its result, the request as it leaves it,
    and the columns. *)
Record described := mk_described {
  d_rc : Z; d_request : metadata_request; d_cols : list (list ascii) }.

Definition metadata_cache_config (ini : cache_ini) : cache_config :=
  mk_config (str "metadata_cache") (pos_or (ini_bucket_count ini) 512) (pos_or (ini_max_entries ini) 500)
    (u64 (u64 (pos_or (ini_max_memory_mb ini) 64 * 1024) * 1024)) (pos_or (ini_ttl_seconds ini) 3600)
    (parse_hash_algorithm (Some (ini_hash_algorithm ini))) 0 (ini_enabled ini).

(** [None]: [cache_create] never returns. *)
Definition metadata_cache_init (al : bool) (ini : option cache_ini) : option (option cache) :=
  match ini with
  | None => Some None
  | Some ini =>
      if negb (ini_enabled ini) then Some None
      else cache_create al (Some (metadata_cache_config ini))
  end.

(** ** Keys and payloads *)

Definition meta_upper_copy (src : list ascii) (dst_max : nat) : list ascii := map toupper (take (dst_max - 1) src).

Definition metadata_cache_make_key (owner table : option (list ascii)) (dest_max : nat) : option (list ascii) :=
  match table with
  | None => None
  | Some table =>
      if (dest_max <? 4)%nat then None
      else
        let u_table := meta_upper_copy table 128 in
        Some (take (dest_max - 1)
                (match owner with
                 | Some ((_ :: _) as o) => meta_upper_copy o 128 ++ str "." ++ u_table
                 | _ => u_table
                 end))
  end.

(** The bytes of an [int], little-endian, and back. *)
Definition int_bytes (n : Z) : list ascii :=
  map (fun i => chr (n / 2 ^ (8 * Z.of_nat i) mod 256)) (seq 0 4).
Definition read_int (bs : list ascii) : Z :=
  let u := foldr (fun b acc => code b + 256 * acc) 0 (take 4 bs) in
  if u <? 2 ^ 31 then u else u - 2 ^ 32.

Fixpoint chunks (n size : nat) (bs : list ascii) : list (list ascii) :=
  match n with
  | O => []
  | S n' => take size bs :: chunks n' size (drop size bs)
  end.

(** [None]: -1. *)
Definition metadata_cache_deserialise (payload : list ascii) (max_cols : Z) : option (list (list ascii)) :=
  if max_cols <=? 0 then None
  else if (length payload <? META_PAYLOAD_HDR_SIZE)%nat then None
  else
    let stored_count := read_int payload in
    if (stored_count <=? 0) || (max_cols <? stored_count) then None
    else if (length payload <? META_PAYLOAD_HDR_SIZE + Z.to_nat stored_count * SIZEOF_COL)%nat then None
    else Some (chunks (Z.to_nat stored_count) SIZEOF_COL (drop META_PAYLOAD_HDR_SIZE payload)).

Definition serialise (cols : list (list ascii)) : list ascii :=
  int_bytes (Z.of_nat (length cols)) ++ concat cols.

(** ** Operations *)

Section operations.
Context {C : Type} {K : KeyedStore C}.

Definition metadata_cache_lookup (now us : Z) (c : C) (key : option (list ascii)) : C * option (nat * list ascii) :=
  match key with None => (c, None) | Some _ => ks_get now us c key end.
Definition metadata_cache_release (c : C) (entry : option nat) : option C := ks_release c entry.

Definition metadata_cache_invalidate (now : Z) (c : option C) (owner table : option (list ascii)) : option C * Z :=
  match c, table with
  | Some c, Some _ =>
      match metadata_cache_make_key owner table 260 with
      | None => (Some c, -1)
      | Some key => let '(c', rc) := ks_expire now c (Some key) in (Some c', rc)
      end
  | _, _ => (c, -1)
  end.

(** [al_doc]: the payload is allocated. *)
Definition metadata_cache_store (al_doc : bool) (al : nat -> bool) (a : nat) (now : Z) (c : C)
    (key : list ascii) (cols : list (list ascii)) : C * Z :=
  match cols with
  | [] => (c, -1)
  | _ :: _ =>
      if negb al_doc then (c, -1)
      else let '(c', rc, _) := ks_put al a now c key (serialise cols) empty_opts in (c', rc)
  end.

(** The answer: 0 or the driver's code, the request, the columns, the result
    struct. *)
Record metadata_answer := mk_metadata_answer {
  m_rc : Z; m_request : metadata_request; m_cols : list (list ascii); m_result : metadata_cache_result }.

Definition fetched (d : described) (key : list ascii) : metadata_answer :=
  mk_metadata_answer (d_rc d) (d_request d) (d_cols d) (mk_result false key).

(** [None]: [metadata_cache_release] was handed a freed entry. *)
Definition metadata_cache_get_or_fetch (al_doc : bool) (al : nat -> bool) (a : nat) (now us : Z) (c : option C)
    (fetch : metadata_request -> described) (req : metadata_request) (max_cols : Z)
    : option (option C * metadata_answer) :=
  if max_cols <=? 0 then Some (c, mk_metadata_answer (-1) req [] (mk_result false []))
  else
    match c with
    | None => Some (None, fetched (fetch req) [])
    | Some c =>
        match metadata_cache_make_key (Some (req_owner req)) (Some (table_name req)) 260 with
        | None => Some (Some c, fetched (fetch req) [])
        | Some key =>
            match metadata_cache_lookup now us c (Some key) with
            | (c1, Some (entry, doc)) =>
                let cols := metadata_cache_deserialise doc max_cols in
                match metadata_cache_release c1 (Some entry) with
                | None => None
                | Some c2 =>
                    match cols with
                    | Some cols => Some (Some c2, mk_metadata_answer 0 req cols (mk_result true key))
                    | None =>
                        let '(c3, _) := metadata_cache_invalidate now (Some c2) (Some (req_owner req))
                                          (Some (table_name req)) in
                        Some (c3, fetched (fetch req) key)
                    end
                end
            | (c1, None) =>
                let d := fetch req in
                if negb (d_rc d =? 0) then Some (Some c1, fetched d key)
                else
                  let '(c2, _) := metadata_cache_store al_doc al a now c1 key (d_cols d) in
                  Some (Some c2, mk_metadata_answer 0 (d_request d) (d_cols d) (mk_result false key))
            end
        end
    end.
End operations.

Definition metadata_cache_evict (now : Z) (c : option cache) : option cache * Z :=
  match c with None => (None, -1) | Some c => let '(c', n) := cache_evict_expired now c in (Some c', n) end.
Definition metadata_cache_report (c : option cache) : option cache :=
  match c with None => None | Some c => Some (fst (cache_dump_report c)) end.
Definition metadata_cache_destroy (c : option cache) : list cache_entry :=
  match c with None => [] | Some c => cache_destroy c end.

(** ** Payloads: lemmas *)

Lemma read_int_bytes n k : 0 <= n < 2 ^ 31 -> read_int (int_bytes n ++ k) = n.
Proof.
  intros H. unfold read_int, int_bytes. cbn [seq map app take foldr].
  rewrite !code_chr by (apply Z.mod_pos_bound; lia).
  change (8 * Z.of_nat 0) with 0. change (8 * Z.of_nat 1) with 8. change (8 * Z.of_nat 2) with 16.
  change (8 * Z.of_nat 3) with 24. change (2 ^ 0) with 1. change (2 ^ 8) with 256. change (2 ^ 16) with 65536.
  change (2 ^ 24) with 16777216. change (2 ^ 31) with 2147483648 in *. change (2 ^ 32) with 4294967296.
  set (u := _ + _). assert (u = n) as ->; [subst u|destruct (Z.ltb_spec n 2147483648); lia].
  rewrite Z.div_1_r.
  replace (n / 65536) with (n / 256 / 256) by (rewrite Z.div_div by lia; done).
  replace (n / 16777216) with (n / 256 / 256 / 256) by (rewrite !Z.div_div by lia; done).
  assert (n / 256 / 256 / 256 < 256) by (rewrite !Z.div_div by lia; apply Z.div_lt_upper_bound; lia).
  assert (0 <= n / 256 / 256 / 256) by (repeat apply Z.div_pos; lia).
  rewrite (Z.mod_small (n / 256 / 256 / 256)) by lia.
  rewrite take_0. cbn [foldr].
  pose proof (Z.div_mod n 256 ltac:(lia)). pose proof (Z.div_mod (n / 256) 256 ltac:(lia)).
  pose proof (Z.div_mod (n / 256 / 256) 256 ltac:(lia)). lia.
Qed.

Lemma chunks_concat (cols : list (list ascii)) size k :
  Forall (fun c => length c = size) cols -> chunks (length cols) size (concat cols ++ k) = cols.
Proof.
  induction 1 as [|c cols Hc _ IH]; [done|]. cbn [concat length chunks]. rewrite <- app_assoc.
  rewrite take_app_length', drop_app_length' by done. by rewrite IH.
Qed.

Lemma concat_length (cols : list (list ascii)) size :
  Forall (fun c => length c = size) cols -> length (concat cols) = (length cols * size)%nat.
Proof. induction 1 as [|c cols Hc _ IH]; [done|]. cbn [concat length]. rewrite length_app. lia. Qed.

Definition cols_ok (max_cols : Z) (cols : list (list ascii)) : Prop :=
  0 < Z.of_nat (length cols) <= max_cols /\ Forall (fun c => length c = SIZEOF_COL) cols.

Lemma serialise_length cols max : cols_ok max cols -> length (serialise cols) = (4 + length cols * SIZEOF_COL)%nat.
Proof. intros [_ H]. unfold serialise. rewrite length_app, (concat_length _ SIZEOF_COL) by done. done. Qed.

Lemma deserialise_serialise cols max :
  cols_ok max cols -> max < 2 ^ 31 -> metadata_cache_deserialise (serialise cols) max = Some cols.
Proof.
  intros Hc Hm. pose proof (serialise_length cols max Hc) as Hl. destruct Hc as [Hn Hs].
  unfold metadata_cache_deserialise. destruct (Z.leb_spec max 0); [lia|]. rewrite Hl.
  destruct (Nat.ltb_spec (4 + length cols * SIZEOF_COL) META_PAYLOAD_HDR_SIZE); [unfold META_PAYLOAD_HDR_SIZE in *; lia|].
  cbv zeta. unfold serialise. rewrite read_int_bytes by lia.
  destruct (Z.leb_spec (Z.of_nat (length cols)) 0); [lia|].
  destruct (Z.ltb_spec max (Z.of_nat (length cols))); [lia|]. cbn [orb]. rewrite Nat2Z.id.
  destruct (Nat.ltb_spec (4 + length cols * SIZEOF_COL) (META_PAYLOAD_HDR_SIZE + length cols * SIZEOF_COL));
    [unfold META_PAYLOAD_HDR_SIZE in *; lia|].
  change META_PAYLOAD_HDR_SIZE with (length (int_bytes (Z.of_nat (length cols)))). rewrite drop_app_length.
  rewrite <- (app_nil_r (concat cols)). by rewrite chunks_concat.
Qed.

(** ** Lookups: lemmas *)

Definition key_of (req : metadata_request) : list ascii :=
  default [] (metadata_cache_make_key (Some (req_owner req)) (Some (table_name req)) 260).

Lemma make_key_of req : metadata_cache_make_key (Some (req_owner req)) (Some (table_name req)) 260 = Some (key_of req).
Proof. done. Qed.

(** The identity of a table: the owner, when there is one, and the name, in
    upper case, whatever the case of the request. *)
Lemma make_key_case o t o' t' :
  map toupper o = map toupper o' -> map toupper t = map toupper t' ->
  metadata_cache_make_key (Some o) (Some t) 260 = metadata_cache_make_key (Some o') (Some t') 260.
Proof.
  intros Ho Ht. unfold metadata_cache_make_key, meta_upper_copy. cbn [Nat.ltb Nat.leb].
  rewrite <- !firstn_map, Ht. destruct o as [|x o], o' as [|x' o']; try done.
  by rewrite Ho.
Qed.

Section lookups.
Context {C : Type} {K : KeyedStore C}.
Implicit Types (c : C) (req : metadata_request) (fetch : metadata_request -> described).

Definition live_at (now : Z) (c : C) (key : list ascii) : bool :=
  match ks_view c key with Some s => live now s | None => false end.

(** A miss: the driver is asked, and its columns are stored when it succeeds. *)
Lemma get_or_fetch_miss al_doc al a now us c fetch req max_cols :
  ks_ok c -> ks_on c = true -> 0 <= now -> 0 < max_cols -> live_at now c (key_of req) = false ->
  exists c1, ks_ok c1 /\ ks_on c1 = true /\ (forall k, ks_view c1 k = ks_view c k) /\
    c1 = fst (ks_get now us c (Some (key_of req))) /\
    metadata_cache_get_or_fetch al_doc al a now us (Some c) fetch req max_cols =
      let d := fetch req in
      if negb (d_rc d =? 0) then Some (Some c1, fetched d (key_of req))
      else Some (Some (fst (metadata_cache_store al_doc al a now c1 (key_of req) (d_cols d))),
                 mk_metadata_answer 0 (d_request d) (d_cols d) (mk_result false (key_of req))).
Proof.
  intros Hok Hon Hn Hm Hl. unfold metadata_cache_get_or_fetch. destruct (Z.leb_spec max_cols 0); [lia|].
  rewrite make_key_of. unfold metadata_cache_lookup. pose proof (get_law c now us (key_of req) Hok Hn) as Hg.
  destruct (ks_get now us c (Some (key_of req))) as [c1 r]. destruct Hg as (Hok1 & Hon1 & _ & Hg).
  rewrite Hon in *. unfold live_at in Hl.
  assert (r = None /\ forall k, ks_view c1 k = ks_view c k) as [-> Hv].
  { destruct (ks_view c (key_of req)) as [s|]; [rewrite Hl in Hg|]; exact Hg. }
  exists c1. split; [done|]. split; [done|]. split; [done|]. split; [done|]. cbv zeta.
  destruct (negb _); [done|]. by destruct (metadata_cache_store _ _ _ _ _ _ _).
Qed.

(** A hit on columns that were stored here: they come back, and the entry is
    released. *)
Lemma get_or_fetch_hit al_doc al a now us c fetch req max_cols s cols :
  ks_ok c -> ks_on c = true -> 0 <= now -> 0 < max_cols < 2 ^ 31 ->
  ks_view c (key_of req) = Some s -> live now s = true -> st_doc s = serialise cols -> cols_ok max_cols cols ->
  exists c2, ks_ok c2 /\ ks_on c2 = true /\
    (forall k, ks_view c2 k = upd (key_of req) (Some (lend false s)) (ks_view c) k) /\
    metadata_cache_get_or_fetch al_doc al a now us (Some c) fetch req max_cols =
      Some (Some c2, mk_metadata_answer 0 req cols (mk_result true (key_of req))).
Proof.
  intros Hok Hon Hn Hm Hv Hl Hd Hc. unfold metadata_cache_get_or_fetch. destruct (Z.leb_spec max_cols 0); [lia|].
  rewrite make_key_of. unfold metadata_cache_lookup. pose proof (get_law c now us (key_of req) Hok Hn) as Hg.
  destruct (ks_get now us c (Some (key_of req))) as [c1 r]. destruct Hg as (Hok1 & Hon1 & _ & Hg).
  rewrite Hon, Hv, Hl in Hg. destruct Hg as (e & -> & Hh & Hv1).
  destruct (release_law c1 e (key_of req) (lend true s) Hok1 Hh) as (c2 & Hr & Hok2 & Hon2 & _ & Hv2);
    [by rewrite Hv1, upd_eq|].
  unfold metadata_cache_release. rewrite Hr, Hd, deserialise_serialise by (done || lia).
  exists c2. split; [done|]. split; [congruence|]. split; [|done].
  intros k. rewrite Hv2. destruct (decide (k = key_of req)) as [->|Hne]; [by rewrite !upd_eq|].
  by rewrite !upd_ne, Hv1, upd_ne by done.
Qed.

(** Storing keeps what the store says of the other keys. *)
Lemma store_view al_doc a now c key cols max_cols :
  ks_ok c -> ks_on c = true -> 0 <= now -> ks_fresh c a -> cols_ok max_cols cols ->
  let c' := fst (metadata_cache_store al_doc (fun _ => true) a now c key cols) in
  ks_ok c' /\ ks_on c' = true /\
  forall k s, ks_view c' k = Some s -> ks_view c k = Some s \/ (k = key /\ st_doc s = serialise cols /\ st_borrowed s = false).
Proof.
  intros Hok Hon Hn Hf [Hlen _]. cbv zeta. unfold metadata_cache_store.
  destruct cols as [|x cols]; [simpl in Hlen; lia|]. destruct al_doc; cbn [negb]; [|by auto].
  destruct (ks_view c key) as [s|] eqn:Ev; [destruct (st_borrowed s) eqn:Eb|].
  - rewrite (put_borrowed_law _ c a now key _ empty_opts s) by done. by auto.
  - pose proof (put_law c a now key (serialise (x :: cols)) empty_opts Hok Hon Hn Hf) as Hp.
    destruct (ks_put _ _ _ _ _ _ _) as [[c' rc] f]. destruct Hp as (_ & _ & ? & ? & _ & Hv); [by intros ? [= <-]%(eq_trans (eq_sym Ev))|].
    split; [done|]. split; [done|]. intros k s'. cbn [fst]. rewrite Hv.
    destruct (decide (k = key)) as [->|Hne]; [rewrite upd_eq; intros [= <-]; by right|]. rewrite upd_ne by done. by left.
  - pose proof (put_law c a now key (serialise (x :: cols)) empty_opts Hok Hon Hn Hf) as Hp.
    destruct (ks_put _ _ _ _ _ _ _) as [[c' rc] f]. destruct Hp as (_ & _ & ? & ? & _ & Hv); [congruence|].
    split; [done|]. split; [done|]. intros k s'. cbn [fst]. rewrite Hv.
    destruct (decide (k = key)) as [->|Hne]; [rewrite upd_eq; intros [= <-]; by right|]. rewrite upd_ne by done. by left.
Qed.
End lookups.

(** ** Properties *)

(** What the store holds of the database [db]: under every key the columns of
    that table. *)
Definition meta_inv {C : Type} {K : KeyedStore C} (db : list ascii -> list (list ascii)) (c : C) : Prop :=
  ks_ok c /\ ks_on c = true /\ forall k s, ks_view c k = Some s -> st_doc s = serialise (db k).

(** The driver answers every request from [db]. *)
Definition answers_from (fetch : metadata_request -> described) (db : list ascii -> list (list ascii)) (max_cols : Z) : Prop :=
  forall req, d_rc (fetch req) = 0 /\ d_cols (fetch req) = db (key_of req) /\ cols_ok max_cols (db (key_of req)).

(** C23: the metadata cache is transparent.  Against a driver that answers
    from a fixed database, a call on a store that holds only that database's
    columns always returns 0 and exactly the columns the driver would give -
    from the store when a live entry is there, from the driver otherwise - for
    any clock and with or without memory for the payload (the store has its
    own), and leaves the store holding only that database's columns.  No
    entry is borrowed afterwards that was not before; an entry served from the
    store is not, whoever had it before. *)
Theorem metadata_cache_transparent {C : Type} {K : KeyedStore C} (c : C)
    (fetch : metadata_request -> described) (db : list ascii -> list (list ascii)) (max_cols : Z)
    (al_doc : bool) (a : nat) (now us : Z) (req : metadata_request) :
  answers_from fetch db max_cols -> max_cols < 2 ^ 31 -> meta_inv db c -> 0 <= now ->
  ks_fresh (fst (ks_get now us c (Some (key_of req)))) a ->
  exists c' ans,
    metadata_cache_get_or_fetch al_doc (fun _ => true) a now us (Some c) fetch req max_cols = Some (Some c', ans) /\
    m_rc ans = 0 /\ m_cols ans = db (key_of req) /\ was_cache_hit (m_result ans) = live_at now c (key_of req) /\
    meta_inv db c' /\
    (forall k s, ks_view c' k = Some s -> st_borrowed s = true -> ks_view c k = Some s) /\
    (live_at now c (key_of req) = true -> exists s, ks_view c' (key_of req) = Some s /\ st_borrowed s = false).
Proof.
  intros Hf Hm (Hok & Hon & Hinv) Hn Hfr. destruct (Hf req) as (Hrc & Hcols & Hc).
  assert (0 < max_cols) as Hm0 by (destruct Hc; lia).
  destruct (live_at now c (key_of req)) eqn:El.
  - unfold live_at in El. destruct (ks_view c (key_of req)) as [s|] eqn:Ev; [|done].
    destruct (get_or_fetch_hit al_doc (fun _ => true) a now us c fetch req max_cols s (db (key_of req)) Hok Hon Hn
                ltac:(lia) Ev El (Hinv _ _ Ev) Hc) as (c2 & Hok2 & Hon2 & Hv2 & ->).
    eexists c2, _. split; [done|]. do 3 (split; [done|]). split; [split; [done|]; split; [done|]|split].
    + intros k s' Hs'. rewrite Hv2 in Hs'.
      destruct (decide (k = key_of req)) as [->|Hne]; [rewrite upd_eq in Hs'; injection Hs' as <-; exact (Hinv _ _ Ev)|].
      rewrite upd_ne in Hs' by done. by apply Hinv.
    + intros k s' Hs' Hb. rewrite Hv2 in Hs'. destruct (decide (k = key_of req)) as [->|Hne]; [|by rewrite upd_ne in Hs'].
      rewrite upd_eq in Hs'. injection Hs' as <-. done.
    + intros _. exists (lend false s). by rewrite Hv2, upd_eq.
  - destruct (get_or_fetch_miss al_doc (fun _ => true) a now us c fetch req max_cols Hok Hon Hn Hm0 El)
      as (c1 & Hok1 & Hon1 & Hv1 & -> & ->).
    cbv zeta. rewrite Hrc. cbn [negb]. rewrite Hcols.
    destruct (store_view al_doc a now _ (key_of req) (db (key_of req)) max_cols Hok1 Hon1 Hn Hfr Hc) as (Hok2 & Hon2 & Hv2).
    eexists _, _. split; [done|]. do 3 (split; [done|]). split; [split; [done|]; split; [done|]|split; [|done]].
    + intros k s Hs. apply Hv2 in Hs as [Hs|(-> & Hs & _)]; [|done]. rewrite Hv1 in Hs. by apply Hinv.
    + intros k s Hs Hb. apply Hv2 in Hs as [Hs|(-> & _ & Hs)]; [by rewrite Hv1 in Hs|congruence].
Qed.

Definition demo_cols : list (list ascii) := [replicate SIZEOF_COL "x"%char].
Definition demo_fetch (req : metadata_request) : described := mk_described 0 req demo_cols.
Definition demo_request : metadata_request := mk_request (str "emp") (str "scott").

Lemma demo_answers : answers_from demo_fetch (fun _ => demo_cols) 1024.
Proof. intros req. split; [done|]. split; [done|]. split; [simpl; lia|]. by repeat constructor. Qed.

Lemma demo_empty (db : list ascii -> list (list ascii)) : meta_inv db demo.
Proof.
  split; [exact (reachable_inv demo (demo_reachable [] I ltac:(by eexists)))|]. split; [reflexivity|].
  intros k s Hs. unfold ks_view in Hs. cbn in Hs. unfold cache_view in Hs.
  replace (abs demo) with (∅ : gmap.gmap (list ascii) cache_entry) in Hs by (vm_compute; reflexivity).
  by rewrite fin_maps.lookup_empty in Hs.
Qed.

Lemma metadata_cache_transparent_witness :
  exists c' ans,
    metadata_cache_get_or_fetch true (fun _ => true) 5 100 1 (Some demo) demo_fetch demo_request 1024 = Some (Some c', ans) /\
    m_cols ans = demo_cols /\ meta_inv (fun _ => demo_cols) c'.
Proof.
  destruct (metadata_cache_transparent demo demo_fetch (fun _ => demo_cols) 1024 true 5 100 1 demo_request
              demo_answers ltac:(lia) (demo_empty _) ltac:(lia) ltac:(vm_compute; by intros ?%elem_of_nil))
    as (c' & ans & E & _ & Hc & _ & Hi & _).
  exists c', ans. split; [exact E|]. split; [exact Hc|exact Hi].
Defined.

(** Invalidation and failures.  After [metadata_cache_invalidate] of a
    table - its name in any case - the next request for it goes to the
    driver, whatever was cached, and returns the driver's code and columns;
    when the driver fails nothing is stored under any key. *)
Theorem metadata_invalidate_refetches {C : Type} {K : KeyedStore C} (c : C)
    (fetch : metadata_request -> described) (max_cols : Z) (al_doc : bool) (al : nat -> bool) (a : nat)
    (t now us : Z) (owner table : list ascii) (req : metadata_request) :
  ks_ok c -> ks_on c = true -> 1 < t -> t <= now -> 0 < max_cols ->
  map toupper owner = map toupper (req_owner req) -> map toupper table = map toupper (table_name req) ->
  exists c1 rc c2 ans,
    metadata_cache_invalidate t (Some c) (Some owner) (Some table) = (Some c1, rc) /\
    metadata_cache_get_or_fetch al_doc al a now us (Some c1) fetch req max_cols = Some (Some c2, ans) /\
    m_rc ans = d_rc (fetch req) /\ m_cols ans = d_cols (fetch req) /\ was_cache_hit (m_result ans) = false /\
    (d_rc (fetch req) <> 0 -> forall k, ks_view c2 k = ks_view c1 k).
Proof.
  intros Hok Hon Ht Hn Hm Ho Htb. unfold metadata_cache_invalidate. rewrite (make_key_case owner table _ _ Ho Htb), make_key_of.
  pose proof (expire_law c t (key_of req) Hok) as He.
  destruct (ks_expire t c (Some (key_of req))) as [c1 rc]. destruct He as (Hok1 & Hon1 & _ & He).
  assert (live_at now c1 (key_of req) = false) as Hl.
  { unfold live_at. destruct (ks_view c (key_of req)) as [s|] eqn:Ev; destruct He as [_ Hv]; rewrite Hv; [|by rewrite Ev].
    rewrite upd_eq. unfold live, past. cbn [st_expiry]. destruct (Z.ltb_spec 0 t); [|lia].
    destruct (Z.ltb_spec 0 (t - 1)), (Z.leb_spec (t - 1) now); done || lia. }
  destruct (get_or_fetch_miss al_doc al a now us c1 fetch req max_cols Hok1 ltac:(congruence) ltac:(lia) Hm Hl)
    as (c2 & _ & _ & Hv2 & _ & Heq).
  cbv zeta in Heq. exists c1, rc. destruct (Z.eqb_spec (d_rc (fetch req)) 0) as [E|E]; cbn [negb] in Heq.
  - eexists _, _. split; [done|]. split; [exact Heq|]. by rewrite E.
  - eexists _, _. split; [done|]. split; [exact Heq|]. by repeat split.
Qed.

Lemma metadata_invalidate_refetches_witness :
  exists c1 rc c2 ans,
    metadata_cache_invalidate 101 (Some demo) (Some (str "Scott")) (Some (str "EMP")) = (Some c1, rc) /\
    metadata_cache_get_or_fetch true (fun _ => true) 5 102 1 (Some c1) demo_fetch demo_request 1024 = Some (Some c2, ans) /\
    m_cols ans = demo_cols /\ was_cache_hit (m_result ans) = false.
Proof.
  destruct (metadata_invalidate_refetches demo demo_fetch 1024 true (fun _ => true) 5 101 102 1 (str "Scott") (str "EMP")
              demo_request (proj1 (demo_empty (fun _ => []))) eq_refl ltac:(lia) ltac:(lia) ltac:(lia) eq_refl eq_refl)
    as (c1 & rc & c2 & ans & E1 & E2 & _ & Hc & Hh & _).
  exists c1, rc, c2, ans. split; [exact E1|]. split; [exact E2|]. split; [exact Hc|exact Hh].
Defined.
