(* ===== verification/Fifo.v ===== *)
(** * Fifo: bounded queues and the circular buffer

    The three queues of the program (generic_queue.c, session_touch_queue.c
    and the single queues of queue_manager.c) keep their items in the same
    circular buffer: an array, a count, a head and a tail.  [ring] is that
    buffer with the two manipulations all three files write out; [BoundedFifo]
    is what the users of a queue rely on - a list with a bound - and
    [ring_fifo] is the proof that the buffer keeps that promise. *)

From Stdlib Require Import ZArith Lia Bool.
From stdpp Require Import base list numbers.
From S2P Require Import Prelude.

#[local] Open Scope Z_scope.

(** ** The interface *)

(** [repr q l]: [q] holds the items [l], oldest first. *)
Class BoundedFifo (Q A : Type) := {
  fifo_full : Q -> bool;
  fifo_empty : Q -> bool;
  fifo_put : Q -> A -> Q;
  fifo_take : Q -> option A * Q;
  fifo_bound : Q -> nat;
  repr : Q -> list A -> Prop;
  repr_unique q l1 l2 : repr q l1 -> repr q l2 -> l1 = l2;
  repr_bound q l : repr q l -> (length l <= fifo_bound q)%nat;
  full_spec q l : repr q l -> fifo_full q = (fifo_bound q <=? length l)%nat;
  empty_spec q l : repr q l -> fifo_empty q = (length l =? 0)%nat;
  put_spec q l x : repr q l -> fifo_full q = false ->
    repr (fifo_put q x) (l ++ [x]) /\ fifo_bound (fifo_put q x) = fifo_bound q;
  take_spec q x l : repr q (x :: l) ->
    fst (fifo_take q) = Some x /\ repr (snd (fifo_take q)) l /\
    fifo_bound (snd (fifo_take q)) = fifo_bound q }.

(** ** The circular buffer *)

Record ring (A : Type) := mk_ring {
  items : list (option A);       (* [calloc]ed: [None] is NULL *)
  capacity : Z;
  count : Z;
  head : Z;                      (* next slot to dequeue from *)
  tail : Z }.                    (* next slot to enqueue into *)
Arguments mk_ring {A}. Arguments items {A}. Arguments capacity {A}. Arguments count {A}.
Arguments head {A}. Arguments tail {A}.

Definition ring_new {A} (depth : Z) : ring A :=
  mk_ring (replicate (Z.to_nat depth) None) depth 0 0 0.

Definition ring_full {A} (q : ring A) : bool := capacity q <=? count q.
Definition ring_empty {A} (q : ring A) : bool := count q =? 0.

(** [items[tail] = item; tail = (tail + 1) % capacity; count++]. *)
Definition ring_put {A} (q : ring A) (x : A) : ring A :=
  mk_ring (<[Z.to_nat (tail q) := Some x]> (items q)) (capacity q) (count q + 1)
          (head q) (Z.rem (tail q + 1) (capacity q)).

(** [item = items[head]; items[head] = NULL; head = (head + 1) % capacity;
    count--]. *)
Definition ring_take {A} (q : ring A) : option A * ring A :=
  (mjoin (items q !! Z.to_nat (head q)),
   mk_ring (<[Z.to_nat (head q) := None]> (items q)) (capacity q) (count q - 1)
           (Z.rem (head q + 1) (capacity q)) (tail q)).

(** ** The buffer is a bounded queue *)

(** Slot of the [i]-th oldest item. *)
Definition slot {A} (q : ring A) (i : nat) : nat := Z.to_nat ((head q + Z.of_nat i) mod capacity q).

Record ring_repr {A} (q : ring A) (l : list A) : Prop := {
  rr_len : Z.of_nat (length (items q)) = capacity q;
  rr_head : 0 <= head q < capacity q;
  rr_count : count q = Z.of_nat (length l);
  rr_bound : Z.of_nat (length l) <= capacity q;
  rr_tail : tail q = (head q + Z.of_nat (length l)) mod capacity q;
  rr_items : forall i x, l !! i = Some x -> items q !! slot q i = Some (Some x) }.

Section ring.
Context {A : Type}.
Implicit Types (q : ring A) (l : list A).

Lemma ring_new_repr depth : 0 < depth -> ring_repr (ring_new depth : ring A) [].
Proof.
  intros H. split; simpl; try lia.
  - rewrite length_replicate. lia.
  - by rewrite Z.mod_small by lia.
  - intros i x Hx. by rewrite lookup_nil in Hx.
Qed.

Lemma ring_repr_unique q l1 l2 : ring_repr q l1 -> ring_repr q l2 -> l1 = l2.
Proof.
  intros H1 H2. pose proof (rr_count _ _ H1). pose proof (rr_count _ _ H2).
  apply list_eq_same_length with (length l1); [lia | done |].
  intros i x y _ Hx Hy. pose proof (rr_items _ _ H1 i x Hx). pose proof (rr_items _ _ H2 i y Hy). congruence.
Qed.

Lemma slot_inj q i j :
  0 < capacity q -> Z.of_nat i < capacity q -> Z.of_nat j < capacity q -> slot q i = slot q j -> i = j.
Proof.
  unfold slot. intros Hc Hi Hj H.
  pose proof (Z.mod_pos_bound (head q + Z.of_nat i) (capacity q) Hc).
  pose proof (Z.mod_pos_bound (head q + Z.of_nat j) (capacity q) Hc).
  apply Z2Nat.inj in H; [|lia..].
  pose proof (Z.div_mod (head q + Z.of_nat i) (capacity q) ltac:(lia)).
  pose proof (Z.div_mod (head q + Z.of_nat j) (capacity q) ltac:(lia)).
  assert ((head q + Z.of_nat i) / capacity q = (head q + Z.of_nat j) / capacity q) by nia. nia.
Qed.

Lemma ring_put_repr q l x :
  ring_repr q l -> Z.of_nat (length l) < capacity q -> ring_repr (ring_put q x) (l ++ [x]).
Proof.
  intros [Hl Hh Hc Hb Ht Hi] Hlt. pose proof (Z.mod_pos_bound (head q + Z.of_nat (length l)) (capacity q) ltac:(lia)) as Hm.
  split; simpl; rewrite ?length_app, ?length_insert; simpl; try lia.
  - rewrite Ht, Z.rem_mod_nonneg by lia. rewrite Zplus_mod_idemp_l. f_equal. lia.
  - intros i y Hy. change (slot (ring_put q x) i) with (slot q i).
    assert (Z.to_nat (tail q) = slot q (length l)) as -> by (unfold slot; by rewrite Ht).
    apply lookup_snoc_Some in Hy as [[Hi' Hy]|[-> ->]].
    + rewrite list_lookup_insert_ne; [by apply Hi|]. intros E. apply slot_inj in E; lia.
    + apply list_lookup_insert_eq. unfold slot. lia.
Qed.

Lemma ring_take_repr q x l :
  ring_repr q (x :: l) -> fst (ring_take q) = Some x /\ ring_repr (snd (ring_take q)) l.
Proof.
  intros [Hl Hh Hc Hb Ht Hi]. simpl in Hc, Hb, Ht.
  assert (slot q 0 = Z.to_nat (head q)) as Hs0 by (unfold slot; rewrite Z.add_0_r, Z.mod_small by lia; done).
  split.
  - simpl. rewrite <- Hs0, (Hi 0%nat x eq_refl). done.
  - split; simpl; rewrite ?length_insert; try lia.
    + rewrite Z.rem_mod_nonneg by lia. apply Z.mod_pos_bound. lia.
    + rewrite Ht, Z.rem_mod_nonneg by lia. rewrite Zplus_mod_idemp_l. f_equal. lia.
    + intros i y Hy.
      assert (slot (snd (ring_take q)) i = slot q (S i)) as Hs.
      { unfold slot. simpl. rewrite Z.rem_mod_nonneg, Zplus_mod_idemp_l by lia. do 2 f_equal. lia. }
      change (slot _ i) with (slot (snd (ring_take q)) i). rewrite Hs.
      pose proof (Hi (S i) y Hy) as Hsi. apply lookup_lt_Some in Hy.
      rewrite list_lookup_insert_ne; [exact Hsi|]. rewrite <- Hs0. intros E. apply slot_inj in E; lia.
Qed.

#[export] Instance ring_fifo : BoundedFifo (ring A) A.
Proof.
  refine {| fifo_full := ring_full; fifo_empty := ring_empty; fifo_put := ring_put;
            fifo_take := ring_take; fifo_bound q := Z.to_nat (capacity q); repr := ring_repr |}.
  - apply ring_repr_unique.
  - intros q l H. pose proof (rr_bound _ _ H). lia.
  - intros q l H. unfold ring_full. rewrite (rr_count _ _ H). apply eq_true_iff_eq.
    rewrite Z.leb_le, Nat.leb_le. lia.
  - intros q l H. unfold ring_empty. rewrite (rr_count _ _ H). apply eq_true_iff_eq.
    rewrite Z.eqb_eq, Nat.eqb_eq. lia.
  - intros q l x H Hf. split; [|done]. apply ring_put_repr; [done|].
    unfold ring_full in Hf. bools. pose proof (rr_count _ _ H). lia.
  - intros q x l H. destruct (ring_take_repr q x l H) as [H1 H2]. by split_and!.
Defined.
End ring.
