(* ===== verification/GenericQueue.v ===== *)
(** * GenericQueue: blocking queues between threads

    Models src/src/infra/generic_queue.c and
    src/src/session/session_touch_queue.c: a circular buffer under a mutex with
    one condition variable, [not_empty].  What runs between lock and unlock
    (or between two waits) is one step.  A thread inside the wait loop is
    either asleep on the condition variable or awake, about to test the loop's
    condition again; [pthread_cond_signal] wakes one sleeper of its choice, a
    broadcast wakes all, a sleeper may also wake for no reason or because its
    deadline has passed.  The properties are proved for every interleaving of
    these steps. *)

From Stdlib Require Import Ascii ZArith Lia Bool.
From stdpp Require Import base list numbers.
From S2P Require Import Prelude Fifo.

#[local] Open Scope Z_scope.

(** ** The monitor *)

Section monitor.
Context {Q A : Type} {F : BoundedFifo Q A}.

Record monitor := mk_monitor {
  fifo : Q;
  shutting_down : bool;
  sleeping : list nat;                   (* threads in [pthread_cond_wait] *)
  awake : list (nat * bool) }.           (* woken; [true]: its deadline passed *)

(** Outcome of a pass through the wait loop. *)
Inductive dequeue_result :=
| Item (x : A)                           (* the item is returned *)
| Null                                   (* NULL is returned *)
| Waits.                                 (* the thread is asleep *)

(** [pthread_cond_signal]: wakes one sleeper, if there is one. *)
Definition signal (pick : nat) (m : monitor) : monitor :=
  match sleeping m !! (pick mod length (sleeping m))%nat with
  | Some t => mk_monitor (fifo m) (shutting_down m)
                (delete (pick mod length (sleeping m))%nat (sleeping m)) ((t, false) :: awake m)
  | None => m
  end.

Definition enqueue_locked (pick : nat) (m : monitor) (x : A) : monitor * Z :=
  if fifo_full (fifo m) then (m, -1)
  else (signal pick (mk_monitor (fifo_put (fifo m) x) (shutting_down m) (sleeping m) (awake m)), 0).

(** [item = (q->count > 0) ? pop_locked(q) : NULL]. *)
Definition take_or_null (m : monitor) : monitor * dequeue_result :=
  if fifo_empty (fifo m) then (m, Null)
  else match fifo_take (fifo m) with
       | (Some x, q') => (mk_monitor q' (shutting_down m) (sleeping m) (awake m), Item x)
       | (None, q') => (mk_monitor q' (shutting_down m) (sleeping m) (awake m), Null)
       end.

(** One test of [while (count == 0 && !shutting_down && wait_rc == 0)] by
    thread [t], then the wait or what follows the loop. *)
Definition wait_loop (t : nat) (timed_out : bool) (m : monitor) : monitor * dequeue_result :=
  if fifo_empty (fifo m) && negb (shutting_down m) && negb timed_out
  then (mk_monitor (fifo m) (shutting_down m) (t :: sleeping m) (awake m), Waits)
  else take_or_null m.

Definition broadcast_shutdown (m : monitor) : monitor :=
  mk_monitor (fifo m) true [] (map (fun t => (t, false)) (sleeping m) ++ awake m).

(** What the threads do, with the items that enter and leave. *)
Inductive event :=
| Enqueued (x : A)
| Dequeued (x : A)
| Quiet.

Definition event_of (r : dequeue_result) : event :=
  match r with Item x => Dequeued x | _ => Quiet end.

Inductive mstep : monitor -> event -> monitor -> Prop :=
| step_enqueue pick x m m' :
    enqueue_locked pick m x = (m', 0) -> mstep m (Enqueued x) m'
| step_full pick x m m' :
    enqueue_locked pick m x = (m', -1) -> mstep m Quiet m'
| step_dequeue t m m' r :                        (* a thread enters the loop *)
    wait_loop t false m = (m', r) -> mstep m (event_of r) m'
| step_poll m m' r :                             (* [timeout_ms <= 0] *)
    take_or_null m = (m', r) -> mstep m (event_of r) m'
| step_wake i t late m :                         (* spurious, or the deadline *)
    sleeping m !! i = Some t ->
    mstep m Quiet (mk_monitor (fifo m) (shutting_down m) (delete i (sleeping m)) ((t, late) :: awake m))
| step_resume i t late m m' r :                  (* a woken thread tests again *)
    awake m !! i = Some (t, late) ->
    wait_loop t late (mk_monitor (fifo m) (shutting_down m) (sleeping m) (delete i (awake m))) = (m', r) ->
    mstep m (event_of r) m'
| step_shutdown m : mstep m Quiet (broadcast_shutdown m).

(** A run and the items that entered and left, oldest first. *)
Inductive mrun (m0 : monitor) : list A -> list A -> monitor -> Prop :=
| run_start : mrun m0 [] [] m0
| run_in ins outs m x m' : mrun m0 ins outs m -> mstep m (Enqueued x) m' -> mrun m0 (ins ++ [x]) outs m'
| run_out ins outs m x m' : mrun m0 ins outs m -> mstep m (Dequeued x) m' -> mrun m0 ins (outs ++ [x]) m'
| run_quiet ins outs m m' : mrun m0 ins outs m -> mstep m Quiet m' -> mrun m0 ins outs m'.

(** ** The invariant *)

(** [l]: the items in the queue.  No wake-up is lost: while anyone sleeps,
    every queued item has a thread that is awake and will come for one. *)
Record minv (m : monitor) (l : list A) : Prop := {
  mi_repr : repr (fifo m) l;
  mi_served : sleeping m <> [] -> (length l <= length (awake m))%nat;
  mi_shut : shutting_down m = true -> sleeping m = [] }.

Lemma signal_inv pick m l :
  repr (fifo m) l -> (sleeping m <> [] -> (length l <= S (length (awake m)))%nat) ->
  (shutting_down m = true -> sleeping m = []) -> minv (signal pick m) l.
Proof.
  intros Hr Hs Hsh. unfold signal. destruct (sleeping m) as [|t0 ts] eqn:E.
  - rewrite lookup_nil. split; [done | intros Hne; by rewrite E in Hne | done].
  - destruct (lookup_lt_is_Some_2 (t0 :: ts) (pick mod length (t0 :: ts))) as [t Ht].
    { apply Nat.mod_upper_bound. done. }
    rewrite Ht. split; simpl; [done | intros _; by apply Hs |]. intros Hsd. by specialize (Hsh Hsd).
Qed.

Lemma enqueue_inv pick m l x m' rc :
  minv m l -> enqueue_locked pick m x = (m', rc) ->
  if fifo_full (fifo m) then m' = m /\ rc = -1 else minv m' (l ++ [x]) /\ rc = 0.
Proof.
  intros [Hr Hs Hsh] H. unfold enqueue_locked in H. destruct (fifo_full (fifo m)) eqn:Hf; injection H as <- <-; [done|].
  split; [|done]. apply signal_inv; simpl; [by apply put_spec | | done].
  intros Hne. rewrite length_app. simpl. specialize (Hs Hne). lia.
Qed.

(** Taking: what comes out is the oldest item, or the queue is empty. *)
Lemma take_or_null_spec m l m' r :
  repr (fifo m) l -> take_or_null m = (m', r) ->
  match l with
  | x :: l' => r = Item x /\ repr (fifo m') l' /\ shutting_down m' = shutting_down m /\
               sleeping m' = sleeping m /\ awake m' = awake m
  | [] => r = Null /\ m' = m
  end.
Proof.
  intros Hr. unfold take_or_null. rewrite (empty_spec _ l Hr). destruct l as [|x l']; simpl.
  - intros H. by injection H as <- <-.
  - destruct (take_spec _ _ _ Hr) as (H1 & H2 & _). destruct (fifo_take (fifo m)) as [o q']. simpl in *.
    subst o. intros H. by injection H as <- <-.
Qed.

(** A pass through the loop by a thread that [m] no longer counts as awake. *)
Lemma wait_loop_inv t late m l m' r :
  repr (fifo m) l -> (sleeping m <> [] -> (length l <= S (length (awake m)))%nat) ->
  (shutting_down m = true -> sleeping m = []) ->
  wait_loop t late m = (m', r) ->
  match r with
  | Item x => exists l', l = x :: l' /\ minv m' l'
  | Null => l = [] /\ (shutting_down m = true \/ late = true) /\ minv m' l
  | Waits => l = [] /\ minv m' l
  end.
Proof.
  intros Hr Hs Hsh H. unfold wait_loop in H. rewrite (empty_spec _ l Hr) in H.
  destruct ((length l =? 0)%nat && negb (shutting_down m) && negb late) eqn:E.
  - injection H as <- <-. bools. apply Nat.eqb_eq in H. destruct l; [|done].
    split; [done|]. split; simpl; [done | lia | congruence].
  - pose proof (take_or_null_spec m l m' r Hr H) as Ht. destruct l as [|x l'].
    + destruct Ht as [-> ->]. split; [done|]. split.
      { destruct (shutting_down m); [by left|]. destruct late; [by right | done]. }
      split; [done | simpl; lia | done].
    + destruct Ht as (-> & Hr' & H1 & H2 & H3). exists l'. split; [done|].
      split; [done | rewrite H2, H3; intros Hne; specialize (Hs Hne); simpl in Hs; lia | by rewrite H1, H2].
Qed.

Lemma mstep_inv m l e m' :
  minv m l -> mstep m e m' ->
  match e with
  | Enqueued x => minv m' (l ++ [x])
  | Dequeued x => exists l', l = x :: l' /\ minv m' l'
  | Quiet => minv m' l
  end.
Proof.
  intros H Hst. pose proof H as [Hr Hs Hsh].
  destruct Hst as [pick x m m' E|pick x m m' E|t m m' r E|m m' r E|i t late m Hi|i t late m m' r Hi E|m].
  - pose proof (enqueue_inv pick m l x m' 0 H E) as Hq. by destruct (fifo_full (fifo m)); destruct Hq.
  - pose proof (enqueue_inv pick m l x m' (-1) H E) as Hq. destruct (fifo_full (fifo m)); destruct Hq as [Hq ?]; [by rewrite Hq | done].
  - pose proof (wait_loop_inv t false m l m' r Hr ltac:(intros Hne; specialize (Hs Hne); lia) Hsh E) as Hw.
    destruct r; simpl; [done | by destruct Hw as (_ & _ & ?) | by destruct Hw].
  - pose proof (take_or_null_spec m l m' r Hr E) as Ht. destruct l as [|x l'].
    + by destruct Ht as [-> ->].
    + destruct Ht as (-> & Hr' & H1 & H2 & H3). exists l'. split; [done|].
      split; [done | rewrite H2, H3; intros Hne; specialize (Hs Hne); simpl in Hs; lia | by rewrite H1, H2].
  - split; simpl; [done | |].
    + intros _. assert (sleeping m <> []) as Hne by (intros E; by rewrite E, lookup_nil in Hi).
      specialize (Hs Hne). lia.
    + intros Hsd. by rewrite (Hsh Hsd), lookup_nil in Hi.
  - pose proof (wait_loop_inv t late (mk_monitor (fifo m) (shutting_down m) (sleeping m) (delete i (awake m))) l m' r Hr)
      as Hw. simpl in Hw.
    assert (S (length (delete i (awake m))) = length (awake m)) as Hlen.
    { rewrite length_delete by (by eexists). apply lookup_lt_Some in Hi. lia. }
    rewrite Hlen in Hw. specialize (Hw Hs Hsh E).
    destruct r; simpl; [done | by destruct Hw as (_ & _ & ?) | by destruct Hw].
  - split; simpl; done.
Qed.

Lemma mrun_inv m0 ins outs m :
  minv m0 [] -> mrun m0 ins outs m -> exists l, minv m l /\ ins = outs ++ l.
Proof.
  intros H0. induction 1 as [|ins outs m x m' _ (l & Hi & ->) Hst|ins outs m x m' _ (l & Hi & ->) Hst
                             |ins outs m m' _ (l & Hi & ->) Hst].
  - by exists [].
  - exists (l ++ [x]). split; [exact (mstep_inv _ _ _ _ Hi Hst) | by rewrite app_assoc].
  - destruct (mstep_inv _ _ _ _ Hi Hst) as (l' & -> & Hi'). exists l'. split; [done|]. by rewrite <- app_assoc.
  - exists l. split; [exact (mstep_inv _ _ _ _ Hi Hst) | done].
Qed.
End monitor.
Arguments monitor : clear implicits.
Arguments dequeue_result : clear implicits.

(** ** generic_queue.c *)

Abbreviation generic_queue_t A := (monitor (ring A)) (only parsing).

Section generic_queue.
Context {A : Type}.
Implicit Types (q : generic_queue_t A).

(** [al]: the allocations and the mutex and condition initialisations succeed. *)
Definition generic_queue_create (al : bool) (depth : Z) : option (generic_queue_t A) :=
  if depth <=? 0 then None
  else if negb al then None
  else Some (mk_monitor (ring_new depth) false [] []).

(** [while (q->count > 0)]: the items handed to [free_fn], in order. *)
Fixpoint drain (fuel : nat) (r : ring A) : list A :=
  match fuel with
  | O => []
  | S f => if 0 <? count r then
             let item := mjoin (items r !! Z.to_nat (head r)) in
             let r' := mk_ring (items r) (capacity r) (count r - 1)
                         (Z.rem (head r + 1) (capacity r)) (tail r) in
             option_list item ++ drain f r'
           else []
  end.
Definition generic_queue_destroy (q : generic_queue_t A) : list A :=
  drain (Z.to_nat (count (fifo q))) (fifo q).

Definition generic_queue_enqueue (pick : nat) (q : generic_queue_t A) (item : option A)
    : generic_queue_t A * Z :=
  match item with
  | None => (q, -1)
  | Some x => enqueue_locked pick q x
  end.

(** The first pass of thread [t]; later passes are [step_resume]. *)
Definition generic_queue_dequeue_blocking (t : nat) (q : generic_queue_t A)
    : generic_queue_t A * dequeue_result A := wait_loop t false q.

(** [CLOCK_REALTIME] seconds and nanoseconds plus [timeout_ms]. *)
Definition deadline (tv_sec tv_nsec timeout_ms : Z) : Z * Z :=
  let s := tv_sec + Z.quot timeout_ms 1000 in
  let ns := tv_nsec + Z.rem timeout_ms 1000 * 1000000 in
  if 1000000000 <=? ns then (s + 1, ns - 1000000000) else (s, ns).

(** What the call leaves in [*timed_out] when it returns [r] in state [q]. *)
Definition timed_out_flag (q : generic_queue_t A) (r : dequeue_result A) : bool :=
  match r with Null => negb (shutting_down q) | _ => false end.

(** A pass of thread [t]; [late]: [pthread_cond_timedwait] has returned
    [ETIMEDOUT] ([false] on the first pass). *)
Definition generic_queue_dequeue_timed (t : nat) (late : bool) (timeout_ms : Z) (q : generic_queue_t A)
    : generic_queue_t A * dequeue_result A * bool :=
  let '(q', r) := if timeout_ms <=? 0 then take_or_null q else wait_loop t late q in
  (q', r, timed_out_flag q' r).

Definition generic_queue_shutdown (q : generic_queue_t A) : generic_queue_t A := broadcast_shutdown q.

Lemma monitor_create_inv depth q : generic_queue_create true depth = Some q -> minv q [] /\ capacity (fifo q) = depth.
Proof.
  unfold generic_queue_create. destruct (Z.leb_spec depth 0); [done|]. intros E. injection E as <-.
  split; [|done]. split; simpl; [by apply ring_new_repr; lia | done | done].
Qed.

Lemma drain_spec (r : ring A) (l : list A) : ring_repr r l -> drain (length l) r = l.
Proof.
  revert r. induction l as [|x l IH]; intros r H; simpl; [done|].
  rewrite (rr_count _ _ H), (proj2 (Z.ltb_lt 0 _)) by (simpl; lia).
  destruct (ring_take_repr r x l H) as [H1 H2]. unfold ring_take in H1. simpl in H1. rewrite H1. simpl. f_equal.
  apply IH. destruct H as [Hl Hh Hc Hb Ht Hi]. destruct H2 as [Hl2 Hh2 Hc2 Hb2 Ht2 Hi2].
  simpl in *. split; simpl; try done; try lia.
  intros i y Hy. specialize (Hi2 i y Hy). unfold slot in *. simpl in *. rewrite list_lookup_insert_Some in Hi2.
  destruct Hi2 as [(_ & ? & _)|[_ ?]]; done.
Qed.
End generic_queue.

(** The array never grows. *)
Lemma take_capacity {A} (m m' : generic_queue_t A) r : take_or_null m = (m', r) -> capacity (fifo m') = capacity (fifo m).
Proof. unfold take_or_null. destruct (fifo_empty _); [by intros [= <- _]|]. cbn. destruct (mjoin _); by intros [= <- _]. Qed.

Lemma wait_capacity {A} t late (m m' : generic_queue_t A) r : wait_loop t late m = (m', r) -> capacity (fifo m') = capacity (fifo m).
Proof. unfold wait_loop. destruct (_ && _); [by intros [= <- _]|apply take_capacity]. Qed.

Lemma enqueue_capacity {A} pick (m m' : generic_queue_t A) x rc : enqueue_locked pick m x = (m', rc) -> capacity (fifo m') = capacity (fifo m).
Proof. unfold enqueue_locked. destruct (fifo_full _); [by intros [= <- _]|]. intros [= <- _]. unfold signal. by destruct (_ !! _). Qed.

Lemma step_capacity {A} (m m' : generic_queue_t A) ev : mstep m ev m' -> capacity (fifo m') = capacity (fifo m).
Proof.
  destruct 1 as [? ? ? ? E|? ? ? ? E|? ? ? ? E|? ? ? E|? ? ? ? E|? ? ? ? ? ? _ E|?]; try done; first
    [exact (enqueue_capacity _ _ _ _ _ E)|exact (take_capacity _ _ _ E)|exact (wait_capacity _ _ _ _ _ E)].
Qed.

Lemma run_capacity {A} (m0 m : generic_queue_t A) ins outs : mrun m0 ins outs m -> capacity (fifo m) = capacity (fifo m0).
Proof. induction 1 as [|? ? ? ? ? _ IH E|? ? ? ? ? _ IH E|? ? ? ? _ IH E]; [done|..]; by rewrite (step_capacity _ _ _ E). Qed.

(** C26: first in, first out, across threads.  Whatever the interleaving of
    producers, consumers, polls, spurious and late wake-ups and shutdown, the
    items accepted by [generic_queue_enqueue] are, in order, the items that
    dequeues have returned followed by those still queued; there are never
    more of those than the depth the queue was created with, and an item is
    refused exactly when there are that many; destroying the queue frees
    exactly those still queued. *)
Theorem generic_queue_fifo {A : Type} (depth : Z) (q0 q : generic_queue_t A) (ins outs : list A) :
  generic_queue_create true depth = Some q0 -> mrun q0 ins outs q ->
  ins = outs ++ generic_queue_destroy q /\ Z.of_nat (length (generic_queue_destroy q)) = count (fifo q) /\
  count (fifo q) <= depth /\
  (forall pick x, snd (generic_queue_enqueue pick q (Some x)) = if count (fifo q) =? depth then -1 else 0).
Proof.
  intros Hc Hr. destruct (monitor_create_inv depth q0 Hc) as [H0 Hd].
  pose proof (run_capacity _ _ _ _ Hr) as Hcap. rewrite Hd in Hcap.
  destruct (mrun_inv q0 ins outs q H0 Hr) as (l & [Hq _ _] & ->).
  assert (generic_queue_destroy q = l) as ->.
  { unfold generic_queue_destroy. rewrite (rr_count _ _ Hq), Nat2Z.id. by apply drain_spec. }
  pose proof (rr_bound _ _ Hq) as Hb. rewrite Hcap in Hb. rewrite <- (rr_count _ _ Hq) in Hb.
  split; [done|]. split; [symmetry; apply (rr_count _ _ Hq)|]. split; [done|]. intros pick x.
  unfold generic_queue_enqueue, enqueue_locked. cbn [fifo_full ring_fifo]. unfold ring_full. rewrite Hcap.
  destruct (Z.leb_spec depth (count (fifo q))), (Z.eqb_spec (count (fifo q)) depth); (reflexivity || lia).
Qed.

(** Two producers' items through a queue of depth 2, one taken. *)
Definition demo_queue : generic_queue_t nat :=
  match generic_queue_create true 2 with Some q => q | None => mk_monitor (ring_new 1) true [] [] end.
Definition demo_queue' : generic_queue_t nat :=
  fst (take_or_null (fst (enqueue_locked 0 (fst (enqueue_locked 0 demo_queue 7%nat)) 8%nat))).

Lemma demo_queue_run : mrun demo_queue [7%nat; 8%nat] [7%nat] demo_queue'.
Proof.
  apply (run_out demo_queue _ [] (fst (enqueue_locked 0 (fst (enqueue_locked 0 demo_queue 7%nat)) 8%nat))).
  - apply (run_in demo_queue [7%nat] [] (fst (enqueue_locked 0 demo_queue 7%nat))).
    + apply (run_in demo_queue [] [] demo_queue); [constructor|]. by apply (step_enqueue 0).
    + by apply (step_enqueue 0).
  - by apply (step_poll _ _ (Item 7%nat)).
Qed.

Lemma generic_queue_fifo_witness :
  [7%nat; 8%nat] = [7%nat] ++ generic_queue_destroy demo_queue' /\ generic_queue_destroy demo_queue' = [8%nat].
Proof.
  split; [|vm_compute; reflexivity].
  exact (proj1 (generic_queue_fifo 2 demo_queue demo_queue' _ _ eq_refl demo_queue_run)).
Defined.

(** C27: no lost wake-up.  In every reachable state, while a consumer sleeps
    there are at least as many awake consumers, each about to test the queue,
    as there are queued items; and once the queue is shutting down nobody
    sleeps, so every consumer returns. *)
Theorem generic_queue_no_lost_wakeup {A : Type} (depth : Z) (q0 q : generic_queue_t A) (ins outs : list A) :
  generic_queue_create true depth = Some q0 -> mrun q0 ins outs q ->
  (sleeping q <> [] -> count (fifo q) <= Z.of_nat (length (awake q))) /\
  (shutting_down q = true -> sleeping q = []).
Proof.
  intros Hc Hr. destruct (monitor_create_inv depth q0 Hc) as [H0 _].
  destruct (mrun_inv q0 ins outs q H0 Hr) as (l & [Hq Hs Hsh] & _).
  split; [|done]. intros Hne. rewrite (rr_count _ _ Hq). specialize (Hs Hne). lia.
Qed.

(** Two consumers go to sleep, then an item comes. *)
Definition demo_asleep : generic_queue_t nat :=
  fst (enqueue_locked 0 (fst (wait_loop 4 false (fst (wait_loop 3 false demo_queue)))) 7%nat).

Lemma demo_asleep_run : mrun demo_queue [7%nat] [] demo_asleep.
Proof.
  apply (run_in demo_queue [] [] (fst (wait_loop 4 false (fst (wait_loop 3 false demo_queue))))).
  - apply (run_quiet demo_queue [] [] (fst (wait_loop 3 false demo_queue))).
    + apply (run_quiet demo_queue [] [] demo_queue); [constructor|].
      apply (step_dequeue 3 demo_queue _ Waits). vm_compute; reflexivity.
    + apply (step_dequeue 4 _ _ Waits). vm_compute; reflexivity.
  - apply (step_enqueue 0). vm_compute; reflexivity.
Qed.

Lemma generic_queue_no_lost_wakeup_witness :
  sleeping demo_asleep = [3%nat] /\ count (fifo demo_asleep) = 1 /\
  count (fifo demo_asleep) <= Z.of_nat (length (awake demo_asleep)).
Proof.
  split; [vm_compute; reflexivity|]. split; [vm_compute; reflexivity|].
  apply (proj1 (generic_queue_no_lost_wakeup 2 demo_queue demo_asleep _ _ eq_refl demo_asleep_run)).
  vm_compute. discriminate.
Defined.

(** What a dequeue returns.  In every reachable state a blocking dequeue
    returns the oldest item; it returns NULL only when the queue is empty and
    shutting down and sleeps only when it is empty and not shutting down.  A
    timed dequeue whose deadline has passed never sleeps, and tells a timeout
    from a shutdown in [*timed_out]. *)
Theorem generic_queue_dequeue_outcomes {A : Type} (depth : Z) (q0 q : generic_queue_t A)
    (ins outs : list A) (t : nat) :
  generic_queue_create true depth = Some q0 -> mrun q0 ins outs q ->
  let l := generic_queue_destroy q in
  (forall q' r, generic_queue_dequeue_blocking t q = (q', r) ->
     r = match l with x :: _ => Item x | [] => if shutting_down q then Null else Waits end) /\
  (forall q' r late, generic_queue_dequeue_timed t true 1 q = (q', r, late) ->
     r = match l with x :: _ => Item x | [] => Null end /\
     late = match l with _ :: _ => false | [] => negb (shutting_down q) end).
Proof.
  intros Hc Hr. destruct (monitor_create_inv depth q0 Hc) as [H0 _].
  destruct (mrun_inv q0 ins outs q H0 Hr) as (l & [Hq _ _] & _). cbv zeta.
  assert (generic_queue_destroy q = l) as ->.
  { unfold generic_queue_destroy. rewrite (rr_count _ _ Hq), Nat2Z.id. by apply drain_spec. }
  assert (repr (fifo q) l) as Hq' by exact Hq. split.
  - intros q' r H. unfold generic_queue_dequeue_blocking, wait_loop in H. rewrite (empty_spec _ l Hq') in H.
    destruct l as [|x l]; simpl in H.
    + destruct (shutting_down q); simpl in H; [|by injection H].
      by destruct (take_or_null_spec q [] q' r Hq' H).
    + by destruct (take_or_null_spec q (x :: l) q' r Hq' H).
  - intros q' r late H. unfold generic_queue_dequeue_timed in H. simpl in H.
    unfold wait_loop in H. rewrite andb_false_r in H.
    destruct (take_or_null q) as [q1 r1] eqn:E. pose proof (take_or_null_spec q l q1 r1 Hq' E) as Ht.
    injection H as <- <- <-. destruct l as [|x l]; [by destruct Ht as [-> ->] | by destruct Ht as [-> _]].
Qed.

Lemma generic_queue_dequeue_outcomes_witness :
  snd (generic_queue_dequeue_blocking 3 demo_queue') = Item 8%nat.
Proof.
  destruct (generic_queue_dequeue_outcomes 2 demo_queue demo_queue' _ _ 3 eq_refl demo_queue_run) as [H _].
  specialize (H _ _ (surjective_pairing (generic_queue_dequeue_blocking 3 demo_queue'))). exact H.
Defined.

(** ** session_touch_queue.c: session ids, copied on the way in *)

Section session_touch_queue.
Implicit Types (q : generic_queue_t (list ascii)).

Definition session_touch_queue_create (al : bool) (depth : Z) : option (generic_queue_t (list ascii)) :=
  if depth <=? 0 then None
  else if negb al then None
  else Some (mk_monitor (ring_new depth) false [] []).

(** [dup_ok]: [strdup] succeeds. *)
Definition session_touch_queue_enqueue (dup_ok : bool) (pick : nat) (q : generic_queue_t (list ascii))
    (session_id : option (list ascii)) : generic_queue_t (list ascii) * Z :=
  match session_id with
  | None | Some [] => (q, -1)
  | Some ((_ :: _) as id) => if negb dup_ok then (q, -1) else enqueue_locked pick q id
  end.

Definition session_touch_queue_dequeue_blocking (t : nat) (q : generic_queue_t (list ascii)) :=
  wait_loop t false q.

Definition session_touch_queue_shutdown (q : generic_queue_t (list ascii)) := broadcast_shutdown q.

Definition session_touch_queue_destroy (q : generic_queue_t (list ascii)) : list (list ascii) :=
  drain (Z.to_nat (count (fifo q))) (fifo q).
End session_touch_queue.

Lemma deadline_spec (s ns timeout_ms : Z) :
  0 <= ns < 1000000000 -> 0 < timeout_ms ->
  let '(s', ns') := deadline s ns timeout_ms in
  0 <= ns' < 1000000000 /\ s' * 1000000000 + ns' = s * 1000000000 + ns + timeout_ms * 1000000.
Proof.
  intros Hn Ht. unfold deadline. rewrite Z.quot_div_nonneg, Z.rem_mod_nonneg by lia.
  pose proof (Z.div_mod timeout_ms 1000 ltac:(lia)). pose proof (Z.mod_pos_bound timeout_ms 1000 ltac:(lia)).
  destruct (Z.leb_spec 1000000000 (ns + timeout_ms mod 1000 * 1000000)); lia.
Qed.
