(* ===== verification/QueueManager.v ===== *)
(** * QueueManager: one queue per worker, and the routing of HTTP requests

    Models src/src/infra/queue_manager.c and the routing functions of
    src/src/infra/http_worker_pool.c.  A manager has [queue_count] bounded
    circular buffers, each with its own mutex and condition variable
    (a [monitor] of GenericQueue.v without a flag of its own), one
    [shutting_down] flag and one round-robin cursor.  The two enqueue
    functions run under the pool's [enqueue_mutex], so each is one function
    on the state. *)

From Stdlib Require Import Ascii String ZArith Lia Bool.
From stdpp Require Import base list strings numbers.
From S2P Require Import Prelude Fifo GenericQueue.

#[local] Open Scope Z_scope.

Section queue_manager.
Context {A : Type}.

(** [single_queue_t]: the buffer and the threads on its condition variable. *)
Record single_queue := mk_sq {
  buf : ring A;
  sq_sleeping : list nat;
  sq_awake : list nat }.

Record queue_manager := mk_qm {
  queues : list single_queue;
  queue_count : Z;
  enqueue_cursor : Z;
  qm_shutting_down : bool }.

Definition single_queue_is_full (q : single_queue) : bool := capacity (buf q) <=? count (buf q).
Definition single_queue_is_empty (q : single_queue) : bool := count (buf q) =? 0.

Definition single_queue_push (q : single_queue) (req : A) : single_queue * Z :=
  if single_queue_is_full q then (q, -1)
  else (mk_sq (ring_put (buf q) req) (sq_sleeping q) (sq_awake q), 0).

Definition single_queue_pop (q : single_queue) : option A * single_queue :=
  if single_queue_is_empty q then (None, q)
  else let '(x, b) := ring_take (buf q) in (x, mk_sq b (sq_sleeping q) (sq_awake q)).

(** [pthread_cond_signal(&q->not_empty)]. *)
Definition sq_signal (pick : nat) (q : single_queue) : single_queue :=
  match sq_sleeping q !! (pick mod length (sq_sleeping q))%nat with
  | Some t => mk_sq (buf q) (delete (pick mod length (sq_sleeping q))%nat (sq_sleeping q)) (t :: sq_awake q)
  | None => q
  end.

(** [al]: every allocation and initialisation succeeds. *)
Definition queue_manager_create (al : bool) (n depth : Z) : option queue_manager :=
  if (n <=? 0) || (depth <=? 0) then None
  else if negb al then None
  else Some (mk_qm (replicate (Z.to_nat n) (mk_sq (ring_new depth) [] [])) n 0 false).

(** [while ((req = pop(&queues[i])) != NULL) request_object_free(req);]: the
    requests freed.  Each turn takes one, so [count] turns are enough. *)
Fixpoint drain_sq (fuel : nat) (q : single_queue) : list A :=
  match fuel with
  | O => []
  | S f => match single_queue_pop q with
           | (Some x, q') => x :: drain_sq f q'
           | (None, _) => []
           end
  end.
Definition queue_manager_destroy (qm : queue_manager) : list A :=
  concat (map (fun q => drain_sq (Z.to_nat (count (buf q))) q) (queues qm)).

Definition set_queue (qm : queue_manager) (i : Z) (q : single_queue) : queue_manager :=
  mk_qm (<[Z.to_nat i := q]> (queues qm)) (queue_count qm) (enqueue_cursor qm) (qm_shutting_down qm).

(** [pick] chooses the thread a signal wakes. *)
Definition queue_manager_enqueue_to (pick : nat) (qm : queue_manager) (req : option A) (queue_index : Z)
    : queue_manager * Z :=
  match req with
  | None => (qm, -1)
  | Some req =>
      if (queue_index <? 0) || (queue_count qm <=? queue_index) then (qm, -1)
      else match queues qm !! Z.to_nat queue_index with
           | None => (qm, -1)
           | Some q =>
               if single_queue_is_full q then (qm, -1)
               else let '(q', rc) := single_queue_push q req in
                    (set_queue qm queue_index (sq_signal pick q'), rc)
           end
  end.

(** The [for] loop from turn [i], [n] turns left. *)
Fixpoint enqueue_turns (n : nat) (pick : nat) (qm : queue_manager) (req : A) (start i exclude_index : Z)
    : queue_manager * Z :=
  match n with
  | O => (qm, -1)
  | S n' =>
      let idx := Z.rem (start + i) (queue_count qm) in
      if idx =? exclude_index then enqueue_turns n' pick qm req start (i + 1) exclude_index
      else match queues qm !! Z.to_nat idx with
           | None => (qm, -1)
           | Some q =>
               if negb (single_queue_is_full q)
               then let '(q', rc) := single_queue_push q req in (set_queue qm idx (sq_signal pick q'), rc)
               else enqueue_turns n' pick qm req start (i + 1) exclude_index
           end
  end.

Definition queue_manager_enqueue_excluding (pick : nat) (qm : queue_manager) (req : A) (exclude_index : Z)
    : queue_manager * Z :=
  let start := enqueue_cursor qm in
  let qm := mk_qm (queues qm) (queue_count qm) (Z.rem (start + 1) (queue_count qm)) (qm_shutting_down qm) in
  enqueue_turns (Z.to_nat (queue_count qm)) pick qm req start 0 exclude_index.

Definition queue_manager_enqueue (pick : nat) (qm : queue_manager) (req : A) : queue_manager * Z :=
  queue_manager_enqueue_excluding pick qm req (-1).

(** One pass of thread [t] through the wait loop of queue [i]. *)
Definition queue_manager_dequeue_blocking (t : nat) (qm : queue_manager) (i : Z)
    : queue_manager * dequeue_result A :=
  match queues qm !! Z.to_nat i with
  | None => (qm, Null)
  | Some q =>
      if single_queue_is_empty q && negb (qm_shutting_down qm)
      then (set_queue qm i (mk_sq (buf q) (t :: sq_sleeping q) (sq_awake q)), Waits)
      else match single_queue_pop q with
           | (Some x, q') => (set_queue qm i q', Item x)
           | (None, q') => (set_queue qm i q', Null)
           end
  end.

(** One turn of the loop of [queue_manager_shutdown], on queue [i]. *)
Definition shutdown_turn (qm : queue_manager) (i : nat) : queue_manager :=
  mk_qm (alter (fun q => mk_sq (buf q) [] (sq_sleeping q ++ sq_awake q)) i (queues qm))
        (queue_count qm) (enqueue_cursor qm) true.
Definition queue_manager_shutdown (qm : queue_manager) : queue_manager :=
  foldl shutdown_turn qm (seq 0 (Z.to_nat (queue_count qm))).

Definition queue_manager_total_count (qm : queue_manager) : Z :=
  foldl (fun total q => total + count (buf q)) 0 (queues qm).

(** ** What a queue holds *)

(** [ls !! i]: the requests in queue [i], oldest first. *)
Record qm_repr (qm : queue_manager) (ls : list (list A)) : Prop := {
  qr_count : queue_count qm = Z.of_nat (length (queues qm)) /\ 0 < queue_count qm;
  qr_cursor : 0 <= enqueue_cursor qm < queue_count qm;
  qr_queues : Forall2 (fun q l => ring_repr (buf q) l) (queues qm) ls }.

Definition room (q : single_queue) : Prop := count (buf q) < capacity (buf q).

Implicit Types (qm : queue_manager) (ls : list (list A)) (q : single_queue).

Lemma create_repr n depth qm :
  queue_manager_create true n depth = Some qm -> qm_repr qm (replicate (Z.to_nat n) []).
Proof.
  unfold queue_manager_create. destruct (Z.leb_spec n 0), (Z.leb_spec depth 0); simpl; try done.
  intros E. injection E as <-. split; simpl; [rewrite length_replicate; lia | lia |].
  induction (Z.to_nat n); simpl; constructor; [|done]. by apply ring_new_repr.
Qed.

Lemma signal_buf pick q : buf (sq_signal pick q) = buf q.
Proof. unfold sq_signal. by destruct (sq_sleeping q !! _). Qed.

Lemma not_full q : single_queue_is_full q = false <-> room q.
Proof. unfold single_queue_is_full, room. by rewrite Z.leb_gt. Qed.

Lemma full q : single_queue_is_full q = true <-> ~ room q.
Proof. unfold single_queue_is_full, room. rewrite Z.leb_le. lia. Qed.

(** A push on a queue with room. *)
Lemma push_room q req l pick :
  ring_repr (buf q) l -> room q ->
  exists q', single_queue_push q req = (q', 0) /\ ring_repr (buf (sq_signal pick q')) (l ++ [req]).
Proof.
  intros Hr Hroom. unfold single_queue_push. rewrite (proj2 (not_full q) Hroom). eexists. split; [done|].
  rewrite signal_buf. simpl. apply ring_put_repr; [done|]. unfold room in Hroom. by rewrite <- (rr_count _ _ Hr).
Qed.

Lemma set_queue_repr qm ls i q l :
  qm_repr qm ls -> (0 <= i) -> ring_repr (buf q) l -> qm_repr (set_queue qm i q) (<[Z.to_nat i := l]> ls).
Proof.
  intros [Hc Hcu Hq] Hi Hr. split; simpl; [by rewrite length_insert | done |]. by apply Forall2_insert.
Qed.

Lemma queue_at qm ls i : qm_repr qm ls -> 0 <= i < queue_count qm ->
  exists q l, queues qm !! Z.to_nat i = Some q /\ ls !! Z.to_nat i = Some l /\ ring_repr (buf q) l.
Proof.
  intros [[Hc _] _ Hq] Hi. destruct (lookup_lt_is_Some_2 (queues qm) (Z.to_nat i)) as [q E]; [lia|].
  destruct (Forall2_lookup_l _ _ _ _ _ Hq E) as (l & El & Hr). by exists q, l.
Qed.

(** The loop stops at the first turn whose queue is not excluded and has
    room; [-1] when no turn has. *)
Definition eligible qm (exclude idx : Z) : Prop :=
  idx <> exclude /\ exists q, queues qm !! Z.to_nat idx = Some q /\ room q.

Lemma enqueue_turns_spec n pick qm ls req start i exclude :
  qm_repr qm ls -> 0 <= start -> 0 <= i ->
  (exists k, (k < n)%nat /\
     let idx := Z.rem (start + (i + Z.of_nat k)) (queue_count qm) in
     eligible qm exclude idx /\
     (forall j, (j < k)%nat -> ~ eligible qm exclude (Z.rem (start + (i + Z.of_nat j)) (queue_count qm))) /\
     exists qm' l, enqueue_turns n pick qm req start i exclude = (qm', 0) /\
       ls !! Z.to_nat idx = Some l /\ qm_repr qm' (<[Z.to_nat idx := l ++ [req]]> ls) /\
       enqueue_cursor qm' = enqueue_cursor qm) \/
  ((forall j, (j < n)%nat -> ~ eligible qm exclude (Z.rem (start + (i + Z.of_nat j)) (queue_count qm))) /\
   enqueue_turns n pick qm req start i exclude = (qm, -1)).
Proof.
  intros H Hs. revert i. induction n as [|n IH]; intros i Hi; cbn [enqueue_turns].
  { right. split; [lia | done]. }
  set (idx := Z.rem (start + i) (queue_count qm)).
  assert (0 <= idx < queue_count qm) as Hidx.
  { subst idx. pose proof (qr_count _ _ H). rewrite Z.rem_mod_nonneg by lia. apply Z.mod_pos_bound. lia. }
  destruct (queue_at qm ls idx H Hidx) as (q & l & Eq & El & Hr).
  assert (Z.rem (start + (i + Z.of_nat 0)) (queue_count qm) = idx) as H0 by (subst idx; f_equal; lia).
  assert ((eligible qm exclude idx -> False) ->
    enqueue_turns (S n) pick qm req start i exclude = enqueue_turns n pick qm req start (i + 1) exclude ->
    (exists k, (k < S n)%nat /\
     let idx := Z.rem (start + (i + Z.of_nat k)) (queue_count qm) in
     eligible qm exclude idx /\
     (forall j, (j < k)%nat -> ~ eligible qm exclude (Z.rem (start + (i + Z.of_nat j)) (queue_count qm))) /\
     exists qm' l, enqueue_turns (S n) pick qm req start i exclude = (qm', 0) /\
       ls !! Z.to_nat idx = Some l /\ qm_repr qm' (<[Z.to_nat idx := l ++ [req]]> ls) /\
       enqueue_cursor qm' = enqueue_cursor qm) \/
    ((forall j, (j < S n)%nat -> ~ eligible qm exclude (Z.rem (start + (i + Z.of_nat j)) (queue_count qm))) /\
     enqueue_turns (S n) pick qm req start i exclude = (qm, -1))) as Hnext.
  { intros Hno Hstep. rewrite Hstep.
    assert (forall j, i + Z.of_nat (S j) = i + 1 + Z.of_nat j) as Hj by lia.
    destruct (IH (i + 1) ltac:(lia)) as [(k & Hk & He & Hb & Hx)|[Hb Hx]].
    - left. exists (S k). rewrite Hj. split; [lia|]. split; [done|]. split; [|done].
      intros [|j] Hlt; [by rewrite H0 | rewrite Hj; apply Hb; lia].
    - right. split; [|done]. intros [|j] Hlt; [by rewrite H0 | rewrite Hj; apply Hb; lia]. }
  cbn [enqueue_turns] in Hnext. fold idx in Hnext.
  destruct (Z.eqb_spec idx exclude) as [Hex|Hex].
  - apply Hnext; [|done]. by intros [? _].
  - rewrite Eq in Hnext |- *. destruct (single_queue_is_full q) eqn:Ef; cbn [negb] in *.
    + apply Hnext; [|done]. intros (_ & q' & Eq' & Hroom). apply full in Ef. congruence.
    + left. exists 0%nat. cbv zeta. rewrite H0. apply not_full in Ef. split; [lia|].
      split; [split; [done | by exists q]|]. split; [lia|].
      destruct (push_room q req l pick Hr Ef) as (q' & -> & Hr').
      eexists _, l. split; [done|]. split; [done|]. split; [|done]. apply set_queue_repr; [done | lia | done].
Qed.
End queue_manager.
Arguments queue_manager : clear implicits.
Arguments single_queue : clear implicits.

(** ** Routing of HTTP requests *)

Definition http_request_is_write (payload : list ascii) : bool :=
  contains_ci (quoted "INSERT") payload || contains_ci (str "type=" ++ quoted "INSERT") payload ||
  contains_ci (quoted "UPDATE") payload || contains_ci (str "type=" ++ quoted "UPDATE") payload ||
  (contains_ci (quoted "DELETE") payload || contains_ci (str "type=" ++ quoted "DELETE") payload).

Definition http_request_is_async_select (payload : list ascii) : bool :=
  contains_ci (str "<execute_async>1</execute_async>") payload ||
  contains_ci (quoted "execute_async" ++ str ":1") payload ||
  contains_ci (quoted "execute_async" ++ str ": 1") payload ||
  contains_ci (quoted "execute_async" ++ str ":true") payload ||
  contains_ci (quoted "execute_async" ++ str ": true") payload.

(** The part of [http_worker_pool_dispatch] under [enqueue_mutex]; a request
    is its payload.  On -1 the caller frees the request and answers
    QUEUE_FULL, otherwise it waits for the worker's completion. *)
Definition http_worker_pool_dispatch (pick : nat) (qm : queue_manager (list ascii)) (payload : list ascii)
    : queue_manager (list ascii) * Z :=
  if http_request_is_write payload
  then queue_manager_enqueue_to pick qm (Some payload) 0
  else queue_manager_enqueue_excluding pick qm payload 0.

Definition http_worker_pool_dispatch_async (pick : nat) (qm : queue_manager (list ascii)) (payload : list ascii)
    : queue_manager (list ascii) * Z :=
  queue_manager_enqueue_excluding pick qm payload 0.

(** ** Properties *)

Section enqueue_facts.
Context {A : Type}.
Implicit Types (qm : queue_manager A) (ls : list (list A)).

(** The turns visit every queue. *)
Lemma turn_of n start idx :
  0 <= start -> 0 <= idx < n ->
  exists j, (j < Z.to_nat n)%nat /\ Z.rem (start + (0 + Z.of_nat j)) n = idx.
Proof.
  intros Hs Hi. exists (Z.to_nat ((idx - start) mod n)).
  pose proof (Z.mod_pos_bound (idx - start) n ltac:(lia)). split; [lia|].
  rewrite Z2Nat.id, Z.rem_mod_nonneg by lia. rewrite Z.add_0_l, Zplus_mod_idemp_r.
  replace (start + (idx - start)) with idx by lia. by apply Z.mod_small.
Qed.

Lemma enqueue_excluding_spec pick qm ls req exclude :
  qm_repr qm ls ->
  let n := queue_count qm in
  let '(qm', rc) := queue_manager_enqueue_excluding pick qm req exclude in
  enqueue_cursor qm' = (enqueue_cursor qm + 1) mod n /\
  ((rc = 0 /\ exists k l, 0 <= k < n /\
      let idx := (enqueue_cursor qm + k) mod n in
      eligible qm exclude idx /\
      (forall j, 0 <= j < k -> ~ eligible qm exclude ((enqueue_cursor qm + j) mod n)) /\
      ls !! Z.to_nat idx = Some l /\ qm_repr qm' (<[Z.to_nat idx := l ++ [req]]> ls)) \/
   (rc = -1 /\ qm_repr qm' ls /\ forall idx, 0 <= idx < n -> ~ eligible qm exclude idx)).
Proof.
  intros H. cbv zeta. unfold queue_manager_enqueue_excluding.
  destruct (qr_count _ _ H) as [Hc Hpos]. destruct (qr_cursor _ _ H) as [Hcu0 Hcu].
  set (start := enqueue_cursor qm) in *. set (n := queue_count qm) in *.
  set (qm1 := mk_qm (queues qm) n (Z.rem (start + 1) n) (qm_shutting_down qm)).
  change (enqueue_turns _ pick _ req start 0 exclude)
    with (enqueue_turns (Z.to_nat n) pick qm1 req start 0 exclude).
  assert (0 <= (start + 1) mod n < n) as Hm by (apply Z.mod_pos_bound; lia).
  assert (Z.rem (start + 1) n = (start + 1) mod n) as Hrm by (apply Z.rem_mod_nonneg; lia).
  assert (qm_repr qm1 ls) as H1.
  { destruct H as [? ? Hq]. split; simpl; [done | rewrite Hrm; exact Hm | done]. }
  assert (forall j, 0 <= j -> Z.rem (start + (0 + j)) n = (start + j) mod n) as Hrem
    by (intros j Hj; rewrite Z.add_0_l; apply Z.rem_mod_nonneg; lia).
  destruct (enqueue_turns_spec (Z.to_nat n) pick qm1 ls req start 0 exclude H1 Hcu0 ltac:(lia))
    as [(k & Hk & He & Hb & qm' & l & -> & El & Hr & Hcur)|[Hb ->]]; simpl queue_count in *.
  - split; [by rewrite Hcur|]. left. split; [done|]. exists (Z.of_nat k), l.
    rewrite (Hrem (Z.of_nat k)) in * by lia. split; [lia|]. split; [exact He|]. split; [|done].
    intros j Hj. specialize (Hb (Z.to_nat j) ltac:(lia)). rewrite Z2Nat.id in Hb by lia.
    rewrite (Hrem j) in Hb by lia. exact Hb.
  - split; [done|]. right. split; [done|]. split; [done|].
    intros idx Hi. destruct (turn_of n start idx Hcu0 Hi) as (j & Hj & Hjx). specialize (Hb j Hj).
    rewrite Hjx in Hb. exact Hb.
Qed.

Lemma enqueue_to_spec pick qm ls req i :
  qm_repr qm ls -> 0 <= i < queue_count qm ->
  let '(qm', rc) := queue_manager_enqueue_to pick qm (Some req) i in
  (rc = 0 /\ exists q l, queues qm !! Z.to_nat i = Some q /\ room q /\ ls !! Z.to_nat i = Some l /\
     qm_repr qm' (<[Z.to_nat i := l ++ [req]]> ls)) \/
  (rc = -1 /\ qm' = qm /\ forall q, queues qm !! Z.to_nat i = Some q -> ~ room q).
Proof.
  intros H Hi. unfold queue_manager_enqueue_to. rewrite (proj2 (Z.ltb_ge i 0)), (proj2 (Z.leb_gt _ i)) by lia.
  cbn [orb]. destruct (queue_at qm ls i H Hi) as (q & l & Eq & El & Hr). rewrite Eq.
  destruct (single_queue_is_full q) eqn:Ef.
  - right. split; [done|]. split; [done|]. intros q' Hq'. injection Hq' as <-. by apply full.
  - apply not_full in Ef. destruct (push_room q req l pick Hr Ef) as (q' & -> & Hr'). left.
    split; [done|]. exists q, l. split_and!; try done. apply set_queue_repr; [done | lia | done].
Qed.

Lemma total_count_spec qm ls : qm_repr qm ls -> queue_manager_total_count qm = Z.of_nat (length (concat ls)).
Proof.
  intros [_ _ Hq]. unfold queue_manager_total_count.
  enough (forall t, foldl (fun total q => total + count (buf q)) t (queues qm) = t + Z.of_nat (length (concat ls))) as E
    by apply E.
  induction Hq as [|q l qs ls' Hr _ IH]; intros t; simpl; [lia|].
  rewrite IH, length_app, (rr_count _ _ Hr). lia.
Qed.

Lemma shutdown_turn_queues qm i :
  queues (shutdown_turn qm i) = alter (fun q => mk_sq (buf q) [] (sq_sleeping q ++ sq_awake q)) i (queues qm).
Proof. done. Qed.

Lemma shutdown_turns qm i m :
  let qm' := foldl shutdown_turn qm (seq i m) in
  queue_count qm' = queue_count qm /\ enqueue_cursor qm' = enqueue_cursor qm /\
  (qm_shutting_down qm' = true \/ m = O) /\
  forall j, queues qm' !! j =
    (fun q => if decide (i <= j < i + m)%nat then mk_sq (buf q) [] (sq_sleeping q ++ sq_awake q) else q)
      <$> queues qm !! j.
Proof.
  revert qm i. induction m as [|m IH]; intros qm i; cbv zeta; simpl.
  - split_and!; auto. intros j. destruct (queues qm !! j); simpl; [|done].
    destruct (decide _); [lia | done].
  - destruct (IH (shutdown_turn qm i) (S i)) as (H1 & H2 & H3 & H4). split; [done|]. split; [done|]. split.
    { left. destruct H3 as [H3| ->]; [exact H3 | done]. }
    intros j. rewrite H4, shutdown_turn_queues. destruct (decide (i = j)) as [->|Hne].
    + rewrite list_lookup_alter_eq. destruct (queues qm !! j) as [q|]; [|done].
      cbn [fmap option_fmap option_map]. f_equal. repeat case_decide; lia || done.
    + rewrite list_lookup_alter_ne by done. destruct (queues qm !! j) as [q|]; [|done].
      cbn [fmap option_fmap option_map]. f_equal. repeat case_decide; lia || done.
Qed.
End enqueue_facts.

Section qm_runs.
Context {A : Type}.
Implicit Types (qm : queue_manager A) (ls : list (list A)).

Lemma dequeue_spec t qm ls i :
  qm_repr qm ls -> 0 <= i < queue_count qm ->
  exists l, ls !! Z.to_nat i = Some l /\
  let '(qm', r) := queue_manager_dequeue_blocking t qm i in
  match l with
  | x :: l' => r = Item x /\ qm_repr qm' (<[Z.to_nat i := l']> ls)
  | [] => r = (if qm_shutting_down qm then Null else Waits) /\ qm_repr qm' ls
  end.
Proof.
  intros H Hi. destruct (queue_at qm ls i H Hi) as (q & l & Eq & El & Hr). exists l. split; [done|].
  unfold queue_manager_dequeue_blocking. rewrite Eq. unfold single_queue_pop, single_queue_is_empty.
  rewrite (rr_count _ _ Hr). destruct l as [|x l']; cbn [length].
  - change (Z.of_nat 0 =? 0) with true. cbn [andb].
    pose proof (list_insert_id ls (Z.to_nat i) [] El) as Hid.
    destruct (qm_shutting_down qm); cbn [negb]; (split; [done|]); rewrite <- Hid;
      (apply set_queue_repr; [done | lia | done]).
  - rewrite (proj2 (Z.eqb_neq _ 0)) by lia. cbn [andb].
    destruct (ring_take_repr _ x l' Hr) as [H1 H2]. destruct (ring_take (buf q)) as [o b]. simpl in H1, H2. subst o.
    split; [done|]. apply set_queue_repr; simpl; done || lia.
Qed.

(** Requests in and out of a manager, in any order of calls. *)
Inductive qm_run (qm0 : queue_manager A) : list A -> list A -> queue_manager A -> Prop :=
| qr_start : qm_run qm0 [] [] qm0
| qr_enqueue pick ins outs qm qm' req exclude rc :
    qm_run qm0 ins outs qm -> queue_manager_enqueue_excluding pick qm req exclude = (qm', rc) ->
    qm_run qm0 (if rc =? 0 then req :: ins else ins) outs qm'
| qr_enqueue_to pick ins outs qm qm' req i rc :
    qm_run qm0 ins outs qm -> queue_manager_enqueue_to pick qm (Some req) i = (qm', rc) ->
    qm_run qm0 (if rc =? 0 then req :: ins else ins) outs qm'
| qr_dequeue t ins outs qm qm' i r :
    qm_run qm0 ins outs qm -> 0 <= i < queue_count qm ->
    queue_manager_dequeue_blocking t qm i = (qm', r) ->
    qm_run qm0 ins (match r with Item x => x :: outs | _ => outs end) qm'
| qr_shutdown ins outs qm :
    qm_run qm0 ins outs qm -> qm_run qm0 ins outs (queue_manager_shutdown qm).

Lemma shutdown_repr qm ls : qm_repr qm ls -> qm_repr (queue_manager_shutdown qm) ls.
Proof.
  intros [Hc Hcu Hq]. destruct (shutdown_turns qm 0 (Z.to_nat (queue_count qm))) as (H1 & H2 & _ & H4).
  assert (length (queues (queue_manager_shutdown qm)) = length (queues qm)) as Hlen.
  { unfold queue_manager_shutdown. clear. generalize (seq 0 (Z.to_nat (queue_count qm))). intros js. revert qm.
    induction js as [|i js IH]; intros qm'; simpl; [done|]. by rewrite IH, shutdown_turn_queues, length_alter. }
  split; unfold queue_manager_shutdown; rewrite ?H1, ?H2; [by fold (queue_manager_shutdown qm); rewrite Hlen | done |].
  apply Forall2_same_length_lookup_2.
  - fold (queue_manager_shutdown qm). rewrite Hlen. by eapply Forall2_length.
  - intros j q l Hj Hl. rewrite H4 in Hj. destruct (queues qm !! j) as [q0|] eqn:E; [|done].
    injection Hj as <-. assert (ring_repr (buf q0) l) by exact (Forall2_lookup_lr _ _ _ j q0 l Hq E Hl). by case_decide.
Qed.

Lemma concat_insert_perm (ls : list (list A)) i l l' :
  ls !! i = Some l -> concat (<[i := l']> ls) ++ l ≡ₚ concat ls ++ l'.
Proof.
  intros E. rewrite <- (take_drop_middle ls i l E) at 2.
  rewrite insert_take_drop by (by eapply lookup_lt_Some).
  rewrite !concat_app. simpl. solve_Permutation.
Qed.

Lemma qm_run_repr n depth qm0 ins outs qm :
  queue_manager_create true n depth = Some qm0 -> qm_run qm0 ins outs qm ->
  exists ls, qm_repr qm ls /\ ins ≡ₚ outs ++ concat ls.
Proof.
  intros Hc. apply create_repr in Hc.
  induction 1 as [|pick ins outs qm qm' req ex rc _ (ls & H & Hp) E|pick ins outs qm qm' req i rc _ (ls & H & Hp) E
                 |t ins outs qm qm' i r _ (ls & H & Hp) Hi E|ins outs qm _ (ls & H & Hp)].
  - eexists. split; [exact Hc|]. by rewrite concat_replicate_nil.
  - pose proof (enqueue_excluding_spec pick qm ls req ex H) as Hs. rewrite E in Hs.
    destruct Hs as [_ [(-> & k & l & _ & _ & _ & El & Hr)|(-> & Hr & _)]]; [|by exists ls].
    eexists. split; [exact Hr|]. simpl. apply (Permutation_app_inv_r l).
    rewrite <- app_assoc, (concat_insert_perm _ _ _ _ El), Hp. solve_Permutation.
  - destruct (decide (0 <= i < queue_count qm)) as [Hi|Hi].
    + pose proof (enqueue_to_spec pick qm ls req i H Hi) as Hs. rewrite E in Hs.
      destruct Hs as [(-> & q & l & _ & _ & El & Hr)|(-> & -> & _)]; [|by exists ls].
      eexists. split; [exact Hr|]. simpl. apply (Permutation_app_inv_r l).
      rewrite <- app_assoc, (concat_insert_perm _ _ _ _ El), Hp. solve_Permutation.
    + unfold queue_manager_enqueue_to in E. destruct (_ || _) eqn:Eb.
      * injection E as <- <-. by exists ls.
      * exfalso. bools. lia.
  - destruct (dequeue_spec t qm ls i H Hi) as (l & El & Hs). rewrite E in Hs.
    destruct l as [|x l']; destruct Hs as [-> Hr].
    + exists ls. split; [done|]. by destruct (qm_shutting_down qm).
    + eexists. split; [exact Hr|]. apply (Permutation_app_inv_r (x :: l')). simpl.
      rewrite <- app_assoc, (concat_insert_perm _ _ _ _ El), Hp. solve_Permutation.
  - exists ls. split; [by apply shutdown_repr | done].
Qed.

Lemma drain_sq_spec (q : single_queue A) (l : list A) : ring_repr (buf q) l -> drain_sq (length l) q = l.
Proof.
  revert q. induction l as [|x l IH]; intros q H; simpl; [done|].
  unfold single_queue_pop, single_queue_is_empty. rewrite (rr_count _ _ H), (proj2 (Z.eqb_neq _ 0)) by (simpl; lia).
  destruct (ring_take_repr _ x l H) as [H1 H2]. destruct (ring_take (buf q)) as [o b]. simpl in H1, H2. subst o.
  f_equal. by apply IH.
Qed.

Lemma destroy_spec qm ls : qm_repr qm ls -> queue_manager_destroy qm = concat ls.
Proof.
  intros [_ _ Hq]. unfold queue_manager_destroy. f_equal.
  induction Hq as [|q l qs ls' Hr _ IH]; simpl; [done|]. f_equal; [|exact IH].
  rewrite (rr_count _ _ Hr), Nat2Z.id. by apply drain_sq_spec.
Qed.
End qm_runs.

(** The round-robin enqueue puts the request at the end of the first
    queue, from the cursor on and around, that is not the excluded one and has
    room, touches no other queue and moves the cursor by one; it fails exactly
    when no such queue exists. *)
Theorem enqueue_excluding_round_robin {A : Type} (pick : nat) (qm : queue_manager A)
    (ls : list (list A)) (req : A) (exclude : Z) :
  qm_repr qm ls ->
  let n := queue_count qm in
  let '(qm', rc) := queue_manager_enqueue_excluding pick qm req exclude in
  enqueue_cursor qm' = (enqueue_cursor qm + 1) mod n /\
  ((rc = 0 /\ exists k l, 0 <= k < n /\
      let idx := (enqueue_cursor qm + k) mod n in
      eligible qm exclude idx /\
      (forall j, 0 <= j < k -> ~ eligible qm exclude ((enqueue_cursor qm + j) mod n)) /\
      ls !! Z.to_nat idx = Some l /\ qm_repr qm' (<[Z.to_nat idx := l ++ [req]]> ls)) \/
   (rc = -1 /\ qm_repr qm' ls /\ forall idx, 0 <= idx < n -> ~ eligible qm exclude idx)).
Proof. apply enqueue_excluding_spec. Qed.

Definition demo_qm (n depth : Z) : queue_manager (list ascii) :=
  match queue_manager_create true n depth with Some qm => qm | None => mk_qm [] 0 0 true end.

Lemma enqueue_excluding_round_robin_witness :
  enqueue_cursor (fst (queue_manager_enqueue_excluding 0 (demo_qm 3 2) (str "r") 0)) = 1 mod 3.
Proof.
  pose proof (enqueue_excluding_round_robin 0 (demo_qm 3 2) _ (str "r") 0
                (create_repr 3 2 (demo_qm 3 2) eq_refl)) as H.
  destruct (queue_manager_enqueue_excluding _ _ _ _) as [qm' rc]. exact (proj1 H).
Defined.

(** Routing of HTTP requests.  A payload recognised as a write goes to
    the end of the writer queue 0 or is refused because queue 0 is full; any
    other payload leaves queue 0 alone and is refused only when every other
    queue is full - so always, when the pool has a single queue. *)
Theorem http_dispatch_routing (pick : nat) (qm : queue_manager (list ascii)) (ls : list (list (list ascii)))
    (payload : list ascii) :
  qm_repr qm ls ->
  let '(qm', rc) := http_worker_pool_dispatch pick qm payload in
  exists ls', qm_repr qm' ls' /\
  if http_request_is_write payload then
    (rc = 0 /\ exists l, ls !! 0%nat = Some l /\ ls' = <[0%nat := l ++ [payload]]> ls) \/
    (rc = -1 /\ ls' = ls /\ forall q, queues qm !! 0%nat = Some q -> ~ room q)
  else
    ls' !! 0%nat = ls !! 0%nat /\
    ((rc = 0 /\ 2 <= queue_count qm /\ concat ls' ≡ₚ payload :: concat ls) \/
     (rc = -1 /\ ls' = ls /\ forall i q, (0 < i)%nat -> queues qm !! i = Some q -> ~ room q)).
Proof.
  intros H. unfold http_worker_pool_dispatch. pose proof (qr_count _ _ H) as [Hc Hpos].
  destruct (http_request_is_write payload).
  - pose proof (enqueue_to_spec pick qm ls payload 0 H ltac:(lia)) as Hs.
    destruct (queue_manager_enqueue_to _ _ _ _) as [qm' rc].
    destruct Hs as [(-> & q & l & Eq & Hroom & El & Hr)|(-> & -> & Hno)]; eexists; (split; [eassumption|]); eauto.
  - pose proof (enqueue_excluding_spec pick qm ls payload 0 H) as Hs. cbv zeta in Hs.
    destruct (queue_manager_enqueue_excluding _ _ _ _) as [qm' rc].
    destruct Hs as [_ [(-> & k & l & Hk & [Hne [q [Eq _]]] & _ & El & Hr)|(-> & Hr & Hno)]]; eexists; (split; [exact Hr|]).
    + set (idx := (enqueue_cursor qm + k) mod queue_count qm) in *.
      assert (0 <= idx < queue_count qm) as Hidx by (apply Z.mod_pos_bound; lia).
      split; [apply list_lookup_insert_ne; lia|]. left. split; [done|]. split; [lia|].
      apply (Permutation_app_inv_r l). rewrite (concat_insert_perm _ _ _ _ El). solve_Permutation.
    + split; [done|]. right. split; [done|]. split; [done|]. intros i q Hi Eq Hroom.
      apply (Hno (Z.of_nat i)).
      * apply lookup_lt_Some in Eq. lia.
      * split; [lia|]. exists q. by rewrite Nat2Z.id.
Qed.

(** One queue only: a read is refused by an idle pool. *)
Lemma http_dispatch_routing_witness :
  http_request_is_write (str "SELECT") = false /\
  exists qm', http_worker_pool_dispatch 0 (demo_qm 1 16) (str "SELECT") = (qm', -1).
Proof.
  pose proof (http_dispatch_routing 0 (demo_qm 1 16) _ (str "SELECT")
                (create_repr 1 16 (demo_qm 1 16) eq_refl)) as H.
  split; [vm_compute; reflexivity|].
  destruct (http_worker_pool_dispatch 0 (demo_qm 1 16) (str "SELECT")) as [qm' rc]. exists qm'.
  destruct H as (ls' & _ & H). change (http_request_is_write (str "SELECT")) with false in H.
  destruct H as [_ [(_ & H & _)|(-> & _)]]; [|done]. exfalso. change (queue_count (demo_qm 1 16)) with 1 in H. lia.
Defined.

(** Nothing is lost or invented between the queues.  From creation on,
    whatever the order of enqueues, dequeues and shutdown, the accepted
    requests are those delivered and those still queued, the total count is
    the number still queued and destroying the manager frees exactly those. *)
Theorem queue_manager_conserves {A : Type} (n depth : Z) (qm0 qm : queue_manager A) (ins outs : list A) :
  queue_manager_create true n depth = Some qm0 -> qm_run qm0 ins outs qm ->
  ins ≡ₚ outs ++ queue_manager_destroy qm /\
  queue_manager_total_count qm = Z.of_nat (length ins) - Z.of_nat (length outs).
Proof.
  intros Hc Hr. destruct (qm_run_repr n depth qm0 ins outs qm Hc Hr) as (ls & H & Hp).
  rewrite (destroy_spec qm ls H). split; [done|].
  rewrite (total_count_spec qm ls H). apply Permutation_length in Hp. rewrite length_app in Hp. lia.
Qed.

Lemma queue_manager_conserves_witness :
  queue_manager_total_count (fst (queue_manager_enqueue_excluding 0 (demo_qm 3 2) (str "r") 0)) = 1.
Proof.
  exact (proj2 (queue_manager_conserves 3 2 (demo_qm 3 2)
    (fst (queue_manager_enqueue_excluding 0 (demo_qm 3 2) (str "r") 0)) [str "r"] [] eq_refl
    (qr_enqueue (demo_qm 3 2) 0 [] [] (demo_qm 3 2) _ (str "r") 0 0 (qr_start _) eq_refl))).
Defined.

(** Shutdown.  After [queue_manager_shutdown] no thread sleeps on any
    queue and what was queued is still there; from then on a dequeue never
    sleeps: it returns the oldest request of its queue and NULL only when that
    queue is empty, so a worker drains its queue before it stops. *)
Theorem queue_manager_shutdown_drains {A : Type} (t : nat) (qm : queue_manager A) (ls : list (list A)) (i : Z) :
  qm_repr qm ls -> 0 <= i < queue_count qm ->
  let qm' := queue_manager_shutdown qm in
  qm_repr qm' ls /\ (forall j q, queues qm' !! j = Some q -> sq_sleeping q = []) /\
  exists l, ls !! Z.to_nat i = Some l /\
    snd (queue_manager_dequeue_blocking t qm' i) = match l with x :: _ => Item x | [] => Null end.
Proof.
  intros H Hi. cbv zeta. pose proof (shutdown_repr qm ls H) as H'.
  destruct (shutdown_turns qm 0 (Z.to_nat (queue_count qm))) as (H1 & _ & H3 & H4).
  split; [done|]. split.
  - intros j q Hj. unfold queue_manager_shutdown in Hj. rewrite H4 in Hj.
    destruct (queues qm !! j) as [q0|] eqn:E; [|done]. injection Hj as <-.
    case_decide as Hd; [done|]. exfalso. apply Hd. apply lookup_lt_Some in E.
    pose proof (qr_count _ _ H). lia.
  - fold (queue_manager_shutdown qm) in H1, H3.
    destruct (dequeue_spec t (queue_manager_shutdown qm) ls i H' ltac:(lia)) as (l & El & Hs).
    exists l. split; [done|]. destruct (queue_manager_dequeue_blocking _ _ _) as [q r].
    destruct l as [|x l]; destruct Hs as [-> _]; [|done].
    destruct H3 as [-> | H3]; [done|]. exfalso. pose proof (qr_count _ _ H). lia.
Qed.

Lemma queue_manager_shutdown_drains_witness :
  snd (queue_manager_dequeue_blocking 4 (queue_manager_shutdown (demo_qm 3 2)) 1) = Null.
Proof.
  destruct (queue_manager_shutdown_drains 4 (demo_qm 3 2) _ 1 (create_repr 3 2 (demo_qm 3 2) eq_refl)
              ltac:(vm_compute; split; congruence)) as (_ & _ & l & El & H).
  vm_compute in El. injection El as <-. exact H.
Defined.
