(* ===== verification/TransactionManager.v ===== *)
(** * TransactionManager: the life of a transaction

    Models src/src/execute/Transaction_Manager.c.  The handles live in a store
    indexed by their address, as [ctx->active_tx] points at one of them; the
    database driver is the record [db_driver] of what its [commit()] and
    [rollback()] answer, and the calls made to it are logged as events, the
    delays between attempts too.  Clocks, random bytes and the outcome of
    [malloc] are arguments.  Logging and metrics records are left out. *)

From Stdlib Require Import Ascii String ZArith Lia Bool.
From stdpp Require Import base list strings numbers.
From S2P Require Import Prelude Text.

#[local] Open Scope Z_scope.

(** ** Data *)

Inductive tx_status :=
| TX_STATUS_NONE
| TX_STATUS_ACTIVE
| TX_STATUS_COMMITTED
| TX_STATUS_ROLLED_BACK
| TX_STATUS_ABORTED
| TX_STATUS_TIMED_OUT.

#[export] Instance tx_status_eq_dec : EqDecision tx_status.
Proof. solve_decision. Defined.

Inductive tx_result :=
| TX_OK
| TX_ERR_INVALID_ARG
| TX_ERR_ALREADY_ACTIVE
| TX_ERR_NO_ACTIVE
| TX_ERR_OCI_FAILURE
| TX_ERR_TIMEOUT
| TX_ERR_ALLOC.

#[export] Instance tx_result_eq_dec : EqDecision tx_result.
Proof. solve_decision. Defined.

Record tx_handle := mk_tx {
  transaction_id : list ascii;
  tx_session_id : list ascii;
  tx_name : list ascii;
  tx_state : tx_status;
  start_time_us : Z;
  end_time_us : Z;
  last_activity_epoch : Z;
  timeout_seconds : Z;
  max_retries : Z;
  retry_delay_ms : Z;
  has_ctx : bool }.                     (* [handle->ctx != NULL] *)

(** The ini values [tx_begin] copies. *)
Record tx_ini := mk_tx_ini { ini_timeout : Z; ini_retries : Z; ini_delay : Z }.

(** What the driver answers: to the n-th commit of a call, and to a rollback;
    [None]: no such function.  The answer is a function of the number of the
    attempt within the call: a driver that remembers earlier calls is, for each
    call, one of these, but not one and the same for all of them. *)
Record db_driver := mk_driver {
  drv_commit : option (nat -> Z);
  drv_rollback : option Z }.

Definition DB_TX_RETRYABLE : Z := 1.

(** Calls to the driver and sleeps, oldest first. *)
Inductive drv_event := EvCommit (rc : Z) | EvRollback (rc : Z) | EvSleep (ms : Z).

(** The context: the active transaction, the configuration, the driver, the
    thread's trace id, and what was asked of the driver so far. *)
Record tx_ctx := mk_ctx {
  active_tx : option nat;
  ctx_ini : option tx_ini;
  driver : db_driver;
  trace_txid : option (list ascii);
  drv_log : list drv_event }.

Definition set_active (a : option nat) (t : option (list ascii)) (c : tx_ctx) : tx_ctx :=
  mk_ctx a (ctx_ini c) (driver c) t (drv_log c).
Definition log_events (evs : list drv_event) (c : tx_ctx) : tx_ctx :=
  mk_ctx (active_tx c) (ctx_ini c) (driver c) (trace_txid c) (drv_log c ++ evs).

Definition set_status (s : tx_status) (h : tx_handle) : tx_handle :=
  mk_tx (transaction_id h) (tx_session_id h) (tx_name h) s (start_time_us h) (end_time_us h)
    (last_activity_epoch h) (timeout_seconds h) (max_retries h) (retry_delay_ms h) (has_ctx h).
Definition set_end (t : Z) (h : tx_handle) : tx_handle :=
  mk_tx (transaction_id h) (tx_session_id h) (tx_name h) (tx_state h) (start_time_us h) t
    (last_activity_epoch h) (timeout_seconds h) (max_retries h) (retry_delay_ms h) (has_ctx h).
Definition set_activity (t : Z) (h : tx_handle) : tx_handle :=
  mk_tx (transaction_id h) (tx_session_id h) (tx_name h) (tx_state h) (start_time_us h) (end_time_us h)
    t (timeout_seconds h) (max_retries h) (retry_delay_ms h) (has_ctx h).
Definition set_id (i : list ascii) (h : tx_handle) : tx_handle :=
  mk_tx i (tx_session_id h) (tx_name h) (tx_state h) (start_time_us h) (end_time_us h)
    (last_activity_epoch h) (timeout_seconds h) (max_retries h) (retry_delay_ms h) (has_ctx h).

(** ** Identifiers *)

Definition TX_UUID_LEN : nat := 37.

Definition hex_digit (n : Z) : ascii := if n <? 10 then chr (48 + n) else chr (87 + n).
(** ["%02x"] of a byte. *)
Definition hex2 (b : Z) : list ascii := [hex_digit (b / 16); hex_digit (b mod 16)].

(** [rnd]: the 16 bytes read from /dev/urandom (or from [rand()]). *)
Definition tx_generate_uuid (rnd : list Z) : list ascii :=
  let r := <[8%nat := Z.lor (Z.land (nth 8 rnd 0) 0x3F) 0x80]>
             (<[6%nat := Z.lor (Z.land (nth 6 rnd 0) 0x0F) 0x40]> rnd) in
  let h (i : nat) := hex2 (nth i r 0) in
  take (TX_UUID_LEN - 1)
    (h 0%nat ++ h 1%nat ++ h 2%nat ++ h 3%nat ++ str "-" ++ h 4%nat ++ h 5%nat ++ str "-" ++
     h 6%nat ++ h 7%nat ++ str "-" ++ h 8%nat ++ h 9%nat ++ str "-" ++
     h 10%nat ++ h 11%nat ++ h 12%nat ++ h 13%nat ++ h 14%nat ++ h 15%nat).

Definition tx_init (ctx : bool) : tx_handle :=
  mk_tx (str "-") (str "-") (str "-") TX_STATUS_NONE 0 0 0 0 0 0 ctx.

Definition tx_status_str (s : tx_status) : list ascii :=
  match s with
  | TX_STATUS_NONE => str "NONE"
  | TX_STATUS_ACTIVE => str "ACTIVE"
  | TX_STATUS_COMMITTED => str "COMMITTED"
  | TX_STATUS_ROLLED_BACK => str "ROLLED_BACK"
  | TX_STATUS_ABORTED => str "ABORTED"
  | TX_STATUS_TIMED_OUT => str "TIMED_OUT"
  end.

Definition tx_get_id (h : option tx_handle) : list ascii :=
  match h with
  | None => str "-"
  | Some h => if decide (tx_state h = TX_STATUS_NONE) then str "-" else transaction_id h
  end.

Definition tx_is_active (h : option tx_handle) : bool :=
  match h with None => false | Some h => bool_decide (tx_state h = TX_STATUS_ACTIVE) end.

(** ** XML answers *)

(** Days since 1 Jan 1970 to year, month, day (proleptic Gregorian). *)
Definition civil_of_days (days : Z) : Z * Z * Z :=
  let z := days + 719468 in
  let era := z / 146097 in
  let doe := z mod 146097 in
  let yoe := (doe - doe / 1460 + doe / 36524 - doe / 146096) / 365 in
  let doy := doe - (365 * yoe + yoe / 4 - yoe / 100) in
  let mp := (5 * doy + 2) / 153 in
  let d := doy - (153 * mp + 2) / 5 + 1 in
  let m := if mp <? 10 then mp + 3 else mp - 9 in
  (yoe + era * 400 + (if m <=? 2 then 1 else 0), m, d).

(** [gmtime_r] and [strftime("%Y-%m-%d %H:%M:%S")], then the microseconds. *)
Definition tx_timestamp_str (us_epoch : Z) : list ascii :=
  let sec := us_epoch / 1000000 in
  let '(y, m, d) := civil_of_days (sec / 86400) in
  let s := sec mod 86400 in
  print_int y ++ str "-" ++ pad 2 m ++ str "-" ++ pad 2 d ++ str " " ++
  pad 2 (s / 3600) ++ str ":" ++ pad 2 (s / 60 mod 60) ++ str ":" ++ pad 2 (s mod 60) ++
  str "." ++ pad 6 (us_epoch mod 1000000).

Definition nl : list ascii := [chr 10].
Definition xml_head : list ascii :=
  str "<?xml version=" ++ quoted "1.0" ++ str " encoding=" ++ quoted "UTF-8" ++ str "?>" ++ nl ++
  str "<transaction>" ++ nl.
Definition xml_field (tag : string) (v : list ascii) : list ascii :=
  str "  <" ++ str tag ++ str ">" ++ v ++ str "</" ++ str tag ++ str ">" ++ nl.

(** [al]: the buffer is allocated. *)
Definition tx_build_begin_xml (al : bool) (h : tx_handle) : option (list ascii) :=
  if negb al then None else Some (take 1023 (
    xml_head ++ xml_field "operation" (str "BEGIN") ++ xml_field "transaction_id" (transaction_id h) ++
    xml_field "transaction_name" (tx_name h) ++ xml_field "session_id" (tx_session_id h) ++
    xml_field "status" (tx_status_str (tx_state h)) ++
    xml_field "start_time" (tx_timestamp_str (start_time_us h)) ++
    xml_field "timeout_seconds" (print_int (timeout_seconds h)) ++
    xml_field "max_retries" (print_int (max_retries h)) ++ str "</transaction>" ++ nl)).

(** When the text does not fit 2048 bytes it is written again in a buffer of
    its own length, so it is always whole. *)
Definition tx_build_result_xml (al : bool) (h : tx_handle) (operation : string) (extra : list ascii)
    : option (list ascii) :=
  if negb al then None else Some (
    xml_head ++ xml_field "operation" (str operation) ++ xml_field "transaction_id" (transaction_id h) ++
    xml_field "session_id" (tx_session_id h) ++ xml_field "status" (tx_status_str (tx_state h)) ++
    extra ++ str "</transaction>" ++ nl).

(** ["%.6f"] of [(double)us / 1e6]. *)
Definition seconds6 (us : Z) : list ascii := print_fixed6 (dbl_div (dbl_of us) (dbl_of 1000000)).

Example seconds6_values :
  map (fun us => String.string_of_list_ascii (seconds6 us)) [0; 1; 1500000; 3661123456; 2 ^ 64 - 1] =
  ["0.000000"; "0.000001"; "1.500000"; "3661.123456"; "18446744073709.550781"]%string.
Proof. vm_compute. reflexivity. Qed.

Definition xml_duration (duration : Z) : list ascii :=
  str "<duration_us>" ++ print_int duration ++ str "</duration_us>" ++ nl ++
  str "<execution_time>" ++ seconds6 duration ++ str "</execution_time>".

(** ** Driver calls *)

(** The loop of [tx_commit_with_retry], [attempt] failures behind, [n] turns
    allowed: the events, the last answer and the attempts made. *)
Fixpoint commit_loop (n : nat) (commit : nat -> Z) (attempt : nat) (retries delay : Z)
    : list drv_event * Z * nat :=
  match n with
  | O => ([], DB_TX_RETRYABLE, attempt)
  | S n' =>
      let rc := commit attempt in
      if negb (rc =? DB_TX_RETRYABLE) then ([EvCommit rc], rc, S attempt)
      else if retries <=? Z.of_nat attempt then ([EvCommit rc], rc, S attempt)
      else
        let sleep := if 0 <? delay then [EvSleep delay] else [] in
        let '(evs, rc', m) := commit_loop n' commit (S attempt) retries delay in
        (EvCommit rc :: sleep ++ evs, rc', m)
  end.

(** The result, [*out_attempts] and the context. *)
Definition tx_commit_with_retry (c : tx_ctx) (max_retries retry_delay_ms : Z) : tx_ctx * Z * Z :=
  match drv_commit (driver c) with
  | None => (c, -1, 0)
  | Some commit =>
      let retries := if max_retries <? 0 then 0 else max_retries in
      let '(evs, rc, attempts) := commit_loop (S (Z.to_nat retries)) commit 0 retries retry_delay_ms in
      (log_events evs c, if rc =? 0 then 0 else -1, Z.of_nat attempts)
  end.

Definition tx_driver_rollback (c : tx_ctx) : tx_ctx * Z :=
  match drv_rollback (driver c) with
  | None => (c, -1)
  | Some rc => (log_events [EvRollback rc] c, rc)
  end.

(** ** The calls; [h] is the handle at address [a] *)

(** The answer: the code and, when asked for ([want]), [*result_xml]. *)
Record tx_answer := mk_answer { tx_rc : tx_result; result_xml : option (list ascii) }.

Definition xml_if (want : bool) (x : option (list ascii)) : option (list ascii) := if want then x else None.

Definition tx_begin (rnd : list Z) (now_us now : Z) (al want : bool) (a : nat) (c : tx_ctx) (h : tx_handle)
    (sid name : option (list ascii)) : tx_ctx * tx_handle * tx_answer :=
  if negb (has_ctx h) then (c, h, mk_answer TX_ERR_INVALID_ARG None)
  else if decide (tx_state h = TX_STATUS_ACTIVE) then (c, h, mk_answer TX_ERR_ALREADY_ACTIVE None)
  else
    let ini := default (mk_tx_ini 300 3 500) (ctx_ini c) in
    let h' := mk_tx (tx_generate_uuid rnd)
                (match sid with Some ((_ :: _) as s) => take (TX_UUID_LEN - 1) s | _ => str "-" end)
                (match name with Some ((_ :: _) as s) => take 127 s | _ => str "-" end)
                TX_STATUS_ACTIVE now_us 0 now (ini_timeout ini) (ini_retries ini) (ini_delay ini) (has_ctx h) in
    (set_active (Some a) (Some (transaction_id h')) c, h',
     mk_answer TX_OK (xml_if want (tx_build_begin_xml al h'))).

Definition tx_touch (now : Z) (h : tx_handle) : tx_handle :=
  if decide (tx_state h = TX_STATUS_ACTIVE) then set_activity now h else h.

Definition duration_us (h : tx_handle) : Z := u64 (end_time_us h - start_time_us h).

Definition tx_commit (now_us : Z) (al want : bool) (c : tx_ctx) (h : tx_handle)
    : tx_ctx * tx_handle * tx_answer :=
  if negb (has_ctx h) then (c, h, mk_answer TX_ERR_INVALID_ARG None)
  else if negb (bool_decide (tx_state h = TX_STATUS_ACTIVE)) then (c, h, mk_answer TX_ERR_NO_ACTIVE None)
  else
    let '(c, commit_rc, _) := tx_commit_with_retry c (max_retries h) (retry_delay_ms h) in
    let h := set_end now_us h in
    let c := set_active None None c in
    let '(c, h, rc) :=
      if commit_rc =? 0 then (c, set_status TX_STATUS_COMMITTED h, TX_OK)
      else (fst (tx_driver_rollback c), set_status TX_STATUS_ABORTED h, TX_ERR_OCI_FAILURE) in
    (c, h, mk_answer rc (xml_if want (tx_build_result_xml al h "COMMIT" (xml_duration (duration_us h))))).

Definition tx_rollback (now_us : Z) (al want : bool) (c : tx_ctx) (h : tx_handle)
    : tx_ctx * tx_handle * tx_answer :=
  if negb (has_ctx h) then (c, h, mk_answer TX_ERR_INVALID_ARG None)
  else if negb (bool_decide (tx_state h = TX_STATUS_ACTIVE)) then (c, h, mk_answer TX_ERR_NO_ACTIVE None)
  else
    let c := set_active None None (fst (tx_driver_rollback c)) in
    let h := set_status TX_STATUS_ROLLED_BACK (set_end now_us h) in
    (c, h, mk_answer TX_OK (xml_if want (tx_build_result_xml al h "ROLLBACK" (xml_duration (duration_us h))))).

Definition tx_abort (now_us : Z) (al want : bool) (c : tx_ctx) (h : tx_handle) (reason : option (list ascii))
    : tx_ctx * tx_handle * tx_answer :=
  if negb (has_ctx h) then (c, h, mk_answer TX_ERR_INVALID_ARG None)
  else
    let abort_reason := match reason with Some ((_ :: _) as r) => r | _ => str "unspecified" end in
    let c := if decide (tx_state h = TX_STATUS_ACTIVE) then fst (tx_driver_rollback c) else c in
    let h := set_status TX_STATUS_ABORTED (set_end now_us h) in
    let c := set_active None None c in
    let extra := take 255 (xml_duration (duration_us h) ++ nl ++
                           str "<abort_reason>" ++ abort_reason ++ str "</abort_reason>") in
    (c, h, mk_answer TX_OK (xml_if want (tx_build_result_xml al h "ABORT" extra))).

(** [al_abort], [al_timeout]: the allocations of the two builders. *)
Definition tx_check_timeout (now now_us : Z) (al_abort al_timeout want : bool) (c : tx_ctx) (h : tx_handle)
    : tx_ctx * tx_handle * tx_answer :=
  if negb (bool_decide (tx_state h = TX_STATUS_ACTIVE)) then (c, h, mk_answer TX_OK None)
  else if timeout_seconds h <=? 0 then (c, h, mk_answer TX_OK None)
  else
    let idle := now - last_activity_epoch h in
    if idle <? timeout_seconds h then (c, h, mk_answer TX_OK None)
    else
      let '(c, h', ans) := tx_abort now_us al_abort true c h (Some (str "idle_timeout")) in
      let h' := set_status TX_STATUS_TIMED_OUT h' in
      let xml := match result_xml ans with
                 | Some x => Some x
                 | None => tx_build_result_xml al_timeout h' "TIMEOUT"
                     (str "<idle_seconds>" ++ print_int idle ++ str "</idle_seconds>" ++ nl ++
                      str "<timeout_seconds>" ++ print_int (timeout_seconds h') ++ str "</timeout_seconds>")
                 end in
      (c, h', mk_answer TX_ERR_TIMEOUT (xml_if want xml)).

(** The handle is the caller's local variable, at address [a]; the result is
    1 when this call owns the transaction identity. *)
Definition begin_standalone_tx_if_needed (rnd : list Z) (a : nat) (c : tx_ctx) (local_tx : tx_handle)
    : tx_ctx * tx_handle * bool :=
  match active_tx c with
  | Some _ => (c, local_tx, false)
  | None =>
      let h := set_status TX_STATUS_ACTIVE (set_id (tx_generate_uuid rnd) (tx_init true)) in
      (set_active (Some a) (trace_txid c) c, h, true)
  end.

Definition end_standalone_tx_if_owned (c : tx_ctx) (owned : bool) : tx_ctx :=
  if owned then set_active None (trace_txid c) c else c.

(** ** A program of calls

    The handles of one context, by address, and what a program may call on
    them.  [tx_init] is for a handle that is not the registered one: it wipes
    its fields. *)

Inductive tx_call :=
| CallInit (ctx : bool)
| CallBegin (rnd : list Z) (now_us now : Z) (sid name : option (list ascii))
| CallTouch (now : Z)
| CallCommit (now_us : Z)
| CallRollback (now_us : Z)
| CallAbort (now_us : Z) (reason : option (list ascii))
| CallCheckTimeout (now now_us : Z)
| CallBeginStandalone (rnd : list Z)
| CallEndStandalone.

Record tx_world := mk_world { w_ctx : tx_ctx; w_handles : list tx_handle }.

(** The transaction the context points at, if any, is there. *)
Definition tx_there (w : tx_world) : Prop :=
  match active_tx (w_ctx w) with None => True | Some a => is_Some (w_handles w !! a) end.

Definition call_one (call : tx_call) (a : nat) (c : tx_ctx) (h : tx_handle) : tx_ctx * tx_handle :=
  match call with
  | CallInit ctx => (c, tx_init ctx)
  | CallBegin rnd us now sid name => fst (tx_begin rnd us now true false a c h sid name)
  | CallTouch now => (c, tx_touch now h)
  | CallCommit us => fst (tx_commit us true false c h)
  | CallRollback us => fst (tx_rollback us true false c h)
  | CallAbort us reason => fst (tx_abort us true false c h reason)
  | CallCheckTimeout now us => fst (tx_check_timeout now us true true false c h)
  | CallBeginStandalone rnd => fst (begin_standalone_tx_if_needed rnd a c h)
  | CallEndStandalone => (end_standalone_tx_if_owned c true, h)
  end.

Definition call_allowed (call : tx_call) (a : nat) (c : tx_ctx) : bool :=
  match call with CallInit _ => negb (bool_decide (active_tx c = Some a)) | _ => true end.

Inductive tx_step : tx_world -> tx_world -> Prop :=
| tx_step_call call a h w :
    w_handles w !! a = Some h -> call_allowed call a (w_ctx w) = true ->
    tx_step w (mk_world (fst (call_one call a (w_ctx w) h))
                 (<[a := snd (call_one call a (w_ctx w) h)]> (w_handles w))).

(** ** Identifiers: lemmas *)

Lemma hex_digit_spec n : 0 <= n < 16 -> isxdigit (hex_digit n) = true /\ isupper (hex_digit n) = false.
Proof.
  intros H. assert (exists k, n = Z.of_nat k /\ (k < 16)%nat) as (k & -> & Hk) by (exists (Z.to_nat n); lia).
  do 16 (destruct k as [|k]; [by vm_compute|]). lia.
Qed.

Definition lower_hex (c : ascii) : bool := isxdigit c && negb (isupper c).

(** The text of a version 4 UUID (RFC 4122): 8-4-4-4-12 lower-case
    hexadecimal digits, the third group starting with 4, the fourth with 8,
    9, a or b. *)
Definition uuid_v4_char (i : nat) (c : ascii) : bool :=
  if bool_decide (i = 8 \/ i = 13 \/ i = 18 \/ i = 23)%nat then Ascii.eqb c "-"
  else if bool_decide (i = 14)%nat then Ascii.eqb c "4"
  else if bool_decide (i = 19)%nat then bool_decide (In c (str "89ab"))
  else lower_hex c.

Fixpoint all_at (i : nat) (f : nat -> ascii -> bool) (s : list ascii) : bool :=
  match s with [] => true | c :: s' => f i c && all_at (S i) f s' end.

Definition uuid_v4 (s : list ascii) : bool := bool_decide (length s = 36%nat) && all_at 0 uuid_v4_char s.

Lemma lower_hex_digit n : 0 <= n < 16 -> lower_hex (hex_digit n) = true.
Proof. intros H. unfold lower_hex. by destruct (hex_digit_spec n H) as [-> ->]. Qed.

Lemma byte_nibbles b : 0 <= b < 256 -> 0 <= b / 16 < 16 /\ 0 <= b mod 16 < 16.
Proof. intros H. split; [split; [apply Z.div_pos | apply Z.div_lt_upper_bound]|apply Z.mod_pos_bound]; lia. Qed.

(** The version byte prints "4x", the variant byte "[89ab]x". *)
Lemma version_nibbles b :
  0 <= b < 256 ->
  hex_digit (Z.lor (Z.land b 0x0F) 0x40 / 16) = "4"%char /\
  lower_hex (hex_digit (Z.lor (Z.land b 0x0F) 0x40 mod 16)) = true.
Proof.
  intros H. revert b H.
  assert (forallb (fun b => Ascii.eqb (hex_digit (Z.lor (Z.land b 0x0F) 0x40 / 16)) "4" &&
                            lower_hex (hex_digit (Z.lor (Z.land b 0x0F) 0x40 mod 16)))
            (map Z.of_nat (seq 0 256)) = true) as Hall by (vm_compute; reflexivity).
  intros b H. rewrite forallb_forall in Hall. specialize (Hall b).
  rewrite andb_true_iff, Ascii.eqb_eq in Hall. apply Hall.
  apply in_map_iff. exists (Z.to_nat b). rewrite in_seq. lia.
Qed.

Lemma variant_nibbles b :
  0 <= b < 256 ->
  In (hex_digit (Z.lor (Z.land b 0x3F) 0x80 / 16)) (str "89ab") /\
  lower_hex (hex_digit (Z.lor (Z.land b 0x3F) 0x80 mod 16)) = true.
Proof.
  assert (forallb (fun b => bool_decide (In (hex_digit (Z.lor (Z.land b 0x3F) 0x80 / 16)) (str "89ab")) &&
                            lower_hex (hex_digit (Z.lor (Z.land b 0x3F) 0x80 mod 16)))
            (map Z.of_nat (seq 0 256)) = true) as Hall by (vm_compute; reflexivity).
  intros H. rewrite forallb_forall in Hall. specialize (Hall b).
  rewrite andb_true_iff, bool_decide_eq_true in Hall. apply Hall.
  apply in_map_iff. exists (Z.to_nat b). rewrite in_seq. lia.
Qed.

(** ** The commit loop: lemmas *)

(** What [n] attempts leave in the log: the answers, with a pause between two. *)
Definition attempt_log (commit : nat -> Z) (delay : Z) (first n : nat) : list drv_event :=
  concat (map (fun i => EvCommit (commit i) ::
                 (if bool_decide (S i < first + n)%nat && (0 <? delay) then [EvSleep delay] else []))
            (seq first n)).

Lemma attempt_log_S commit delay first n :
  attempt_log commit delay first (S (S n)) =
  EvCommit (commit first) :: (if 0 <? delay then [EvSleep delay] else []) ++ attempt_log commit delay (S first) (S n).
Proof.
  unfold attempt_log. cbn [seq map concat].
  rewrite bool_decide_eq_true_2 by lia. cbn [andb app].
  replace (first + S (S n))%nat with (S first + S n)%nat by lia. done.
Qed.

Lemma attempt_log_1 commit delay first : attempt_log commit delay first 1 = [EvCommit (commit first)].
Proof. unfold attempt_log. cbn [seq map concat]. by rewrite bool_decide_eq_false_2 by lia. Qed.

Lemma commit_loop_spec commit retries delay n : forall first,
  (Z.of_nat first + Z.of_nat n = retries + 1) -> (0 < n)%nat ->
  exists k, (k < n)%nat /\
    commit_loop n commit first retries delay =
      (attempt_log commit delay first (S k), commit (first + k)%nat, (first + S k)%nat) /\
    (forall i, (i < k)%nat -> commit (first + i)%nat = DB_TX_RETRYABLE) /\
    (commit (first + k)%nat <> DB_TX_RETRYABLE \/ S k = n).
Proof.
  induction n as [|n IH]; intros first Hn Hpos; [lia|]. cbn [commit_loop].
  destruct (Z.eqb_spec (commit first) DB_TX_RETRYABLE) as [E|E]; cbn [negb].
  - destruct (Z.leb_spec retries (Z.of_nat first)) as [Hr|Hr].
    + exists 0%nat. rewrite attempt_log_1, !Nat.add_0_r. repeat split; [lia| |lia|right; lia].
      by rewrite Nat.add_1_r.
    + destruct (IH (S first)) as (k & Hk & -> & Hall & Hlast); [lia..|].
      exists (S k). rewrite attempt_log_S, !Nat.add_succ_r. cbn [Nat.add]. split; [lia|]. split; [done|]. split.
      * intros [|i] Hi; [by rewrite Nat.add_0_r|]. rewrite Nat.add_succ_r. apply (Hall i). lia.
      * destruct Hlast as [Hl| <-]; [left; exact Hl|by right].
  - exists 0%nat. rewrite attempt_log_1, !Nat.add_0_r, Nat.add_1_r. repeat split; [lia|lia|by left].
Qed.

(** ** What the calls leave alone *)

Lemma rollback_active c : active_tx (fst (tx_driver_rollback c)) = active_tx c.
Proof. unfold tx_driver_rollback. by destruct (drv_rollback _). Qed.
Lemma rollback_driver c : driver (fst (tx_driver_rollback c)) = driver c.
Proof. unfold tx_driver_rollback. by destruct (drv_rollback _). Qed.

Definition rollback_log (c : tx_ctx) : list drv_event :=
  match drv_rollback (driver c) with Some rc => [EvRollback rc] | None => [] end.

Lemma rollback_drv_log c : drv_log (fst (tx_driver_rollback c)) = drv_log c ++ rollback_log c.
Proof. unfold tx_driver_rollback, rollback_log. destruct (drv_rollback _); simpl; by rewrite ?app_nil_r. Qed.

Lemma retry_frame c r d :
  let c' := fst (fst (tx_commit_with_retry c r d)) in
  driver c' = driver c /\ active_tx c' = active_tx c.
Proof.
  unfold tx_commit_with_retry. destruct (drv_commit _); [|done].
  by destruct (commit_loop _ _ _ _ _) as [[? ?] ?].
Qed.

Lemma commit_not_active us al want c h :
  has_ctx h = true -> tx_state h <> TX_STATUS_ACTIVE ->
  tx_commit us al want c h = (c, h, mk_answer TX_ERR_NO_ACTIVE None).
Proof. intros Hc Hs. unfold tx_commit. by rewrite Hc, bool_decide_eq_false_2 by done. Qed.

Lemma rollback_not_active us al want c h :
  has_ctx h = true -> tx_state h <> TX_STATUS_ACTIVE ->
  tx_rollback us al want c h = (c, h, mk_answer TX_ERR_NO_ACTIVE None).
Proof. intros Hc Hs. unfold tx_rollback. by rewrite Hc, bool_decide_eq_false_2 by done. Qed.

(** ** The registered transaction *)

(** The registered transaction is one of the handles, ACTIVE; an ACTIVE
    handle has a context. *)
Definition tx_inv (w : tx_world) : Prop :=
  (forall a, active_tx (w_ctx w) = Some a ->
     exists h, w_handles w !! a = Some h /\ tx_state h = TX_STATUS_ACTIVE) /\
  Forall (fun h => tx_state h = TX_STATUS_ACTIVE -> has_ctx h = true) (w_handles w).

(** A call that clears or keeps the registration, and leaves the handle
    ACTIVE when it keeps it. *)
Definition call_effect (a : nat) (c c' : tx_ctx) (h h' : tx_handle) : Prop :=
  (tx_state h' = TX_STATUS_ACTIVE -> has_ctx h' = true) /\
  (active_tx c' = None \/
   (active_tx c' = active_tx c /\ (active_tx c = Some a -> tx_state h' = TX_STATUS_ACTIVE)) \/
   (active_tx c' = Some a /\ tx_state h' = TX_STATUS_ACTIVE)).

Lemma call_one_effect call a c h :
  (tx_state h = TX_STATUS_ACTIVE -> has_ctx h = true) ->
  (active_tx c = Some a -> tx_state h = TX_STATUS_ACTIVE) ->
  call_allowed call a c = true ->
  call_effect a c (fst (call_one call a c h)) h (snd (call_one call a c h)).
Proof.
  intros Hh Ha Hok.
  assert (call_effect a c c h h) as Hsame by (split; auto).
  destruct call; cbn [call_one call_allowed] in *.
  - bools. split; [done|]. right. left. split; [done|]. by intros ?.
  - unfold tx_begin. destruct (has_ctx h) eqn:E; simpl; [|done].
    destruct (decide _); simpl; [done|]. unfold call_effect; simpl; auto.
  - unfold tx_touch. destruct (decide _); simpl; [|done]. unfold call_effect; simpl; auto.
  - unfold tx_commit. destruct (has_ctx h) eqn:E; simpl; [|done].
    destruct (bool_decide _) eqn:E'; simpl; [|done].
    destruct (tx_commit_with_retry _ _ _) as [[c1 rc] n].
    destruct (rc =? 0); (split; [done|]); left; [done|]. simpl. by rewrite rollback_active.
  - unfold tx_rollback. destruct (has_ctx h) eqn:E; simpl; [|done].
    destruct (bool_decide _) eqn:E'; simpl; [|done]. split; [done|]. by left.
  - unfold tx_abort. destruct (has_ctx h) eqn:E; simpl; [|done]. split; [done|]. by left.
  - unfold tx_check_timeout, tx_abort. destruct (bool_decide _) eqn:E; simpl; [|done].
    destruct (_ <=? 0); simpl; [done|]. destruct (_ <? _); simpl; [done|].
    apply bool_decide_eq_true in E. rewrite (Hh E). simpl. split; [done|]. by left.
  - unfold begin_standalone_tx_if_needed. destruct (active_tx c) eqn:E; simpl; [done|].
    unfold call_effect; simpl; auto.
  - split; [exact Hh|]. by left.
Qed.

Lemma tx_step_inv w w' : tx_inv w -> tx_step w w' -> tx_inv w'.
Proof.
  intros Hinv Hst. destruct Hst as [call a h w0 Hlk Hok]. destruct Hinv as [Hreg Hctx].
  unfold tx_inv. cbn [w_ctx w_handles].
  assert (tx_state h = TX_STATUS_ACTIVE -> has_ctx h = true) as Hh
    by (eapply Forall_lookup_1 in Hctx; [exact Hctx | exact Hlk]).
  assert (active_tx (w_ctx w0) = Some a -> tx_state h = TX_STATUS_ACTIVE) as Ha.
  { intros E. destruct (Hreg a E) as (h0 & E0 & ?). congruence. }
  pose proof (lookup_lt_Some _ _ _ Hlk) as Hlt.
  destruct (call_one_effect call a (w_ctx w0) h Hh Ha Hok) as [Hact Heff].
  destruct (call_one call a (w_ctx w0) h) as [c' h']. cbn [fst snd] in *. split.
  - intros b Hb. destruct Heff as [E|[[E Hk]|[E Hs]]].
    + congruence.
    + rewrite E in Hb. destruct (decide (b = a)) as [->|Hne].
      * exists h'. split; [by apply list_lookup_insert_eq|]. by apply Hk.
      * destruct (Hreg b Hb) as (h0 & ? & ?). exists h0. by rewrite list_lookup_insert_ne.
    + assert (b = a) as -> by congruence. exists h'. split; [by apply list_lookup_insert_eq|done].
  - by apply Forall_insert.
Qed.

Definition tx_demo_driver : db_driver :=
  mk_driver (Some (fun i => if (i <? 2)%nat then DB_TX_RETRYABLE else 0)) (Some 0).
Definition tx_demo_ctx : tx_ctx := mk_ctx None (Some (mk_tx_ini 60 3 500)) tx_demo_driver None [].
Definition tx_demo_rnd : list Z := [0x12; 0xff; 0; 7; 8; 9; 0xaa; 0xbb; 0xcc; 0xdd; 1; 2; 3; 4; 5; 6].
Definition tx_demo_active : tx_ctx * tx_handle :=
  fst (tx_begin tx_demo_rnd 5000000 5 true true 0 tx_demo_ctx (tx_init true) None (Some (str "Save"))).

(** Whatever the program does with the handles of a context, the
    transaction the context points at is one of them and is ACTIVE: no call
    leaves [ctx->active_tx] on a handle that is committed, rolled back,
    aborted or timed out. *)
Theorem active_tx_is_active (w w' : tx_world) :
  active_tx (w_ctx w) = None ->
  Forall (fun h => tx_state h = TX_STATUS_NONE) (w_handles w) ->
  star tx_step w w' ->
  forall a, active_tx (w_ctx w') = Some a ->
    exists h, w_handles w' !! a = Some h /\ tx_state h = TX_STATUS_ACTIVE /\ has_ctx h = true.
Proof.
  intros Hn Hf Hst a Ha.
  assert (tx_inv w') as [Hreg Hctx].
  { eapply star_invariant; [apply tx_step_inv| |exact Hst]. split; [congruence|].
    eapply Forall_impl; [|exact Hf]. simpl. congruence. }
  destruct (Hreg a Ha) as (h & Hlk & Hact). exists h. split; [done|]. split; [done|].
  eapply Forall_lookup_1 in Hctx; [by apply Hctx|exact Hlk].
Qed.

Definition tx_demo_world : tx_world := mk_world tx_demo_ctx [tx_init true; tx_init true].
Definition tx_demo_call (call : tx_call) (a : nat) (w : tx_world) : tx_world :=
  match w_handles w !! a with
  | Some h => mk_world (fst (call_one call a (w_ctx w) h)) (<[a := snd (call_one call a (w_ctx w) h)]> (w_handles w))
  | None => w
  end.

Lemma tx_demo_call_star call a w0 w :
  call_allowed call a (w_ctx w) = true -> star tx_step w0 w -> star tx_step w0 (tx_demo_call call a w).
Proof.
  intros Hok Hst. unfold tx_demo_call. destruct (_ !! a) eqn:E; [|done].
  eapply star_step; [exact Hst|]. by constructor.
Qed.

Lemma active_tx_is_active_witness :
  exists w a h, active_tx (w_ctx w) = Some a /\ w_handles w !! a = Some h /\ tx_state h = TX_STATUS_ACTIVE.
Proof.
  set (w := tx_demo_call (CallBegin tx_demo_rnd 9 9 None None) 1
              (tx_demo_call (CallCommit 7) 0
                 (tx_demo_call (CallBegin tx_demo_rnd 5 5 None None) 0 tx_demo_world))).
  assert (star tx_step tx_demo_world w) as Hst.
  { do 3 (apply tx_demo_call_star; [by vm_compute|]). constructor. }
  assert (Forall (fun h => tx_state h = TX_STATUS_NONE) (w_handles tx_demo_world)) as Hnone
    by (repeat (constructor; [reflexivity|]); constructor).
  destruct (active_tx_is_active tx_demo_world w eq_refl Hnone Hst 1%nat
              ltac:(vm_compute; reflexivity)) as (h & Hlk & Hact & _).
  exists w, 1%nat, h. split; [vm_compute; reflexivity|]. by split.
Defined.

(** ** Commit and its retries *)

(** The attempts made, [n] of them: how many, what they answered, why no more. *)
Definition attempts_made (commit : nat -> Z) (retries : Z) (n : nat) : Prop :=
  1 <= Z.of_nat n <= Z.max 0 retries + 1 /\
  (forall i, (i < n - 1)%nat -> commit i = DB_TX_RETRYABLE) /\
  (commit (n - 1)%nat <> DB_TX_RETRYABLE \/ Z.of_nat n = Z.max 0 retries + 1).

Lemma retry_attempts (c : tx_ctx) (commit : nat -> Z) (max_retries delay : Z) :
  drv_commit (driver c) = Some commit ->
  exists n, attempts_made commit max_retries n /\
    tx_commit_with_retry c max_retries delay =
      (log_events (attempt_log commit delay 0 n) c,
       if commit (n - 1)%nat =? 0 then 0 else -1, Z.of_nat n).
Proof.
  intros Hd. unfold tx_commit_with_retry. rewrite Hd.
  assert ((if max_retries <? 0 then 0 else max_retries) = Z.max 0 max_retries) as ->
    by (destruct (Z.ltb_spec max_retries 0); lia).
  destruct (commit_loop_spec commit (Z.max 0 max_retries) delay
              (S (Z.to_nat (Z.max 0 max_retries))) 0) as (k & Hk & -> & Hall & Hlast); [lia..|].
  exists (S k). rewrite Nat.add_0_l in Hlast. unfold attempts_made. replace (S k - 1)%nat with k by lia.
  split; [|done]. split; [lia|]. split; [exact Hall|].
  destruct Hlast as [?|?]; [by left|right; lia].
Qed.

Lemma attempt_log_retryable commit delay n : forall first,
  (forall i, (i < n)%nat -> commit (first + i)%nat <> 0) -> ~ In (EvCommit 0) (attempt_log commit delay first n).
Proof.
  unfold attempt_log. intros first H Hin.
  apply in_concat in Hin as (l & Hl & Hin). apply in_map_iff in Hl as (i & <- & Hi). apply in_seq in Hi.
  destruct Hin as [E|Hin].
  - injection E as E. apply (H (i - first)%nat); [lia|]. by replace (first + (i - first))%nat with i by lia.
  - destruct (_ && _); [|done]. by destruct Hin.
Qed.

Lemma attempt_log_last commit delay first n : In (EvCommit (commit (first + n)%nat)) (attempt_log commit delay first (S n)).
Proof.
  unfold attempt_log. apply in_concat. eexists. split.
  - apply in_map_iff. exists (first + n)%nat. split; [reflexivity|]. apply in_seq. lia.
  - by left.
Qed.

Lemma attempt_log_no_rollback commit delay first n rc : ~ In (EvRollback rc) (attempt_log commit delay first n).
Proof.
  unfold attempt_log. intros Hin.
  apply in_concat in Hin as (l & Hl & Hin). apply in_map_iff in Hl as (i & <- & Hi).
  destruct Hin as [E|Hin]; [done|]. destruct (_ && _); [|done]. by destruct Hin.
Qed.

(** The events of the attempts; they are all that changes. *)
Lemma commit_logs c r d :
  exists evs, fst (fst (tx_commit_with_retry c r d)) = log_events evs c /\
    (snd (fst (tx_commit_with_retry c r d)) = 0 <-> In (EvCommit 0) evs) /\
    (forall rc, ~ In (EvRollback rc) evs).
Proof.
  destruct (drv_commit (driver c)) as [commit|] eqn:E.
  - destruct (retry_attempts c commit r d E) as (n & (Hn & Hall & _) & ->).
    eexists. split; [reflexivity|]. cbn [fst snd]. split; [|apply attempt_log_no_rollback].
    destruct n as [|n]; [simpl in Hn; lia|]. replace (S n - 1)%nat with n in * by lia.
    destruct (Z.eqb_spec (commit n) 0) as [E0|E0].
    + split; [|done]. intros _. rewrite <- E0 at 1. apply (attempt_log_last commit d 0 n).
    + split; [done|]. intros Hin. exfalso. apply (attempt_log_retryable commit d (S n) 0) in Hin; [done|].
      intros i Hi. simpl. destruct (decide (i = n)) as [->|]; [done|]. rewrite Hall by lia. done.
  - exists []. unfold tx_commit_with_retry, log_events. rewrite E. cbn. rewrite app_nil_r. split; [by destruct c|].
    split; [by split|]. by intros ? [].
Qed.

Lemma commit_events c r d :
  exists evs, drv_log (fst (fst (tx_commit_with_retry c r d))) = drv_log c ++ evs /\
    (snd (fst (tx_commit_with_retry c r d)) = 0 <-> In (EvCommit 0) evs) /\
    (forall rc, ~ In (EvRollback rc) evs).
Proof. destruct (commit_logs c r d) as (evs & -> & H). by exists evs. Qed.

Lemma rollback_logs c : fst (tx_driver_rollback c) = log_events (rollback_log c) c.
Proof.
  unfold tx_driver_rollback, rollback_log, log_events. destruct (drv_rollback _); [done|]. rewrite app_nil_r. by destruct c.
Qed.

(** The one commit loop of the program.  Without a driver commit nothing
    is committed and the call fails.  Otherwise between one and
    [max_retries + 1] driver commits are made, with one pause of
    [retry_delay_ms] between two of them when that is positive and none after
    the last; every answer but the last was retryable, and the last was not or
    the retries are exhausted; [*out_attempts] is the number made, the result
    is 0 exactly when the last one succeeded, and a call that fails has
    committed nothing.  The context changes in nothing else. *)
Theorem commit_retry_attempts (c : tx_ctx) (max_retries retry_delay_ms : Z) :
  match drv_commit (driver c) with
  | None => tx_commit_with_retry c max_retries retry_delay_ms = (c, -1, 0)
  | Some commit =>
      exists n, attempts_made commit max_retries n /\
        let evs := attempt_log commit retry_delay_ms 0 n in
        let rc := if commit (n - 1)%nat =? 0 then 0 else -1 in
        tx_commit_with_retry c max_retries retry_delay_ms = (log_events evs c, rc, Z.of_nat n) /\
        (rc = 0 <-> In (EvCommit 0) evs)
  end.
Proof.
  pose proof (commit_events c max_retries retry_delay_ms) as (evs & Hlog & Hrc & _).
  destruct (drv_commit (driver c)) as [commit|] eqn:E.
  - destruct (retry_attempts c commit max_retries retry_delay_ms E) as (n & Hn & Heq).
    exists n. split; [exact Hn|]. cbn zeta. split; [exact Heq|].
    rewrite Heq in Hlog, Hrc. cbn in Hlog, Hrc. apply app_inv_head in Hlog as ->. exact Hrc.
  - unfold tx_commit_with_retry. by rewrite E.
Qed.

(** Three attempts against a driver that is busy twice. *)
Example commit_retry_demo :
  tx_commit_with_retry tx_demo_ctx 3 500 =
    (log_events [EvCommit 1; EvSleep 500; EvCommit 1; EvSleep 500; EvCommit 0] tx_demo_ctx, 0, 3).
Proof. vm_compute; reflexivity. Qed.

(** C40: [tx_commit] of an ACTIVE transaction always resolves it: the
    context points at no transaction and the thread has no trace id, whatever
    the driver says.  It answers TX_OK and is COMMITTED exactly when one of the
    driver commits succeeded, and then nothing is rolled back; otherwise it is
    ABORTED, TX_ERR_OCI_FAILURE, and after the attempts exactly one driver
    rollback was asked for (when there is such a function). *)
Theorem tx_commit_resolves (now_us : Z) (al want : bool) (c : tx_ctx) (h : tx_handle) :
  has_ctx h = true -> tx_state h = TX_STATUS_ACTIVE ->
  let '(c', h', ans) := tx_commit now_us al want c h in
  active_tx c' = None /\ trace_txid c' = None /\ transaction_id h' = transaction_id h /\ end_time_us h' = now_us /\
  exists attempts, (forall rc, ~ In (EvRollback rc) attempts) /\
    (In (EvCommit 0) attempts /\ tx_state h' = TX_STATUS_COMMITTED /\ tx_rc ans = TX_OK /\
       drv_log c' = drv_log c ++ attempts
     \/
     ~ In (EvCommit 0) attempts /\ tx_state h' = TX_STATUS_ABORTED /\ tx_rc ans = TX_ERR_OCI_FAILURE /\
       drv_log c' = drv_log c ++ attempts ++ rollback_log c).
Proof.
  intros Hc Hs. unfold tx_commit. rewrite Hc, bool_decide_eq_true_2 by done. cbn [negb].
  pose proof (commit_events c (max_retries h) (retry_delay_ms h)) as (evs & Hlog & Hrc & Hnr).
  pose proof (retry_frame c (max_retries h) (retry_delay_ms h)) as [Hdrv _].
  destruct (tx_commit_with_retry _ _ _) as [[c1 rc] n]. cbn [fst snd] in *.
  destruct (Z.eqb_spec rc 0) as [E|E].
  - repeat (split; [done|]). exists evs. split; [exact Hnr|].
    left. split; [by apply Hrc|]. done.
  - assert (trace_txid (fst (tx_driver_rollback (set_active None None c1))) = None) as Ht
      by (unfold tx_driver_rollback; by destruct (drv_rollback _)).
    rewrite Ht, rollback_active. repeat (split; [done|]). exists evs. split; [exact Hnr|].
    right. split; [by rewrite <- Hrc|]. split; [done|]. split; [done|].
    rewrite rollback_drv_log. unfold rollback_log. cbn [driver drv_log set_active].
    by rewrite Hdrv, Hlog, app_assoc.
Qed.

Lemma tx_commit_resolves_witness :
  let c := fst tx_demo_active in let h := snd tx_demo_active in
  let r := tx_commit 9000000 true true c h in
  active_tx c = Some 0%nat /\ active_tx (fst (fst r)) = None /\ tx_state (snd (fst r)) = TX_STATUS_COMMITTED.
Proof.
  cbn zeta. assert (has_ctx (snd tx_demo_active) = true) as Hc by (vm_compute; reflexivity).
  assert (tx_state (snd tx_demo_active) = TX_STATUS_ACTIVE) as Hs by (vm_compute; reflexivity).
  pose proof (tx_commit_resolves 9000000 true true (fst tx_demo_active) (snd tx_demo_active) Hc Hs) as H.
  destruct (tx_commit _ _ _ _ _) as [[c' h'] ans] eqn:E. destruct H as (H & _).
  split; [vm_compute; reflexivity|]. split; [exact H|].
  vm_compute in E. injection E as <- <- <-. reflexivity.
Defined.

(** ** Timeout *)

(** The idle timeout.  [tx_check_timeout] does something exactly when
    the transaction is ACTIVE, has a positive timeout and was idle for at
    least that long: then one driver rollback is asked for (when there is such
    a function), the context points at no transaction, the handle is
    TIMED_OUT, and the call answers TX_ERR_TIMEOUT.  The text handed back then
    is the one of an abort, "ABORT" and "ABORTED"; the timeout text with the
    idle time is built only when the first allocation failed. *)
Theorem tx_check_timeout_spec (now now_us : Z) (al_abort al_timeout want : bool) (c : tx_ctx) (h : tx_handle) :
  has_ctx h = true ->
  let '(c', h', ans) := tx_check_timeout now now_us al_abort al_timeout want c h in
  if bool_decide (tx_state h = TX_STATUS_ACTIVE) && (0 <? timeout_seconds h) &&
     (timeout_seconds h <=? now - last_activity_epoch h)
  then active_tx c' = None /\ trace_txid c' = None /\ drv_log c' = drv_log c ++ rollback_log c /\
       tx_state h' = TX_STATUS_TIMED_OUT /\ tx_rc ans = TX_ERR_TIMEOUT /\
       result_xml ans =
         (if negb want then None
          else if al_abort then
            tx_build_result_xml true (set_status TX_STATUS_ABORTED (set_end now_us h)) "ABORT"
              (take 255 (xml_duration (duration_us h') ++ nl ++ str "<abort_reason>idle_timeout</abort_reason>"))
          else tx_build_result_xml al_timeout h' "TIMEOUT"
              (str "<idle_seconds>" ++ print_int (now - last_activity_epoch h) ++ str "</idle_seconds>" ++ nl ++
               str "<timeout_seconds>" ++ print_int (timeout_seconds h) ++ str "</timeout_seconds>"))
  else c' = c /\ h' = h /\ ans = mk_answer TX_OK None.
Proof.
  intros Hc. unfold tx_check_timeout.
  destruct (bool_decide _) eqn:E; cbn [negb andb]; [|done]. apply bool_decide_eq_true in E.
  destruct (Z.leb_spec (timeout_seconds h) 0) as [H0|H0]; destruct (Z.ltb_spec 0 (timeout_seconds h)); try lia;
    cbn [andb]; [done|].
  destruct (Z.ltb_spec (now - last_activity_epoch h) (timeout_seconds h)) as [H1|H1];
    destruct (Z.leb_spec (timeout_seconds h) (now - last_activity_epoch h)); try lia; [done|].
  unfold tx_abort. rewrite Hc, decide_True by done. cbn [negb].
  cbn [set_active active_tx trace_txid drv_log]. rewrite rollback_drv_log.
  repeat (split; [done|]). destruct want, al_abort, al_timeout; reflexivity.
Qed.

Lemma tx_check_timeout_spec_witness :
  let r := tx_check_timeout 65 65000000 true true true (fst tx_demo_active) (snd tx_demo_active) in
  active_tx (fst (fst r)) = None /\ tx_state (snd (fst r)) = TX_STATUS_TIMED_OUT /\ tx_rc (snd r) = TX_ERR_TIMEOUT /\
  drv_log (fst (fst r)) = [EvRollback 0].
Proof.
  assert (has_ctx (snd tx_demo_active) = true) as Hc by (vm_compute; reflexivity).
  pose proof (tx_check_timeout_spec 65 65000000 true true true (fst tx_demo_active) (snd tx_demo_active) Hc) as H.
  cbn zeta. destruct (tx_check_timeout _ _ _ _ _ _ _) as [[c' h'] ans] eqn:E.
  replace (bool_decide _ && _ && _) with true in H by (vm_compute; reflexivity).
  destruct H as (H1 & _ & H2 & H3 & H4 & _). split; [exact H1|]. split; [exact H3|]. split; [exact H4|].
  cbn [fst snd]. rewrite H2. vm_compute; reflexivity.
Defined.

(** ** Identifiers *)

Lemma all_at_app i f s k : all_at i f (s ++ k) = all_at i f s && all_at (i + length s) f k.
Proof.
  revert i. induction s as [|c s IH]; intros i; simpl; [by rewrite Nat.add_0_r|].
  rewrite IH, <- andb_assoc. by replace (S i + length s)%nat with (i + S (length s))%nat by lia.
Qed.

(** Sixteen random bytes give a version 4 UUID: 36 characters, lower-case
    hexadecimal in groups of 8-4-4-4-12, version 4, variant 8, 9, a or b; the
    37-byte buffer holds it whole. *)
Theorem uuid_is_v4 (rnd : list Z) :
  length rnd = 16%nat -> Forall (fun b => 0 <= b < 256) rnd -> uuid_v4 (tx_generate_uuid rnd) = true.
Proof.
  intros Hlen Hb.
  do 16 (destruct rnd as [|? rnd]; [discriminate Hlen|]). destruct rnd; [|discriminate Hlen].
  repeat match goal with H : Forall _ (_ :: _) |- _ => apply Forall_cons_1 in H as [? H] end.
  repeat match goal with
  | H : 0 <= ?b < 256 |- _ =>
      destruct (byte_nibbles b H) as [?%lower_hex_digit ?%lower_hex_digit];
      destruct (version_nibbles b H); destruct (variant_nibbles b H); clear H
  end.
  unfold uuid_v4, tx_generate_uuid, hex2. cbn [nth insert list_insert app length take Nat.sub TX_UUID_LEN str
    String.list_ascii_of_string].
  unfold uuid_v4_char. cbn [all_at].
  repeat match goal with |- context [bool_decide ?P] =>
    first [rewrite (bool_decide_eq_true_2 P) by (first [assumption|lia])
          |rewrite (bool_decide_eq_false_2 P) by lia] end.
  repeat match goal with H : ?x = ?y |- context [?x] => rewrite H end.
  reflexivity.
Qed.

Lemma uuid_is_v4_witness : uuid_v4 (str "12ff0007-0809-4abb-8cdd-010203040506") = true.
Proof.
  assert (str "12ff0007-0809-4abb-8cdd-010203040506" = tx_generate_uuid tx_demo_rnd) as -> by (vm_compute; reflexivity).
  apply uuid_is_v4; [reflexivity|]. repeat constructor; lia.
Defined.

(** ** Rollback and abort, and the refused calls *)

(** What every call does on every branch that is not a commit attempt.
    A handle without a context is refused by all; [tx_commit] and
    [tx_rollback] of a transaction that is not ACTIVE, and [tx_begin] of one
    that is, are refused without touching anything or asking the driver;
    [tx_rollback] of an ACTIVE one asks for one rollback and is ROLLED_BACK
    whatever the driver answers; [tx_abort] is ABORTED from any state, and
    asks the driver only when the transaction was ACTIVE; both clear the
    context's transaction. *)
Theorem tx_rollback_abort_guards (us : Z) (al want : bool) (c : tx_ctx) (h : tx_handle)
    (rnd : list Z) (now : Z) (a : nat) (sid name reason : option (list ascii)) :
  let refused e := (c, h, mk_answer e None) in
  (has_ctx h = false ->
     tx_begin rnd us now al want a c h sid name = refused TX_ERR_INVALID_ARG /\
     tx_commit us al want c h = refused TX_ERR_INVALID_ARG /\
     tx_rollback us al want c h = refused TX_ERR_INVALID_ARG /\
     tx_abort us al want c h reason = refused TX_ERR_INVALID_ARG) /\
  (has_ctx h = true ->
     (tx_state h = TX_STATUS_ACTIVE ->
        tx_begin rnd us now al want a c h sid name = refused TX_ERR_ALREADY_ACTIVE) /\
     (tx_state h <> TX_STATUS_ACTIVE ->
        tx_commit us al want c h = refused TX_ERR_NO_ACTIVE /\
        tx_rollback us al want c h = refused TX_ERR_NO_ACTIVE) /\
     (let '(c', h', ans) := tx_abort us al want c h reason in
      tx_rc ans = TX_OK /\ tx_state h' = TX_STATUS_ABORTED /\ active_tx c' = None /\ trace_txid c' = None /\
      drv_log c' = drv_log c ++ (if decide (tx_state h = TX_STATUS_ACTIVE) then rollback_log c else [])) /\
     (tx_state h = TX_STATUS_ACTIVE ->
      let '(c', h', ans) := tx_rollback us al want c h in
      tx_rc ans = TX_OK /\ tx_state h' = TX_STATUS_ROLLED_BACK /\ active_tx c' = None /\ trace_txid c' = None /\
      drv_log c' = drv_log c ++ rollback_log c)).
Proof.
  cbn zeta. split; intros Hc.
  - unfold tx_begin, tx_commit, tx_rollback, tx_abort. by rewrite Hc.
  - split; [|split; [|split]].
    + intros Hs. unfold tx_begin. by rewrite Hc, decide_True by done.
    + intros Hs. by rewrite commit_not_active, rollback_not_active.
    + unfold tx_abort. rewrite Hc. cbn [negb]. repeat (split; [done|]). cbn [set_active drv_log].
      destruct (decide _); [apply rollback_drv_log | by rewrite app_nil_r].
    + intros Hs. unfold tx_rollback. rewrite Hc, bool_decide_eq_true_2 by done. cbn [negb].
      repeat (split; [done|]). apply rollback_drv_log.
Qed.

Lemma tx_rollback_abort_guards_witness :
  let c := fst tx_demo_active in let h := snd tx_demo_active in
  tx_begin tx_demo_rnd 1 1 true true 0 c h None None = (c, h, mk_answer TX_ERR_ALREADY_ACTIVE None) /\
  drv_log (fst (fst (tx_rollback 7 true true c h))) = [EvRollback 0] /\
  tx_begin tx_demo_rnd 1 1 true true 0 c (tx_init false) None None = (c, tx_init false, mk_answer TX_ERR_INVALID_ARG None).
Proof.
  cbn zeta. assert (has_ctx (snd tx_demo_active) = true) as Hc by (vm_compute; reflexivity).
  assert (tx_state (snd tx_demo_active) = TX_STATUS_ACTIVE) as Hs by (vm_compute; reflexivity).
  destruct (tx_rollback_abort_guards 7 true true (fst tx_demo_active) (snd tx_demo_active) tx_demo_rnd 1 0 None None None)
    as [_ H]. destruct (H Hc) as (H1 & _ & _ & H2). specialize (H1 Hs). specialize (H2 Hs).
  destruct (tx_rollback_abort_guards 1 true true (fst tx_demo_active) (tx_init false) tx_demo_rnd 1 0 None None None)
    as [H3 _].
  split; [unfold tx_begin in *; rewrite Hc, Hs; reflexivity|]. split; [|apply H3; reflexivity].
  destruct (tx_rollback _ _ _ _ _) as [[c' h'] ans]. destruct H2 as (_ & _ & _ & _ & H2). cbn [fst snd].
  rewrite H2. vm_compute; reflexivity.
Defined.

(** ** Standalone calls *)

(** A program of nested and successive calls that each give themselves a
    transaction when there is none: begin, the inner calls, end. *)
Inductive calls :=
| NoCall
| Standalone (rnd : list Z) (a : nat) (inner next : calls).

(** The context after, and the transaction each call ran under. *)
Fixpoint run_calls (p : calls) (c : tx_ctx) (h : tx_handle) : tx_ctx * list (option nat) :=
  match p with
  | NoCall => (c, [])
  | Standalone rnd a inner next =>
      let '(c1, _, owned) := begin_standalone_tx_if_needed rnd a c h in
      let '(c2, seen) := run_calls inner c1 h in
      let '(c3, seen') := run_calls next (end_standalone_tx_if_owned c2 owned) h in
      (c3, active_tx c1 :: seen ++ seen')
  end.

(** Nested calls share the identity of the outermost one. *)
Fixpoint identities (p : calls) (outer : option nat) : list (option nat) :=
  match p with
  | NoCall => []
  | Standalone _ a inner next =>
      let own := Some (default a outer) in own :: identities inner own ++ identities next outer
  end.

(** However standalone calls nest and follow each other, each top-level
    one runs under its own identity, those nested in it (or inside an explicit
    transaction) under the one already there, and the context is left as it
    was found: no dangling pointer to a local handle, no transaction ended
    that was not this call's. *)
Theorem standalone_calls_nest (p : calls) (c : tx_ctx) (h : tx_handle) :
  run_calls p c h = (c, identities p (active_tx c)).
Proof.
  revert c. induction p as [|rnd a inner IHi next IHn]; intros c; cbn [run_calls identities]; [done|].
  unfold begin_standalone_tx_if_needed. destruct (active_tx c) as [b|] eqn:E.
  - rewrite IHi. cbn [end_standalone_tx_if_owned]. rewrite IHn, E. done.
  - rewrite IHi. cbn [end_standalone_tx_if_owned set_active active_tx trace_txid].
    replace (set_active None (trace_txid c) (set_active (Some a) (trace_txid c) c)) with c
      by (destruct c; simpl in *; by subst).
    by rewrite IHn, E.
Qed.
