(* ===== verification/ConnectionPool.v ===== *)
(** * ConnectionPool: infra/Connection_Pool.c and infra/MSSQL_Pool.c

    The two session pools, Oracle's and SQL Server's.  The second follows the
    first step for step; the points where it does not are the fields of
    [flavour].  A slot's handles are set together by [open_slot] and cleared
    together by [close_slot], so a slot has one connection or none.

    The client library is the record [client]: what the n-th call of the
    process answers and what the clock shows at that moment.  The number of a
    successful connection attempt names the connection.  The calls that end a
    connection or a transaction are recorded in the pool's log.

    Borrowing takes the lock, scans, and either gets a slot or sleeps on the
    condition variable; [world] has the pool, every thread's context and the
    place the thread is at, [act] is one critical section, and the theorems
    hold for every order of them. *)

From Stdlib Require Import Ascii String ZArith Lia Bool.
From stdpp Require Import base list strings numbers.
From S2P Require Import Prelude.

#[local] Open Scope Z_scope.

(** ** Data *)

Inductive pool_slot_state := POOL_SLOT_FREE | POOL_SLOT_IN_USE.

#[export] Instance pool_slot_state_eq_dec : EqDecision pool_slot_state.
Proof. solve_decision. Defined.

Record pool_slot := mk_slot {
  conn : option nat;
  state : pool_slot_state;
  created : Z;
  last_used : Z }.

(** The keys of [app_config_t] that the pools act on. *)
Record pool_ini := mk_pool_ini {
  use_wallet : bool;
  wallet_location : list ascii;
  ini_min_size : Z;
  ini_max_size : Z;
  ini_max_lifetime : Z;
  ini_retries : Z;
  ini_validation_on_borrow : bool;
  ini_rollback_on_return : bool }.

Record pool_config := mk_pool_config {
  pool_min_size : Z;
  pool_max_size : Z;
  session_max_lifetime : Z;
  retries_on_connection_failure : Z;
  connection_validation_on_borrow : bool;
  rollback_on_return_to_pool : bool }.

Inductive pool_event := Opened (c : nat) | Closed (c : nat) | RolledBack (c : nat).

Record oci_pool_handle := mk_pool {
  config : pool_config;
  slots : list pool_slot;
  slots_open : Z;
  calls_made : nat;                        (* calls of the client library so far *)
  log : list pool_event }.

(** What the client library and the clock answer. *)
Record client := mk_client {
  opens : nat -> bool;                     (* this call, a connection attempt, succeeds *)
  answers : nat -> nat -> bool;            (* connection [c] answers a ping at call [n] *)
  attached : nat -> nat -> bool;           (* the library reports [c] as connected *)
  clock : nat -> Z }.

(** The part of [oci_context_t] that a borrowed session fills in; [memset]
    leaves [wiped]. *)
Record worker_ctx := mk_ctx { svchp : option nat; pool_slot_index : Z }.
Definition wiped : worker_ctx := mk_ctx None 0.

(** Where the two pools differ. *)
Class flavour := {
  reopen_attempts : pool_config -> Z;      (* attempts to reopen a slot that failed its check *)
  recycle_attempts : pool_config -> Z;     (* attempts to reopen a slot past its lifetime *)
  signals_failure : bool;                  (* a failed borrow wakes another waiter *)
  rolls_back_closing : bool                (* closing the pool ends the transactions first *) }.

Definition oci_flavour : flavour :=
  Build_flavour retries_on_connection_failure (fun _ => 1) false false.

(** [reopen_slot]: at least one attempt. *)
Definition mssql_attempts (cfg : pool_config) : Z :=
  if 0 <? retries_on_connection_failure cfg then retries_on_connection_failure cfg else 1.
Definition mssql_flavour : flavour := Build_flavour mssql_attempts mssql_attempts true true.

(** ** One slot *)

Definition is_open (s : pool_slot) : bool := match conn s with Some _ => true | None => false end.
Definition is_free (s : pool_slot) : bool := is_open s && bool_decide (state s = POOL_SLOT_FREE).
Definition empty_slot : pool_slot := mk_slot None POOL_SLOT_FREE 0 0.

Section client_calls.
Context (cl : client).

(** A failed attempt frees what it had allocated and leaves the rest. *)
Definition open_slot (n : nat) (s : pool_slot) : bool * pool_slot :=
  if opens cl n then (true, mk_slot (Some n) POOL_SLOT_FREE (clock cl n) (clock cl n))
  else (false, mk_slot None (state s) (created s) (last_used s)).

Definition close_slot (s : pool_slot) : pool_slot := mk_slot None POOL_SLOT_FREE (created s) (last_used s).

Definition validate_slot (n : nat) (s : pool_slot) : bool :=
  match conn s with Some c => answers cl c n | None => false end.

Definition closing (s : pool_slot) : list pool_event :=
  match conn s with Some c => [Closed c] | None => [] end.
Definition rolling_back (s : pool_slot) : list pool_event :=
  match conn s with Some c => [RolledBack c] | None => [] end.

(** ** One slot of a pool; the callers count the slots that are open *)

Definition open_at (i : nat) (p : oci_pool_handle) : bool * oci_pool_handle :=
  match slots p !! i with
  | None => (false, p)
  | Some s =>
      let '(ok, s') := open_slot (calls_made p) s in
      (ok, mk_pool (config p) (<[i := s']> (slots p)) (if ok then slots_open p + 1 else slots_open p)
             (S (calls_made p)) (log p ++ if ok then [Opened (calls_made p)] else []))
  end.

Definition close_at (i : nat) (p : oci_pool_handle) : oci_pool_handle :=
  match slots p !! i with
  | None => p
  | Some s => mk_pool (config p) (<[i := close_slot s]> (slots p)) (slots_open p - 1) (calls_made p) (log p ++ closing s)
  end.

Definition ping_at (i : nat) (p : oci_pool_handle) : bool * oci_pool_handle :=
  match slots p !! i with
  | None => (false, p)
  | Some s => (validate_slot (calls_made p) s,
               mk_pool (config p) (slots p) (slots_open p) (S (calls_made p)) (log p))
  end.

Fixpoint open_attempts (k : nat) (i : nat) (p : oci_pool_handle) : bool * oci_pool_handle :=
  match k with
  | O => (false, p)
  | S k' => let '(ok, p') := open_at i p in if ok then (true, p') else open_attempts k' i p'
  end.

(** ** Creating and closing the pool *)

Definition pos_or_default (n d : Z) : Z := if 0 <? n then n else d.

Definition OCI_pool_config (ini : pool_ini) : pool_config :=
  mk_pool_config (pos_or_default (ini_min_size ini) 1) (pos_or_default (ini_max_size ini) 10)
    (pos_or_default (ini_max_lifetime ini) 3600) (if 0 <=? ini_retries ini then ini_retries ini else 3)
    (ini_validation_on_borrow ini) (ini_rollback_on_return ini).

Definition MSSQL_pool_config (ini : pool_ini) : pool_config :=
  let c := OCI_pool_config ini in
  mk_pool_config (if pool_max_size c <? pool_min_size c then pool_max_size c else pool_min_size c)
    (pool_max_size c) (session_max_lifetime c) (retries_on_connection_failure c)
    (connection_validation_on_borrow c) (rollback_on_return_to_pool c).

(** [OutOfBounds]: the code writes behind its array of slots. *)
Inductive connect_result :=
| Connected (p : oci_pool_handle)
| Refused (events : list pool_event)
| OutOfBounds.

(** Closing every open slot, in the order of the array. *)
Definition close_events {F : flavour} (shutdown : bool) (p : oci_pool_handle) : list pool_event :=
  log p ++ concat (map (fun s => (if rolls_back_closing && shutdown then rolling_back s else []) ++ closing s) (slots p)).

Fixpoint open_minimum {F : flavour} (todo : list nat) (k : nat) (p : oci_pool_handle) : connect_result :=
  match todo with
  | [] => Connected p
  | i :: todo' =>
      if (length (slots p) <=? i)%nat && (0 <? k)%nat then OutOfBounds
      else
        let '(ok, p') := open_attempts k i p in
        if ok then open_minimum todo' k p' else Refused (close_events false p')
  end.

Definition new_pool (cfg : pool_config) : oci_pool_handle :=
  mk_pool cfg (replicate (Z.to_nat (pool_max_size cfg)) empty_slot) 0 0 [].

(** [ready]: the allocations, the mutex and the library's environment. *)
Definition OCI_Connect_pool (ready : bool) (ini : pool_ini) : connect_result :=
  if use_wallet ini && match wallet_location ini with [] => true | _ => false end then Refused []
  else if negb ready then Refused []
  else
    let cfg := OCI_pool_config ini in
    open_minimum (F := oci_flavour) (seq 0 (Z.to_nat (pool_min_size cfg)))
      (Z.to_nat (retries_on_connection_failure cfg)) (new_pool cfg).

Definition MSSQL_Connect_pool (ready : bool) (ini : pool_ini) : connect_result :=
  if negb ready then Refused []
  else
    let cfg := MSSQL_pool_config ini in
    open_minimum (F := mssql_flavour) (seq 0 (Z.to_nat (pool_min_size cfg)))
      (Z.to_nat (mssql_attempts cfg)) (new_pool cfg).

Definition OCI_Disconnect_pool (p : oci_pool_handle) : list pool_event := close_events (F := oci_flavour) true p.
Definition MSSQL_Disconnect_pool (p : oci_pool_handle) : list pool_event := close_events (F := mssql_flavour) true p.

(** ** Health check *)

Definition check_slot {F : flavour} (now : Z) (i : nat) (pf : oci_pool_handle * Z) : oci_pool_handle * Z :=
  let '(p, failures) := pf in
  match slots p !! i with
  | None => (p, failures)
  | Some s =>
      if negb (is_open s) || bool_decide (state s = POOL_SLOT_IN_USE) then (p, failures)
      else if (0 <? session_max_lifetime (config p)) && (session_max_lifetime (config p) <? now - created s) then
        let '(ok, p') := open_attempts (Z.to_nat (recycle_attempts (config p))) i (close_at i p) in
        (p', if ok then failures else failures + 1)
      else
        let '(alive, p1) := ping_at i p in
        if alive then (p1, failures)
        else
          let '(ok, p2) := open_attempts (Z.to_nat (reopen_attempts (config p))) i (close_at i p1) in
          (p2, if ok then failures else failures + 1)
  end.

Definition health_check {F : flavour} (p : oci_pool_handle) : oci_pool_handle * Z :=
  let now := clock cl (calls_made p) in
  foldl (fun pf i => check_slot now i pf) (p, 0) (seq 0 (length (slots p))).

Definition OCI_Pool_health_check : oci_pool_handle -> oci_pool_handle * Z := health_check (F := oci_flavour).
Definition MSSQL_Pool_health_check : oci_pool_handle -> oci_pool_handle * Z := health_check (F := mssql_flavour).

(** ** Borrowing *)

Fixpoint first_slot (f : pool_slot -> bool) (l : list pool_slot) : option nat :=
  match l with
  | [] => None
  | s :: l' => if f s then Some O else S <$> first_slot f l'
  end.

(** One turn of the loop: a free slot, or a closed one that can be opened. *)
Definition find_slot (p : oci_pool_handle) : oci_pool_handle * option nat :=
  match first_slot is_free (slots p) with
  | Some i => (p, Some i)
  | None =>
      if slots_open p <? pool_max_size (config p) then
        match first_slot (fun s => negb (is_open s)) (slots p) with
        | Some i => let '(ok, p') := open_at i p in (p', if ok then Some i else None)
        | None => (p, None)
        end
      else (p, None)
  end.

Definition validate_borrow {F : flavour} (i : nat) (p : oci_pool_handle) : bool * oci_pool_handle :=
  if connection_validation_on_borrow (config p) then
    let '(alive, p1) := ping_at i p in
    if alive then (true, p1)
    else open_attempts (Z.to_nat (reopen_attempts (config p))) i (close_at i p1)
  else (true, p).

Definition set_slot_state (st : pool_slot_state) (s : pool_slot) : pool_slot :=
  mk_slot (conn s) st (created s) (last_used s).

Definition set_slot (i : nat) (s : pool_slot) (p : oci_pool_handle) : oci_pool_handle :=
  mk_pool (config p) (<[i := s]> (slots p)) (slots_open p) (calls_made p) (log p).

Inductive get_outcome :=
| Granted (ctx : worker_ctx)             (* 0, the context filled in *)
| Failed                                 (* -1, the context left as it is *)
| Waits.                                 (* the thread sleeps *)

(** From taking the lock to giving it up. *)
Definition get_session {F : flavour} (p : oci_pool_handle) : oci_pool_handle * get_outcome :=
  match find_slot p with
  | (p1, None) => (p1, Waits)
  | (p1, Some i) =>
      let '(ok, p2) := validate_borrow i p1 in
      if ok then
        match slots p2 !! i with
        | Some s => (set_slot i (set_slot_state POOL_SLOT_IN_USE s) p2, Granted (mk_ctx (conn s) (Z.of_nat i)))
        | None => (p2, Failed)
        end
      else (p2, Failed)
  end.

Definition OCI_Pool_get_session : oci_pool_handle -> oci_pool_handle * get_outcome := get_session (F := oci_flavour).
Definition MSSQL_Pool_get_session : oci_pool_handle -> oci_pool_handle * get_outcome := get_session (F := mssql_flavour).

Definition index_ok (p : oci_pool_handle) (ctx : worker_ctx) : bool :=
  (0 <=? pool_slot_index ctx) && (pool_slot_index ctx <? Z.of_nat (length (slots p))).

(** [None]: the index is refused, nothing changes, the context is kept. *)
Definition release_session (p : oci_pool_handle) (ctx : worker_ctx) : option oci_pool_handle :=
  if negb (index_ok p ctx) then None
  else
    let i := Z.to_nat (pool_slot_index ctx) in
    match slots p !! i with
    | None => None
    | Some s =>
        Some (mk_pool (config p) (<[i := mk_slot (conn s) POOL_SLOT_FREE (created s) (clock cl (calls_made p))]> (slots p))
                (slots_open p) (S (calls_made p))
                (log p ++ if rollback_on_return_to_pool (config p) then rolling_back s else []))
    end.

Definition session_is_alive (n : nat) (ctx : worker_ctx) : bool :=
  match svchp ctx with Some c => attached cl c n | None => false end.

(** The first half of [MSSQL_Pool_reconnect_session]: the slot is closed if
    its connection is the caller's. *)
Definition mssql_drop_session (p : oci_pool_handle) (ctx : worker_ctx) : oci_pool_handle :=
  if index_ok p ctx then
    let i := Z.to_nat (pool_slot_index ctx) in
    match slots p !! i with
    | Some s => if is_open s && bool_decide (conn s = svchp ctx) then close_at i p else p
    | None => p
    end
  else p.
End client_calls.

(** ** Threads

    A thread is outside the pool's calls, asleep in the condition wait, or
    awake again and about to look once more - or about to give up, when its
    wait timed out.  A release is the rollback and the critical section
    together: the slot is the caller's own until then. *)
Inductive place := Running | Asleep | Woken (timed_out : bool).

#[export] Instance place_eq_dec : EqDecision place.
Proof. solve_decision. Defined.

Record thread := mk_thread { ctx : worker_ctx; at_place : place }.
Record world := mk_world { pool : oci_pool_handle; threads : list thread }.

(** [Get], [Release] and [Drop] are calls of a running thread ([Drop] is the
    first half of SQL Server's reconnect); [Wake] is a spurious wake-up and
    [Expire] the end of a wait; [Resume] is the thread getting the lock back. *)
Inductive action :=
| Get (t : nat) (pick : nat)
| Resume (t : nat) (pick : nat)
| Release (t : nat) (pick : nat)
| Drop (t : nat) (pick : nat)
| Wake (t : nat)
| Expire (t : nat)
| Health.

(** [pthread_cond_signal] wakes one sleeper, if there is one. *)
Definition sleepers (ts : list thread) : list nat :=
  filter (fun t => at_place <$> ts !! t = Some Asleep) (seq 0 (length ts)).

Definition go (pl : place) (th : thread) : thread := mk_thread (ctx th) pl.

Definition signal (pick : nat) (ts : list thread) : list thread :=
  match sleepers ts !! (pick mod length (sleepers ts))%nat with
  | Some t => alter (go (Woken false)) t ts
  | None => ts
  end.

Section threads.
Context (cl : client) {F : flavour}.

(** The outcome of a borrow for thread [t]. *)
Definition after_get (t pick : nat) (th : thread) (r : oci_pool_handle * get_outcome) (w : world) : world :=
  match r with
  | (p, Granted c) => mk_world p (<[t := mk_thread c Running]> (threads w))
  | (p, Failed) =>
      let ts := <[t := go Running th]> (threads w) in
      mk_world p (if signals_failure then signal pick ts else ts)
  | (p, Waits) => mk_world p (<[t := go Asleep th]> (threads w))
  end.

Definition act (a : action) (w : world) : option world :=
  match a with
  | Get t pick =>
      th ← threads w !! t;
      match at_place th with
      | Running => Some (after_get t pick th (get_session cl (pool w)) w)
      | _ => None
      end
  | Resume t pick =>
      th ← threads w !! t;
      match at_place th with
      | Woken false => Some (after_get t pick th (get_session cl (pool w)) w)
      | Woken true => Some (mk_world (pool w) (<[t := go Running th]> (threads w)))
      | _ => None
      end
  | Release t pick =>
      th ← threads w !! t;
      match at_place th with
      | Running =>
          match release_session cl (pool w) (ctx th) with
          | Some p => Some (mk_world p (signal pick (<[t := mk_thread wiped Running]> (threads w))))
          | None => Some w
          end
      | _ => None
      end
  | Drop t pick =>
      th ← threads w !! t;
      match at_place th with
      | Running =>
          let ts := <[t := mk_thread wiped Running]> (threads w) in
          Some (mk_world (mssql_drop_session (pool w) (ctx th))
                  (if index_ok (pool w) (ctx th) then signal pick ts else ts))
      | _ => None
      end
  | Wake t =>
      th ← threads w !! t;
      match at_place th with
      | Asleep => Some (mk_world (pool w) (<[t := go (Woken false) th]> (threads w)))
      | _ => None
      end
  | Expire t =>
      th ← threads w !! t;
      match at_place th with
      | Asleep => Some (mk_world (pool w) (<[t := go (Woken true) th]> (threads w)))
      | _ => None
      end
  | Health => Some (mk_world (fst (health_check cl (pool w))) (threads w))
  end.

Fixpoint acts (l : list action) (w : world) : option world :=
  match l with
  | [] => Some w
  | a :: l' => w' ← act a w; acts l' w'
  end.
End threads.

(** Oracle's reconnect is a release and a borrow; SQL Server's closes the
    connection and borrows. *)
Definition OCI_Pool_reconnect_session (t pick : nat) : list action := [Release t pick; Get t pick].
Definition MSSQL_Pool_reconnect_session (t pick : nat) : list action := [Drop t pick; Get t pick].

(** A release comes from a thread that has a session. *)
Definition holder_releases (a : action) (w : world) : Prop :=
  match a with
  | Release t _ => forall th, threads w !! t = Some th -> svchp (ctx th) <> None
  | _ => True
  end.

Definition pool_step {F : flavour} (cl : client) (w w' : world) : Prop :=
  exists a, holder_releases a w /\ act cl a w = Some w'.

Definition start (p : oci_pool_handle) (n : nat) : world := mk_world p (replicate n (mk_thread wiped Running)).

(** ** Counting *)

Definition count {A} (f : A -> bool) (l : list A) : nat := length (List.filter f l).

Lemma count_insert {A} (f : A -> bool) l i x y :
  l !! i = Some x -> (count f (<[i := y]> l) + Nat.b2n (f x) = count f l + Nat.b2n (f y))%nat.
Proof.
  unfold count. revert i. induction l as [|a l IH]; intros [|i] H; simpl in *; try done.
  - injection H as ->. destruct (f x), (f y); simpl; lia.
  - specialize (IH i H). destruct (f a); simpl; lia.
Qed.

Lemma count_pos {A} (f : A -> bool) l i x : l !! i = Some x -> f x = true -> (0 < count f l)%nat.
Proof.
  unfold count. revert i. induction l as [|a l IH]; intros [|i] H Hf; simpl in *; try done.
  - injection H as ->. rewrite Hf. simpl. lia.
  - specialize (IH i H Hf). destruct (f a); simpl; lia.
Qed.

Lemma count_exists {A} (f : A -> bool) (l : list A) : (0 < count f l)%nat -> exists i x, l !! i = Some x /\ f x = true.
Proof.
  unfold count. induction l as [|a l IH]; simpl; [lia|]. destruct (f a) eqn:E.
  - intros _. by exists 0%nat, a.
  - intros H. destruct (IH H) as (i & x & Hx). by exists (S i), x.
Qed.

Lemma first_slot_some f l i : first_slot f l = Some i -> exists s, l !! i = Some s /\ f s = true.
Proof.
  revert i. induction l as [|s l IH]; intros i; simpl; [done|]. destruct (f s) eqn:E.
  - intros [= <-]. by exists s.
  - destruct (first_slot f l) as [j|]; [|done]. intros [= <-]. apply IH. done.
Qed.

Lemma first_slot_none f l : first_slot f l = None -> count f l = 0%nat.
Proof.
  unfold count. induction l as [|s l IH]; simpl; [done|]. destruct (f s); [done|].
  destruct (first_slot f l); [done|]. intros _. by apply IH.
Qed.

(** ** What an operation on slot [i] changes *)

Definition held (s : pool_slot) : bool := is_open s && bool_decide (state s = POOL_SLOT_IN_USE).

Lemma held_free s : is_open s = true -> held s = negb (is_free s).
Proof. unfold held, is_free. intros ->. by destruct (state s). Qed.

Record touch (i : nat) (s s' : pool_slot) (p p' : oci_pool_handle) : Prop := {
  touch_here : slots p !! i = Some s;
  touch_slots : slots p' = <[i := s']> (slots p);
  touch_open : slots_open p' + Z.b2z (is_open s) = slots_open p + Z.b2z (is_open s');
  touch_config : config p' = config p;
  touch_calls : (calls_made p <= calls_made p')%nat;
  touch_conn : conn s' = conn s \/ conn s' = None \/
               exists n, conn s' = Some n /\ (calls_made p <= n < calls_made p')%nat }.

Lemma touch_refl i s p : slots p !! i = Some s -> touch i s s p p.
Proof. intros H. constructor; auto. by rewrite list_insert_id. Qed.

Lemma touch_there i s s' p p' : touch i s s' p p' -> slots p' !! i = Some s'.
Proof.
  intros H. rewrite (touch_slots _ _ _ _ _ H). apply list_lookup_insert_eq.
  eapply lookup_lt_Some, touch_here, H.
Qed.

Lemma touch_trans i s s' s'' p p' p'' : touch i s s' p p' -> touch i s' s'' p' p'' -> touch i s s'' p p''.
Proof.
  intros [H1 H2 H3 H4 H5 H6] [K1 K2 K3 K4 K5 K6]. constructor; try congruence || lia.
  - by rewrite K2, H2, list_insert_insert_eq.
  - destruct K6 as [K6|[K6|(n & K6 & Kn)]]; [|auto|right; right; exists n; split; [done|lia]].
    rewrite K6. destruct H6 as [H6|[H6|(n & H6 & Hn)]]; [auto|auto|].
    right; right. exists n. split; [done|lia].
Qed.

(** The counter is exact, connections are numbered by past calls and no two
    slots have the same one. *)
Record pool_ok (p : oci_pool_handle) : Prop := {
  ok_open : slots_open p = Z.of_nat (count is_open (slots p));
  ok_length : length (slots p) = Z.to_nat (pool_max_size (config p));
  ok_past i s c : slots p !! i = Some s -> conn s = Some c -> (c < calls_made p)%nat;
  ok_distinct i j s s' c : slots p !! i = Some s -> slots p !! j = Some s' ->
                           conn s = Some c -> conn s' = Some c -> i = j }.

Lemma touch_other i j s s' p p' : touch i s s' p p' -> j <> i -> slots p' !! j = slots p !! j.
Proof. intros H Hj. rewrite (touch_slots _ _ _ _ _ H). by apply list_lookup_insert_ne. Qed.

Lemma touch_ok i s s' p p' : touch i s s' p p' -> pool_ok p -> pool_ok p'.
Proof.
  intros T [O1 O2 O3 O4]. pose proof (touch_there _ _ _ _ _ T) as Hi.
  assert (forall j x c, slots p' !! j = Some x -> conn x = Some c ->
            (exists y, slots p !! j = Some y /\ conn y = Some c) \/
            (j = i /\ (calls_made p <= c < calls_made p')%nat)) as Hold.
  { intros j x c Hx Hc. destruct (decide (j = i)) as [->|Hne].
    - rewrite Hi in Hx. injection Hx as <-. destruct (touch_conn _ _ _ _ _ T) as [E|[E|(n & E & Hn)]].
      + left. exists s. split; [eapply touch_here, T|congruence].
      + congruence.
      + right. rewrite E in Hc. injection Hc as <-. done.
    - left. exists x. by rewrite <- (touch_other _ _ _ _ _ _ T Hne). }
  pose proof (touch_calls _ _ _ _ _ T) as Hcalls. constructor.
  - pose proof (count_insert is_open _ _ _ s' (touch_here _ _ _ _ _ T)) as C.
    rewrite <- (touch_slots _ _ _ _ _ T) in C. pose proof (touch_open _ _ _ _ _ T).
    destruct (is_open s), (is_open s'); simpl in *; lia.
  - by rewrite (touch_slots _ _ _ _ _ T), length_insert, (touch_config _ _ _ _ _ T).
  - intros j x c Hx Hc. destruct (Hold j x c Hx Hc) as [(y & Hy & Hyc)|[_ Hn]]; [|lia].
    specialize (O3 _ _ _ Hy Hyc). lia.
  - intros j k x y c Hx Hy Hxc Hyc.
    destruct (Hold j x c Hx Hxc) as [(x' & Hx' & Hxc')|[-> Hn]], (Hold k y c Hy Hyc) as [(y' & Hy' & Hyc')|[-> Hm]]; try done.
    + by eapply O4.
    + specialize (O3 _ _ _ Hx' Hxc'). lia.
    + specialize (O3 _ _ _ Hy' Hyc'). lia.
Qed.

(** ** The operations on slots *)

Section specs.
Context (cl : client).

Lemma open_at_touch i p s ok p' :
  slots p !! i = Some s -> is_open s = false -> open_at cl i p = (ok, p') ->
  exists s', touch i s s' p p' /\ is_open s' = ok /\ (state s = POOL_SLOT_FREE \/ ok = true -> state s' = POOL_SLOT_FREE).
Proof.
  unfold open_at, open_slot. intros Hs Ho. rewrite Hs.
  destruct (opens cl (calls_made p)); intros [= <- <-]; eexists; (split; [constructor; simpl; try reflexivity; try done; try (rewrite Ho; simpl; lia)|]).
  - lia.
  - right; right. exists (calls_made p). split; [done|lia].
  - simpl. auto.
  - lia.
  - auto.
  - simpl. split; [done|]. by intros [?|?].
Qed.

Lemma close_at_touch i p s :
  slots p !! i = Some s -> is_open s = true -> touch i s (close_slot s) p (close_at i p).
Proof.
  unfold close_at. intros Hs Ho. rewrite Hs. constructor; simpl; auto; try lia. by rewrite Ho; simpl; lia.
Qed.

Lemma ping_at_touch i p s ok p' :
  slots p !! i = Some s -> ping_at cl i p = (ok, p') -> touch i s s p p'.
Proof.
  unfold ping_at. intros Hs. rewrite Hs. intros [= <- <-].
  constructor; simpl; auto. by rewrite list_insert_id.
Qed.

Lemma open_attempts_touch k i : forall p s ok p',
  slots p !! i = Some s -> is_open s = false -> state s = POOL_SLOT_FREE -> open_attempts cl k i p = (ok, p') ->
  exists s', touch i s s' p p' /\ is_open s' = ok /\ state s' = POOL_SLOT_FREE.
Proof.
  induction k as [|k IH]; intros p s ok p' Hs Ho Hf; simpl.
  - intros [= <- <-]. exists s. split; [by apply touch_refl|done].
  - destruct (open_at cl i p) as [ok1 p1] eqn:E.
    destruct (open_at_touch _ _ _ _ _ Hs Ho E) as (s1 & T & Ho1 & Hf1). specialize (Hf1 (or_introl Hf)).
    destruct ok1; [intros [= <- <-]; by exists s1|]. intros E'.
    destruct (IH _ _ _ _ (touch_there _ _ _ _ _ T) Ho1 Hf1 E') as (s2 & T2 & H2).
    exists s2. split; [by eapply touch_trans|done].
Qed.

Lemma reopen_touch k i p s ok p' :
  slots p !! i = Some s -> is_open s = true -> open_attempts cl k i (close_at i p) = (ok, p') ->
  exists s', touch i s s' p p' /\ is_open s' = ok /\ state s' = POOL_SLOT_FREE /\
    (conn s' = None \/ exists n, conn s' = Some n /\ (calls_made p <= n)%nat).
Proof.
  intros Hs Ho E. pose proof (close_at_touch _ _ _ Hs Ho) as T. pose proof (touch_calls _ _ _ _ _ T).
  destruct (open_attempts_touch _ _ _ _ _ _ (touch_there _ _ _ _ _ T) eq_refl eq_refl E) as (s' & T' & Ho' & Hf).
  exists s'. split; [by eapply touch_trans|]. do 2 (split; [done|]).
  destruct (touch_conn _ _ _ _ _ T') as [?|[?|(n & Hn & Hl)]]; [by left|by left|]. right. exists n. split; [done|lia].
Qed.

(** The scan hands out a slot that is open and free; it opens one only when
    none is free, and finds nothing only then. *)
Lemma find_slot_some p p1 i :
  find_slot cl p = (p1, Some i) ->
  exists s s', touch i s s' p p1 /\ held s = false /\ is_open s' = true /\ state s' = POOL_SLOT_FREE /\
    (is_free s = true \/ count is_free (slots p) = 0%nat).
Proof.
  unfold find_slot. destruct (first_slot is_free (slots p)) as [j|] eqn:E1.
  - intros [= <- <-]. apply first_slot_some in E1 as (s & Hs & Hf). exists s, s.
    split; [by apply touch_refl|]. unfold is_free in Hf. bools. unfold held.
    match goal with H : state s = _ |- _ => rewrite H end. split; [by destruct (is_open s)|]. split; [done|]. split; [done|].
    left. unfold is_free. match goal with H : is_open s = _ |- _ => rewrite H end.
    match goal with H : state s = _ |- _ => by rewrite H end.
  - apply first_slot_none in E1. destruct (slots_open p <? pool_max_size (config p)); [|done].
    destruct (first_slot _ (slots p)) as [j|] eqn:E2; [|done]. apply first_slot_some in E2 as (s & Hs & Ho).
    apply negb_true_iff in Ho. destruct (open_at cl j p) as [ok p'] eqn:E. destruct ok; [|done]. intros [= <- <-].
    destruct (open_at_touch _ _ _ _ _ Hs Ho E) as (s' & T & H1 & H2). exists s, s'.
    split; [done|]. split; [unfold held; by rewrite Ho|]. split; [done|]. split; [by apply H2; right|]. by right.
Qed.

Lemma find_slot_none p p1 :
  find_slot cl p = (p1, None) ->
  count is_free (slots p) = 0%nat /\
  (p1 = p \/ exists i s s', touch i s s' p p1 /\ is_open s = false /\ is_open s' = false).
Proof.
  unfold find_slot. destruct (first_slot is_free (slots p)) as [j|] eqn:E1; [done|].
  apply first_slot_none in E1. destruct (_ <? _); [|intros [= <-]; auto].
  destruct (first_slot _ (slots p)) as [j|] eqn:E2; [|intros [= <-]; auto].
  apply first_slot_some in E2 as (s & Hs & Ho). apply negb_true_iff in Ho.
  destruct (open_at cl j p) as [[] p'] eqn:E; [done|]. intros [= <-]. split; [done|]. right.
  destruct (open_at_touch _ _ _ _ _ Hs Ho E) as (s' & T & H1 & H2). by exists j, s, s'.
Qed.

Context {F : flavour}.

Lemma validate_borrow_touch i p s ok p' :
  slots p !! i = Some s -> is_open s = true -> state s = POOL_SLOT_FREE -> validate_borrow cl i p = (ok, p') ->
  exists s', touch i s s' p p' /\ is_open s' = ok /\ state s' = POOL_SLOT_FREE.
Proof.
  unfold validate_borrow. intros Hs Ho Hf. destruct (connection_validation_on_borrow _).
  2:{ intros [= <- <-]. exists s. split; [by apply touch_refl|done]. }
  destruct (ping_at cl i p) as [alive p1] eqn:E. pose proof (ping_at_touch _ _ _ _ _ Hs E) as T.
  destruct alive; [intros [= <- <-]; by exists s|]. intros E'.
  destruct (reopen_touch _ _ _ _ _ _ (touch_there _ _ _ _ _ T) Ho E') as (s' & T' & H1 & H2 & _).
  exists s'. split; [by eapply touch_trans|done].
Qed.

Lemma set_state_touch i p s st :
  slots p !! i = Some s -> touch i s (set_slot_state st s) p (set_slot i (set_slot_state st s) p).
Proof. intros Hs. constructor; simpl; auto. Qed.

(** One borrow changes one slot that nobody has. *)
Definition borrows (p p' : oci_pool_handle) (r : get_outcome) : Prop :=
  match r with
  | Waits => count is_free (slots p) = 0%nat /\
             (p' = p \/ exists i s s', touch i s s' p p' /\ is_open s = false /\ is_open s' = false)
  | Failed => exists i s s', touch i s s' p p' /\ held s = false /\ is_open s' = false /\
                             (is_free s = true \/ count is_free (slots p) = 0%nat)
  | Granted c => exists i s s', touch i s s' p p' /\ held s = false /\ held s' = true /\
                                c = mk_ctx (conn s') (Z.of_nat i) /\
                                (is_free s = true \/ count is_free (slots p) = 0%nat)
  end.

Lemma get_session_borrows p p' r : get_session cl p = (p', r) -> borrows p p' r.
Proof.
  unfold get_session. destruct (find_slot cl p) as [p1 [i|]] eqn:E1.
  - destruct (find_slot_some _ _ _ E1) as (s & s1 & T1 & Hh & Ho & Hf & Hc).
    destruct (validate_borrow cl i p1) as [ok p2] eqn:E2.
    destruct (validate_borrow_touch _ _ _ _ _ (touch_there _ _ _ _ _ T1) Ho Hf E2) as (s2 & T2 & Ho2 & Hf2).
    pose proof (touch_trans _ _ _ _ _ _ _ T1 T2) as T. destruct ok.
    + rewrite (touch_there _ _ _ _ _ T). intros [= <- <-]. exists i, s, (set_slot_state POOL_SLOT_IN_USE s2).
      split; [eapply touch_trans; [exact T|apply set_state_touch, (touch_there _ _ _ _ _ T)]|].
      split; [done|]. split; [|done]. unfold held. change (is_open (set_slot_state POOL_SLOT_IN_USE s2)) with (is_open s2). by rewrite Ho2.
    + intros [= <- <-]. by exists i, s, s2.
  - intros [= <- <-]. by apply find_slot_none.
Qed.
End specs.

(** ** Who holds what *)

(** Every session a thread has is the one of its slot, the slot is in use,
    and no other thread has it. *)
Record winv (w : world) : Prop := {
  w_pool : pool_ok (pool w);
  w_holds t th c : threads w !! t = Some th -> svchp (ctx th) = Some c ->
    exists i s, pool_slot_index (ctx th) = Z.of_nat i /\ slots (pool w) !! i = Some s /\
                conn s = Some c /\ held s = true;
  w_alone t t' th th' c : threads w !! t = Some th -> threads w !! t' = Some th' ->
    svchp (ctx th) = Some c -> svchp (ctx th') = Some c -> t = t' }.

(** The threads of [ts'] have the contexts they had in [ts], or wiped ones. *)
Definition ctxs_from (ts ts' : list thread) : Prop :=
  forall t th c, ts' !! t = Some th -> svchp (ctx th) = Some c ->
    exists th0, ts !! t = Some th0 /\ ctx th0 = ctx th.

Lemma ctxs_refl ts : ctxs_from ts ts.
Proof. intros t th c Ht _. by exists th. Qed.

Lemma ctxs_trans a b c : ctxs_from a b -> ctxs_from b c -> ctxs_from a c.
Proof.
  intros H K t th x Ht Hx. destruct (K _ _ _ Ht Hx) as (th1 & H1 & E1). rewrite <- E1 in Hx.
  destruct (H _ _ _ H1 Hx) as (th0 & H0 & E0). exists th0. split; [done|congruence].
Qed.

Lemma ctxs_insert ts t th th' :
  ts !! t = Some th -> ctx th' = ctx th \/ svchp (ctx th') = None -> ctxs_from ts (<[t := th']> ts).
Proof.
  intros Ht Hc u x c Hu Hx. destruct (decide (u = t)) as [->|Hne].
  - rewrite list_lookup_insert_eq in Hu by (eapply lookup_lt_Some, Ht). injection Hu as <-.
    destruct Hc as [Hc|Hc]; [|congruence]. by exists th.
  - rewrite list_lookup_insert_ne in Hu by done. by exists x.
Qed.

Lemma ctxs_signal pick ts : ctxs_from ts (signal pick ts).
Proof.
  unfold signal. destruct (sleepers ts !! _) as [t|]; [|apply ctxs_refl].
  intros u x c Hu Hx. destruct (decide (u = t)) as [->|Hne].
  - rewrite list_lookup_alter_eq in Hu. destruct (ts !! t) as [th|] eqn:E; [|done].
    injection Hu as <-. by exists th.
  - rewrite list_lookup_alter_ne in Hu by done. by exists x.
Qed.

Lemma winv_threads w ts' : winv w -> ctxs_from (threads w) ts' -> winv (mk_world (pool w) ts').
Proof.
  intros [H1 H2 H3] C. constructor; simpl; [done| |].
  - intros t th c Ht Hc. destruct (C _ _ _ Ht Hc) as (th0 & Ht0 & E). rewrite <- E in *. by eapply H2.
  - intros t t' th th' c Ht Ht' Hc Hc'.
    destruct (C _ _ _ Ht Hc) as (x & Hx & Ex), (C _ _ _ Ht' Hc') as (y & Hy & Ey).
    rewrite <- Ex in *. rewrite <- Ey in *. by eapply H3.
Qed.

(** Changing a slot that nobody has leaves every holder alone. *)
Lemma winv_touch w i s s' p' : winv w -> touch i s s' (pool w) p' -> held s = false -> winv (mk_world p' (threads w)).
Proof.
  intros [H1 H2 H3] T Hs. constructor; simpl; [by eapply touch_ok| |done].
  intros t th c Ht Hc. destruct (H2 _ _ _ Ht Hc) as (j & x & Hj & Hx & Hxc & Hxh).
  exists j, x. rewrite (touch_other _ _ _ _ _ _ T); [done|]. intros ->.
  rewrite (touch_here _ _ _ _ _ T) in Hx. injection Hx as ->. congruence.
Qed.

(** Nobody has the connection of a slot that is not held. *)
Lemma unheld_conn w i s c t th :
  winv w -> slots (pool w) !! i = Some s -> held s = false -> conn s = Some c ->
  threads w !! t = Some th -> svchp (ctx th) <> Some c.
Proof.
  intros [[_ _ _ H1] H2 H3] Hi Hs Hc Ht Hx. destruct (H2 _ _ _ Ht Hx) as (j & x & _ & Hj & Hxc & Hxh).
  assert (j = i) as -> by (by eapply H1). congruence.
Qed.

Lemma unmade_conn w t th c : winv w -> threads w !! t = Some th -> svchp (ctx th) = Some c -> (c < calls_made (pool w))%nat.
Proof.
  intros H Ht Hc. destruct (w_holds _ H _ _ _ Ht Hc) as (i & s & _ & Hs & Hsc & _).
  by eapply ok_past; [apply w_pool, H|..].
Qed.

Lemma winv_grant w i s s' p' t th :
  winv w -> touch i s s' (pool w) p' -> held s = false -> held s' = true -> threads w !! t = Some th ->
  winv (mk_world p' (<[t := mk_thread (mk_ctx (conn s') (Z.of_nat i)) Running]> (threads w))).
Proof.
  intros H T Hs Hs' Ht. pose proof (winv_touch _ _ _ _ _ H T Hs) as [K1 K2 K3].
  assert (forall u x c, threads w !! u = Some x -> svchp (ctx x) = Some c -> conn s' <> Some c) as Hnew.
  { intros u x c Hu Hx Hc. destruct (touch_conn _ _ _ _ _ T) as [E|[E|(n & E & Hn)]].
    - rewrite Hc in E. exact (unheld_conn _ _ _ _ _ _ H (touch_here _ _ _ _ _ T) Hs (eq_sym E) Hu Hx).
    - congruence.
    - pose proof (unmade_conn _ _ _ _ H Hu Hx). rewrite Hc in E. injection E as ->. lia. }
  assert (forall u x, <[t := mk_thread (mk_ctx (conn s') (Z.of_nat i)) Running]> (threads w) !! u = Some x ->
            (u = t /\ x = mk_thread (mk_ctx (conn s') (Z.of_nat i)) Running) \/ (u <> t /\ threads w !! u = Some x)) as Hl.
  { intros u x Hu. destruct (decide (u = t)) as [->|Hne].
    - rewrite list_lookup_insert_eq in Hu by (eapply lookup_lt_Some, Ht). injection Hu as <-. by left.
    - rewrite list_lookup_insert_ne in Hu by done. by right. }
  constructor; simpl; [done| |].
  - intros u x c Hu Hc. destruct (Hl _ _ Hu) as [[-> ->]|[Hne Hu']]; [|by eapply K2].
    simpl in *. exists i, s'. by rewrite (touch_there _ _ _ _ _ T).
  - intros u u' x x' c Hu Hu' Hc Hc'.
    destruct (Hl _ _ Hu) as [[-> ->]|[Hne Hx]], (Hl _ _ Hu') as [[-> ->]|[Hne' Hx']]; simpl in *; try done.
    + by destruct (Hnew _ _ _ Hx' Hc').
    + by destruct (Hnew _ _ _ Hx Hc).
    + by eapply K3.
Qed.

(** A thread gives its slot up: whatever happens to the slot, it no longer
    has the connection. *)
Lemma winv_give_up w i s s' p' t th :
  winv w -> touch i s s' (pool w) p' -> threads w !! t = Some th ->
  (held s = true -> svchp (ctx th) = conn s) ->
  winv (mk_world p' (<[t := mk_thread wiped Running]> (threads w))).
Proof.
  intros H T Ht Hown. destruct H as [H1 H2 H3].
  assert (forall u x, <[t := mk_thread wiped Running]> (threads w) !! u = Some x -> svchp (ctx x) <> None ->
            u <> t /\ threads w !! u = Some x) as Hl.
  { intros u x Hu Hx. destruct (decide (u = t)) as [->|Hne].
    - rewrite list_lookup_insert_eq in Hu by (eapply lookup_lt_Some, Ht). injection Hu as <-. done.
    - rewrite list_lookup_insert_ne in Hu by done. done. }
  constructor; simpl; [by eapply touch_ok| |].
  - intros u x c Hu Hc. destruct (Hl _ _ Hu ltac:(congruence)) as [Hne Hu'].
    destruct (H2 _ _ _ Hu' Hc) as (j & y & Hj & Hy & Hyc & Hyh). exists j, y.
    rewrite (touch_other _ _ _ _ _ _ T); [done|]. intros ->.
    rewrite (touch_here _ _ _ _ _ T) in Hy. injection Hy as ->. apply Hne, (H3 u t x th c Hu' Ht Hc).
    rewrite Hown by done. done.
  - intros u u' x x' c Hu Hu' Hc Hc'.
    destruct (Hl _ _ Hu ltac:(congruence)) as [_ Hx], (Hl _ _ Hu' ltac:(congruence)) as [_ Hx']. by eapply H3.
Qed.

(** ** Who waits *)

Definition asleep (th : thread) : bool := bool_decide (at_place th = Asleep).
Definition signalled (th : thread) : bool := bool_decide (at_place th = Woken false).

(** While a thread sleeps there are no more free slots than threads on their
    way to look for one. *)
Definition wake_inv (w : world) : Prop :=
  (0 < count asleep (threads w))%nat ->
  (count is_free (slots (pool w)) <= count signalled (threads w))%nat.

Lemma count_zero {A} (f : A -> bool) (l : list A) : (forall i x, l !! i = Some x -> f x = false) -> count f l = 0%nat.
Proof.
  unfold count. induction l as [|a l IH]; intros H; simpl; [done|].
  rewrite (H 0%nat a eq_refl). apply IH. intros i x Hx. by apply (H (S i)).
Qed.

Lemma sleepers_in ts t : In t (sleepers ts) <-> exists th, ts !! t = Some th /\ asleep th = true.
Proof.
  unfold sleepers, asleep. rewrite <- list_elem_of_In, list_elem_of_filter. split.
  - intros [H _]. destruct (ts !! t) as [th|]; [|done]. exists th. split; [done|].
    simpl in H. injection H as ->. done.
  - intros (th & Ht & H). apply bool_decide_eq_true in H. rewrite Ht. simpl. rewrite H. split; [done|].
    apply elem_of_seq. apply lookup_lt_Some in Ht. lia.
Qed.

Lemma alter_insert {A} (f : A -> A) (l : list A) (i : nat) x : l !! i = Some x -> alter f i l = <[i := f x]> l.
Proof. revert i. induction l as [|a l IH]; intros [|i] H; simpl in *; [done|done|by injection H as ->|]. f_equal. by apply IH. Qed.

(** A signal turns one sleeper, if there is one, into a thread on its way. *)
Lemma signal_counts pick ts :
  (signal pick ts = ts /\ count asleep ts = 0%nat) \/
  (count asleep ts = S (count asleep (signal pick ts)) /\ count signalled (signal pick ts) = S (count signalled ts)).
Proof.
  unfold signal. destruct (sleepers ts !! _) as [t|] eqn:E.
  - right. assert (In t (sleepers ts)) as Hin by (by eapply list_elem_of_In, list_elem_of_lookup_2).
    apply sleepers_in in Hin as (th & Ht & Hs). rewrite (alter_insert _ _ _ _ Ht).
    pose proof (count_insert asleep _ _ _ (go (Woken false) th) Ht) as C1.
    pose proof (count_insert signalled _ _ _ (go (Woken false) th) Ht) as C2.
    rewrite Hs in C1. unfold asleep in Hs. apply bool_decide_eq_true in Hs.
    assert (signalled th = false) as Hns by (unfold signalled; by rewrite Hs).
    rewrite Hns in C2. unfold asleep, signalled, go in C1, C2 |- *. simpl in *. lia.
  - left. split; [done|]. destruct (sleepers ts) as [|t l] eqn:El.
    + apply count_zero. intros i th Hi. destruct (asleep th) eqn:Ea; [|done].
      assert (In i (sleepers ts)) as Hin by (apply sleepers_in; by exists th). by rewrite El in Hin.
    + apply lookup_ge_None in E. assert (pick mod length (t :: l) < length (t :: l))%nat; [|lia].
      apply Nat.mod_upper_bound. done.
Qed.

(** The bookkeeping of one step: thread [t] moves from [th] to [th'], and
    the sleepers may get a signal. *)
Lemma wake_move w t th th' p' (sig : bool) pick :
  wake_inv w -> threads w !! t = Some th ->
  (asleep th' = true -> sig = false -> count is_free (slots p') = 0%nat) ->
  (count is_free (slots p') + Nat.b2n (signalled th) <=
     Nat.max (Nat.b2n (signalled th)) (count is_free (slots (pool w))) + Nat.b2n sig + Nat.b2n (signalled th'))%nat ->
  (sig = true -> asleep th = false /\ asleep th' = false) ->
  wake_inv (mk_world p' (let ts := <[t := th']> (threads w) in if sig then signal pick ts else ts)).
Proof.
  unfold wake_inv. intros H Ht Hz Hle Hsig. cbn [threads pool].
  pose proof (count_insert asleep _ _ _ th' Ht) as Ca.
  pose proof (count_insert signalled _ _ _ th' Ht) as Cs.
  destruct sig; cbv zeta.
  - destruct (Hsig eq_refl) as [E1 E2]. rewrite E1, E2 in Ca. simpl in Ca.
    destruct (signal_counts pick (<[t := th']> (threads w))) as [[-> Hs]|[Hs1 Hs2]]; [lia|].
    intros Hp. specialize (H ltac:(lia)). pose proof (count_pos signalled _ _ _ Ht).
    destruct (signalled th), (signalled th'); simpl in *; lia.
  - destruct (asleep th') eqn:E2; [intros _; rewrite Hz by done; lia|]. intros Hp. 
    assert (0 < count asleep (threads w))%nat as Hpos by (destruct (asleep th); simpl in *; lia).
    specialize (H Hpos). pose proof (count_pos signalled _ _ _ Ht).
    destruct (signalled th), (signalled th'); simpl in *; lia.
Qed.

Lemma touch_free i s s' p p' : touch i s s' p p' ->
  (count is_free (slots p') + Nat.b2n (is_free s) = count is_free (slots p) + Nat.b2n (is_free s'))%nat.
Proof. intros T. rewrite (touch_slots _ _ _ _ _ T). apply count_insert, (touch_here _ _ _ _ _ T). Qed.

Lemma free_closed s : is_open s = false -> is_free s = false.
Proof. unfold is_free. by intros ->. Qed.

Lemma held_not_free s : held s = true -> is_free s = false.
Proof. unfold held, is_free. by destruct (is_open s), (state s). Qed.

Definition inv (w : world) : Prop := winv w /\ wake_inv w.

Section steps.
Context (cl : client) {F : flavour}.

Lemma check_slot_touch now i p f p' f' :
  check_slot cl now i (p, f) = (p', f') ->
  (f' = f /\ exists s, touch i s s p p' /\ is_free s = true /\ exists c n, conn s = Some c /\ answers cl c n = true) \/
  (p' = p /\ f' = f /\ forall s, slots p !! i = Some s -> is_free s = false) \/
  (exists s s', touch i s s' p p' /\ is_free s = true /\ state s' = POOL_SLOT_FREE /\
                (conn s' = None \/ exists n, conn s' = Some n /\ (calls_made p <= n)%nat) /\
                f' = if is_open s' then f else f + 1).
Proof.
  unfold check_slot. destruct (slots p !! i) as [s|] eqn:Hs; [|intros [= <- <-]; right; left; repeat split; by intros].
  destruct (negb (is_open s)) eqn:Ho; simpl.
  { intros [= <- <-]. right; left. split; [done|]. split; [done|]. intros x [= <-].
    apply free_closed. by apply negb_true_iff. }
  apply negb_false_iff in Ho.
  destruct (bool_decide (state s = POOL_SLOT_IN_USE)) eqn:Hu.
  { intros [= <- <-]. right; left. split; [done|]. split; [done|]. intros x [= <-].
    apply held_not_free. unfold held. by rewrite Ho, Hu. }
  assert (is_free s = true) as Hf by (unfold is_free; rewrite Ho; apply bool_decide_eq_false in Hu; by destruct (state s)).
  destruct (_ && _).
  - destruct (open_attempts _ _ _ _) as [ok p1] eqn:E. intros [= <- <-].
    destruct (reopen_touch _ _ _ _ _ _ _ Hs Ho E) as (s' & T & <- & H1 & H2). right; right. by exists s, s'.
  - destruct (ping_at cl i p) as [alive p1] eqn:Ep. pose proof (ping_at_touch _ _ _ _ _ _ Hs Ep) as T.
    destruct alive.
    { intros [= <- <-]. left. split; [done|]. exists s. split; [done|]. split; [done|].
      unfold ping_at, validate_slot in Ep. rewrite Hs in Ep. destruct (conn s) as [c|] eqn:Ec; [|done].
      injection Ep as Ea _. by exists c, (calls_made p). }
    destruct (open_attempts _ _ _ _) as [ok p2] eqn:E. intros [= <- <-].
    destruct (reopen_touch _ _ _ _ _ _ _ (touch_there _ _ _ _ _ T) Ho E) as (s' & T' & <- & H1 & H2).
    pose proof (touch_calls _ _ _ _ _ T). right; right. exists s, s'. split; [by eapply touch_trans|]. do 2 (split; [done|]).
    split; [|done]. destruct H2 as [?|(n & Hn & Hl)]; [by left|]. right. exists n. split; [done|lia].
Qed.

Lemma free_unheld s : is_free s = true -> held s = false.
Proof. unfold held, is_free. by destruct (is_open s), (state s). Qed.

Lemma winv_same w i s p' : winv w -> touch i s s (pool w) p' -> winv (mk_world p' (threads w)).
Proof.
  intros [H1 H2 H3] T. constructor; simpl; [by eapply touch_ok| |done].
  intros t th c Ht Hc. rewrite (touch_slots _ _ _ _ _ T), list_insert_id by apply (touch_here _ _ _ _ _ T). by eapply H2.
Qed.

Lemma health_check_winv w : winv w ->
  winv (mk_world (fst (health_check cl (pool w))) (threads w)) /\
  (count is_free (slots (fst (health_check cl (pool w)))) <= count is_free (slots (pool w)))%nat.
Proof.
  unfold health_check. generalize (clock cl (calls_made (pool w))) as now. generalize 0 as f. intros f now.
  generalize (seq 0 (length (slots (pool w)))) as l. intros l H.
  assert (forall p f0, winv (mk_world p (threads w)) -> (count is_free (slots p) <= count is_free (slots (pool w)))%nat ->
            winv (mk_world (fst (foldl (fun pf i => check_slot cl now i pf) (p, f0) l)) (threads w)) /\
            (count is_free (slots (fst (foldl (fun pf i => check_slot cl now i pf) (p, f0) l))) <=
             count is_free (slots (pool w)))%nat) as Hgen; [|destruct w; by apply Hgen].
  induction l as [|i l IH]; intros p f0 Hp Hc; [done|]. cbn [foldl].
  destruct (check_slot cl now i (p, f0)) as [p' f'] eqn:E.
  destruct (check_slot_touch _ _ _ _ _ _ E) as [[_ (s & T & _)]|[[-> _]|(s & s' & T & Hf & _)]]; [|by apply IH|].
  - apply IH; [exact (winv_same _ _ _ _ Hp T)|]. pose proof (touch_free _ _ _ _ _ T). lia.
  - apply IH; [exact (winv_touch _ _ _ _ _ Hp T (free_unheld _ Hf))|].
    pose proof (touch_free _ _ _ _ _ T) as Ht. rewrite Hf in Ht. simpl in Ht. destruct (is_free s'); simpl in Ht; lia.
Qed.

Lemma after_get_inv w t pick th :
  inv w -> threads w !! t = Some th -> at_place th = Running \/ at_place th = Woken false ->
  inv (after_get t pick th (get_session cl (pool w)) w).
Proof.
  intros [H K] Ht Hpl. destruct (get_session cl (pool w)) as [p' r] eqn:E. apply get_session_borrows in E.
  assert (asleep th = false) as Ha by (unfold asleep; by destruct Hpl as [->| ->]).
  destruct r as [c| |]; simpl in E |- *.
  - destruct E as (i & s & s' & T & Hs & Hs' & -> & Hf). split; [by eapply winv_grant|].
    apply (wake_move w t th (mk_thread (mk_ctx (conn s') (Z.of_nat i)) Running) p' false 0%nat); [done..| |done].
    pose proof (touch_free _ _ _ _ _ T) as Tf. rewrite (held_not_free _ Hs') in Tf. cbn [signalled asleep at_place] in *.
    destruct Hf as [Hf|Hf]; [rewrite Hf in Tf|]; destruct (signalled th); simpl in *; lia.
  - destruct E as (i & s & s' & T & Hs & Ho & Hf). split.
    + apply winv_threads with (w := mk_world p' (threads w)); [by eapply winv_touch|]. simpl.
      destruct signals_failure; [eapply ctxs_trans; [|apply ctxs_signal]|]; (eapply ctxs_insert; [done|by left]).
    + apply (wake_move w t th (go Running th) p' signals_failure pick); [done..| |done].
      pose proof (touch_free _ _ _ _ _ T) as Tf. rewrite (free_closed _ Ho) in Tf.
      destruct Hf as [Hf|Hf]; [rewrite Hf in Tf|]; destruct (signalled th); simpl in *; lia.
  - destruct E as [Hz Hp]. assert (count is_free (slots p') = 0%nat) as Hz'.
    { destruct Hp as [->|(i & s & s' & T & Ho & Ho')]; [done|]. pose proof (touch_free _ _ _ _ _ T) as Tf.
      rewrite (free_closed _ Ho), (free_closed _ Ho') in Tf. simpl in Tf. lia. }
    split.
    + apply winv_threads with (w := mk_world p' (threads w)); [|by eapply ctxs_insert; [|left]].
      destruct Hp as [->|(i & s & s' & T & Ho & Ho')]; [by destruct w|].
      eapply winv_touch; [done..|]. unfold held. by rewrite Ho.
    + apply (wake_move w t th (go Asleep th) p' false 0%nat); [done..| |done]. rewrite Hz'. destruct (signalled th); simpl; lia.
Qed.
End steps.

Section invariant.
Context (cl : client) {F : flavour}.

Lemma release_touch p c p' : release_session cl p c = Some p' ->
  exists i s s', pool_slot_index c = Z.of_nat i /\ touch i s s' p p' /\ conn s' = conn s /\ state s' = POOL_SLOT_FREE.
Proof.
  unfold release_session, index_ok. destruct (_ && _) eqn:E; simpl; [|done]. bools.
  destruct (slots p !! _) as [s|] eqn:Hs; [|done]. intros [= <-].
  exists (Z.to_nat (pool_slot_index c)), s, (mk_slot (conn s) POOL_SLOT_FREE (created s) (clock cl (calls_made p))).
  split; [lia|]. split; [|done].
  constructor; simpl; auto.
Qed.

Lemma drop_touch p c :
  mssql_drop_session p c = p \/
  exists i s, touch i s (close_slot s) p (mssql_drop_session p c) /\ conn s = svchp c /\ is_open s = true.
Proof.
  unfold mssql_drop_session. destruct (index_ok p c); [|by left].
  destruct (slots p !! _) as [s|] eqn:Hs; [|by left]. destruct (_ && _) eqn:E; [|by left]. bools. right.
  exists (Z.to_nat (pool_slot_index c)), s. split; [by apply close_at_touch|done].
Qed.

Lemma act_inv a w w' : inv w -> holder_releases a w -> act cl a w = Some w' -> inv w'.
Proof.
  intros [H K] Hr. destruct a as [t pick|t pick|t pick|t pick|t|t|]; simpl.
  1-6: destruct (threads w !! t) as [th|] eqn:Ht; simpl; [|done].
  - destruct (at_place th) eqn:Hp; [|done..]. intros [= <-]. apply after_get_inv; auto. by split.
  - destruct (at_place th) as [| |[]] eqn:Hp; [done..| |].
    + intros [= <-]. split; [apply winv_threads, ctxs_insert with (th := th); auto|].
      apply (wake_move w t th (go Running th) (pool w) false 0%nat); [done..| |done].
      unfold signalled, go. rewrite Hp. simpl. lia.
    + intros [= <-]. apply after_get_inv; auto. by split.
  - destruct (at_place th) eqn:Hp; [|done..]. destruct (release_session _ _ _) as [p'|] eqn:E; [|intros [= <-]; by split].
    intros [= <-]. destruct (release_touch _ _ _ E) as (i & s & s' & Hi & T & Hc & Hf). simpl in Hr. specialize (Hr _ Ht).
    destruct (svchp (ctx th)) as [c|] eqn:Hth; [|done]. split.
    + eapply (winv_threads (mk_world p' _)); [|apply ctxs_signal]. apply (winv_give_up w i s s' p' t th); [done..|].
      intros _. destruct (w_holds _ H _ _ _ Ht Hth) as (j & x & Hj & Hx & Hxc & _).
      assert (j = i) as -> by lia. rewrite (touch_here _ _ _ _ _ T) in Hx. injection Hx as <-. congruence.
    + apply (wake_move w t th (mk_thread wiped Running) p' true pick); [done..| |].
      2:{ intros _. unfold asleep. by rewrite Hp. }
      pose proof (touch_free _ _ _ _ _ T). unfold signalled. rewrite Hp. simpl.
      destruct (is_free s), (is_free s'); simpl in *; lia.
  - destruct (at_place th) eqn:Hp; [|done..]. intros [= <-]. split.
    + assert (winv (mk_world (mssql_drop_session (pool w) (ctx th)) (<[t := mk_thread wiped Running]> (threads w)))) as Hw.
      { destruct (drop_touch (pool w) (ctx th)) as [->|(i & s & T & Hc & Ho)].
        - apply winv_threads, ctxs_insert with (th := th); auto.
        - apply (winv_give_up w i s (close_slot s) _ t th); [done..|]. intros _. done. }
      destruct (index_ok _ _); [|done]. eapply (winv_threads (mk_world _ _)); [exact Hw|apply ctxs_signal].
    + apply (wake_move w t th (mk_thread wiped Running) _ (index_ok (pool w) (ctx th)) pick); [done..| |].
      2:{ intros _. unfold asleep. by rewrite Hp. }
      unfold signalled. rewrite Hp. simpl.
      destruct (drop_touch (pool w) (ctx th)) as [->|(i & s & T & _ & _)]; [lia|].
      pose proof (touch_free _ _ _ _ _ T) as Tf. rewrite (free_closed (close_slot s) eq_refl) in Tf. simpl in Tf. lia.
  - destruct (at_place th) eqn:Hp; [done| |done]. intros [= <-].
    split; [apply winv_threads, ctxs_insert with (th := th); auto|].
    apply (wake_move w t th (go (Woken false) th) (pool w) false 0%nat); [done..| |done].
    unfold signalled, go. rewrite Hp. simpl. lia.
  - destruct (at_place th) eqn:Hp; [done| |done]. intros [= <-].
    split; [apply winv_threads, ctxs_insert with (th := th); auto|].
    apply (wake_move w t th (go (Woken true) th) (pool w) false 0%nat); [done..| |done].
    unfold signalled, go. rewrite Hp. simpl. lia.
  - intros [= <-]. destruct (health_check_winv cl w H) as [Hw Hc]. split; [done|].
    unfold wake_inv in *. simpl. intros Hp. specialize (K Hp). lia.
Qed.

Lemma start_inv p n : pool_ok p -> inv (start p n).
Proof.
  intros H. split.
  - constructor; simpl; [done| |].
    + intros t th c Ht Hc. apply lookup_replicate in Ht as [-> _]. done.
    + intros t t' th th' c Ht _ Hc _. apply lookup_replicate in Ht as [-> _]. done.
  - unfold wake_inv. simpl. rewrite (count_zero asleep); [lia|].
    intros i th Hi. apply lookup_replicate in Hi as [-> _]. done.
Qed.

Lemma pool_reachable_inv p n w : pool_ok p -> star (pool_step cl) (start p n) w -> inv w.
Proof.
  intros Hp. apply (star_invariant (pool_step cl) inv).
  - intros a b Ha (x & Hx & E). by eapply act_inv.
  - by apply start_inv.
Qed.
End invariant.

(** ** Creating the pool *)

Section connect.
Context (cl : client).

(** Every connection that was opened is in a slot or has been closed. *)
Definition logged (p : oci_pool_handle) : Prop :=
  forall c, In (Opened c) (log p) -> In (Closed c) (log p) \/ exists i s, slots p !! i = Some s /\ conn s = Some c.

Lemma open_at_logged i p s ok p' :
  slots p !! i = Some s -> is_open s = false -> logged p -> open_at cl i p = (ok, p') -> logged p'.
Proof.
  intros Hs Ho HL E. destruct (open_at_touch _ _ _ _ _ _ Hs Ho E) as (s' & T & _).
  assert (forall c j x, slots p !! j = Some x -> conn x = Some c -> slots p' !! j = Some x) as Hkeep.
  { intros c j x Hj Hc. rewrite (touch_other _ _ _ _ _ _ T); [done|]. intros ->. rewrite Hs in Hj. injection Hj as <-.
    unfold is_open in Ho. by rewrite Hc in Ho. }
  unfold open_at, open_slot in E. rewrite Hs in E. unfold logged. intros c.
  destruct (opens cl (calls_made p)); injection E as <- <-; simpl in *; rewrite ?app_nil_r, ?in_app_iff.
  - intros [Hin|[[= <-]|[]]].
    + destruct (HL _ Hin) as [?|(j & x & Hx & Hc)]; [by left; left|]. right. exists j, x. split; [by eapply Hkeep|done].
    + right. eexists i, _. split; [apply list_lookup_insert_eq; by eapply lookup_lt_Some|done].
  - intros Hin. destruct (HL _ Hin) as [?|(j & x & Hx & Hc)]; [by left|]. right. exists j, x. split; [by eapply Hkeep|done].
Qed.

Lemma open_attempts_logged k i : forall p s ok p',
  slots p !! i = Some s -> is_open s = false -> logged p -> open_attempts cl k i p = (ok, p') -> logged p'.
Proof.
  induction k as [|k IH]; intros p s ok p' Hs Ho HL; simpl; [by intros [= _ <-]|].
  destruct (open_at cl i p) as [ok1 p1] eqn:E. pose proof (open_at_logged _ _ _ _ _ Hs Ho HL E) as HL1.
  destruct (open_at_touch _ _ _ _ _ _ Hs Ho E) as (s1 & T & Ho1 & _).
  destruct ok1; [by intros [= _ <-]|]. exact (IH _ _ _ _ (touch_there _ _ _ _ _ T) Ho1 HL1).
Qed.

Lemma close_events_complete {F : flavour} b p c : logged p -> In (Opened c) (close_events b p) -> In (Closed c) (close_events b p).
Proof.
  intros HL. unfold close_events. rewrite !in_app_iff, !in_concat.
  assert (forall x s, In x ((if rolls_back_closing && b then rolling_back s else []) ++ closing s) -> x <> Opened c) as Hno.
  { intros x s. rewrite in_app_iff. unfold rolling_back, closing. destruct (rolls_back_closing && b), (conn s); simpl; intuition congruence. }
  intros [Hin|(l & Hl & Hin)].
  - destruct (HL _ Hin) as [?|(i & s & Hs & Hc)]; [by left|]. right.
    eexists. split; [apply in_map, list_elem_of_In; by eapply list_elem_of_lookup_2|].
    apply in_app_iff. right. unfold closing. rewrite Hc. by left.
  - apply in_map_iff in Hl as (s & <- & _). by destruct (Hno _ _ Hin).
Qed.

Lemma open_minimum_spec {F : flavour} k n : forall j p,
  pool_ok p -> logged p -> slots_open p = Z.of_nat j -> (j <= length (slots p))%nat ->
  (forall i s, (j <= i)%nat -> slots p !! i = Some s -> is_open s = false /\ state s = POOL_SLOT_FREE) ->
  match open_minimum cl (seq j n) k p with
  | Connected p' => pool_ok p' /\ config p' = config p /\ slots_open p' = Z.of_nat (j + n) /\ (j + n <= length (slots p))%nat
  | Refused events => forall c, In (Opened c) events -> In (Closed c) events
  | OutOfBounds => (length (slots p) < j + n)%nat /\ (0 < k)%nat
  end.
Proof.
  induction n as [|n IH]; intros j p Hok HL Hn Hj Hrest; cbn [seq open_minimum].
  { rewrite Nat.add_0_r. done. }
  destruct (length (slots p) <=? j)%nat eqn:El; simpl.
  { apply Nat.leb_le in El. destruct (0 <? k)%nat eqn:Ek; [apply Nat.ltb_lt in Ek; lia|].
    apply Nat.ltb_ge in Ek. assert (k = 0)%nat as -> by lia. simpl. intros c. by apply close_events_complete. }
  apply Nat.leb_gt in El. destruct (lookup_lt_is_Some_2 _ _ El) as [s Hs].
  destruct (Hrest j s ltac:(lia) Hs) as [Ho Hf]. destruct (open_attempts cl k j p) as [ok p'] eqn:E.
  destruct (open_attempts_touch _ _ _ _ _ _ _ Hs Ho Hf E) as (s' & T & Ho' & _).
  pose proof (open_attempts_logged _ _ _ _ _ _ Hs Ho HL E) as HL'.
  assert (length (slots p') = length (slots p)) as Hlen by by rewrite (touch_slots _ _ _ _ _ T), length_insert.
  destruct ok; [|intros c; by apply close_events_complete].
  specialize (IH (S j) p' (touch_ok _ _ _ _ _ T Hok) HL'). rewrite Hlen, (touch_config _ _ _ _ _ T) in IH.
  replace (j + S n)%nat with (S j + n)%nat by lia. apply IH; [|lia|].
  - pose proof (touch_open _ _ _ _ _ T) as Hto. rewrite Ho, Ho' in Hto. simpl in Hto. lia.
  - intros i x Hi Hx. rewrite (touch_other _ _ _ _ _ _ T) in Hx by lia. apply (Hrest i x); [lia|done].
Qed.

Lemma new_pool_ok cfg : pool_ok (new_pool cfg).
Proof.
  constructor; simpl.
  - by rewrite count_zero by (intros i x Hx; by apply lookup_replicate in Hx as [-> _]).
  - apply length_replicate.
  - intros i s c Hs. by apply lookup_replicate in Hs as [-> _].
  - intros i j s s' c Hs _ Hc. by apply lookup_replicate in Hs as [-> _].
Qed.

Lemma open_new_pool {F : flavour} k n cfg :
  match open_minimum cl (seq 0 n) k (new_pool cfg) with
  | Connected p' => pool_ok p' /\ config p' = cfg /\ slots_open p' = Z.of_nat n /\ (n <= Z.to_nat (pool_max_size cfg))%nat
  | Refused events => forall c, In (Opened c) events -> In (Closed c) events
  | OutOfBounds => (Z.to_nat (pool_max_size cfg) < n)%nat /\ (0 < k)%nat
  end.
Proof.
  pose proof (open_minimum_spec k n 0 (new_pool cfg) (new_pool_ok cfg)) as H.
  assert (length (slots (new_pool cfg)) = Z.to_nat (pool_max_size cfg)) as Hl by apply length_replicate.
  rewrite Hl in H. apply H; [by intros c|done|lia|].
  intros i s _ Hs. by apply lookup_replicate in Hs as [-> _].
Qed.
End connect.

(** ** A pool and two threads, for the examples *)

(** Every attempt succeeds but the one at call 6; connection 1 is dead from
    call 5 on. *)
Definition demo_client : client :=
  mk_client (fun n => negb (n =? 6)%nat) (fun c n => negb ((c =? 1) && (5 <=? n))%nat) (fun c n => negb (c =? 1)%nat) Z.of_nat.
Definition demo_ini : pool_ini := mk_pool_ini false [] 2 2 3600 1 true true.
Definition demo_pool : oci_pool_handle :=
  match OCI_Connect_pool demo_client true demo_ini with Connected p => p | _ => new_pool (OCI_pool_config demo_ini) end.

(** A pool that one of the two connect functions made. *)
Definition made (F : flavour) (cl : client) (p : oci_pool_handle) : Prop :=
  exists ini, (F = oci_flavour /\ OCI_Connect_pool cl true ini = Connected p) \/
              (F = mssql_flavour /\ MSSQL_Connect_pool cl true ini = Connected p).

Lemma made_ok F cl p : made F cl p -> pool_ok p.
Proof.
  unfold made, OCI_Connect_pool, MSSQL_Connect_pool. cbv zeta. intros (ini & [[_ E]|[_ E]]).
  - destruct (_ && _); [done|]. cbn [negb] in E.
    pose proof (open_new_pool cl (F := oci_flavour) (Z.to_nat (retries_on_connection_failure (OCI_pool_config ini)))
                  (Z.to_nat (pool_min_size (OCI_pool_config ini))) (OCI_pool_config ini)) as H.
    rewrite E in H. apply H.
  - cbn [negb] in E.
    pose proof (open_new_pool cl (F := mssql_flavour) (Z.to_nat (mssql_attempts (MSSQL_pool_config ini)))
                  (Z.to_nat (pool_min_size (MSSQL_pool_config ini))) (MSSQL_pool_config ini)) as H.
    rewrite E in H. apply H.
Qed.

Lemma demo_made : made oci_flavour demo_client demo_pool.
Proof. exists demo_ini. left. split; [done|]. vm_compute. reflexivity. Qed.

(** Running a list of steps whose releases are checked. *)
Definition holder_releasesb (a : action) (w : world) : bool :=
  match a with
  | Release t _ => match threads w !! t with
                   | Some th => match svchp (ctx th) with Some _ => true | None => false end
                   | None => true
                   end
  | _ => true
  end.

Fixpoint checked_acts {F : flavour} (cl : client) (l : list action) (w : world) : option world :=
  match l with
  | [] => Some w
  | a :: l' => if holder_releasesb a w then w' ← act cl a w; checked_acts cl l' w' else None
  end.

Lemma checked_acts_star {F : flavour} cl w0 l : forall w w',
  star (pool_step cl) w0 w -> checked_acts cl l w = Some w' -> star (pool_step cl) w0 w'.
Proof.
  induction l as [|a l IH]; intros w w' Hw; simpl; [by intros [= <-]|].
  destruct (holder_releasesb a w) eqn:Eh; [|done]. destruct (act cl a w) as [w1|] eqn:E; simpl; [|done].
  apply IH. eapply star_step; [exact Hw|]. exists a. split; [|done].
  destruct a; simpl in *; try done. intros th Ht. rewrite Ht in Eh. by destruct (svchp (ctx th)).
Qed.

(** Two threads that have borrowed, of four; the others sleep; the first
    gives its session back. *)
Definition demo_borrows : list action := [Get 0 0; Get 1 0; Get 2 0; Get 3 0]%nat.
Definition demo_world : option world :=
  checked_acts (F := oci_flavour) demo_client demo_borrows (start demo_pool 4).
Definition demo_released : option world :=
  checked_acts (F := oci_flavour) demo_client (demo_borrows ++ [Release 0 0])%nat (start demo_pool 4).

(** C3: whatever the order of borrows, waits, releases and health checks, and
    whatever the database answers, as long as only a thread with a session
    releases (SQL Server's reconnect needs no such care): a thread's session
    is the connection of a slot marked in use, no other thread has it, and the
    count of open slots is exact and within the maximum. *)
Theorem pool_sessions_exclusive (F : flavour) (cl : client) (p : oci_pool_handle) (n : nat) (w : world) :
  made F cl p -> star (pool_step cl) (start p n) w ->
  slots_open (pool w) = Z.of_nat (count is_open (slots (pool w))) /\
  Z.of_nat (length (slots (pool w))) = Z.max 0 (pool_max_size (config (pool w))) /\
  forall t th c, threads w !! t = Some th -> svchp (ctx th) = Some c ->
    (exists i s, pool_slot_index (ctx th) = Z.of_nat i /\ slots (pool w) !! i = Some s /\
                 conn s = Some c /\ state s = POOL_SLOT_IN_USE) /\
    forall t' th', threads w !! t' = Some th' -> svchp (ctx th') = Some c -> t' = t.
Proof.
  intros Hp Hw. destruct (pool_reachable_inv cl p n w (made_ok _ _ _ Hp) Hw) as [[[H1 H2 _ _] Hh Ha] _].
  split; [done|]. split; [lia|]. intros t th c Ht Hc. split.
  - destruct (Hh _ _ _ Ht Hc) as (i & s & Hi & Hs & Hsc & Hheld). exists i, s. unfold held in Hheld. bools. done.
  - intros t' th' Ht' Hc'. by eapply Ha.
Qed.

Lemma pool_sessions_exclusive_witness :
  exists w, demo_world = Some w /\
    forall th1 th2, threads w !! 0%nat = Some th1 -> threads w !! 1%nat = Some th2 ->
      svchp (ctx th1) = Some 0%nat /\ svchp (ctx th2) <> Some 0%nat.
Proof.
  eexists. split; [vm_compute; reflexivity|]. intros th1 th2 H1 H2.
  assert (svchp (ctx th1) = Some 0%nat) as E by (injection H1 as <-; reflexivity). split; [exact E|].
  intros E2. enough (1 = 0)%nat by done.
  refine (proj2 (proj2 (proj2 (pool_sessions_exclusive oci_flavour demo_client demo_pool 4 _ demo_made _)) 0%nat th1 0%nat H1 E) 1%nat th2 H2 E2).
  eapply (checked_acts_star _ _ demo_borrows); [apply star_refl|vm_compute; reflexivity].
Defined.

(** C28: no thread sleeps on a free slot.  As long as only a thread that has a
    session releases one ([holder_releases]; a worker whose reconnect failed
    breaks this), while one sleeps every free slot has its own thread on the
    way to look for it - no release is lost. *)
Theorem pool_no_stranded_waiter (F : flavour) (cl : client) (p : oci_pool_handle) (n : nat) (w : world) :
  made F cl p -> star (pool_step cl) (start p n) w ->
  forall t th i s, threads w !! t = Some th -> at_place th = Asleep -> slots (pool w) !! i = Some s -> is_free s = true ->
    (count is_free (slots (pool w)) <= count signalled (threads w))%nat /\
    exists t' th', threads w !! t' = Some th' /\ at_place th' = Woken false.
Proof.
  intros Hp Hw t th i s Ht Ha Hs Hf. destruct (pool_reachable_inv cl p n w (made_ok _ _ _ Hp) Hw) as [_ K].
  assert (0 < count asleep (threads w))%nat as Hpos
    by (eapply count_pos; [exact Ht|]; unfold asleep; by rewrite Ha).
  specialize (K Hpos). split; [done|]. pose proof (count_pos _ _ _ _ Hs Hf) as Hc.
  destruct (count_exists signalled (threads w) ltac:(lia)) as (u & x & Hu & Hx).
  exists u, x. split; [done|]. unfold signalled in Hx. by apply bool_decide_eq_true in Hx.
Qed.


Lemma pool_no_stranded_waiter_witness :
  exists w th s, demo_released = Some w /\ threads w !! 3%nat = Some th /\ at_place th = Asleep /\
    slots (pool w) !! 0%nat = Some s /\ is_free s = true /\
    exists t' th', threads w !! t' = Some th' /\ at_place th' = Woken false.
Proof.
  do 3 eexists. do 5 (split; [vm_compute; reflexivity|]).
  eapply proj2. eapply (pool_no_stranded_waiter oci_flavour demo_client demo_pool 4 _ demo_made _ 3%nat _ 0%nat); try reflexivity.
  Unshelve. eapply (checked_acts_star _ _ (demo_borrows ++ [Release 0 0])%nat); [apply star_refl|vm_compute; reflexivity].
Defined.

(** A thread that gives its session back frees its own slot and no other,
    rolls back its own connection and no other, and afterwards no thread has
    that session. *)
Theorem pool_release_own (F : flavour) (cl : client) (p : oci_pool_handle) (n : nat) (w w' : world)
    (t pick : nat) (th : thread) (c : nat) :
  made F cl p -> star (pool_step cl) (start p n) w ->
  threads w !! t = Some th -> svchp (ctx th) = Some c -> act cl (Release t pick) w = Some w' ->
  log (pool w') = log (pool w) ++ (if rollback_on_return_to_pool (config (pool w)) then [RolledBack c] else []) /\
  (exists i s s', slots (pool w) !! i = Some s /\ slots (pool w') = <[i := s']> (slots (pool w)) /\
     conn s' = Some c /\ held s = true /\ is_free s' = true) /\
  forall u x, threads w' !! u = Some x -> svchp (ctx x) <> Some c.
Proof.
  intros Hp Hw Ht Hc Ha. destruct (pool_reachable_inv cl p n w (made_ok _ _ _ Hp) Hw) as [H _].
  destruct (w_holds _ H _ _ _ Ht Hc) as (i & s & Hi & Hs & Hsc & Hh).
  simpl in Ha. rewrite Ht in Ha. simpl in Ha. destruct (at_place th); [|done..].
  unfold release_session, index_ok in Ha. rewrite Hi, Nat2Z.id, Hs in Ha.
  pose proof (lookup_lt_Some _ _ _ Hs) as Hlt.
  replace ((0 <=? Z.of_nat i) && (Z.of_nat i <? Z.of_nat (length (slots (pool w))))) with true in Ha
    by (symmetry; apply andb_true_iff; split; [apply Z.leb_le|apply Z.ltb_lt]; lia).
  cbn [negb] in Ha. injection Ha as <-. cbn [pool threads log slots]. split; [|split].
  - unfold rolling_back. by rewrite Hsc.
  - exists i, s. eexists. do 2 (split; [done|]). simpl. split; [done|]. split; [done|].
    unfold is_free, is_open. simpl. by rewrite Hsc.
  - intros u x Hu Hx. destruct (ctxs_signal pick (<[t := mk_thread wiped Running]> (threads w)) _ _ _ Hu Hx) as (y & Hy & Ey).
    rewrite <- Ey in Hx. destruct (decide (u = t)) as [->|Hne].
    + rewrite list_lookup_insert_eq in Hy by (eapply lookup_lt_Some, Ht). by injection Hy as <-.
    + rewrite list_lookup_insert_ne in Hy by done. by apply Hne, (w_alone _ H u t y th c).
Qed.

Lemma pool_release_own_witness :
  exists w w', demo_world = Some w /\ demo_released = Some w' /\
    forall u x, threads w' !! u = Some x -> svchp (ctx x) <> Some 0%nat.
Proof.
  do 2 eexists. do 2 (split; [vm_compute; reflexivity|]).
  eapply proj2, proj2.
  eapply (pool_release_own oci_flavour demo_client demo_pool 4 _ _ 0 0 _ 0 demo_made).
  - eapply (checked_acts_star _ _ demo_borrows); [apply star_refl|vm_compute; reflexivity].
  - vm_compute. reflexivity.
  - reflexivity.
  - vm_compute. reflexivity.
Defined.

(** What a health check that starts at call [n0] does to a free slot: its
    connection answered, or it is free with a new connection or none. *)
Definition checked (cl : client) (n0 : nat) (s s' : pool_slot) : Prop :=
  (s' = s /\ exists c n, conn s = Some c /\ answers cl c n = true) \/
  (state s' = POOL_SLOT_FREE /\
   (conn s' = None \/ exists n, conn s' = Some n /\ (n0 <= n)%nat)).

(** The slots in [l] were checked, the others are as they were; [lost] of
    them were lost. *)
Record health (cl : client) (n0 : nat) (l : list nat) (p p' : oci_pool_handle) (lost : Z) : Prop := {
  h_ok : pool_ok p';
  h_calls : (calls_made p <= calls_made p')%nat;
  h_lost : lost + slots_open p' = slots_open p;
  h_free i s : i ∈ l -> slots p !! i = Some s -> is_free s = true -> exists s', slots p' !! i = Some s' /\ checked cl n0 s s';
  h_rest i s : i ∉ l \/ is_free s = false -> slots p !! i = Some s -> slots p' !! i = Some s }.

Lemma check_slot_health {F : flavour} cl n0 now i p f p' f' :
  pool_ok p -> (n0 <= calls_made p)%nat -> check_slot cl now i (p, f) = (p', f') -> health cl n0 [i] p p' (f' - f).
Proof.
  intros Hok Hn E. apply check_slot_touch in E as [[-> (s & T & Hf & Hans)]|[(-> & -> & Hf)|(s & s' & T & Hf & Hst & Hcn & ->)]].
  - pose proof (touch_open _ _ _ _ _ T). constructor; [by eapply touch_ok|by apply (touch_calls _ _ _ _ _ T)|lia| |].
    + intros j x ->%list_elem_of_singleton Hx _. rewrite (touch_here _ _ _ _ _ T) in Hx. injection Hx as <-.
      exists s. split; [by eapply touch_there|by left].
    + intros j x _ Hx. rewrite (touch_slots _ _ _ _ _ T), list_insert_id; [done|by apply (touch_here _ _ _ _ _ T)].
  - constructor; [done|done|lia| |done]. intros j x ->%list_elem_of_singleton Hx Hfx. by rewrite (Hf _ Hx) in Hfx.
  - pose proof (touch_open _ _ _ _ _ T) as Ho. pose proof (touch_calls _ _ _ _ _ T).
    assert (is_open s = true) as Hos by (unfold is_free in Hf; by destruct (is_open s)). rewrite Hos in Ho.
    constructor; [by eapply touch_ok|done|destruct (is_open s'); simpl in Ho; lia| |].
    + intros j x ->%list_elem_of_singleton Hx _. rewrite (touch_here _ _ _ _ _ T) in Hx. injection Hx as <-.
      exists s'. split; [by eapply touch_there|]. right. split; [done|].
      destruct Hcn as [?|(n & Hc & Hl)]; [by left|]. right. exists n. split; [done|lia].
    + intros j x Hj Hx. destruct (decide (j = i)) as [->|Hne]; [|by rewrite (touch_other _ _ _ _ _ _ T)].
      rewrite (touch_here _ _ _ _ _ T) in Hx. injection Hx as <-. destruct Hj as [Hj|Hj]; [|congruence].
      by destruct Hj; left.
Qed.

Lemma health_cons cl n0 i l p p1 p' a b :
  i ∉ l -> health cl n0 [i] p p1 a -> health cl n0 l p1 p' b -> health cl n0 (i :: l) p p' (a + b).
Proof.
  intros Hi [A1 A2 A3 A4 A5] [B1 B2 B3 B4 B5]. constructor; [done|lia|lia| |].
  - intros j s Hj Hs Hf. destruct (decide (j = i)) as [->|Hne].
    + destruct (A4 i s) as (s' & Hs' & Hc); [by left|done..|]. exists s'. split; [|done]. apply B5; [by left|done].
    + apply elem_of_cons in Hj as [?|Hj]; [done|]. eapply B4; [done| |done].
      apply A5; [|done]. left. by intros ->%list_elem_of_singleton.
  - intros j s Hj Hs. apply B5; [|apply A5; [|done]].
    + destruct Hj as [Hj|Hj]; [|by right]. left. intros Hin. apply Hj. by right.
    + destruct Hj as [Hj|Hj]; [|by right]. left. intros ->%list_elem_of_singleton. apply Hj. by left.
Qed.

Lemma health_fold {F : flavour} cl n0 now l : forall p f,
  base.NoDup l -> pool_ok p -> (n0 <= calls_made p)%nat ->
  let '(p', f') := foldl (fun pf i => check_slot cl now i pf) (p, f) l in health cl n0 l p p' (f' - f).
Proof.
  induction l as [|i l IH]; intros p f Hnd Hok Hn; cbn [foldl].
  { constructor; [done|done|lia| |done]. intros i s Hi. by apply not_elem_of_nil in Hi. }
  inversion Hnd as [|? ? Hi Hnd']; subst. destruct (check_slot cl now i (p, f)) as [p1 f1] eqn:E.
  pose proof (check_slot_health cl n0 _ _ _ _ _ _ Hok Hn E) as H1. pose proof (h_calls _ _ _ _ _ _ H1).
  specialize (IH p1 f1 Hnd' (h_ok _ _ _ _ _ _ H1) ltac:(lia)). destruct (foldl _ _ _) as [p' f'].
  replace (f' - f) with ((f1 - f) + (f' - f1)) by lia. by eapply health_cons.
Qed.

(** The health check leaves borrowed and closed slots alone; every other
    slot it leaves free, with the connection that answered, with a new one, or
    closed; what it returns is the number of slots it lost. *)
Theorem health_check_spec (F : flavour) (cl : client) (p : oci_pool_handle) :
  pool_ok p ->
  let '(p', failures) := health_check cl p in
  pool_ok p' /\ failures = slots_open p - slots_open p' /\
  forall i s, slots p !! i = Some s ->
    if is_free s then exists s', slots p' !! i = Some s' /\ checked cl (calls_made p) s s'
    else slots p' !! i = Some s.
Proof.
  unfold health_check. intros Hok.
  pose proof (health_fold cl (calls_made p) (clock cl (calls_made p)) (seq 0 (length (slots p))) p 0
                (NoDup_seq _ _) Hok ltac:(lia)) as H.
  destruct (foldl _ _ _) as [p' f']. destruct H as [H1 H2 H3 H4 H5]. split; [done|]. split; [lia|].
  intros i s Hs. destruct (is_free s) eqn:Ef; [|apply H5; auto].
  apply H4; [|done..]. apply elem_of_seq. apply lookup_lt_Some in Hs. lia.
Qed.

(** Both connections are free; number 1 is dead and its slot cannot be
    reopened. *)
Definition demo_dead : client := mk_client (fun n => (n <? 2)%nat) (fun c _ => (c =? 0)%nat) (fun c _ => (c =? 0)%nat) Z.of_nat.

Lemma health_check_spec_witness :
  exists p', OCI_Pool_health_check demo_dead demo_pool = (p', 1) /\ slots_open p' = 1 /\ pool_ok p'.
Proof.
  eexists. split; [vm_compute; reflexivity|]. split; [reflexivity|].
  exact (proj1 (health_check_spec oci_flavour demo_dead demo_pool (made_ok _ _ _ demo_made))).
Defined.

(** Creating a pool is all or nothing - with every mandatory slot open,
    or with every connection that was opened closed again.  SQL Server's never
    leaves its array; Oracle's can, but only when the configured minimum
    exceeds the maximum and an attempt is allowed. *)
Theorem connect_all_or_nothing (cl : client) (ready : bool) (ini : pool_ini) :
  let cfg := OCI_pool_config ini in
  match MSSQL_Connect_pool cl ready ini with
  | Connected p => pool_ok p /\ slots_open p = Z.min (pool_min_size cfg) (pool_max_size cfg)
  | Refused events => forall c, In (Opened c) events -> In (Closed c) events
  | OutOfBounds => False
  end /\
  match OCI_Connect_pool cl ready ini with
  | Connected p => pool_ok p /\ slots_open p = pool_min_size cfg /\ pool_min_size cfg <= pool_max_size cfg
  | Refused events => forall c, In (Opened c) events -> In (Closed c) events
  | OutOfBounds => pool_max_size cfg < pool_min_size cfg /\ 0 < retries_on_connection_failure cfg
  end.
Proof.
  assert (forall n d, 0 < d -> 0 < pos_or_default n d) as Hpos
    by (intros n d; unfold pos_or_default; destruct (0 <? n) eqn:E; [apply Z.ltb_lt in E|]; lia).
  pose proof (Hpos (ini_min_size ini) 1 ltac:(lia)). pose proof (Hpos (ini_max_size ini) 10 ltac:(lia)).
  cbv zeta. split.
  - unfold MSSQL_Connect_pool. destruct ready; [|simpl; by intros c []]. cbn [negb]. cbv zeta.
    pose proof (open_new_pool cl (F := mssql_flavour) (Z.to_nat (mssql_attempts (MSSQL_pool_config ini)))
                  (Z.to_nat (pool_min_size (MSSQL_pool_config ini))) (MSSQL_pool_config ini)) as Ho.
    assert (pool_min_size (MSSQL_pool_config ini) =
            Z.min (pool_min_size (OCI_pool_config ini)) (pool_max_size (OCI_pool_config ini))) as Hmin.
    { unfold MSSQL_pool_config. cbn [pool_min_size].
      destruct (pool_max_size (OCI_pool_config ini) <? pool_min_size (OCI_pool_config ini)) eqn:E;
        [apply Z.ltb_lt in E|apply Z.ltb_ge in E]; lia. }
    assert (pool_max_size (MSSQL_pool_config ini) = pool_max_size (OCI_pool_config ini)) as Hmax by done.
    destruct (open_minimum _ _ _ _) as [p|events|]; [|done|].
    + destruct Ho as (Hok & _ & Hn & _). split; [done|]. simpl in *. lia.
    + simpl in *. lia.
  - unfold OCI_Connect_pool. destruct (_ && _); [simpl; by intros c []|]. destruct ready; [|simpl; by intros c []]. cbn [negb]. cbv zeta.
    pose proof (open_new_pool cl (F := oci_flavour) (Z.to_nat (retries_on_connection_failure (OCI_pool_config ini)))
                  (Z.to_nat (pool_min_size (OCI_pool_config ini))) (OCI_pool_config ini)) as Ho.
    destruct (open_minimum _ _ _ _) as [p|events|]; [|done|].
    + destruct Ho as (Hok & _ & Hn & Hl). split; [done|]. simpl in *. lia.
    + simpl in *. lia.
Qed.

(** The minimum above the maximum: the slot behind the array is opened. *)
Example connect_past_the_array :
  OCI_Connect_pool demo_client true (mk_pool_ini false [] 3 2 3600 1 true true) = OutOfBounds.
Proof. vm_compute. reflexivity. Qed.

(** The database refuses every attempt after the first two. *)
Definition demo_refuses : client := mk_client (fun n => (n <? 2)%nat) (fun c n => negb ((c =? 1) && (4 <=? n))%nat) (fun c _ => (c =? 0)%nat) Z.of_nat.

(** A failed reconnect leaves the context wiped, with 0 for the index of
    its slot.  In the Oracle pool a worker's next reconnect then releases slot
    0 of another worker, rolls its transaction back and borrows it: two
    threads have one session.  The SQL Server pool closes only the caller's
    own connection, but the release at the end of the thread frees slot 0. *)
Theorem failed_reconnect_shares_session :
  (exists w th0 th1,
    acts demo_client (F := oci_flavour)
      ([Get 0 0; Get 1 0] ++ OCI_Pool_reconnect_session 1 0 ++ OCI_Pool_reconnect_session 1 0)%nat (start demo_pool 2) = Some w /\
    threads w !! 0%nat = Some th0 /\ threads w !! 1%nat = Some th1 /\ ctx th0 = ctx th1 /\
    svchp (ctx th0) = Some 0%nat /\ In (RolledBack 0) (log (pool w))) /\
  (exists w th0 s,
    acts demo_refuses (F := mssql_flavour)
      ([Get 0 0; Get 1 0] ++ MSSQL_Pool_reconnect_session 1 0 ++ [Expire 1; Resume 1 0; Release 1 0])%nat (start demo_pool 2) = Some w /\
    threads w !! 0%nat = Some th0 /\ svchp (ctx th0) = Some 0%nat /\ slots (pool w) !! 0%nat = Some s /\
    conn s = Some 0%nat /\ state s = POOL_SLOT_FREE /\ In (RolledBack 0) (log (pool w))).
Proof. split; do 3 eexists; repeat (split; [vm_compute; reflexivity|]); vm_compute; tauto. Qed.
