(* ===== verification/MssqlText.v ===== *)
(** * MssqlText: execute/mssql_text.c and the diagnostics of infra/MSSQL_Pool.c

    Text crosses the ODBC driver as UTF-16.  [utf8_to_wide] turns a statement
    into code units; [diag_utf16_to_utf8] turns a message of the server back,
    and [mssql_diag] joins the messages into one bounded buffer.  A byte is an
    [ascii] as everywhere, a [SQLWCHAR] a [Z] below 2^16; the library's
    records are an argument. *)

From Stdlib Require Import Ascii String ZArith Lia Bool.
From stdpp Require Import base list strings numbers.
From S2P Require Import Prelude Text.

#[local] Open Scope Z_scope.

(** ** UTF-8 to UTF-16 *)

(** U+FFFD, for whatever cannot be decoded. *)
Definition REPLACEMENT : Z := 0xFFFD.

(** The continuation bytes: [None] when one is not. *)
Fixpoint cont_bytes (cp : Z) (l : list ascii) : option Z :=
  match l with
  | [] => Some cp
  | c :: l' =>
      if Z.land (code c) 0xC0 =? 0x80 then cont_bytes (Z.lor (Z.shiftl cp 6) (Z.land (code c) 0x3F)) l'
      else None
  end.

(** The lead byte: the bits it contributes and the length it announces. *)
Definition lead_byte (c : Z) : Z * nat :=
  if c <? 0x80 then (c, 1%nat)
  else if Z.land c 0xE0 =? 0xC0 then (Z.land c 0x1F, 2%nat)
  else if Z.land c 0xF0 =? 0xE0 then (Z.land c 0x0F, 3%nat)
  else if Z.land c 0xF8 =? 0xF0 then (Z.land c 0x07, 4%nat)
  else (REPLACEMENT, 1%nat).

(** The code point at [p[i]] and the bytes it takes; [s] is the text from
    there on. *)
Definition decode_at (s : list ascii) : Z * nat :=
  match s with
  | [] => (REPLACEMENT, 1%nat)
  | c :: rest =>
      let '(cp, len) := lead_byte (code c) in
      if (len <=? 1)%nat then (cp, len)
      else if (length s <? len)%nat then (REPLACEMENT, 1%nat)
      else match cont_bytes cp (take (len - 1) rest) with
           | Some cp => (cp, len)
           | None => (REPLACEMENT, 1%nat)
           end
  end.

Definition is_surrogate (cp : Z) : bool := (0xD800 <=? cp) && (cp <=? 0xDFFF).

(** One code point as one or two code units. *)
Definition wide_units (cp : Z) : list Z :=
  let cp := if (0x10FFFF <? cp) || is_surrogate cp then REPLACEMENT else cp in
  if 0x10000 <=? cp then
    [0xD800 + Z.shiftr (cp - 0x10000) 10; 0xDC00 + Z.land (cp - 0x10000) 0x3FF]
  else [cp].

Fixpoint wide_loop (fuel : nat) (s : list ascii) : list Z :=
  match fuel, s with
  | S f, _ :: _ => let '(cp, len) := decode_at s in wide_units cp ++ wide_loop f (drop len s)
  | _, _ => []
  end.

(** [None]: no memory.  The terminating 0 is not part of the list. *)
Definition utf8_to_wide (al : bool) (s : list ascii) : option (list Z) :=
  if al then Some (wide_loop (length s) s) else None.

(** [mssql_prepare_utf8] and [mssql_exec_direct_utf8] pass the units to the
    library, which reads them up to the first 0 ([SQL_NTS]). *)
Fixpoint up_to_nul (w : list Z) : list Z :=
  match w with
  | u :: w' => if u =? 0 then [] else u :: up_to_nul w'
  | [] => []
  end.

Definition mssql_prepare_utf8 {R : Type} (sql_error : R) (prepare : list Z -> R) (al : bool) (sql : option (list ascii)) : R :=
  match utf8_to_wide al (default [] sql) with
  | None => sql_error
  | Some w => prepare (up_to_nul w)
  end.

(** ** UTF-16 to UTF-8 *)

(** The bytes of one code point. *)
Definition utf8_bytes (cp : Z) : list ascii :=
  if cp <? 0x80 then [chr cp]
  else if cp <? 0x800 then [chr (Z.lor 0xC0 (Z.shiftr cp 6)); chr (Z.lor 0x80 (Z.land cp 0x3F))]
  else if cp <? 0x10000 then
    [chr (Z.lor 0xE0 (Z.shiftr cp 12)); chr (Z.lor 0x80 (Z.land (Z.shiftr cp 6) 0x3F));
     chr (Z.lor 0x80 (Z.land cp 0x3F))]
  else
    [chr (Z.lor 0xF0 (Z.shiftr cp 18)); chr (Z.lor 0x80 (Z.land (Z.shiftr cp 12) 0x3F));
     chr (Z.lor 0x80 (Z.land (Z.shiftr cp 6) 0x3F)); chr (Z.lor 0x80 (Z.land cp 0x3F))].

(** The code point at [w[i]] and the units it takes; a lone surrogate is
    replaced. *)
Definition unit_at (u : Z) (rest : list Z) : Z * nat :=
  let pair :=
    match rest with
    | v :: _ =>
        if (0xD800 <=? u) && (u <=? 0xDBFF) && (0xDC00 <=? v) && (v <=? 0xDFFF)
        then Some (0x10000 + Z.shiftl (u - 0xD800) 10 + (v - 0xDC00)) else None
    | [] => None
    end in
  match pair with
  | Some cp => (cp, 2%nat)
  | None => if is_surrogate u then (REPLACEMENT, 1%nat) else (u, 1%nat)
  end.

(** [o] is the number of bytes already written. *)
Fixpoint diag_loop (fuel : nat) (w : list Z) (o out_size : nat) : list ascii :=
  match fuel, w with
  | S f, u :: rest =>
      if u =? 0 then []
      else
        let '(cp, len) := unit_at u rest in
        let b := utf8_bytes cp in
        if (out_size <=? o + length b)%nat then []
        else b ++ diag_loop f (drop len w) (o + length b) out_size
  | _, _ => []
  end.

Definition diag_utf16_to_utf8 (w : list Z) (out_size : nat) : list ascii := diag_loop (length w) w 0 out_size.

(** ** The diagnostic text *)

(** One record of [SQLGetDiagRecW]: the state, the native error and the
    message with the length the call reports. *)
Record diag_record := mk_diag {
  wstate : list Z;
  native : Z;
  wmsg : list Z;
  wmsg_len : Z }.

(** "Drop every leading [...] group", then blanks. *)
Fixpoint after_groups (fuel : nat) (text : list ascii) : list ascii :=
  match fuel, text with
  | S f, c :: _ =>
      if Ascii.eqb c "[" then
        match split_at "]"%char text with
        | Some (_, rest) => after_groups f rest
        | None => text
        end
      else text
  | _, _ => text
  end.
Definition diag_message (text : list ascii) : list ascii :=
  skip (fun c => Ascii.eqb c " ") (after_groups (length text) text).

Definition WMSG_MAX : Z := 1024.
Definition MSG_MAX : nat := 3072.

(** The text of one record. *)
Definition diag_text (first : bool) (r : diag_record) : list ascii :=
  let wlen := if wmsg_len r <? 0 then 0
              else if WMSG_MAX - 1 <? wmsg_len r then WMSG_MAX - 1 else wmsg_len r in
  let msg := diag_utf16_to_utf8 (take (Z.to_nat wlen) (wmsg r)) MSG_MAX in
  let state := span (fun c => negb (code c =? 0)) (map (fun u => chr (Z.land u 0x7F)) (take 5 (wstate r))) in
  (if first then [] else str " | ") ++ str "SQLSTATE " ++ state ++ str " [native " ++
  print_int (native r) ++ str "]: " ++ diag_message msg.

(** [out] was filled to [out_size - 1] characters: a character cut short at
    its end is dropped.  [s] is the text reversed, [n] the continuation bytes
    passed over. *)
Definition is_cont (c : ascii) : bool := Z.land (code c) 0xC0 =? 0x80.

Definition cut_partial (out : list ascii) : list ascii :=
  match skip is_cont (rev out) with
  | [] => out
  | lead :: before =>
      let need := if 0xF0 <=? code lead then 4 else if 0xE0 <=? code lead then 3
                  else if 0xC0 <=? code lead then 2 else 1 in
      if Z.of_nat (length out) <? Z.of_nat (length before) + need then rev before else out
  end.

Fixpoint diag_records (out_size : nat) (out : list ascii) (rs : list diag_record) : list ascii :=
  match rs with
  | [] => out
  | r :: rs' =>
      let piece := diag_text (match out with [] => true | _ => false end) r in
      if (out_size - length out <=? length piece)%nat
      then cut_partial (out ++ take (out_size - length out - 1) piece)
      else diag_records out_size (out ++ piece) rs'
  end.

(** At most 19 records; [None] is a null handle. *)
Definition mssql_diag (records : option (list diag_record)) (out_size : nat) : list ascii :=
  match records with
  | None => []
  | Some rs => diag_records out_size [] (take 19 rs)
  end.

(** ** Bits of one byte, by cases *)

(** A fact about the integers below [n] is checked on each of them. *)
Lemma below (n : nat) (P : Z -> bool) (x : Z) :
  forallb P (map Z.of_nat (seq 0 n)) = true -> 0 <= x < Z.of_nat n -> P x = true.
Proof.
  intros H Hx. rewrite forallb_forall in H. apply H, in_map_iff. exists (Z.to_nat x).
  split; [lia|]. apply in_seq. lia.
Qed.

Lemma lead_1 x : 0 <= x < 128 -> lead_byte x = (x, 1%nat).
Proof. intros H. unfold lead_byte. destruct (Z.ltb_spec x 0x80); [done|lia]. Qed.

Definition lead_ok (tag : Z) (len : nat) (x : Z) : bool :=
  (Z.lor tag x =? tag + x) && bool_decide (lead_byte (tag + x) = (x, len)).

Lemma lead_2 x : 0 <= x < 32 -> lead_ok 0xC0 2 x = true.
Proof. apply (below 32 (lead_ok 0xC0 2)). vm_compute. reflexivity. Qed.
Lemma lead_3 x : 0 <= x < 16 -> lead_ok 0xE0 3 x = true.
Proof. apply (below 16 (lead_ok 0xE0 3)). vm_compute. reflexivity. Qed.
Lemma lead_4 x : 0 <= x < 8 -> lead_ok 0xF0 4 x = true.
Proof. apply (below 8 (lead_ok 0xF0 4)). vm_compute. reflexivity. Qed.

Lemma cont_ok x : 0 <= x < 64 ->
  Z.lor 0x80 x = 0x80 + x /\ Z.land (0x80 + x) 0xC0 = 0x80 /\ Z.land (0x80 + x) 0x3F = x.
Proof.
  intros H. assert ((Z.lor 0x80 x =? 0x80 + x) && (Z.land (0x80 + x) 0xC0 =? 0x80) && (Z.land (0x80 + x) 0x3F =? x) = true) as E
    by (apply (below 64 (fun x => (Z.lor 0x80 x =? 0x80 + x) && (Z.land (0x80 + x) 0xC0 =? 0x80) && (Z.land (0x80 + x) 0x3F =? x)));
        [vm_compute; reflexivity|lia]).
  bools. done.
Qed.

Lemma lor_shift a b k : 0 <= k -> 0 <= b < 2 ^ k -> Z.lor (Z.shiftl a k) b = a * 2 ^ k + b.
Proof.
  intros Hk Hb. pose proof (Z.add_lor_land (Z.shiftl a k) b) as H.
  assert (Z.land (Z.shiftl a k) b = 0) as E.
  { replace b with (Z.land b (Z.ones k)) by (rewrite Z.land_ones by done; by apply Z.mod_small).
    rewrite Z.land_comm, <- Z.land_assoc, (Z.land_comm (Z.ones k)), Z.land_ones by done.
    rewrite Z.shiftl_mul_pow2, Z.mod_mul by lia. by rewrite Z.land_0_r. }
  rewrite Z.shiftl_mul_pow2 in * by done. lia.
Qed.

Lemma low6 x : Z.land x 0x3F = x mod 64.
Proof. change 0x3F with (Z.ones 6). by rewrite Z.land_ones. Qed.

(** ** Decoding what was encoded *)

(** The scalar values of Unicode but NUL, which ends a C string. *)
Definition scalar (cp : Z) : Prop := 0 < cp <= 0x10FFFF /\ is_surrogate cp = false.

Lemma cont_byte cp x l :
  0 <= x < 64 -> cont_bytes cp (chr (Z.lor 0x80 x) :: l) = cont_bytes (cp * 64 + x) l.
Proof.
  intros H. destruct (cont_ok x H) as (E1 & E2 & E3). cbn [cont_bytes].
  rewrite E1, code_chr, E2, E3, lor_shift by lia. done.
Qed.

Lemma decode_multi tag len x bs rest cp :
  lead_ok tag len x = true -> 0 <= x -> tag + x < 256 -> 0 <= tag -> (1 < len)%nat -> length bs = (len - 1)%nat ->
  cont_bytes x bs = Some cp ->
  decode_at (chr (Z.lor tag x) :: bs ++ rest) = (cp, len).
Proof.
  unfold lead_ok. intros Hl Hx Ht Ht' Hlen Hbs Hc. bools.
  match goal with H : lead_byte _ = _ |- _ => rename H into E end.
  match goal with H : Z.lor _ _ = _ |- _ => rewrite H end.
  unfold decode_at. rewrite code_chr, E by lia.
  destruct (Nat.leb_spec len 1); [lia|]. cbn [length]. rewrite length_app.
  destruct (Nat.ltb_spec (S (length bs + length rest)) len); [lia|].
  rewrite <- Hbs, take_app_length, Hc. done.
Qed.

Lemma mod64_bounds x : 0 <= x mod 64 < 64.
Proof. apply Z.mod_pos_bound. lia. Qed.

(** The bytes of a code point decode to it, whatever follows. *)
Lemma decode_bytes cp rest : scalar cp -> decode_at (utf8_bytes cp ++ rest) = (cp, length (utf8_bytes cp)).
Proof.
  intros [H _]. unfold utf8_bytes. rewrite !low6, !Z.shiftr_div_pow2 by lia.
  change (2 ^ 6) with 64. change (2 ^ 12) with 4096. change (2 ^ 18) with 262144.
  destruct (Z.ltb_spec cp 0x80); [|destruct (Z.ltb_spec cp 0x800); [|destruct (Z.ltb_spec cp 0x10000)]].
  - cbn [app decode_at length]. rewrite code_chr, lead_1 by lia. done.
  - assert (0 <= cp / 64 < 32) by (split; [apply Z.div_pos|apply Z.div_lt_upper_bound]; lia).
    apply (decode_multi 0xC0 2 (cp / 64) [_]); try lia; [by apply lead_2|done|].
    rewrite cont_byte by apply mod64_bounds. cbn [cont_bytes]. f_equal. pose proof (Z.div_mod cp 64). lia.
  - assert (0 <= cp / 4096 < 16) by (split; [apply Z.div_pos|apply Z.div_lt_upper_bound]; lia).
    apply (decode_multi 0xE0 3 (cp / 4096) [_; _]); try lia; [by apply lead_3|done|].
    rewrite !cont_byte by apply mod64_bounds. cbn [cont_bytes]. f_equal.
    pose proof (Z.div_mod cp 64). pose proof (Z.div_mod (cp / 64) 64).
    replace (cp / 4096) with (cp / 64 / 64) by (rewrite Z.div_div by lia; reflexivity). lia.
  - assert (0 <= cp / 262144 < 8) by (split; [apply Z.div_pos|apply Z.div_lt_upper_bound]; lia).
    apply (decode_multi 0xF0 4 (cp / 262144) [_; _; _]); try lia; [by apply lead_4|done|].
    rewrite !cont_byte by apply mod64_bounds. cbn [cont_bytes]. f_equal.
    pose proof (Z.div_mod cp 64). pose proof (Z.div_mod (cp / 64) 64). pose proof (Z.div_mod (cp / 64 / 64) 64).
    replace (cp / 262144) with (cp / 64 / 64 / 64) by (rewrite !Z.div_div by lia; reflexivity).
    replace (cp / 4096) with (cp / 64 / 64) by (rewrite Z.div_div by lia; reflexivity). lia.
Qed.

Lemma utf8_bytes_length cp : (1 <= length (utf8_bytes cp) <= 4)%nat.
Proof. unfold utf8_bytes. repeat (destruct (_ <? _)); simpl; lia. Qed.

(** The code units of a scalar value, written as arithmetic. *)
Definition utf16 (cp : Z) : list Z :=
  if cp <? 0x10000 then [cp] else [0xD800 + (cp - 0x10000) / 1024; 0xDC00 + (cp - 0x10000) mod 1024].

Lemma wide_units_scalar cp : scalar cp -> wide_units cp = utf16 cp.
Proof.
  intros [H1 H2]. unfold wide_units, utf16. rewrite H2. destruct (Z.ltb_spec 0x10FFFF cp); [lia|]. cbn [orb].
  rewrite Z.shiftr_div_pow2 by lia. change 0x3FF with (Z.ones 10). rewrite Z.land_ones by lia. change (2 ^ 10) with 1024.
  destruct (Z.leb_spec 0x10000 cp), (Z.ltb_spec cp 0x10000); (lia || done).
Qed.

Lemma wide_loop_nil fuel : wide_loop fuel [] = [].
Proof. by destruct fuel. Qed.

Lemma wide_loop_scalars cps : forall fuel,
  Forall scalar cps -> (length (concat (map utf8_bytes cps)) <= fuel)%nat ->
  wide_loop fuel (concat (map utf8_bytes cps)) = concat (map utf16 cps).
Proof.
  induction cps as [|cp cps IH]; intros fuel H Hf; simpl; [apply wide_loop_nil|].
  inversion H as [|? ? Hs Hr]; subst. simpl in Hf. rewrite length_app in Hf. pose proof (utf8_bytes_length cp).
  pose proof (decode_bytes cp (concat (map utf8_bytes cps)) Hs) as Hd.
  destruct fuel as [|fuel]; [lia|].
  destruct (utf8_bytes cp ++ concat (map utf8_bytes cps)) as [|c s] eqn:E.
  { apply (f_equal length) in E. rewrite length_app in E. simpl in E. lia. }
  cbn [wide_loop]. rewrite Hd, <- E, drop_app_length, wide_units_scalar by done.
  f_equal. apply IH; [done|lia].
Qed.

(** ** Encoding what was decoded *)

Lemma unit_at_utf16 cp rest : scalar cp ->
  exists u us, utf16 cp = u :: us /\ u <> 0 /\ unit_at u (us ++ rest) = (cp, length (utf16 cp)).
Proof.
  intros [H1 H2]. unfold is_surrogate in H2. unfold utf16. destruct (Z.ltb_spec cp 0x10000).
  - exists cp, []. split; [done|]. split; [lia|]. unfold unit_at, is_surrogate. cbn [app]. rewrite H2.
    assert ((0xD800 <=? cp) && (cp <=? 0xDBFF) = false) as E
      by (apply andb_false_iff in H2 as [H2|H2]; apply andb_false_iff; [left; done|right; apply Z.leb_gt in H2; apply Z.leb_gt; lia]).
    destruct rest as [|v rest]; [done|]. by rewrite E.
  - pose proof (Z.div_mod (cp - 0x10000) 1024). pose proof (Z.mod_pos_bound (cp - 0x10000) 1024).
    assert (0 <= (cp - 0x10000) / 1024 < 1024) by (split; [apply Z.div_pos|apply Z.div_lt_upper_bound]; lia).
    eexists _, [_]. split; [done|]. split; [lia|]. unfold unit_at. cbn [app].
    repeat (match goal with |- context [?a <=? ?b] => destruct (Z.leb_spec a b); [|lia] end). cbn [andb].
    rewrite Z.shiftl_mul_pow2 by lia. f_equal. change (2 ^ 10) with 1024. lia.
Qed.

(** The characters that fit behind the first [o] bytes. *)
Fixpoint fitting (o out_size : nat) (cps : list Z) : list Z :=
  match cps with
  | [] => []
  | cp :: cps' =>
      if (out_size <=? o + length (utf8_bytes cp))%nat then []
      else cp :: fitting (o + length (utf8_bytes cp)) out_size cps'
  end.

Lemma diag_loop_scalars cps : forall fuel o size,
  Forall scalar cps -> (length (concat (map utf16 cps)) <= fuel)%nat ->
  diag_loop fuel (concat (map utf16 cps)) o size = concat (map utf8_bytes (fitting o size cps)).
Proof.
  induction cps as [|cp cps IH]; intros fuel o size H Hf; cbn [map concat fitting]; [by destruct fuel|].
  inversion H as [|? ? Hs Hr]; subst. destruct (unit_at_utf16 cp (concat (map utf16 cps)) Hs) as (u & us & E & Hu & Hd).
  cbn [map concat] in Hf. rewrite length_app in Hf. rewrite E in *. cbn [app length] in *.
  destruct fuel as [|fuel]; [lia|]. cbn [diag_loop]. destruct (Z.eqb_spec u 0); [done|]. rewrite Hd.
  destruct (_ <=? _)%nat; [done|]. cbn [map concat]. f_equal.
  change (drop (S (length us)) (u :: us ++ concat (map utf16 cps))) with (drop (length us) (us ++ concat (map utf16 cps))).
  rewrite drop_app_length. apply IH; [done|lia].
Qed.

Lemma fitting_all cps : forall o size,
  (o + length (concat (map utf8_bytes cps)) < size)%nat -> fitting o size cps = cps.
Proof.
  induction cps as [|cp cps IH]; intros o size H; cbn [map concat fitting] in *; [done|].
  rewrite length_app in H. destruct (Nat.leb_spec size (o + length (utf8_bytes cp))); [lia|].
  f_equal. apply IH. lia.
Qed.

Definition utf8_text (cps : list Z) : list ascii := concat (map utf8_bytes cps).
Definition utf16_text (cps : list Z) : list Z := concat (map utf16 cps).

Definition is_unit (u : Z) : Prop := 0 <= u < 2 ^ 16.

Lemma utf16_units cp : scalar cp -> Forall (fun u => is_unit u /\ u <> 0) (utf16 cp).
Proof.
  intros [H _]. unfold utf16, is_unit. destruct (Z.ltb_spec cp 0x10000); [repeat constructor; lia|].
  pose proof (Z.mod_pos_bound (cp - 0x10000) 1024).
  assert (0 <= (cp - 0x10000) / 1024 < 1024) by (split; [apply Z.div_pos|apply Z.div_lt_upper_bound]; lia).
  repeat constructor; lia.
Qed.

Lemma up_to_nul_id w : Forall (fun u => u <> 0) w -> up_to_nul w = w.
Proof. induction 1 as [|u w Hu _ IH]; simpl; [done|]. destruct (Z.eqb_spec u 0); [done|]. by rewrite IH. Qed.

Lemma utf16_text_units cps : Forall scalar cps -> Forall (fun u => is_unit u /\ u <> 0) (utf16_text cps).
Proof.
  unfold utf16_text. induction 1 as [|cp cps Hs _ IH]; simpl; [constructor|].
  apply Forall_app. split; [by apply utf16_units|done].
Qed.

(** ** Whole characters *)

Definition whole (s : list ascii) : Prop := exists cps, Forall scalar cps /\ s = utf8_text cps.

Lemma whole_nil : whole [].
Proof. by exists []. Qed.

Lemma whole_app a b : whole a -> whole b -> whole (a ++ b).
Proof.
  intros (x & Hx & ->) (y & Hy & ->). exists (x ++ y). split; [by apply Forall_app|].
  unfold utf8_text. by rewrite map_app, concat_app.
Qed.

Lemma unit_at_scalar u rest :
  is_unit u -> u <> 0 -> scalar (fst (unit_at u rest)) /\ (1 <= snd (unit_at u rest) <= 2)%nat.
Proof.
  unfold is_unit. intros Hu H0.
  assert (forall x, scalar (fst (if is_surrogate u then (REPLACEMENT, 1%nat) else (u, 1%nat))) /\
                    (1 <= snd (if is_surrogate u then (REPLACEMENT, 1%nat) else (u, 1%nat)) <= x + 2)%nat) as Hone.
  { intros x. destruct (is_surrogate u) eqn:E; simpl; (split; [|lia]).
    - split; [unfold REPLACEMENT; lia|done].
    - split; [lia|done]. }
  unfold unit_at. destruct rest as [|v rest]; [apply (Hone 0%nat)|].
  destruct ((0xD800 <=? u) && (u <=? 0xDBFF) && (0xDC00 <=? v) && (v <=? 0xDFFF)) eqn:E; [|apply (Hone 0%nat)].
  bools. cbn [fst snd]. rewrite Z.shiftl_mul_pow2 by lia. change (2 ^ 10) with 1024. split; [|lia]. split; [lia|].
  unfold is_surrogate. apply andb_false_iff. right. apply Z.leb_gt. lia.
Qed.

(** Whatever the units are, the text has whole characters and fits. *)
Lemma diag_loop_whole fuel : forall w o size,
  Forall is_unit w -> whole (diag_loop fuel w o size) /\
  ((o < size)%nat -> (o + length (diag_loop fuel w o size) < size)%nat).
Proof.
  induction fuel as [|fuel IH]; intros w o size Hw; cbn [diag_loop]; [split; [apply whole_nil|simpl; lia]|].
  destruct w as [|u rest]; [split; [apply whole_nil|simpl; lia]|]. inversion Hw as [|? ? Hu Hr]; subst.
  destruct (Z.eqb_spec u 0); [split; [apply whole_nil|simpl; lia]|].
  destruct (unit_at_scalar u rest Hu n) as [Hs Hl]. destruct (unit_at u rest) as [cp len]. cbn [fst snd] in *.
  destruct (Nat.leb_spec size (o + length (utf8_bytes cp))); [split; [apply whole_nil|simpl; lia]|].
  destruct (IH (drop len (u :: rest)) (o + length (utf8_bytes cp))%nat size ltac:(by apply Forall_drop)) as [H1 H2].
  split.
  - apply whole_app; [|done]. exists [cp]. split; [by apply Forall_singleton|]. unfold utf8_text. simpl. by rewrite app_nil_r.
  - intros _. rewrite length_app. specialize (H2 ltac:(lia)). lia.
Qed.

Definition need_of (lead : ascii) : Z :=
  if 0xF0 <=? code lead then 4 else if 0xE0 <=? code lead then 3 else if 0xC0 <=? code lead then 2 else 1.

Lemma lead_not_cont (n : nat) tag x :
  forallb (fun x => negb (Z.land (Z.lor tag x) 0xC0 =? 0x80)) (map Z.of_nat (seq 0 n)) = true ->
  0 <= x < Z.of_nat n -> 0 <= Z.lor tag x < 256 -> is_cont (chr (Z.lor tag x)) = false.
Proof.
  intros H Hx Hb. unfold is_cont. rewrite code_chr by done. apply negb_true_iff.
  exact (below n (fun x => negb (Z.land (Z.lor tag x) 0xC0 =? 0x80)) x H Hx).
Qed.

Lemma cont_is_cont x : 0 <= x < 64 -> is_cont (chr (Z.lor 0x80 x)) = true.
Proof.
  intros H. destruct (cont_ok x H) as (E1 & E2 & _). unfold is_cont. rewrite E1, code_chr by lia. by rewrite E2.
Qed.

(** A character is a lead byte that announces its length, then continuation
    bytes. *)
Lemma utf8_shape cp : scalar cp ->
  exists lead conts, utf8_bytes cp = lead :: conts /\ is_cont lead = false /\
    Forall (fun c => is_cont c = true) conts /\ need_of lead = Z.of_nat (S (length conts)) /\
    (code lead < 128 -> conts = []).
Proof.
  intros [H _]. unfold utf8_bytes. rewrite !low6, !Z.shiftr_div_pow2 by lia.
  change (2 ^ 6) with 64. change (2 ^ 12) with 4096. change (2 ^ 18) with 262144.
  assert (forall tag len n x, lead_ok tag len x = true -> 0 <= tag -> 0 <= x < Z.of_nat n -> tag + Z.of_nat n <= 256 ->
            code (chr (Z.lor tag x)) = tag + x /\ 0 <= Z.lor tag x < 256) as Hlead.
  { unfold lead_ok. intros tag len n x Hl Ht Hx Hn. bools.
    match goal with H : Z.lor _ _ = _ |- _ => rewrite H end. rewrite code_chr by lia. lia. }
  destruct (Z.ltb_spec cp 0x80); [|destruct (Z.ltb_spec cp 0x800); [|destruct (Z.ltb_spec cp 0x10000)]]; eexists _, _; (split; [done|]).
  - unfold is_cont, need_of. rewrite !code_chr by lia.
    assert (negb (Z.land cp 0xC0 =? 0x80) = true) as E
      by (apply (below 128 (fun cp => negb (Z.land cp 0xC0 =? 0x80))); [vm_compute; reflexivity|lia]).
    apply negb_true_iff in E. split; [done|]. split; [constructor|]. split; [|done].
    destruct (Z.leb_spec 0xF0 cp); [lia|]. destruct (Z.leb_spec 0xE0 cp); [lia|]. destruct (Z.leb_spec 0xC0 cp); [lia|done].
  - assert (0 <= cp / 64 < 32) as Hx by (split; [apply Z.div_pos|apply Z.div_lt_upper_bound]; lia).
    destruct (Hlead 0xC0 2%nat 32%nat _ (lead_2 _ Hx)) as [E Hb]; [lia..|].
    split; [by apply (lead_not_cont 32); [vm_compute; reflexivity|..]|].
    split; [repeat constructor; apply cont_is_cont, mod64_bounds|]. unfold need_of. rewrite E.
    destruct (Z.leb_spec 0xF0 (0xC0 + cp / 64)); [lia|]. destruct (Z.leb_spec 0xE0 (0xC0 + cp / 64)); [lia|].
    destruct (Z.leb_spec 0xC0 (0xC0 + cp / 64)); [|lia]. split; [done|lia].
  - assert (0 <= cp / 4096 < 16) as Hx by (split; [apply Z.div_pos|apply Z.div_lt_upper_bound]; lia).
    destruct (Hlead 0xE0 3%nat 16%nat _ (lead_3 _ Hx)) as [E Hb]; [lia..|].
    split; [by apply (lead_not_cont 16); [vm_compute; reflexivity|..]|].
    split; [repeat constructor; apply cont_is_cont, mod64_bounds|]. unfold need_of. rewrite E.
    destruct (Z.leb_spec 0xF0 (0xE0 + cp / 4096)); [lia|]. destruct (Z.leb_spec 0xE0 (0xE0 + cp / 4096)); [|lia]. split; [done|lia].
  - assert (0 <= cp / 262144 < 8) as Hx by (split; [apply Z.div_pos|apply Z.div_lt_upper_bound]; lia).
    destruct (Hlead 0xF0 4%nat 8%nat _ (lead_4 _ Hx)) as [E Hb]; [lia..|].
    split; [by apply (lead_not_cont 8); [vm_compute; reflexivity|..]|].
    split; [repeat constructor; apply cont_is_cont, mod64_bounds|]. unfold need_of. rewrite E.
    destruct (Z.leb_spec 0xF0 (0xF0 + cp / 262144)); [|lia]. split; [done|lia].
Qed.

Lemma is_cont_high c : is_cont c = true -> 128 <= code c.
Proof.
  unfold is_cont. intros H. destruct (Z.le_gt_cases 128 (code c)) as [?|Hlt]; [done|].
  assert (negb (Z.land (code c) 0xC0 =? 0x80) = true) as E.
  { apply (below 128 (fun x => negb (Z.land x 0xC0 =? 0x80))); [vm_compute; reflexivity|].
    split; [unfold code; lia|lia]. }
  by rewrite H in E.
Qed.

Lemma app_conts conts : forall rest a c b,
  Forall (fun c => is_cont c = true) conts -> code c < 128 -> conts ++ rest = a ++ c :: b ->
  exists a', a = conts ++ a' /\ rest = a' ++ c :: b.
Proof.
  induction conts as [|x conts IH]; intros rest a c b H Hc E; [by exists a|].
  inversion H as [|? ? Hx Hr]; subst. apply is_cont_high in Hx.
  destruct a as [|y a]; simpl in E; injection E as -> E; [lia|].
  destruct (IH _ _ _ _ Hr Hc E) as (a' & -> & ->). by exists a'.
Qed.

(** An ASCII character is a boundary. *)
Lemma whole_split a c b : whole (a ++ c :: b) -> code c < 128 -> whole a /\ whole b.
Proof.
  intros (cps & H & E) Hc. revert a E. induction H as [|cp cps Hs Hr IH]; intros a E; unfold utf8_text in E; simpl in E.
  { by destruct a. }
  destruct (utf8_shape cp Hs) as (lead & conts & Eb & _ & Hcs & _ & Hl). rewrite Eb in E.
  destruct a as [|x a]; simpl in E; injection E as -> E.
  - rewrite (Hl Hc) in E. simpl in E. split; [apply whole_nil|]. by exists cps.
  - symmetry in E. destruct (app_conts _ _ _ _ _ Hcs Hc E) as (a' & -> & E'). destruct (IH a' (eq_sym E')) as [Ha Hb].
    split; [|done]. change (whole ((lead :: conts) ++ a')). rewrite <- Eb. apply whole_app; [|done].
    exists [cp]. split; [by apply Forall_singleton|]. unfold utf8_text. simpl. by rewrite app_nil_r.
Qed.

Lemma split_at_spec d s a b : split_at d s = Some (a, b) -> s = a ++ d :: b.
Proof.
  unfold split_at. destruct (skip _ s) as [|c k] eqn:E; [done|]. intros [= <- <-].
  pose proof (span_skip (fun c => negb (Ascii.eqb c d)) s) as Hs. rewrite E in Hs.
  assert (c = d) as ->; [|done].
  clear Hs. revert E. induction s as [|x s IH]; simpl; [done|]. destruct (Ascii.eqb_spec x d) as [->|Hx]; simpl; [congruence|apply IH].
Qed.

Lemma after_groups_whole fuel : forall t, whole t -> whole (after_groups fuel t).
Proof.
  induction fuel as [|fuel IH]; intros t Ht; simpl; [done|]. destruct t as [|c t]; [done|].
  destruct (Ascii.eqb c "["); [|done]. destruct (split_at "]"%char (c :: t)) as [[a b]|] eqn:E; [|done].
  apply split_at_spec in E. rewrite E in Ht. apply IH. by apply (whole_split a "]"%char b).
Qed.

Lemma diag_message_whole t : whole t -> whole (diag_message t).
Proof.
  intros H. unfold diag_message. apply (after_groups_whole (length t)) in H. revert H. generalize (after_groups (length t) t).
  intros s. induction s as [|c s IH]; intros H; simpl; [done|]. destruct (Ascii.eqb_spec c " ") as [->|]; [|done].
  apply IH. by apply (whole_split [] " "%char s).
Qed.

Lemma whole_ascii s : Forall (fun c => 0 < code c < 128) s -> whole s.
Proof.
  intros H. exists (map code s). split.
  - induction H as [|c s Hc _ IH]; constructor; [|done]. split; [lia|]. unfold is_surrogate. apply andb_false_iff. left. apply Z.leb_gt. lia.
  - induction H as [|c s Hc _ IH]; [done|]. unfold utf8_text in *. simpl. rewrite <- IH. unfold utf8_bytes.
    destruct (Z.ltb_spec (code c) 0x80); [|lia]. simpl. f_equal.
    unfold chr, code. rewrite N2Z.id. by rewrite ascii_N_embedding.
Qed.

(** A text cut at [k]: the characters that are whole, and the beginning of
    the next. *)
Lemma take_text cps : Forall scalar cps -> forall k, (k < length (utf8_text cps))%nat ->
  exists front cp rest p q, cps = front ++ cp :: rest /\ utf8_bytes cp = p ++ q /\ q <> [] /\ scalar cp /\
    Forall scalar front /\ take k (utf8_text cps) = utf8_text front ++ p.
Proof.
  induction 1 as [|cp cps Hs Hr IH]; intros k Hk; unfold utf8_text in *; simpl in *; [lia|].
  destruct (Nat.lt_ge_cases k (length (utf8_bytes cp))) as [Hlt|Hge].
  - exists [], cp, cps, (take k (utf8_bytes cp)), (drop k (utf8_bytes cp)). split; [done|].
    split; [by rewrite take_drop|]. split; [|split; [done|split; [constructor|]]].
    + intros E. apply (f_equal length) in E. rewrite length_drop in E. simpl in E. lia.
    + simpl. rewrite take_app_le by lia. done.
  - rewrite length_app in Hk. destruct (IH (k - length (utf8_bytes cp))%nat ltac:(lia)) as (dn & c & r & p & q & -> & Eb & Hq & Hsc & Hd & Et).
    exists (cp :: dn), c, r, p, q. split; [done|]. split; [done|]. split; [done|]. split; [done|].
    split; [by constructor|]. simpl. rewrite take_app_ge by done. by rewrite Et, app_assoc.
Qed.

(** What the scan from the end finds behind a lead byte and some of its
    continuation bytes. *)
Lemma cut_partial_tail before lead conts :
  is_cont lead = false -> Forall (fun c => is_cont c = true) conts ->
  cut_partial (before ++ lead :: conts) =
  if Z.of_nat (S (length conts)) <? need_of lead then before else before ++ lead :: conts.
Proof.
  intros Hl Hc. unfold cut_partial. rewrite rev_app_distr. cbn [rev]. rewrite <- !app_assoc.
  rewrite skip_app_all by (by apply Forall_rev). cbn [app skip]. rewrite Hl. fold (need_of lead).
  rewrite length_app, length_rev, rev_involutive. cbn [length].
  destruct (Z.ltb_spec (Z.of_nat (length before + S (length conts))) (Z.of_nat (length before) + need_of lead)),
    (Z.ltb_spec (Z.of_nat (S (length conts))) (need_of lead)); (lia || done).
Qed.

Lemma cut_partial_id front : Forall scalar front -> cut_partial (utf8_text front) = utf8_text front.
Proof.
  intros H. destruct (decide (front = [])) as [->|Hne]; [done|].
  destruct (exists_last Hne) as (l & c & ->). apply Forall_app in H as [_ Hc]. rewrite Forall_singleton in Hc.
  destruct (utf8_shape c Hc) as (ld & cs & E & Hnl & Hcs & Hneed & _).
  unfold utf8_text. rewrite map_app, concat_app. cbn [map concat]. rewrite app_nil_r, E, cut_partial_tail by done.
  rewrite Hneed. by destruct (Z.ltb_spec (Z.of_nat (S (length cs))) (Z.of_nat (S (length cs)))); [lia|].
Qed.

(** Cutting a text anywhere and dropping the partial character leaves the
    whole characters that fit. *)
Lemma cut_partial_whole cps : Forall scalar cps -> forall k, (k < length (utf8_text cps))%nat ->
  exists cps', cps' `prefix_of` cps /\ cut_partial (take k (utf8_text cps)) = utf8_text cps'.
Proof.
  intros H k Hk. destruct (take_text cps H k Hk) as (front & cp & rest & p & q & -> & Eb & Hq & Hs & Hd & ->).
  exists front. split; [by exists (cp :: rest)|]. destruct p as [|x p]; [rewrite app_nil_r; by apply cut_partial_id|].
  destruct (utf8_shape cp Hs) as (lead & conts & E & Hnl & Hcs & Hneed & _). rewrite E in Eb. injection Eb as <- Ec.
  rewrite Ec in Hcs. apply Forall_app in Hcs as [Hp _]. rewrite cut_partial_tail by done.
  rewrite Hneed, Ec, length_app. assert (0 < length q)%nat by (destruct q; [done|simpl; lia]).
  by destruct (Z.ltb_spec (Z.of_nat (S (length p))) (Z.of_nat (S (length p + length q)))); [|lia].
Qed.

(** ** Any bytes *)

(** A scalar value, or the 0 of an overlong form. *)
Definition scalar0 (cp : Z) : Prop := cp = 0 \/ scalar cp.

Lemma land_mask a m : 0 <= m -> 0 <= Z.land a m.
Proof. intros H. apply Z.land_nonneg. by right. Qed.

Lemma cont_bytes_bound l : forall cp cp', 0 <= cp -> cont_bytes cp l = Some cp' -> 0 <= cp'.
Proof.
  induction l as [|c l IH]; intros cp cp' H; cbn [cont_bytes]; [by intros [= <-]|].
  destruct (_ =? _); [|done]. intros E. eapply IH; [|exact E]. apply Z.lor_nonneg. split; [by apply Z.shiftl_nonneg|].
  apply land_mask. lia.
Qed.

Lemma decode_at_bounds c s : 0 <= fst (decode_at (c :: s)) /\ (1 <= snd (decode_at (c :: s)) <= length (c :: s))%nat.
Proof.
  assert (0 <= fst (lead_byte (code c)) /\ (1 <= snd (lead_byte (code c)) <= 4)%nat) as [H1 H2].
  { unfold lead_byte. repeat (destruct (_ <? _) || destruct (_ =? _)); cbn [fst snd]; (split; [|lia]);
      (unfold code, REPLACEMENT; lia) || (apply land_mask; lia). }
  unfold decode_at. destruct (lead_byte (code c)) as [cp len]. cbn [fst snd] in *.
  destruct (Nat.leb_spec len 1); [cbn [fst snd length]; split; [done|lia]|].
  destruct (Nat.ltb_spec (length (c :: s)) len); [unfold REPLACEMENT; cbn [fst snd length]; lia|].
  destruct (cont_bytes cp (take (len - 1) s)) as [cp'|] eqn:E; cbn [fst snd]; [|unfold REPLACEMENT; simpl; lia].
  split; [by eapply cont_bytes_bound|lia].
Qed.

(** The scalar value whose units [wide_units] writes. *)
Definition replaced (cp : Z) : Z := if (0x10FFFF <? cp) || is_surrogate cp then REPLACEMENT else cp.

Lemma wide_units_replaced cp : 0 <= cp -> wide_units cp = utf16 (replaced cp) /\ scalar0 (replaced cp) /\
  (length (wide_units cp) <= 2)%nat /\ (cp < 0x10000 -> length (wide_units cp) = 1%nat).
Proof.
  intros H. unfold wide_units. fold (replaced cp).
  assert (0 <= replaced cp <= 0x10FFFF /\ is_surrogate (replaced cp) = false /\ (cp < 0x10000 -> replaced cp < 0x10000)) as (Hb & Hs & Hr).
  { unfold replaced. destruct (_ || _) eqn:E; [unfold REPLACEMENT; repeat split; lia|].
    apply orb_false_iff in E as [E1 E2]. apply Z.ltb_ge in E1. repeat split; (done || lia). }
  split; [|split].
  - unfold utf16. rewrite Z.shiftr_div_pow2 by lia. change 0x3FF with (Z.ones 10). rewrite Z.land_ones by lia. change (2 ^ 10) with 1024.
    destruct (Z.leb_spec 0x10000 (replaced cp)), (Z.ltb_spec (replaced cp) 0x10000); (lia || done).
  - unfold scalar0, scalar. destruct (decide (replaced cp = 0)); [by left|right; split; [lia|done]].
  - destruct (Z.leb_spec 0x10000 (replaced cp)); simpl; lia.
Qed.

Lemma wide_loop_any fuel : forall s, (length s <= fuel)%nat ->
  exists cps, Forall scalar0 cps /\ wide_loop fuel s = utf16_text cps /\ (length (wide_loop fuel s) <= 2 * length s)%nat.
Proof.
  induction fuel as [|fuel IH]; intros s Hs; [exists []; simpl; split; [constructor|split; [done|lia]]|].
  destruct s as [|c s]; [exists []; simpl; split; [constructor|split; [done|lia]]|]. cbn [wide_loop].
  destruct (decode_at_bounds c s) as [H1 H2]. destruct (decode_at (c :: s)) as [cp len]. cbn [fst snd] in *.
  destruct (IH (drop len (c :: s)) ltac:(rewrite length_drop; simpl in *; lia)) as (cps & Hc & Ew & Hl).
  destruct (wide_units_replaced cp H1) as (Eu & Hu & Hlu & _). exists (replaced cp :: cps).
  split; [by constructor|]. rewrite Eu, Ew in *. split; [done|]. rewrite length_app.
  rewrite length_drop in Hl. lia.
Qed.

(** ** Theorems *)

Lemma utf16_text_length cps : (length (utf16_text cps) <= 2 * length cps)%nat.
Proof.
  unfold utf16_text. induction cps as [|cp cps IH]; simpl; [lia|]. rewrite length_app.
  assert (length (utf16 cp) <= 2)%nat by (unfold utf16; destruct (_ <? _); simpl; lia). lia.
Qed.

(** The characters that fit are the longest beginning that leaves room for the
    terminating zero. *)
Lemma fitting_longest cps : forall o size, exists rest, cps = fitting o size cps ++ rest /\
  ((o < size)%nat -> (o + length (utf8_text (fitting o size cps)) < size)%nat) /\
  forall cp rest', rest = cp :: rest' -> (size <= o + length (utf8_text (fitting o size cps ++ [cp])))%nat.
Proof.
  unfold utf8_text. induction cps as [|cp cps IH]; intros o size; cbn [fitting]; [exists []; split; [done|]; split; [cbn; lia|done]|].
  destruct (Nat.leb_spec size (o + length (utf8_bytes cp))).
  - exists (cp :: cps). split; [done|]. split; [cbn; lia|]. intros cp' rest' [= <- <-]. cbn [app map concat]. rewrite app_nil_r. lia.
  - destruct (IH (o + length (utf8_bytes cp))%nat size) as (rest & E & H1 & H2). exists rest. split; [by rewrite E at 1|].
    cbn [map concat app]. rewrite !length_app. split; [intros _; specialize (H1 ltac:(lia)); lia|].
    intros cp' rest' Er. specialize (H2 cp' rest' Er). rewrite length_app. lia.
Qed.

(** C30: a statement in valid UTF-8 reaches the library as the UTF-16 of the
    same characters, none of them cut off, and a message turned back gives the
    bytes it came from - or, in a buffer too small, those of the characters
    that fit: a beginning of the text that is shorter than the buffer, so that
    the zero that ends it has a place, and to which the next character could
    not be added. *)
Theorem wide_round_trip (cps : list Z) (out_size : nat) :
  Forall scalar cps ->
  utf8_to_wide true (utf8_text cps) = Some (utf16_text cps) /\
  up_to_nul (utf16_text cps) = utf16_text cps /\ Forall is_unit (utf16_text cps) /\
  (exists cps' rest, cps = cps' ++ rest /\ diag_utf16_to_utf8 (utf16_text cps) out_size = utf8_text cps' /\
     ((0 < out_size)%nat -> (length (utf8_text cps') < out_size)%nat) /\
     (forall cp rest', rest = cp :: rest' -> (out_size <= length (utf8_text (cps' ++ [cp])))%nat)) /\
  ((length (utf8_text cps) < out_size)%nat -> diag_utf16_to_utf8 (utf16_text cps) out_size = utf8_text cps).
Proof.
  intros H. pose proof (utf16_text_units cps H) as Hu. split; [|split; [|split; [|split]]].
  - unfold utf8_to_wide. f_equal. by apply wide_loop_scalars.
  - apply up_to_nul_id. eapply List.Forall_impl; [|exact Hu]. by intros u [_ Hn].
  - eapply List.Forall_impl; [|exact Hu]. by intros u [Hn _].
  - destruct (fitting_longest cps 0 out_size) as (rest & E & H1 & H2). exists (fitting 0 out_size cps), rest. split; [done|].
    split; [by apply diag_loop_scalars|]. split; [exact H1|exact H2].
  - intros Hl. unfold diag_utf16_to_utf8, utf16_text. rewrite diag_loop_scalars by done. by rewrite fitting_all.
Qed.

(** e, e acute, the euro sign, a face. *)
Definition demo_scalars : list Z := [0x65; 0xE9; 0x20AC; 0x1F600].

Lemma demo_scalars_ok : Forall scalar demo_scalars.
Proof. repeat constructor; vm_compute; congruence. Qed.

Lemma wide_round_trip_witness :
  utf8_to_wide true (utf8_text demo_scalars) = Some [0x65; 0xE9; 0x20AC; 0xD83D; 0xDE00] /\
  diag_utf16_to_utf8 [0x65; 0xE9; 0x20AC; 0xD83D; 0xDE00] 11 = utf8_text demo_scalars.
Proof.
  destruct (wide_round_trip demo_scalars 11 demo_scalars_ok) as (H1 & _ & _ & _ & H2). split; [exact H1|].
  apply H2. vm_compute. lia.
Defined.

(** Whatever the bytes are, the units are well-formed UTF-16 and fit the
    allocation of two units per byte, terminator included. *)
Theorem wide_any_bytes (s : list ascii) :
  exists w cps, utf8_to_wide true s = Some w /\ Forall scalar0 cps /\ w = utf16_text cps /\
    (length w + 1 <= (length s + 1) * 2)%nat.
Proof.
  destruct (wide_loop_any (length s) s ltac:(lia)) as (cps & H1 & H2 & H3).
  exists (wide_loop (length s) s), cps. repeat split; [done|done|]. lia.
Qed.

(** Overlong forms are accepted: every ASCII character, the quote and the
    NUL included, has a two-byte form without a byte below 0x80 that reaches
    the library as that character.  A check of the bytes for a quote does not
    see it, and one with NUL ends the statement early. *)
Theorem overlong_accepted (c : Z) (rest : list ascii) :
  0 <= c < 128 ->
  let bytes := [chr (0xC0 + c / 64); chr (0x80 + c mod 64)] in
  Forall (fun b => 128 <= code b) bytes /\
  exists w, utf8_to_wide true (bytes ++ rest) = Some (c :: w) /\ (c = 0 -> up_to_nul (c :: w) = []).
Proof.
  intros H. cbv zeta. pose proof (Z.mod_pos_bound c 64 ltac:(lia)).
  assert (0 <= c / 64 < 2) by (split; [apply Z.div_pos|apply Z.div_lt_upper_bound]; lia).
  split; [repeat constructor; rewrite code_chr; lia|].
  exists (wide_loop (S (length rest)) rest).
  assert (lead_ok 0xC0 2 (c / 64) = true) as Hl by (apply lead_2; lia).
  destruct (cont_ok (c mod 64) ltac:(lia)) as (E1 & E2 & E3).
  assert (decode_at ([chr (0xC0 + c / 64); chr (0x80 + c mod 64)] ++ rest) = (c, 2%nat)) as E.
  { pose proof Hl as Hl'. unfold lead_ok in Hl'. bools.
    match goal with H : Z.lor _ _ = 0xC0 + _ |- _ => rewrite <- H end. rewrite <- E1.
    apply (decode_multi 0xC0 2 (c / 64) [_]); try done; try lia.
    rewrite cont_byte by lia. cbn [cont_bytes]. f_equal. pose proof (Z.div_mod c 64). lia. }
  unfold utf8_to_wide. cbn [app length wide_loop] in E |- *. rewrite E. cbn [drop].
  split; [|by intros ->]. f_equal. unfold wide_units, is_surrogate.
  destruct (Z.ltb_spec 0x10FFFF c); [lia|]. destruct (Z.leb_spec 0xD800 c); [lia|]. cbn [orb andb].
  destruct (Z.leb_spec 0x10000 c); [lia|]. done.
Qed.

(** A quote that no byte shows, closing a literal. *)
Definition hidden_quote : list ascii := str "SELECT '" ++ [chr 0xC0; chr 0xA7] ++ str " OR 1=1 --".

Lemma overlong_accepted_witness :
  Forall (fun b => 128 <= code b) [chr 0xC0; chr 0xA7] /\
  exists w, utf8_to_wide true ([chr 0xC0; chr 0xA7] ++ str " OR 1=1 --") = Some (39 :: w).
Proof.
  destruct (overlong_accepted 39 (str " OR 1=1 --") ltac:(lia)) as [H (w & Hw & _)].
  split; [exact H|]. exists w. exact Hw.
Defined.

Lemma state_whole (w : list Z) (f : ascii -> bool) :
  (forall c, f c = true -> code c <> 0) -> whole (span f (map (fun u => chr (Z.land u 0x7F)) w)).
Proof.
  intros Hf. apply whole_ascii. induction w as [|u w IH]; simpl; [constructor|].
  destruct (f _) eqn:E; [|constructor]. constructor; [|done]. apply Hf in E.
  assert (0 <= Z.land u 0x7F < 128) by (change 0x7F with (Z.ones 7); rewrite Z.land_ones by lia; apply Z.mod_pos_bound; lia).
  rewrite code_chr in * by lia. lia.
Qed.

Lemma str_whole s : forallb (fun c => (0 <? code c) && (code c <? 128)) (str s) = true -> whole (str s).
Proof. intros H. apply whole_ascii. apply List.Forall_forall. intros c Hc. rewrite forallb_forall in H. specialize (H c Hc). bools. lia. Qed.

Lemma diag_text_whole first r : Forall is_unit (wmsg r) -> whole (diag_text first r).
Proof.
  intros H. unfold diag_text. repeat apply whole_app; try (apply str_whole; vm_compute; reflexivity).
  - destruct first; [apply whole_nil|apply str_whole; vm_compute; reflexivity].
  - apply state_whole. intros c Hc E. by rewrite E in Hc.
  - apply whole_ascii. eapply List.Forall_impl; [|apply (print_int_chars (native r))]. intros c Hc. revert Hc. all_ascii c.
  - apply diag_message_whole. apply diag_loop_whole. by apply Forall_take.
Qed.

Lemma diag_records_whole size : forall rs out,
  Forall (fun r => Forall is_unit (wmsg r)) rs -> whole out -> (length out < size)%nat ->
  whole (diag_records size out rs) /\ (length (diag_records size out rs) < size)%nat.
Proof.
  induction rs as [|r rs IH]; intros out H Ho Hl; cbn [diag_records]; [done|].
  inversion H as [|? ? Hr Hrs]; subst. set (piece := diag_text _ r).
  assert (whole piece) as Hp by (by apply diag_text_whole).
  destruct (Nat.leb_spec (size - length out) (length piece)) as [Hcut|Hfit].
  - destruct (whole_app _ _ Ho Hp) as (cps & Hc & E).
    assert (out ++ take (size - length out - 1) piece = take (size - 1) (out ++ piece)) as ->.
    { rewrite take_app_ge by lia. by replace (size - 1 - length out)%nat with (size - length out - 1)%nat by lia. }
    rewrite E. assert (size - 1 < length (utf8_text cps))%nat as Hk by (rewrite <- E, length_app; lia).
    destruct (cut_partial_whole cps Hc (size - 1) Hk) as (cps' & [rest ->] & Ec).
    apply Forall_app in Hc as [Hc' _]. split; [rewrite Ec; by exists cps'|].
    assert (length (cut_partial (take (size - 1) (utf8_text (cps' ++ rest)))) <= size - 1)%nat; [|lia].
    etransitivity; [|apply firstn_le_length with (l := utf8_text (cps' ++ rest))].
    unfold cut_partial. destruct (skip is_cont (rev (take (size - 1) (utf8_text (cps' ++ rest))))) as [|ld bf] eqn:Esk; [done|].
    destruct (_ <? _); [|done]. pose proof (skip_length is_cont (rev (take (size - 1) (utf8_text (cps' ++ rest))))) as Hsk.
    rewrite Esk, length_rev in Hsk. rewrite length_rev. simpl in Hsk. lia.
  - apply IH; [done|by apply whole_app|rewrite length_app; lia].
Qed.

(** The diagnostic text fits its buffer with the terminator and never
    ends inside a character, however many records there are and wherever the
    buffer ends. *)
Theorem mssql_diag_whole (records : list diag_record) (out_size : nat) :
  (0 < out_size)%nat -> Forall (fun r => Forall is_unit (wmsg r)) records ->
  whole (mssql_diag (Some records) out_size) /\ (length (mssql_diag (Some records) out_size) < out_size)%nat.
Proof.
  intros Hs H. unfold mssql_diag. apply diag_records_whole; [by apply Forall_take|apply whole_nil|done].
Qed.

(** The message ends in a euro sign of which one byte fits. *)
Definition demo_record : diag_record :=
  mk_diag (map code (str "42000")) 102 (map code (str "[Microsoft] near ") ++ [0x20AC]) 18.

Lemma mssql_diag_whole_witness :
  mssql_diag (Some [demo_record]) 36 = str "SQLSTATE 42000 [native 102]: near " /\
  whole (mssql_diag (Some [demo_record]) 36).
Proof.
  split; [vm_compute; reflexivity|].
  refine (proj1 (mssql_diag_whole [demo_record] 36 ltac:(lia) _)). repeat constructor; vm_compute; congruence.
Defined.
