(* ===== verification/MssqlConnection.v ===== *)
(** * MssqlConnection: one SQL Server connection, from infra/MSSQL_Pool.c

    The connection string with its quoting, the reference-counted ODBC
    environment of the process, and the switch between autocommit and manual
    commit around the writes of a transaction.  The answers of the ODBC
    library are arguments. *)

From Stdlib Require Import Ascii String ZArith Lia Bool.
From stdpp Require Import base list strings numbers.
From S2P Require Import Prelude Text.

#[local] Open Scope Z_scope.

(** ** The connection string *)

(** The keys of [app_config_t] that the string is made of. *)
Record mssql_ini := mk_mssql_ini {
  mssql_server : list ascii;
  mssql_port : Z;
  dbname : list ascii;
  username : list ascii;
  password : list ascii;
  mssql_trust_server_certificate : bool }.

Section buffer.
Context (out_size : nat).

(** [out] is what the buffer holds; [None] is -1. *)
Definition put_text (t out : list ascii) : option (list ascii) :=
  if (out_size - length out <=? length t)%nat then None else Some (out ++ t).

Definition lbrace : ascii := "{"%char.
Definition rbrace : ascii := "}"%char.

Fixpoint braced_loop (p out : list ascii) : option (list ascii) :=
  match p with
  | [] => Some out
  | c :: p' =>
      let need := if Ascii.eqb c rbrace then 2%nat else 1%nat in
      if (out_size <=? length out + need + 1)%nat then None
      else braced_loop p' (out ++ if Ascii.eqb c rbrace then [c; rbrace] else [c])
  end.

Definition put_braced (value out : list ascii) : option (list ascii) :=
  if (out_size <=? length out + 1)%nat then None
  else
    out ← braced_loop value (out ++ [lbrace]);
    if (out_size <=? length out + 1)%nat then None else Some (out ++ [rbrace]).

Definition MSSQL_ODBC_DRIVER : list ascii := str "ODBC Driver 18 for SQL Server".

Definition mssql_connection_string (ini : mssql_ini) (mask_password : bool) : option (list ascii) :=
  if (out_size =? 0)%nat then None
  else
    out ← put_text (str "Driver={" ++ MSSQL_ODBC_DRIVER ++ str "};Server=tcp:" ++ mssql_server ini ++ str "," ++
                    print_int (if 0 <? mssql_port ini then mssql_port ini else 1433) ++ str ";Database=") [];
    out ← put_braced (dbname ini) out;
    out ← put_text (str ";UID=") out;
    out ← put_braced (username ini) out;
    out ← put_text (str ";PWD=") out;
    out ← (if mask_password then put_text (str "***") out else put_braced (password ini) out);
    put_text (str ";Encrypt=yes;TrustServerCertificate=" ++
              (if mssql_trust_server_certificate ini then str "yes" else str "no") ++
              str ";APP=DataSol_Gateway;") out.
End buffer.

(** *** What the text is, and when it fits *)

Definition fit (n : nat) (t out : list ascii) : option (list ascii) :=
  if (length (out ++ t) <? n)%nat then Some (out ++ t) else None.

(** Appending in pieces is appending the whole. *)
Lemma fit_app n t r out : fit n (t ++ r) out = (out' ← fit n t out; fit n r out').
Proof.
  unfold fit. rewrite app_assoc. destruct (Nat.ltb_spec (length (out ++ t))%nat n); simpl; [done|].
  destruct (Nat.ltb_spec (length ((out ++ t) ++ r))%nat n); [|done]. rewrite !length_app in *. lia.
Qed.

Lemma put_text_fit n t out : put_text n t out = fit n t out.
Proof.
  unfold put_text, fit. rewrite length_app.
  destruct (Nat.leb_spec (n - length out)%nat (length t)%nat), (Nat.ltb_spec (length out + length t)%nat n); (lia || done).
Qed.

Definition doubled (value : list ascii) : list ascii :=
  concat (map (fun c => if Ascii.eqb c rbrace then [c; rbrace] else [c]) value).
Definition braced (value : list ascii) : list ascii := lbrace :: doubled value ++ [rbrace].

(** The loop asks for one more byte than it writes. *)
Definition fit1 (n : nat) (t out : list ascii) : option (list ascii) :=
  if (length (out ++ t) + 1 <? n)%nat then Some (out ++ t) else None.

Lemma braced_loop_fit n value : forall out,
  (length out + 1 < n)%nat -> braced_loop n value out = fit1 n (doubled value) out.
Proof.
  unfold fit1. induction value as [|c value IH]; intros out H; cbn [doubled map concat braced_loop].
  { rewrite app_nil_r. by destruct (Nat.ltb_spec (length out + 1)%nat n); [|lia]. }
  fold (doubled value). set (piece := if Ascii.eqb c rbrace then [c; rbrace] else [c]).
  assert ((if Ascii.eqb c rbrace then 2 else 1)%nat = length piece) as -> by (unfold piece; by destruct (Ascii.eqb c rbrace)).
  rewrite app_assoc. specialize (IH (out ++ piece)). rewrite !length_app in *.
  destruct (Nat.leb_spec n (length out + length piece + 1)%nat); [|apply IH; lia].
  destruct (Nat.ltb_spec (length out + length piece + length (doubled value) + 1)%nat n); [lia|done].
Qed.

Lemma braced_loop_full n value : forall out out',
  (n <= length out + 1)%nat -> braced_loop n value out = Some out' -> (n <= length out' + 1)%nat.
Proof.
  induction value as [|c value IH]; intros out out' H; cbn [braced_loop]; [by intros [= <-]|].
  destruct (_ <=? _)%nat; [done|]. apply IH. rewrite length_app. lia.
Qed.

Lemma put_braced_fit n value out : put_braced n value out = fit n (braced value) out.
Proof.
  unfold put_braced, fit, braced.
  assert (length (out ++ lbrace :: doubled value ++ [rbrace]) = length out + length (doubled value) + 2)%nat as ->
    by (rewrite length_app; cbn [length]; rewrite length_app; cbn [length]; lia).
  destruct (Nat.leb_spec n (length out + 1)%nat).
  { destruct (Nat.ltb_spec (length out + length (doubled value) + 2)%nat n); [lia|done]. }
  destruct (Nat.eq_dec n (length out + 2)%nat) as [E|Hne].
  - destruct (Nat.ltb_spec (length out + length (doubled value) + 2)%nat n); [lia|].
    destruct (braced_loop n value (out ++ [lbrace])) as [o|] eqn:Eo; cbn [mbind option_bind]; [|done].
    apply braced_loop_full in Eo; [|rewrite length_app; cbn [length]; lia].
    by destruct (Nat.leb_spec n (length o + 1)%nat); [|lia].
  - rewrite braced_loop_fit by (rewrite length_app; cbn [length]; lia). unfold fit1. rewrite !length_app. cbn [length].
    destruct (Nat.ltb_spec (length out + 1 + length (doubled value) + 1)%nat n), (Nat.ltb_spec (length out + length (doubled value) + 2)%nat n);
      cbn [mbind option_bind]; try lia; [|done].
    rewrite !length_app. cbn [length]. destruct (Nat.leb_spec n (length out + 1 + length (doubled value) + 1)%nat); [lia|].
    by rewrite <- !app_assoc.
Qed.

(** The whole string. *)
Definition connection_text (ini : mssql_ini) (mask_password : bool) : list ascii :=
  (str "Driver={" ++ MSSQL_ODBC_DRIVER ++ str "};Server=tcp:" ++ mssql_server ini ++ str "," ++
   print_int (if 0 <? mssql_port ini then mssql_port ini else 1433) ++ str ";Database=") ++
  braced (dbname ini) ++ str ";UID=" ++ braced (username ini) ++ str ";PWD=" ++
  (if mask_password then str "***" else braced (password ini)) ++
  (str ";Encrypt=yes;TrustServerCertificate=" ++ (if mssql_trust_server_certificate ini then str "yes" else str "no") ++
   str ";APP=DataSol_Gateway;").

Lemma connection_string_fit n ini mask : mssql_connection_string n ini mask = fit n (connection_text ini mask) [].
Proof.
  unfold mssql_connection_string. destruct (Nat.eqb_spec n 0) as [->|Hn].
  { unfold fit. by destruct (Nat.ltb_spec (length ([] ++ connection_text ini mask))%nat 0); [lia|]. }
  unfold connection_text.
  rewrite (fit_app n (_ ++ _)), put_text_fit. destruct (fit _ _ []) as [o1|]; cbn [mbind option_bind]; [|done].
  rewrite (fit_app n (braced _)), put_braced_fit. destruct (fit _ _ o1) as [o2|]; cbn [mbind option_bind]; [|done].
  rewrite (fit_app n (str ";UID=")), put_text_fit. destruct (fit _ _ o2) as [o3|]; cbn [mbind option_bind]; [|done].
  rewrite (fit_app n (braced _)), put_braced_fit. destruct (fit _ _ o3) as [o4|]; cbn [mbind option_bind]; [|done].
  rewrite (fit_app n (str ";PWD=")), put_text_fit. destruct (fit _ _ o4) as [o5|]; cbn [mbind option_bind]; [|done].
  destruct mask.
  - rewrite (fit_app n (str "***")), put_text_fit. destruct (fit _ _ o5) as [o6|]; cbn [mbind option_bind]; [|done]. apply put_text_fit.
  - rewrite (fit_app n (braced _)), put_braced_fit. destruct (fit _ _ o5) as [o6|]; cbn [mbind option_bind]; [|done]. apply put_text_fit.
Qed.

(** *** Reading it back

    How a connection string is read: attributes [name=value;], where a value
    that starts with a brace ends at the first closing brace that is not
    doubled, and any other at the semicolon. *)
Definition equals : ascii := "="%char.
Definition semicolon : ascii := ";"%char.

Fixpoint braced_value (s : list ascii) : option (list ascii * list ascii) :=
  match s with
  | [] => None
  | c :: s' =>
      if Ascii.eqb c rbrace then
        match s' with
        | d :: s'' =>
            if Ascii.eqb d rbrace then
              match braced_value s'' with Some (v, k) => Some (rbrace :: v, k) | None => None end
            else Some ([], s')
        | [] => Some ([], [])
        end
      else match braced_value s' with Some (v, k) => Some (c :: v, k) | None => None end
  end.

Definition attribute_value (s : list ascii) : option (list ascii * list ascii) :=
  match s with
  | c :: s' =>
      if Ascii.eqb c lbrace then
        match braced_value s' with
        | Some (v, d :: k) => if Ascii.eqb d semicolon then Some (v, k) else None
        | _ => None
        end
      else split_at semicolon s
  | [] => None
  end.

Fixpoint attributes (fuel : nat) (s : list ascii) : option (list (list ascii * list ascii)) :=
  match fuel, s with
  | _, [] => Some []
  | O, _ => None
  | S f, _ =>
      match split_at equals s with
      | None => None
      | Some (name, rest) =>
          '(v, k) ← attribute_value rest;
          l ← attributes f k;
          Some ((name, v) :: l)
      end
  end.

Lemma braced_value_doubled value k :
  (forall s, k <> rbrace :: s) -> braced_value (doubled value ++ rbrace :: k) = Some (value, k).
Proof.
  intros Hk. induction value as [|c value IH]; cbn [doubled map concat app].
  - cbn [braced_value]. rewrite Ascii.eqb_refl. destruct k as [|d k]; [done|].
    destruct (Ascii.eqb_spec d rbrace) as [->|]; [by destruct (Hk k)|done].
  - fold (doubled value). destruct (Ascii.eqb_spec c rbrace) as [->|Hc].
    + cbn [app braced_value]. rewrite !Ascii.eqb_refl, IH. done.
    + cbn [app braced_value]. destruct (Ascii.eqb_spec c rbrace); [done|]. by rewrite IH.
Qed.

Lemma attribute_braced value k : attribute_value (braced value ++ semicolon :: k) = Some (value, k).
Proof.
  unfold attribute_value, braced. cbn [app]. rewrite Ascii.eqb_refl, <- app_assoc. cbn [app].
  by rewrite braced_value_doubled by (intros s; done).
Qed.

Lemma attribute_plain c v k :
  c <> lbrace -> no_char semicolon (c :: v) -> attribute_value ((c :: v) ++ semicolon :: k) = Some (c :: v, k).
Proof.
  intros Hc Hv. unfold attribute_value. cbn [app]. destruct (Ascii.eqb_spec c lbrace); [done|].
  change (c :: v ++ semicolon :: k) with ((c :: v) ++ semicolon :: k). by apply split_at_app.
Qed.

Lemma attributes_cons f name v rest k l :
  no_char equals name -> attribute_value rest = Some (v, k) -> attributes f k = Some l ->
  attributes (S f) (name ++ equals :: rest) = Some ((name, v) :: l).
Proof.
  intros Hn Hv Hl. destruct (name ++ equals :: rest) as [|c s] eqn:E; [by destruct name|].
  cbn [attributes]. rewrite <- E, split_at_app by done. rewrite Hv. simpl. by rewrite Hl.
Qed.

Definition server_value (ini : mssql_ini) : list ascii :=
  str "tcp:" ++ mssql_server ini ++ str "," ++ print_int (if 0 <? mssql_port ini then mssql_port ini else 1433).

Definition yes_no (b : bool) : list ascii := if b then str "yes" else str "no".

Definition connection_attributes (ini : mssql_ini) (mask : bool) : list (list ascii * list ascii) :=
  [(str "Driver", MSSQL_ODBC_DRIVER); (str "Server", server_value ini); (str "Database", dbname ini);
   (str "UID", username ini); (str "PWD", if mask then str "***" else password ini); (str "Encrypt", str "yes");
   (str "TrustServerCertificate", yes_no (mssql_trust_server_certificate ini)); (str "APP", str "DataSol_Gateway")].

Lemma no_char_check d s : forallb (fun c => negb (Ascii.eqb c d)) s = true -> no_char d s.
Proof.
  intros H. apply List.Forall_forall. intros c Hc. rewrite forallb_forall in H. specialize (H c Hc).
  by destruct (Ascii.eqb c d).
Qed.

Lemma print_int_no_semicolon n : no_char semicolon (print_int n).
Proof. eapply List.Forall_impl; [|apply print_int_chars]. intros c Hc. revert Hc. all_ascii c. Qed.

Ltac attribute := eapply attributes_cons; [by apply no_char_check; vm_compute|..].

Lemma attributes_read ini mask :
  no_char semicolon (mssql_server ini) ->
  attributes 8 (connection_text ini mask) = Some (connection_attributes ini mask).
Proof.
  intros Hs.
  assert (no_char semicolon (server_value ini)) as Hsv.
  { unfold server_value. repeat apply Forall_app_2; [by apply no_char_check|done|by apply no_char_check|apply print_int_no_semicolon]. }
  assert (connection_text ini mask =
    str "Driver" ++ equals :: braced MSSQL_ODBC_DRIVER ++ semicolon ::
    str "Server" ++ equals :: server_value ini ++ semicolon ::
    str "Database" ++ equals :: braced (dbname ini) ++ semicolon ::
    str "UID" ++ equals :: braced (username ini) ++ semicolon ::
    str "PWD" ++ equals :: (if mask then str "***" else braced (password ini)) ++ semicolon ::
    str "Encrypt" ++ equals :: str "yes" ++ semicolon ::
    str "TrustServerCertificate" ++ equals :: yes_no (mssql_trust_server_certificate ini) ++ semicolon ::
    str "APP" ++ equals :: str "DataSol_Gateway" ++ semicolon :: []) as ->.
  { unfold connection_text, server_value. rewrite <- !app_assoc. reflexivity. }
  assert (forall k, attribute_value ((if mask then str "***" else braced (password ini)) ++ semicolon :: k) =
                    Some (if mask then str "***" else password ini, k)) as Hpw
    by (intros k; destruct mask; [by apply attribute_plain; [|apply no_char_check]|apply attribute_braced]).
  assert (forall k, attribute_value (yes_no (mssql_trust_server_certificate ini) ++ semicolon :: k) =
                    Some (yes_no (mssql_trust_server_certificate ini), k)) as Hyn
    by (intros k; destruct (mssql_trust_server_certificate ini); by apply attribute_plain; [|apply no_char_check]).
  attribute; [apply attribute_braced|].
  attribute; [apply attribute_plain; [done|exact Hsv]|].
  attribute; [apply attribute_braced|].
  attribute; [apply attribute_braced|].
  attribute; [apply Hpw|].
  attribute; [by apply attribute_plain; [|apply no_char_check]|].
  attribute; [apply Hyn|].
  attribute; [by apply attribute_plain; [|apply no_char_check]|]. done.
Qed.

(** The connection string is produced exactly when it fits its buffer with
    the terminator, and read back as a list of attributes it has the eight the
    code means, with the database, the user and the password as they are in
    the configuration, whatever characters they have: none of them can end its
    value or add an attribute (the server name can, if it has a semicolon).
    The text for the log does not depend on the password. *)
Theorem connection_string_attributes (n : nat) (ini : mssql_ini) (mask : bool) :
  no_char semicolon (mssql_server ini) ->
  let text := connection_text ini mask in
  mssql_connection_string n ini mask = (if (length text <? n)%nat then Some text else None) /\
  attributes 8 text = Some (connection_attributes ini mask) /\
  forall pw, mssql_connection_string n (mk_mssql_ini (mssql_server ini) (mssql_port ini) (dbname ini) (username ini) pw
               (mssql_trust_server_certificate ini)) true = mssql_connection_string n ini true.
Proof.
  intros Hs. cbv zeta. rewrite !connection_string_fit. split; [done|]. split; [by apply attributes_read|].
  intros pw. by rewrite connection_string_fit.
Qed.

(** A password that tries to add an attribute. *)
Definition demo_ini : mssql_ini := mk_mssql_ini (str "db1") 0 (str "sales") (str "app") (str "x};Encrypt=no;A={") true.

Lemma connection_string_attributes_witness :
  exists text, mssql_connection_string 256 demo_ini false = Some text /\
    attributes 8 text = Some (connection_attributes demo_ini false) /\
    (str "PWD", str "x};Encrypt=no;A={") ∈ connection_attributes demo_ini false.
Proof.
  destruct (connection_string_attributes 256 demo_ini false ltac:(by apply no_char_check; vm_compute)) as (H1 & H2 & _).
  exists (connection_text demo_ini false). split; [exact H1|]. split; [exact H2|].
  unfold connection_attributes. do 4 right. left.
Defined.

(** ** The environment of the process *)

(** [g_env] and [g_env_refs]; [live] are the handles allocated and not freed. *)
Record env_state := mk_env { g_env : option nat; g_env_refs : Z; live : list nat }.

Definition env_start : env_state := mk_env None 0 [].

(** [alloc] and [set_attr] are the answers of the library, [h] the handle it
    allocates. *)
Definition mssql_env_acquire (alloc set_attr : bool) (h : nat) (e : env_state) : env_state * option nat :=
  match g_env e with
  | None =>
      if negb alloc then (e, None)
      else if negb set_attr then (e, None)
      else (mk_env (Some h) (g_env_refs e + 1) (h :: live e), Some h)
  | Some g => (mk_env (Some g) (g_env_refs e + 1) (live e), Some g)
  end.

Definition mssql_env_release (e : env_state) : env_state :=
  if 0 <? g_env_refs e then
    match g_env e with
    | Some g => if g_env_refs e - 1 =? 0 then mk_env None 0 (List.remove Nat.eq_dec g (live e))
                else mk_env (Some g) (g_env_refs e - 1) (live e)
    | None => mk_env None (g_env_refs e - 1) (live e)
    end
  else e.

Inductive env_call := Acquire (alloc set_attr : bool) (h : nat) | ReleaseEnv.

(** The state after some calls, with the references handed out and not given
    back; only a holder releases. *)
Inductive env_run : env_state -> Z -> Prop :=
| run_start : env_run env_start 0
| run_acquire e n a s h : env_run e n -> h ∉ live e ->
    env_run (fst (mssql_env_acquire a s h e))
            (match snd (mssql_env_acquire a s h e) with Some _ => n + 1 | None => n end)
| run_release e n : env_run e n -> 0 < n -> env_run (mssql_env_release e) (n - 1).

(** The process has one environment exactly while someone holds it: the
    count is the number of holders, a holder's handle is the one that is
    alive, and when the last one lets go nothing is left allocated. *)
Theorem env_lives_while_held (e : env_state) (n : Z) :
  env_run e n ->
  g_env_refs e = n /\ 0 <= n /\
  (if n =? 0 then g_env e = None /\ live e = [] else exists g, g_env e = Some g /\ live e = [g]) /\
  (0 < n -> forall a s h, snd (mssql_env_acquire a s h e) = g_env e).
Proof.
  intros H. enough (g_env_refs e = n /\ 0 <= n /\
    (if n =? 0 then g_env e = None /\ live e = [] else exists g, g_env e = Some g /\ live e = [g])) as (H1 & H2 & H3).
  { split; [done|]. split; [done|]. split; [done|]. intros Hn a s h. unfold mssql_env_acquire.
    destruct (Z.eqb_spec n 0); [lia|]. destruct H3 as (g & -> & _). done. }
  induction H as [|e n a s h H (IH1 & IH2 & IH3) Hh|e n H (IH1 & IH2 & IH3) Hn]; [done|..].
  - unfold mssql_env_acquire. destruct (Z.eqb_spec n 0) as [->|Hn].
    + destruct IH3 as [Eg El]. rewrite Eg. destruct a; cbn [negb fst snd]; [|by rewrite Z.eqb_refl].
      destruct s; cbn [negb fst snd]; [|by rewrite Z.eqb_refl]. cbn [g_env_refs g_env live]. split; [lia|]. split; [lia|].
      destruct (Z.eqb_spec (0 + 1) 0); [lia|]. exists h. by rewrite El.
    + destruct IH3 as (g & Eg & El). rewrite Eg. cbn [fst snd g_env_refs g_env live]. split; [lia|]. split; [lia|].
      destruct (Z.eqb_spec (n + 1) 0); [lia|]. by exists g.
  - unfold mssql_env_release. rewrite IH1. destruct (Z.ltb_spec 0 n); [|lia]. destruct (Z.eqb_spec n 0); [lia|].
    destruct IH3 as (g & -> & El). destruct (Z.eqb_spec (n - 1) 0) as [E|Hne]; cbn [g_env_refs g_env live].
    + split; [lia|]. split; [lia|]. rewrite El. simpl. by destruct (Nat.eq_dec g g).
    + split; [lia|]. split; [lia|]. by exists g.
Qed.

Lemma env_lives_while_held_witness :
  let e := fst (mssql_env_acquire true true 7 env_start) in g_env e = Some 7%nat /\ live e = [7%nat].
Proof.
  cbv zeta. pose proof (run_acquire env_start 0 true true 7 run_start ltac:(apply not_elem_of_nil)) as H.
  destruct (env_lives_while_held _ _ H) as (_ & _ & (g & Hg & Hl) & _). split; [reflexivity|].
  rewrite Hl. simpl in Hg. injection Hg as <-. reflexivity.
Defined.

(** ** Manual commit only for writes *)

(** A connection: whether it is in manual commit, whether a write is waiting
    for its commit, and the writes that were committed by themselves. *)
Record tx_conn := mk_tx_conn { manual : bool; pending : bool; autocommitted : nat }.

(** [read]: the library can tell the mode. *)
Definition mssql_tx_in_manual (read : bool) (c : tx_conn) : Z :=
  if read then if manual c then 1 else 0 else -1.

(** Switching autocommit on commits what is pending. *)
Definition set_manual (m : bool) (c : tx_conn) : tx_conn :=
  mk_tx_conn m (if m then pending c else false) (autocommitted c).

(** [read] and [set]: the answers of the library. *)
Definition mssql_tx_begin_write (autocommit_mode read set : bool) (c : tx_conn) : tx_conn * Z :=
  if autocommit_mode then (c, 0)
  else if mssql_tx_in_manual read c =? 1 then (c, 0)
  else if negb set then (c, -1)
  else (set_manual true c, 0).

Definition mssql_tx_end_write (autocommit_mode read set : bool) (c : tx_conn) : tx_conn * Z :=
  if autocommit_mode then (c, 0)
  else if mssql_tx_in_manual read c =? 0 then (c, 0)
  else if negb set then (c, -1)
  else (set_manual false c, 0).

(** A write of the server, and the end of a transaction. *)
Definition server_write (c : tx_conn) : tx_conn :=
  if manual c then mk_tx_conn true true (autocommitted c)
  else mk_tx_conn false (pending c) (S (autocommitted c)).

Definition mssql_end_tran (ok : bool) (c : tx_conn) : tx_conn * Z :=
  if ok then (mk_tx_conn (manual c) false (autocommitted c), 0) else (c, -1).

(** A write hook, and a commit or rollback hook. *)
Definition write_hook (mode read set : bool) (c : tx_conn) : tx_conn * Z :=
  let '(c, rc) := mssql_tx_begin_write mode read set c in
  if rc =? 0 then (server_write c, 0) else (c, -1).

Definition end_hook (mode ok read set : bool) (c : tx_conn) : tx_conn * Z :=
  let '(c, rc) := mssql_end_tran ok c in
  if rc =? 0 then (fst (mssql_tx_end_write mode read set c), 0) else (c, -1).

Inductive tx_hook := WriteHook (read set : bool) | EndHook (ok read set : bool).

Definition run_hook (mode : bool) (c : tx_conn) (h : tx_hook) : tx_conn :=
  match h with
  | WriteHook r s => fst (write_hook mode r s c)
  | EndHook ok r s => fst (end_hook mode ok r s c)
  end.

(** With autocommit_mode off no write is ever committed by itself and
    nothing pending is lost to a switch of modes, whatever the library answers
    and in whatever order the hooks run: a pending write is only on a
    connection in manual commit, and a write that could not get it is not
    run. *)
Theorem writes_never_autocommit (hooks : list tx_hook) :
  let c := foldl (run_hook false) (mk_tx_conn false false 0) hooks in
  autocommitted c = 0%nat /\ (pending c = true -> manual c = true) /\
  (forall r s, snd (write_hook false r s c) = 0 ->
     manual (fst (write_hook false r s c)) = true /\ pending (fst (write_hook false r s c)) = true) /\
  (forall r s, snd (write_hook false r s c) <> 0 -> fst (write_hook false r s c) = c).
Proof.
  cbv zeta. set (c := foldl _ _ _).
  assert (autocommitted c = 0%nat /\ (pending c = true -> manual c = true)) as [H1 H2].
  { subst c. assert (forall c0, autocommitted c0 = 0%nat /\ (pending c0 = true -> manual c0 = true) ->
      autocommitted (foldl (run_hook false) c0 hooks) = 0%nat /\
      (pending (foldl (run_hook false) c0 hooks) = true -> manual (foldl (run_hook false) c0 hooks) = true)) as Hgen; [|by apply Hgen].
    induction hooks as [|h hooks IH]; intros [m p n] [Hn Hp]; [done|]. cbn [foldl]. apply IH. simpl in Hn, Hp. subst n.
    by destruct h as [[] []|[] [] []], m, p; simpl in *; (done || (split; [done|intros; (done || by apply Hp)])). }
  split; [done|]. split; [done|]. destruct c as [m p n]. simpl in *.
  assert (p = false \/ m = true) as Hpm by (destruct p; auto).
  split; intros r s; destruct r, s, m, p; simpl; intros H; by destruct Hpm.
Qed.
