(* ===== verification/MssqlDialect.v ===== *)
(** * SQL text for SQL Server: src/src/execute/mssql_dialect.c

    Every hook of [mssql_dialect], and the scanner [mssql_sql_shape] that
    decides how a SELECT may be wrapped.  A hook writes into a buffer of
    [out_max] characters and is [None] where it returns -1; a NULL buffer is
    one of size 0, which is refused the same way.

    The scanner is compared with a reference that first cuts the text into
    tokens ([lex]) and then asks about the words outside parentheses
    ([atoms]); what it finds decides that the queries the hooks build are ones
    the server accepts. *)

From Stdlib Require Import Ascii String ZArith Lia Bool.
From stdpp Require Import base list strings numbers.
From S2P Require Import Prelude Text DbTypeClass.

#[local] Open Scope Z_scope.

(** [vsnprintf] returns a negative number for a text beyond INT_MAX. *)
Definition ms_fmt (out_max : nat) (t : list ascii) : option (list ascii) :=
  if (length t <? out_max)%nat && (Z.of_nat (length t) <? 2 ^ 31) then Some t else None.

(** ** Type names *)

Definition ms_base_len (s : list ascii) : nat :=
  length (span (fun c => negb (Ascii.eqb c "(") && negb (isspace c)) s).

Definition ms_base_is (s : list ascii) (n : nat) (name : list ascii) : bool :=
  Nat.eqb (length name) n && ci_prefix name s.

Definition ms_has_max (after_base : list ascii) : bool :=
  match skip isspace after_base with
  | c :: p =>
      if negb (Ascii.eqb c "(") then false
      else
        let p := skip isspace p in
        if negb (ci_prefix (str "MAX") p) then false
        else match skip isspace (drop 3 p) with d :: _ => Ascii.eqb d ")" | [] => false end
  | [] => false
  end.

(** ** The scanner *)

Definition ms_word_char (c : ascii) : bool :=
  isalnum c || Ascii.eqb c "_" || Ascii.eqb c "@" || Ascii.eqb c "#" || Ascii.eqb c "$" || (0x80 <=? code c).

Definition squote : ascii := "'"%char.
Definition newline : ascii := chr 10.

(** The local variables of [mssql_sql_shape].  The two counters are ints
    that only ever step by one and are compared with 0, 1 and 2. *)
Record scan := mk_scan {
  depth : nat;
  after_order : bool;
  seen_order : bool;
  seen_offset : bool;
  offset_pending : bool;
  after_by : bool;
  top_words : nat;
  first_select : bool;
  quantifier : bool;
  top : bool;
  line_comment_at_end : bool;
}.

Definition scan_start : scan := mk_scan 0 false false false false false 0 false false false false.

(** [after_order = after_by = 0], with the new depth. *)
Definition other (d : nat) (s : scan) : scan :=
  mk_scan d false (seen_order s) (seen_offset s) (offset_pending s) false (top_words s)
    (first_select s) (quantifier s) (top s) (line_comment_at_end s).

Definition comment_flag (b : bool) (s : scan) : scan :=
  mk_scan (depth s) (after_order s) (seen_order s) (seen_offset s) (offset_pending s) (after_by s) (top_words s)
    (first_select s) (quantifier s) (top s) b.

Fixpoint block_comment (level : nat) (p : list ascii) : list ascii :=
  match level, p with
  | O, _ => p
  | _, [] => []
  | S l, a :: p' =>
      match p' with
      | b :: p'' =>
          if Ascii.eqb a "/" && Ascii.eqb b "*" then block_comment (S level) p''
          else if Ascii.eqb a "*" && Ascii.eqb b "/" then block_comment l p''
          else block_comment level p'
      | [] => []
      end
  end.

(** The loop over quoted text; a doubled closing quote is part of it. *)
Fixpoint quoted_text (close : ascii) (p : list ascii) : list ascii :=
  match p with
  | [] => []
  | a :: p' =>
      if Ascii.eqb a close then
        match p' with
        | b :: p'' => if Ascii.eqb b close then quoted_text close p'' else p'
        | [] => p'
        end
      else quoted_text close p'
  end.

(** A word at depth 0. *)
Definition top_word (w : list ascii) (s : scan) : scan :=
  let named name := ms_base_is w (length w) (str name) in
  let first := Nat.eqb (top_words s) 0 in
  let second := negb first && Nat.eqb (top_words s) 1 && first_select s in
  let third := negb first && negb second && Nat.eqb (top_words s) 2 && quantifier s && named "TOP" in
  let first_select' := if first then named "SELECT" else first_select s in
  let top' := if second && named "TOP" then true else if third then true else top s in
  let quantifier' := if second && negb (named "TOP") && (named "ALL" || named "DISTINCT") then true else quantifier s in
  let seen_offset' := if offset_pending s && (named "ROW" || named "ROWS") then true else seen_offset s in
  let offset_pending' := if seen_order s && negb (after_by s) && named "OFFSET" then true else offset_pending s in
  let after_by' := after_order s && named "BY" in
  mk_scan (depth s) (named "ORDER") (if after_by' then true else seen_order s) seen_offset' offset_pending' after_by'
    (S (top_words s)) first_select' quantifier' top' (line_comment_at_end s).

(** One turn of the loop at the character [c], with what follows it: the new
    state and where the next turn starts. *)
Definition scan_turn (c : ascii) (p : list ascii) (s : scan) : scan * list ascii :=
  let next_is d := match p with e :: _ => Ascii.eqb e d | [] => false end in
  if isspace c then (s, p)
  else if Ascii.eqb c "-" && next_is "-"%char then
    match skip (fun e => negb (Ascii.eqb e newline)) (drop 1 p) with
    | [] => (comment_flag true s, [])
    | r => (s, r)
    end
  else if Ascii.eqb c "/" && next_is "*"%char then (s, block_comment 1 (drop 1 p))
  else
    let s := comment_flag false s in
    if Ascii.eqb c squote || Ascii.eqb c dquote || Ascii.eqb c "[" then
      (other (depth s) s, quoted_text (if Ascii.eqb c "[" then "]"%char else c) p)
    else if Ascii.eqb c "(" then (other (S (depth s)) s, p)
    else if Ascii.eqb c ")" then (other (if (0 <? depth s)%nat then depth s - 1 else depth s)%nat s, p)
    else if ms_word_char c then
      let w := span ms_word_char (c :: p) in
      let r := skip ms_word_char (c :: p) in
      if Nat.eqb (length w) 1 && (Ascii.eqb c "N" || Ascii.eqb c "n") &&
         match r with e :: _ => Ascii.eqb e squote | [] => false end
      then (s, r)
      else (if Nat.eqb (depth s) 0 then top_word w s else s, r)
    else (other (depth s) s, p).

(** Every turn consumes a character, so the length of the text is enough fuel
    ([scan_loop_fuel]). *)
Fixpoint scan_loop (fuel : nat) (p : list ascii) (s : scan) : scan :=
  match fuel, p with
  | S f, c :: p' => let '(s, r) := scan_turn c p' s in scan_loop f r s
  | _, _ => s
  end.

Record shape := mk_shape { order_by : bool; offset : bool; starts_top : bool; ends_in_line_comment : bool }.

(** -1, with every answer 0, for a NULL text. *)
Definition mssql_sql_shape (sql : option (list ascii)) : shape * Z :=
  match sql with
  | None => (mk_shape false false false false, -1)
  | Some p =>
      let s := scan_loop (length p) p scan_start in
      (mk_shape (seen_order s) (seen_offset s) (top s) (line_comment_at_end s), 0)
  end.

(** ** The hooks *)

Definition ms_bind_placeholder (pos : Z) (out_max : nat) : option (list ascii) :=
  if pos <? 1 then None else ms_fmt out_max (str "?").

Definition ms_value_expr (dtype operand : option (list ascii)) (out_max : nat) : option (list ascii) :=
  match operand with
  | None => None
  | Some operand =>
      let dtype := skip isspace (default [] dtype) in
      let named name := ms_base_is dtype (ms_base_len dtype) (str name) in
      if named "DATETIME2" || named "DATETIME" || named "SMALLDATETIME" then
        ms_fmt out_max (str "CAST(" ++ operand ++ str " AS datetime2(7))")
      else if named "DATE" then ms_fmt out_max (str "CAST(" ++ operand ++ str " AS date)")
      else if named "DATETIMEOFFSET" then ms_fmt out_max (str "CAST(" ++ operand ++ str " AS datetimeoffset(7))")
      else if named "TIME" then ms_fmt out_max (str "CAST(" ++ operand ++ str " AS time(7))")
      else if named "VARBINARY" || named "BINARY" then
        ms_fmt out_max (str "CONVERT(varbinary(max), " ++ operand ++ str ", 2)")
      else ms_fmt out_max operand
  end.

Definition ms_lob_placeholder (dtype : option (list ascii)) : option (list ascii) :=
  match dtype with
  | None => None
  | Some dtype =>
      let dtype := skip isspace dtype in
      let n := ms_base_len dtype in
      if ms_has_max (drop n dtype) && ms_base_is dtype n (str "VARBINARY") then Some (str "0x")
      else if ms_base_is dtype n (str "IMAGE") then Some (str "0x")
      else None
  end.

Definition DB_DML_INSERT : Z := 0.
Definition DB_DML_UPDATE : Z := 1.

(** The loop that copies the key column into [q]: [u] characters are there
    already. *)
Fixpoint bracket_loop (p q : list ascii) : option (list ascii) :=
  match p with
  | [] => Some q
  | c :: p' =>
      if (300 <=? length q + 3)%nat then None
      else bracket_loop p' (q ++ c :: (if Ascii.eqb c "]" then ["]"%char] else []))
  end.

(** [key_columns] with [key_count] entries, each of which may be NULL; the
    answer is the texts of [mid] and [tail]. *)
Definition ms_row_locator_clauses (kind : Z) (loc : option (list (option (list ascii))))
    (mid_max tail_max : nat) : option (list ascii * list ascii) :=
  if (mid_max =? 0)%nat || (tail_max =? 0)%nat then None
  else if negb (kind =? DB_DML_INSERT) && negb (kind =? DB_DML_UPDATE) then None
  else
    match loc with
    | None | Some [] => Some ([], [])
    | Some [Some (c :: key)] =>
        q ← bracket_loop (c :: key) ["["%char];
        mid ← ms_fmt mid_max (str "OUTPUT inserted." ++ (q ++ ["]"%char]) ++ str " INTO @dm_k (k)");
        Some (mid, [])
    | Some _ => None
    end.

Definition ms_row_limit_sql (sql : option (list ascii)) (max_rows : Z) (out_max : nat) : option (list ascii) :=
  match sql with
  | None => None
  | Some text =>
      if max_rows <? 0 then None
      else
        let s := fst (mssql_sql_shape sql) in
        if order_by s && negb (offset s) && negb (starts_top s) then
          ms_fmt out_max (text ++ (if ends_in_line_comment s then [newline] else str " ") ++
            str "OFFSET 0 ROWS FETCH NEXT " ++ print_int max_rows ++ str " ROWS ONLY")
        else
          ms_fmt out_max (str "SELECT TOP (" ++ print_int max_rows ++ str ") * FROM (" ++ text ++
            (if ends_in_line_comment s then [newline] else []) ++ str ") AS dm_t")
  end.

(** What [ms_count_rows_sql] puts between the query and its closing
    parenthesis. *)
Definition count_mid (s : shape) : list ascii :=
  if order_by s && negb (offset s) && negb (starts_top s)
  then (if ends_in_line_comment s then newline :: str "OFFSET 0 ROWS" else str " OFFSET 0 ROWS")
  else (if ends_in_line_comment s then [newline] else []).

Definition ms_count_rows_sql (sql : option (list ascii)) (out_max : nat) : option (list ascii) :=
  match sql with
  | None => None
  | Some text =>
      ms_fmt out_max (str "SELECT COUNT(*) FROM (SELECT 1 AS dm_c FROM (" ++ text ++
        count_mid (fst (mssql_sql_shape sql)) ++ str ") AS dm_a) AS dm_b")
  end.

Definition ms_now_expr : list ascii := str "SYSDATETIME()".

Definition ms_add_seconds_expr (base_expr seconds_expr : option (list ascii)) (out_max : nat) : option (list ascii) :=
  base ← base_expr; seconds ← seconds_expr;
  ms_fmt out_max (str "DATEADD(second, CAST(" ++ seconds ++ str " AS int), " ++ base ++ str ")").

(** [snprintf(out + used, out_max - used, ...)], appending. *)
Definition ms_append (out_max : nat) (out t : list ascii) : option (list ascii) :=
  if (length t <? out_max - length out)%nat && (Z.of_nat (length t) <? 2 ^ 31) then Some (out ++ t) else None.

(** The loop over the parameters, [first] in its first turn. *)
Fixpoint param_loop (out_max : nat) (first : bool) (names : list (option (list ascii))) (out : list ascii)
    : option (list ascii) :=
  match names with
  | [] => Some out
  | None :: _ => None
  | Some _ :: names' =>
      out ← ms_append out_max out ((if first then [] else str ", ") ++ str "?");
      param_loop out_max false names' out
  end.

(** [param_names]: the [count] pointers, [None] when the array is NULL. *)
Definition ms_procedure_call_sql (proc_name : option (list ascii)) (param_names : option (list (option (list ascii))))
    (count : Z) (out_max : nat) : option (list ascii) :=
  match proc_name with
  | None => None
  | Some proc =>
      if count <? 0 then None
      else if (0 <? count) && match param_names with None => true | Some _ => false end then None
      else if (out_max =? 0)%nat then None
      else if count =? 0 then ms_fmt out_max (str "{CALL " ++ proc ++ str "}")
      else
        out ← ms_append out_max [] (str "{CALL " ++ proc ++ str "(");
        out ← param_loop out_max true (default [] param_names) out;
        ms_append out_max out (str ")}")
  end.

(** ** The reference: tokens, and the words outside parentheses *)

Inductive tok :=
| Blank
| LineComment (ended : bool)
| BlockComment (closed : bool)
| Quoted (closed : bool)
| Open
| Close
| Word (w : list ascii)
| NPrefix
| Punct.

Fixpoint block_closed (level : nat) (p : list ascii) : bool :=
  match level, p with
  | O, _ => true
  | _, [] => false
  | S l, a :: p' =>
      match p' with
      | b :: p'' =>
          if Ascii.eqb a "/" && Ascii.eqb b "*" then block_closed (S level) p''
          else if Ascii.eqb a "*" && Ascii.eqb b "/" then block_closed l p''
          else block_closed level p'
      | [] => false
      end
  end.

Fixpoint quoted_closed (close : ascii) (p : list ascii) : bool :=
  match p with
  | [] => false
  | a :: p' =>
      if Ascii.eqb a close then
        match p' with
        | b :: p'' => if Ascii.eqb b close then quoted_closed close p'' else true
        | [] => true
        end
      else quoted_closed close p'
  end.

Definition to_newline (p : list ascii) : list ascii := skip (fun e => negb (Ascii.eqb e newline)) p.
Definition closing (c : ascii) : ascii := if Ascii.eqb c "[" then "]"%char else c.
Definition starts (d : ascii) (p : list ascii) : bool := match p with e :: _ => Ascii.eqb e d | [] => false end.
Definition is_quote (c : ascii) : bool := Ascii.eqb c squote || Ascii.eqb c dquote || Ascii.eqb c "[".

(** The token that starts at [c], and the text after it. *)
Definition next_tok (c : ascii) (p : list ascii) : tok * list ascii :=
  if isspace c then (Blank, p)
  else if Ascii.eqb c "-" && starts "-" p then
    (LineComment (match to_newline (drop 1 p) with [] => false | _ => true end), to_newline (drop 1 p))
  else if Ascii.eqb c "/" && starts "*" p then (BlockComment (block_closed 1 (drop 1 p)), block_comment 1 (drop 1 p))
  else if is_quote c then (Quoted (quoted_closed (closing c) p), quoted_text (closing c) p)
  else if Ascii.eqb c "(" then (Open, p)
  else if Ascii.eqb c ")" then (Close, p)
  else if ms_word_char c then
    let w := span ms_word_char (c :: p) in
    let r := skip ms_word_char (c :: p) in
    if Nat.eqb (length w) 1 && (Ascii.eqb c "N" || Ascii.eqb c "n") && starts squote r then (NPrefix, r) else (Word w, r)
  else (Punct, p).

Fixpoint lex_loop (fuel : nat) (p : list ascii) : list tok :=
  match fuel, p with
  | S f, c :: p' => let '(t, r) := next_tok c p' in t :: lex_loop f r
  | _, _ => []
  end.
Definition lex (p : list ascii) : list tok := lex_loop (length p) p.

(** The tokens that count, outside parentheses: [Some w] for a word, [None]
    for a literal, a parenthesis or another character. *)
Fixpoint atoms (d : nat) (l : list tok) : list (option (list ascii)) :=
  match l with
  | [] => []
  | Word w :: l' => if Nat.eqb d 0 then Some w :: atoms d l' else atoms d l'
  | Open :: l' => None :: atoms (S d) l'
  | Close :: l' => None :: atoms (pred d) l'
  | (Quoted _ | Punct) :: l' => None :: atoms d l'
  | _ :: l' => atoms d l'
  end.

Definition depth_step (d : nat) (t : tok) : nat :=
  match t with Open => S d | Close => pred d | _ => d end.

Abbreviation atom := (option (list ascii)).

(** The word [n], in any case. *)
Definition kw (n : string) (w : list ascii) : Prop := map tolower w = map tolower (str n).

Definition ends_order (a : list atom) : Prop := exists a' o, a = a' ++ [Some o] /\ kw "ORDER" o.
Definition ends_by (a : list atom) : Prop :=
  exists a' o b, a = a' ++ [Some o; Some b] /\ kw "ORDER" o /\ kw "BY" b.
Definition has_order_by (a : list atom) : Prop := exists a', a' `prefix_of` a /\ ends_by a'.
(** OFFSET after an ORDER BY, but not as its first word: there it is the name
    of a column. *)
Definition ends_offset (a : list atom) : Prop :=
  exists a' w, a = a' ++ [Some w] /\ kw "OFFSET" w /\ has_order_by a' /\ ~ ends_by a'.
Definition has_pending (a : list atom) : Prop := exists a', a' `prefix_of` a /\ ends_offset a'.
Definition ends_rows (a : list atom) : Prop :=
  exists a' w, a = a' ++ [Some w] /\ (kw "ROW" w \/ kw "ROWS" w) /\ has_pending a'.
Definition has_offset (a : list atom) : Prop := exists a', a' `prefix_of` a /\ ends_rows a'.
Definition words (a : list atom) : list (list ascii) := omap id a.
Definition select_top (ws : list (list ascii)) : Prop :=
  match ws with
  | s :: t :: ws' =>
      kw "SELECT" s /\ (kw "TOP" t \/
        (kw "ALL" t \/ kw "DISTINCT" t) /\ match ws' with u :: _ => kw "TOP" u | [] => False end)
  | _ => False
  end.

(** *** The scanner follows the tokens *)

Definition tok_step (t : tok) (s : scan) : scan :=
  match t with
  | Blank | LineComment true | BlockComment _ => s
  | LineComment false => comment_flag true s
  | Quoted _ | Punct => other (depth s) (comment_flag false s)
  | Open => other (S (depth s)) (comment_flag false s)
  | Close => other (pred (depth s)) (comment_flag false s)
  | NPrefix => comment_flag false s
  | Word w => if Nat.eqb (depth s) 0 then top_word w (comment_flag false s) else comment_flag false s
  end.

Section scanner.
Implicit Types (p q w : list ascii) (s : scan) (a : list atom) (t : tok) (l : list tok).

Lemma scan_turn_tok c p s :
  scan_turn c p s = (tok_step (fst (next_tok c p)) s, snd (next_tok c p)).
Proof.
  unfold scan_turn, next_tok, is_quote, closing, starts, to_newline.
  destruct (isspace c); [done|]. destruct (Ascii.eqb c "-" && _); [by destruct (skip _ _)|].
  destruct (Ascii.eqb c "/" && _); [done|]. destruct (_ || _); [done|]. destruct (Ascii.eqb c "("); [done|].
  destruct (Ascii.eqb c ")"); [simpl; do 2 f_equal; by destruct (depth s) as [|[]]|]. destruct (ms_word_char c); [|done]. by destruct (_ && _).
Qed.

Lemma block_comment_length k p : (length (block_comment k p) <= length p)%nat /\
  forall c, (length (block_comment k (c :: p)) <= S (length p))%nat.
Proof.
  revert k. induction p as [|a p IH]; intros k.
  - split; [destruct k; simpl; lia|]. intros c. destruct k; simpl; lia.
  - split; [exact (proj2 (IH k) a)|]. intros c. destruct k as [|k]; [simpl; lia|]. cbn [block_comment].
    destruct (_ && _); [etransitivity; [apply (proj1 (IH _))|simpl; lia]|].
    destruct (_ && _); [etransitivity; [apply (proj1 (IH _))|simpl; lia]|]. etransitivity; [exact (proj2 (IH (S k)) a)|simpl; lia].
Qed.

Lemma quoted_text_length x p : (length (quoted_text x p) <= length p)%nat /\
  forall c, (length (quoted_text x (c :: p)) <= S (length p))%nat.
Proof.
  induction p as [|a p IH].
  - split; [simpl; lia|]. intros c. simpl. destruct (Ascii.eqb c x); simpl; lia.
  - split; [exact (proj2 IH a)|]. intros c. cbn [quoted_text].
    destruct (Ascii.eqb c x).
    + destruct (Ascii.eqb a x); [|simpl; lia]. etransitivity; [apply (proj1 IH)|simpl; lia].
    + etransitivity; [exact (proj2 IH a)|simpl; lia].
Qed.

Lemma next_tok_length c p : (length (snd (next_tok c p)) <= length p)%nat.
Proof.
  unfold next_tok, to_newline.
  assert (length (drop 1 p) <= length p)%nat as Hd by (rewrite length_drop; lia).
  pose proof (skip_length (fun e => negb (Ascii.eqb e newline)) (drop 1 p)).
  pose proof (proj1 (block_comment_length 1 (drop 1 p))). pose proof (proj1 (quoted_text_length (closing c) p)).
  pose proof (skip_length ms_word_char p).
  repeat (case_match; simpl; try lia); cbn [skip] in *; simplify_eq; simpl; try lia.
Qed.

Lemma lex_loop_fuel fuel p : (length p <= fuel)%nat -> lex_loop fuel p = lex p.
Proof.
  unfold lex. revert p. assert (forall k fuel p, (length p <= k)%nat -> (length p <= fuel)%nat ->
    lex_loop fuel p = lex_loop (length p) p) as H; [|by intros; apply (H (length p))].
  induction k as [|k IH]; intros f [|c p] Hk Hf; [by destruct f|simpl in Hk; lia|by destruct f|].
  destruct f as [|f]; simpl in Hf, Hk; [lia|]. cbn [length lex_loop].
  pose proof (next_tok_length c p). destruct (next_tok c p) as [t r]. simpl in *.
  rewrite (IH f r), (IH (length p) r) by lia. done.
Qed.

Lemma lex_cons c p : lex (c :: p) = fst (next_tok c p) :: lex (snd (next_tok c p)).
Proof.
  unfold lex at 1. cbn [length lex_loop]. pose proof (next_tok_length c p).
  destruct (next_tok c p) as [t r]. simpl in *. by rewrite lex_loop_fuel.
Qed.

Lemma scan_loop_fuel fuel p s : (length p <= fuel)%nat ->
  scan_loop fuel p s = foldl (fun s t => tok_step t s) s (lex p).
Proof.
  revert p s. induction fuel as [|f IH]; intros [|c p] s H; simpl in H; [done|lia|done|].
  cbn [scan_loop]. rewrite scan_turn_tok, lex_cons. cbn [foldl]. apply IH. pose proof (next_tok_length c p). lia.
Qed.

Lemma foldl_tok_depth l s : depth (foldl (fun s t => tok_step t s) s l) = foldl depth_step (depth s) l.
Proof.
  revert s. induction l as [|t l IH]; intros s; [done|]. cbn [foldl]. rewrite IH. f_equal.
  destruct t as [|[]| | | | | | |]; simpl; try done. by case_match.
Qed.

(** *** What the flags say *)

Lemma kw_spec n w : ms_base_is w (length w) (str n) = true <-> kw n w.
Proof.
  unfold ms_base_is, kw. rewrite andb_true_iff, Nat.eqb_eq, ci_prefix_spec. split.
  - intros [Hl [k Hk]]. rewrite Hk. destruct k as [|c k]; [by rewrite app_nil_r|].
    apply (f_equal length) in Hk. rewrite length_app, !length_map in Hk. simpl in Hk. lia.
  - intros H. rewrite H. split; [|done]. apply (f_equal length) in H. by rewrite !length_map in H.
Qed.

Lemma kw_apart n m w : kw n w -> kw m w -> map tolower (str n) = map tolower (str m).
Proof. unfold kw. by intros -> ->. Qed.

Lemma prefix_snoc {A} (Q : list A -> Prop) (a : list A) x :
  (exists b, b `prefix_of` a ++ [x] /\ Q b) <-> (exists b, b `prefix_of` a /\ Q b) \/ Q (a ++ [x]).
Proof.
  split.
  - intros (a' & Hp & HQ). destruct Hp as [k Hk]. destruct k as [|y k _] using rev_ind.
    + rewrite app_nil_r in Hk. subst. by right.
    + rewrite app_assoc in Hk. apply app_inj_tail in Hk as [-> ->]. left. exists a'. split; [by exists k|done].
  - intros [(a' & [k ->] & HQ)|HQ]; [|by exists (a ++ [x])]. exists a'. split; [|done].
    exists (k ++ [x]). by rewrite app_assoc.
Qed.

Lemma snoc_inj {A} (a b : list A) x y : a ++ [x] = b ++ [y] -> a = b /\ x = y.
Proof. apply app_inj_tail. Qed.

Lemma ends_order_snoc a x : ends_order (a ++ [x]) <-> exists w, x = Some w /\ kw "ORDER" w.
Proof.
  split; [|intros (w & -> & H); by exists a, w]. intros (a' & w & H & Hw). apply snoc_inj in H as [-> ->]. by exists w.
Qed.

Lemma ends_by_snoc a x : ends_by (a ++ [x]) <-> ends_order a /\ exists w, x = Some w /\ kw "BY" w.
Proof.
  split.
  - intros (a' & o & b & H & Ho & Hb). change [Some o; Some b] with ([Some o] ++ [Some b]) in H. rewrite app_assoc in H.
    apply snoc_inj in H as [-> ->]. split; [by exists a', o|by exists b].
  - intros ((a' & o & -> & Ho) & w & -> & Hw). exists a', o, w. by rewrite <- app_assoc.
Qed.

Lemma ends_offset_snoc a x :
  ends_offset (a ++ [x]) <-> (has_order_by a /\ ~ ends_by a) /\ exists w, x = Some w /\ kw "OFFSET" w.
Proof.
  split; [|intros ([H1 H2] & w & -> & Hw); by exists a, w].
  intros (a' & w & H & Hw & H1 & H2). apply snoc_inj in H as [-> ->]. split; [done|by exists w].
Qed.

Lemma ends_rows_snoc a x :
  ends_rows (a ++ [x]) <-> has_pending a /\ exists w, x = Some w /\ (kw "ROW" w \/ kw "ROWS" w).
Proof.
  split; [|intros (H & w & -> & Hw); by exists a, w].
  intros (a' & w & H & Hw & H1). apply snoc_inj in H as [-> ->]. split; [done|by exists w].
Qed.

(** The state of the scanner describes the atoms it has passed. *)
Record describes (a : list atom) (s : scan) : Prop := {
  d_after_order : after_order s = true <-> ends_order a;
  d_after_by : after_by s = true <-> ends_by a;
  d_seen_order : seen_order s = true <-> has_order_by a;
  d_pending : offset_pending s = true <-> has_pending a;
  d_seen_offset : seen_offset s = true <-> has_offset a;
  d_words : top_words s = length (words a);
  d_select : first_select s = true <-> match words a with w :: _ => kw "SELECT" w | [] => False end;
  d_quantifier : quantifier s = true <->
    match words a with w :: q :: _ => kw "SELECT" w /\ (kw "ALL" q \/ kw "DISTINCT" q) | _ => False end;
  d_top : top s = true <-> select_top (words a)
}.

Lemma describes_flag a b s : describes a s -> describes a (comment_flag b s).
Proof. intros []. by split. Qed.

Lemma describes_start : describes [] scan_start.
Proof.
  split; simpl; try done; split; try done.
  - intros (a' & o & H & _). by destruct a'.
  - intros (a' & o & b & H & _). by destruct a'.
  - intros (a' & Hp & a2 & o & b & -> & _). apply prefix_nil_inv in Hp. by destruct a2.
  - intros (a' & Hp & a2 & w & -> & _). apply prefix_nil_inv in Hp. by destruct a2.
  - intros (a' & Hp & a2 & w & -> & _). apply prefix_nil_inv in Hp. by destruct a2.
Qed.

Lemma describes_other a d s : describes a s -> describes (a ++ [None]) (other d s).
Proof.
  intros [H1 H2 H3 H4 H5 H6 H7 H8 H9].
  assert (words (a ++ [None]) = words a) as E by (unfold words; rewrite omap_app; simpl; by rewrite app_nil_r).
  split; rewrite ?E; cbn [after_order after_by seen_order offset_pending seen_offset top_words first_select quantifier top other]; try done.
  - rewrite ends_order_snoc. split; [done|]. by intros (? & ? & _).
  - rewrite ends_by_snoc. split; [done|]. by intros (_ & ? & ? & _).
  - unfold has_order_by. rewrite prefix_snoc, ends_by_snoc, H3. split; [by left|]. by intros [?|(_ & ? & ? & _)].
  - unfold has_pending. rewrite prefix_snoc, ends_offset_snoc, H4. split; [by left|]. by intros [?|(_ & ? & ? & _)].
  - unfold has_offset. rewrite prefix_snoc, ends_rows_snoc, H5. split; [by left|]. by intros [?|(_ & ? & ? & _)].
Qed.

Lemma some_kw (n : string) w : (exists v, Some w = Some v /\ kw n v) <-> kw n w.
Proof. split; [by intros (v & [= ->] & H)|by exists w]. Qed.

Lemma and_true_iff (b c : bool) (P Q : Prop) : (b = true <-> P) -> (c = true <-> Q) -> (b && c = true <-> P /\ Q).
Proof. rewrite andb_true_iff. tauto. Qed.

Lemma if_true_iff (b c : bool) (P Q : Prop) :
  (b = true <-> P) -> (c = true <-> Q) -> ((if b then true else c) = true <-> Q \/ P).
Proof. intros <- <-. destruct b, c; intuition congruence. Qed.

Lemma kw_rows w : (exists v, Some w = Some v /\ (kw "ROW" v \/ kw "ROWS" v)) <-> kw "ROW" w \/ kw "ROWS" w.
Proof. split; [by intros (v & [= ->] & H)|by exists w]. Qed.

Lemma describes_word a w s : describes a s -> describes (a ++ [Some w]) (top_word w s).
Proof.
  intros [H1 H2 H3 H4 H5 H6 H7 H8 H9].
  assert (words (a ++ [Some w]) = words a ++ [w]) as E by (unfold words; by rewrite omap_app).
  assert (after_order s && ms_base_is w (length w) (str "BY") = true <-> ends_by (a ++ [Some w])) as Hby.
  { rewrite ends_by_snoc, some_kw. apply and_true_iff; [done|apply kw_spec]. }
  split; rewrite ?E; unfold top_word;
    cbn [after_order after_by seen_order offset_pending seen_offset top_words first_select quantifier top].
  - rewrite ends_order_snoc, some_kw. apply kw_spec.
  - exact Hby.
  - unfold has_order_by. rewrite prefix_snoc. by apply if_true_iff.
  - unfold has_pending. rewrite prefix_snoc, ends_offset_snoc, some_kw. apply if_true_iff; [|done].
    apply and_true_iff; [|apply kw_spec].
    apply and_true_iff; [done|]. rewrite negb_true_iff, <- H2. by destruct (after_by s).
  - unfold has_offset. rewrite prefix_snoc, ends_rows_snoc, kw_rows. apply if_true_iff; [|done].
    apply and_true_iff; [done|]. by rewrite orb_true_iff, !kw_spec.
  - rewrite length_app, H6. simpl. lia.
  - rewrite H6. destruct (words a) as [|v [|v2 l]]; cbn [length Nat.eqb app]; [apply kw_spec|done|done].
  - rewrite H6. destruct (words a) as [|v [|v2 l]]; cbn [length Nat.eqb app negb andb]; [done| |done].
    assert (quantifier s = false) as -> by (destruct (quantifier s); [by destruct (proj1 H8)|done]).
    case_match eqn:Hm; [|]; revert Hm; rewrite ?andb_true_iff, ?orb_true_iff, ?negb_true_iff.
    + intros [[Hf _] Hq]. rewrite !kw_spec in Hq. split; [|done]. intros _. split; [by apply H7|done].
    + intros Hm. split; [done|]. intros [Hs Hq]. exfalso. apply H7 in Hs. rewrite Hs in Hm.
      assert (ms_base_is w (length w) (str "TOP") = false) as Et.
      { apply not_true_iff_false. rewrite kw_spec. intros Ht. by destruct Hq as [Hq|Hq]; pose proof (kw_apart _ _ _ Ht Hq). }
      rewrite Et in Hm. cbn [andb negb] in Hm. rewrite <- !kw_spec, <- orb_true_iff in Hq. congruence.
  - rewrite H6. destruct (words a) as [|v [|v2 [|v3 l]]]; cbn [length Nat.eqb app negb andb]; cbn [select_top] in H9 |- *; [done| | |].
    + destruct (first_select s) eqn:Ef; cbn [andb negb].
      * assert (kw "SELECT" v) by tauto. destruct (ms_base_is w _ (str "TOP")) eqn:Et; [apply kw_spec in Et; tauto|].
        cbn [andb negb]. rewrite H9. split; [done|]. intros [_ [Ht|[_ []]]]. apply kw_spec in Ht. congruence.
      * rewrite H9. split; [done|]. intros [Hs _]. by apply H7 in Hs.
    + destruct (quantifier s) eqn:Eq; cbn [andb].
      * assert (kw "SELECT" v /\ (kw "ALL" v2 \/ kw "DISTINCT" v2)) as [? ?] by tauto.
        destruct (ms_base_is w _ (str "TOP")) eqn:Et; [apply kw_spec in Et; tauto|].
        rewrite H9. split; [tauto|]. intros [_ [Ht|[_ Hu]]]; [tauto|]. apply kw_spec in Hu. congruence.
      * rewrite H9. split; [tauto|]. intros [Hs [Ht|[Hq _]]]; [tauto|]. assert (false = true) by tauto. done.
    + done.
Qed.

Lemma describes_toks l a s : describes a s ->
  describes (a ++ atoms (depth s) l) (foldl (fun s t => tok_step t s) s l).
Proof.
  revert a s. induction l as [|t l IH]; intros a s H; [by rewrite app_nil_r|]. cbn [foldl].
  pose proof (describes_flag a false s H) as Hf.
  destruct t as [|[]| | | | |w| |]; cbn [atoms tok_step]; try (by apply IH).
  - apply (IH _ (comment_flag true s)). by apply describes_flag.
  - rewrite cons_middle, app_assoc. apply (IH _ (other _ (comment_flag false s))). by apply describes_other.
  - rewrite cons_middle, app_assoc. apply (IH _ (other _ (comment_flag false s))). by apply describes_other.
  - rewrite cons_middle, app_assoc. apply (IH _ (other _ (comment_flag false s))). by apply describes_other.
  - destruct (Nat.eqb (depth s) 0) eqn:E; [|by apply (IH _ (comment_flag false s))].
    rewrite cons_middle, app_assoc. apply (IH _ (top_word w (comment_flag false s))). by apply describes_word.
  - by apply (IH _ (comment_flag false s)).
  - rewrite cons_middle, app_assoc. apply (IH _ (other _ (comment_flag false s))). by apply describes_other.
Qed.

Definition unended (l : list tok) : Prop := list.last l = Some (LineComment false).

Lemma next_tok_unended c p : fst (next_tok c p) = LineComment false -> snd (next_tok c p) = [].
Proof. unfold next_tok. repeat (case_match; simpl; try done). Qed.

Lemma comment_flag_lex k : forall p s, (length p <= k)%nat -> line_comment_at_end s = false ->
  line_comment_at_end (foldl (fun s t => tok_step t s) s (lex p)) = true <-> unended (lex p).
Proof.
  induction k as [|k IH]; intros [|c p] s Hk Hs; simpl in Hk; try lia; [by cbn; rewrite Hs|by cbn; rewrite Hs|].
  rewrite lex_cons. cbn [foldl]. pose proof (next_tok_length c p) as Hl. pose proof (next_tok_unended c p) as Hu.
  destruct (next_tok c p) as [t r]. cbn [fst snd] in *.
  assert (t = LineComment false \/ line_comment_at_end (tok_step t s) = false) as [->|Hf].
  { destruct t as [|[]| | | | | | |]; simpl; auto. right. by case_match. }
  - rewrite (Hu eq_refl). done.
  - rewrite (IH r (tok_step t s)) by (done || lia). unfold unended. destruct r as [|d r].
    + split; [done|]. cbn. intros [= ->]. done.
    + rewrite lex_cons. done.
Qed.

(** The four answers of the scanner, and its reference. *)
Record shape_of (p : list ascii) (r : shape) : Prop := {
  so_order : order_by r = true <-> has_order_by (atoms 0 (lex p));
  so_offset : offset r = true <-> has_offset (atoms 0 (lex p));
  so_top : starts_top r = true <-> select_top (words (atoms 0 (lex p)));
  so_comment : ends_in_line_comment r = true <-> unended (lex p)
}.

Lemma shape_of_text p : shape_of p (fst (mssql_sql_shape (Some p))).
Proof.
  cbn [mssql_sql_shape fst]. rewrite scan_loop_fuel by done.
  destruct (describes_toks (lex p) [] scan_start describes_start). split; cbn [order_by offset starts_top ends_in_line_comment]; try done.
  by apply (comment_flag_lex (length p)).
Qed.

(** *** Texts put together *)

Definition whole_tok (t : tok) : bool := match t with BlockComment b | Quoted b => b | _ => true end.

(** Nothing is left open at the end of [p]: no literal, no block comment, no
    parenthesis - and none was closed that was not open. *)
Fixpoint balanced (d : nat) (l : list tok) : bool :=
  match l with
  | [] => Nat.eqb d 0
  | Open :: l' => balanced (S d) l'
  | Close :: l' => match d with O => false | S d' => balanced d' l' end
  | _ :: l' => balanced d l'
  end.
Definition complete (p : list ascii) : Prop := forallb whole_tok (lex p) = true /\ balanced 0 (lex p) = true.

(** A character that can follow any complete text. *)
Definition boundary (c : ascii) : bool := isspace c || Ascii.eqb c "(" || Ascii.eqb c ")".

Definition end_comment (t : tok) : tok := match t with LineComment _ => LineComment true | _ => t end.

Lemma block_app k c q p : block_closed k p = true ->
  block_comment k (p ++ c :: q) = block_comment k p ++ c :: q /\ block_closed k (p ++ c :: q) = true.
Proof.
  assert (forall n k p, (length p <= n)%nat -> block_closed k p = true ->
    block_comment k (p ++ c :: q) = block_comment k p ++ c :: q /\ block_closed k (p ++ c :: q) = true) as H; [|by apply (H (length p))].
  clear k p. intros n. induction n as [|n IH]; intros k p Hn; (destruct k as [|k]; [by destruct p|]); (destruct p as [|a [|b p]]; [done|simpl in Hn; try lia|simpl in Hn; try lia]).
  - done.
  - cbn [block_closed block_comment app]. destruct (_ && _); [apply IH; simpl in *; lia|].
    destruct (_ && _); [apply IH; simpl in *; lia|]. apply (IH (S k) (b :: p)). simpl in *. lia.
Qed.

Lemma quoted_app x c q p : Ascii.eqb c x = false -> quoted_closed x p = true ->
  quoted_text x (p ++ c :: q) = quoted_text x p ++ c :: q /\ quoted_closed x (p ++ c :: q) = true.
Proof.
  intros Hc. assert (forall n p, (length p <= n)%nat -> quoted_closed x p = true ->
    quoted_text x (p ++ c :: q) = quoted_text x p ++ c :: q /\ quoted_closed x (p ++ c :: q) = true) as H; [|by apply (H (length p))].
  clear p. intros n. induction n as [|n IH]; intros [|a p] Hn; simpl in Hn; try lia; [done|done|].
  cbn [quoted_closed quoted_text app]. destruct (Ascii.eqb a x); [|apply IH; lia].
  destruct p as [|b p]; simpl; [by rewrite Hc|]. destruct (Ascii.eqb b x); [apply IH; simpl in *; lia|done].
Qed.

Lemma boundary_spec c : boundary c = true ->
  ms_word_char c = false /\ Ascii.eqb c "-" = false /\ Ascii.eqb c "*" = false /\ Ascii.eqb c squote = false /\
  Ascii.eqb c dquote = false /\ Ascii.eqb c "]" = false.
Proof. repeat split; revert H; all_ascii c. Qed.

Lemma starts_app d p c q : Ascii.eqb c d = false -> starts d (p ++ c :: q) = starts d p.
Proof. by destruct p. Qed.

(** A complete token is read the same with more text behind it; only a
    comment to the end of the line needs that end. *)
Lemma next_tok_app (a : ascii) p c q : boundary c = true -> whole_tok (fst (next_tok a p)) = true ->
  (fst (next_tok a p) = LineComment false -> c = newline) ->
  next_tok a (p ++ c :: q) = (end_comment (fst (next_tok a p)), snd (next_tok a p) ++ c :: q).
Proof.
  intros (Hw & H1 & H2 & H3 & H4 & H5)%boundary_spec. unfold next_tok. rewrite !(starts_app _ p) by done.
  destruct (isspace a); [done|].
  destruct (Ascii.eqb a "-" && starts "-" p) eqn:E1.
  { destruct p as [|b p]; [by rewrite andb_false_r in E1|]. cbn [drop app]. rewrite !drop_0. unfold to_newline. cbn [fst snd]. intros _ Hn.
    destruct (Ascii.eqb c newline) eqn:Ec.
    - rewrite skip_app_cons by (by rewrite Ec). by destruct (skip _ p).
    - apply Ascii.eqb_neq in Ec. revert Hn. clear E1. induction p as [|e p IH]; cbn [skip].
      + intros Hn. by destruct (Ec (Hn eq_refl)).
      + cbn [app skip]. destruct (negb (Ascii.eqb e newline)); [exact IH|done]. }
  destruct (Ascii.eqb a "/" && starts "*" p) eqn:E2.
  { destruct p as [|b p]; [by rewrite andb_false_r in E2|]. cbn [drop app fst snd whole_tok]. rewrite !drop_0. intros Hb _.
    destruct (block_app 1 c q p Hb) as [-> ->]. by rewrite Hb. }
  destruct (is_quote a) eqn:Eq.
  { cbn [fst snd whole_tok]. intros Hb _.
    assert (Ascii.eqb c (closing a) = false) as Hc.
    { unfold closing, is_quote in *. destruct (Ascii.eqb a "["); [done|]. rewrite orb_false_r in Eq.
      apply orb_true_iff in Eq as [->%Ascii.eqb_eq| ->%Ascii.eqb_eq]; done. }
    destruct (quoted_app (closing a) c q p Hc Hb) as [-> ->]. by rewrite Hb. }
  destruct (Ascii.eqb a "("); [done|]. destruct (Ascii.eqb a ")"); [done|].
  destruct (ms_word_char a) eqn:Ea; [|done]. rewrite app_comm_cons, span_app_cons, skip_app_cons by done.
  intros _ _. rewrite starts_app by done. by destruct (_ && starts squote _).
Qed.

Lemma lex_app p c q : boundary c = true -> forallb whole_tok (lex p) = true ->
  (unended (lex p) -> c = newline) -> lex (p ++ c :: q) = map end_comment (lex p) ++ lex (c :: q).
Proof.
  intros Hc. assert (forall n p, (length p <= n)%nat -> forallb whole_tok (lex p) = true ->
    (unended (lex p) -> c = newline) -> lex (p ++ c :: q) = map end_comment (lex p) ++ lex (c :: q)) as H; [|by apply (H (length p))].
  clear p. intros n. induction n as [|n IH]; intros [|a p] Hn Hw Hu; simpl in Hn; try lia; [done|done|].
  cbn [app]. rewrite lex_cons in Hw, Hu |- *. rewrite lex_cons. cbn [forallb] in Hw. bools.
  pose proof (next_tok_length a p). pose proof (next_tok_unended a p) as Hr. rewrite next_tok_app; [|done|done|].
  - cbn [fst snd map app]. f_equal. apply IH; [lia|done|]. intros Hx. apply Hu. unfold unended in *.
    destruct (lex (snd (next_tok a p))); [done|]. done.
  - intros Ht. apply Hu. unfold unended. by rewrite Ht, (Hr Ht).
Qed.

Lemma balanced_app l1 l2 d k : balanced d l1 = true -> balanced (d + k) (l1 ++ l2) = balanced k l2.
Proof.
  revert d. induction l1 as [|t l1 IH]; intros d H; cbn [balanced app] in *.
  - by apply Nat.eqb_eq in H as ->.
  - destruct t; try (by apply IH); [by apply (IH (S d))|]. destruct d as [|d]; [done|]. by apply IH.
Qed.

Lemma atoms_app l1 l2 d : balanced d l1 = true -> atoms d (l1 ++ l2) = atoms d l1 ++ atoms 0 l2.
Proof.
  revert d. induction l1 as [|t l1 IH]; intros d H; cbn [balanced app atoms] in *.
  - by apply Nat.eqb_eq in H as ->.
  - destruct t; rewrite ?(IH d) by done; try done.
    + by rewrite (IH (S d)).
    + destruct d as [|d]; [done|]. cbn [pred]. by rewrite (IH d).
    + by destruct (Nat.eqb d 0).
Qed.

Lemma end_comment_atoms l d : atoms d (map end_comment l) = atoms d l.
Proof. revert d. induction l as [|t l IH]; intros d; [done|]. destruct t; cbn; by rewrite ?IH. Qed.

Lemma end_comment_balanced l d : balanced d (map end_comment l) = balanced d l.
Proof. revert d. induction l as [|t l IH]; intros d; [done|]. destruct t; cbn; rewrite ?IH; try done. by destruct d. Qed.

Lemma end_comment_whole l : forallb whole_tok (map end_comment l) = forallb whole_tok l.
Proof. induction l as [|t l IH]; [done|]. destruct t; cbn; by rewrite ?IH. Qed.

Lemma unended_app l1 l2 : l2 <> [] -> unended (l1 ++ l2) <-> unended l2.
Proof. intros H. unfold unended. rewrite last_app. destruct l2; [done|]. rewrite last_cons. by destruct (list.last l2). Qed.

(** A text goes on after a complete one. *)
Lemma lex_then p c q : boundary c = true -> complete p -> (unended (lex p) -> c = newline) ->
  atoms 0 (lex (p ++ c :: q)) = atoms 0 (lex p) ++ atoms 0 (lex (c :: q)) /\
  (unended (lex (p ++ c :: q)) <-> unended (lex (c :: q))) /\
  (complete (c :: q) -> complete (p ++ c :: q)).
Proof.
  intros Hc [Hw Hb] Hu. rewrite (lex_app p c q Hc Hw Hu). unfold complete. rewrite (lex_app p c q Hc Hw Hu).
  split; [|split].
  - rewrite atoms_app by (by rewrite end_comment_balanced). by rewrite end_comment_atoms.
  - apply unended_app. by rewrite lex_cons.
  - intros [H1 H2]. rewrite forallb_app, end_comment_whole, Hw, H1. split; [done|].
    change 0%nat with (0 + 0)%nat. by rewrite balanced_app by (by rewrite end_comment_balanced).
Qed.

Lemma lex_word w : w <> [] -> Forall (fun c => ms_word_char c = true) w -> lex w = [Word w].
Proof.
  intros Hn H. destruct w as [|c w]; [done|].
  assert (forall v, Forall (fun c => ms_word_char c = true) v -> span ms_word_char v = v /\ skip ms_word_char v = []) as Hs.
  { induction 1 as [|d v Hd _ [E1 E2]]; [done|]. simpl. by rewrite Hd, E1, E2. }
  rewrite lex_cons. unfold next_tok. destruct (Hs _ H) as [-> ->]. apply Forall_cons_1 in H as [Hc _]. rewrite Hc.
  assert (isspace c = false /\ Ascii.eqb c "-" = false /\ Ascii.eqb c "/" = false /\ is_quote c = false /\
    Ascii.eqb c "(" = false /\ Ascii.eqb c ")" = false) as (-> & -> & -> & -> & -> & ->)
    by (repeat split; revert Hc; clear; all_ascii c).
  cbn [andb starts]. by rewrite andb_false_r.
Qed.

(** *** The queries the hooks build *)

(** What the server asks of a derived table: an ORDER BY of its own only with
    OFFSET or TOP; and no comment may swallow what follows it. *)
Definition derivable (p : list ascii) : Prop :=
  let r := fst (mssql_sql_shape (Some p)) in
  complete p /\ ends_in_line_comment r = false /\ (order_by r = true -> offset r = true \/ starts_top r = true).

Lemma has_offset_append a w v x rest : has_order_by a -> ~ ends_by a -> kw "OFFSET" w -> kw "ROWS" v ->
  has_offset (a ++ Some w :: Some x :: Some v :: rest).
Proof.
  intros Ho Hb Hw Hv. exists (a ++ [Some w; Some x; Some v]). split.
  { exists rest. by rewrite <- app_assoc. }
  change [Some w; Some x; Some v] with ([Some w; Some x] ++ [Some v]). rewrite app_assoc. apply ends_rows_snoc.
  split; [|exists v; auto]. exists (a ++ [Some w]). split; [by exists [Some x]; rewrite <- app_assoc|].
  apply ends_offset_snoc. split; [done|by exists w].
Qed.

Lemma false_iff (b : bool) (P : Prop) : (b = true <-> P) -> ~ P -> b = false.
Proof. intros <-. by apply not_true_is_false. Qed.

(** OFFSET is appended to an ordered query on a line that is still read. *)
Lemma derivable_offset p c tail rest :
  complete p -> ~ ends_by (atoms 0 (lex p)) -> has_order_by (atoms 0 (lex p)) ->
  isspace c = true -> (unended (lex p) -> c = newline) ->
  atoms 0 (lex (c :: tail)) = Some (str "OFFSET") :: Some (str "0") :: Some (str "ROWS") :: rest ->
  complete (c :: tail) -> ~ unended (lex (c :: tail)) -> derivable (p ++ c :: tail).
Proof.
  intros Hp Hb Ho Hc Hu Ea Ht Hl.
  assert (boundary c = true) as Hbd by (unfold boundary; by rewrite Hc).
  destruct (lex_then p c tail Hbd Hp Hu) as (E1 & E2 & E3).
  destruct (shape_of_text (p ++ c :: tail)) as [_ S2 _ S4]. split; [by apply E3|]. split.
  - apply (false_iff _ _ S4). by rewrite E2.
  - intros _. left. apply S2. rewrite E1, Ea. by apply has_offset_append.
Qed.

(** A query that needs no OFFSET, with its last line ended. *)
Lemma derivable_ended p :
  complete p -> let r := fst (mssql_sql_shape (Some p)) in
  order_by r && negb (offset r) && negb (starts_top r) = false ->
  derivable (p ++ (if ends_in_line_comment r then [newline] else [])).
Proof.
  intros Hp r Hn. subst r. pose proof (shape_of_text p) as [S1 S2 S3 S4]. set (r := fst _) in *.
  assert (order_by r = true -> offset r = true \/ starts_top r = true) as Hd.
  { intros E. rewrite E in Hn. destruct (offset r), (starts_top r); auto. }
  destruct (ends_in_line_comment r) eqn:E; [|by rewrite app_nil_r].
  destruct (lex_then p newline [] eq_refl Hp ltac:(done)) as (E1 & E2 & E3).
  pose proof (shape_of_text (p ++ [newline])) as [T1 T2 T3 T4]. unfold derivable. set (r' := fst (mssql_sql_shape (Some (p ++ _)))) in *.
  rewrite E1 in T1, T2, T3. change (atoms 0 (lex [newline])) with (@nil atom) in *. rewrite app_nil_r in *.
  split; [by apply E3|]. split; [apply (false_iff _ _ T4); by rewrite E2|].
  rewrite T1, T2, T3, <- S1, <- S2, <- S3. exact Hd.
Qed.

Lemma ms_fmt_Some n (u o : list ascii) : ms_fmt n u = Some o -> o = u.
Proof. unfold ms_fmt. destruct (_ && _); congruence. Qed.

Lemma ms_fmt_fits n (u o : list ascii) : ms_fmt n u = Some o -> (length o < n)%nat.
Proof.
  unfold ms_fmt. destruct (_ && _) eqn:E; [|done]. intros [= <-]. apply andb_prop in E as [E _]. by apply Nat.ltb_lt in E.
Qed.

Lemma print_dec_word n : lex (print_dec n) = [Word (print_dec n)].
Proof.
  apply lex_word; [by apply dec_loop_nonempty|]. eapply List.Forall_impl; [|apply print_dec_digits].
  intros c. cbv beta. all_ascii c.
Qed.

(** What is put around a complete query stays outside of it. *)
Lemma lex_wrap pre p post :
  forallb whole_tok (lex pre) = true -> ~ unended (lex pre) -> complete p -> ~ unended (lex p) ->
  lex (pre ++ "("%char :: p ++ ")"%char :: post) =
    map end_comment (lex pre) ++ Open :: map end_comment (lex p) ++ Close :: lex post.
Proof.
  intros Hw Hu [Hp Hb] Hn. rewrite lex_app by done. f_equal. rewrite lex_cons.
  change (next_tok "(" ?x) with (Open, x). cbn [fst snd]. f_equal. by rewrite lex_app by done.
Qed.

Lemma limit_prefix n : 0 <= n ->
  lex (str "SELECT TOP (" ++ print_int n ++ str ") * FROM ") =
  [Word (str "SELECT"); Blank; Word (str "TOP"); Blank; Open; Word (print_dec n); Close; Blank; Punct; Blank; Word (str "FROM"); Blank].
Proof.
  intros H. unfold print_int. destruct (Z.ltb_spec n 0); [lia|].
  change (str "SELECT TOP (" ++ ?x) with (str "SELECT TOP " ++ "("%char :: x).
  rewrite lex_app by done. change (map end_comment (lex (str "SELECT TOP "))) with [Word (str "SELECT"); Blank; Word (str "TOP"); Blank].
  rewrite lex_cons. change (next_tok "(" ?x) with (Open, x). cbn [fst snd].
  change (str ") * FROM ") with (")"%char :: str " * FROM "). rewrite lex_app; [|done|by rewrite print_dec_word|by rewrite print_dec_word].
  rewrite print_dec_word. done.
Qed.

Lemma limit_tail n c : 0 <= n -> isspace c = true -> let tail := str "OFFSET 0 ROWS FETCH NEXT " ++ print_int n ++ str " ROWS ONLY" in
  lex (c :: tail) = [Blank; Word (str "OFFSET"); Blank; Word (str "0"); Blank; Word (str "ROWS"); Blank; Word (str "FETCH"); Blank;
    Word (str "NEXT"); Blank; Word (print_dec n); Blank; Word (str "ROWS"); Blank; Word (str "ONLY")].
Proof.
  intros H Hc. cbv zeta. rewrite lex_cons. unfold next_tok. rewrite Hc. cbn [fst snd]. f_equal.
  unfold print_int. destruct (Z.ltb_spec n 0); [lia|].
  change (str "OFFSET 0 ROWS FETCH NEXT " ++ ?x) with (str "OFFSET 0 ROWS FETCH NEXT" ++ " "%char :: x).
  rewrite lex_app by done. rewrite lex_cons. change (next_tok " " ?x) with (Blank, x). cbn [fst snd].
  change (str " ROWS ONLY") with (" "%char :: str "ROWS ONLY"). rewrite lex_app; [|done|by rewrite print_dec_word|by rewrite print_dec_word].
  rewrite print_dec_word. done.
Qed.
End scanner.

(** ** Tokens, said anew

    How a text of Transact-SQL falls into tokens, by rules, with none of the
    scanner's functions.  A comment between slashes and stars holds whole
    comments; a quoted text ends at a closing character that is not doubled; a
    word is as long as it can be. *)

Definition eol : ascii := "010"%char.
Definition blank_char (c : ascii) : Prop := In (N_of_ascii c) [9; 10; 11; 12; 13; 32]%N.
Definition name_char (c : ascii) : Prop :=
  In c (str "abcdefghijklmnopqrstuvwxyzABCDEFGHIJKLMNOPQRSTUVWXYZ0123456789_@#$") \/ (128 <= N_of_ascii c)%N.
Definition begins (t p : list ascii) : Prop := t `prefix_of` p.

(** What follows the star that opened a comment, and what follows its end. *)
Inductive in_comment : list ascii -> list ascii -> Prop :=
| comment_ends r : in_comment (str "*/" ++ r) r
| comment_nested p q r : in_comment p q -> in_comment q r -> in_comment (str "/*" ++ p) r
| comment_char c p r : ~ begins (str "/*") (c :: p) -> ~ begins (str "*/") (c :: p) -> in_comment p r -> in_comment (c :: p) r.

(** What follows an opening quote, and what follows the closing one. *)
Inductive in_quotes (close : ascii) : list ascii -> list ascii -> Prop :=
| quotes_end r : ~ begins [close] r -> in_quotes close (close :: r) r
| quotes_doubled p r : in_quotes close p r -> in_quotes close (close :: close :: p) r
| quotes_char c p r : c <> close -> in_quotes close p r -> in_quotes close (c :: p) r.

Definition quote_pair (o c : ascii) : Prop := In (o, c) [("'", "'"); ("034", "034"); ("[", "]")]%char.
Definition n_before_quote (w q : list ascii) : Prop := In w [str "N"; str "n"] /\ begins (str "'") q.

Inductive sql_tokens : list ascii -> list tok -> Prop :=
| toks_end : sql_tokens [] []
| toks_blank c p l : blank_char c -> sql_tokens p l -> sql_tokens (c :: p) (Blank :: l)
| toks_line t q l : ~ In eol t -> sql_tokens (eol :: q) l -> sql_tokens (str "--" ++ t ++ eol :: q) (LineComment true :: l)
| toks_line_end t : ~ In eol t -> sql_tokens (str "--" ++ t) [LineComment false]
| toks_comment p q l : in_comment p q -> sql_tokens q l -> sql_tokens (str "/*" ++ p) (BlockComment true :: l)
| toks_comment_open p : (forall q, ~ in_comment p q) -> sql_tokens (str "/*" ++ p) [BlockComment false]
| toks_quoted o c p q l : quote_pair o c -> in_quotes c p q -> sql_tokens q l -> sql_tokens (o :: p) (Quoted true :: l)
| toks_quoted_open o c p : quote_pair o c -> (forall q, ~ in_quotes c p q) -> sql_tokens (o :: p) [Quoted false]
| toks_open p l : sql_tokens p l -> sql_tokens ("("%char :: p) (Open :: l)
| toks_close p l : sql_tokens p l -> sql_tokens (")"%char :: p) (Close :: l)
| toks_prefix w q l : n_before_quote w q -> sql_tokens q l -> sql_tokens (w ++ q) (NPrefix :: l)
| toks_word w q l : w <> [] -> Forall name_char w -> (forall c q', q = c :: q' -> ~ name_char c) -> ~ n_before_quote w q ->
    sql_tokens q l -> sql_tokens (w ++ q) (Word w :: l)
| toks_punct c p l : ~ blank_char c -> ~ name_char c -> ~ In c (str "'[()") -> c <> "034"%char ->
    ~ begins (str "--") (c :: p) -> ~ begins (str "/*") (c :: p) -> sql_tokens p l -> sql_tokens (c :: p) (Punct :: l).

Section tokenizing.
Implicit Types (p q r w t : list ascii) (c d : ascii) (l : list tok).

Lemma blank_char_spec c : isspace c = true <-> blank_char c.
Proof. unfold blank_char. destruct c as [[] [] [] [] [] [] [] []]; vm_compute; intuition congruence. Qed.

Lemma name_char_spec c : ms_word_char c = true <-> name_char c.
Proof. unfold name_char. destruct c as [[] [] [] [] [] [] [] []]; vm_compute; intuition congruence. Qed.

Lemma begins2 a b c p : begins [a; b] (c :: p) <-> c = a /\ exists q, p = b :: q.
Proof.
  split.
  - intros [k Hk]. injection Hk as -> ->. split; [done|by eexists].
  - intros [-> [q ->]]. by exists q.
Qed.

Lemma begins_spec a b c p : Ascii.eqb c a && starts b p = true <-> begins [a; b] (c :: p).
Proof.
  rewrite begins2, andb_true_iff, Ascii.eqb_eq. unfold starts. split; intros [-> H]; (split; [done|]).
  - destruct p as [|e p]; [done|]. apply Ascii.eqb_eq in H as ->. by eexists.
  - destruct H as [q ->]. by rewrite Ascii.eqb_refl.
Qed.

(** *** Comments *)

Lemma in_comment_length p r : in_comment p r -> (length r < length p)%nat.
Proof. induction 1; rewrite ?length_app in *; cbn [length str String.list_ascii_of_string] in *; lia. Qed.

Lemma in_comment_spec p r : in_comment p r -> forall k, block_comment (S k) p = block_comment k r /\ block_closed (S k) p = block_closed k r.
Proof.
  induction 1 as [r|p q r _ IH1 _ IH2|c p r Ho Hc _ IH]; intros k.
  - done.
  - destruct (IH1 (S k)) as [E1 E2]. destruct (IH2 k) as [F1 F2]. split; [exact (eq_trans E1 F1)|exact (eq_trans E2 F2)].
  - destruct p as [|b p]; [destruct (IH k) as [E1 E2]; cbn [block_comment block_closed] in *; by split|].
    cbn [block_comment block_closed].
    assert (Ascii.eqb c "/" && Ascii.eqb b "*" = false) as ->.
    { apply not_true_iff_false. intros [->%Ascii.eqb_eq ->%Ascii.eqb_eq]%andb_true_iff. apply Ho. by exists p. }
    assert (Ascii.eqb c "*" && Ascii.eqb b "/" = false) as ->; [|exact (IH k)].
    apply not_true_iff_false. intros [->%Ascii.eqb_eq ->%Ascii.eqb_eq]%andb_true_iff. apply Hc. by exists p.
Qed.

Lemma closed_in_comment n : forall p k, (length p <= n)%nat -> block_closed (S k) p = true -> exists r, in_comment p r.
Proof.
  induction n as [|n IH]; intros [|a [|b p]] k Hn Hb; cbn [length] in Hn; try lia; try done. cbn [block_closed] in Hb.
  destruct (Ascii.eqb a "/" && Ascii.eqb b "*") eqn:E1.
  - apply andb_true_iff in E1 as [->%Ascii.eqb_eq ->%Ascii.eqb_eq]. destruct (IH p (S k) ltac:(lia) Hb) as [q Hq].
    pose proof (in_comment_length _ _ Hq). destruct (in_comment_spec _ _ Hq (S k)) as [_ E]. rewrite E in Hb.
    destruct (IH q k ltac:(lia) Hb) as [r Hr]. exists r. by apply (comment_nested p q r).
  - destruct (Ascii.eqb a "*" && Ascii.eqb b "/") eqn:E2.
    + apply andb_true_iff in E2 as [->%Ascii.eqb_eq ->%Ascii.eqb_eq]. exists p. apply comment_ends.
    + destruct (IH (b :: p) k ltac:(cbn; lia) Hb) as [r Hr]. exists r. apply comment_char; [| |done].
      * intros [-> [q [= -> _]]]%begins2. by rewrite !Ascii.eqb_refl in E1.
      * intros [-> [q [= -> _]]]%begins2. by rewrite !Ascii.eqb_refl in E2.
Qed.

Lemma block_open p : forall k, block_closed (S k) p = false -> block_comment (S k) p = [].
Proof.
  assert (forall n p k, (length p <= n)%nat -> block_closed (S k) p = false -> block_comment (S k) p = []) as H; [|by intros k; apply (H (length p))].
  clear p. induction n as [|n IH]; intros [|a [|b p]] k Hn Hb; cbn [length] in Hn; try lia; try done. cbn [block_closed block_comment] in *.
  destruct (_ && _); [apply IH; [lia|done]|]. destruct (_ && _); [|apply (IH (b :: p) k); [cbn; lia|done]].
  destruct k as [|k]; [by destruct p|]. apply IH; [lia|done].
Qed.

(** *** Quoted texts *)

Lemma in_quotes_spec x p r : in_quotes x p r -> quoted_text x p = r /\ quoted_closed x p = true.
Proof.
  induction 1 as [r Hr|p r _ [E1 E2]|c p r Hc _ [E1 E2]].
  - cbn [quoted_text quoted_closed]. rewrite Ascii.eqb_refl. destruct r as [|b r]; [done|].
    destruct (Ascii.eqb_spec b x) as [->|Hn]; [|done]. exfalso. apply Hr. by exists r.
  - cbn [quoted_text quoted_closed]. by rewrite !Ascii.eqb_refl, E1, E2.
  - cbn [quoted_text quoted_closed]. destruct (Ascii.eqb_spec c x); [done|]. by rewrite E1, E2.
Qed.

Lemma closed_in_quotes x n : forall p, (length p <= n)%nat -> quoted_closed x p = true -> in_quotes x p (quoted_text x p).
Proof.
  induction n as [|n IH]; intros [|a p] Hn Hq; cbn [length] in Hn; try lia; try done. cbn [quoted_closed quoted_text] in *.
  destruct (Ascii.eqb_spec a x) as [->|Ha]; [|apply quotes_char; [done|apply IH; [lia|done]]].
  destruct p as [|b p]; [apply quotes_end; by intros [k Hk]|].
  destruct (Ascii.eqb_spec b x) as [->|Hb]; [apply quotes_doubled, IH; [cbn in Hn; lia|done]|].
  apply quotes_end. intros [k Hk]. by injection Hk as ->.
Qed.

Lemma quoted_open x n : forall p, (length p <= n)%nat -> quoted_closed x p = false -> quoted_text x p = [].
Proof.
  induction n as [|n IH]; intros [|a p] Hn Hq; cbn [length] in Hn; try lia; try done. cbn [quoted_closed quoted_text] in *.
  destruct (Ascii.eqb a x); [|apply IH; [lia|done]]. destruct p as [|b p]; [done|].
  destruct (Ascii.eqb b x); [apply IH; [cbn in Hn; lia|done]|done].
Qed.

Lemma quote_pair_spec o c : quote_pair o c <-> is_quote o = true /\ c = closing o.
Proof.
  unfold quote_pair, is_quote, closing. split.
  - intros [[= <- <-]|[[= <- <-]|[[= <- <-]|[]]]]; by vm_compute.
  - intros [H ->]. apply orb_true_iff in H as [H|H]; [apply orb_true_iff in H as [H|H]|]; apply Ascii.eqb_eq in H as ->; cbn; tauto.
Qed.

(** *** The two agree *)

Lemma to_newline_stops t q : ~ In eol t -> to_newline (t ++ eol :: q) = eol :: q.
Proof.
  intros Ht. unfold to_newline. apply skip_app_stop; [|reflexivity]. apply List.Forall_forall. intros c Hc.
  apply negb_true_iff, Ascii.eqb_neq. intros ->. by apply Ht.
Qed.
Lemma to_newline_none t : ~ In eol t -> to_newline t = [].
Proof.
  intros Ht. unfold to_newline. rewrite <- (app_nil_r t). rewrite skip_app_all; [done|]. apply List.Forall_forall. intros c Hc.
  apply negb_true_iff, Ascii.eqb_neq. intros ->. by apply Ht.
Qed.
Lemma to_newline_spec p : (to_newline p = [] /\ ~ In eol p) \/ exists t q, p = t ++ eol :: q /\ ~ In eol t /\ to_newline p = eol :: q.
Proof.
  destruct (in_dec ascii_dec eol p) as [Hin|Hn]; [right|left; split; [by apply to_newline_none|done]].
  pose proof (span_skip (fun e => negb (Ascii.eqb e newline)) p) as Es. pose proof (span_Forall (fun e => negb (Ascii.eqb e newline)) p) as Hf.
  pose proof (skip_nohead (fun e => negb (Ascii.eqb e newline)) p) as Hh. fold (to_newline p) in *.
  assert (~ In eol (span (fun e => negb (Ascii.eqb e newline)) p)) as Ht.
  { intros Hi. rewrite List.Forall_forall in Hf. specialize (Hf _ Hi). by vm_compute in Hf. }
  destruct (to_newline p) as [|e q] eqn:E; [rewrite app_nil_r in Es; by rewrite <- Es in Hin|].
  apply negb_false_iff, Ascii.eqb_eq in Hh as ->. by eexists _, q.
Qed.

Lemma n_prefix_spec w r : n_before_quote w r <-> Nat.eqb (length w) 1 && match w with c :: _ => Ascii.eqb c "N" || Ascii.eqb c "n" | [] => false end && starts squote r = true.
Proof.
  unfold n_before_quote, starts, begins. rewrite !andb_true_iff, Nat.eqb_eq. split.
  - intros [Hw [k ->]]. split; [|done]. by destruct Hw as [<-|[<-|[]]].
  - intros [[Hl Hc] Hr]. destruct w as [|c [|? ?]]; try done. split; [|destruct r as [|e r]; [done|]; apply Ascii.eqb_eq in Hr as ->; by exists r].
    apply orb_true_iff in Hc as [->%Ascii.eqb_eq| ->%Ascii.eqb_eq]; cbn; tauto.
Qed.

(** What a word character is not. *)
Lemma word_not c : ms_word_char c = true ->
  isspace c = false /\ Ascii.eqb c "-" = false /\ Ascii.eqb c "/" = false /\ is_quote c = false /\ Ascii.eqb c "(" = false /\ Ascii.eqb c ")" = false.
Proof. repeat split; revert H; all_ascii c. Qed.
Lemma quote_not c : is_quote c = true -> isspace c = false /\ Ascii.eqb c "-" = false /\ Ascii.eqb c "/" = false.
Proof. repeat split; revert H; all_ascii c. Qed.

Lemma next_word c w q : ms_word_char c = true -> Forall (fun d => ms_word_char d = true) w ->
  (forall d q', q = d :: q' -> ms_word_char d = false) ->
  next_tok c (w ++ q) = (if Nat.eqb (length (c :: w)) 1 && (Ascii.eqb c "N" || Ascii.eqb c "n") && starts squote q then NPrefix else Word (c :: w), q).
Proof.
  intros Hc Hw Hq. destruct (word_not c Hc) as (E1 & E2 & E3 & E4 & E5 & E6). unfold next_tok. rewrite E1, E2, E3, E4, E5, E6, Hc. cbn [andb].
  rewrite (app_comm_cons w q c).
  assert (Forall (fun d => ms_word_char d = true) (c :: w)) as Hcw by by constructor.
  assert (span ms_word_char ((c :: w) ++ q) = c :: w /\ skip ms_word_char ((c :: w) ++ q) = q) as [-> ->].
  { destruct q as [|d q]; [|split; [apply span_app_stop|apply skip_app_stop]; [done|by eapply Hq|done|by eapply Hq]].
    rewrite app_nil_r. split; [|rewrite <- (app_nil_r (c :: w)); by rewrite skip_app_all].
    clear Hc Hq E1 E2 E3 E4 E5 E6 Hw. induction Hcw as [|d w' Hd _ IH]; [done|]. cbn [span]. by rewrite Hd, IH. }
  by destruct (_ && starts squote q).
Qed.

Lemma next_line p : next_tok "-" ("-"%char :: p) = (LineComment (match to_newline p with [] => false | _ => true end), to_newline p).
Proof. reflexivity. Qed.
Lemma next_block p : next_tok "/" ("*"%char :: p) = (BlockComment (block_closed 1 p), block_comment 1 p).
Proof. reflexivity. Qed.

(** Every way to read a text is the one of [lex]. *)
Lemma sql_tokens_lex p l : sql_tokens p l -> l = lex p.
Proof.
  induction 1 as [|c p l Hc _ ->|t q l Ht _ ->|t Ht|p q l Hp _ ->|p Hp|o c p q l Hqp Hp _ ->|o c p Hqp Hp|p l _ ->|p l _ ->|w q l Hn _ ->
                  |w q l Hne Hw Hq Hn _ ->|c p l Hb Hn Hs Hd Hm Ho _ ->]; [done|..].
  - rewrite lex_cons. unfold next_tok. apply blank_char_spec in Hc as ->. done.
  - change (str "--" ++ t ++ eol :: q) with ("-"%char :: "-"%char :: t ++ eol :: q). rewrite (lex_cons "-"), next_line, to_newline_stops by done. done.
  - change (str "--" ++ t) with ("-"%char :: "-"%char :: t). rewrite (lex_cons "-"), next_line, to_newline_none by done. done.
  - change (str "/*" ++ p) with ("/"%char :: "*"%char :: p). rewrite (lex_cons "/"), next_block.
    destruct (in_comment_spec _ _ Hp 0) as [-> ->]. by destruct q.
  - change (str "/*" ++ p) with ("/"%char :: "*"%char :: p). rewrite (lex_cons "/"), next_block.
    destruct (block_closed 1 p) eqn:Eb; [|by rewrite block_open]. apply (closed_in_comment (length p)) in Eb as [r Hr]; [by destruct (Hp r)|done].
  - apply quote_pair_spec in Hqp as [Hq ->]. destruct (quote_not o Hq) as (E1 & E2 & E3). rewrite lex_cons. unfold next_tok. rewrite E1, E2, E3, Hq. cbn [andb fst snd].
    by destruct (in_quotes_spec _ _ _ Hp) as [-> ->].
  - apply quote_pair_spec in Hqp as [Hq ->]. destruct (quote_not o Hq) as (E1 & E2 & E3). rewrite lex_cons. unfold next_tok. rewrite E1, E2, E3, Hq. cbn [andb fst snd].
    destruct (quoted_closed (closing o) p) eqn:Ec; [|by rewrite (quoted_open _ (length p))]. apply (closed_in_quotes _ (length p)) in Ec; [by apply Hp in Ec|done].
  - done.
  - done.
  - pose proof Hn as [Hw [k ->]]. destruct Hw as [<-|[<-|[]]]; symmetry; refine (eq_trans (lex_cons _ _) _); reflexivity.
  - destruct w as [|c w]; [done|]. apply Forall_cons_iff in Hw as [Hc Hw]. apply name_char_spec in Hc. cbn [app]. rewrite lex_cons.
    rewrite (next_word c w q Hc); [|eapply List.Forall_impl; [|exact Hw]; intros d; apply name_char_spec|].
    + destruct (_ && starts squote q) eqn:E; [exfalso; apply Hn; by apply n_prefix_spec|done].
    + intros d q' E. apply not_true_iff_false. rewrite name_char_spec. by eapply Hq.
  - rewrite lex_cons. unfold next_tok.
    assert (isspace c = false) as -> by (apply not_true_iff_false; by rewrite blank_char_spec).
    assert (ms_word_char c = false) as -> by (apply not_true_iff_false; by rewrite name_char_spec).
    assert (Ascii.eqb c "-" && starts "-" p = false) as -> by (apply not_true_iff_false; by rewrite begins_spec).
    assert (Ascii.eqb c "/" && starts "*" p = false) as -> by (apply not_true_iff_false; by rewrite begins_spec).
    assert (is_quote c = false) as ->.
    { unfold is_quote. apply not_true_iff_false. rewrite !orb_true_iff, !Ascii.eqb_eq. intros [[->| ->]| ->]; [apply Hs; cbn; tauto|by apply Hd|apply Hs; cbn; tauto]. }
    destruct (Ascii.eqb_spec c "(") as [->|_]; [by destruct Hs; cbn; tauto|]. destruct (Ascii.eqb_spec c ")") as [->|_]; [by destruct Hs; cbn; tauto|]. done.
Qed.

(** Every text can be read. *)
Lemma lex_sql_tokens n : forall p, (length p <= n)%nat -> sql_tokens p (lex p).
Proof.
  induction n as [|n IH]; intros [|c p] Hn; cbn [length] in Hn; try lia; [constructor|constructor|].
  pose proof (next_tok_length c p) as Hl. rewrite lex_cons. specialize (IH (snd (next_tok c p)) ltac:(lia)). revert IH. unfold next_tok.
  destruct (isspace c) eqn:E1; cbn [fst snd]; [intros; apply toks_blank; [by apply blank_char_spec|done]|].
  destruct (Ascii.eqb c "-" && starts "-" p) eqn:E2; cbn [fst snd].
  { apply begins_spec, begins2 in E2 as [-> [q ->]]. cbn [drop]. rewrite drop_0.
    destruct (to_newline_spec q) as [[-> Hq]|(t & r & -> & Ht & ->)]; intros IH; [by apply (toks_line_end q)|by apply toks_line]. }
  destruct (Ascii.eqb c "/" && starts "*" p) eqn:E3; cbn [fst snd].
  { apply begins_spec, begins2 in E3 as [-> [q ->]]. cbn [drop]. rewrite drop_0. destruct (block_closed 1 q) eqn:Eb; intros IH.
    - apply (closed_in_comment (length q)) in Eb as [r Hr]; [|done]. destruct (in_comment_spec _ _ Hr 0) as [Er _]. rewrite Er in *.
      assert (block_comment 0 r = r) as Hz by by destruct r. rewrite Hz in *. by apply (toks_comment q r).
    - rewrite (block_open q 0 Eb). apply (toks_comment_open q). intros r Hr. destruct (in_comment_spec _ _ Hr 0) as [_ E]. rewrite Eb in E. by destruct r. }
  destruct (is_quote c) eqn:E4; cbn [fst snd].
  { destruct (quoted_closed (closing c) p) eqn:Ec; intros IH.
    - eapply toks_quoted; [by apply quote_pair_spec|by apply (closed_in_quotes _ (length p))|done].
    - rewrite (quoted_open _ (length p)) by done. eapply toks_quoted_open; [by apply quote_pair_spec|]. intros r Hr.
      destruct (in_quotes_spec _ _ _ Hr) as [_ E]. congruence. }
  destruct (Ascii.eqb_spec c "(") as [->|E5]; cbn [fst snd]; [apply toks_open|].
  destruct (Ascii.eqb_spec c ")") as [->|E6]; cbn [fst snd]; [apply toks_close|].
  destruct (ms_word_char c) eqn:E7; cbn [fst snd].
  - set (w := span ms_word_char (c :: p)). set (r := skip ms_word_char (c :: p)).
    assert (w ++ r = c :: p) as Ewr by apply span_skip.
    assert (w <> []) as Hne by (unfold w; cbn [span]; by rewrite E7).
    assert (exists w', w = c :: w') as [w' Ew] by (unfold w; cbn [span]; rewrite E7; by eexists).
    assert (n_before_quote w r <-> Nat.eqb (length w) 1 && (Ascii.eqb c "N" || Ascii.eqb c "n") && starts squote r = true) as Hn2
      by (by rewrite n_prefix_spec, Ew).
    rewrite <- Ewr. destruct (Nat.eqb (length w) 1 && (Ascii.eqb c "N" || Ascii.eqb c "n") && starts squote r) eqn:E8; cbn [fst snd]; intros IH.
    + apply toks_prefix; [by apply Hn2|done].
    + apply toks_word; [done|eapply List.Forall_impl; [|apply span_Forall]; intros d; apply name_char_spec| |by rewrite Hn2|done].
      intros d q' Eq. rewrite <- name_char_spec. pose proof (skip_nohead ms_word_char (c :: p)) as Hh. fold r in Hh. rewrite Eq in Hh. by rewrite Hh.
  - intros IH. apply toks_punct; [by rewrite <- blank_char_spec, E1|by rewrite <- name_char_spec, E7| | | | |done].
    + unfold is_quote in E4. cbn. intros [<-|[<-|[<-|[<-|[]]]]]; done.
    + intros ->. done.
    + change (str "--") with ["-"%char; "-"%char]. rewrite <- begins_spec. by rewrite E2.
    + change (str "/*") with ["/"%char; "*"%char]. rewrite <- begins_spec. by rewrite E3.
Qed.
End tokenizing.

(** C29: the scanner answers, for every text, the questions it stands for.  A
    text is read in one way as tokens - blanks, comments to the end of a line,
    comments that may hold comments, quoted texts with their closing character
    doubled inside, parentheses, words, other characters -; and the scanner
    says whether in it ORDER is followed by BY outside literals, comments and
    parentheses; whether after such an ORDER BY, though not as its first word,
    OFFSET comes and then ROW or ROWS; whether the statement begins SELECT
    TOP, SELECT ALL TOP or SELECT DISTINCT TOP; whether it ends inside a
    comment to the end of the line. *)
Theorem mssql_sql_shape_spec (sql : list ascii) :
  exists toks, sql_tokens sql toks /\ (forall toks', sql_tokens sql toks' -> toks' = toks) /\
  let (r, rc) := mssql_sql_shape (Some sql) in
  let a := atoms 0 toks in
  rc = 0 /\
  (order_by r = true <-> has_order_by a) /\
  (offset r = true <-> has_offset a) /\
  (starts_top r = true <-> select_top (words a)) /\
  (ends_in_line_comment r = true <-> unended toks).
Proof.
  exists (lex sql). split; [by apply (lex_sql_tokens (length sql))|]. split; [intros toks' Ht; by apply sql_tokens_lex|].
  split; [done|]. by destruct (shape_of_text sql) as [S1 S2 S3 S4].
Qed.

(** The wrapper of [ms_count_rows_sql]. *)
Definition count_query (inner : list ascii) : list ascii :=
  str "SELECT COUNT(*) FROM (SELECT 1 AS dm_c FROM (" ++ inner ++ str ") AS dm_a) AS dm_b".
(** The wrapper of [ms_row_limit_sql]. *)
Definition limit_query (rows : Z) (inner : list ascii) : list ascii :=
  str "SELECT TOP (" ++ print_int rows ++ str ") * FROM (" ++ inner ++ str ") AS dm_t".

Lemma derivable_unended p : derivable p -> ~ unended (lex p).
Proof.
  intros (_ & H & _). destruct (shape_of_text p) as [_ _ _ T4]. rewrite <- T4, H. done.
Qed.

Lemma derivable_count sql :
  complete sql -> ~ ends_by (atoms 0 (lex sql)) ->
  derivable (sql ++ count_mid (fst (mssql_sql_shape (Some sql)))).
Proof.
  intros Hc Hb. pose proof (shape_of_text sql) as [S1 S2 S3 S4]. set (r := fst _) in *. unfold count_mid.
  destruct (order_by r && negb (offset r) && negb (starts_top r)) eqn:E; [|by apply derivable_ended].
  destruct (order_by r) eqn:Eo; [|done]. destruct (ends_in_line_comment r) eqn:Ee.
  - apply (derivable_offset sql newline (str "OFFSET 0 ROWS") []); try done; by apply S1.
  - apply (derivable_offset sql " " (str "OFFSET 0 ROWS") []); try done; [by apply S1|].
    intros Hu. by apply S4 in Hu.
Qed.

Lemma count_complete p : derivable p -> complete (count_query p).
Proof.
  intros H. pose proof (derivable_unended p H) as Hu. destruct H as (Hp & _ & _). unfold count_query.
  change (str "SELECT COUNT(*) FROM (SELECT 1 AS dm_c FROM (" ++ p ++ str ") AS dm_a) AS dm_b")
    with (str "SELECT COUNT(*) FROM (SELECT 1 AS dm_c FROM " ++ "("%char :: p ++ ")"%char :: str " AS dm_a) AS dm_b").
  unfold complete. rewrite lex_wrap by (done || by vm_compute). destruct Hp as [H1 H2]. split.
  - rewrite forallb_app. cbn [forallb whole_tok]. rewrite forallb_app, !end_comment_whole, H1. done.
  - change (balanced 0 (map end_comment (lex (str "SELECT COUNT(*) FROM (SELECT 1 AS dm_c FROM ")) ++ Open :: ?x)) with (balanced 2 x).
    change 2%nat with (0 + 2)%nat. by rewrite balanced_app by (by rewrite end_comment_balanced).
Qed.

Lemma limit_derivable rows p : 0 <= rows -> derivable p -> derivable (limit_query rows p).
Proof.
  intros Hr H. pose proof (derivable_unended p H) as Hu. destruct H as (Hp & _ & _).
  assert (lex (limit_query rows p) =
    [Word (str "SELECT"); Blank; Word (str "TOP"); Blank; Open; Word (print_dec rows); Close; Blank; Punct; Blank; Word (str "FROM"); Blank] ++
    Open :: map end_comment (lex p) ++ [Close; Blank; Word (str "AS"); Blank; Word (str "dm_t")]) as E.
  { pose proof (lex_wrap (str "SELECT TOP (" ++ print_int rows ++ str ") * FROM ") p (str " AS dm_t")) as Hl.
    rewrite limit_prefix in Hl by done. rewrite <- !app_assoc in Hl. apply Hl; done. }
  destruct Hp as [H1 H2]. destruct (shape_of_text (limit_query rows p)) as [_ _ T3 T4].
  split; [split|split].
  - rewrite E. cbn [app forallb whole_tok andb]. by rewrite forallb_app, end_comment_whole, H1.
  - rewrite E. cbn [app balanced]. change 1%nat with (0 + 1)%nat. by rewrite balanced_app by (by rewrite end_comment_balanced).
  - apply (false_iff _ _ T4). rewrite E. rewrite app_comm_cons, app_assoc. by rewrite unended_app by done.
  - intros _. right. apply T3. rewrite E. cbn [app atoms Nat.eqb pred words omap list_omap id].
    split; [done|by left].
Qed.

(** The queries built around a complete SELECT are ones the server takes:
    what goes between the parentheses of a derived table has an ORDER BY only
    with OFFSET or TOP and does not end in a comment that would swallow the
    closing parenthesis, and the limited query may be wrapped again. *)
Theorem wrapped_queries_legal (sql : list ascii) (rows : Z) (out_max : nat) (out : list ascii) :
  complete sql -> ~ ends_by (atoms 0 (lex sql)) ->
  (ms_count_rows_sql (Some sql) out_max = Some out ->
   complete out /\ exists mid, out = count_query (sql ++ mid) /\ derivable (sql ++ mid)) /\
  (ms_row_limit_sql (Some sql) rows out_max = Some out ->
   derivable out /\
   exists mid, out = sql ++ mid \/ out = limit_query rows (sql ++ mid) /\ derivable (sql ++ mid)).
Proof.
  intros Hc Hb. split.
  - intros H. pose proof (derivable_count sql Hc Hb) as Hd. apply ms_fmt_Some in H. rewrite (app_assoc sql) in H. subst out.
    split; [by apply count_complete|]. by exists (count_mid (fst (mssql_sql_shape (Some sql)))).
  - unfold ms_row_limit_sql. destruct (Z.ltb_spec rows 0); [done|].
    pose proof (shape_of_text sql) as [S1 S2 S3 S4]. pose proof (derivable_ended sql Hc) as He. cbv zeta in He.
    set (r := fst _) in *. destruct (order_by r && negb (offset r) && negb (starts_top r)) eqn:E; intros ->%ms_fmt_Some.
    + destruct (order_by r) eqn:Eo; [|done]. split; [|by eexists; left].
      assert (forall c, isspace c = true -> (unended (lex sql) -> c = newline) ->
        derivable (sql ++ c :: str "OFFSET 0 ROWS FETCH NEXT " ++ print_int rows ++ str " ROWS ONLY")) as Hd.
      { intros c Hs Hn. eapply derivable_offset; [done|done|by apply S1|done|done| | |]; unfold complete; rewrite limit_tail by done; done. }
      destruct (ends_in_line_comment r) eqn:Ee; [by apply (Hd newline)|]. apply (Hd " "%char); [done|].
      intros Hu. by apply S4 in Hu.
    + specialize (He eq_refl). rewrite (app_assoc sql). split; [by apply limit_derivable|].
      eexists. right. by split.
Qed.

Lemma wrapped_queries_legal_witness :
  let sql := str "SELECT a FROM t ORDER BY a -- by name" in
  ms_row_limit_sql (Some sql) 5 200 = Some (sql ++ newline :: str "OFFSET 0 ROWS FETCH NEXT 5 ROWS ONLY") /\
  derivable (sql ++ newline :: str "OFFSET 0 ROWS FETCH NEXT 5 ROWS ONLY").
Proof.
  cbv zeta. split; [vm_compute; reflexivity|].
  refine (proj1 (proj2 (wrapped_queries_legal (str "SELECT a FROM t ORDER BY a -- by name") 5 200 _ _ _) _)).
  - split; vm_compute; reflexivity.
  - intros (a & o & b & E & _ & Hb). change (a ++ [Some o; Some b]) with (a ++ [Some o] ++ [Some b]) in E. rewrite app_assoc in E.
    apply (f_equal (@rev _)) in E. rewrite rev_unit in E. vm_compute in E. injection E as <- _. vm_compute in Hb. discriminate Hb.
  - vm_compute. reflexivity.
Defined.

(** ** LOB placeholders *)

Lemma ms_base_len_eq s : ms_base_len s = base_name_len s.
Proof. done. Qed.

Lemma ms_has_max_eq s : ms_has_max s = has_max_suffix s.
Proof.
  unfold ms_has_max, has_max_suffix. destruct (skip isspace s) as [|c p]; [done|]. destruct (Ascii.eqb c "("); [|done].
  cbv zeta. cbn [negb]. destruct (ci_prefix _ _); done.
Qed.

Lemma base_is_apart s n (v w : list ascii) :
  base_is s n v = true -> base_is s n w = true -> map tolower v = map tolower w.
Proof.
  unfold base_is. rewrite !andb_true_iff, !Nat.eqb_eq, !ci_prefix_spec. intros [H1 [k1 E1]] [H2 [k2 E2]].
  rewrite E1 in E2. apply app_inj_1 in E2 as [E _]; [done|]. rewrite !length_map. congruence.
Qed.

(** The two halves of a LOB write agree: a column gets the placeholder "0x"
    in the statement exactly when the core will write it as a binary LOB
    afterwards - for every type name but BLOB, which this server has not. *)
Theorem lob_placeholder_agrees (dtype : list ascii) :
  let name := skip isspace dtype in
  base_is name (base_name_len name) (str "BLOB") = false ->
  (ms_lob_placeholder (Some dtype) = Some (str "0x") <-> db_type_lob_kind (Some dtype) = DB_LOB_BINARY) /\
  (ms_lob_placeholder (Some dtype) = None <-> db_type_lob_kind (Some dtype) = DB_LOB_NONE \/
                                              db_type_lob_kind (Some dtype) = DB_LOB_TEXT).
Proof.
  cbv zeta. intros Hb. unfold ms_lob_placeholder, db_type_lob_kind. rewrite Hb, ms_base_len_eq, ms_has_max_eq.
  change ms_base_is with base_is. set (s := skip isspace dtype). set (n := base_name_len s).
  destruct (Nat.eqb n 0) eqn:En.
  { apply Nat.eqb_eq in En. rewrite En. rewrite andb_false_r. split; split; auto; done. }
  destruct (base_is s n (str "VARBINARY")) eqn:E1; destruct (base_is s n (str "IMAGE")) eqn:E2;
  destruct (base_is s n (str "CLOB")) eqn:E3; destruct (base_is s n (str "NCLOB")) eqn:E4;
  try (exfalso; match goal with H : base_is _ _ _ = true, K : base_is _ _ _ = true |- _ =>
         discriminate (base_is_apart _ _ _ _ H K) end);
  destruct (has_max_suffix (drop n s)); cbn [andb]; split; split; (done || auto || (intros [?|?]; done)).
Qed.

Lemma lob_placeholder_agrees_witness :
  ms_lob_placeholder (Some (str " varbinary ( max )")) = Some (str "0x") /\
  db_type_lob_kind (Some (str " varbinary ( max )")) = DB_LOB_BINARY.
Proof.
  assert (ms_lob_placeholder (Some (str " varbinary ( max )")) = Some (str "0x")) as H by (vm_compute; reflexivity).
  split; [exact H|].
  exact (proj1 (proj1 (lob_placeholder_agrees (str " varbinary ( max )") ltac:(vm_compute; reflexivity))) H).
Defined.

(** ** The row locator *)

Definition escape (key : list ascii) : list ascii :=
  flat_map (fun c => c :: (if Ascii.eqb c "]" then ["]"%char] else [])) key.

(** The name between brackets as the server reads it, and what follows it. *)
Fixpoint bracketed (p : list ascii) : option (list ascii * list ascii) :=
  match p with
  | [] => None
  | a :: p' =>
      if Ascii.eqb a "]" then
        match p' with
        | b :: p'' => if Ascii.eqb b "]" then '(n, r) ← bracketed p''; Some (a :: n, r) else Some ([], p')
        | [] => Some ([], [])
        end
      else '(n, r) ← bracketed p'; Some (a :: n, r)
  end.

Lemma bracket_loop_spec key q r : bracket_loop key q = Some r -> (length q + 2 <= 300)%nat ->
  r = q ++ escape key /\ (length r + 2 <= 300)%nat.
Proof.
  revert q. induction key as [|c key IH]; intros q; cbn [bracket_loop escape flat_map].
  - intros [= ->] H. by rewrite app_nil_r.
  - destruct (Nat.leb_spec 300 (length q + 3)); [done|]. intros Hl _. apply IH in Hl as [-> Hl].
    + split; [|done]. by rewrite <- app_assoc.
    + rewrite length_app. destruct (Ascii.eqb c "]"); simpl; lia.
Qed.

Lemma bracketed_escape key c rest : Ascii.eqb c "]" = false ->
  bracketed (escape key ++ "]"%char :: c :: rest) = Some (key, c :: rest).
Proof.
  intros Hc. induction key as [|a key IH]; simpl; [by rewrite Hc|].
  destruct (Ascii.eqb a "]") eqn:E; simpl; rewrite ?E, IH; done.
Qed.

(** The OUTPUT clause names the key column and nothing else: whatever
    characters the name has, the server reads the bracketed text back as that
    name and goes on with INTO; and the text was never longer than the 300
    bytes it is built in.  More than one key column is refused, none gives
    empty clauses. *)
Theorem row_locator_names_key (kind : Z) (loc : list (option (list ascii))) (mid_max tail_max : nat) mid tail :
  ms_row_locator_clauses kind (Some loc) mid_max tail_max = Some (mid, tail) ->
  (kind = DB_DML_INSERT \/ kind = DB_DML_UPDATE) /\ tail = [] /\
  ((loc = [] /\ mid = []) \/
   exists key q, loc = [Some key] /\ key <> [] /\ (length q < 300)%nat /\ (length mid < mid_max)%nat /\
     mid = str "OUTPUT inserted." ++ q ++ str " INTO @dm_k (k)" /\
     exists body, q = "["%char :: body /\ bracketed (body ++ str " INTO @dm_k (k)") = Some (key, str " INTO @dm_k (k)")).
Proof.
  unfold ms_row_locator_clauses. destruct (_ || _); [done|].
  destruct (_ && _) eqn:Ek; [done|].
  assert (kind = DB_DML_INSERT \/ kind = DB_DML_UPDATE) as Hk.
  { apply andb_false_iff in Ek as [Ek|Ek]; apply negb_false_iff, Z.eqb_eq in Ek; auto. }
  destruct loc as [|[[|c key]|] [|]]; try done.
  - intros [= <- <-]. split; [done|]. split; [done|]. by left.
  - destruct (bracket_loop _ _) as [q|] eqn:Eq; [|done]. cbn [mbind option_bind].
    destruct (ms_fmt _ _) as [m|] eqn:Em; [|done]. cbn [mbind option_bind]. intros [= <- <-].
    apply bracket_loop_spec in Eq as [Eq Hl]; [|simpl; lia]. split; [done|]. split; [done|]. right.
    exists (c :: key), (q ++ ["]"%char]). split; [done|]. split; [done|]. split; [rewrite length_app; simpl; lia|].
    pose proof (ms_fmt_fits _ _ _ Em). pose proof (ms_fmt_Some _ _ _ Em) as ->. split; [done|]. split; [done|]. subst q. exists (escape (c :: key) ++ ["]"%char]). split; [done|]. rewrite <- app_assoc.
    by apply (bracketed_escape (c :: key) " ").
Qed.

Lemma row_locator_names_key_witness :
  ms_row_locator_clauses DB_DML_INSERT (Some [Some (str "a]b")]) 64 8 =
    Some (str "OUTPUT inserted.[a]]b] INTO @dm_k (k)", []) /\
  exists key q, [Some (str "a]b")] = [Some key] /\ str "OUTPUT inserted.[a]]b] INTO @dm_k (k)" = str "OUTPUT inserted." ++ q ++ str " INTO @dm_k (k)".
Proof.
  assert (ms_row_locator_clauses DB_DML_INSERT (Some [Some (str "a]b")]) 64 8 =
    Some (str "OUTPUT inserted.[a]]b] INTO @dm_k (k)", [])) as H by (vm_compute; reflexivity).
  split; [exact H|]. destruct (row_locator_names_key _ _ _ _ _ _ H) as (_ & _ & [[? _]|(key & q & E & _ & _ & _ & E2 & _)]); [done|].
  by exists key, q.
Defined.
