(* ===== verification/Dialect.v ===== *)
(** * Dialect: the fragments of SQL a driver contributes

    [db_dialect_t] of src/include/db_driver.h as a class, the Oracle hooks at
    the end of src/src/execute/driver_oracle.c, and the two instances (the SQL
    Server hooks are in MssqlDialect.v).  A hook that returns -1 is [None]; a
    buffer is its size.  The class carries what the rest of the program relies
    on: on the type names the driver reports, [lob_placeholder] and
    [db_type_lob_kind] agree about which columns are written after the
    statement. *)

From Stdlib Require Import Ascii String ZArith Lia Bool.
From stdpp Require Import base list strings numbers.
From S2P Require Import Prelude Text DbTypeClass MssqlDialect.

#[local] Open Scope Z_scope.

(** ** The interface *)

(** [db_row_locator_ctx_t] *)
Record row_locator := mk_locator { loc_table : list ascii; loc_owner : list ascii; key_columns : list (list ascii) }.

Class Dialect := {
  bind_placeholder : Z -> nat -> option (list ascii);
  value_expr : list ascii -> list ascii -> nat -> option (list ascii);
  lob_placeholder : list ascii -> option (list ascii);
  row_locator_clauses : Z -> row_locator -> Z -> nat -> nat -> option (list ascii * list ascii);
  row_limit_sql : list ascii -> Z -> nat -> option (list ascii);
  count_rows_sql : list ascii -> nat -> option (list ascii);
  now_expr : list ascii;
  add_seconds_expr : list ascii -> list ascii -> nat -> option (list ascii);
  procedure_call_sql : list ascii -> list (list ascii) -> nat -> option (list ascii);
}.

(** The longest fragment a driver gives for one value. *)
Definition FRAGMENT_MAX : nat := 96.

(** The type names the driver reports are those on which the two views of a
    LOB agree; what stands for a value is short. *)
Class DialectLaws `{Dialect} := {
  reported : list ascii -> Prop;
  reported_unknown : reported [];
  lob_views_agree t : reported t -> lob_placeholder t = None <-> db_type_lob_kind (Some t) = DB_LOB_NONE;
  bind_placeholder_short pos n p : bind_placeholder pos n = Some p -> (length p < n)%nat;
  value_expr_short t p n x : value_expr t p n = Some x -> (length p <= 32)%nat -> (length x <= FRAGMENT_MAX)%nat;
  lob_placeholder_short t x : lob_placeholder t = Some x -> (length x <= FRAGMENT_MAX)%nat;
}.

(** ** The Oracle hooks *)

Definition ORACLE_ISO_DATE_MASK : list ascii := str "YYYY-MM-DD HH24:MI:SS".
Definition ORACLE_ISO_TS_MASK : list ascii := str "YYYY-MM-DD HH24:MI:SS.FF6".

(** [vsnprintf] returns a negative number for a text beyond INT_MAX. *)
Definition oracle_fmt (out_max : nat) (t : list ascii) : option (list ascii) :=
  if (length t <? out_max)%nat && (Z.of_nat (length t) <? 2 ^ 31) then Some t else None.

Definition oracle_bind_placeholder (pos : Z) (out_max : nat) : option (list ascii) :=
  if pos <? 1 then None else oracle_fmt out_max (str ":" ++ print_int pos).

(** [strstr(s, w) != NULL] *)
Definition has (w : string) (s : list ascii) : bool := match strstr (str w) s with Some _ => true | None => false end.

Definition oracle_value_expr (dtype operand : option (list ascii)) (out_max : nat) : option (list ascii) :=
  match operand with
  | None => None
  | Some operand =>
      let dtype := default [] dtype in
      if str_eqb dtype (str "DATE") then oracle_fmt out_max (str "TO_DATE(" ++ operand ++ str ",'" ++ ORACLE_ISO_DATE_MASK ++ str "')")
      else if prefix_b (str "TIMESTAMP") dtype then
        oracle_fmt out_max (str "TO_TIMESTAMP(" ++ operand ++ str ",'" ++ ORACLE_ISO_TS_MASK ++ str "')")
      else if has "INTERVAL" dtype && has "MONTH" dtype then oracle_fmt out_max (str "TO_YMINTERVAL(" ++ operand ++ str ")")
      else if has "INTERVAL" dtype && has "SECOND" dtype then oracle_fmt out_max (str "TO_DSINTERVAL(" ++ operand ++ str ")")
      else oracle_fmt out_max operand
  end.

Definition oracle_lob_placeholder (dtype : option (list ascii)) : option (list ascii) :=
  match dtype with
  | None => None
  | Some dtype =>
      if str_eqb dtype (str "BLOB") then Some (str "EMPTY_BLOB()")
      else if str_eqb dtype (str "CLOB") || str_eqb dtype (str "NCLOB") then Some (str "EMPTY_CLOB()")
      else None
  end.

Definition oracle_row_locator_clauses (kind pos : Z) (mid_max tail_max : nat) : option (list ascii * list ascii) :=
  if negb (kind =? DB_DML_INSERT) && negb (kind =? DB_DML_UPDATE) then None
  else if (pos <? 1) || (mid_max =? 0)%nat then None
  else tail ← oracle_fmt tail_max (str "RETURNING ROWID INTO :" ++ print_int pos); Some ([], tail).

Definition oracle_row_limit_sql (sql : option (list ascii)) (max_rows : Z) (out_max : nat) : option (list ascii) :=
  match sql with
  | None => None
  | Some sql => if max_rows <? 0 then None else oracle_fmt out_max (str "SELECT * FROM (" ++ sql ++ str ") WHERE ROWNUM <= " ++ print_int max_rows)
  end.

Definition oracle_count_rows_sql (sql : option (list ascii)) (out_max : nat) : option (list ascii) :=
  sql ← sql; oracle_fmt out_max (str "SELECT COUNT(*) FROM (SELECT 1 FROM (" ++ sql ++ str "))").

Definition oracle_now_expr : list ascii := str "SYSTIMESTAMP".

Definition oracle_add_seconds_expr (base_expr seconds_expr : option (list ascii)) (out_max : nat) : option (list ascii) :=
  base ← base_expr; seconds ← seconds_expr; oracle_fmt out_max (base ++ str " + NUMTODSINTERVAL(" ++ seconds ++ str ", 'SECOND')").

(** [snprintf(out + used, out_max - used, ...)], appending. *)
Definition oracle_append (out_max : nat) (out t : list ascii) : option (list ascii) :=
  if (length t <? out_max - length out)%nat && (Z.of_nat (length t) <? 2 ^ 31) then Some (out ++ t) else None.

Fixpoint name_loop (out_max : nat) (first : bool) (names : list (option (list ascii))) (out : list ascii) : option (list ascii) :=
  match names with
  | [] => Some out
  | None :: _ => None
  | Some name :: names =>
      out ← oracle_append out_max out ((if first then [] else str ", ") ++ str ":" ++ name);
      name_loop out_max false names out
  end.

(** [param_names]: the [count] pointers, [None] when the array is NULL. *)
Definition oracle_procedure_call_sql (proc_name : option (list ascii)) (param_names : option (list (option (list ascii)))) (count : Z)
    (out_max : nat) : option (list ascii) :=
  match proc_name with
  | None => None
  | Some proc =>
      if count <? 0 then None
      else if (0 <? count) && match param_names with None => true | Some _ => false end then None
      else if count =? 0 then oracle_fmt out_max (str "BEGIN " ++ proc ++ str "; END;")
      else if (out_max =? 0)%nat then None
      else
        out ← oracle_append out_max [] (str "BEGIN " ++ proc ++ str "(");
        out ← name_loop out_max true (default [] param_names) out;
        oracle_append out_max out (str "); END;")
  end.

(** [table_key]: Oracle needs no key column. *)
Definition oracle_table_key : list (list ascii) := [].

(** ** The instances *)

Definition oracle_dialect : Dialect := {|
  bind_placeholder := oracle_bind_placeholder;
  value_expr t x := oracle_value_expr (Some t) (Some x);
  lob_placeholder t := oracle_lob_placeholder (Some t);
  row_locator_clauses kind _ pos := oracle_row_locator_clauses kind pos;
  row_limit_sql s := oracle_row_limit_sql (Some s);
  count_rows_sql s := oracle_count_rows_sql (Some s);
  now_expr := oracle_now_expr;
  add_seconds_expr a b := oracle_add_seconds_expr (Some a) (Some b);
  procedure_call_sql p names := oracle_procedure_call_sql (Some p) (Some (map Some names)) (Z.of_nat (length names)) |}.

Definition mssql_dialect : Dialect := {|
  bind_placeholder := ms_bind_placeholder;
  value_expr t x := ms_value_expr (Some t) (Some x);
  lob_placeholder t := ms_lob_placeholder (Some t);
  row_locator_clauses kind loc _ := ms_row_locator_clauses kind (Some (map Some (key_columns loc)));
  row_limit_sql s := ms_row_limit_sql (Some s);
  count_rows_sql s := ms_count_rows_sql (Some s);
  now_expr := ms_now_expr;
  add_seconds_expr a b := ms_add_seconds_expr (Some a) (Some b);
  procedure_call_sql p names := ms_procedure_call_sql (Some p) (Some (map Some names)) (Z.of_nat (length names)) |}.

(** ** The two views of a LOB *)

(** The leading word of a type name is one of [names]. *)
Definition base_among (names : list string) (t : list ascii) : bool :=
  existsb (fun name => base_is (skip isspace t) (base_name_len (skip isspace t)) (str name)) names.

(** Oracle reports a LOB by its bare name, and none of its other types starts
    with a word that stands for a LOB; SQL Server has no BLOB, CLOB or NCLOB. *)
Definition oracle_reported (t : list ascii) : bool :=
  existsb (fun name => str_eqb t (str name)) ["BLOB"; "CLOB"; "NCLOB"]%string ||
  negb (base_among ["BLOB"; "CLOB"; "NCLOB"; "VARBINARY"; "IMAGE"]%string t).
Definition mssql_reported (t : list ascii) : bool := negb (base_among ["BLOB"; "CLOB"; "NCLOB"]%string t).

Section views.
Implicit Types (t : list ascii).

Lemma base_among_false names t : base_among names t = false ->
  forall name, In name names -> base_is (skip isspace t) (base_name_len (skip isspace t)) (str name) = false.
Proof.
  unfold base_among. induction names as [|n names IH]; intros H name Hin; [by destruct Hin|]. cbn [existsb] in H.
  apply orb_false_iff in H as [H1 H2]. destruct Hin as [->|Hin]; auto.
Qed.

Lemma oracle_views t : oracle_reported t = true -> oracle_lob_placeholder (Some t) = None <-> db_type_lob_kind (Some t) = DB_LOB_NONE.
Proof.
  unfold oracle_reported. intros [H|H]%orb_prop.
  - cbn [existsb] in H. unfold str_eqb in H. repeat (apply orb_prop in H as [H|H]); bools; subst; try done; vm_compute; by split.
  - apply negb_true_iff in H. assert (oracle_lob_placeholder (Some t) = None) as Hp.
    { unfold oracle_lob_placeholder, str_eqb. repeat (case_bool_decide; [subst; vm_compute in H; discriminate H|]). done. }
    pose proof (base_among_false _ _ H) as Hb. unfold db_type_lob_kind. rewrite !Hb by (cbn; tauto). rewrite andb_false_r, Hp.
    by case_match.
Qed.

Lemma ms_max s : ms_has_max s = has_max_suffix s.
Proof.
  unfold ms_has_max, has_max_suffix. destruct (skip isspace s) as [|c p]; [done|]. destruct (Ascii.eqb c "("); [|done]. cbn [negb].
  by destruct (ci_prefix _ _).
Qed.

Lemma base_is_empty s name : name <> [] -> base_is s 0 name = false.
Proof. by destruct name. Qed.

Lemma mssql_views t : mssql_reported t = true -> ms_lob_placeholder (Some t) = None <-> db_type_lob_kind (Some t) = DB_LOB_NONE.
Proof.
  unfold mssql_reported. intros H. apply negb_true_iff in H. pose proof (base_among_false _ _ H) as Hb.
  unfold db_type_lob_kind, ms_lob_placeholder. rewrite (Hb "BLOB"%string), (Hb "CLOB"%string), (Hb "NCLOB"%string) by (cbn; tauto).
  change (ms_base_len (skip isspace t)) with (base_name_len (skip isspace t)).
  rewrite ms_max. change ms_base_is with base_is. set (s := skip isspace t). set (n := base_name_len s). destruct (Nat.eqb_spec n 0) as [->|_].
  - rewrite (base_is_empty s (str "VARBINARY")), (base_is_empty s (str "IMAGE")) by done. by rewrite andb_false_r.
  - destruct (has_max_suffix (drop n s) && base_is s n (str "VARBINARY")); [by split|]. destruct (base_is s n (str "IMAGE")); by split.
Qed.
End views.

Section sizes.
Implicit Types (t p x : list ascii).

Lemma oracle_fmt_some n t x : oracle_fmt n t = Some x -> x = t /\ (length x < n)%nat.
Proof. unfold oracle_fmt. intros H. break_in H. injection H as <-. bools. split; [done|]. by apply Nat.ltb_lt. Qed.

Lemma ms_fmt_some n t x : ms_fmt n t = Some x -> x = t /\ (length x < n)%nat.
Proof. apply oracle_fmt_some. Qed.

Lemma oracle_short t p n x : oracle_value_expr (Some t) (Some p) n = Some x -> (length p <= 32)%nat -> (length x <= FRAGMENT_MAX)%nat.
Proof.
  unfold oracle_value_expr, FRAGMENT_MAX. intros H Hp. repeat break_match_in H; apply oracle_fmt_some in H as [-> _];
    rewrite ?length_app; simpl; lia.
Qed.

Lemma ms_short t p n x : ms_value_expr (Some t) (Some p) n = Some x -> (length p <= 32)%nat -> (length x <= FRAGMENT_MAX)%nat.
Proof.
  unfold ms_value_expr, FRAGMENT_MAX. intros H Hp. repeat break_match_in H; apply ms_fmt_some in H as [-> _];
    rewrite ?length_app; simpl; lia.
Qed.

Lemma oracle_lob_short t x : oracle_lob_placeholder (Some t) = Some x -> (length x <= FRAGMENT_MAX)%nat.
Proof. unfold oracle_lob_placeholder, FRAGMENT_MAX. intros H. break_in H; injection H as <-; simpl; lia. Qed.

Lemma ms_lob_short t x : ms_lob_placeholder (Some t) = Some x -> (length x <= FRAGMENT_MAX)%nat.
Proof. unfold ms_lob_placeholder, FRAGMENT_MAX. intros H. break_in H; injection H as <-; simpl; lia. Qed.
End sizes.

#[export] Instance oracle_laws : @DialectLaws oracle_dialect.
Proof.
  refine {| reported t := oracle_reported t = true |}; cbn; [by vm_compute|intros t; apply oracle_views| | |].
  - intros pos n p. unfold oracle_bind_placeholder. destruct (pos <? 1); [done|]. by intros [_ H]%oracle_fmt_some.
  - intros t p n x. apply oracle_short.
  - apply oracle_lob_short.
Defined.

#[export] Instance mssql_laws : @DialectLaws mssql_dialect.
Proof.
  refine {| reported t := mssql_reported t = true |}; cbn; [by vm_compute|intros t; apply mssql_views| | |].
  - intros pos n p. unfold ms_bind_placeholder. destruct (pos <? 1); [done|]. by intros [_ H]%ms_fmt_some.
  - intros t p n x. apply ms_short.
  - apply ms_lob_short.
Defined.

(** Outside of those names the views differ: a type that is called IMAGE on
    Oracle would get a placeholder in the statement and no value. *)
Example oracle_image : oracle_lob_placeholder (Some (str "IMAGE")) = None /\ db_type_lob_kind (Some (str "IMAGE")) = DB_LOB_BINARY.
Proof. vm_compute. by split. Qed.

(** What core counts as a LOB written after the statement is what the
    driver leaves without a placeholder, for every type name the driver
    reports - on Oracle the bare names BLOB, CLOB and NCLOB or no LOB word at
    all, on SQL Server anything but those three words -, so a statement has
    exactly the placeholders that values are bound to; and the two drivers
    stand for the same columns: on a name both report neither leaves one out
    that the other binds. *)
Theorem lob_views_agree_both t :
  (oracle_reported t = true -> oracle_lob_placeholder (Some t) = None <-> db_type_lob_kind (Some t) = DB_LOB_NONE) /\
  (mssql_reported t = true -> ms_lob_placeholder (Some t) = None <-> db_type_lob_kind (Some t) = DB_LOB_NONE) /\
  (oracle_reported t = true -> mssql_reported t = true -> oracle_lob_placeholder (Some t) = None <-> ms_lob_placeholder (Some t) = None).
Proof.
  split; [apply oracle_views|]. split; [apply mssql_views|]. intros Ho Hm. by rewrite oracle_views, mssql_views.
Qed.

Lemma lob_views_agree_both_witness :
  oracle_lob_placeholder (Some (str "TIMESTAMP(6)")) = None /\ ms_lob_placeholder (Some (str "varbinary(max)")) <> None.
Proof.
  split.
  - apply (proj1 (lob_views_agree_both (str "TIMESTAMP(6)"))); vm_compute; reflexivity.
  - intros H. apply (proj1 (proj2 (lob_views_agree_both (str "varbinary(max)")))) in H; vm_compute in H; [discriminate H|reflexivity].
Defined.
