(* ===== verification/InsertValidate.v ===== *)
(** * Values against their columns: src/src/execute/Insert_Validate_Module.c

    [validate_field] and the validator of each class of types.  A refusal
    carries its code and the message, which the caller sees cut to its buffer.
    The theorems say, for each class, exactly which texts are accepted, and
    what an accepted number means for the column. *)

From Stdlib Require Import Ascii String ZArith Lia Bool.
From stdpp Require Import base list strings numbers.
From S2P Require Import Prelude Text DbTypeClass.

#[local] Open Scope Z_scope.

Inductive field_validation_result :=
| FIELD_VALID
| FIELD_NULL_VIOLATION
| FIELD_TYPE_MISMATCH
| FIELD_LENGTH_EXCEEDED
| FIELD_PRECISION_EXCEEDED
| FIELD_SCALE_EXCEEDED
| FIELD_FORMAT_INVALID
| FIELD_ROWID_INVALID
| FIELD_HEX_INVALID
| FIELD_UNKNOWN_COLUMN
| FIELD_MISSING_REQUIRED_COLUMN.

#[export] Instance field_validation_result_eq_dec : EqDecision field_validation_result.
Proof. solve_decision. Defined.

Record parsed_field := mk_field {
  field_number : Z;
  field_name : list ascii;
  field_type : list ascii;
  field_length : Z;
  field_precision : Z;
  field_scale : Z;
  field_nullable : list ascii;
  field_default : list ascii;
  insert_value : list ascii;
}.

(** A code other than FIELD_VALID and the text for [msg]. *)
Abbreviation refusal := (field_validation_result * list ascii)%type.
Abbreviation verdict := (res refusal unit).

Definition is_numeric_type (t : list ascii) : bool := bool_decide (db_type_class (Some t) = DB_TYPE_CLASS_NUMERIC).
Definition is_string_type (t : list ascii) : bool := bool_decide (db_type_class (Some t) = DB_TYPE_CLASS_STRING).
Definition is_lob_type (t : list ascii) : bool := negb (bool_decide (db_type_lob_kind (Some t) = DB_LOB_NONE)).
Definition is_date_type (t : list ascii) : bool := bool_decide (db_type_class (Some t) = DB_TYPE_CLASS_DATE).
Definition is_timestamp_type (t : list ascii) : bool := bool_decide (db_type_class (Some t) = DB_TYPE_CLASS_TIMESTAMP).
Definition is_interval_ym_type (t : list ascii) : bool := bool_decide (db_type_class (Some t) = DB_TYPE_CLASS_INTERVAL_YM).
Definition is_interval_ds_type (t : list ascii) : bool := bool_decide (db_type_class (Some t) = DB_TYPE_CLASS_INTERVAL_DS).
Definition is_raw_type (t : list ascii) : bool := bool_decide (db_type_class (Some t) = DB_TYPE_CLASS_BINARY).
Definition is_rowid_type (t : list ascii) : bool := bool_decide (db_type_class (Some t) = DB_TYPE_CLASS_ROWID).

(** "Field '%s'" and what follows. *)
Definition field_msg (f : parsed_field) (t : list ascii) : list ascii := str "Field '" ++ field_name f ++ str "'" ++ t.

Definition is_sign (c : ascii) : bool := Ascii.eqb c "+" || Ascii.eqb c "-".
Definition is_exp (c : ascii) : bool := Ascii.eqb c "e" || Ascii.eqb c "E".

(** [if ( *p is a sign) p++;] *)
Definition skip_sign (p : list ascii) : list ascii :=
  match p with c :: p' => if is_sign c then p' else p | [] => p end.

(** ** Numbers *)

(** A run of digits up to a stop character: how many, and the rest; or the
    character that is not a digit. *)
Fixpoint digit_run (stop : ascii -> bool) (p : list ascii) (n : Z) : res ascii (Z * list ascii) :=
  match p with
  | [] => Ok (n, [])
  | c :: p' => if stop c then Ok (n, p) else if isdigit c then digit_run stop p' (n + 1) else Err c
  end.

Definition validate_numeric (f : parsed_field) : verdict :=
  let p := skip_sign (insert_value f) in
  match p with
  | [] => Err (FIELD_TYPE_MISMATCH, field_msg f (str ": empty value for numeric type '" ++ field_type f ++ str "'"))
  | _ =>
      match digit_run (fun c => Ascii.eqb c "." || is_exp c) p 0 with
      | Err c => Err (FIELD_TYPE_MISMATCH, field_msg f (str ": invalid character '" ++ c :: str "' in numeric value"))
      | Ok (int_digits, p) =>
          let frac := match p with
                      | c :: p' => if Ascii.eqb c "." then digit_run is_exp p' 0 else Ok (0, p)
                      | [] => Ok (0, p)
                      end in
          match frac with
          | Err c => Err (FIELD_TYPE_MISMATCH, field_msg f (str ": invalid character '" ++ c :: str "' in fractional part"))
          | Ok (frac_digits, p) =>
              let exponent :=
                match p with
                | c :: p' =>
                    if is_exp c then
                      match skip_sign p' with
                      | d :: p'' => if isdigit d then Ok (skip isdigit (d :: p'')) else Err tt
                      | [] => Err tt
                      end
                    else Ok p
                | [] => Ok p
                end in
              match exponent with
              | Err _ => Err (FIELD_TYPE_MISMATCH, field_msg f (str ": malformed exponent in numeric value"))
              | Ok (c :: p) =>
                  Err (FIELD_TYPE_MISMATCH, field_msg f (str ": trailing garbage '" ++ (c :: p) ++ str "' in numeric value"))
              | Ok [] =>
                  let prec := field_precision f in
                  let scale := field_scale f in
                  let column := print_int prec ++ str "," ++ print_int scale ++ str ")" in
                  if (0 <? prec) && (0 <=? scale) then
                    if prec - scale <? int_digits then
                      Err (FIELD_PRECISION_EXCEEDED,
                           field_msg f (str ": integer part (" ++ print_int int_digits ++ str " digits) exceeds NUMBER(" ++
                             column ++ str " precision"))
                    else if scale <? frac_digits then
                      Err (FIELD_SCALE_EXCEEDED,
                           field_msg f (str ": fractional part (" ++ print_int frac_digits ++ str " digits) exceeds scale " ++
                             print_int scale ++ str " of NUMBER(" ++ column))
                    else Ok tt
                  else Ok tt
              end
          end
      end
  end.

(** ** Texts, dates *)

(** [(int)strlen(s)]. *)
Definition int_strlen (s : list ascii) : Z := (Z.of_nat (length s) + 2 ^ 31) mod 2 ^ 32 - 2 ^ 31.

Definition validate_string (f : parsed_field) : verdict :=
  let len := int_strlen (insert_value f) in
  if (0 <? field_length f) && (field_length f <? len) then
    Err (FIELD_LENGTH_EXCEEDED,
         field_msg f (str ": value length " ++ print_int len ++ str " exceeds " ++ field_type f ++
           str "(" ++ print_int (field_length f) ++ str ")"))
  else Ok tt.

Definition validate_date (f : parsed_field) : verdict := Ok tt.
Definition validate_timestamp (f : parsed_field) : verdict := Ok tt.

(** ** Intervals *)

Section intervals.
(** What [%d] stores for a number outside [int]; the standard leaves it open. *)
Context (out_of_range : Z -> Z).

Definition to_int (n : Z) : Z := if (- 2 ^ 31 <=? n) && (n <? 2 ^ 31) then n else out_of_range n.

(** One [%d] of [sscanf]: blanks, a sign, digits - at least one. *)
Definition scan_d (s : list ascii) : option (Z * list ascii) :=
  let s := skip isspace s in
  let d := skip_sign s in
  match span isdigit d with
  | [] => None
  | ds => let n := read_dec ds 0 in
          Some (to_int (match s with c :: _ => if Ascii.eqb c "-" then - n else n | [] => n end), skip isdigit d)
  end.

(** A character of the format that must match. *)
Definition scan_char (c : ascii) (s : list ascii) : option (list ascii) :=
  match s with d :: s' => if Ascii.eqb d c then Some s' else None | [] => None end.

(** [sscanf(v, "%d-%d", &yy, &mm) == 2]. *)
Definition scan_ym (v : list ascii) : option (Z * Z) :=
  '(yy, v) ← scan_d v; v ← scan_char "-" v; '(mm, _) ← scan_d v; Some (yy, mm).

(** [sscanf(v, "%d %d:%d:%d", &dd, &hh, &mi, &ss) == 4]. *)
Definition scan_ds (v : list ascii) : option (Z * Z * Z * Z) :=
  '(dd, v) ← scan_d v; '(hh, v) ← scan_d (skip isspace v); v ← scan_char ":" v;
  '(mi, v) ← scan_d v; v ← scan_char ":" v; '(ss, _) ← scan_d v; Some (dd, hh, mi, ss).

Definition validate_interval_ym (f : parsed_field) : verdict :=
  let bad := Err (FIELD_FORMAT_INVALID,
    field_msg f (str ": INTERVAL YEAR TO MONTH value '" ++ insert_value f ++
      str "' does not match [+/-]YY-MM (months 0-11)")) in
  match scan_ym (skip_sign (insert_value f)) with
  | None => bad
  | Some (_, mm) => if (mm <? 0) || (11 <? mm) then bad else Ok tt
  end.

Definition validate_interval_ds (f : parsed_field) : verdict :=
  let bad := Err (FIELD_FORMAT_INVALID,
    field_msg f (str ": INTERVAL DAY TO SECOND value '" ++ insert_value f ++
      str "' does not match [+/-]DD HH:MI:SS[.ffffff]")) in
  match scan_ds (skip_sign (insert_value f)) with
  | None => bad
  | Some (_, hh, mi, ss) =>
      if (hh <? 0) || (23 <? hh) || (mi <? 0) || (59 <? mi) || (ss <? 0) || (59 <? ss) then bad else Ok tt
  end.

(** ** RAW and ROWID *)

(** The loop over the characters: the first one refused and its position. *)
Fixpoint first_bad (ok : ascii -> bool) (v : list ascii) (i : Z) : option (ascii * Z) :=
  match v with
  | [] => None
  | c :: v' => if ok c then first_bad ok v' (i + 1) else Some (c, i + 1)
  end.

Definition validate_raw (f : parsed_field) : verdict :=
  let v := insert_value f in
  let len := int_strlen v in
  match first_bad isxdigit (take (Z.to_nat len) v) 0 with
  | Some (c, i) =>
      Err (FIELD_HEX_INVALID,
           field_msg f (str ": RAW value contains non-hex character '" ++ c :: str "' at position " ++ print_int i))
  | None =>
      if (0 <? field_length f) && (field_length f * 2 <? len) then
        Err (FIELD_LENGTH_EXCEEDED,
             field_msg f (str ": RAW hex string (" ++ print_int len ++ str " hex chars = " ++ print_int (Z.quot len 2) ++
               str " bytes) exceeds RAW(" ++ print_int (field_length f) ++ str " BYTE)"))
      else Ok tt
  end.

Definition is_oracle_b64_char (c : ascii) : bool := isalpha c || isdigit c || Ascii.eqb c "+" || Ascii.eqb c "/".

Definition validate_rowid (f : parsed_field) : verdict :=
  let v := insert_value f in
  let len := int_strlen v in
  if str_eqb (field_type f) (str "ROWID") && negb (len =? 18) then
    Err (FIELD_ROWID_INVALID, field_msg f (str ": ROWID must be exactly 18 characters (got " ++ print_int len ++ str ")"))
  else
    match first_bad is_oracle_b64_char (take (Z.to_nat len) v) 0 with
    | Some (c, i) =>
        Err (FIELD_ROWID_INVALID,
             field_msg f (str ": ROWID/UROWID value contains invalid character '" ++ c :: str "' at position " ++ print_int i))
    | None => Ok tt
    end.

(** ** Dispatch *)

Definition dispatch (f : parsed_field) : verdict :=
  let t := field_type f in
  match insert_value f with
  | [] =>
      if match field_nullable f with c :: _ => Ascii.eqb c "N" | [] => false end && Nat.eqb (length (field_default f)) 0
      then Err (FIELD_NULL_VIOLATION,
                field_msg f (str " (" ++ t ++ str "): NOT NULL column has empty insert_value and no column default"))
      else Ok tt
  | _ =>
      if is_numeric_type t then validate_numeric f
      else if is_string_type t then validate_string f
      else if is_date_type t then validate_date f
      else if is_timestamp_type t then validate_timestamp f
      else if is_interval_ym_type t then validate_interval_ym f
      else if is_interval_ds_type t then validate_interval_ds f
      else if is_raw_type t then validate_raw f
      else if is_rowid_type t then validate_rowid f
      else if is_lob_type t then Ok tt
      else Ok tt
  end.

(** The code, and what [msg] holds when it is not FIELD_VALID. *)
Definition validate_field (f : parsed_field) (msg_max : nat) : field_validation_result * list ascii :=
  match dispatch f with
  | Ok _ => (FIELD_VALID, [])
  | Err (code, msg) => (code, take (msg_max - 1) msg)
  end.
End intervals.

(** ** Which texts are numbers *)

Definition digits (s : list ascii) : Prop := Forall (fun c => isdigit c = true) s.
Definition optional_sign (s : list ascii) : Prop := s = [] \/ exists c, is_sign c = true /\ s = [c].

Definition frac_text (fp : option (list ascii)) : list ascii :=
  match fp with Some d => "."%char :: d | None => [] end.

(** [v] is a sign, the digits [ip], perhaps a point and the digits [fp], and
    perhaps an exponent [ex]; there may be no digit before the exponent, but
    the text is more than a sign. *)
Definition numeral (v ip : list ascii) (fp : option (list ascii)) (ex : list ascii) : Prop :=
  exists sg, optional_sign sg /\ v = sg ++ ip ++ frac_text fp ++ ex /\ ip ++ frac_text fp ++ ex <> [] /\
    digits ip /\ digits (default [] fp) /\
    (ex = [] \/ exists e s ds, is_exp e = true /\ optional_sign s /\ digits ds /\ ds <> [] /\ ex = e :: s ++ ds).

Section facts.
Implicit Types (v p s r ip ex ds : list ascii) (n : Z) (f : parsed_field).

Lemma digit_facts c : isdigit c = true ->
  is_sign c = false /\ is_exp c = false /\ Ascii.eqb c "." = false /\ isspace c = false.
Proof. repeat split; revert H; all_ascii c. Qed.

Lemma sign_facts c : is_sign c = true -> isspace c = false /\ isdigit c = false.
Proof. repeat split; revert H; all_ascii c. Qed.

Lemma exp_facts c : is_exp c = true -> is_sign c = false /\ isdigit c = false /\ Ascii.eqb c "." = false.
Proof. repeat split; revert H; all_ascii c. Qed.

Lemma skip_sign_spec p : exists sg, optional_sign sg /\ p = sg ++ skip_sign p.
Proof.
  destruct p as [|c p]; simpl; [by exists []; split; [left|]|].
  destruct (is_sign c) eqn:E; [exists [c]|exists []]; split; try done; [right; by exists c|by left].
Qed.

Lemma skip_sign_app sg p : optional_sign sg -> match p with c :: _ => is_sign c = false | [] => True end ->
  skip_sign (sg ++ p) = p.
Proof.
  intros [->|(c & Hc & ->)] Hp; simpl; [|by rewrite Hc]. destruct p as [|d p]; [done|]. simpl. by rewrite Hp.
Qed.

Lemma digit_run_app stop ds r n :
  digits ds -> (forall c, isdigit c = true -> stop c = false) -> match r with c :: _ => stop c = true | [] => True end ->
  digit_run stop (ds ++ r) n = Ok (n + Z.of_nat (length ds), r).
Proof.
  intros H Hs Hr. revert n. induction H as [|c ds Hc _ IH]; intros n.
  - simpl. rewrite Z.add_0_r. destruct r as [|c r]; [done|]. simpl. by rewrite Hr.
  - cbn [app digit_run]. rewrite (Hs c Hc), Hc, IH. cbn [length]. do 2 f_equal. lia.
Qed.

Lemma digit_run_Ok stop p n m r : digit_run stop p n = Ok (m, r) ->
  exists ds, p = ds ++ r /\ digits ds /\ match r with c :: _ => stop c = true | [] => True end.
Proof.
  revert n. induction p as [|c p IH]; intros n; cbn [digit_run].
  - intros [= _ <-]. exists []. split; [done|]. split; [by constructor|done].
  - destruct (stop c) eqn:Es; [intros [= _ <-]; exists []; split; [done|]; split; [by constructor|done]|].
    destruct (isdigit c) eqn:Ed; [|done]. intros H. apply IH in H as (ds & -> & H1 & H2).
    exists (c :: ds). split; [done|]. split; [by constructor|done].
Qed.

Lemma skip_digits_all ds : digits ds -> skip isdigit ds = [].
Proof. induction 1 as [|c ds Hc _ IH]; simpl; [done|]. by rewrite Hc. Qed.

(** The check of the digits against NUMBER(p,s). *)
Definition fits_number f ip (fp : option (list ascii)) : Prop :=
  0 < field_precision f -> 0 <= field_scale f ->
  Z.of_nat (length ip) <= field_precision f - field_scale f /\ Z.of_nat (length (default [] fp)) <= field_scale f.

Definition number_checked f (i k : Z) (v : verdict) : Prop :=
  match v with
  | Ok _ => 0 < field_precision f -> 0 <= field_scale f -> i <= field_precision f - field_scale f /\ k <= field_scale f
  | Err (code, _) =>
      0 < field_precision f /\ 0 <= field_scale f /\
      (code = FIELD_PRECISION_EXCEEDED /\ field_precision f - field_scale f < i \/
       code = FIELD_SCALE_EXCEEDED /\ i <= field_precision f - field_scale f /\ field_scale f < k)
  end.

Lemma validate_numeral f ip fp ex :
  numeral (insert_value f) ip fp ex ->
  number_checked f (Z.of_nat (length ip)) (Z.of_nat (length (default [] fp))) (validate_numeric f).
Proof.
  intros (sg & Hs & E & Hn & Hi & Hf & He). unfold validate_numeric. rewrite E.
  assert (match ex with c :: _ => is_exp c = true | [] => True end) as Hex.
  { destruct He as [->|(e & s & ds & ? & _ & _ & _ & ->)]; done. }
  rewrite skip_sign_app; [|done|].
  2:{ destruct Hi as [|c ip Hc _]; [|by apply digit_facts in Hc as (? & _)]. destruct fp; [done|]. simpl.
      destruct ex as [|c ex]; [done|]. by apply exp_facts in Hex as (? & _). }
  set (body := ip ++ frac_text fp ++ ex) in *. destruct body as [|c0 p0] eqn:E0; [done|]. rewrite <- E0. subst body. clear E E0 Hn.
  rewrite digit_run_app; [|done|intros c (? & H1 & H2 & _)%digit_facts; by rewrite H1, H2|].
  2:{ destruct fp as [d|]; simpl; [done|]. destruct ex as [|c ex]; [done|]. by rewrite Hex, orb_true_r. }
  assert (match frac_text fp ++ ex with
          | c :: p' => if Ascii.eqb c "." then digit_run is_exp p' 0 else Ok (0, frac_text fp ++ ex)
          | [] => Ok (0, frac_text fp ++ ex) end = Ok (Z.of_nat (length (default [] fp)), ex)) as ->.
  { destruct fp as [d|]; simpl.
    - rewrite digit_run_app; [done|done| |done]. by intros c (_ & ? & _)%digit_facts.
    - destruct ex as [|c ex]; [done|]. by apply exp_facts in Hex as (_ & _ & ->). }
  assert (match ex with
          | c :: p' => if is_exp c then match skip_sign p' with
                       | d :: p'' => if isdigit d then Ok (skip isdigit (d :: p'')) else Err tt
                       | [] => Err tt end else Ok ex
          | [] => Ok ex end = Ok ([] : list ascii)) as ->.
  { destruct He as [->|(e & s & ds & H1 & H2 & H3 & H4 & ->)]; [done|]. rewrite H1.
    rewrite skip_sign_app; [|done|by destruct H3 as [|d ds [? _]%digit_facts]].
    destruct H3 as [|d ds Hd Hds]; [done|]. rewrite Hd. f_equal. apply skip_digits_all. by constructor. }
  unfold number_checked. destruct (Z.ltb_spec 0 (field_precision f)), (Z.leb_spec 0 (field_scale f)); cbn [andb]; cbv iota beta; try lia.
  destruct (Z.ltb_spec (field_precision f - field_scale f) (0 + Z.of_nat (length ip))); cbv iota beta.
  - split; [done|]. split; [done|]. left. split; [done|lia].
  - destruct (Z.ltb_spec (field_scale f) (Z.of_nat (length (default [] fp)))); cbv iota beta; [|lia].
    split; [done|]. split; [done|]. right. split; [done|lia].
Qed.

Lemma validate_not_mismatch f :
  (forall m, validate_numeric f <> Err (FIELD_TYPE_MISMATCH, m)) -> exists ip fp ex, numeral (insert_value f) ip fp ex.
Proof.
  unfold validate_numeric. destruct (skip_sign_spec (insert_value f)) as (sg & Hs & E).
  destruct (skip_sign (insert_value f)) as [|c0 p0] eqn:E0; [intros H; by destruct (H _ eq_refl)|].
  destruct (digit_run _ (c0 :: p0) 0) as [[i p]|c] eqn:E1; [|intros H; by destruct (H _ eq_refl)].
  apply digit_run_Ok in E1 as (ip & Ei & Hi & Hst).
  set (frac := match p with [] => _ | _ => _ end).
  destruct frac as [[k r]|c] eqn:E2; [|intros H; by destruct (H _ eq_refl)].
  assert (exists fp, p = frac_text fp ++ r /\ digits (default [] fp) /\ match r with c :: _ => is_exp c = true | [] => True end)
    as (fp & Ep & Hf & Hr).
  { subst frac. destruct p as [|c p]; [injection E2 as _ <-; exists None; split; [done|]; split; [by constructor|done]|].
    destruct (Ascii.eqb c ".") eqn:Ec; [|injection E2 as _ <-; exists None; by repeat split; [constructor|]].
    apply digit_run_Ok in E2 as (d & -> & Hd & Hr). apply Ascii.eqb_eq in Ec as ->. by exists (Some d). }
  clear frac E2. set (exponent := match r with [] => _ | _ => _ end). intros H.
  assert (r = [] \/ exists e s ds, is_exp e = true /\ optional_sign s /\ digits ds /\ ds <> [] /\ r = e :: s ++ ds) as He.
  { destruct r as [|e r]; [by left|]. right. subst exponent. rewrite Hr in H.
    destruct (skip_sign_spec r) as (s & Hs' & Er). destruct (skip_sign r) as [|d r'] eqn:Esk; [by destruct (H _ eq_refl)|].
    destruct (isdigit d) eqn:Ed; [|by destruct (H _ eq_refl)].
    destruct (skip isdigit (d :: r')) as [|g gs] eqn:Eg; [|by destruct (H _ eq_refl)].
    exists e, s, (span isdigit (d :: r')). pose proof (span_skip isdigit (d :: r')) as Hss. rewrite Eg, app_nil_r in Hss.
    repeat split; [done|done|apply span_Forall|by rewrite Hss|by rewrite Hss, Er]. }
  exists ip, fp, r, sg. subst p. rewrite <- Ei, <- E. by repeat split.
Qed.

(** ** Which texts are intervals *)

Section sscanf.
Context (out_of_range : Z -> Z).

Definition no_digit_head (r : list ascii) : Prop := match r with c :: _ => isdigit c = false | [] => True end.

(** A text that one [%d] takes, and its value. *)
Definition int_text (t : list ascii) (n : Z) : Prop :=
  exists bl sg ds, Forall (fun c => isspace c = true) bl /\ optional_sign sg /\ digits ds /\ ds <> [] /\
    t = bl ++ sg ++ ds /\
    n = to_int out_of_range (if bool_decide (sg = ["-"%char]) then - read_dec ds 0 else read_dec ds 0).

Lemma scan_d_text t n r : int_text t n -> no_digit_head r -> scan_d out_of_range (t ++ r) = Some (n, r).
Proof.
  intros (bl & sg & ds & Hb & Hs & Hd & Hn & -> & ->) Hr. unfold scan_d. rewrite <- !app_assoc, skip_app_all by done.
  assert (match ds ++ r with c :: _ => isspace c = false /\ is_sign c = false | [] => True end) as Hh.
  { destruct Hd as [|c ds Hc _]; [done|]. by apply digit_facts in Hc as (? & _ & _ & ?). }
  assert (skip isspace (sg ++ ds ++ r) = sg ++ ds ++ r) as ->.
  { destruct Hs as [->|(c & Hc & ->)]; cbn [app].
    - destruct (ds ++ r); [done|]. by apply skip_id, Hh.
    - apply skip_id. by apply sign_facts in Hc as [? _]. }
  rewrite skip_sign_app; [|done|destruct (ds ++ r); [done|apply Hh]].
  assert (span isdigit (ds ++ r) = ds /\ skip isdigit (ds ++ r) = r) as [-> ->].
  { destruct r as [|c r]; [|by rewrite span_app_stop, skip_app_stop].
    rewrite app_nil_r, skip_digits_all by done. pose proof (span_skip isdigit ds) as E. rewrite skip_digits_all, app_nil_r in E by done. done. }
  destruct ds as [|d ds']; [done|]. cbv zeta. do 3 f_equal.
  destruct Hs as [->|(c & Hc & ->)].
  - cbn [app]. inversion Hd as [|? ? Hc _]; subst. rewrite bool_decide_false by done. by replace (Ascii.eqb d "-") with false by (revert Hc; clear; all_ascii d).
  - cbn [app]. destruct (Ascii.eqb_spec c "-") as [->|Hne]; [by rewrite bool_decide_true|]. rewrite bool_decide_false; [done|]. congruence.
Qed.

Lemma scan_d_inv s n r : scan_d out_of_range s = Some (n, r) -> exists t, s = t ++ r /\ int_text t n /\ no_digit_head r.
Proof.
  unfold scan_d. set (s1 := skip isspace s). destruct (skip_sign_spec s1) as (sg & Hs & E).
  destruct (span isdigit (skip_sign s1)) as [|d ds] eqn:Ed; [done|]. cbv zeta. intros [= Hn <-].
  assert (digits (d :: ds)) as Hd by (rewrite <- Ed; apply span_Forall).
  exists (span isspace s ++ sg ++ d :: ds). split; [|split].
  - rewrite <- !app_assoc, <- Ed, span_skip, <- E. symmetry. apply span_skip.
  - exists (span isspace s), sg, (d :: ds). repeat split; [apply span_Forall|done|done|done|]. subst n. f_equal.
    rewrite E. pose proof (span_skip isdigit (skip_sign s1)) as Es. rewrite Ed in Es. rewrite <- Es.
    destruct Hs as [->|(c & Hc & ->)]; cbn [app].
    + inversion Hd as [|? ? Hc _]; subst. rewrite bool_decide_false by done. by replace (Ascii.eqb d "-") with false by (revert Hc; clear; all_ascii d).
    + destruct (Ascii.eqb_spec c "-") as [->|Hne]; [by rewrite bool_decide_true|]. rewrite bool_decide_false; [done|]. congruence.
  - unfold no_digit_head. apply (skip_nohead isdigit).
Qed.

(** A sign is taken before the first number, which may have one of its own. *)
Lemma signed_int sg t n r : optional_sign sg -> int_text t n ->
  exists t' n', skip_sign (sg ++ t ++ r) = t' ++ r /\ int_text t' n'.
Proof.
  intros Hs (bl & s & ds & Hb & Hs' & Hd & Hn & -> & _).
  assert (forall u, optional_sign u -> exists n', int_text (bl ++ u ++ ds) n') as Hu.
  { intros u Hu. eexists. exists bl, u, ds. by repeat split. }
  destruct (Hu s Hs') as (n1 & H1). destruct (Hu [] ltac:(by left)) as (n2 & H2).
  destruct Hs as [->|(c & Hc & ->)]; [|exists (bl ++ s ++ ds), n1; split; [|done]; simpl; by rewrite Hc].
  cbn [app]. destruct bl as [|b bl].
  - exists ds, n2. split; [|done]. cbn [app]. rewrite <- app_assoc. apply skip_sign_app; [done|].
    destruct Hd as [|d ds Hc _]; [done|]. by apply digit_facts in Hc as (? & _).
  - exists ((b :: bl) ++ s ++ ds), n1. split; [|done]. cbn [app skip_sign].
    apply Forall_cons_1 in Hb as [Hb _]. destruct (is_sign b) eqn:E; [|done]. apply sign_facts in E as [? _]. congruence.
Qed.

Lemma skip_blanks_text s t n r : skip isspace s = t ++ r -> int_text t n -> exists t', s = t' ++ r /\ int_text t' n.
Proof.
  intros E (bl & sg & ds & Hb & H). exists (span isspace s ++ t). rewrite <- app_assoc, <- E, span_skip.
  split; [done|]. destruct H as (Hs & Hd & Hn & -> & Hv). exists (span isspace s ++ bl), sg, ds. rewrite <- !app_assoc.
  repeat split; try done. apply Forall_app. split; [apply span_Forall|done].
Qed.

Lemma text_skip_blanks t n r : int_text t n -> exists t', skip isspace (t ++ r) = t' ++ r /\ int_text t' n.
Proof.
  intros (bl & sg & ds & Hb & Hs & Hd & Hn & -> & Hv). exists (sg ++ ds). split; [|by exists [], sg, ds].
  rewrite <- !app_assoc, skip_app_all by done.
  destruct Hs as [->|(c & Hc & ->)]; cbn [app].
  - destruct Hd as [|d ds Hd _]; [done|]. apply skip_id. by apply digit_facts in Hd as (_ & _ & _ & ?).
  - apply skip_id. by apply sign_facts in Hc as [? _].
Qed.

(** [+/-]YY-MM, with whatever comes after the months. *)
Definition ym_text (v : list ascii) (mm : Z) : Prop :=
  exists sg y yy m junk, optional_sign sg /\ int_text y yy /\ int_text m mm /\ no_digit_head junk /\
    v = sg ++ y ++ "-"%char :: m ++ junk.

(** [+/-]DD HH:MI:SS, with whatever comes after the seconds. *)
Definition ds_text (v : list ascii) (hh mi ss : Z) : Prop :=
  exists sg d dd h m s junk, optional_sign sg /\ int_text d dd /\ int_text h hh /\ int_text m mi /\ int_text s ss /\
    no_digit_head (h ++ ":"%char :: m ++ ":"%char :: s ++ junk) /\ no_digit_head junk /\
    v = sg ++ d ++ h ++ ":"%char :: m ++ ":"%char :: s ++ junk.

Lemma scan_char_Some c s r : scan_char c s = Some r <-> s = c :: r.
Proof.
  unfold scan_char. destruct s as [|d s]; [done|]. destruct (Ascii.eqb_spec d c) as [->|H]; split; congruence.
Qed.

Lemma scan_ym_spec v mm : (exists yy, scan_ym out_of_range (skip_sign v) = Some (yy, mm)) <-> ym_text v mm.
Proof.
  split.
  - intros (yy & H). unfold scan_ym in H. destruct (scan_d _ (skip_sign v)) as [[y v1]|] eqn:E1; [|done]. cbn [mbind option_bind] in H.
    destruct (scan_char "-" v1) as [v2|] eqn:E2; [|done]. cbn [mbind option_bind] in H.
    destruct (scan_d _ v2) as [[m v3]|] eqn:E3; [|done]. cbn [mbind option_bind] in H. injection H as -> ->.
    apply scan_d_inv in E1 as (t1 & H1 & Ht1 & _). apply scan_char_Some in E2 as ->. apply scan_d_inv in E3 as (t2 & -> & Ht2 & Hj).
    destruct (skip_sign_spec v) as (sg & Hs & Ev). exists sg, t1, yy, t2, v3. repeat split; [done..|]. by rewrite Ev, H1.
  - intros (sg & y & yy & m & junk & Hs & Hy & Hm & Hj & ->).
    destruct (signed_int sg y yy ("-"%char :: m ++ junk) Hs Hy) as (t & n & -> & Ht).
    exists n. unfold scan_ym. erewrite scan_d_text by done. cbn [mbind option_bind]. rewrite (proj2 (scan_char_Some _ _ _) eq_refl). cbn [mbind option_bind].
    erewrite scan_d_text by done. done.
Qed.

Lemma scan_ds_spec v hh mi ss : (exists dd, scan_ds out_of_range (skip_sign v) = Some (dd, hh, mi, ss)) <-> ds_text v hh mi ss.
Proof.
  split.
  - intros (dd & H). unfold scan_ds in H. destruct (scan_d _ (skip_sign v)) as [[d v1]|] eqn:E1; [|done]. cbn [mbind option_bind] in H.
    destruct (scan_d _ (skip isspace v1)) as [[h v2]|] eqn:E2; [|done]. cbn [mbind option_bind] in H.
    destruct (scan_char ":" v2) as [v3|] eqn:E3; [|done]. cbn [mbind option_bind] in H.
    destruct (scan_d _ v3) as [[m v4]|] eqn:E4; [|done]. cbn [mbind option_bind] in H.
    destruct (scan_char ":" v4) as [v5|] eqn:E5; [|done]. cbn [mbind option_bind] in H.
    destruct (scan_d _ v5) as [[s v6]|] eqn:E6; [|done]. cbn [mbind option_bind] in H. injection H as -> -> -> ->.
    apply scan_d_inv in E1 as (t1 & H1 & Ht1 & Hj1). apply scan_d_inv in E2 as (t2 & H2 & Ht2 & _).
    apply scan_char_Some in E3 as ->. apply scan_d_inv in E4 as (t3 & -> & Ht3 & _). apply scan_char_Some in E5 as ->.
    apply scan_d_inv in E6 as (t4 & -> & Ht4 & Hj4). destruct (skip_blanks_text _ _ _ _ H2 Ht2) as (t2' & -> & Ht2').
    destruct (skip_sign_spec v) as (sg & Hs & Ev). exists sg, t1, dd, t2', t3, t4, v6. repeat split; [done..|]. by rewrite Ev, H1.
  - intros (sg & d & dd & h & m & s & junk & Hs & Hd & Hh & Hm & Hss & Hj1 & Hj & ->).
    destruct (signed_int sg d dd (h ++ ":"%char :: m ++ ":"%char :: s ++ junk) Hs Hd) as (t & n & -> & Ht).
    exists n. unfold scan_ds. erewrite scan_d_text by done. cbn [mbind option_bind].
    destruct (text_skip_blanks h hh (":"%char :: m ++ ":"%char :: s ++ junk) Hh) as (h' & -> & Hh').
    erewrite scan_d_text by done. cbn [mbind option_bind]. rewrite (proj2 (scan_char_Some _ _ _) eq_refl). cbn [mbind option_bind].
    erewrite scan_d_text by done. cbn [mbind option_bind]. rewrite (proj2 (scan_char_Some _ _ _) eq_refl). cbn [mbind option_bind].
    erewrite scan_d_text by done. done.
Qed.
End sscanf.
End facts.

Lemma int_strlen_small s : Z.of_nat (length s) < 2 ^ 31 -> int_strlen s = Z.of_nat (length s).
Proof. intros H. unfold int_strlen. rewrite Z.mod_small; lia. Qed.

Lemma first_bad_None ok v i : first_bad ok v i = None <-> Forall (fun c => ok c = true) v.
Proof.
  revert i. induction v as [|c v IH]; intros i; cbn [first_bad]; [by split; [constructor|]|].
  destruct (ok c) eqn:E.
  - rewrite IH. split; [by constructor|]. by inversion 1.
  - split; [done|]. inversion 1. congruence.
Qed.

Lemma read_dec_bound s acc : digits s -> 0 <= acc ->
  read_dec s acc < (acc + 1) * 10 ^ Z.of_nat (length s).
Proof.
  intros H. revert acc. induction H as [|c s Hc _ IH]; intros acc Ha; cbn [read_dec length].
  - change (10 ^ Z.of_nat 0) with 1. lia.
  - rewrite Hc. assert (0 <= digit_val c < 10) as Hd by (revert Hc; clear; unfold isdigit, in_range, digit_val; intros; bools; lia).
    specialize (IH (acc * 10 + digit_val c) ltac:(lia)). rewrite Nat2Z.inj_succ, Z.pow_succ_r by lia.
    assert (0 < 10 ^ Z.of_nat (length s)) by (apply Z.pow_pos_nonneg; lia). nia.
Qed.

Lemma read_dec_nonneg s acc : 0 <= acc -> 0 <= read_dec s acc.
Proof.
  revert acc. induction s as [|c s IH]; intros acc Ha; cbn [read_dec]; [done|]. destruct (isdigit c) eqn:Hc; [|done].
  apply IH. assert (0 <= digit_val c) by (revert Hc; clear; unfold isdigit, in_range, digit_val; intros; bools; lia). lia.
Qed.

(** A number is accepted exactly when it reads as a sign, digits, a point
    and digits, and an exponent, with no more digits before and after the
    point than a declared precision and scale allow; each other outcome says
    which of the conditions failed.  The exponent is not looked at, and there
    need be no digit before it. *)
Theorem validate_numeric_spec (f : parsed_field) :
  match validate_numeric f with
  | Ok _ => exists ip fp ex, numeral (insert_value f) ip fp ex /\ fits_number f ip fp
  | Err (code, _) =>
      (code = FIELD_TYPE_MISMATCH /\ (forall ip fp ex, ~ numeral (insert_value f) ip fp ex)) \/
      (exists ip fp ex, numeral (insert_value f) ip fp ex /\ 0 < field_precision f /\ 0 <= field_scale f /\
        ((code = FIELD_PRECISION_EXCEEDED /\ field_precision f - field_scale f < Z.of_nat (length ip)) \/
         (code = FIELD_SCALE_EXCEEDED /\ field_scale f < Z.of_nat (length (default [] fp)))))
  end.
Proof.
  pose proof (validate_not_mismatch f) as Hm. pose proof (validate_numeral f) as Hv.
  destruct (validate_numeric f) as [[]|[code m]].
  - destruct Hm as (ip & fp & ex & H); [done|]. exists ip, fp, ex. split; [done|]. by specialize (Hv ip fp ex H).
  - destruct (decide (code = FIELD_TYPE_MISMATCH)) as [->|Hne].
    + left. split; [done|]. intros ip fp ex H. specialize (Hv ip fp ex H). cbn in Hv. by destruct Hv as (_ & _ & [[? _]|[? _]]).
    + right. destruct Hm as (ip & fp & ex & H); [congruence|]. exists ip, fp, ex. split; [done|].
      specialize (Hv ip fp ex H). cbn in Hv. destruct Hv as (H1 & H2 & Hc). split; [done|]. split; [done|].
      destruct Hc as [?|(? & _ & ?)]; [by left|by right].
Qed.

(** An accepted number without an exponent fits its NUMBER(p,s) column:
    scaled to the last digit the column keeps, it is an integer of at most p
    digits. *)
Theorem accepted_number_fits (f : parsed_field) (ip : list ascii) (fp : option (list ascii)) :
  0 < field_precision f -> 0 <= field_scale f ->
  numeral (insert_value f) ip fp [] -> validate_numeric f = Ok tt ->
  let k := Z.of_nat (length (default [] fp)) in
  k <= field_scale f /\
  0 <= read_dec (ip ++ default [] fp) 0 * 10 ^ (field_scale f - k) < 10 ^ field_precision f.
Proof.
  intros Hp Hs Hn Hv. cbv zeta. pose proof (validate_numeral f ip fp [] Hn) as Hc. rewrite Hv in Hc.
  destruct (Hc Hp Hs) as [Hi Hk]. set (k := Z.of_nat (length (default [] fp))) in *. split; [done|].
  destruct Hn as (_ & _ & _ & _ & Hdi & Hdf & _).
  assert (digits (ip ++ default [] fp)) as Hd by (apply Forall_app; by split).
  pose proof (read_dec_bound _ 0 Hd ltac:(lia)) as Hb. pose proof (read_dec_nonneg (ip ++ default [] fp) 0 ltac:(lia)).
  rewrite length_app, Nat2Z.inj_add in Hb. fold k in Hb. set (n := read_dec _ 0) in *. rewrite Z.mul_1_l in Hb.
  assert (0 < 10 ^ (field_scale f - k)) as H10 by (apply Z.pow_pos_nonneg; lia). split; [nia|].
  apply Z.lt_le_trans with (10 ^ (Z.of_nat (length ip) + k) * 10 ^ (field_scale f - k)); [nia|].
  rewrite <- Z.pow_add_r by lia. apply Z.pow_le_mono_r; lia.
Qed.

Definition amount : parsed_field := mk_field 1 (str "AMOUNT") (str "NUMBER") 22 5 2 (str "N") [] (str "-123.4").

Lemma accepted_number_fits_witness :
  validate_numeric amount = Ok tt /\ 0 <= read_dec (str "1234") 0 * 10 ^ (2 - 1) < 10 ^ 5.
Proof.
  assert (validate_numeric amount = Ok tt) as H by (vm_compute; reflexivity). split; [exact H|].
  refine (proj2 (accepted_number_fits amount (str "123") (Some (str "4")) _ _ _ H)); [vm_compute; reflexivity|vm_compute; discriminate|].
  exists (str "-"). split; [right; exists "-"%char; by split|]. split; [reflexivity|]. split; [done|].
  split; [repeat constructor|]. split; [repeat constructor|]. by left.
Defined.

Section field.
Context (out_of_range : Z -> Z).

(** The rules, class by class. *)
Definition acceptable (f : parsed_field) : Prop :=
  let v := insert_value f in
  match v with
  | [] => head (field_nullable f) = Some "N"%char -> field_default f <> []
  | _ =>
      match db_type_class (Some (field_type f)) with
      | DB_TYPE_CLASS_NUMERIC => exists ip fp ex, numeral v ip fp ex /\ fits_number f ip fp
      | DB_TYPE_CLASS_STRING => 0 < field_length f -> Z.of_nat (length v) <= field_length f
      | DB_TYPE_CLASS_INTERVAL_YM => exists mm, ym_text out_of_range v mm /\ 0 <= mm <= 11
      | DB_TYPE_CLASS_INTERVAL_DS =>
          exists hh mi ss, ds_text out_of_range v hh mi ss /\ 0 <= hh <= 23 /\ 0 <= mi <= 59 /\ 0 <= ss <= 59
      | DB_TYPE_CLASS_BINARY =>
          Forall (fun c => isxdigit c = true) v /\ (0 < field_length f -> Z.of_nat (length v) <= 2 * field_length f)
      | DB_TYPE_CLASS_ROWID =>
          (field_type f = str "ROWID" -> length v = 18%nat) /\ Forall (fun c => is_oracle_b64_char c = true) v
      | _ => True
      end
  end.

Definition accepted (v : verdict) : Prop := v = Ok tt.

Lemma numeric_accepted f :
  accepted (validate_numeric f) <-> exists ip fp ex, numeral (insert_value f) ip fp ex /\ fits_number f ip fp.
Proof.
  pose proof (validate_numeric_spec f) as H. split; [intros E; by rewrite E in H|].
  intros (ip & fp & ex & Hn & Hf). pose proof (validate_numeral f ip fp ex Hn) as Hv.
  destruct (validate_numeric f) as [[]|[code m]]; [done|]. cbn in Hv. destruct Hv as (Hp & Hs & Hc).
  destruct (Hf Hp Hs). lia.
Qed.

Lemma string_accepted f : int_strlen (insert_value f) = Z.of_nat (length (insert_value f)) ->
  accepted (validate_string f) <-> (0 < field_length f -> Z.of_nat (length (insert_value f)) <= field_length f).
Proof.
  intros E. unfold accepted, validate_string. rewrite E.
  destruct (Z.ltb_spec 0 (field_length f)); cbn [andb]; [|split; [|done]; repeat split; (done || lia)].
  destruct (Z.ltb_spec (field_length f) (Z.of_nat (length (insert_value f)))); split; try done; lia.
Qed.

Lemma ym_accepted f :
  accepted (validate_interval_ym out_of_range f) <-> exists mm, ym_text out_of_range (insert_value f) mm /\ 0 <= mm <= 11.
Proof.
  unfold accepted, validate_interval_ym. cbv zeta. setoid_rewrite <- scan_ym_spec. split.
  - destruct (scan_ym _ _) as [[yy mm]|]; [|done]. destruct (Z.ltb_spec mm 0), (Z.ltb_spec 11 mm); cbn [orb]; try done.
    intros _. exists mm. split; [by exists yy|lia].
  - intros (mm & (yy & ->) & H). destruct (Z.ltb_spec mm 0), (Z.ltb_spec 11 mm); lia || done.
Qed.

Lemma ds_accepted f :
  accepted (validate_interval_ds out_of_range f) <->
  exists hh mi ss, ds_text out_of_range (insert_value f) hh mi ss /\ 0 <= hh <= 23 /\ 0 <= mi <= 59 /\ 0 <= ss <= 59.
Proof.
  assert (forall hh mi ss, (hh <? 0) || (23 <? hh) || (mi <? 0) || (59 <? mi) || (ss <? 0) || (59 <? ss) = false <->
    0 <= hh <= 23 /\ 0 <= mi <= 59 /\ 0 <= ss <= 59) as Hr.
  { intros. rewrite !orb_false_iff, !Z.ltb_ge. lia. }
  unfold accepted, validate_interval_ds. cbv zeta. setoid_rewrite <- scan_ds_spec. split.
  - destruct (scan_ds _ _) as [[[[dd hh] mi] ss]|]; [|done].
    destruct ((hh <? 0) || _ || _ || _ || _ || _) eqn:E; [done|]. intros _. exists hh, mi, ss. split; [by exists dd|]. by apply Hr.
  - intros (hh & mi & ss & (dd & ->) & H). by rewrite (proj2 (Hr hh mi ss) H).
Qed.

Lemma raw_accepted f : int_strlen (insert_value f) = Z.of_nat (length (insert_value f)) ->
  accepted (validate_raw f) <-> Forall (fun c => isxdigit c = true) (insert_value f) /\
    (0 < field_length f -> Z.of_nat (length (insert_value f)) <= 2 * field_length f).
Proof.
  intros E. unfold accepted, validate_raw. rewrite E, Nat2Z.id, firstn_all, <- (first_bad_None isxdigit _ 0).
  destruct (first_bad _ _ _) as [[c i]|]; [by split; [|intros [? _]]|].
  destruct (Z.ltb_spec 0 (field_length f)); cbn [andb]; [|split; [|done]; repeat split; (done || lia)].
  destruct (Z.ltb_spec (field_length f * 2) (Z.of_nat (length (insert_value f)))); split; try done; [|intros _; split; [done|lia]].
  intros [_ H']. lia.
Qed.

Lemma rowid_accepted f : int_strlen (insert_value f) = Z.of_nat (length (insert_value f)) ->
  accepted (validate_rowid f) <-> (field_type f = str "ROWID" -> length (insert_value f) = 18%nat) /\
    Forall (fun c => is_oracle_b64_char c = true) (insert_value f).
Proof.
  intros E. unfold accepted, validate_rowid. rewrite E, Nat2Z.id, firstn_all, <- (first_bad_None is_oracle_b64_char _ 0).
  unfold str_eqb. case_bool_decide as Ht; cbn [andb].
  - destruct (Z.eqb_spec (Z.of_nat (length (insert_value f))) 18) as [H18|H18]; cbn [negb].
    + destruct (first_bad _ _ _) as [[c i]|]; split; try done; [by intros [_ ?]|]. intros _. split; [lia|done].
    + split; [done|]. intros [H _]. specialize (H Ht). lia.
  - destruct (first_bad _ _ _) as [[c i]|]; split; try done. by intros [_ ?].
Qed.

(** Every refusal names the column and has a code of this module. *)
Definition refuses_here (f : parsed_field) (v : verdict) : Prop :=
  match v with
  | Ok _ => True
  | Err (code, msg) =>
      (exists rest, msg = field_msg f rest) /\
      code <> FIELD_VALID /\ code <> FIELD_UNKNOWN_COLUMN /\ code <> FIELD_MISSING_REQUIRED_COLUMN
  end.

Ltac refusal := repeat case_match; simplify_eq; cbn [refuses_here]; try exact I;
  (split; [eexists; reflexivity|repeat split; discriminate]).

Lemma dispatch_refuses f : refuses_here f (dispatch out_of_range f).
Proof.
  assert (refuses_here f (validate_numeric f)) by (unfold validate_numeric; refusal).
  assert (refuses_here f (validate_string f)) by (unfold validate_string; refusal).
  assert (refuses_here f (validate_interval_ym out_of_range f)) by (unfold validate_interval_ym; refusal).
  assert (refuses_here f (validate_interval_ds out_of_range f)) by (unfold validate_interval_ds; refusal).
  assert (refuses_here f (validate_raw f)) by (unfold validate_raw; refusal).
  assert (refuses_here f (validate_rowid f)) by (unfold validate_rowid; refusal).
  unfold dispatch. destruct (insert_value f); [refusal|]. by repeat case_match.
Qed.

Lemma dispatch_accepted f : int_strlen (insert_value f) = Z.of_nat (length (insert_value f)) ->
  accepted (dispatch out_of_range f) <-> acceptable f.
Proof.
  intros El. pose proof (numeric_accepted f) as H1. pose proof (string_accepted f El) as H2. pose proof (ym_accepted f) as H3.
  pose proof (ds_accepted f) as H4. pose proof (raw_accepted f El) as H5. pose proof (rowid_accepted f El) as H6.
  unfold dispatch, acceptable. destruct (insert_value f) as [|c v].
  - destruct (field_nullable f) as [|n ns]; cbn [andb head]; [by split|].
    destruct (Ascii.eqb_spec n "N") as [->|Hne]; cbn [andb]; [|split; [congruence|done]].
    destruct (field_default f); cbn; split; try done. intros H. by destruct (H eq_refl).
  - unfold is_numeric_type, is_string_type, is_date_type, is_timestamp_type, is_interval_ym_type, is_interval_ds_type,
      is_raw_type, is_rowid_type.
    destruct (db_type_class (Some (field_type f)));
      repeat match goal with |- context [bool_decide (?a = ?b)] =>
        let r := eval vm_compute in (bool_decide (a = b)) in change (bool_decide (a = b)) with r; cbv iota end;
      done || (destruct (is_lob_type _); done).
Qed.

(** C31: [validate_field] accepts a value exactly when it obeys the rules the
    code has for the type of its column ([acceptable]), which are looser than
    those of Insert_Validate_Module.h.  An empty value needs a column that may
    be NULL or has a default.  A number is a sign, digits, a point, digits and
    an exponent, where only an exponent must have digits - a single point,
    "e5" and "-.E9" pass -, and the digits before and after the point, not the
    exponent, are held against precision and scale where the column has them.
    A text is no longer than its column, if that has a length.  An interval is parts in their ranges, each with blanks and a
    sign before it if it likes, and anything after the last of them.  A binary
    value is hexadecimal digits, also an odd number, for at most the bytes of
    the column; a row identifier is made of base-64 characters, 18 of them if
    the type is spelt ROWID.  Dates, timestamps, LOBs and unknown types are
    not looked at.  A refusal has one of the codes of this module and a message
    that names the column, cut to the buffer of the caller. *)
Theorem validate_field_spec (f : parsed_field) (msg_max : nat) :
  Z.of_nat (length (insert_value f)) < 2 ^ 31 ->
  let (code, msg) := validate_field out_of_range f msg_max in
  (code = FIELD_VALID <-> acceptable f) /\
  (code <> FIELD_VALID ->
     code <> FIELD_UNKNOWN_COLUMN /\ code <> FIELD_MISSING_REQUIRED_COLUMN /\
     exists rest, msg = take (msg_max - 1) (field_msg f rest)).
Proof.
  intros H. pose proof (dispatch_accepted f (int_strlen_small _ H)) as Ha. pose proof (dispatch_refuses f) as Hr.
  unfold validate_field. destruct (dispatch out_of_range f) as [[]|[code msg]]; cbn [refuses_here] in Hr.
  - split; [by rewrite <- Ha|done].
  - destruct Hr as ((rest & ->) & H0 & H1 & H2). split.
    + rewrite <- Ha. split; [done|]. unfold accepted. discriminate.
    + intros _. split; [done|]. split; [done|]. by exists rest.
Qed.
End field.

Definition exponent_value : parsed_field := mk_field 1 (str "N") (str "NUMBER") 22 3 0 (str "Y") [] (str "1e99").

(** Texts that no server reads as a number, accepted for NUMBER(3,0). *)
Definition number_value (v : string) : parsed_field := mk_field 1 (str "N") (str "NUMBER") 22 3 0 (str "Y") [] (str v).

Example numbers_without_digits :
  Forall (fun v => fst (validate_field (fun n => n) (number_value v) 256) = FIELD_VALID) ["."; "-."; "e5"; "-.E9"]%string.
Proof. repeat constructor. Qed.

(** Junk after an interval, blanks and signs inside it. *)
Example interval_prefix :
  fst (validate_field (fun n => n) (mk_field 1 (str "I") (str "INTERVAL YEAR TO MONTH") 5 0 0 (str "Y") [] (str "+ -3- +4 apples")) 256) = FIELD_VALID.
Proof. vm_compute. reflexivity. Qed.

(** An exponent takes a number past any precision. *)
Lemma validate_field_spec_witness :
  fst (validate_field (fun n => n) exponent_value 256) = FIELD_VALID /\ acceptable (fun n => n) exponent_value.
Proof.
  assert (fst (validate_field (fun n => n) exponent_value 256) = FIELD_VALID) as H by (vm_compute; reflexivity).
  split; [exact H|]. pose proof (validate_field_spec (fun n => n) exponent_value 256 ltac:(vm_compute; reflexivity)) as Hs.
  destruct (validate_field (fun n => n) exponent_value 256) as [code msg]. exact (proj1 (proj1 Hs) H).
Defined.
