(* ===== verification/DdlModules.v ===== *)
(** * DDL requests: src/src/execute/DDL_Modules.c

    The six operations that build a DDL statement - CREATE TABLE, VIEW, USER
    and PROCEDURE, DROP TABLE, GRANT - each with its three stages: [parse_*]
    reads the request from its XML text with plain string searches,
    [validate_*] checks it, [build_*_ddl_text] writes the statement.  The
    templates, which put that statement into a response document, are not
    modelled.  An array with its count is a list; a refusal is the message. *)

From Stdlib Require Import Ascii String ZArith Lia Bool.
From stdpp Require Import base list strings numbers.
From S2P Require Import Prelude Text.

#[local] Open Scope Z_scope.
#[local] Open Scope c_scope.

(** ** Shared helpers *)

Definition trim_inplace (s : list ascii) : list ascii := rskip isspace (skip isspace s).
Definition uppercase_inplace (s : list ascii) : list ascii := map toupper s.

Definition open_tag (tag : string) : list ascii := str "<" ++ str tag ++ str ">".
Definition close_tag (tag : string) : list ascii := str "</" ++ str tag ++ str ">".

(** [end - start] characters at [start]. *)
Definition between (start fin : list ascii) : list ascii := take (length start - length fin) start.

(** The value of the first element [tag], cut to [dest_max - 1] characters,
    then trimmed; [None] when there is none. *)
Definition extract_xml_tag (src : list ascii) (tag : string) (dest_max : nat) : option (list ascii) :=
  start ← strstr (open_tag tag) src;
  let start := drop (length (open_tag tag)) start in
  fin ← strstr (close_tag tag) start;
  Some (trim_inplace (take (dest_max - 1) (between start fin))).

(** A field that stays empty, as [memset] left it, when its tag is absent. *)
Definition tag_or_empty (src : list ascii) (tag : string) (dest_max : nat) : list ascii :=
  default [] (extract_xml_tag src tag dest_max).
Definition upper_tag (src : list ascii) (tag : string) (dest_max : nat) : list ascii :=
  uppercase_inplace (tag_or_empty src tag dest_max).

(** [atoi]: [strtol], converted to [int]; fifteen characters fit a [long]. *)
Definition atoi (t : list ascii) : Z := i32 (atol t).
Definition int_tag (src : list ascii) (tag : string) : Z :=
  match extract_xml_tag src tag 16 with Some t => atoi t | None => 0 end.
Definition flag_tag (src : list ascii) (tag : string) (dflt : bool) : bool :=
  match extract_xml_tag src tag 16 with Some t => negb (atoi t =? 0) | None => dflt end.

Definition ident_char (c : ascii) : bool := isalnum c || Ascii.eqb c "_" || Ascii.eqb c "$" || Ascii.eqb c "#".
Definition is_valid_identifier (s : list ascii) : bool :=
  match s with
  | [] => false
  | c :: _ => isalpha c && forallb ident_char s
  end.

(** What becomes of one block of a list: it ends the loop, it is passed over,
    or it is an element. *)
Inductive step (A : Type) := Stop | Skip | Item (a : A).
Arguments Stop {A}.
Arguments Skip {A}.
Arguments Item {A} a.

(** The loop over the [inner] elements before the end of the [outer] one:
    [fin] is what follows that end, so a position is before it when more
    characters are left.  At most [room] elements are kept; every turn moves
    past a tag, so the length of the text is enough fuel. *)
Fixpoint element_loop {A} (inner : string) (item : nat -> list ascii -> step A) (fuel room : nat)
    (cursor fin : list ascii) : list A :=
  match fuel, room with
  | S f, S r =>
      match strstr (open_tag inner) cursor with
      | None => []
      | Some start =>
          if (length start <=? length fin)%nat then []
          else
            let start := drop (length (open_tag inner)) start in
            match strstr (close_tag inner) start with
            | None => []
            | Some e =>
                if (length e <? length fin)%nat then []
                else
                  let cursor := drop (length (close_tag inner)) e in
                  match item f (between start e) with
                  | Stop => []
                  | Skip => element_loop inner item f room cursor fin
                  | Item a => a :: element_loop inner item f r cursor fin
                  end
            end
      end
  | _, _ => []
  end.

Definition extract_elements {A} (src : list ascii) (outer inner : string) (item : nat -> list ascii -> step A) (room : nat)
    : list A :=
  match strstr (open_tag outer) src with
  | None => []
  | Some start =>
      match strstr (close_tag outer) start with
      | None => []
      | Some fin => element_loop inner item (length src) room start fin
      end
  end.

(** An element that is a name: cut, trimmed, in upper case; an empty one is
    passed over. *)
Definition name_item (max : nat) (_ : nat) (block : list ascii) : step (list ascii) :=
  match uppercase_inplace (trim_inplace (take (max - 1) block)) with
  | [] => Skip
  | name => Item name
  end.

(** ** Statements

    [used += snprintf(out + used, out_size - used, ...)], each call under
    [used < out_size]. *)
Definition emit (out_size : nat) (st : nat * list ascii) (piece : list ascii) : nat * list ascii :=
  let '(used, out) := st in
  if (used <? out_size)%nat then ((used + length piece)%nat, out ++ take (out_size - used - 1) piece) else st.
Definition emit_all (out_size : nat) (pieces : list (list ascii)) : list ascii :=
  snd (foldl (emit out_size) (0%nat, []) pieces).

(** "OWNER.NAME", or the name alone. *)
Definition qualified (owner name : list ascii) : list ascii :=
  match owner with [] => name | _ => owner ++ str "." ++ name end.

(** The elements of a list, each with its separator but the last. *)
Fixpoint comma_pieces (l : list (list ascii)) : list (list ascii) :=
  match l with
  | [] => []
  | [s] => [s]
  | s :: l' => (s ++ str ", ") :: comma_pieces l'
  end.

Definition newline : list ascii := [chr 10].

(** ** Refusals *)

(** [snprintf(error_buf, error_buf_size, ...)] and -1. *)
Abbreviation outcome := (res (list ascii) unit).
Definition refuse (size : nat) (t : list ascii) : outcome := Err (take (size - 1) t).
Definition q (s : list ascii) : list ascii := str "'" ++ s ++ str "'".

Definition identifier_rule : list ascii :=
  str ": must start with a letter and contain only letters, digits, '_', '$' or '#'".

(** An optional name: absent, or an identifier. *)
Definition optional_ok (s : list ascii) : bool := match s with [] => true | _ => is_valid_identifier s end.

(** ** CREATE TABLE *)

Definition DDL_MAX_TABLE_COLUMNS : nat := 64.
Definition MAX_PRIMARY_KEY_COLUMNS : nat := 16.
Definition TABLE_IDENTIFIER_LEN : nat := 128.
Definition COLUMN_DATA_TYPE_LEN : nat := 16.
Definition COLUMN_DEFAULT_LEN : nat := 128.
Definition MAX_COLUMN_LENGTH : Z := 32767.
Definition MAX_NUMBER_PRECISION : Z := 38.

Record column_def := mk_column {
  col_name : list ascii;
  data_type : list ascii;
  col_length : Z;
  precision : Z;
  scale : Z;
  nullable : bool;
  default_value : list ascii;
}.

Record create_table_request := mk_create_table {
  table_name : list ascii;
  owner : list ascii;
  columns : list column_def;
  primary_key_columns : list (list ascii);
}.

(** [al f]: whether the copy of the block could be allocated. *)
Definition column_item (al : nat -> bool) (f : nat) (block : list ascii) : step column_def :=
  if negb (al f) then Stop
  else
    let col := mk_column (upper_tag block "name" TABLE_IDENTIFIER_LEN) (upper_tag block "data_type" COLUMN_DATA_TYPE_LEN)
                 (int_tag block "length") (int_tag block "precision") (int_tag block "scale") (flag_tag block "nullable" true)
                 (tag_or_empty block "default_value" COLUMN_DEFAULT_LEN) in
    match col_name col with [] => Skip | _ => Item col end.

Definition extract_columns (al : nat -> bool) (src : list ascii) : list column_def :=
  extract_elements src "columns" "column" (column_item al) DDL_MAX_TABLE_COLUMNS.
Definition extract_primary_key (src : list ascii) : list (list ascii) :=
  extract_elements src "primary_key" "column" (name_item TABLE_IDENTIFIER_LEN) MAX_PRIMARY_KEY_COLUMNS.

(** [None]: -1. *)
Definition parse_create_table_request (al : nat -> bool) (input_xml : option (list ascii)) : option create_table_request :=
  src ← input_xml;
  table ← extract_xml_tag src "table_name" TABLE_IDENTIFIER_LEN;
  let owner := upper_tag src "owner" TABLE_IDENTIFIER_LEN in
  match extract_columns al src with
  | [] => None
  | columns => Some (mk_create_table (uppercase_inplace table) owner columns (extract_primary_key src))
  end.

Definition one_of (l : list string) (s : list ascii) : bool := existsb (fun w => str_eqb s (str w)) l.

Definition is_recognised_data_type : list ascii -> bool :=
  one_of ["VARCHAR2"; "CHAR"; "NUMBER"; "DATE"; "TIMESTAMP"; "CLOB"; "BLOB"].
Definition type_requires_length (t : list ascii) : bool := one_of ["VARCHAR2"; "CHAR"] t.
Definition is_number (t : list ascii) : bool := str_eqb t (str "NUMBER").

(** The position of the first column before this one with its name. *)
Fixpoint position_of (name : list ascii) (names : list (list ascii)) (j : Z) : option Z :=
  match names with
  | [] => None
  | n :: names' => if str_eqb n name then Some j else position_of name names' (j + 1)
  end.

(** The body of the loop over the columns, at position [i]. *)
Definition check_column (size : nat) (table : list ascii) (before : list column_def) (i : Z) (col : column_def) : outcome :=
  let in_table := str " in table " ++ q table in
  let typed := str "Column " ++ q (col_name col) ++ str " (" ++ data_type col ++ str ")" ++ in_table in
  check is_valid_identifier (col_name col) else
    take (size - 1) (str "Invalid column name " ++ q (col_name col) ++ str " (position " ++ print_int (i + 1) ++
      str ") for table " ++ q table) ;;
  match position_of (col_name col) (map col_name before) 1 with
  | Some j =>
      refuse size (str "Duplicate column name " ++ q (col_name col) ++ str " (positions " ++ print_int j ++ str " and " ++
        print_int (i + 1) ++ str ") for table " ++ q table)
  | None =>
      check is_recognised_data_type (data_type col) else
        take (size - 1) (str "Invalid data_type " ++ q (data_type col) ++ str " for column " ++ q (col_name col) ++ in_table ++
          str ": expected one of VARCHAR2, CHAR, NUMBER, DATE, TIMESTAMP, CLOB, BLOB") ;;
      check negb (type_requires_length (data_type col)) || (0 <? col_length col) else
        take (size - 1) (typed ++ str " requires a positive <length>") ;;
      check negb (type_requires_length (data_type col)) || (col_length col <=? MAX_COLUMN_LENGTH) else
        take (size - 1) (typed ++ str " has length " ++ print_int (col_length col) ++ str ", exceeding the " ++
          print_int MAX_COLUMN_LENGTH ++ str " limit") ;;
      if is_number (data_type col) && (0 <? precision col) then
        check precision col <=? MAX_NUMBER_PRECISION else
          take (size - 1) (str "Column " ++ q (col_name col) ++ str " (NUMBER)" ++ in_table ++ str " has precision " ++
            print_int (precision col) ++ str ", exceeding the " ++ print_int MAX_NUMBER_PRECISION ++ str " limit") ;;
        check (0 <=? scale col) && (scale col <=? precision col) else
          take (size - 1) (str "Column " ++ q (col_name col) ++ str " (NUMBER)" ++ in_table ++ str " has scale " ++
            print_int (scale col) ++ str " incompatible with precision " ++ print_int (precision col)) ;;
        Ok tt
      else Ok tt
  end.

Fixpoint check_columns (size : nat) (table : list ascii) (before : list column_def) (i : Z) (cols : list column_def) : outcome :=
  match cols with
  | [] => Ok tt
  | col :: cols' =>
      let! _ := check_column size table before i col in
      check_columns size table (before ++ [col]) (i + 1) cols'
  end.

Fixpoint check_primary_key (size : nat) (table : list ascii) (names pk : list (list ascii)) : outcome :=
  match pk with
  | [] => Ok tt
  | k :: pk' =>
      check existsb (str_eqb k) names else
        take (size - 1) (str "Primary key references unknown column " ++ q k ++ str " in table " ++ q table) ;;
      check_primary_key size table names pk'
  end.

Definition too_many (what name : list ascii) (n max : nat) : list ascii :=
  str "Too many " ++ what ++ q name ++ str ": " ++ print_int (Z.of_nat n) ++ str " given, max " ++ print_int (Z.of_nat max).

Definition validate_create_table_request (req : create_table_request) (size : nat) : outcome :=
  check is_valid_identifier (table_name req) else
    take (size - 1) (str "Invalid table_name " ++ q (table_name req) ++ identifier_rule) ;;
  check optional_ok (owner req) else
    take (size - 1) (str "Invalid owner " ++ q (owner req) ++ str " for table " ++ q (table_name req)) ;;
  check negb (Nat.eqb (length (columns req)) 0) else
    take (size - 1) (str "No columns given for table " ++ q (table_name req) ++ str " - at least one <column> is required") ;;
  check (length (columns req) <=? DDL_MAX_TABLE_COLUMNS)%nat else
    take (size - 1) (too_many (str "columns for table ") (table_name req) (length (columns req)) DDL_MAX_TABLE_COLUMNS) ;;
  let! _ := check_columns size (table_name req) [] 0 (columns req) in
  check (length (primary_key_columns req) <=? MAX_PRIMARY_KEY_COLUMNS)%nat else
    take (size - 1) (too_many (str "primary key columns for table ") (table_name req) (length (primary_key_columns req))
      MAX_PRIMARY_KEY_COLUMNS) ;;
  check_primary_key size (table_name req) (map col_name (columns req)) (primary_key_columns req).

Definition column_pieces (more : bool) (col : column_def) : list (list ascii) :=
  [str "  " ++ col_name col ++ str " " ++ data_type col] ++
  (if type_requires_length (data_type col) && (0 <? col_length col) then [str "(" ++ print_int (col_length col) ++ str ")"]
   else if is_number (data_type col) && (0 <? precision col) then
     (if 0 <? scale col then [str "(" ++ print_int (precision col) ++ str "," ++ print_int (scale col) ++ str ")"]
      else [str "(" ++ print_int (precision col) ++ str ")"])
   else []) ++
  (match default_value col with [] => [] | d => [str " DEFAULT " ++ d] end) ++
  (if nullable col then [] else [str " NOT NULL"]) ++
  [(if more then str "," else []) ++ newline].

Fixpoint columns_pieces (has_key : bool) (cols : list column_def) : list (list ascii) :=
  match cols with
  | [] => []
  | col :: cols' =>
      column_pieces (match cols' with [] => has_key | _ => true end) col ++ columns_pieces has_key cols'
  end.

Definition create_table_pieces (req : create_table_request) : list (list ascii) :=
  [str "CREATE TABLE " ++ qualified (owner req) (table_name req) ++ str " (" ++ newline] ++
  columns_pieces (negb (Nat.eqb (length (primary_key_columns req)) 0)) (columns req) ++
  (match primary_key_columns req with
   | [] => []
   | pk => [str "  CONSTRAINT " ++ table_name req ++ str "_PK PRIMARY KEY ("] ++ comma_pieces pk ++ [str ")" ++ newline]
   end) ++
  [str ");"].
Definition build_create_table_ddl_text (req : create_table_request) (out_size : nat) : list ascii :=
  emit_all out_size (create_table_pieces req).

(** ** CREATE VIEW *)

Definition MAX_VIEW_COLUMNS : nat := 64.
Definition VIEW_IDENTIFIER_LEN : nat := 128.
Definition VIEW_QUERY_LEN : nat := Z.to_nat 4000.

Record create_view_request := mk_create_view {
  view_name : list ascii;
  view_owner : list ascii;
  view_replace : bool;
  force : bool;
  view_columns : list (list ascii);
  query : list ascii;
}.

Definition extract_view_columns (src : list ascii) : list (list ascii) :=
  extract_elements src "columns" "column" (name_item VIEW_IDENTIFIER_LEN) MAX_VIEW_COLUMNS.

Definition parse_create_view_request (input_xml : option (list ascii)) : option create_view_request :=
  src ← input_xml;
  name ← extract_xml_tag src "view_name" VIEW_IDENTIFIER_LEN;
  query ← extract_xml_tag src "query" VIEW_QUERY_LEN;
  Some (mk_create_view (uppercase_inplace name) (upper_tag src "owner" VIEW_IDENTIFIER_LEN)
          (flag_tag src "replace" false) (flag_tag src "force" false) (extract_view_columns src) query).

(** The loop over names that must be identifiers: the first that is not, and
    its position. *)
Fixpoint first_invalid (l : list (list ascii)) (i : Z) : option (list ascii * Z) :=
  match l with
  | [] => None
  | s :: l' => if is_valid_identifier s then first_invalid l' (i + 1) else Some (s, i + 1)
  end.

Definition has_semicolon (s : list ascii) : bool := existsb (fun c => Ascii.eqb c ";") s.

Definition validate_create_view_request (req : create_view_request) (size : nat) : outcome :=
  let view := q (view_name req) in
  check is_valid_identifier (view_name req) else take (size - 1) (str "Invalid view_name " ++ view ++ identifier_rule) ;;
  check optional_ok (view_owner req) else take (size - 1) (str "Invalid owner " ++ q (view_owner req) ++ str " for view " ++ view) ;;
  check (length (view_columns req) <=? MAX_VIEW_COLUMNS)%nat else
    take (size - 1) (too_many (str "column aliases for view ") (view_name req) (length (view_columns req)) MAX_VIEW_COLUMNS) ;;
  match first_invalid (view_columns req) 0 with
  | Some (s, i) =>
      refuse size (str "Invalid column alias " ++ q s ++ str " (position " ++ print_int i ++ str ") for view " ++ view)
  | None =>
      check negb (Nat.eqb (length (query req)) 0) else take (size - 1) (str "No <query> given for view " ++ view) ;;
      check ci_prefix (str "SELECT") (skip isspace (query req)) else
        take (size - 1) (str "query for view " ++ view ++ str " must start with SELECT") ;;
      check negb (has_semicolon (query req)) else
        take (size - 1) (str "query for view " ++ view ++
          str " must not contain ';' - a CREATE VIEW ... AS clause takes exactly one statement") ;;
      Ok tt
  end.

Definition create_view_pieces (req : create_view_request) : list (list ascii) :=
  [str "CREATE "] ++ (if view_replace req then [str "OR REPLACE "] else []) ++ (if force req then [str "FORCE "] else []) ++
  [str "VIEW " ++ qualified (view_owner req) (view_name req)] ++
  (match view_columns req with [] => [] | cs => [str " ("] ++ comma_pieces cs ++ [str ")"] end) ++
  [newline ++ str "AS" ++ newline ++ query req ++ str ";"].
Definition build_create_view_ddl_text (req : create_view_request) (out_size : nat) : list ascii :=
  emit_all out_size (create_view_pieces req).

(** ** CREATE USER *)

Definition MAX_CREATE_USER_ROLES : nat := 16.
Definition DDL_IDENTIFIER_LEN : nat := 128.

Record create_user_request := mk_create_user {
  username : list ascii;
  identified_by : list ascii;
  default_tablespace : list ascii;
  temp_tablespace : list ascii;
  quota : list ascii;
  quota_tablespace : list ascii;
  profile : list ascii;
  roles : list (list ascii);
}.

Definition extract_roles (src : list ascii) : list (list ascii) :=
  extract_elements src "roles" "role" (name_item DDL_IDENTIFIER_LEN) MAX_CREATE_USER_ROLES.

Definition parse_create_user_request (input_xml : option (list ascii)) : option create_user_request :=
  src ← input_xml;
  name ← extract_xml_tag src "username" DDL_IDENTIFIER_LEN;
  password ← extract_xml_tag src "identified_by" DDL_IDENTIFIER_LEN;
  let default_tablespace := upper_tag src "default_tablespace" DDL_IDENTIFIER_LEN in
  let quota := upper_tag src "quota" 32 in
  let quota_tablespace := upper_tag src "quota_tablespace" DDL_IDENTIFIER_LEN in
  Some (mk_create_user (uppercase_inplace name) password default_tablespace (upper_tag src "temp_tablespace" DDL_IDENTIFIER_LEN)
          quota
          (match quota, quota_tablespace with
           | _ :: _, [] => take (DDL_IDENTIFIER_LEN - 1) default_tablespace
           | _, _ => quota_tablespace
           end)
          (upper_tag src "profile" DDL_IDENTIFIER_LEN) (extract_roles src)).

Definition iscntrl (c : ascii) : bool := in_range 0 31 c || (code c =? 127).

Definition is_safe_password (s : list ascii) : bool :=
  negb (Nat.eqb (length s) 0) &&
  forallb (fun c => negb (Ascii.eqb c "'" || Ascii.eqb c dquote || Ascii.eqb c ";" || Ascii.eqb c "\" || iscntrl c || isspace c)) s.

Definition is_valid_quota (s : list ascii) : bool :=
  if str_eqb s (str "UNLIMITED") then true
  else
    match span isdigit s, skip isdigit s with
    | _ :: _, [u] => Ascii.eqb u "K" || Ascii.eqb u "M" || Ascii.eqb u "G"
    | _, _ => false
    end.

Definition validate_create_user_request (req : create_user_request) (size : nat) : outcome :=
  let user := q (username req) in
  check is_valid_identifier (username req) else take (size - 1) (str "Invalid username " ++ user ++ identifier_rule) ;;
  check is_safe_password (identified_by req) else
    take (size - 1) (str "Invalid password for user " ++ user ++
      str ": must be non-empty and must not contain quotes, ';', '\', or whitespace") ;;
  check optional_ok (default_tablespace req) else
    take (size - 1) (str "Invalid default_tablespace " ++ q (default_tablespace req) ++ str " for user " ++ user) ;;
  check optional_ok (temp_tablespace req) else
    take (size - 1) (str "Invalid temp_tablespace " ++ q (temp_tablespace req) ++ str " for user " ++ user) ;;
  let! _ :=
    match quota req with
    | [] => Ok tt
    | _ =>
        check is_valid_quota (quota req) else
          take (size - 1) (str "Invalid quota " ++ q (quota req) ++ str " for user " ++ user ++
            str ": expected UNLIMITED or <digits>[K|M|G]") ;;
        check negb (Nat.eqb (length (quota_tablespace req)) 0) else
          take (size - 1) (str "quota " ++ q (quota req) ++ str " given for user " ++ user ++
            str " but no quota_tablespace (and no default_tablespace to fall back to)") ;;
        check is_valid_identifier (quota_tablespace req) else
          take (size - 1) (str "Invalid quota_tablespace " ++ q (quota_tablespace req) ++ str " for user " ++ user) ;;
        Ok tt
    end in
  check optional_ok (profile req) else take (size - 1) (str "Invalid profile " ++ q (profile req) ++ str " for user " ++ user) ;;
  check (length (roles req) <=? MAX_CREATE_USER_ROLES)%nat else
    take (size - 1) (too_many (str "roles for user ") (username req) (length (roles req)) MAX_CREATE_USER_ROLES) ;;
  match first_invalid (roles req) 0 with
  | Some (s, i) =>
      refuse size (str "Invalid role " ++ q s ++ str " (position " ++ print_int i ++ str ") for user " ++ user)
  | None => Ok tt
  end.

(** A clause that is left out when its text is empty. *)
Definition clause (label : string) (s : list ascii) : list (list ascii) :=
  match s with [] => [] | _ => [newline ++ str label ++ s] end.

Definition create_user_pieces (req : create_user_request) : list (list ascii) :=
  [str "CREATE USER " ++ username req ++ str " IDENTIFIED BY " ++ identified_by req] ++
  clause "  DEFAULT TABLESPACE " (default_tablespace req) ++
  clause "  TEMPORARY TABLESPACE " (temp_tablespace req) ++
  (match quota req with [] => [] | qu => [newline ++ str "  QUOTA " ++ qu ++ str " ON " ++ quota_tablespace req] end) ++
  clause "  PROFILE " (profile req) ++
  [str ";"] ++
  (match roles req with
   | [] => []
   | rs => [newline ++ str "GRANT "] ++ comma_pieces rs ++ [str " TO " ++ username req ++ str ";"]
   end).
Definition build_create_user_ddl_text (req : create_user_request) (out_size : nat) : list ascii :=
  emit_all out_size (create_user_pieces req).

(** ** CREATE PROCEDURE *)

Definition MAX_PROCEDURE_PARAMETERS : nat := 32.
Definition PROCEDURE_IDENTIFIER_LEN : nat := 128.
Definition PARAMETER_DATA_TYPE_LEN : nat := 16.
Definition PARAMETER_MODE_LEN : nat := 8.
Definition PARAMETER_DEFAULT_LEN : nat := 128.
Definition PROCEDURE_BODY_LEN : nat := Z.to_nat 8000.

Record ddl_procedure_param := mk_param {
  param_name : list ascii;
  param_data_type : list ascii;
  mode : list ascii;
  param_default : list ascii;
}.

Record create_procedure_request := mk_create_procedure {
  procedure_name : list ascii;
  procedure_owner : list ascii;
  procedure_replace : bool;
  parameters : list ddl_procedure_param;
  body : list ascii;
}.

Definition param_item (al : nat -> bool) (f : nat) (block : list ascii) : step ddl_procedure_param :=
  if negb (al f) then Stop
  else
    let p := mk_param (upper_tag block "name" PROCEDURE_IDENTIFIER_LEN) (upper_tag block "data_type" PARAMETER_DATA_TYPE_LEN)
               (match extract_xml_tag block "mode" PARAMETER_MODE_LEN with Some m => uppercase_inplace m | None => str "IN" end)
               (tag_or_empty block "default_value" PARAMETER_DEFAULT_LEN) in
    match param_name p with [] => Skip | _ => Item p end.

Definition extract_parameters (al : nat -> bool) (src : list ascii) : list ddl_procedure_param :=
  extract_elements src "parameters" "parameter" (param_item al) MAX_PROCEDURE_PARAMETERS.

Definition parse_create_procedure_request (al : nat -> bool) (input_xml : option (list ascii)) : option create_procedure_request :=
  src ← input_xml;
  name ← extract_xml_tag src "procedure_name" PROCEDURE_IDENTIFIER_LEN;
  body ← extract_xml_tag src "body" PROCEDURE_BODY_LEN;
  Some (mk_create_procedure (uppercase_inplace name) (upper_tag src "owner" PROCEDURE_IDENTIFIER_LEN)
          (flag_tag src "replace" false) (extract_parameters al src) body).

Definition is_recognised_param_type : list ascii -> bool :=
  one_of ["VARCHAR2"; "NUMBER"; "DATE"; "TIMESTAMP"; "BOOLEAN"; "PLS_INTEGER"; "CLOB"; "BLOB"].
Definition is_valid_param_mode : list ascii -> bool := one_of ["IN"; "OUT"; "IN OUT"].

Definition check_param (size : nat) (proc : list ascii) (before : list ddl_procedure_param) (i : Z) (p : ddl_procedure_param)
    : outcome :=
  let of_proc := str " in procedure " ++ q proc in
  check is_valid_identifier (param_name p) else
    take (size - 1) (str "Invalid parameter name " ++ q (param_name p) ++ str " (position " ++ print_int (i + 1) ++
      str ") for procedure " ++ q proc) ;;
  match position_of (param_name p) (map param_name before) 1 with
  | Some j =>
      refuse size (str "Duplicate parameter name " ++ q (param_name p) ++ str " (positions " ++ print_int j ++ str " and " ++
        print_int (i + 1) ++ str ") for procedure " ++ q proc)
  | None =>
      check is_recognised_param_type (param_data_type p) else
        take (size - 1) (str "Invalid data_type " ++ q (param_data_type p) ++ str " for parameter " ++ q (param_name p) ++ of_proc ++
          str ": expected one of VARCHAR2, NUMBER, DATE, TIMESTAMP, BOOLEAN, PLS_INTEGER, CLOB, BLOB") ;;
      check is_valid_param_mode (mode p) else
        take (size - 1) (str "Invalid mode " ++ q (mode p) ++ str " for parameter " ++ q (param_name p) ++ of_proc ++
          str ": expected IN, OUT, or IN OUT") ;;
      check Nat.eqb (length (param_default p)) 0 || str_eqb (mode p) (str "IN") else
        take (size - 1) (str "Parameter " ++ q (param_name p) ++ of_proc ++ str " has a default_value but mode is " ++
          q (mode p) ++ str " - DEFAULT is only allowed on IN parameters") ;;
      Ok tt
  end.

Fixpoint check_params (size : nat) (proc : list ascii) (before : list ddl_procedure_param) (i : Z) (ps : list ddl_procedure_param)
    : outcome :=
  match ps with
  | [] => Ok tt
  | p :: ps' =>
      let! _ := check_param size proc before i p in
      check_params size proc (before ++ [p]) (i + 1) ps'
  end.

Definition validate_create_procedure_request (req : create_procedure_request) (size : nat) : outcome :=
  let proc := q (procedure_name req) in
  check is_valid_identifier (procedure_name req) else
    take (size - 1) (str "Invalid procedure_name " ++ proc ++ identifier_rule) ;;
  check optional_ok (procedure_owner req) else
    take (size - 1) (str "Invalid owner " ++ q (procedure_owner req) ++ str " for procedure " ++ proc) ;;
  check (length (parameters req) <=? MAX_PROCEDURE_PARAMETERS)%nat else
    take (size - 1) (too_many (str "parameters for procedure ") (procedure_name req) (length (parameters req))
      MAX_PROCEDURE_PARAMETERS) ;;
  let! _ := check_params size (procedure_name req) [] 0 (parameters req) in
  check negb (Nat.eqb (length (body req)) 0) else take (size - 1) (str "No <body> given for procedure " ++ proc) ;;
  check (length (body req) <? PROCEDURE_BODY_LEN - 1)%nat else
    take (size - 1) (str "<body> for procedure " ++ proc ++ str " is at or over the " ++
      print_int (Z.of_nat PROCEDURE_BODY_LEN) ++ str " character limit") ;;
  Ok tt.

Fixpoint params_pieces (ps : list ddl_procedure_param) : list (list ascii) :=
  match ps with
  | [] => []
  | p :: ps' =>
      [str "  " ++ param_name p ++ str " " ++ mode p ++ str " " ++ param_data_type p] ++
      (match param_default p with [] => [] | d => [str " DEFAULT " ++ d] end) ++
      [(match ps' with [] => [] | _ => str "," end) ++ newline] ++ params_pieces ps'
  end.

Definition create_procedure_pieces (req : create_procedure_request) : list (list ascii) :=
  [str "CREATE "] ++ (if procedure_replace req then [str "OR REPLACE "] else []) ++
  [str "PROCEDURE " ++ qualified (procedure_owner req) (procedure_name req)] ++
  [str " (" ++ newline] ++ params_pieces (parameters req) ++
  [str ")" ++ newline ++ str "AS" ++ newline ++ str "BEGIN" ++ newline ++ body req ++ newline ++ str "END " ++
     procedure_name req ++ str ";"].
Definition build_create_procedure_ddl_text (req : create_procedure_request) (out_size : nat) : list ascii :=
  emit_all out_size (create_procedure_pieces req).

(** ** DROP TABLE *)

Definition DROP_TABLE_IDENTIFIER_LEN : nat := 128.

Record drop_table_request := mk_drop_table {
  drop_table_name : list ascii;
  drop_owner : list ascii;
  cascade_constraints : bool;
  purge : bool;
  confirm : bool;
}.

Definition parse_drop_table_request (input_xml : option (list ascii)) : option drop_table_request :=
  src ← input_xml;
  name ← extract_xml_tag src "table_name" DROP_TABLE_IDENTIFIER_LEN;
  Some (mk_drop_table (uppercase_inplace name) (upper_tag src "owner" DROP_TABLE_IDENTIFIER_LEN)
          (flag_tag src "cascade_constraints" false) (flag_tag src "purge" false) (flag_tag src "confirm" false)).

Definition validate_drop_table_request (req : drop_table_request) (size : nat) : outcome :=
  check is_valid_identifier (drop_table_name req) else
    take (size - 1) (str "Invalid table_name " ++ q (drop_table_name req) ++ identifier_rule) ;;
  check optional_ok (drop_owner req) else
    take (size - 1) (str "Invalid owner " ++ q (drop_owner req) ++ str " for table " ++ q (drop_table_name req)) ;;
  Ok tt.

Definition drop_table_pieces (req : drop_table_request) : list (list ascii) :=
  [str "DROP TABLE " ++ qualified (drop_owner req) (drop_table_name req)] ++
  (if cascade_constraints req then [str " CASCADE CONSTRAINTS"] else []) ++
  (if purge req then [str " PURGE"] else []) ++ [str ";"].
Definition build_drop_table_ddl_text (req : drop_table_request) (out_size : nat) : list ascii :=
  emit_all out_size (drop_table_pieces req).

(** ** GRANT *)

Definition MAX_GRANT_PRIVILEGES : nat := 16.
Definition GRANT_IDENTIFIER_LEN : nat := 128.
Definition GRANT_PRIVILEGE_LEN : nat := 32.
Definition GRANT_OBJECT_TYPE_LEN : nat := 16.

Record grant_request := mk_grant {
  grantee : list ascii;
  object_type : list ascii;
  object_name : list ascii;
  grant_owner : list ascii;
  privileges : list (list ascii);
  with_grant_option : bool;
}.

Definition extract_privileges (src : list ascii) : list (list ascii) :=
  extract_elements src "privileges" "privilege" (name_item GRANT_PRIVILEGE_LEN) MAX_GRANT_PRIVILEGES.

Definition parse_grant_request (input_xml : option (list ascii)) : option grant_request :=
  src ← input_xml;
  grantee ← extract_xml_tag src "grantee" GRANT_IDENTIFIER_LEN;
  otype ← extract_xml_tag src "object_type" GRANT_OBJECT_TYPE_LEN;
  oname ← extract_xml_tag src "object_name" GRANT_IDENTIFIER_LEN;
  Some (mk_grant (uppercase_inplace grantee) (uppercase_inplace otype) (uppercase_inplace oname)
          (upper_tag src "owner" GRANT_IDENTIFIER_LEN) (extract_privileges src) (flag_tag src "with_grant_option" false)).

Definition is_valid_object_type : list ascii -> bool := one_of ["TABLE"; "VIEW"].
Definition is_recognised_privilege : list ascii -> bool :=
  one_of ["SELECT"; "INSERT"; "UPDATE"; "DELETE"; "ALTER"; "INDEX"; "REFERENCES"; "ALL"; "ALL PRIVILEGES"].
Definition is_valid_for_view (p : list ascii) : bool := negb (one_of ["ALTER"; "INDEX"; "REFERENCES"] p).

Fixpoint check_privileges (size : nat) (req : grant_request) (i : Z) (ps : list (list ascii)) : outcome :=
  match ps with
  | [] => Ok tt
  | p :: ps' =>
      check is_recognised_privilege p else
        take (size - 1) (str "Invalid privilege " ++ q p ++ str " (position " ++ print_int (i + 1) ++ str ") for grantee " ++
          q (grantee req) ++ str " on " ++ q (object_name req)) ;;
      check negb (str_eqb (object_type req) (str "VIEW") && negb (is_valid_for_view p)) else
        take (size - 1) (str "Privilege " ++ q p ++ str " is not valid on a VIEW (object " ++ q (object_name req) ++
          str ") - ALTER/INDEX/REFERENCES are table-only") ;;
      check_privileges size req (i + 1) ps'
  end.

Definition validate_grant_request (req : grant_request) (size : nat) : outcome :=
  check is_valid_identifier (grantee req) else
    take (size - 1) (str "Invalid grantee " ++ q (grantee req) ++ identifier_rule) ;;
  check is_valid_object_type (object_type req) else
    take (size - 1) (str "Invalid object_type " ++ q (object_type req) ++ str " for grantee " ++ q (grantee req) ++
      str ": expected TABLE or VIEW") ;;
  check is_valid_identifier (object_name req) else
    take (size - 1) (str "Invalid object_name " ++ q (object_name req) ++ str " for grantee " ++ q (grantee req)) ;;
  check optional_ok (grant_owner req) else
    take (size - 1) (str "Invalid owner " ++ q (grant_owner req) ++ str " for object " ++ q (object_name req)) ;;
  check negb (Nat.eqb (length (privileges req)) 0) else
    take (size - 1) (str "No privileges given for grantee " ++ q (grantee req) ++ str " on " ++ q (object_name req) ++
      str " - at least one <privilege> is required") ;;
  check (length (privileges req) <=? MAX_GRANT_PRIVILEGES)%nat else
    take (size - 1) (too_many (str "privileges for grantee ") (grantee req) (length (privileges req)) MAX_GRANT_PRIVILEGES) ;;
  check_privileges size req 0 (privileges req).

Definition grant_pieces (req : grant_request) : list (list ascii) :=
  [str "GRANT "] ++ comma_pieces (privileges req) ++
  [str " ON " ++ qualified (grant_owner req) (object_name req)] ++ [str " TO " ++ grantee req] ++
  (if with_grant_option req then [str " WITH GRANT OPTION"] else []) ++ [str ";"].
Definition build_grant_ddl_text (req : grant_request) (out_size : nat) : list ascii :=
  emit_all out_size (grant_pieces req).

(** ** Statements in their buffer *)

Section statements.
Implicit Types (s t v w : list ascii) (ps : list (list ascii)).

Lemma emit_fold n acc used out ps :
  used = length acc -> out = take (n - 1) acc -> (used < n)%nat \/ (n - 1 <= length acc)%nat ->
  snd (foldl (emit n) (used, out) ps) = take (n - 1) (acc ++ concat ps).
Proof.
  revert acc used out. induction ps as [|p ps IH]; intros acc used out Hu Ho Hn; cbn [foldl concat]; [by rewrite app_nil_r|].
  unfold emit at 2. destruct (Nat.ltb_spec used n) as [Hlt|Hge].
  - rewrite app_assoc. apply IH.
    + rewrite length_app. lia.
    + subst out. rewrite take_app. rewrite (take_ge acc) by lia. f_equal. f_equal. lia.
    + rewrite length_app. lia.
  - rewrite (IH acc) by (done || lia). rewrite !take_app_le by lia. done.
Qed.

(** The statement is the text of its pieces, cut to the buffer. *)
Lemma emit_all_spec n ps : emit_all n ps = take (n - 1) (concat ps).
Proof. apply (emit_fold n []); simpl; [done|by rewrite take_nil|]. destruct n; [right; lia|left; lia]. Qed.

Lemma emit_all_fits n ps : (length (concat ps) < n)%nat -> emit_all n ps = concat ps.
Proof. intros H. rewrite emit_all_spec. apply take_ge. lia. Qed.
End statements.

(** ** Reading a text of fields back *)

(** Elements one after the other. *)
Definition xml (fields : list (string * list ascii)) : list ascii :=
  concat (map (fun f => open_tag (fst f) ++ snd f ++ close_tag (fst f)) fields).

Definition tag_char (c : ascii) : bool := isalnum c || Ascii.eqb c "_".
Definition tag_name (t : string) : Prop := str t <> [] /\ Forall (fun c => tag_char c = true) (str t).
Definition no_markup (v : list ascii) : Prop := Forall (fun c => Ascii.eqb c "<" = false) v.
Definition field_ok (f : string * list ascii) : Prop := tag_name (fst f) /\ no_markup (snd f).

Fixpoint first_field (tag : string) (fields : list (string * list ascii)) : option (list ascii) :=
  match fields with
  | [] => None
  | (t, v) :: fields' => if String.eqb t tag then Some v else first_field tag fields'
  end.

Section reading.
Implicit Types (s v w k r : list ascii) (fields : list (string * list ascii)).

Lemma strstr_here w r : w <> [] -> strstr w (w ++ r) = Some (w ++ r).
Proof.
  intros Hw. destruct (w ++ r) as [|c s] eqn:E; [by destruct w|].
  assert (prefix_b w (c :: s) = true) as Hp by (apply prefix_b_spec; rewrite <- E; by exists r).
  cbn [strstr]. by rewrite Hp.
Qed.

Lemma strstr_skip c w d s : Ascii.eqb d c = false -> strstr (c :: w) (d :: s) = strstr (c :: w) s.
Proof.
  intros H. cbn [strstr prefix_b]. rewrite Ascii.eqb_sym in H. by rewrite H.
Qed.

Lemma strstr_skip_all c w s r : Forall (fun d => Ascii.eqb d c = false) s -> strstr (c :: w) (s ++ r) = strstr (c :: w) r.
Proof. induction 1 as [|d s Hd _ IH]; [done|]. cbn [app]. by rewrite strstr_skip. Qed.

Lemma tag_char_facts c : tag_char c = true ->
  Ascii.eqb c "<" = false /\ Ascii.eqb c ">" = false /\ Ascii.eqb c "/" = false.
Proof. repeat split; revert H; all_ascii c. Qed.

Lemma tag_no_markup t : tag_name t -> no_markup (str t).
Proof. intros [_ H]. eapply List.Forall_impl; [|exact H]. intros c Hc. by apply tag_char_facts in Hc as [? _]. Qed.

(** Two names between the same brackets are the same. *)
Lemma tag_prefix a b r : Forall (fun c => tag_char c = true) a -> Forall (fun c => tag_char c = true) b ->
  prefix_b (a ++ [">"%char]) (b ++ ">"%char :: r) = true -> a = b.
Proof.
  intros Ha. revert b. induction Ha as [|c a Hc _ IH]; intros [|d b] Hb H; cbn [app prefix_b] in H.
  - done.
  - inversion Hb as [|? ? Hd _]; subst. apply tag_char_facts in Hd as (_ & Hd & _). rewrite Ascii.eqb_sym in Hd. by rewrite Hd in H.
  - apply tag_char_facts in Hc as (_ & Hc & _). by rewrite Hc in H.
  - apply andb_prop in H as [H1 H2]. apply Ascii.eqb_eq in H1 as ->. f_equal. apply IH; [by inversion Hb|done].
Qed.

Lemma str_inj a b : str a = str b -> a = b.
Proof.
  intros H. apply (f_equal String.string_of_list_ascii) in H. unfold str in H.
  by rewrite !String.string_of_list_ascii_of_string in H.
Qed.

(** An opening tag is not found inside another element. *)
Lemma strstr_past tag f r : tag_name tag -> field_ok f -> String.eqb (fst f) tag = false ->
  strstr (open_tag tag) (open_tag (fst f) ++ snd f ++ close_tag (fst f) ++ r) = strstr (open_tag tag) r.
Proof.
  destruct f as [t v]. intros Ht [Hf Hv] Hne. cbn [fst snd] in *. unfold open_tag at 1 3.
  change (str "<" ++ str tag ++ str ">") with ("<"%char :: str tag ++ [">"%char]). unfold open_tag, close_tag.
  rewrite <- !app_assoc. change (str "<" ++ ?x) with ("<"%char :: x).
  cbn [strstr]. cbn [prefix_b]. change (Ascii.eqb "<" "<") with true. cbn [andb].
  destruct (prefix_b (str tag ++ [">"%char]) (str t ++ str ">" ++ v ++ str "</" ++ str t ++ str ">" ++ r)) eqn:E.
  { change (str ">" ++ ?x) with (">"%char :: x) in E. apply tag_prefix in E; [|apply Ht|apply Hf]. apply str_inj in E as ->.
    by rewrite String.eqb_refl in Hne. }
  rewrite (strstr_skip_all "<" _ (str t)) by (by apply tag_no_markup).
  change (str ">" ++ ?x) with (">"%char :: x). rewrite strstr_skip by done.
  rewrite (strstr_skip_all "<" _ v) by done. change (str "</" ++ ?x) with ("<"%char :: "/"%char :: x).
  destruct Ht as [Hn Ht]. destruct (str tag) as [|c ts] eqn:Et; [done|].
  inversion Ht as [|? ? Hc _]; subst. apply tag_char_facts in Hc as (_ & _ & Hc).
  assert (forall x, strstr ("<"%char :: (c :: ts) ++ [">"%char]) ("<"%char :: "/"%char :: x) = strstr ("<"%char :: (c :: ts) ++ [">"%char]) x) as ->.
  { intros x. cbn [strstr]. cbn [prefix_b app]. change (Ascii.eqb "<" "<") with true. change (Ascii.eqb "<" "/") with false. by rewrite Hc. }
  rewrite (strstr_skip_all "<" _ (str t)) by (by apply tag_no_markup). change (str ">" ++ r) with (">"%char :: r). by rewrite strstr_skip.
Qed.

Lemma drop_app_length' {A} (a b : list A) : drop (length a) (a ++ b) = b.
Proof. apply drop_app_length. Qed.

(** The first element with the tag is the one that is read. *)
Lemma extract_reads fields tag n : tag_name tag -> Forall field_ok fields ->
  extract_xml_tag (xml fields) tag n = option_map (fun v => trim_inplace (take (n - 1) v)) (first_field tag fields).
Proof.
  intros Ht H. unfold extract_xml_tag. induction H as [|[t v] fields Hf _ IH]; [done|].
  unfold xml. cbn [map concat first_field fst snd]. fold (xml fields). rewrite <- !app_assoc.
  destruct (String.eqb t tag) eqn:E.
  - apply String.eqb_eq in E as ->. rewrite strstr_here by done. cbn [mbind option_bind]. rewrite drop_app_length.
    destruct Hf as [Hf Hv]. cbn [snd] in Hv.
    assert (strstr (close_tag tag) (v ++ close_tag tag ++ xml fields) = Some (close_tag tag ++ xml fields)) as ->.
    { change (close_tag tag) with ("<"%char :: "/"%char :: str tag ++ str ">"). rewrite strstr_skip_all by done. by apply strstr_here. }
    cbn [mbind option_bind option_map]. do 3 f_equal. unfold between. rewrite length_app.
    replace (length v + length (close_tag tag ++ xml fields) - length (close_tag tag ++ xml fields))%nat with (length v) by lia.
    apply take_app_length.
  - pose proof (strstr_past tag (t, v) (xml fields) Ht Hf E) as Hs. cbn [fst snd] in Hs. rewrite Hs. exact IH.
Qed.
End reading.

(** ** Statements as the server reads them *)

(** Words of identifier characters, every other character that is not a blank
    by itself. *)
Fixpoint sql_tokens (s : list ascii) : list (list ascii) :=
  match s with
  | [] => []
  | c :: s' =>
      if isspace c then sql_tokens s'
      else if ident_char c then
        match s' with
        | d :: _ => if ident_char d then match sql_tokens s' with t :: ts => (c :: t) :: ts | [] => [[c]] end
                    else [c] :: sql_tokens s'
        | [] => [[c]]
        end
      else [c] :: sql_tokens s'
  end.

(** The tokens of "OWNER.NAME". *)
Definition name_tokens (owner name : list ascii) : list (list ascii) :=
  match owner with [] => [name] | _ => [owner; str "."; name] end.

Fixpoint comma_tokens (l : list (list ascii)) : list (list ascii) :=
  match l with
  | [] => []
  | [p] => sql_tokens p
  | p :: l' => sql_tokens p ++ str "," :: comma_tokens l'
  end.

Section tokens.
Implicit Types (s w k : list ascii).

Definition word w : Prop := w <> [] /\ Forall (fun c => ident_char c = true) w.

Lemma ident_not_space c : ident_char c = true -> isspace c = false.
Proof. all_ascii c. Qed.

Lemma tokens_word w c k : word w -> ident_char c = false -> sql_tokens (w ++ c :: k) = w :: sql_tokens (c :: k).
Proof.
  intros [Hn H] Hc. induction H as [|d w Hd Hw IH]; [done|]. cbn [app].
  destruct w as [|e w].
  - cbn [app]. cbn [sql_tokens]. by rewrite (ident_not_space d), Hd, Hc.
  - specialize (IH ltac:(done)). inversion Hw as [|? ? He _]; subst. cbn [app] in *.
    change (sql_tokens (d :: e :: w ++ c :: k)) with
      (if isspace d then sql_tokens (e :: w ++ c :: k) else if ident_char d then
         (if ident_char e then match sql_tokens (e :: w ++ c :: k) with t :: ts => (d :: t) :: ts | [] => [[d]] end
          else [d] :: sql_tokens (e :: w ++ c :: k)) else [d] :: sql_tokens (e :: w ++ c :: k)).
    by rewrite (ident_not_space d), Hd, He, IH.
Qed.

Lemma tokens_blank c k : isspace c = true -> sql_tokens (c :: k) = sql_tokens k.
Proof. cbn [sql_tokens]. by intros ->. Qed.

Lemma tokens_punct c k : isspace c = false -> ident_char c = false -> sql_tokens (c :: k) = [c] :: sql_tokens k.
Proof. cbn [sql_tokens]. by intros -> ->. Qed.

Lemma valid_word s : is_valid_identifier s = true -> word s.
Proof.
  destruct s as [|c s]; [done|]. cbn [is_valid_identifier]. intros [_ H]%andb_prop.
  split; [done|]. apply List.Forall_forall. by apply forallb_forall.
Qed.

Lemma optional_word s : optional_ok s = true -> s = [] \/ word s.
Proof. destruct s; [by left|]. intros H. right. by apply valid_word. Qed.

Lemma tokens_qualified owner name c k : (owner = [] \/ word owner) -> word name -> ident_char c = false ->
  sql_tokens (qualified owner name ++ c :: k) = name_tokens owner name ++ sql_tokens (c :: k).
Proof.
  intros Ho Hn Hc. unfold qualified, name_tokens. destruct owner as [|a owner]; [by apply tokens_word|].
  destruct Ho as [|Ho]; [done|]. rewrite <- !app_assoc. change (str "." ++ ?x) with ("."%char :: x).
  rewrite tokens_word by done. rewrite tokens_punct by done. by rewrite tokens_word.
Qed.

Lemma tokens_comma l c k : Forall (fun p => word p \/ exists a b, word a /\ word b /\ p = a ++ str " " ++ b) l ->
  ident_char c = false -> sql_tokens (concat (comma_pieces l) ++ c :: k) = comma_tokens l ++ sql_tokens (c :: k).
Proof.
  intros H Hc. assert (forall p d r, (word p \/ exists a b, word a /\ word b /\ p = a ++ str " " ++ b) -> ident_char d = false ->
    sql_tokens (p ++ d :: r) = sql_tokens p ++ sql_tokens (d :: r)) as Hp.
  { assert (forall w, word w -> sql_tokens w = [w]) as Hw.
    { intros w Hw. pose proof (tokens_word w " " [] Hw ltac:(done)) as E. rewrite (tokens_blank " ") in E by done.
      change (sql_tokens []) with (@nil (list ascii)) in E. clear -E Hw. destruct Hw as [Hn Hf].
      induction Hf as [|d w Hd Hw IH]; [done|]. destruct w as [|e w]; [cbn; by rewrite (ident_not_space d), Hd|].
      inversion Hw as [|? ? He _]; subst. change (sql_tokens (d :: e :: w)) with
        (if isspace d then sql_tokens (e :: w) else if ident_char d then
           (if ident_char e then match sql_tokens (e :: w) with t :: ts => (d :: t) :: ts | [] => [[d]] end
            else [d] :: sql_tokens (e :: w)) else [d] :: sql_tokens (e :: w)).
      rewrite (ident_not_space d), Hd, He by done. rewrite IH; [done|done|].
      pose proof (tokens_word (e :: w) " " [] ltac:(by split) ltac:(done)) as E2. by rewrite (tokens_blank " ") in E2 by done. }
    intros p d r [Hp|(a & b & Ha & Hb & ->)] Hd; [by rewrite tokens_word, (Hw p)|].
    rewrite <- !app_assoc. change (str " " ++ ?x) with (" "%char :: x). rewrite !tokens_word by done. rewrite !tokens_blank by done.
    by rewrite tokens_word, (Hw b). }
  induction H as [|p l Hpl Hl IH]; [done|]. destruct l as [|p' l].
  - cbn [comma_pieces concat comma_tokens]. rewrite app_nil_r. by apply Hp.
  - change (comma_pieces (p :: p' :: l)) with ((p ++ str ", ") :: comma_pieces (p' :: l)).
    change (comma_tokens (p :: p' :: l)) with (sql_tokens p ++ str "," :: comma_tokens (p' :: l)).
    cbn [concat]. rewrite <- !app_assoc. change (str ", " ++ ?x) with (","%char :: " "%char :: x).
    rewrite Hp by done. rewrite tokens_punct by done. rewrite tokens_blank by done. by rewrite IH.
Qed.

Lemma one_of_In (l : list string) s : one_of l s = true -> exists x : string, In x l /\ s = str x.
Proof.
  unfold one_of. intros (w & Hin & Hw)%existsb_exists. apply bool_decide_eq_true in Hw. by exists w.
Qed.

Lemma privilege_words p : is_recognised_privilege p = true ->
  word p \/ exists a b, word a /\ word b /\ p = a ++ str " " ++ b.
Proof.
  assert (forall x : string, forallb ident_char (str x) = true -> str x <> [] -> word (str x)) as Hw.
  { intros s H Hn. split; [done|]. apply List.Forall_forall. by apply forallb_forall. }
  intros (w & Hin & ->)%one_of_In. repeat (destruct Hin as [<-|Hin]; [try (left; by apply Hw)|]); [|done].
  right. exists (str "ALL"), (str "PRIVILEGES"). split; [by apply Hw|]. split; [by apply Hw|done].
Qed.

Lemma check_privileges_Ok n req i ps : check_privileges n req i ps = Ok tt ->
  Forall (fun p => is_recognised_privilege p = true /\ (object_type req = str "VIEW" -> is_valid_for_view p = true)) ps.
Proof.
  revert i. induction ps as [|p ps IH]; intros i; [by constructor|]. cbn [check_privileges].
  destruct (is_recognised_privilege p) eqn:E; [|done].
  destruct (str_eqb (object_type req) (str "VIEW") && negb (is_valid_for_view p)) eqn:E2; cbn [negb]; [done|].
  intros H. constructor; [|by eapply IH]. split; [done|]. intros Hv. apply andb_false_iff in E2 as [E2|E2].
  - unfold str_eqb in E2. apply bool_decide_eq_false in E2. by destruct E2.
  - by apply negb_false_iff in E2.
Qed.
End tokens.

(** ** Theorems *)

Lemma concat_app_sing (a b : list (list ascii)) : concat (a ++ b) = concat a ++ concat b.
Proof. apply concat_app. Qed.

Lemma comma_pieces_length l m : Forall (fun s => (length s <= m)%nat) l ->
  (length (concat (comma_pieces l)) <= length l * (m + 2))%nat.
Proof.
  induction 1 as [|s l Hs _ IH]; [simpl; lia|]. destruct l as [|s' l].
  - simpl. rewrite app_nil_r. lia.
  - change (comma_pieces (s :: s' :: l)) with ((s ++ str ", ") :: comma_pieces (s' :: l)).
    cbn [concat length] in *. rewrite !length_app. simpl (length (str ", ")). lia.
Qed.

Lemma qualified_length o n : (length (qualified o n) <= length o + length n + 1)%nat.
Proof. unfold qualified. destruct o; [simpl; lia|]. rewrite !length_app. simpl. lia. Qed.

Lemma one_of_length (l : list string) m s : forallb (fun w => length (str w) <=? m)%nat l = true -> one_of l s = true -> (length s <= m)%nat.
Proof. intros H (w & Hin & ->)%one_of_In. rewrite forallb_forall in H. specialize (H w Hin). by apply Nat.leb_le in H. Qed.

Ltac check_step H :=
  match type of H with (if ?b then _ else _) = _ => destruct b eqn:?; [|discriminate H] end.

(** C25: a validated GRANT is one statement with nothing added: read by the
    server it is the words of the request in their places - recognised
    privileges, on a view only those a view has, one object, one grantee -
    and the semicolon; and it is whole in the buffer of its caller. *)
Theorem grant_statement (req : grant_request) (size : nat) :
  validate_grant_request req size = Ok tt ->
  Forall (fun s => (length s < GRANT_IDENTIFIER_LEN)%nat) [grantee req; object_name req; grant_owner req] ->
  sql_tokens (build_grant_ddl_text req 2048) =
    str "GRANT" :: comma_tokens (privileges req) ++ str "ON" :: name_tokens (grant_owner req) (object_name req) ++
    [str "TO"; grantee req] ++ (if with_grant_option req then [str "WITH"; str "GRANT"; str "OPTION"] else []) ++ [str ";"] /\
  Forall (fun p => is_recognised_privilege p = true /\ (object_type req = str "VIEW" -> is_valid_for_view p = true))
    (privileges req).
Proof.
  intros H Hlen. unfold validate_grant_request in H. repeat check_step H.
  apply check_privileges_Ok in H as Hp. split; [|done].
  apply Forall_cons_1 in Hlen as [Hl1 Hlen]. apply Forall_cons_1 in Hlen as [Hl2 Hlen]. rewrite Forall_singleton in Hlen.
  assert (Forall (fun p => (length p <= 14)%nat) (privileges req)) as Hpl.
  { eapply List.Forall_impl; [|exact Hp]. intros p [Hr _]. by apply (one_of_length _ 14) in Hr. }
  apply comma_pieces_length in Hpl. unfold GRANT_IDENTIFIER_LEN, MAX_GRANT_PRIVILEGES in *.
  match goal with H : (_ <=? 16)%nat = true |- _ => apply Nat.leb_le in H end.
  pose proof (qualified_length (grant_owner req) (object_name req)).
  unfold build_grant_ddl_text. rewrite emit_all_fits.
  - unfold grant_pieces. rewrite !concat_app. cbn [concat]. rewrite !app_nil_r, <- !app_assoc.
    change (str "GRANT " ++ ?x) with (str "GRANT" ++ " "%char :: x). rewrite tokens_word by (done || by split; [|repeat constructor]).
    f_equal. rewrite tokens_blank by done. change (str " ON " ++ ?x) with (" "%char :: str "ON" ++ " "%char :: x).
    rewrite tokens_comma; [|eapply List.Forall_impl; [|exact Hp]; intros p [Hr _]; by apply privilege_words|done]. f_equal.
    rewrite tokens_blank by done. rewrite tokens_word by (done || by split; [|repeat constructor]). f_equal.
    rewrite tokens_blank by done. change (str " TO " ++ ?x) with (" "%char :: str "TO" ++ " "%char :: x).
    rewrite tokens_qualified by (done || by apply optional_word || by apply valid_word). f_equal.
    rewrite tokens_blank by done. rewrite tokens_word by (done || by split; [|repeat constructor]). cbn [app]. f_equal.
    rewrite tokens_blank by done. destruct (with_grant_option req); cbn [concat]; rewrite ?app_nil_r.
    + change (str " WITH GRANT OPTION" ++ str ";") with (" "%char :: str "WITH GRANT OPTION;").
      rewrite tokens_word by (done || by apply valid_word). done.
    + cbn [app]. change (str ";") with (";"%char :: []). rewrite tokens_word by (done || by apply valid_word). done.
  - unfold grant_pieces. rewrite !concat_app. cbn [concat]. rewrite !length_app. cbn [length].
    assert (length (concat (if with_grant_option req then [str " WITH GRANT OPTION"] else [])) <= 18)%nat by (destruct (with_grant_option req); simpl; lia).
    change (length (str "GRANT ")) with 6%nat. change (length (str " ON ")) with 4%nat. change (length (str " TO ")) with 4%nat. change (length (str ";")) with 1%nat.
    simpl (14 + 2)%nat in *. lia.
Qed.

Definition demo_grant : grant_request :=
  mk_grant (str "APP") (str "TABLE") (str "ORDERS") (str "SALES") [str "SELECT"; str "ALL PRIVILEGES"] true.

Lemma grant_statement_witness :
  sql_tokens (build_grant_ddl_text demo_grant 2048) =
    map str ["GRANT"; "SELECT"; ","; "ALL"; "PRIVILEGES"; "ON"; "SALES"; "."; "ORDERS"; "TO"; "APP"; "WITH"; "GRANT"; "OPTION"; ";"]%string.
Proof.
  refine (proj1 (grant_statement demo_grant 256 _ _)); [vm_compute; reflexivity|].
  repeat constructor; vm_compute; lia.
Defined.

(** The text of a request to drop a table. *)
Definition flag (b : bool) : list ascii := if b then str "1" else str "0".
Definition drop_fields (req : drop_table_request) : list (string * list ascii) :=
  [("table_name", drop_table_name req); ("owner", drop_owner req); ("cascade_constraints", flag (cascade_constraints req));
   ("purge", flag (purge req)); ("confirm", flag (confirm req))]%string.

(** A name as it is stored: an identifier in upper case that fits its array. *)
Definition stored_name (max : nat) (s : list ascii) : Prop :=
  is_valid_identifier s = true /\ uppercase_inplace s = s /\ (length s < max)%nat.

Lemma word_no_markup s : word s -> no_markup s.
Proof. intros [_ H]. eapply List.Forall_impl; [|exact H]. intros c. all_ascii c. Qed.

Lemma skip_none f s : match s with c :: _ => f c = false | [] => True end -> skip f s = s.
Proof. destruct s; [done|]. apply skip_id. Qed.

Lemma trim_word s : Forall (fun c => isspace c = false) s -> trim_inplace s = s.
Proof.
  intros H. unfold trim_inplace, rskip. rewrite (skip_none isspace s) by (destruct H; done).
  rewrite skip_none; [apply rev_involutive|]. apply Forall_rev in H. by destruct H.
Qed.

Lemma trim_stored max s : (s = [] \/ word s) -> (length s < max)%nat -> trim_inplace (take (max - 1) s) = s.
Proof.
  intros Hs Hl. rewrite take_ge by lia. destruct Hs as [->|[_ H]]; [done|]. apply trim_word.
  eapply List.Forall_impl; [|exact H]. intros c Hc. by apply ident_not_space.
Qed.

Lemma drop_tokens req : word (drop_table_name req) -> (drop_owner req = [] \/ word (drop_owner req)) ->
  sql_tokens (concat (drop_table_pieces req)) =
    [str "DROP"; str "TABLE"] ++ name_tokens (drop_owner req) (drop_table_name req) ++
    (if cascade_constraints req then [str "CASCADE"; str "CONSTRAINTS"] else []) ++
    (if purge req then [str "PURGE"] else []) ++ [str ";"].
Proof.
  intros Hn Ho. unfold drop_table_pieces. rewrite !concat_app. cbn [concat]. rewrite !app_nil_r, <- !app_assoc.
  change (str "DROP TABLE " ++ ?x) with (str "DROP" ++ " "%char :: str "TABLE" ++ " "%char :: x).
  rewrite tokens_word by (done || by split; [|repeat constructor]). rewrite tokens_blank by done.
  rewrite tokens_word by (done || by split; [|repeat constructor]). rewrite tokens_blank by done. cbn [app]. do 2 f_equal.
  destruct (cascade_constraints req), (purge req); cbn [concat]; rewrite ?app_nil_r; cbn [app].
  - change (str " CASCADE CONSTRAINTS" ++ ?x) with (" "%char :: str "CASCADE CONSTRAINTS" ++ x). by rewrite tokens_qualified.
  - change (str " CASCADE CONSTRAINTS" ++ ?x) with (" "%char :: str "CASCADE CONSTRAINTS" ++ x). by rewrite tokens_qualified.
  - change (str " PURGE" ++ ?x) with (" "%char :: str "PURGE" ++ x). by rewrite tokens_qualified.
  - change (str ";") with (";"%char :: []). by rewrite tokens_qualified.
Qed.

(** A request to drop a table survives its way: the fields written as text
    are parsed back to the request, it is valid, and the statement the server
    reads drops exactly that table. *)
Theorem drop_request_round_trip (req : drop_table_request) (size : nat) :
  stored_name DROP_TABLE_IDENTIFIER_LEN (drop_table_name req) ->
  drop_owner req = [] \/ stored_name DROP_TABLE_IDENTIFIER_LEN (drop_owner req) ->
  parse_drop_table_request (Some (xml (drop_fields req))) = Some req /\
  validate_drop_table_request req size = Ok tt /\
  sql_tokens (build_drop_table_ddl_text req 512) =
    [str "DROP"; str "TABLE"] ++ name_tokens (drop_owner req) (drop_table_name req) ++
    (if cascade_constraints req then [str "CASCADE"; str "CONSTRAINTS"] else []) ++
    (if purge req then [str "PURGE"] else []) ++ [str ";"].
Proof.
  intros (Hn & Hu & Hl) Ho. pose proof (valid_word _ Hn) as Hw.
  assert (optional_ok (drop_owner req) = true /\ (drop_owner req = [] \/ word (drop_owner req)) /\
    uppercase_inplace (drop_owner req) = drop_owner req /\ (length (drop_owner req) < DROP_TABLE_IDENTIFIER_LEN)%nat)
    as (Ho1 & Ho2 & Ho3 & Ho4).
  { destruct Ho as [->|(H1 & H2 & H3)]; [by split_and!; auto; vm_compute; lia|]. split_and!; try done; [|right; by apply valid_word].
    by destruct (drop_owner req). }
  split; [|split].
  - assert (Forall field_ok (drop_fields req)) as Hf.
    { assert (forall t : string, forallb tag_char (str t) = true -> str t <> [] -> tag_name t) as Ht.
      { intros t H1 H2. split; [done|]. apply List.Forall_forall. by apply forallb_forall. }
      assert (forall b, no_markup (flag b)) by (intros []; by repeat constructor).
      repeat constructor; cbn [fst snd]; try (by apply Ht); try done; [by apply word_no_markup|].
      destruct Ho2 as [->|?]; [constructor|by apply word_no_markup]. }
    assert (forall t, forallb tag_char (str t) = true -> str t <> [] -> forall n,
      extract_xml_tag (xml (drop_fields req)) t n = option_map (fun v => trim_inplace (take (n - 1) v)) (first_field t (drop_fields req))) as Hx.
    { intros t H1 H2 n. apply extract_reads; [|done]. split; [done|]. apply List.Forall_forall. by apply forallb_forall. }
    unfold parse_drop_table_request. cbn [mbind option_bind]. unfold upper_tag, tag_or_empty, flag_tag.
    rewrite !Hx by done. cbn [drop_fields first_field String.eqb Ascii.eqb Bool.eqb option_map mbind option_bind default].
    rewrite !trim_stored by (done || auto). unfold id. rewrite Hu, Ho3. destruct req as [name owner c p k]. cbn. by destruct c, p, k.
  - unfold validate_drop_table_request. by rewrite Hn, Ho1.
  - unfold build_drop_table_ddl_text. rewrite emit_all_fits; [by apply drop_tokens|].
    unfold drop_table_pieces, DROP_TABLE_IDENTIFIER_LEN in *. rewrite !concat_app, !length_app. cbn [concat]. rewrite !app_nil_r, !length_app.
    pose proof (qualified_length (drop_owner req) (drop_table_name req)). change (length (str "DROP TABLE ")) with 11%nat.
    destruct (cascade_constraints req), (purge req); simpl; lia.
Qed.

Definition demo_drop : drop_table_request := mk_drop_table (str "ORDERS") (str "SALES") true false true.

Lemma drop_request_round_trip_witness :
  parse_drop_table_request (Some (xml (drop_fields demo_drop))) = Some demo_drop /\
  validate_drop_table_request demo_drop 256 = Ok tt.
Proof.
  destruct (drop_request_round_trip demo_drop 256) as (H1 & H2 & _).
  - split_and!; [vm_compute; reflexivity|vm_compute; reflexivity|vm_compute; lia].
  - right. split_and!; [vm_compute; reflexivity|vm_compute; reflexivity|vm_compute; lia].
  - split; [exact H1|exact H2].
Defined.

(** ** What a valid table is *)

Definition column_ok (col : column_def) : Prop :=
  is_valid_identifier (col_name col) = true /\ is_recognised_data_type (data_type col) = true /\
  (type_requires_length (data_type col) = true -> 0 < col_length col <= MAX_COLUMN_LENGTH) /\
  (is_number (data_type col) = true -> 0 < precision col ->
     precision col <= MAX_NUMBER_PRECISION /\ 0 <= scale col <= precision col).

Definition table_ok (req : create_table_request) : Prop :=
  is_valid_identifier (table_name req) = true /\ optional_ok (owner req) = true /\
  (0 < length (columns req) <= DDL_MAX_TABLE_COLUMNS)%nat /\ (length (primary_key_columns req) <= MAX_PRIMARY_KEY_COLUMNS)%nat /\
  NoDup (map col_name (columns req)) /\ Forall column_ok (columns req) /\
  Forall (fun k => In k (map col_name (columns req))) (primary_key_columns req).

Section table.
Implicit Types (req : create_table_request) (col : column_def) (names : list (list ascii)).

Lemma position_of_None name names j : position_of name names j = None <-> ~ In name names.
Proof.
  revert j. induction names as [|n names IH]; intros j; cbn [position_of In]; [tauto|].
  unfold str_eqb. case_bool_decide as E; [split; [done|]; intros H; destruct H; by left|].
  rewrite IH. split; [intros H [?|?]; by auto|tauto].
Qed.

Lemma check_column_Ok n table before i col : check_column n table before i col = Ok tt <->
  column_ok col /\ ~ In (col_name col) (map col_name before).
Proof.
  unfold check_column, column_ok. rewrite <- (position_of_None _ _ 1). cbv zeta.
  destruct (is_valid_identifier (col_name col)); [|split; [done|intros [[? _] _]; done]].
  destruct (position_of _ _ _); [split; [done|intros [_ ?]; done]|].
  destruct (is_recognised_data_type (data_type col)); [|split; [done|intros [[_ [? _]] _]; done]].
  destruct (type_requires_length (data_type col)) eqn:El; cbn [negb orb].
  - destruct (Z.ltb_spec 0 (col_length col)); [|split; [done|]; intros [(_ & _ & H1 & _) _]; specialize (H1 eq_refl); lia].
    destruct (Z.leb_spec (col_length col) MAX_COLUMN_LENGTH); [|split; [done|]; intros [(_ & _ & H1 & _) _]; specialize (H1 eq_refl); lia].
    assert (is_number (data_type col) = false) as ->.
    { apply one_of_In in El as (w & Hin & ->). destruct Hin as [<-|[<-|[]]]; done. }
    cbn [andb]. split; [|done]. intros _. by split_and!.
  - destruct (is_number (data_type col)); cbn [andb]; [|split; [|done]; intros _; by split_and!].
    destruct (Z.ltb_spec 0 (precision col)); [|split; [|done]; intros _; split_and!; try done; intros; lia].
    destruct (Z.leb_spec (precision col) MAX_NUMBER_PRECISION);
      [|split; [done|]; intros [(_ & _ & _ & H1) _]; specialize (H1 eq_refl); lia].
    destruct (Z.leb_spec 0 (scale col)), (Z.leb_spec (scale col) (precision col)); cbn [andb];
      try (split; [done|]; intros [(_ & _ & _ & H1') _]; specialize (H1' eq_refl); lia).
    split; [|done]. intros _. by split_and!.
Qed.

Lemma check_columns_Ok n table cols before i : check_columns n table before i cols = Ok tt <->
  Forall column_ok cols /\ NoDup (map col_name cols) /\ (forall x, In x (map col_name cols) -> ~ In x (map col_name before)).
Proof.
  revert before i. induction cols as [|col cols IH]; intros before i; cbn [check_columns map].
  - split; [|done]. intros _. split; [by constructor|]. split; [constructor|done].
  - destruct (check_column n table before i col) as [[]|e] eqn:E.
    + cbn [res_bind]. apply check_column_Ok in E as [Hc Hn]. rewrite IH, map_app. cbn [map]. split.
      * intros (H1 & H2 & H3). split; [by constructor|]. split.
        { constructor; [|done]. rewrite list_elem_of_In. intros Hin. apply (H3 _ Hin), in_or_app. right. by left. }
        { intros x [<-|Hx]; [done|]. intros Hb. apply (H3 _ Hx), in_or_app. by left. }
      * intros (H1 & H2 & H3). inversion H1 as [|? ? _ H1']; subst. inversion H2 as [|? ? Hni H2']; subst.
        split; [done|]. split; [done|]. intros x Hx [Hb|[<-|[]]]%in_app_or; [by apply (H3 x); [right|]|].
        by apply Hni, list_elem_of_In.
    + cbn [res_bind]. split; [done|]. intros (H1 & H2 & H3). inversion H1; subst.
      assert (check_column n table before i col = Ok tt) as E2; [|congruence].
      apply check_column_Ok. split; [done|]. apply H3. by left.
Qed.

Lemma check_primary_key_Ok n table names pk :
  check_primary_key n table names pk = Ok tt <-> Forall (fun k => In k names) pk.
Proof.
  induction pk as [|k pk IH]; cbn [check_primary_key]; [by split; [constructor|]|].
  destruct (existsb (str_eqb k) names) eqn:E.
  - rewrite IH, Forall_cons_iff. apply existsb_exists in E as (x & Hx & Ek). apply bool_decide_eq_true in Ek as ->. tauto.
  - split; [done|]. intros [Hk _]%Forall_cons_iff. assert (existsb (str_eqb k) names = true) as E2; [|congruence].
    apply existsb_exists. exists k. split; [done|]. by apply bool_decide_eq_true.
Qed.
End table.

Lemma validate_create_table_Ok (req : create_table_request) (size : nat) :
  validate_create_table_request req size = Ok tt <-> table_ok req.
Proof.
  unfold validate_create_table_request, table_ok.
  destruct (is_valid_identifier (table_name req)); [|split; [done|]; by intros (? & _)].
  destruct (optional_ok (owner req)); [|split; [done|]; by intros (_ & ? & _)].
  destruct (Nat.eqb_spec (length (columns req)) 0); cbn [negb]; [split; [done|]; intros (_ & _ & ? & _); lia|].
  destruct (Nat.leb_spec (length (columns req)) DDL_MAX_TABLE_COLUMNS); [|split; [done|]; intros (_ & _ & ? & _); lia].
  destruct (check_columns size (table_name req) [] 0 (columns req)) as [[]|e] eqn:E; cbn [res_bind].
  - apply check_columns_Ok in E as (H1 & H2 & _).
    destruct (Nat.leb_spec (length (primary_key_columns req)) MAX_PRIMARY_KEY_COLUMNS); [|split; [done|]; intros (_ & _ & _ & ? & _); lia].
    rewrite check_primary_key_Ok. split; [intros ?; split_and!; (done || lia)|]. by intros (_ & _ & _ & _ & _ & _ & ?).
  - split; [done|]. intros (_ & _ & _ & _ & H1 & H2 & _).
    assert (check_columns size (table_name req) [] 0 (columns req) = Ok tt) as E2; [|congruence].
    apply check_columns_Ok. split; [done|]. split; [done|]. by intros x _ [].
Qed.

(** CREATE TABLE is accepted exactly when the table is well-formed: names
    are identifiers and differ, types are known and have the lengths,
    precisions and scales they need, and the primary key names columns of
    the table.  A refusal leaves a message that fits its buffer. *)
Theorem validate_create_table_spec (req : create_table_request) (size : nat) :
  (validate_create_table_request req size = Ok tt <-> table_ok req) /\
  (forall m, validate_create_table_request req size = Err m -> (length m <= size - 1)%nat).
Proof.
  split.
  - apply validate_create_table_Ok.
  - assert (forall t : list ascii, (length (take (size - 1) t) <= size - 1)%nat) as Ht by (intros t; apply firstn_le_length).
    assert (forall before i col m, check_column size (table_name req) before i col = Err m -> (length m <= size - 1)%nat) as Hcol.
    { intros before i col m. unfold check_column, refuse. cbv zeta. repeat case_match; intros [= <-] || done; apply Ht. }
    assert (forall cols before i m, check_columns size (table_name req) before i cols = Err m -> (length m <= size - 1)%nat) as Hcols.
    { induction cols as [|col cols IH]; intros before i m; cbn [check_columns]; [done|].
      destruct (check_column _ _ _ _ _) eqn:E; cbn [res_bind]; [apply IH|]. intros [= <-]. by eapply Hcol. }
    assert (forall names pk m, check_primary_key size (table_name req) names pk = Err m -> (length m <= size - 1)%nat) as Hpk.
    { induction pk as [|k pk IH]; intros m; cbn [check_primary_key]; [done|]. case_match; [apply IH|]. intros [= <-]. apply Ht. }
    intros m. unfold validate_create_table_request.
    repeat (case_match; [|intros [= <-]; apply Ht]).
    destruct (check_columns _ _ _ _ _) eqn:E; cbn [res_bind]; [|intros [= <-]; by eapply Hcols].
    case_match; [|intros [= <-]; apply Ht]. apply Hpk.
Qed.

Definition set_defaults (f : column_def -> list ascii) (req : create_table_request) : create_table_request :=
  mk_create_table (table_name req) (owner req)
    (map (fun c => mk_column (col_name c) (data_type c) (col_length c) (precision c) (scale c) (nullable c) (f c)) (columns req))
    (primary_key_columns req).

Lemma with_defaults_names f req : map col_name (columns (set_defaults f req)) = map col_name (columns req).
Proof. cbn. rewrite map_map. by apply map_ext. Qed.

Lemma columns_pieces_default more col cols d : In col cols -> default_value col = d -> d <> [] ->
  In (str " DEFAULT " ++ d) (columns_pieces more cols).
Proof.
  intros Hin Hd Hn. induction cols as [|c cols IH]; [done|]. cbn [columns_pieces]. apply in_or_app.
  destruct Hin as [<-|Hin]; [left|right; by apply IH]. unfold column_pieces.
  apply in_or_app. right. apply in_or_app. right. apply in_or_app. left. rewrite Hd. destruct d; [done|]. by left.
Qed.

(** The DEFAULT of a column is not looked at: a valid table stays valid
    with any text there, and the text goes into the statement as it is. *)
Theorem defaults_unchecked (req : create_table_request) (f : column_def -> list ascii) (size : nat) :
  validate_create_table_request req size = Ok tt ->
  (forall c, f c <> []) ->
  validate_create_table_request (set_defaults f req) size = Ok tt /\
  Forall (fun c => In (str " DEFAULT " ++ f c) (create_table_pieces (set_defaults f req))) (columns req).
Proof.
  intros H Hf. split.
  - apply validate_create_table_Ok in H as (H1 & H2 & H3 & H4 & H5 & H6 & H7).
    unfold validate_create_table_request. change (table_name (set_defaults f req)) with (table_name req).
    change (owner (set_defaults f req)) with (owner req). change (primary_key_columns (set_defaults f req)) with (primary_key_columns req).
    assert (length (columns (set_defaults f req)) = length (columns req)) as -> by (cbn; apply length_map).
    rewrite H1, H2. destruct (Nat.eqb_spec (length (columns req)) 0); [lia|]. cbn [negb].
    destruct (Nat.leb_spec (length (columns req)) DDL_MAX_TABLE_COLUMNS); [|lia].
    assert (check_columns size (table_name req) [] 0 (columns (set_defaults f req)) = Ok tt) as ->.
    { apply check_columns_Ok. rewrite with_defaults_names. split; [|split; [done|by intros x _ []]]. cbn. apply Forall_map.
      eapply List.Forall_impl; [|exact H6]. intros c Hc. exact Hc. }
    cbn [res_bind]. destruct (Nat.leb_spec (length (primary_key_columns req)) MAX_PRIMARY_KEY_COLUMNS); [|lia].
    rewrite with_defaults_names. by apply check_primary_key_Ok.
  - apply List.Forall_forall. intros c Hc. unfold create_table_pieces. apply in_or_app. right. apply in_or_app. left.
    apply (columns_pieces_default _ (mk_column (col_name c) (data_type c) (col_length c) (precision c) (scale c) (nullable c) (f c)));
      [|done|apply Hf]. cbn. apply in_map_iff. by exists c.
Qed.

Definition demo_table : create_table_request :=
  mk_create_table (str "T") [] [mk_column (str "A") (str "NUMBER") 0 0 0 true []] [].

Lemma defaults_unchecked_witness :
  build_create_table_ddl_text (set_defaults (fun _ => str "0); DROP TABLE ORDERS --") demo_table) (Z.to_nat 8192) =
    str "CREATE TABLE T (" ++ newline ++ str "  A NUMBER DEFAULT 0); DROP TABLE ORDERS --" ++ newline ++ str ");" /\
  validate_create_table_request (set_defaults (fun _ => str "0); DROP TABLE ORDERS --") demo_table) 256 = Ok tt.
Proof.
  split; [vm_compute; reflexivity|].
  refine (proj1 (defaults_unchecked demo_table (fun _ => str "0); DROP TABLE ORDERS --") 256 _ _)); [vm_compute; reflexivity|done].
Defined.

(** ** A view query that does not fit *)

Lemma has_semicolon_app s k : has_semicolon (s ++ k) = has_semicolon s || has_semicolon k.
Proof. apply existsb_app. Qed.

(** A view query longer than its array is cut without a word: the view is
    valid, and the statement defines it by the first 3999 characters - what
    the rest would have filtered out is in it. *)
Theorem long_view_query_is_cut (name k : list ascii) (size : nat) :
  stored_name VIEW_IDENTIFIER_LEN name -> no_markup k -> has_semicolon k = false ->
  (VIEW_QUERY_LEN <= length (str "SELECT" ++ k))%nat ->
  exists req cut,
    parse_create_view_request (Some (xml [("view_name"%string, name); ("query"%string, str "SELECT" ++ k)])) = Some req /\
    validate_create_view_request req size = Ok tt /\
    cut `prefix_of` k /\ query req = str "SELECT" ++ cut /\ (length (query req) < VIEW_QUERY_LEN)%nat /\
    build_create_view_ddl_text req (Z.to_nat 8192) = str "CREATE VIEW " ++ name ++ newline ++ str "AS" ++ newline ++ query req ++ str ";".
Proof.
  intros (Hn & Hu & Hl) Hk Hs Hlen. pose proof (valid_word _ Hn) as Hw.
  set (fields := [("view_name"%string, name); ("query"%string, str "SELECT" ++ k)]).
  assert (forall t : string, forallb tag_char (str t) = true -> str t <> [] -> tag_name t) as Ht.
  { intros t H1 H2. split; [done|]. apply List.Forall_forall. by apply forallb_forall. }
  assert (Forall field_ok fields) as Hf.
  { repeat constructor; cbn [fst snd]; try (by apply Ht); [by apply word_no_markup|]. exact Hk. }
  set (cut := rskip isspace (take 3993 k)).
  assert (trim_inplace (take (VIEW_QUERY_LEN - 1) (str "SELECT" ++ k)) = str "SELECT" ++ cut) as Ecut.
  { change (VIEW_QUERY_LEN - 1)%nat with (length (str "SELECT") + 3993)%nat. rewrite take_app_add.
    unfold trim_inplace. rewrite (skip_none isspace) by done.
    change (str "SELECT" ++ take 3993 k) with (str "SELEC" ++ "T"%char :: take 3993 k). by rewrite rskip_app_cons. }
  assert (cut `prefix_of` k) as Hp.
  { transitivity (take 3993 k); [|apply prefix_take]. subst cut. unfold rskip.
    exists (rev (span isspace (rev (take 3993 k)))).
    rewrite <- rev_app_distr, span_skip. by rewrite rev_involutive. }
  assert (length cut <= 3993)%nat as Hcl.
  { subst cut. unfold rskip. rewrite length_rev. pose proof (skip_length isspace (rev (take 3993 k))) as H1.
    rewrite length_rev in H1. pose proof (firstn_le_length 3993 k). lia. }
  exists (mk_create_view name [] false false [] (str "SELECT" ++ cut)), cut. split_and!; [| |done|done| |].
  - unfold parse_create_view_request. cbn [mbind option_bind].
    assert (forall t n, forallb tag_char (str t) = true -> str t <> [] ->
      extract_xml_tag (xml fields) t n = option_map (fun v => trim_inplace (take (n - 1) v)) (first_field t fields)) as Hx.
    { intros t n H1 H2. apply extract_reads; [|done]. by apply Ht. }
    unfold upper_tag, tag_or_empty, flag_tag. rewrite !Hx by done.
    cbn [first_field fields String.eqb Ascii.eqb Bool.eqb option_map mbind option_bind default]. rewrite Ecut.
    rewrite trim_stored by auto. rewrite Hu. do 2 f_equal.
    unfold extract_view_columns, extract_elements.
    assert (strstr (open_tag "columns") (xml fields) = None) as ->; [|done].
    pose proof (Hx "columns"%string 1%nat eq_refl ltac:(done)) as E. unfold extract_xml_tag in E.
    unfold xml, fields. cbn [map concat fst snd]. rewrite app_nil_r, <- !app_assoc.
    pose proof (strstr_past "columns" ("view_name"%string, name) (open_tag "query" ++ (str "SELECT" ++ k) ++ close_tag "query")) as E1.
    cbn [fst snd] in E1. rewrite <- !app_assoc in E1. rewrite E1; [|by apply Ht|by inversion Hf|done].
    pose proof (strstr_past "columns" ("query"%string, str "SELECT" ++ k) []) as E2. cbn [fst snd] in E2. rewrite app_nil_r, <- !app_assoc in E2.
    rewrite E2; [done|by apply Ht|by inversion Hf as [|? ? _ H']; inversion H'|done].
  - unfold validate_create_view_request. cbn [view_name view_owner view_columns query optional_ok first_invalid length]. rewrite Hn.
    cbn [Nat.leb]. assert (has_semicolon (str "SELECT" ++ cut) = false) as Hsc.
    { rewrite has_semicolon_app. destruct Hp as [r Er]. rewrite Er, has_semicolon_app in Hs. by apply orb_false_iff in Hs as [Hs1 _]; rewrite Hs1. }
    by rewrite Hsc.
  - cbn [query]. rewrite length_app. change (length (str "SELECT")) with 6%nat. unfold VIEW_QUERY_LEN. lia.
  - unfold build_create_view_ddl_text, create_view_pieces. cbn [view_replace force view_owner view_columns view_name query qualified app].
    rewrite emit_all_fits.
    + cbn [concat]. rewrite app_nil_r. change (str "CREATE VIEW " ++ ?x) with (str "CREATE " ++ str "VIEW " ++ x). by rewrite <- !app_assoc.
    + cbn [concat]. rewrite !length_app. cbn [length newline]. change (length (str "CREATE ")) with 7%nat. change (length (str "VIEW ")) with 5%nat.
      change (length (str "SELECT")) with 6%nat. change (length (str "AS")) with 2%nat. change (length (str ";")) with 1%nat.
      unfold VIEW_IDENTIFIER_LEN in *. lia.
Qed.

Definition long_tail : list ascii := str " * FROM SALARIES" ++ replicate (Z.to_nat 4000) " "%char ++ str "WHERE GRADE = 3".

Lemma long_view_query_is_cut_witness :
  exists req cut,
    parse_create_view_request (Some (xml [("view_name"%string, str "V"); ("query"%string, str "SELECT" ++ long_tail)])) = Some req /\
    query req = str "SELECT" ++ cut /\ cut `prefix_of` long_tail.
Proof.
  destruct (long_view_query_is_cut (str "V") long_tail 256) as (req & cut & H1 & _ & H2 & H3 & _).
  - split_and!; [reflexivity|reflexivity|vm_compute; lia].
  - apply List.Forall_forall. intros c Hc.
    assert (forallb (fun c => negb (Ascii.eqb c "<")) long_tail = true) as H by (vm_compute; reflexivity).
    rewrite forallb_forall in H. specialize (H c Hc). by apply negb_true_iff in H.
  - vm_compute. reflexivity.
  - apply Nat.leb_le. vm_compute. reflexivity.
  - by exists req, cut.
Defined.
