(* ===== verification/XmlHelper.v ===== *)
(** * The XML builder: src/src/core/XML_Helper.c

    A growing buffer and the functions that append to it.  Every formatted
    piece goes through a local array of 8192 bytes; a longer one is copied
    from beyond that array, which is undefined, and [None] here.  The theorems
    say that escaping loses nothing and that the buffer holds exactly what was
    appended - as long as no piece is that long. *)

From Stdlib Require Import Ascii String ZArith Lia Bool.
From stdpp Require Import base list strings numbers.
From S2P Require Import Prelude Text.

#[local] Open Scope Z_scope.

(** [buffer] holds the [size] bytes in use; the terminating NUL follows. *)
Record xml_builder := mk_xml { capacity : Z; buffer : list ascii }.

Definition size (x : xml_builder) : Z := Z.of_nat (length (buffer x)).

(** [None]: the loop does not end (a capacity of 0 stays 0). *)
Fixpoint grow (fuel : nat) (size extra cap : Z) : option Z :=
  if cap <? size + extra + 1 then
    match fuel with O => None | S f => grow f size extra (cap * 2) end
  else Some cap.
Definition ensure_capacity (x : xml_builder) (extra : nat) : option xml_builder :=
  cap ← grow (length (buffer x) + extra + 1) (size x) (Z.of_nat extra) (capacity x);
  Some (mk_xml cap (buffer x)).

(** The code takes the memory of the builder, and of its growth, without a look
    at what [malloc] and [realloc] return, and writes through it: without
    memory its behaviour is undefined, and what is modelled here is a run that
    gets it.  So [xml_create] never returns NULL, and its callers' tests of
    that are dead code. *)
Definition xml_create (initial_size : Z) : xml_builder := mk_xml initial_size [].

Definition XML_TEMP : nat := Z.to_nat 8192.

(** [t] is the formatted text.  What lies in [temp] is its first 8191
    characters and a NUL; [None] also when the copy reads past [temp]. *)
Definition xml_append (t : list ascii) (x : xml_builder) : option xml_builder :=
  match t with
  | [] => Some x
  | _ =>
      if (XML_TEMP <? length t)%nat then None
      else
        x ← ensure_capacity x (length t);
        Some (mk_xml (capacity x) (buffer x ++ take (length t) (take (XML_TEMP - 1) t ++ [chr 0])))
  end.

Definition xml_append_raw (s : option (list ascii)) (x : xml_builder) : option xml_builder :=
  match s with
  | None | Some [] => Some x
  | Some t => x ← ensure_capacity x (length t); Some (mk_xml (capacity x) (buffer x ++ t))
  end.

Definition escape_char (c : ascii) : list ascii :=
  if Ascii.eqb c "&" then str "&amp;"
  else if Ascii.eqb c "<" then str "&lt;"
  else if Ascii.eqb c ">" then str "&gt;"
  else if Ascii.eqb c dquote then str "&quot;"
  else if Ascii.eqb c "'" then str "&apos;"
  else [c].

Fixpoint append_all (ts : list (list ascii)) (x : xml_builder) : option xml_builder :=
  match ts with
  | [] => Some x
  | t :: ts' => x ← xml_append t x; append_all ts' x
  end.

(** The text of [strdup(tmp->buffer)]. *)
Definition xml_escape (input : option (list ascii)) : option (list ascii) :=
  match input with
  | None => Some []
  | Some s => x ← append_all (map escape_char s) (xml_create 256); Some (buffer x)
  end.

Definition nl : list ascii := [chr 10].
Definition element (tag : string) (s : list ascii) : list ascii := str "<" ++ str tag ++ str ">" ++ s ++ str "</" ++ str tag ++ str ">".

Definition xml_start_document (x : xml_builder) : option xml_builder :=
  x ← xml_append (str "<?xml version=" ++ quoted "1.0" ++ str " encoding=" ++ quoted "UTF-8" ++ str "?>" ++ nl) x;
  xml_append (str "<output_xml>" ++ nl) x.
Definition xml_finalize : xml_builder -> option xml_builder := xml_append (str "</output_xml>" ++ nl).
Definition xml_start_execution : xml_builder -> option xml_builder := xml_append (str "<execution_envelope>" ++ nl).
Definition xml_end_execution : xml_builder -> option xml_builder := xml_append (str "</execution_envelope>" ++ nl).
Definition xml_start_resultset : xml_builder -> option xml_builder := xml_append (str "<resultset>" ++ nl).
Definition xml_end_resultset : xml_builder -> option xml_builder := xml_append (str "</resultset>" ++ nl).
Definition xml_add_row_start (rownum : Z) : xml_builder -> option xml_builder :=
  xml_append (str "<row number=" ++ dquote :: print_int (rownum mod 2 ^ 32) ++ dquote :: str ">" ++ nl).
Definition xml_add_row_end : xml_builder -> option xml_builder := xml_append (str "</row>" ++ nl).

Definition xml_add_field (name type value : option (list ascii)) (x : xml_builder) : option xml_builder :=
  e_name ← xml_escape name; e_type ← xml_escape type; e_value ← xml_escape value;
  xml_append (str "<field>" ++ element "field_name" e_name ++ element "field_type" e_type ++ element "field_value" e_value ++
    str "</field>" ++ nl) x.

Definition blob_head (e_name : list ascii) : list ascii :=
  str "<field>" ++ element "field_name" e_name ++ element "field_type" (str "BLOB") ++ str "<field_value/>".

Definition xml_add_blob_field (name file_name file_path : option (list ascii)) (file_size : Z) (x : xml_builder)
    : option xml_builder :=
  e_name ← xml_escape name;
  x ← xml_append (blob_head e_name) x;
  x ← match file_name with
      | None => Some x
      | Some _ =>
          e_file ← xml_escape file_name; e_path ← xml_escape file_path;
          xml_append (str "<blob>" ++ element "file_name" e_file ++ element "file_path" e_path ++
            element "file_size" (print_int (u64 file_size)) ++ str "</blob>") x
      end;
  xml_append (str "</field>" ++ nl) x.

(** What [xml_add_blob_field_1] reads of a [lob_item_t]. *)
Record lob_item := mk_lob {
  column_name : option (list ascii);
  file_name : option (list ascii);
  output_file_destination : option (list ascii);
  output_file_url : option (list ascii);
  blob_size : Z;
  mime_type : option (list ascii);
}.

Definition xml_add_blob_field_1 (item : lob_item) (x : xml_builder) : option xml_builder :=
  e_name ← xml_escape (Some (default (str "UNKNOWN") (column_name item)));
  e_file ← xml_escape (Some (default (str "N/A") (file_name item)));
  e_path ← xml_escape (Some (default (str "N/A") (output_file_destination item)));
  x ← xml_append (blob_head e_name ++ str "<blob>" ++ element "file_name" e_file ++ element "file_path" e_path) x;
  x ← match output_file_url item with
      | None => Some x
      | Some url => e_url ← xml_escape (Some url); xml_append (element "file_url" e_url) x
      end;
  xml_append (element "file_size" (print_int (u64 (blob_size item))) ++
    element "mime_type" (default (str "application/octet-stream") (mime_type item)) ++ str "</blob></field>" ++ nl) x.

(** [strrchr(filename, '.') + 1]. *)
Fixpoint after_last_dot (s : list ascii) : option (list ascii) :=
  match s with
  | [] => None
  | c :: s' =>
      match after_last_dot s' with
      | Some ext => Some ext
      | None => if Ascii.eqb c "." then Some s' else None
      end
  end.

Definition get_mime_type (filename : list ascii) : list ascii :=
  match after_last_dot filename with
  | None => str "application/octet-stream"
  | Some ext =>
      let named s := ci_eqb ext (str s) in
      if named "jpg"%string || named "jpeg"%string then str "image/jpeg"
      else if named "png"%string then str "image/png"
      else if named "gif"%string then str "image/gif"
      else if named "bmp"%string then str "image/bmp"
      else if named "pdf"%string then str "application/pdf"
      else str "application/octet-stream"
  end.

(** ** Appending *)

Section append.
Implicit Types (x : xml_builder) (s t : list ascii).

Lemma grow_spec fuel size extra cap :
  0 < cap -> 0 <= size -> 0 <= extra -> size + extra + 1 <= cap * 2 ^ Z.of_nat fuel ->
  exists cap', grow fuel size extra cap = Some cap' /\ cap <= cap' /\ size + extra + 1 <= cap'.
Proof.
  revert cap. induction fuel as [|f IH]; intros cap Hc Hs He H; cbn [grow].
  - rewrite Z.mul_1_r in H. destruct (Z.ltb_spec cap (size + extra + 1)); [lia|]. exists cap. split; [done|]. lia.
  - destruct (Z.ltb_spec cap (size + extra + 1)); [|exists cap; split; [done|lia]].
    destruct (IH (cap * 2)) as (cap' & E & H1 & H2); try lia.
    { rewrite Nat2Z.inj_succ, Z.pow_succ_r in H by lia. lia. }
    exists cap'. split; [done|lia].
Qed.

Definition xml_ok x : Prop := size x < capacity x.

Lemma ensure_capacity_spec x n : xml_ok x ->
  exists x', ensure_capacity x n = Some x' /\ buffer x' = buffer x /\ size x + Z.of_nat n < capacity x'.
Proof.
  unfold xml_ok, size. intros H.
  destruct (grow_spec (length (buffer x) + n + 1) (size x) (Z.of_nat n) (capacity x)) as (cap & E & H1 & H2); unfold size in *; try lia.
  { assert (Z.of_nat (length (buffer x) + n + 1) < 2 ^ Z.of_nat (length (buffer x) + n + 1)) by (apply Z.pow_gt_lin_r; lia). nia. }
  unfold ensure_capacity. unfold size. rewrite E. eexists. split; [reflexivity|]. split; [done|]. cbn. lia.
Qed.

Lemma xml_append_ok x t : xml_ok x -> (length t < XML_TEMP)%nat ->
  exists x', xml_append t x = Some x' /\ buffer x' = buffer x ++ t /\ xml_ok x'.
Proof.
  intros Hx Ht. destruct t as [|c t]; [exists x; by rewrite app_nil_r|]. unfold xml_append.
  destruct (Nat.ltb_spec XML_TEMP (length (c :: t))); [lia|].
  destruct (ensure_capacity_spec x (length (c :: t)) Hx) as (x' & -> & E & Hc). cbn [mbind option_bind].
  eexists. split; [reflexivity|]. cbn [buffer capacity]. rewrite (take_ge (c :: t)) by lia. rewrite take_app_length, E. split; [done|].
  unfold xml_ok, size in *. cbn [buffer capacity]. rewrite length_app. lia.
Qed.

Lemma append_all_ok ts x : xml_ok x -> Forall (fun t => (length t < XML_TEMP)%nat) ts ->
  exists x', append_all ts x = Some x' /\ buffer x' = buffer x ++ concat ts /\ xml_ok x'.
Proof.
  intros Hx H. revert x Hx. induction H as [|t ts Ht _ IH]; intros x Hx; cbn [append_all concat].
  - exists x. by rewrite app_nil_r.
  - destruct (xml_append_ok x t Hx Ht) as (x1 & -> & E1 & H1). cbn [mbind option_bind].
    destruct (IH x1 H1) as (x2 & -> & E2 & H2). exists x2. split; [done|]. split; [|done]. by rewrite E2, E1, app_assoc.
Qed.

Lemma element_length tag s : length (element tag s) = (2 * String.length tag + 5 + length s)%nat.
Proof.
  assert (forall t : string, length (str t) = String.length t) as Hs by (induction t; simpl; by f_equal).
  unfold element. rewrite !length_app, !Hs. simpl. lia.
Qed.

Lemma append_raw_ok x s : xml_ok x -> exists x', xml_append_raw (Some s) x = Some x' /\ buffer x' = buffer x ++ s /\ xml_ok x'.
Proof.
  intros Hx. destruct s as [|c s]; [exists x; by rewrite app_nil_r|]. unfold xml_append_raw.
  destruct (ensure_capacity_spec x (length (c :: s)) Hx) as (x' & -> & E & Hc). cbn [mbind option_bind]. eexists. split; [reflexivity|].
  cbn [buffer capacity]. rewrite E. split; [done|]. unfold xml_ok, size in *. cbn [buffer capacity]. rewrite length_app. lia.
Qed.

Definition escaped s : list ascii := concat (map escape_char s).

Lemma xml_escape_spec s : xml_escape (Some s) = Some (escaped s).
Proof.
  unfold xml_escape. destruct (append_all_ok (map escape_char s) (xml_create 256)) as (x & -> & E & _); [done| |by (cbn [mbind option_bind]; rewrite E)].
  apply Forall_map. apply List.Forall_forall. intros c _. cbv beta.
  assert (length (escape_char c) <= 6)%nat; [|unfold XML_TEMP; lia]. unfold escape_char. repeat case_match; simpl; lia.
Qed.

Lemma escape_char_length c : (1 <= length (escape_char c) <= 6)%nat.
Proof. unfold escape_char. repeat case_match; simpl; lia. Qed.
End append.

(** ** Reading back *)

(** The entities of the builder, as any XML reader resolves them. *)
Fixpoint unescape (fuel : nat) (s : list ascii) : list ascii :=
  match fuel, s with
  | S f, c :: s' =>
      if Ascii.eqb c "&" then
        match find (fun e => prefix_b (str (fst e)) s)
          [("&amp;", "&"%char); ("&lt;", "<"%char); ("&gt;", ">"%char); ("&quot;", dquote); ("&apos;", "'"%char)]%string with
        | Some (w, d) => d :: unescape f (drop (length (str w)) s)
        | None => c :: unescape f s'
        end
      else c :: unescape f s'
  | _, _ => []
  end.

Definition is_special (c : ascii) : bool :=
  Ascii.eqb c "<" || Ascii.eqb c ">" || Ascii.eqb c dquote || Ascii.eqb c "'".

Lemma unescape_step fuel c r : unescape (S fuel) (escape_char c ++ r) = c :: unescape fuel r.
Proof.
  unfold escape_char.
  destruct (Ascii.eqb_spec c "&") as [->|H1]; [done|]. destruct (Ascii.eqb_spec c "<") as [->|H2]; [done|].
  destruct (Ascii.eqb_spec c ">") as [->|H3]; [done|]. destruct (Ascii.eqb_spec c dquote) as [->|H4]; [done|].
  destruct (Ascii.eqb_spec c "'") as [->|H5]; [done|]. cbn [app unescape].
  destruct (Ascii.eqb_spec c "&"); done.
Qed.

(** Escaping loses nothing and leaves nothing: any text survives it - a
    reader of XML gets it back character by character - and what is written
    has no angle bracket and no quote, so it cannot end the element or the
    attribute it is put into. *)
Theorem xml_escape_round_trip (s : list ascii) :
  exists e, xml_escape (Some s) = Some e /\ unescape (length s) e = s /\ Forall (fun c => is_special c = false) e /\
    (length s <= length e <= 6 * length s)%nat.
Proof.
  exists (escaped s). split; [apply xml_escape_spec|]. unfold escaped.
  induction s as [|c s (IH1 & IH2 & IH3)]; [by repeat constructor|]. cbn [map concat length]. split; [|split].
  - rewrite unescape_step. by rewrite IH1.
  - apply Forall_app. split; [|done]. unfold escape_char.
    destruct (Ascii.eqb_spec c "&"); [by repeat constructor|]. destruct (Ascii.eqb_spec c "<"); [by repeat constructor|].
    destruct (Ascii.eqb_spec c ">"); [by repeat constructor|]. destruct (Ascii.eqb_spec c dquote); [by repeat constructor|].
    destruct (Ascii.eqb_spec c "'"); [by repeat constructor|]. constructor; [|constructor]. unfold is_special.
    rewrite !orb_false_iff. repeat split; by apply Ascii.eqb_neq.
  - rewrite length_app. pose proof (escape_char_length c). lia.
Qed.

(** The builder holds exactly what was appended, within its capacity, as
    long as no formatted piece reaches 8192 characters; a piece of exactly
    that length leaves a NUL in the document, and a longer one is copied from
    beyond the local array. *)
Theorem xml_append_exact (x : xml_builder) (ts : list (list ascii)) (t : list ascii) :
  size x < capacity x -> Forall (fun t => (length t < XML_TEMP)%nat) ts ->
  exists x', append_all ts x = Some x' /\ buffer x' = buffer x ++ concat ts /\ size x' < capacity x' /\
    (length t = XML_TEMP -> exists x2, xml_append t x' = Some x2 /\ buffer x2 = buffer x' ++ take (XML_TEMP - 1) t ++ [chr 0]) /\
    ((XML_TEMP < length t)%nat -> xml_append t x' = None).
Proof.
  intros Hx H. destruct (append_all_ok ts x Hx H) as (x' & E1 & E2 & Hx'). exists x'. split_and!; try done.
  - intros Ht. unfold xml_append. destruct t as [|c t]; [done|].
    destruct (Nat.ltb_spec XML_TEMP (length (c :: t))); [lia|].
    destruct (ensure_capacity_spec x' (length (c :: t)) Hx') as (x2 & -> & E & _). cbn [mbind option_bind].
    eexists. split; [reflexivity|]. cbn [buffer]. rewrite E. f_equal. apply take_ge.
    rewrite length_app, length_take. cbn [length] in *. unfold XML_TEMP in *. lia.
  - intros Ht. unfold xml_append. destruct t as [|c t]; [cbn [length] in Ht; lia|].
    destruct (Nat.ltb_spec XML_TEMP (length (c :: t))) as [_|Hge]; [reflexivity|lia].
Qed.

Lemma xml_append_exact_witness :
  exists x', append_all [str "<a>"; str "</a>"] (xml_create 4) = Some x' /\ buffer x' = str "<a></a>".
Proof.
  destruct (xml_append_exact (xml_create 4) [str "<a>"; str "</a>"] [] ltac:(vm_compute; reflexivity)) as (x' & H1 & H2 & _).
  - apply Forall_cons_iff; split; [apply Nat.ltb_lt; vm_compute; reflexivity|].
    apply Forall_cons_iff; split; [apply Nat.ltb_lt; vm_compute; reflexivity|constructor].
  - exists x'. split; [exact H1|exact H2].
Defined.
