(* ===== verification/Response.v ===== *)
(** * The response of a request: src/src/core/response_object.c and the error
    envelope of src/src/core/dispatcher.c

    The object a request fills while it is processed, and the body that stands
    for a failure, in XML or in JSON.  A reader of JSON objects - strings
    only, as the envelope has them - states that every text survives in it. *)

From Stdlib Require Import Ascii String ZArith Lia Bool.
From stdpp Require Import base list strings numbers.
From S2P Require Import Prelude Text XmlHelper.

#[local] Open Scope Z_scope.

(** ** The object *)

Inductive response_status := RESPONSE_STATUS_PASS | RESPONSE_STATUS_ERROR.

#[export] Instance response_status_eq_dec : EqDecision response_status.
Proof. solve_decision. Defined.

(** [response_body]: [None] is NULL. *)
Record response_object := mk_response {
  resp_status : response_status;
  resp_audit_id : list ascii;
  resp_operation : list ascii;
  error_code : list ascii;
  error_text : list ascii;
  response_body : option (list ascii);
  resp_is_json : bool;
}.

Definition response_object_init : response_object :=
  mk_response RESPONSE_STATUS_ERROR (str "-") (str "-") (str "-") (str "-") None false.
Definition response_object_free (_ : response_object) : response_object := response_object_init.

(** ** Escapes *)

Definition json_hex (n : Z) : ascii := if n <? 10 then chr (48 + n) else chr (87 + n).
(** One character in a JSON string: ["\u%04x"] for a control character. *)
Definition json_escape_char (c : ascii) : list ascii :=
  if Ascii.eqb c dquote then ["\"%char; dquote]
  else if Ascii.eqb c "\" then str "\\"
  else if code c =? 10 then str "\n"
  else if code c =? 13 then str "\r"
  else if code c =? 9 then str "\t"
  else if code c <? 32 then str "\u00" ++ [json_hex (code c / 16); json_hex (code c mod 16)]
  else [c].

(** [al]: the buffer is allocated; an empty text otherwise. *)
Definition json_escape_alloc (al : bool) (s : list ascii) : list ascii :=
  if al then concat (map json_escape_char s) else [].
Definition xml_escape_alloc (al : bool) (s : list ascii) : list ascii :=
  if al then concat (map escape_char s) else [].

(** ** The envelope *)

(** ["name":"value"] *)
Definition json_member (name : string) (v : list ascii) : list ascii := quoted name ++ str ":" ++ dquote :: v ++ [dquote].

Definition json_envelope (audit op code text : list ascii) : list ascii :=
  str "{" ++ json_member "status" (str "ERROR") ++ str "," ++ json_member "audit_id" audit ++ str "," ++
  json_member "operation" op ++ str "," ++ json_member "error_code" code ++ str "," ++ json_member "error_text" text ++ str "}".
Definition xml_envelope (audit op code text : list ascii) : list ascii :=
  str "<?xml version=" ++ quoted "1.0" ++ str " encoding=" ++ quoted "UTF-8" ++ str "?>" ++ nl ++
  str "<output_xml>" ++ nl ++ str "<execution_envelope>" ++ nl ++ element "status" (str "ERROR") ++ nl ++
  element "audit_id" audit ++ nl ++ element "operation" op ++ nl ++ element "error_code" code ++ nl ++
  element "error_text" text ++ nl ++ str "</execution_envelope>" ++ nl ++ str "</output_xml>" ++ nl.

(** [strncpy(dst, src ? src : dflt, size - 1)]; the last byte is 0 from the
    start. *)
Definition field (size : nat) (dflt : string) (s : option (list ascii)) : list ascii := take (size - 1) (default (str dflt) s).

(** [al 0] to [al 3]: the four escapes are allocated; [al 4]: the body is. *)
Definition build_error_envelope (al : nat -> bool) (audit_id operation code text : option (list ascii)) (is_json : bool)
    (_ : response_object) : response_object :=
  let audit_id := field 128 "-" audit_id in
  let operation := field 32 "-" operation in
  let code := field 64 "UNKNOWN_ERROR" code in
  let text := field 512 "-" text in
  let esc i := if is_json then json_escape_alloc (al i) else xml_escape_alloc (al i) in
  let esc_audit := esc 0%nat audit_id in let esc_op := esc 1%nat operation in
  let esc_code := esc 2%nat code in let esc_text := esc 3%nat text in
  let bufsize := (length esc_audit + length esc_op + length esc_code + length esc_text + (if is_json then 128 else 256))%nat in
  let body :=
    if al 4%nat then
      take (bufsize - 1) ((if is_json then json_envelope else xml_envelope) esc_audit esc_op esc_code esc_text)
    else if is_json then str "{" ++ json_member "status" (str "ERROR") ++ str "}"
    else str "<output_xml><execution_envelope><status>ERROR</status></execution_envelope></output_xml>" in
  mk_response RESPONSE_STATUS_ERROR audit_id operation code text (Some body) is_json.

(** ** A reader of JSON objects *)

Definition hex_value (c : ascii) : option Z :=
  if isdigit c then Some (code c - 48)
  else if in_range 97 102 c then Some (code c - 87)
  else if in_range 65 70 c then Some (code c - 55)
  else None.

(** The text up to the closing quote, and what follows it; [None]: not a JSON
    string.  Only escapes of one byte are read. *)
Fixpoint read_string (s : list ascii) : option (list ascii * list ascii) :=
  let cons c r := '(v, r) ← r; Some (c :: v, r) in
  match s with
  | [] => None
  | c :: s1 =>
      if Ascii.eqb c dquote then Some ([], s1)
      else if code c <? 32 then None
      else if Ascii.eqb c "\" then
        match s1 with
        | [] => None
        | d :: s2 =>
            if Ascii.eqb d dquote || Ascii.eqb d "\" || Ascii.eqb d "/" then cons d (read_string s2)
            else if Ascii.eqb d "n" then cons (chr 10) (read_string s2)
            else if Ascii.eqb d "r" then cons (chr 13) (read_string s2)
            else if Ascii.eqb d "t" then cons (chr 9) (read_string s2)
            else if Ascii.eqb d "u" then
              match s2 with
              | a :: b :: x :: y :: s3 =>
                  if Ascii.eqb a "0" && Ascii.eqb b "0" then
                    h ← hex_value x; l ← hex_value y; cons (chr (16 * h + l)) (read_string s3)
                  else None
              | _ => None
              end
            else None
        end
      else cons c (read_string s1)
  end.

(** The members of an object whose values are strings; [fuel]: how many. *)
Fixpoint read_members (fuel : nat) (s : list ascii) : option (list (list ascii * list ascii)) :=
  match fuel, s with
  | S f, c :: s1 =>
      if Ascii.eqb c dquote then
        '(name, s2) ← read_string s1;
        match s2 with
        | c1 :: c2 :: s3 =>
            if Ascii.eqb c1 ":" && Ascii.eqb c2 dquote then
              '(v, s4) ← read_string s3;
              match s4 with
              | d :: s5 =>
                  if Ascii.eqb d "," then rest ← read_members f s5; Some ((name, v) :: rest)
                  else if Ascii.eqb d "}" then match s5 with [] => Some [(name, v)] | _ => None end
                  else None
              | [] => None
              end
            else None
        | _ => None
        end
      else None
  | _, _ => None
  end.
Definition read_object (s : list ascii) : option (list (list ascii * list ascii)) :=
  match s with c :: s1 => if Ascii.eqb c "{" then read_members (length s) s1 else None | [] => None end.

(** Decide the conditions that are closed. *)
Ltac closed_ifs :=
  repeat match goal with
  | |- context [if ?b then _ else _] =>
      let v := eval vm_compute in b in
      lazymatch v with true => idtac | false => idtac end; change b with v; cbv iota
  end.

Section reader.
Implicit Types (s r v : list ascii).

Lemma json_hex_spec c : code c < 32 ->
  hex_value (json_hex (code c / 16)) = Some (code c / 16) /\ hex_value (json_hex (code c mod 16)) = Some (code c mod 16) /\
  chr (16 * (code c / 16) + code c mod 16) = c.
Proof. destruct c as [[] [] [] [] [] [] [] []]; vm_compute; intros; (split_and! || done); done. Qed.

Lemma chr_of_code c z : code c = z -> c = chr z.
Proof. intros <-. unfold chr, code. by rewrite N2Z.id, ascii_N_embedding. Qed.

Lemma read_string_char c r :
  read_string (json_escape_char c ++ r) = '(v, r) ← read_string r; Some (c :: v, r).
Proof.
  unfold json_escape_char. destruct (Ascii.eqb_spec c dquote) as [->|H1].
  { cbn [app read_string]. by closed_ifs. }
  destruct (Ascii.eqb_spec c "\") as [->|H2].
  { change (str "\\" ++ r) with ("\"%char :: "\"%char :: r). cbn [read_string]. by closed_ifs. }
  destruct (Z.eqb_spec (code c) 10) as [E%chr_of_code|_].
  { subst c. change (str "\n" ++ r) with ("\"%char :: "n"%char :: r). cbn [read_string]. by closed_ifs. }
  destruct (Z.eqb_spec (code c) 13) as [E%chr_of_code|_].
  { subst c. change (str "\r" ++ r) with ("\"%char :: "r"%char :: r). cbn [read_string]. by closed_ifs. }
  destruct (Z.eqb_spec (code c) 9) as [E%chr_of_code|_].
  { subst c. change (str "\t" ++ r) with ("\"%char :: "t"%char :: r). cbn [read_string]. by closed_ifs. }
  destruct (Z.ltb_spec (code c) 32) as [Hc|Hc].
  { destruct (json_hex_spec c Hc) as (Eh & El & Ec). rewrite <- app_assoc.
    change (str "\u00" ++ ?x) with ("\"%char :: "u"%char :: "0"%char :: "0"%char :: x).
    cbn [app read_string]. closed_ifs. rewrite Eh, El. cbn [mbind option_bind]. by rewrite Ec. }
  cbn [app read_string]. destruct (Ascii.eqb_spec c dquote); [done|].
  destruct (Z.ltb_spec (code c) 32); [lia|]. by destruct (Ascii.eqb_spec c "\").
Qed.

Lemma read_string_escaped s r : read_string (concat (map json_escape_char s) ++ dquote :: r) = Some (s, r).
Proof.
  induction s as [|c s IH]; [cbn [map concat app read_string]; by rewrite Ascii.eqb_refl|].
  cbn [map concat]. rewrite <- app_assoc, read_string_char, IH. done.
Qed.

Definition plain s : Prop := concat (map json_escape_char s) = s.

(** A member with a plain name, followed by a comma or the end. *)
Lemma read_member f (name : string) v (d : ascii) r :
  plain (str name) ->
  read_members (S f) (json_member name (concat (map json_escape_char v)) ++ d :: r) =
  if Ascii.eqb d "," then rest ← read_members f r; Some ((str name, v) :: rest)
  else if Ascii.eqb d "}" then match r with [] => Some [(str name, v)] | _ => None end
  else None.
Proof.
  intros Hp. unfold plain in Hp. unfold json_member, quoted. cbn [app read_members]. rewrite Ascii.eqb_refl.
  rewrite <- !app_assoc. cbn [app]. rewrite <- Hp at 1. rewrite read_string_escaped. cbn [mbind option_bind].
  change (str ":" ++ ?x) with (":"%char :: x). cbv iota. rewrite !Ascii.eqb_refl. cbn [andb].
  rewrite <- app_assoc. cbn [app]. rewrite read_string_escaped. done.
Qed.
End reader.

Lemma json_envelope_reads (audit op code text : list ascii) :
  let esc s := concat (map json_escape_char s) in
  read_object (json_envelope (esc audit) (esc op) (esc code) (esc text)) =
    Some [(str "status", str "ERROR"); (str "audit_id", audit); (str "operation", op); (str "error_code", code); (str "error_text", text)].
Proof.
  cbv zeta. unfold read_object, json_envelope.
  change (str "{" ++ ?x) with ("{"%char :: x). cbv iota. rewrite Ascii.eqb_refl. cbn [length].
  match goal with |- context [read_members (S ?n)] => remember n as m eqn:Em end.
  assert (4 <= m)%nat as Hm.
  { subst m. unfold json_member. rewrite !length_app.
    assert (length (quoted "status") = 8%nat) as -> by done. lia. }
  clear Em. do 4 (destruct m as [|m]; [lia|]). clear Hm.
  change (str "ERROR") with (concat (map json_escape_char (str "ERROR"))).
  do 4 (change (str "," ++ ?x) with (","%char :: x)). change (str "}") with ["}"%char].
  rewrite !read_member by done. cbn [Ascii.eqb Bool.eqb mbind option_bind].
  done.
Qed.

(** The error envelope in JSON loses nothing of what is put into it:
    whatever bytes the texts hold - quotes, backslashes, line ends, control
    characters - a reader of JSON finds the same five members, each text cut
    to the size of its field, provided the escapes could be allocated; and
    when the body could not be, a body is there nevertheless. *)
Theorem error_envelope_round_trip (al : nat -> bool) (audit_id operation code text : list ascii) (resp : response_object) :
  (forall i, (i < 4)%nat -> al i = true) ->
  let resp' := build_error_envelope al (Some audit_id) (Some operation) (Some code) (Some text) true resp in
  resp_status resp' = RESPONSE_STATUS_ERROR /\
  exists body members, response_body resp' = Some body /\ read_object body = Some members /\
    members = (str "status", str "ERROR") ::
      (if al 4%nat then [(str "audit_id", take 127 audit_id); (str "operation", take 31 operation);
                     (str "error_code", take 63 code); (str "error_text", take 511 text)] else []).
Proof.
  intros Hal. cbv zeta. split; [done|]. unfold build_error_envelope. cbn [response_body].
  rewrite (Hal 0%nat), (Hal 1%nat), (Hal 2%nat), (Hal 3%nat) by lia. cbn [json_escape_alloc].
  destruct (al 4%nat) eqn:E.
  - eexists _, _. split; [reflexivity|]. rewrite take_ge.
    + split; [apply json_envelope_reads|done].
    + unfold json_envelope, json_member, field, quoted. rewrite !length_app. cbn [length]. rewrite !length_app. cbn [length].
      change (length (str "ERROR")) with 5%nat. change (length (str "status")) with 6%nat. change (length (str "audit_id")) with 8%nat.
      change (length (str "operation")) with 9%nat. change (length (str "error_code")) with 10%nat. change (length (str "error_text")) with 10%nat.
      change (length (str ",")) with 1%nat. change (length (str "{")) with 1%nat. change (length (str "}")) with 1%nat. change (length (str ":")) with 1%nat. lia.
  - eexists _, _. split; [reflexivity|]. split; [vm_compute; reflexivity|done].
Qed.

Lemma error_envelope_round_trip_witness :
  exists body, response_body (build_error_envelope (fun _ => true) (Some (str "A1")) (Some (str "INSERT")) (Some (str "BAD_FIELD"))
      (Some (str "Field " ++ quoted "X" ++ [chr 9; chr 1])) true response_object_init) = Some body /\
    read_object body = Some [(str "status", str "ERROR"); (str "audit_id", str "A1"); (str "operation", str "INSERT");
      (str "error_code", str "BAD_FIELD"); (str "error_text", str "Field " ++ quoted "X" ++ [chr 9; chr 1])].
Proof.
  destruct (error_envelope_round_trip (fun _ => true) (str "A1") (str "INSERT") (str "BAD_FIELD")
    (str "Field " ++ quoted "X" ++ [chr 9; chr 1]) response_object_init (fun _ _ => eq_refl)) as (_ & body & m & H1 & H2 & H3).
  exists body. split; [exact H1|]. rewrite H2, H3. reflexivity.
Defined.
