(* ===== verification/DbEvents.v ===== *)
(** * DbEvents: what is asked of the database

    The requests the modules that write make (src/include/db_driver.h,
    src/include/Audit_Trail_Manager.h), and the events they leave, oldest
    first: the database's answer to one may depend on all before it. *)

From Stdlib Require Import Ascii String ZArith.
From stdpp Require Import base list strings numbers.
From S2P Require Import Prelude TransactionManager.

#[local] Open Scope Z_scope.

(** [db_dml_returning_request_t] and [db_dml_request_t]: the values by row,
    [None] for SQL NULL. *)
Record dml_request := mk_dml_request {
  dml_sql : list ascii; bind_values : list (list (option (list ascii))); returning_bind_position : Z }.

(** [db_lob_write_request_t]: the path of a BLOB, or the text of a CLOB. *)
Inductive lob_content := FilePath (path : list ascii) | InlineText (text : list ascii).
Record lob_write_request := mk_lob_write {
  table_fq : list ascii; lob_column : list ascii; rowid_str : list ascii; content : lob_content }.

(** [audit_trail_request_t]: the values by row. *)
Record audit_trail_request := mk_audit {
  audit_table : list ascii; record_id : list ascii; action_type : list ascii; module_name : list ascii; change_reason : list ascii;
  audit_columns : list (list ascii); audit_types : list (list ascii); audit_values : list (list (list ascii)) }.

(** [audit_trail_fetch_before_image]: the columns asked for, the keys with
    their values and types. *)
Record before_image := mk_before_image {
  bi_table : list ascii; bi_owner : list ascii; bi_columns : list (list ascii); bi_keys : list (list ascii * list ascii * list ascii) }.

Inductive dml_event :=
| EvStatement (r : dml_request) (rows : option Z)
| EvLob (r : lob_write_request) (ok : bool)
| EvBeforeImage (r : before_image) (rows : option Z)
| EvAudit (r : audit_trail_request) (rc : Z)
| EvTx (e : drv_event)
| EvInvalidate (table : list ascii).
