(* ===== verification/DdlExecute.v ===== *)
(** * Running DDL: src/src/execute/DDL_Execute_Module.c and the six
    dispatch_*_new functions for DDL of src/src/core/dispatcher.c

    [execute_ddl_statement] runs one statement, never while a managed
    transaction is active; the dispatch functions build the text
    (DdlModules.v), run it and write the response.  The database is what its
    [dml_execute] answers to a statement, given those before it; the
    statements it was given are kept.  Log lines are left out. *)

From Stdlib Require Import Ascii String ZArith Lia Bool.
From stdpp Require Import base list strings numbers.
From S2P Require Import Prelude Text Cache TransactionManager DbEvents XmlHelper DdlModules Response.

#[local] Open Scope Z_scope.

(** ** State *)

(** The context with its transactions, the DDL statements the database was
    given, oldest first, the result cache, and what the modules that write have
    asked. *)
Record ddl_world := mk_ddl_world { tx_part : tx_world; executed : list (list ascii); results : option cache; db_log : list dml_event }.

Definition set_tx_part (t : tx_world) (w : ddl_world) : ddl_world := mk_ddl_world t (executed w) (results w) (db_log w).
Definition set_executed (ss : list (list ascii)) (w : ddl_world) : ddl_world := mk_ddl_world (tx_part w) ss (results w) (db_log w).

Definition ddl_ctx (w : ddl_world) : tx_ctx := w_ctx (tx_part w).
Definition set_ctx (c : tx_ctx) (w : ddl_world) : ddl_world := set_tx_part (mk_world c (w_handles (tx_part w))) w.

Definition DDL_EXEC_ERROR_MSG_LEN : nat := 512.

Record ddl_execution_result := mk_ddl_result {
  success : bool;
  error_message : list ascii;
  execution_time : double;
}.

(** What one call finds: whether [strdup] succeeds, the random bytes of the
    identity, the address of the local handle, and the clock at its start and
    its end (seconds and nanoseconds). *)
Record call_env := mk_env { al_text : bool; env_rnd : list Z; frame : nat; ts_start : Z * Z; ts_end : Z * Z }.

Definition elapsed (e : call_env) : double :=
  dbl_add (dbl_of (fst (ts_end e) - fst (ts_start e))) (dbl_div (dbl_of (snd (ts_end e) - snd (ts_start e))) (dbl_of 1000000000)).

(** [snprintf(result->error_message, ...)] *)
Definition ddl_message (t : list ascii) : list ascii := take (DDL_EXEC_ERROR_MSG_LEN - 1) t.

(** ** One statement *)

Definition drop_semicolon (s : list ascii) : list ascii :=
  match rev s with c :: r => if Ascii.eqb c ";" then rev r else s | [] => s end.
(** Exactly one trailing ';' goes, and the blanks around it. *)
Definition strip_terminator (s : list ascii) : list ascii := rskip isspace (drop_semicolon (rskip isspace s)).

(** The state, the response and the return code; [None]: undefined. *)
Abbreviation reply := (option (ddl_world * response_object * Z)).

Section ddl.

(** [driver->dml_execute]; [None]: the driver has no such function.  The
    answer is 0, or not and the text of the error. *)
Context (dml_execute : option (list (list ascii) -> list ascii -> Z * list ascii)).

(** The return code and the result, [None] while it is not written. *)
Definition execute_ddl_statement (e : call_env) (w : ddl_world) (ddl_text operation_label : option (list ascii)) (is_plsql_block : bool)
    : ddl_world * Z * option ddl_execution_result :=
  match ddl_text with
  | None => (w, -1, None)
  | Some ddl_text =>
      let label := default (str "DDL") operation_label in
      match active_tx (ddl_ctx w) with
      | Some a =>
          (w, 0, Some (mk_ddl_result false (ddl_message (str "Refusing to execute " ++ label ++
             str ": a managed transaction is active (tx_id='" ++ tx_get_id (w_handles (tx_part w) !! a) ++
             str "'). Oracle DDL implicitly commits, which would silently commit that transaction's pending work. " ++
             str "Commit or roll back the active transaction first.")) (dbl_of 0)))
      | None =>
          if negb (al_text e) then
            (w, 0, Some (mk_ddl_result false (ddl_message (str "strdup failed while preparing " ++ label ++ str " for execution")) (dbl_of 0)))
          else
            let exec_text := if is_plsql_block then ddl_text else strip_terminator ddl_text in
            let '(c, _, owns) := begin_standalone_tx_if_needed (env_rnd e) (frame e) (ddl_ctx w) (tx_init true) in
            let w := set_ctx c w in
            match dml_execute with
            | None =>
                (set_ctx (end_standalone_tx_if_owned (ddl_ctx w) owns) w, 0,
                 Some (mk_ddl_result false (ddl_message (str "db_driver_get() returned an incomplete driver")) (elapsed e)))
            | Some dml =>
                let '(rc, msg) := dml (executed w) exec_text in
                let w := set_executed (executed w ++ [exec_text]) w in
                (set_ctx (end_standalone_tx_if_owned (ddl_ctx w) owns) w, 0,
                 Some (mk_ddl_result (rc =? 0) (if rc =? 0 then [] else ddl_message msg) (elapsed e)))
            end
      end
  end.

(** ** Responses *)

Definition ddl_escape_char (c : ascii) : list ascii :=
  if Ascii.eqb c dquote then ["\"%char; dquote]
  else if Ascii.eqb c "\" then str "\\"
  else if code c =? 10 then str "\n"
  else if code c =? 13 then []
  else [c].
Definition json_escape_string (s : list ascii) : list ascii := concat (map ddl_escape_char s).

(** The text of an element; [None] when a piece is too long for the builder
    (XmlHelper.v). *)
Definition get_ddl_execution_response_xml (label ddl_text : list ascii) (result : ddl_execution_result) : option (list ascii) :=
  e_op ← xml_escape (Some label); e_ddl ← xml_escape (Some ddl_text);
  x ← append_all
    [str "<?xml version=" ++ quoted "1.0" ++ str " encoding=" ++ quoted "UTF-8" ++ str "?>" ++ nl;
     str "<DDL_Execution_Result>" ++ nl;
     str "  " ++ element "operation" e_op ++ nl;
     str "  " ++ element "status" (if success result then str "SUCCESS" else str "FAILED") ++ nl;
     str "  " ++ element "executed_ddl" e_ddl ++ nl;
     str "  " ++ element "execution_time" (print_fixed6 (execution_time result)) ++ nl] (xml_create 2048);
  x ← (if success result then Some x
       else e_err ← xml_escape (Some (error_message result)); xml_append (str "  " ++ element "error_message" e_err ++ nl) x);
  x ← xml_append (str "</DDL_Execution_Result>" ++ nl) x;
  Some (buffer x).

(** [al]: the escaped statement, the body and the escaped error are
    allocated; [None]: NULL. *)
Definition get_ddl_execution_response_json (al : nat -> bool) (label ddl_text : list ascii) (result : ddl_execution_result)
    : option (list ascii) :=
  if negb (al 0%nat) then None
  else
    let e_ddl := json_escape_string ddl_text in
    let cap := (length e_ddl + length label + DDL_EXEC_ERROR_MSG_LEN + 256)%nat in
    if negb (al 1%nat) then None
    else
      let head status := str "{" ++ json_member "operation" label ++ str "," ++ json_member "status" (str status) ++ str "," ++
        json_member "executed_ddl" e_ddl ++ str "," ++ quoted "execution_time" ++ str ":" ++ print_fixed6 (execution_time result) in
      Some (take (cap - 1)
        (if success result then head "SUCCESS"%string ++ str "}"
         else head "FAILED"%string ++ str "," ++
           json_member "error_message" (if al 2%nat then json_escape_string (error_message result) else []) ++ str "}")).

(** ** The dispatch functions *)

(** What a dispatch function is given besides its payload: the audit id and
    the format of the request, whether the buffers of the envelope and of the
    JSON body are allocated, and what each statement finds. *)
Record dispatch_env := mk_dispatch_env {
  audit_id : list ascii;
  is_json : bool;
  al_envelope : nat -> bool;
  al_json : nat -> bool;
  call1 : call_env;
  call2 : call_env;
}.

Definition refused (d : dispatch_env) (op code : string) (text : list ascii) (w : ddl_world) (resp : response_object) : reply :=
  Some (w, build_error_envelope (al_envelope d) (Some (audit_id d)) (Some (str op)) (Some (str code)) (Some text) (is_json d) resp, -1).

(** The code and the text of the previous envelope stay where they are. *)
Definition passed (d : dispatch_env) (op : string) (body : list ascii) (w : ddl_world) (resp : response_object) : reply :=
  Some (w, mk_response RESPONSE_STATUS_PASS (take 127 (audit_id d)) (take 31 (str op)) (error_code resp) (error_text resp)
             (Some body) (is_json d), 0).

Definition no_payload (d : dispatch_env) (op type : string) (w : ddl_world) (resp : response_object) : reply :=
  refused d op "NO_PAYLOAD" (str "No " ++ str type ++ str " payload after Level 1/2") w resp.

(** The body of the response to a statement that was run. *)
Definition respond (d : dispatch_env) (op : string) (ddl_text : list ascii) (result : ddl_execution_result) (w : ddl_world)
    (resp : response_object) : reply :=
  if is_json d then
    match get_ddl_execution_response_json (al_json d) (str op) ddl_text result with
    | Some body => passed d op body w resp
    | None => refused d op "NO_RESULT_BODY" (str "DDL executed successfully but response body generation failed") w resp
    end
  else body ← get_ddl_execution_response_xml (str op) ddl_text result; passed d op body w resp.

(** From the statement to the response, as five of the six functions go. *)
Definition run_ddl (d : dispatch_env) (op : string) (ddl_text : list ascii) (is_plsql_block : bool) (w : ddl_world)
    (resp : response_object) : reply :=
  match execute_ddl_statement (call1 d) w (Some ddl_text) (Some (str op)) is_plsql_block with
  | (w, rc, Some result) =>
      if negb (rc =? 0) then refused d op "EXECUTE_INVALID_ARGS" (str "execute_ddl_statement called with invalid arguments") w resp
      else if negb (success result) then refused d op "DDL_EXECUTION_FAILED" (error_message result) w resp
      else respond d op ddl_text result w resp
  | (w, _, None) => refused d op "EXECUTE_INVALID_ARGS" (str "execute_ddl_statement called with invalid arguments") w resp
  end.

Definition without_roles (req : create_user_request) : create_user_request :=
  mk_create_user (username req) (identified_by req) (default_tablespace req) (temp_tablespace req) (quota req)
    (quota_tablespace req) (profile req) [].

(** The second statement of CREATE_USER, in its buffer of 512 bytes. *)
Definition grant_stmt (req : create_user_request) : list ascii :=
  emit_all 512 ([str "GRANT "] ++ comma_pieces (roles req) ++ [str " TO " ++ username req]).

Definition dispatch_create_user_new (d : dispatch_env) (payload : option create_user_request) (w : ddl_world)
    (resp : response_object) : reply :=
  let op := "CREATE_USER"%string in
  match payload with
  | None => no_payload d op "create_user_request_t" w resp
  | Some req =>
      let ddl_text := build_create_user_ddl_text req (Z.to_nat 2048) in
      let create_stmt := build_create_user_ddl_text (without_roles req) (Z.to_nat 2048) in
      match execute_ddl_statement (call1 d) w (Some create_stmt) (Some (str op)) false with
      | (w, rc, Some result) =>
          if negb (rc =? 0) then refused d op "EXECUTE_INVALID_ARGS" (str "execute_ddl_statement called with invalid arguments") w resp
          else if negb (success result) then refused d op "DDL_EXECUTION_FAILED" (error_message result) w resp
          else if Nat.eqb (length (roles req)) 0 then respond d op ddl_text result w resp
          else
            let failed w why :=
              refused d op "DDL_EXECUTION_FAILED" (ddl_message (str "CREATE USER '" ++ username req ++
                str "' succeeded (the user now exists and cannot be rolled back - Oracle DDL auto-commits), but granting initial roles failed: " ++
                why)) w resp in
            match execute_ddl_statement (call2 d) w (Some (grant_stmt req)) (Some (str "CREATE_USER (role grant)")) false with
            | (w, role_rc, Some role_result) =>
                if negb (role_rc =? 0) then failed w (str "execute_ddl_statement called with invalid arguments")
                else if negb (success role_result) then failed w (error_message role_result)
                else respond d op ddl_text
                       (mk_ddl_result true (error_message result) (dbl_add (execution_time result) (execution_time role_result))) w resp
            | (w, _, None) => failed w (str "execute_ddl_statement called with invalid arguments")
            end
      | (w, _, None) => refused d op "EXECUTE_INVALID_ARGS" (str "execute_ddl_statement called with invalid arguments") w resp
      end
  end.

Definition dispatch_grant_new (d : dispatch_env) (payload : option grant_request) (w : ddl_world) (resp : response_object) : reply :=
  match payload with
  | None => no_payload d "GRANT" "grant_request_t" w resp
  | Some req => run_ddl d "GRANT" (build_grant_ddl_text req (Z.to_nat 2048)) false w resp
  end.

Definition dispatch_create_table_new (d : dispatch_env) (payload : option create_table_request) (w : ddl_world)
    (resp : response_object) : reply :=
  match payload with
  | None => no_payload d "CREATE_TABLE" "create_table_request_t" w resp
  | Some req => run_ddl d "CREATE_TABLE" (build_create_table_ddl_text req (Z.to_nat 8192)) false w resp
  end.

Definition dispatch_drop_table_new (d : dispatch_env) (payload : option drop_table_request) (w : ddl_world)
    (resp : response_object) : reply :=
  match payload with
  | None => no_payload d "DROP_TABLE" "drop_table_request_t" w resp
  | Some req =>
      if negb (confirm req) then
        refused d "DROP_TABLE" "CONFIRM_REQUIRED"
          (str "DROP_TABLE is irreversible - the request must include <confirm>1</confirm> (or " ++ quoted "confirm" ++
           str ": 1 in JSON) to actually execute it. No DDL was run.") w resp
      else run_ddl d "DROP_TABLE" (build_drop_table_ddl_text req 512) false w resp
  end.

Definition dispatch_create_view_new (d : dispatch_env) (payload : option create_view_request) (w : ddl_world)
    (resp : response_object) : reply :=
  match payload with
  | None => no_payload d "CREATE_VIEW" "create_view_request_t" w resp
  | Some req => run_ddl d "CREATE_VIEW" (build_create_view_ddl_text req (Z.to_nat 8192)) false w resp
  end.

Definition dispatch_create_procedure_new (d : dispatch_env) (payload : option create_procedure_request) (w : ddl_world)
    (resp : response_object) : reply :=
  match payload with
  | None => no_payload d "CREATE_PROCEDURE" "create_procedure_request_t" w resp
  | Some req =>
      run_ddl d "CREATE_PROCEDURE" (build_create_procedure_ddl_text req (Z.to_nat 8192 + PROCEDURE_BODY_LEN)) true w resp
  end.
End ddl.

(** ** What is run *)

Inductive ddl_operation :=
| DdlCreateUser (req : create_user_request)
| DdlGrant (req : grant_request)
| DdlCreateTable (req : create_table_request)
| DdlDropTable (req : drop_table_request)
| DdlCreateView (req : create_view_request)
| DdlCreateProcedure (req : create_procedure_request).

Definition dispatch_ddl dml_execute (d : dispatch_env) (op : ddl_operation) (w : ddl_world) (resp : response_object) : reply :=
  match op with
  | DdlCreateUser req => dispatch_create_user_new dml_execute d (Some req) w resp
  | DdlGrant req => dispatch_grant_new dml_execute d (Some req) w resp
  | DdlCreateTable req => dispatch_create_table_new dml_execute d (Some req) w resp
  | DdlDropTable req => dispatch_drop_table_new dml_execute d (Some req) w resp
  | DdlCreateView req => dispatch_create_view_new dml_execute d (Some req) w resp
  | DdlCreateProcedure req => dispatch_create_procedure_new dml_execute d (Some req) w resp
  end.

(** The statements a request stands for: none for a DROP that is not
    confirmed, two for a user with roles, one otherwise - without its
    terminator, but for a procedure. *)
Definition planned (op : ddl_operation) : list (list ascii) :=
  match op with
  | DdlCreateUser req =>
      strip_terminator (build_create_user_ddl_text (without_roles req) (Z.to_nat 2048)) ::
      (if Nat.eqb (length (roles req)) 0 then [] else [strip_terminator (grant_stmt req)])
  | DdlGrant req => [strip_terminator (build_grant_ddl_text req (Z.to_nat 2048))]
  | DdlCreateTable req => [strip_terminator (build_create_table_ddl_text req (Z.to_nat 8192))]
  | DdlDropTable req => if confirm req then [strip_terminator (build_drop_table_ddl_text req 512)] else []
  | DdlCreateView req => [strip_terminator (build_create_view_ddl_text req (Z.to_nat 8192))]
  | DdlCreateProcedure req => [build_create_procedure_ddl_text req (Z.to_nat 8192 + PROCEDURE_BODY_LEN)]
  end.

Section runs.
Context (dml_execute : option (list (list ascii) -> list ascii -> Z * list ascii)).
Implicit Types (w : ddl_world) (d : dispatch_env) (resp : response_object) (ss : list (list ascii)).

(** The database answered 0 to each of [ss], given after [hist]. *)
Fixpoint accepted (hist ss : list (list ascii)) : Prop :=
  match ss with
  | [] => True
  | s :: ss' => match dml_execute with Some dml => fst (dml hist s) = 0 | None => False end /\ accepted (hist ++ [s]) ss'
  end.

(** A run from [w] to [w'] gave the database a prefix [ss] of [ps], each
    statement after the ones before it were accepted; [ok]: all of it, with
    success. *)
Definition ran w w' ps (ok : Prop) : Prop :=
  tx_part w' = tx_part w /\
  exists ss, executed w' = executed w ++ ss /\ ss `prefix_of` ps /\ accepted (executed w) (removelast ss) /\
    (active_tx (ddl_ctx w) <> None -> ss = []) /\ (ok -> ss = ps /\ accepted (executed w) ss).

Lemma ran_nothing w ps : ran w w ps False.
Proof. split; [done|]. exists []. rewrite app_nil_r. split_and!; [done|by exists ps|done|done|done]. Qed.

Lemma ran_weaken w w' ps ps' (ok ok' : Prop) : ran w w' ps ok -> ps `prefix_of` ps' -> (ok' -> ok /\ ps = ps') -> ran w w' ps' ok'.
Proof.
  intros (H1 & ss & H2 & H3 & H6 & H4 & H5) Hp Hok. split; [done|]. exists ss. split_and!; [done|by etransitivity|done|done|].
  intros H. by destruct (Hok H) as [H' <-]; apply H5.
Qed.

Lemma execute_runs e w t label (plsql : bool) w' rc r :
  execute_ddl_statement dml_execute e w (Some t) label plsql = (w', rc, r) ->
  rc = 0 /\ exists res, r = Some res /\ ran w w' [if plsql then t else strip_terminator t] (success res = true).
Proof.
  unfold execute_ddl_statement. destruct (active_tx (ddl_ctx w)) as [a|] eqn:Ha.
  { intros [= <- <- <-]. split; [done|]. eexists. split; [reflexivity|]. eapply ran_weaken; [apply ran_nothing|done|done]. }
  destruct (al_text e); cbn [negb];
    [|intros [= <- <- <-]; split; [done|]; eexists; split; [reflexivity|]; eapply ran_weaken; [apply ran_nothing|done|done]].
  unfold begin_standalone_tx_if_needed. rewrite Ha. destruct w as [[[a ini d tr l] hs] ex rs lg]. unfold ddl_ctx in Ha. cbn in Ha. subst a.
  destruct dml_execute as [dml|] eqn:Hd; cbn.
  - destruct (dml _ _) as [rc' msg] eqn:E. intros [= <- <- <-]. split; [done|]. eexists. split; [reflexivity|].
    split; [done|]. exists [if plsql then t else strip_terminator t]. split_and!; [done|done|done|done|].
    intros ->%Z.eqb_eq. split; [done|]. cbn [accepted executed]. by rewrite Hd, E.
  - intros [= <- <- <-]. split; [done|]. eexists. split; [reflexivity|].
    eapply (ran_weaken _ _ [] _ False); [split; [done|]; exists []|apply prefix_nil|done]. rewrite app_nil_r. split_and!; done.
Qed.

(** The response says PASS exactly when the return code is 0. *)
Definition replies w ps (r : reply) : Prop :=
  forall w' resp' rc, r = Some (w', resp', rc) ->
    ran w w' ps (rc = 0) /\ (rc = 0 <-> resp_status resp' = RESPONSE_STATUS_PASS).

Lemma refused_replies d op code text w0 w ps ok resp : ran w0 w ps ok -> replies w0 ps (refused d op code text w resp).
Proof. intros H w' resp' rc [= <- <- <-]. split; [|done]. eapply ran_weaken; [exact H|done|done]. Qed.

Lemma respond_replies d op text res w0 w ps resp : ran w0 w ps True -> replies w0 ps (respond d op text res w resp).
Proof.
  intros H. unfold respond. destruct (is_json d).
  - destruct (get_ddl_execution_response_json _ _ _ _); [|by eapply refused_replies].
    intros w' resp' rc [= <- <- <-]. split; [|done]. eapply ran_weaken; [exact H|done|done].
  - destruct (get_ddl_execution_response_xml _ _ _); [|done]. cbn [mbind option_bind].
    intros w' resp' rc [= <- <- <-]. split; [|done]. eapply ran_weaken; [exact H|done|done].
Qed.

Lemma run_ddl_replies d op text (plsql : bool) w resp :
  replies w [if plsql then text else strip_terminator text] (run_ddl dml_execute d op text plsql w resp).
Proof.
  unfold run_ddl. destruct (execute_ddl_statement _ _ _ _ _ _) as [[w1 rc1] r1] eqn:E.
  apply execute_runs in E as (-> & res & -> & H). cbn [Z.eqb negb].
  destruct (success res) eqn:Es; cbn [negb]; [|by eapply refused_replies].
  apply respond_replies. eapply ran_weaken; [exact H|done|done].
Qed.

Lemma ran_then w w1 w2 s ps (ok : Prop) : ran w w1 [s] True -> ran w1 w2 ps ok -> ran w w2 (s :: ps) ok.
Proof.
  intros (H1 & ss & H2 & H3 & _ & H4 & H5) (K1 & ks & K2 & K3 & K0 & K4 & K5). destruct H5 as [-> H5]; [done|].
  split; [congruence|]. exists (s :: ks). split_and!.
  - by rewrite K2, H2, <- app_assoc.
  - by apply prefix_cons.
  - destruct ks as [|k ks]; [done|]. change (removelast (s :: k :: ks)) with (s :: removelast (k :: ks)). cbn [accepted] in *. rewrite H2 in K0. tauto.
  - intros Ha. by specialize (H4 Ha).
  - intros Ho. destruct (K5 Ho) as [-> K6]. split; [done|]. cbn [accepted] in *. rewrite H2 in K6. tauto.
Qed.
Lemma dispatch_ddl_replies d op w resp : replies w (planned op) (dispatch_ddl dml_execute d op w resp).
Proof.
  destruct op as [req|req|req|req|req|req]; cbn [dispatch_ddl planned];
    unfold dispatch_grant_new, dispatch_create_table_new, dispatch_create_view_new, dispatch_create_procedure_new.
  - unfold dispatch_create_user_new. destruct (execute_ddl_statement _ _ _ _ _ _) as [[w1 rc1] r1] eqn:E.
    apply execute_runs in E as (-> & res & -> & H). cbn [Z.eqb negb].
    destruct (success res) eqn:Es; cbn [negb].
    2:{ eapply refused_replies. eapply (ran_weaken _ _ _ _ _ False); [exact H|by apply prefix_cons, prefix_nil|done]. }
    destruct (Nat.eqb (length (roles req)) 0).
    { apply respond_replies. eapply ran_weaken; [exact H|done|done]. }
    destruct (execute_ddl_statement _ _ _ _ _ _) as [[w2 rc2] r2] eqn:E2.
    apply execute_runs in E2 as (-> & res2 & -> & H2). cbn [Z.eqb negb].
    pose proof (ran_then _ _ _ _ _ _ (ran_weaken _ _ _ _ _ True H ltac:(done) ltac:(done)) H2) as H3.
    destruct (success res2); cbn [negb]; [|by eapply refused_replies].
    apply respond_replies. eapply ran_weaken; [exact H3|done|done].
  - apply run_ddl_replies.
  - apply run_ddl_replies.
  - unfold dispatch_drop_table_new. destruct (confirm req); cbn [negb]; [apply run_ddl_replies|].
    eapply refused_replies, ran_nothing.
  - apply run_ddl_replies.
  - apply (run_ddl_replies d _ _ true).
Qed.

(** Within a managed transaction every statement is refused. *)
Lemma run_ddl_within d op text (plsql : bool) w resp :
  active_tx (ddl_ctx w) <> None ->
  exists resp', run_ddl dml_execute d op text plsql w resp = Some (w, resp', -1) /\ resp_status resp' = RESPONSE_STATUS_ERROR.
Proof.
  intros Ha. unfold run_ddl, execute_ddl_statement. destruct (active_tx (ddl_ctx w)) as [a|]; [|done].
  eexists. split; reflexivity.
Qed.

Lemma dispatch_ddl_within d op w resp :
  active_tx (ddl_ctx w) <> None ->
  exists resp', dispatch_ddl dml_execute d op w resp = Some (w, resp', -1) /\ resp_status resp' = RESPONSE_STATUS_ERROR.
Proof.
  intros Ha. destruct op as [req|req|req|req|req|req]; cbn [dispatch_ddl]; try (by apply run_ddl_within).
  - unfold dispatch_create_user_new, execute_ddl_statement. destruct (active_tx (ddl_ctx w)) as [a|]; [|done].
    eexists. split; reflexivity.
  - unfold dispatch_drop_table_new. destruct (negb (confirm req)); [|by apply run_ddl_within]. eexists. split; reflexivity.
Qed.
End runs.

(** C24: DDL commits behind the program's back, so none is run while a managed
    transaction is active; otherwise a request runs the statements it stands
    for and no others - a DROP only when confirmed -, in order, and none after
    one that the database did not accept; it is answered PASS exactly when it
    returns 0, and then it ran all of them and the database accepted each; and
    the transactions of the context are as they were. *)
Theorem ddl_only_outside_transactions dml_execute (d : dispatch_env) (op : ddl_operation) (w w' : ddl_world)
    (resp resp' : response_object) (rc : Z) :
  dispatch_ddl dml_execute d op w resp = Some (w', resp', rc) ->
  tx_part w' = tx_part w /\
  (rc = 0 <-> resp_status resp' = RESPONSE_STATUS_PASS) /\
  exists ss, executed w' = executed w ++ ss /\ ss `prefix_of` planned op /\
    accepted dml_execute (executed w) (removelast ss) /\
    (active_tx (ddl_ctx w) <> None -> ss = []) /\
    (rc = 0 -> ss = planned op /\ accepted dml_execute (executed w) ss).
Proof. intros E. destruct (dispatch_ddl_replies _ _ _ _ _ _ _ _ E) as [(H1 & H2) H3]. done. Qed.

Definition idle_world : ddl_world := mk_ddl_world (mk_world (mk_ctx None None (mk_driver None None) None []) []) [] None [].
Definition quiet_call : call_env := mk_env true (replicate 16 7) 0 (0, 0) (1, 500000000).
Definition demo_dispatch : dispatch_env := mk_dispatch_env (str "A1") true (fun _ => true) (fun _ => true) quiet_call quiet_call.
(** Accepts everything but a GRANT. *)
Definition no_grants (hist : list (list ascii)) (s : list ascii) : Z * list ascii :=
  if prefix_b (str "GRANT") s then (-1, str "ORA-01031: insufficient privileges") else (0, []).

Lemma ddl_only_outside_transactions_witness :
  exists w' resp', dispatch_ddl (Some no_grants) demo_dispatch (DdlDropTable demo_drop) idle_world response_object_init = Some (w', resp', 0) /\
    resp_status resp' = RESPONSE_STATUS_PASS /\ executed w' = planned (DdlDropTable demo_drop).
Proof.
  assert (exists w' resp', dispatch_ddl (Some no_grants) demo_dispatch (DdlDropTable demo_drop) idle_world response_object_init =
    Some (w', resp', 0)) as (w' & resp' & E) by (vm_compute; eexists _, _; reflexivity).
  exists w', resp'. split; [exact E|].
  destruct (ddl_only_outside_transactions _ _ _ _ _ _ _ _ E) as (_ & H1 & ss & H2 & _ & _ & _ & H3).
  split; [by apply H1|]. destruct (H3 eq_refl) as [-> _]. exact H2.
Defined.

(** ** The second statement of CREATE_USER *)

Lemma strip_terminator_word s c : isspace c = false -> Ascii.eqb c ";" = false -> strip_terminator (s ++ [c]) = s ++ [c].
Proof.
  intros H1 H2. unfold strip_terminator. rewrite (rskip_app_cons isspace s c []) by done. change (rskip isspace []) with ([] : list ascii).
  unfold drop_semicolon. rewrite rev_app_distr. cbn [rev app]. rewrite H2. by rewrite (rskip_app_cons isspace s c []).
Qed.

Lemma ident_char_word c : ident_char c = true -> isspace c = false /\ Ascii.eqb c ";" = false.
Proof. all_ascii c. Qed.

(** The GRANT of the roles is written into 512 bytes and cut without a
    word, though its parts are valid: with enough roles it ends inside the
    user's name, and the roles go to the user that the first letters name. *)
Theorem role_grant_names_another_user (req : create_user_request) (p s : list ascii) (size : nat) :
  validate_create_user_request req size = Ok tt ->
  roles req <> [] ->
  username req = p ++ s -> p <> [] ->
  length (str "GRANT " ++ concat (comma_pieces (roles req)) ++ str " TO " ++ p) = 511%nat ->
  exists create_stmt,
    planned (DdlCreateUser req) = [create_stmt; str "GRANT " ++ concat (comma_pieces (roles req)) ++ str " TO " ++ p].
Proof.
  intros Hv Hr Hu Hp Hl. eexists. cbn [planned]. destruct (Nat.eqb_spec (length (roles req)) 0) as [E|_].
  { destruct (roles req); done. }
  do 2 f_equal. unfold grant_stmt. rewrite emit_all_spec.
  assert (concat ([str "GRANT "] ++ comma_pieces (roles req) ++ [str " TO " ++ username req]) =
    (str "GRANT " ++ concat (comma_pieces (roles req)) ++ str " TO " ++ p) ++ s) as ->.
  { cbn [app concat]. rewrite concat_app. cbn [concat]. rewrite Hu, app_nil_r, <- !app_assoc. done. }
  change (512 - 1)%nat with 511%nat. rewrite <- Hl. rewrite take_app_length.
  assert (is_valid_identifier (username req) = true) as Hi.
  { unfold validate_create_user_request in Hv. by destruct (is_valid_identifier (username req)). }
  destruct (exists_last Hp) as (p' & c & ->).
  assert (ident_char c = true) as Hc.
  { unfold is_valid_identifier in Hi. rewrite Hu in Hi. destruct ((p' ++ [c]) ++ s) eqn:E; [done|]. rewrite <- E in Hi.
    apply andb_prop in Hi as [_ Hi]. rewrite forallb_forall in Hi. apply Hi, in_or_app. left. apply in_or_app. right. by left. }
  apply ident_char_word in Hc as [Hc1 Hc2].
  rewrite !app_assoc. by apply strip_terminator_word.
Qed.

Definition long_role (n : nat) : list ascii := replicate n "R"%char.
Definition many_roles : create_user_request :=
  mk_create_user (str "BOBBY") (str "secret") [] [] [] [] [] [long_role 127; long_role 127; long_role 127; long_role 111].

Lemma role_grant_names_another_user_witness :
  validate_create_user_request many_roles 256 = Ok tt /\
  exists create_stmt, planned (DdlCreateUser many_roles) =
    [create_stmt; str "GRANT " ++ concat (comma_pieces (roles many_roles)) ++ str " TO BOB"].
Proof.
  split; [vm_compute; reflexivity|].
  apply (role_grant_names_another_user many_roles (str "BOB") (str "BY") 256); [vm_compute; reflexivity|done|done|done|vm_compute; reflexivity].
Defined.

(** ** The text in the JSON answer *)

(** The control characters [json_escape_string] leaves as they are. *)
Definition left_raw (c : ascii) : bool := (code c <? 32) && negb (code c =? 10) && negb (code c =? 13).

(** The statement and the error text in a JSON answer: a reader finds
    them without their carriage returns when no control character but line
    ends is in them; with a tab or another one the answer is not JSON. *)
Theorem ddl_json_text_spec (s r : list ascii) :
  read_string (json_escape_string s ++ dquote :: r) =
    if existsb left_raw s then None else Some (List.filter (fun c => negb (code c =? 13)) s, r).
Proof.
  unfold json_escape_string. induction s as [|c s IH]; [cbn [map concat app read_string existsb List.filter]; by rewrite Ascii.eqb_refl|].
  cbn [map concat existsb List.filter]. rewrite <- app_assoc. unfold ddl_escape_char at 1, left_raw at 1.
  destruct (Ascii.eqb_spec c dquote) as [->|H1].
  { cbn [app read_string]. closed_ifs. rewrite IH. change (code dquote =? 13) with false. change (code dquote <? 32) with false.
    cbn [andb orb negb]. by destruct (existsb left_raw s). }
  destruct (Ascii.eqb_spec c "\") as [->|H2].
  { change (str "\\" ++ ?r) with ("\"%char :: "\"%char :: r). cbn [read_string]. closed_ifs. rewrite IH.
    change (code "\" =? 13) with false. change (code "\" <? 32) with false. cbn [andb orb negb]. by destruct (existsb left_raw s). }
  destruct (Z.eqb_spec (code c) 10) as [E|H3].
  { apply chr_of_code in E as ->. change (str "\n" ++ ?r) with ("\"%char :: "n"%char :: r). cbn [read_string]. closed_ifs. rewrite IH.
    cbn [negb]. rewrite andb_false_r. cbn [andb orb]. by destruct (existsb left_raw s). }
  destruct (Z.eqb_spec (code c) 13) as [E|H4].
  { cbn [app negb]. rewrite andb_false_r. exact IH. }
  cbn [app read_string]. destruct (Ascii.eqb_spec c dquote); [done|]. destruct (code c <? 32); [done|].
  destruct (Ascii.eqb_spec c "\"); [done|]. rewrite IH. cbn [andb orb negb]. by destruct (existsb left_raw s).
Qed.
