(* ===== verification/Requests.v ===== *)
(** * Requests: src/include/Request_Response_Types.h and the request structs
    of the execute modules

    What Level 1 makes of a request and the later stages work on.  An
    operation has its payload as [void*], cast by its type; here a constructor
    per type holds the struct of that type, or [None] for NULL.  An array with
    its count is a list. *)

From Stdlib Require Import Ascii String ZArith Lia Bool.
From stdpp Require Import base list strings numbers.
From S2P Require Import Prelude DdlModules.

#[local] Open Scope Z_scope.

(** ** Answers of the session manager *)

Definition SESSION_OK : Z := 0.
Definition SESSION_ERR_INVALID_ARG : Z := -1.
Definition SESSION_ERR_NOT_FOUND : Z := -2.
Definition SESSION_ERR_DB_FAILURE : Z := -4.
Definition SESSION_ERR_PARSE : Z := -6.

Inductive input_format := INPUT_FORMAT_UNKNOWN | INPUT_FORMAT_XML | INPUT_FORMAT_JSON.

#[export] Instance input_format_eq_dec : EqDecision input_format.
Proof. solve_decision. Defined.

Inductive operation_type :=
| OP_UNKNOWN
| OP_GET_TEMPLATE
| OP_SELECT
| OP_INSERT
| OP_UPDATE
| OP_DELETE
| OP_EXECUTE_PROCEDURE
| OP_CREATE_SESSION
| OP_END_SESSION
| OP_AUTHENTICATE
| OP_CHECK_PERMISSION
| OP_CREATE_USER
| OP_GRANT
| OP_CREATE_TABLE
| OP_DROP_TABLE
| OP_CREATE_VIEW
| OP_CREATE_PROCEDURE.

#[export] Instance operation_type_eq_dec : EqDecision operation_type.
Proof. solve_decision. Defined.

(** [large_value]: the value when it does not fit [fv_value]. *)
Record field_value := mk_fv {
  fv_name : list ascii;
  fv_value : list ascii;
  large_value : option (list ascii);
  fv_date_format : list ascii;
}.

Definition field_value_get (fv : field_value) : list ascii := default (fv_value fv) (large_value fv).

Record where_key := mk_key { wk_name : list ascii; key_value : list ascii; wk_date_format : list ascii }.

Abbreviation insert_row := (list field_value).

Record insert_request := mk_insert { ins_table : list ascii; ins_owner : list ascii; ins_rows : list insert_row }.
Record update_request := mk_update {
  upd_table : list ascii; upd_owner : list ascii; upd_keys : list where_key; upd_fields : list field_value }.
Record delete_request := mk_delete { del_table : list ascii; del_owner : list ascii; del_keys : list where_key }.

Inductive param_direction := PARAM_DIR_IN | PARAM_DIR_OUT | PARAM_DIR_IN_OUT.

#[export] Instance param_direction_eq_dec : EqDecision param_direction.
Proof. solve_decision. Defined.

Record procedure_param := mk_proc_param {
  pp_name : list ascii; pp_type : list ascii; direction : param_direction; pp_value : list ascii }.
Record execute_procedure_request := mk_procedure {
  proc_name : list ascii; proc_owner : list ascii; proc_params : list procedure_param }.

Record select_request := mk_select {
  sql : list ascii;
  max_rows : Z;
  fetch_batch_size : Z;
  include_column_names : bool;
  execute_async : bool;
  async_call_back_url : list ascii;
}.

Record authenticate_request := mk_authenticate { auth_username : list ascii; credential : list ascii }.
Record check_permission_request := mk_check_permission { permission_code : list ascii }.

(** An operation: its type and its payload. *)
Inductive operation_payload :=
| Select (req : option select_request)
| Insert (req : option insert_request)
| Update (req : option update_request)
| Delete (req : option delete_request)
| ExecuteProcedure (req : option execute_procedure_request)
| Authenticate (req : option authenticate_request)
| CheckPermission (req : option check_permission_request)
| CreateUser (req : option create_user_request)
| Grant (req : option grant_request)
| CreateTable (req : option create_table_request)
| DropTable (req : option drop_table_request)
| CreateView (req : option create_view_request)
| CreateProcedure (req : option create_procedure_request)
| GetTemplate
| CreateSession
| EndSession
| Unknown.

Definition type_of (p : operation_payload) : operation_type :=
  match p with
  | Select _ => OP_SELECT
  | Insert _ => OP_INSERT
  | Update _ => OP_UPDATE
  | Delete _ => OP_DELETE
  | ExecuteProcedure _ => OP_EXECUTE_PROCEDURE
  | Authenticate _ => OP_AUTHENTICATE
  | CheckPermission _ => OP_CHECK_PERMISSION
  | CreateUser _ => OP_CREATE_USER
  | Grant _ => OP_GRANT
  | CreateTable _ => OP_CREATE_TABLE
  | DropTable _ => OP_DROP_TABLE
  | CreateView _ => OP_CREATE_VIEW
  | CreateProcedure _ => OP_CREATE_PROCEDURE
  | GetTemplate => OP_GET_TEMPLATE
  | CreateSession => OP_CREATE_SESSION
  | EndSession => OP_END_SESSION
  | Unknown => OP_UNKNOWN
  end.

Record operation_status := mk_status { status_code : Z; st_error_code : list ascii; st_error_text : list ascii }.

Record operation := mk_operation { op_payload : operation_payload; validation_status : operation_status }.

Record request := mk_request {
  external_audit_id : list ascii;
  req_session_id : list ascii;
  source_format : input_format;
  transaction_required : bool;
  transaction_name : list ascii;
  operations : list operation;
}.
