(* ===== verification/Level1Parser.v ===== *)
(** * Level 1: src/src/core/level 1/Level1_Parser.c

    From the text of a request to the structs of Requests.v, whichever of the
    two formats it has.  The readers of libxml2 and cJSON are not in the
    sources: a class each, with what the parser asks of a document
    ([XmlTree], [JsonTree]) and what building one means ([XmlLaws],
    [JsonLaws]).  A loop over the children that fills several fields is
    written field by field: the names it compares with are distinct. *)

From Stdlib Require Import Ascii String ZArith Lia Bool.
From stdpp Require Import base list strings numbers.
From S2P Require Import Prelude Text DdlModules Requests.

#[local] Open Scope Z_scope.
#[local] Open Scope c_scope.

(** ** Looking at the text *)

Definition level1_detect_format (buf : list ascii) (len : nat) : input_format :=
  match skip isspace (take len buf) with
  | c :: _ =>
      if Ascii.eqb c "<" then INPUT_FORMAT_XML
      else if Ascii.eqb c "{" || Ascii.eqb c "[" then INPUT_FORMAT_JSON
      else INPUT_FORMAT_UNKNOWN
  | [] => INPUT_FORMAT_UNKNOWN
  end.

(** Past the XML declarations and the comments; each turn moves on, so the
    length of the text is enough fuel. *)
Fixpoint skip_prolog (fuel : nat) (p : list ascii) : list ascii :=
  match fuel with
  | O => p
  | S f =>
      let p := skip isspace p in
      if prefix_b (str "<?xml") p then
        match strstr (str "?>") p with Some e => skip_prolog f (drop 2 e) | None => p end
      else if prefix_b (str "<!--") p then
        match strstr (str "-->") p with Some e => skip_prolog f (drop 3 e) | None => p end
      else p
  end.

Definition level1_looks_like_new_format (buf : list ascii) (len : nat) : bool :=
  match level1_detect_format buf len with
  | INPUT_FORMAT_JSON => true
  | INPUT_FORMAT_XML => prefix_b (str "<request") (skip_prolog (S (length buf)) buf)
  | INPUT_FORMAT_UNKNOWN => false
  end.

(** ** Errors *)

Definition LEVEL1_ERR_EMPTY_INPUT : Z := -1.
Definition LEVEL1_ERR_UNKNOWN_FORMAT : Z := -2.
Definition LEVEL1_ERR_MALFORMED : Z := -3.
Definition LEVEL1_ERR_MISSING_FIELD : Z := -4.
Definition LEVEL1_ERR_ALLOC : Z := -5.

Definition set_error (code : Z) (err_code : string) (err_text : list ascii) : operation_status :=
  mk_status code (take 63 (str err_code)) (take 255 err_text).

Definition failed (why : list ascii) : list ascii := str "Request aborted. Level 1 parse failed - " ++ why.
Definition malformed (why : string) : operation_status := set_error LEVEL1_ERR_MALFORMED "LEVEL1_MALFORMED" (failed (str why)).
Definition missing_field (why : list ascii) : operation_status := set_error LEVEL1_ERR_MISSING_FIELD "LEVEL1_MISSING_FIELD" (failed why).
Definition alloc_failure : operation_status := set_error LEVEL1_ERR_ALLOC "LEVEL1_ALLOC" (failed (str "allocation failure.")).
Definition empty_input : operation_status := set_error LEVEL1_ERR_EMPTY_INPUT "LEVEL1_EMPTY_INPUT" (failed (str "empty request body.")).
Definition unknown_format : operation_status :=
  set_error LEVEL1_ERR_UNKNOWN_FORMAT "LEVEL1_UNKNOWN_FORMAT" (failed (str "unrecognised document type.")).
Definition no_audit_id : operation_status := missing_field (str "external_audit_id is mandatory.").
Definition no_session_id : operation_status :=
  missing_field (str "session_id is mandatory (use " ++ quoted "-" ++ str " if none, e.g. for CREATE_SESSION).").
Definition no_operation : operation_status := missing_field (str "at least one operation is required.").

(** ** Names *)

Definition map_operation_type (s : option (list ascii)) : operation_type :=
  match s with
  | None => OP_UNKNOWN
  | Some s =>
      if ci_eqb s (str "GET_TEMPLATE") then OP_GET_TEMPLATE
      else if ci_eqb s (str "SELECT") then OP_SELECT
      else if ci_eqb s (str "INSERT") then OP_INSERT
      else if ci_eqb s (str "UPDATE") then OP_UPDATE
      else if ci_eqb s (str "DELETE") then OP_DELETE
      else if ci_eqb s (str "EXECUTE_PROCEDURE") then OP_EXECUTE_PROCEDURE
      else if ci_eqb s (str "CREATE_SESSION") then OP_CREATE_SESSION
      else if ci_eqb s (str "END_SESSION") then OP_END_SESSION
      else if ci_eqb s (str "AUTHENTICATE") then OP_AUTHENTICATE
      else if ci_eqb s (str "CHECK_PERMISSION") then OP_CHECK_PERMISSION
      else if ci_eqb s (str "CREATE_USER") then OP_CREATE_USER
      else if ci_eqb s (str "GRANT") then OP_GRANT
      else if ci_eqb s (str "CREATE_TABLE") then OP_CREATE_TABLE
      else if ci_eqb s (str "DROP_TABLE") then OP_DROP_TABLE
      else if ci_eqb s (str "CREATE_VIEW") then OP_CREATE_VIEW
      else if ci_eqb s (str "CREATE_PROCEDURE") then OP_CREATE_PROCEDURE
      else OP_UNKNOWN
  end.

Definition parse_direction_l1 (s : list ascii) : param_direction :=
  if ci_eqb s (str "OUT") then PARAM_DIR_OUT
  else if ci_eqb s (str "IN_OUT") then PARAM_DIR_IN_OUT
  else PARAM_DIR_IN.

(** ** Sizes *)

Definition NAME_SIZE : nat := 128.
Definition VALUE_SIZE : nat := Z.to_nat 4096.
Definition DATE_FORMAT_SIZE : nat := 64.
Definition ID_SIZE : nat := 64.
Definition SQL_SIZE : nat := Z.to_nat 4096.
Definition URL_SIZE : nat := 512.
Definition PARAM_TYPE_SIZE : nat := 32.
Definition DIRECTION_SIZE : nat := 32.
Definition CREDENTIAL_SIZE : nat := 256.
Definition PERMISSION_SIZE : nat := 100.
Definition QUOTA_SIZE : nat := 32.

(** What an allocation for one operation finds: its struct, its first and its
    second array, the fields of a row, the text of a long value. *)
Record op_alloc := mk_op_alloc { al_req : bool; al_first : bool; al_second : bool; al_row : nat -> bool; al_value : nat -> nat -> bool }.

(** The array of operations, and for each operation. *)
Record l1_alloc := mk_l1_alloc { al_ops : bool; al_op : nat -> op_alloc }.

(** [calloc] for a list that is not empty. *)
Definition calloc {A} (al : bool) (l : list A) : option (list A) :=
  match l with [] => Some [] | _ => if al then Some l else None end.

(** The value and its overflow. *)
Definition set_field_value (al : bool) (src : list ascii) : list ascii * option (list ascii) :=
  if Nat.ltb (length src) VALUE_SIZE then (src, None)
  else (take (VALUE_SIZE - 1) src, if al then Some src else None).

(** [strncpy(dest, src, size - 1)] over zeros. *)
Definition stored (size : nat) (src : list ascii) : list ascii := take (size - 1) src.

(** One turn of a loop that fills an array of [room] elements: an item that is
    [None] is passed over. *)
Definition keep {N A} (room : nat) (item : N -> option A) (kept : list A) (n : N) : list A :=
  if Nat.leb room (length kept) then kept else match item n with Some a => kept ++ [a] | None => kept end.

(** A quota without a tablespace is for the default one. *)
Definition quota_fallback (req : create_user_request) : create_user_request :=
  if Nat.ltb 0 (length (quota req)) && Nat.eqb (length (quota_tablespace req)) 0 then
    mk_create_user (username req) (identified_by req) (default_tablespace req) (temp_tablespace req) (quota req)
      (stored DDL_IDENTIFIER_LEN (default_tablespace req)) (profile req) (roles req)
  else req.

(** ** The envelope *)

(** [have_audit_id] and [have_session_id]: the option is not [None]. *)
Record envelope := mk_envelope {
  have_audit_id : option (list ascii); have_session_id : option (list ascii); required : bool; tx_label : list ascii; ops : list operation }.

Definition NO_NAME : list ascii := str "No Name Specified".
Definition no_envelope : envelope := mk_envelope None None false NO_NAME [].

Definition label (name : option (list ascii)) : list ascii :=
  match name with Some (c :: t) => stored NAME_SIZE (c :: t) | _ => NO_NAME end.

(** The check of the mandatory fields. *)
Definition checked (fmt : input_format) (env : envelope) : res operation_status request :=
  match have_audit_id env, have_session_id env with
  | None, _ => Err no_audit_id
  | _, None => Err no_session_id
  | Some audit_id, Some session_id => Ok (mk_request audit_id session_id fmt (required env) (tx_label env) (ops env))
  end.

(** ** XML *)

(** What the parser asks of libxml2: the document of a text, its root, and of
    a node its children, the name if it is an element, the text inside and an
    attribute.  [None] of [xmlNodeGetContent] and [xmlGetProp]: NULL. *)
Class XmlTree := {
  xml_node : Type;
  xmlReadMemory : list ascii -> option (option xml_node);
  node_children : xml_node -> list xml_node;
  element_name : xml_node -> option (list ascii);
  xmlNodeGetContent : xml_node -> option (list ascii);
  xmlGetProp : xml_node -> string -> option (list ascii);
}.

Section xml.
Context `{XmlTree}.

Definition is_named (name : string) (n : xml_node) : bool := bool_decide (element_name n = Some (str name)).
Definition elements (name : string) (nodes : list xml_node) : list xml_node := filter (fun n => is_named name n = true) nodes.

(** The last of these nodes with a content decides. *)
Definition from_last {A} (f : list ascii -> A) (dflt : A) (nodes : list xml_node) : A :=
  foldl (fun dest n => match xmlNodeGetContent n with Some content => f content | None => dest end) dflt nodes.

(** [strncpy(dest, content, size - 1); trim_inplace(dest)] *)
Definition trimmed (size : nat) (content : list ascii) : list ascii := trim_inplace (stored size content).

Definition xml_text (name : string) (size : nat) (nodes : list xml_node) : list ascii :=
  from_last (trimmed size) [] (elements name nodes).
Definition xml_flag (name : string) (dflt : bool) (nodes : list xml_node) : bool :=
  from_last (fun content => negb (atoi content =? 0)) dflt (elements name nodes).
Definition xml_int (name : string) (nodes : list xml_node) : Z := from_last atoi 0 (elements name nodes).

(** The children of the last element of this name, none when there is none. *)
Definition xml_inside (name : string) (nodes : list xml_node) : list xml_node :=
  match list.last (elements name nodes) with Some n => node_children n | None => [] end.

(** The loop over the [inner] elements of every [outer] one. *)
Definition xml_items {A} (outer inner : string) (room : nat) (item : xml_node -> option A) (nodes : list xml_node) : list A :=
  foldl (fun kept o => foldl (keep room item) kept (elements inner (node_children o))) [] (elements outer nodes).

Definition name_of_node (size : nat) (n : xml_node) : option (list ascii) :=
  content ← xmlNodeGetContent n;
  match trimmed size content with [] => None | s => Some s end.

(** *** The fields of the requests *)

Definition xml_field_value (al : bool) (f : xml_node) : field_value :=
  let nodes := node_children f in
  let '(value, large) := from_last (fun content => set_field_value al (trim_inplace content)) ([], None) (elements "value" nodes) in
  mk_fv (xml_text "field_name" NAME_SIZE nodes) value large (xml_text "client_date_format" DATE_FORMAT_SIZE nodes).

Definition xml_where_key (k : xml_node) : where_key :=
  let nodes := node_children k in
  mk_key (xml_text "field_name" NAME_SIZE nodes) (xml_text "key_value" VALUE_SIZE nodes)
    (xml_text "client_date_format" DATE_FORMAT_SIZE nodes).

(** A row whose fields cannot be allocated has none. *)
Definition xml_row (al : op_alloc) (r : nat) (row : xml_node) : insert_row :=
  default [] (calloc (al_row al r) (imap (fun f n => xml_field_value (al_value al r f) n) (elements "field" (node_children row)))).

Definition xml_param (p : xml_node) : procedure_param :=
  let nodes := node_children p in
  mk_proc_param (xml_text "param_name" NAME_SIZE nodes) (xml_text "param_type" PARAM_TYPE_SIZE nodes)
    (from_last (fun content => parse_direction_l1 (trimmed DIRECTION_SIZE content)) PARAM_DIR_IN (elements "param_direction" nodes))
    (xml_text "param_value" VALUE_SIZE nodes).

Definition xml_column (c : xml_node) : option column_def :=
  let nodes := node_children c in
  let col := mk_column (xml_text "name" TABLE_IDENTIFIER_LEN nodes) (xml_text "data_type" COLUMN_DATA_TYPE_LEN nodes)
               (xml_int "length" nodes) (xml_int "precision" nodes) (xml_int "scale" nodes) (xml_flag "nullable" true nodes)
               (xml_text "default_value" COLUMN_DEFAULT_LEN nodes) in
  match col_name col with [] => None | _ => Some col end.

Definition xml_ddl_param (p : xml_node) : option ddl_procedure_param :=
  let nodes := node_children p in
  let param := mk_param (xml_text "name" PROCEDURE_IDENTIFIER_LEN nodes) (xml_text "data_type" PARAMETER_DATA_TYPE_LEN nodes)
                 (from_last (trimmed PARAMETER_MODE_LEN) (str "IN") (elements "mode" nodes))
                 (xml_text "default_value" PARAMETER_DEFAULT_LEN nodes) in
  match param_name param with [] => None | _ => Some param end.

(** *** The requests *)

Definition xml_select (nodes : list xml_node) : select_request :=
  mk_select (xml_text "sql" SQL_SIZE nodes) 0 0 true (xml_flag "execute_async" false nodes)
    (xml_text "async_call_back_url" URL_SIZE nodes).

Definition xml_insert (al : op_alloc) (nodes : list xml_node) : option insert_request :=
  rows ← calloc (al_first al) (imap (xml_row al) (elements "row" nodes));
  Some (mk_insert (xml_text "table_name" NAME_SIZE nodes) (xml_text "owner" NAME_SIZE nodes) rows).

Definition xml_update (al : op_alloc) (nodes : list xml_node) : option update_request :=
  keys ← calloc (al_first al) (map xml_where_key (elements "key" (xml_inside "where" nodes)));
  fields ← calloc (al_second al) (imap (fun f n => xml_field_value (al_value al 0 f) n) (elements "field" (xml_inside "set" nodes)));
  Some (mk_update (xml_text "table_name" NAME_SIZE nodes) (xml_text "owner" NAME_SIZE nodes) keys fields).

Definition xml_delete (al : op_alloc) (nodes : list xml_node) : option delete_request :=
  keys ← calloc (al_first al) (map xml_where_key (elements "key" (xml_inside "where" nodes)));
  Some (mk_delete (xml_text "table_name" NAME_SIZE nodes) (xml_text "owner" NAME_SIZE nodes) keys).

Definition xml_procedure (al : op_alloc) (nodes : list xml_node) : option execute_procedure_request :=
  params ← calloc (al_first al) (map xml_param (elements "parameter" (xml_inside "parameters" nodes)));
  Some (mk_procedure (xml_text "procedure_name" NAME_SIZE nodes) (xml_text "owner" NAME_SIZE nodes) params).

Definition xml_authenticate (nodes : list xml_node) : authenticate_request :=
  mk_authenticate (xml_text "username" NAME_SIZE nodes) (xml_text "credential" CREDENTIAL_SIZE nodes).

Definition xml_check_permission (nodes : list xml_node) : check_permission_request :=
  mk_check_permission (xml_text "permission_code" PERMISSION_SIZE nodes).

Definition xml_create_user (nodes : list xml_node) : create_user_request :=
  quota_fallback (mk_create_user (xml_text "username" DDL_IDENTIFIER_LEN nodes) (xml_text "identified_by" DDL_IDENTIFIER_LEN nodes)
    (xml_text "default_tablespace" DDL_IDENTIFIER_LEN nodes) (xml_text "temp_tablespace" DDL_IDENTIFIER_LEN nodes)
    (xml_text "quota" QUOTA_SIZE nodes) (xml_text "quota_tablespace" DDL_IDENTIFIER_LEN nodes)
    (xml_text "profile" DDL_IDENTIFIER_LEN nodes)
    (xml_items "roles" "role" MAX_CREATE_USER_ROLES (name_of_node DDL_IDENTIFIER_LEN) nodes)).

Definition xml_grant (nodes : list xml_node) : grant_request :=
  mk_grant (xml_text "grantee" GRANT_IDENTIFIER_LEN nodes) (xml_text "object_type" GRANT_OBJECT_TYPE_LEN nodes)
    (xml_text "object_name" GRANT_IDENTIFIER_LEN nodes) (xml_text "owner" GRANT_IDENTIFIER_LEN nodes)
    (xml_items "privileges" "privilege" MAX_GRANT_PRIVILEGES (name_of_node GRANT_PRIVILEGE_LEN) nodes)
    (xml_flag "with_grant_option" false nodes).

Definition xml_create_table (nodes : list xml_node) : create_table_request :=
  mk_create_table (xml_text "table_name" TABLE_IDENTIFIER_LEN nodes) (xml_text "owner" TABLE_IDENTIFIER_LEN nodes)
    (xml_items "columns" "column" DDL_MAX_TABLE_COLUMNS xml_column nodes)
    (xml_items "primary_key" "column" MAX_PRIMARY_KEY_COLUMNS (name_of_node TABLE_IDENTIFIER_LEN) nodes).

Definition xml_drop_table (nodes : list xml_node) : drop_table_request :=
  mk_drop_table (xml_text "table_name" DROP_TABLE_IDENTIFIER_LEN nodes) (xml_text "owner" DROP_TABLE_IDENTIFIER_LEN nodes)
    (xml_flag "cascade_constraints" false nodes) (xml_flag "purge" false nodes) (xml_flag "confirm" false nodes).

Definition xml_create_view (nodes : list xml_node) : create_view_request :=
  mk_create_view (xml_text "view_name" VIEW_IDENTIFIER_LEN nodes) (xml_text "owner" VIEW_IDENTIFIER_LEN nodes)
    (xml_flag "replace" false nodes) (xml_flag "force" false nodes)
    (xml_items "columns" "column" MAX_VIEW_COLUMNS (name_of_node VIEW_IDENTIFIER_LEN) nodes) (xml_text "query" VIEW_QUERY_LEN nodes).

Definition xml_create_procedure (nodes : list xml_node) : create_procedure_request :=
  mk_create_procedure (xml_text "procedure_name" PROCEDURE_IDENTIFIER_LEN nodes) (xml_text "owner" PROCEDURE_IDENTIFIER_LEN nodes)
    (xml_flag "replace" false nodes) (xml_items "parameters" "parameter" MAX_PROCEDURE_PARAMETERS xml_ddl_param nodes)
    (xml_text "body" PROCEDURE_BODY_LEN nodes).

(** The struct of its type, or NULL. *)
Definition build_payload_xml (al : op_alloc) (op_node : xml_node) (type : operation_type) : operation_payload :=
  let nodes := node_children op_node in
  let struct {A} (req : option A) : option A := if al_req al then req else None in
  match type with
  | OP_SELECT => Select (struct (Some (xml_select nodes)))
  | OP_INSERT => Insert (struct (xml_insert al nodes))
  | OP_UPDATE => Update (struct (xml_update al nodes))
  | OP_DELETE => Delete (struct (xml_delete al nodes))
  | OP_EXECUTE_PROCEDURE => ExecuteProcedure (struct (xml_procedure al nodes))
  | OP_AUTHENTICATE => Authenticate (struct (Some (xml_authenticate nodes)))
  | OP_CHECK_PERMISSION => CheckPermission (struct (Some (xml_check_permission nodes)))
  | OP_CREATE_USER => CreateUser (struct (Some (xml_create_user nodes)))
  | OP_GRANT => Grant (struct (Some (xml_grant nodes)))
  | OP_CREATE_TABLE => CreateTable (struct (Some (xml_create_table nodes)))
  | OP_DROP_TABLE => DropTable (struct (Some (xml_drop_table nodes)))
  | OP_CREATE_VIEW => CreateView (struct (Some (xml_create_view nodes)))
  | OP_CREATE_PROCEDURE => CreateProcedure (struct (Some (xml_create_procedure nodes)))
  | OP_GET_TEMPLATE => GetTemplate
  | OP_CREATE_SESSION => CreateSession
  | OP_END_SESSION => EndSession
  | OP_UNKNOWN => Unknown
  end.

(** [calloc]'s zeros in [validation_status]. *)
Definition xml_operation (al : op_alloc) (op : xml_node) : operation :=
  mk_operation (build_payload_xml al op (map_operation_type (xmlGetProp op "type"))) (mk_status 0 [] []).

Fixpoint envelope_loop (al : l1_alloc) (nodes : list xml_node) (env : envelope) : res operation_status envelope :=
  match nodes with
  | [] => Ok env
  | node :: nodes =>
      if is_named "external_audit_id" node then
        envelope_loop al nodes
          (match xmlNodeGetContent node with
           | Some (c :: t) => mk_envelope (Some (stored ID_SIZE (c :: t))) (have_session_id env) (required env) (tx_label env) (ops env)
           | _ => env
           end)
      else if is_named "session_id" node then
        envelope_loop al nodes
          (match xmlNodeGetContent node with
           | Some t => mk_envelope (have_audit_id env) (Some (stored ID_SIZE t)) (required env) (tx_label env) (ops env)
           | None => env
           end)
      else if is_named "transaction" node then
        match elements "operation" (node_children node) with
        | [] => Err no_operation
        | op_nodes =>
            if negb (al_ops al) then Err alloc_failure
            else
              envelope_loop al nodes
                (mk_envelope (have_audit_id env) (have_session_id env) (bool_decide (xmlGetProp node "required" = Some (str "1")))
                   (label (xmlGetProp node "name")) (imap (fun i op => xml_operation (al_op al i) op) op_nodes))
        end
      else envelope_loop al nodes env
  end.

Definition parse_xml (al : l1_alloc) (buf : list ascii) : res operation_status request :=
  match xmlReadMemory buf with
  | None => Err (malformed "XML not well-formed.")
  | Some root =>
      match root with
      | Some root =>
          if negb (is_named "request" root) then Err (malformed "missing <request> root.")
          else let! env := envelope_loop al (node_children root) no_envelope in checked INPUT_FORMAT_XML env
      | None => Err (malformed "missing <request> root.")
      end
  end.
End xml.

(** ** JSON *)

(** What the parser asks of cJSON: the value of a text, a member of it - of an
    object, the first of that name -, and whether it is a string, a number -
    [valueint] -, a boolean, an array or an object. *)
Class JsonTree := {
  json : Type;
  cJSON_ParseWithLength : list ascii -> option json;
  get_item : json -> string -> option json;
  string_value : json -> option (list ascii);
  number_value : json -> option Z;
  bool_value : json -> option bool;
  array_items : json -> option (list json);
  is_object : json -> bool;
}.

Section json.
Context `{JsonTree}.

Definition json_string (j : json) (name : string) : option (list ascii) := v ← get_item j name; string_value v.
Definition json_text (name : string) (size : nat) (j : json) : list ascii :=
  match json_string j name with Some t => stored size t | None => [] end.
Definition json_int (name : string) (j : json) : Z := default 0 (v ← get_item j name; number_value v).
Definition json_flag (name : string) (dflt : bool) (j : json) : bool :=
  match get_item j name with
  | Some v => match number_value v with Some n => negb (n =? 0) | None => default dflt (bool_value v) end
  | None => dflt
  end.

(** The elements of an array, none when it is not one. *)
Definition json_array (name : string) (j : json) : list json := default [] (v ← get_item j name; array_items v).

Definition json_items {A} (name : string) (room : nat) (item : json -> option A) (j : json) : list A :=
  foldl (keep room item) [] (json_array name j).

(** Neither trimmed nor looked at after it is cut. *)
Definition name_of_json (size : nat) (j : json) : option (list ascii) :=
  match string_value j with Some (c :: t) => Some (stored size (c :: t)) | _ => None end.

(** *** The fields of the requests *)

Definition json_field_value (al : bool) (f : json) : field_value :=
  let '(value, large) := match json_string f "value" with Some src => set_field_value al src | None => ([], None) end in
  mk_fv (json_text "field_name" NAME_SIZE f) value large (json_text "client_date_format" DATE_FORMAT_SIZE f).

Definition json_where_key (k : json) : where_key :=
  mk_key (json_text "field_name" NAME_SIZE k) (json_text "key_value" VALUE_SIZE k) (json_text "client_date_format" DATE_FORMAT_SIZE k).

Definition json_row (al : op_alloc) (r : nat) (row : json) : insert_row :=
  default [] (calloc (al_row al r) (imap (fun f j => json_field_value (al_value al r f) j) (json_array "fields" row))).

Definition json_param (p : json) : procedure_param :=
  mk_proc_param (json_text "param_name" NAME_SIZE p) (json_text "param_type" PARAM_TYPE_SIZE p)
    (match json_string p "param_direction" with Some t => parse_direction_l1 t | None => PARAM_DIR_IN end)
    (json_text "param_value" VALUE_SIZE p).

Definition json_column (c : json) : option column_def :=
  if negb (is_object c) then None
  else
    let col := mk_column (json_text "name" TABLE_IDENTIFIER_LEN c) (json_text "data_type" COLUMN_DATA_TYPE_LEN c)
                 (json_int "length" c) (json_int "precision" c) (json_int "scale" c) (json_flag "nullable" true c)
                 (json_text "default_value" COLUMN_DEFAULT_LEN c) in
    match col_name col with [] => None | _ => Some col end.

Definition json_ddl_param (p : json) : option ddl_procedure_param :=
  if negb (is_object p) then None
  else
    let param := mk_param (json_text "name" PROCEDURE_IDENTIFIER_LEN p) (json_text "data_type" PARAMETER_DATA_TYPE_LEN p)
                   (match json_string p "mode" with Some t => stored PARAMETER_MODE_LEN t | None => str "IN" end)
                   (json_text "default_value" PARAMETER_DEFAULT_LEN p) in
    match param_name param with [] => None | _ => Some param end.

(** *** The requests *)

Definition json_select (j : json) : select_request :=
  mk_select (trim_inplace (json_text "sql" SQL_SIZE j)) 0 0 true (json_flag "execute_async" false j)
    (trim_inplace (json_text "async_call_back_url" URL_SIZE j)).

Definition json_insert (al : op_alloc) (j : json) : option insert_request :=
  rows ← calloc (al_first al) (imap (json_row al) (json_array "rows" j));
  Some (mk_insert (json_text "table_name" NAME_SIZE j) (json_text "owner" NAME_SIZE j) rows).

Definition json_update (al : op_alloc) (j : json) : option update_request :=
  keys ← calloc (al_first al) (map json_where_key (json_array "where" j));
  fields ← calloc (al_second al) (imap (fun f v => json_field_value (al_value al 0 f) v) (json_array "set" j));
  Some (mk_update (json_text "table_name" NAME_SIZE j) (json_text "owner" NAME_SIZE j) keys fields).

Definition json_delete (al : op_alloc) (j : json) : option delete_request :=
  keys ← calloc (al_first al) (map json_where_key (json_array "where" j));
  Some (mk_delete (json_text "table_name" NAME_SIZE j) (json_text "owner" NAME_SIZE j) keys).

Definition json_procedure (al : op_alloc) (j : json) : option execute_procedure_request :=
  params ← calloc (al_first al) (map json_param (json_array "parameters" j));
  Some (mk_procedure (json_text "procedure_name" NAME_SIZE j) (json_text "owner" NAME_SIZE j) params).

Definition json_authenticate (j : json) : authenticate_request :=
  mk_authenticate (json_text "username" NAME_SIZE j) (json_text "credential" CREDENTIAL_SIZE j).

Definition json_check_permission (j : json) : check_permission_request :=
  mk_check_permission (json_text "permission_code" PERMISSION_SIZE j).

Definition json_create_user (j : json) : create_user_request :=
  quota_fallback (mk_create_user (json_text "username" DDL_IDENTIFIER_LEN j) (json_text "identified_by" DDL_IDENTIFIER_LEN j)
    (json_text "default_tablespace" DDL_IDENTIFIER_LEN j) (json_text "temp_tablespace" DDL_IDENTIFIER_LEN j)
    (json_text "quota" QUOTA_SIZE j) (json_text "quota_tablespace" DDL_IDENTIFIER_LEN j) (json_text "profile" DDL_IDENTIFIER_LEN j)
    (json_items "roles" MAX_CREATE_USER_ROLES (name_of_json DDL_IDENTIFIER_LEN) j)).

Definition json_grant (j : json) : grant_request :=
  mk_grant (json_text "grantee" GRANT_IDENTIFIER_LEN j) (json_text "object_type" GRANT_OBJECT_TYPE_LEN j)
    (json_text "object_name" GRANT_IDENTIFIER_LEN j) (json_text "owner" GRANT_IDENTIFIER_LEN j)
    (json_items "privileges" MAX_GRANT_PRIVILEGES (name_of_json GRANT_PRIVILEGE_LEN) j) (json_flag "with_grant_option" false j).

Definition json_create_table (j : json) : create_table_request :=
  mk_create_table (json_text "table_name" TABLE_IDENTIFIER_LEN j) (json_text "owner" TABLE_IDENTIFIER_LEN j)
    (json_items "columns" DDL_MAX_TABLE_COLUMNS json_column j)
    (json_items "primary_key" MAX_PRIMARY_KEY_COLUMNS (name_of_json TABLE_IDENTIFIER_LEN) j).

Definition json_drop_table (j : json) : drop_table_request :=
  mk_drop_table (json_text "table_name" DROP_TABLE_IDENTIFIER_LEN j) (json_text "owner" DROP_TABLE_IDENTIFIER_LEN j)
    (json_flag "cascade_constraints" false j) (json_flag "purge" false j) (json_flag "confirm" false j).

Definition json_create_view (j : json) : create_view_request :=
  mk_create_view (json_text "view_name" VIEW_IDENTIFIER_LEN j) (json_text "owner" VIEW_IDENTIFIER_LEN j)
    (json_flag "replace" false j) (json_flag "force" false j)
    (json_items "columns" MAX_VIEW_COLUMNS (name_of_json VIEW_IDENTIFIER_LEN) j) (json_text "query" VIEW_QUERY_LEN j).

Definition json_create_procedure (j : json) : create_procedure_request :=
  mk_create_procedure (json_text "procedure_name" PROCEDURE_IDENTIFIER_LEN j) (json_text "owner" PROCEDURE_IDENTIFIER_LEN j)
    (json_flag "replace" false j) (json_items "parameters" MAX_PROCEDURE_PARAMETERS json_ddl_param j)
    (json_text "body" PROCEDURE_BODY_LEN j).

Definition build_payload_json (al : op_alloc) (op_json : json) (type : operation_type) : operation_payload :=
  let struct {A} (req : option A) : option A := if al_req al then req else None in
  match type with
  | OP_SELECT => Select (struct (Some (json_select op_json)))
  | OP_INSERT => Insert (struct (json_insert al op_json))
  | OP_UPDATE => Update (struct (json_update al op_json))
  | OP_DELETE => Delete (struct (json_delete al op_json))
  | OP_EXECUTE_PROCEDURE => ExecuteProcedure (struct (json_procedure al op_json))
  | OP_AUTHENTICATE => Authenticate (struct (Some (json_authenticate op_json)))
  | OP_CHECK_PERMISSION => CheckPermission (struct (Some (json_check_permission op_json)))
  | OP_CREATE_USER => CreateUser (struct (Some (json_create_user op_json)))
  | OP_GRANT => Grant (struct (Some (json_grant op_json)))
  | OP_CREATE_TABLE => CreateTable (struct (Some (json_create_table op_json)))
  | OP_DROP_TABLE => DropTable (struct (Some (json_drop_table op_json)))
  | OP_CREATE_VIEW => CreateView (struct (Some (json_create_view op_json)))
  | OP_CREATE_PROCEDURE => CreateProcedure (struct (Some (json_create_procedure op_json)))
  | OP_GET_TEMPLATE => GetTemplate
  | OP_CREATE_SESSION => CreateSession
  | OP_END_SESSION => EndSession
  | OP_UNKNOWN => Unknown
  end.

Definition json_operation (al : op_alloc) (op : json) : operation :=
  mk_operation (build_payload_json al op (map_operation_type (json_string op "type"))) (mk_status 0 [] []).

(** [transaction], when it is an object. *)
Definition json_transaction (al : l1_alloc) (transaction : json) (env : envelope) : res operation_status envelope :=
  match json_array "operations" transaction with
  | [] => Err no_operation
  | op_items =>
      if negb (al_ops al) then Err alloc_failure
      else
        Ok (mk_envelope (have_audit_id env) (have_session_id env)
              (bool_decide ((v ← get_item transaction "required"; number_value v) = Some 1))
              (label (json_string transaction "name")) (imap (fun i op => json_operation (al_op al i) op) op_items))
  end.

Definition parse_json (al : l1_alloc) (buf : list ascii) : res operation_status request :=
  match cJSON_ParseWithLength buf with
  | None => Err (malformed "JSON not well-formed.")
  | Some root =>
      let audit_id := match json_string root "external_audit_id" with Some (c :: t) => Some (stored ID_SIZE (c :: t)) | _ => None end in
      let session_id := option_map (stored ID_SIZE) (json_string root "session_id") in
      let env := mk_envelope audit_id session_id false NO_NAME [] in
      let! env :=
        match get_item root "transaction" with
        | Some transaction => if is_object transaction then json_transaction al transaction env else Ok env
        | None => Ok env
        end in
      checked INPUT_FORMAT_JSON env
  end.
End json.

(** ** The parser *)

Definition level1_parse `{XmlTree} `{JsonTree} (al : l1_alloc) (buf : list ascii) (len : nat) : res operation_status request :=
  if Nat.eqb len 0 then Err empty_input
  else
    match level1_detect_format buf len with
    | INPUT_FORMAT_XML => parse_xml al (take len buf)
    | INPUT_FORMAT_JSON => parse_json al (take len buf)
    | INPUT_FORMAT_UNKNOWN => Err unknown_format
    end.

(** ** What it lets through fits *)

(** A C string in an array of [size] bytes. *)
Definition fits (size : nat) (s : list ascii) : Prop := (length s < size)%nat.

Definition value_fits (fv : field_value) : Prop :=
  fits NAME_SIZE (fv_name fv) /\ fits VALUE_SIZE (fv_value fv) /\ fits DATE_FORMAT_SIZE (fv_date_format fv).
Definition key_fits (k : where_key) : Prop :=
  fits NAME_SIZE (wk_name k) /\ fits VALUE_SIZE (key_value k) /\ fits DATE_FORMAT_SIZE (wk_date_format k).
Definition param_fits (p : procedure_param) : Prop :=
  fits NAME_SIZE (pp_name p) /\ fits PARAM_TYPE_SIZE (pp_type p) /\ fits VALUE_SIZE (pp_value p).
Definition column_fits (c : column_def) : Prop :=
  fits TABLE_IDENTIFIER_LEN (col_name c) /\ fits COLUMN_DATA_TYPE_LEN (data_type c) /\ fits COLUMN_DEFAULT_LEN (default_value c).
Definition ddl_param_fits (p : ddl_procedure_param) : Prop :=
  fits PROCEDURE_IDENTIFIER_LEN (param_name p) /\ fits PARAMETER_DATA_TYPE_LEN (param_data_type p) /\
  fits PARAMETER_MODE_LEN (mode p) /\ fits PARAMETER_DEFAULT_LEN (param_default p).

(** An array with its own count. *)
Definition list_fits {A} (room : nat) (item_fits : A -> Prop) (l : list A) : Prop := (length l <= room)%nat /\ Forall item_fits l.

Definition payload_fits (p : operation_payload) : Prop :=
  match p with
  | Select (Some q) => fits SQL_SIZE (sql q) /\ fits URL_SIZE (async_call_back_url q)
  | Insert (Some q) => fits NAME_SIZE (ins_table q) /\ fits NAME_SIZE (ins_owner q) /\ Forall (Forall value_fits) (ins_rows q)
  | Update (Some q) =>
      fits NAME_SIZE (upd_table q) /\ fits NAME_SIZE (upd_owner q) /\ Forall key_fits (upd_keys q) /\ Forall value_fits (upd_fields q)
  | Delete (Some q) => fits NAME_SIZE (del_table q) /\ fits NAME_SIZE (del_owner q) /\ Forall key_fits (del_keys q)
  | ExecuteProcedure (Some q) => fits NAME_SIZE (proc_name q) /\ fits NAME_SIZE (proc_owner q) /\ Forall param_fits (proc_params q)
  | Authenticate (Some q) => fits NAME_SIZE (auth_username q) /\ fits CREDENTIAL_SIZE (credential q)
  | CheckPermission (Some q) => fits PERMISSION_SIZE (permission_code q)
  | CreateUser (Some q) =>
      fits DDL_IDENTIFIER_LEN (username q) /\ fits DDL_IDENTIFIER_LEN (identified_by q) /\
      fits DDL_IDENTIFIER_LEN (default_tablespace q) /\ fits DDL_IDENTIFIER_LEN (temp_tablespace q) /\ fits QUOTA_SIZE (quota q) /\
      fits DDL_IDENTIFIER_LEN (quota_tablespace q) /\ fits DDL_IDENTIFIER_LEN (profile q) /\
      list_fits MAX_CREATE_USER_ROLES (fits DDL_IDENTIFIER_LEN) (roles q)
  | Grant (Some q) =>
      fits GRANT_IDENTIFIER_LEN (grantee q) /\ fits GRANT_OBJECT_TYPE_LEN (object_type q) /\ fits GRANT_IDENTIFIER_LEN (object_name q) /\
      fits GRANT_IDENTIFIER_LEN (grant_owner q) /\ list_fits MAX_GRANT_PRIVILEGES (fits GRANT_PRIVILEGE_LEN) (privileges q)
  | CreateTable (Some q) =>
      fits TABLE_IDENTIFIER_LEN (table_name q) /\ fits TABLE_IDENTIFIER_LEN (owner q) /\
      list_fits DDL_MAX_TABLE_COLUMNS column_fits (columns q) /\
      list_fits MAX_PRIMARY_KEY_COLUMNS (fits TABLE_IDENTIFIER_LEN) (primary_key_columns q)
  | DropTable (Some q) => fits DROP_TABLE_IDENTIFIER_LEN (drop_table_name q) /\ fits DROP_TABLE_IDENTIFIER_LEN (drop_owner q)
  | CreateView (Some q) =>
      fits VIEW_IDENTIFIER_LEN (view_name q) /\ fits VIEW_IDENTIFIER_LEN (view_owner q) /\ fits VIEW_QUERY_LEN (query q) /\
      list_fits MAX_VIEW_COLUMNS (fits VIEW_IDENTIFIER_LEN) (view_columns q)
  | CreateProcedure (Some q) =>
      fits PROCEDURE_IDENTIFIER_LEN (procedure_name q) /\ fits PROCEDURE_IDENTIFIER_LEN (procedure_owner q) /\
      fits PROCEDURE_BODY_LEN (body q) /\ list_fits MAX_PROCEDURE_PARAMETERS ddl_param_fits (parameters q)
  | _ => True
  end.

(** The identifiers are there, the label is not empty, and there is room for
    everything. *)
Definition request_fits (r : request) : Prop :=
  external_audit_id r <> [] /\ fits ID_SIZE (external_audit_id r) /\ fits ID_SIZE (req_session_id r) /\
  transaction_name r <> [] /\ fits NAME_SIZE (transaction_name r) /\ Forall (fun op => payload_fits (op_payload op)) (operations r).

Create HintDb level1.
#[export] Hint Extern 1 (Nat.ltb 0 _ = true) => vm_compute; reflexivity : level1.

Lemma trim_inplace_length s : (length (trim_inplace s) <= length s)%nat.
Proof. unfold trim_inplace, rskip. rewrite length_rev. etrans; [apply skip_length|]. rewrite length_rev. apply skip_length. Qed.

Lemma stored_fits size s : Nat.ltb 0 size = true -> fits size (stored size s).
Proof. intros H%Nat.ltb_lt. unfold fits, stored. rewrite length_take. lia. Qed.

Lemma trim_inplace_fits size s : fits size s -> fits size (trim_inplace s).
Proof. unfold fits. pose proof (trim_inplace_length s). lia. Qed.

Lemma empty_fits size : Nat.ltb 0 size = true -> fits size [].
Proof. intros H%Nat.ltb_lt. exact H. Qed.
#[export] Hint Resolve stored_fits trim_inplace_fits empty_fits : level1.

Lemma set_field_value_fits al src : fits VALUE_SIZE (fst (set_field_value al src)).
Proof.
  unfold set_field_value. destruct (Nat.ltb_spec (length src) VALUE_SIZE) as [Hl|Hl]; [exact Hl|].
  apply (stored_fits VALUE_SIZE src). vm_compute. reflexivity.
Qed.

Lemma calloc_Forall {A} (P : A -> Prop) al l l' : calloc al l = Some l' -> Forall P l -> Forall P l'.
Proof. destruct l; [by intros [= <-]|]. cbn [calloc]. by destruct al; intros [= <-]. Qed.

Lemma default_calloc_Forall {A} (P : A -> Prop) al l : Forall P l -> Forall P (default [] (calloc al l)).
Proof. intros H. destruct (calloc al l) eqn:E; [by eapply calloc_Forall|constructor]. Qed.

Lemma imap_Forall {A B} (P : B -> Prop) (f : nat -> A -> B) l : (forall i a, P (f i a)) -> Forall P (imap f l).
Proof. intros H. apply Forall_lookup. intros i b. rewrite list_lookup_imap. intros (a & _ & ->)%fmap_Some. apply H. Qed.

Lemma map_Forall_all {A B} (P : B -> Prop) (f : A -> B) l : (forall a, P (f a)) -> Forall P (map f l).
Proof. intros H. apply Forall_fmap. by apply Forall_true. Qed.
#[export] Hint Resolve default_calloc_Forall imap_Forall map_Forall_all : level1.

Lemma keep_fits {N A} room (item : N -> option A) (P : A -> Prop) kept n :
  (forall n a, item n = Some a -> P a) -> list_fits room P kept -> list_fits room P (keep room item kept n).
Proof.
  intros Hi [Hl Hk]. unfold keep. destruct (Nat.leb_spec room (length kept)); [by split|].
  destruct (item n) as [a|] eqn:E; [|by split]. split; [rewrite length_app; cbn; lia|].
  apply Forall_app. split; [done|]. constructor; [by eapply Hi|constructor].
Qed.

Lemma foldl_fits {N A} room (item : N -> option A) (P : A -> Prop) nodes kept :
  (forall n a, item n = Some a -> P a) -> list_fits room P kept -> list_fits room P (foldl (keep room item) kept nodes).
Proof. intros Hi. revert kept. induction nodes as [|n nodes IH]; intros kept Hk; [done|]. by apply IH, keep_fits. Qed.

Lemma no_items_fit {A} room (P : A -> Prop) : list_fits room P [].
Proof. split; [cbn; lia|constructor]. Qed.

Lemma quota_fallback_fits q :
  payload_fits (CreateUser (Some q)) -> payload_fits (CreateUser (Some (quota_fallback q))).
Proof. unfold quota_fallback. destruct (_ && _); [|done]. pose proof (stored_fits DDL_IDENTIFIER_LEN (default_tablespace q) eq_refl). unfold payload_fits. tauto. Qed.

Section xml_fits.
Context `{XmlTree}.

Lemma from_last_ind {A} (P : A -> Prop) (f : list ascii -> A) dflt nodes :
  P dflt -> (forall content, P (f content)) -> P (from_last f dflt nodes).
Proof.
  unfold from_last. intros Hd Hf. revert dflt Hd. induction nodes as [|n nodes IH]; intros dflt Hd; [done|]. apply IH.
  by destruct (xmlNodeGetContent n).
Qed.

Lemma xml_text_fits name size nodes : Nat.ltb 0 size = true -> fits size (xml_text name size nodes).
Proof. intros Hs. apply (from_last_ind (fits size)); [by apply empty_fits|]. intros content. by apply trim_inplace_fits, stored_fits. Qed.

Lemma name_of_node_fits size n s : Nat.ltb 0 size = true -> name_of_node size n = Some s -> fits size s.
Proof.
  intros Hs. unfold name_of_node. destruct (xmlNodeGetContent n) as [content|]; [|done]. cbn [mbind option_bind].
  destruct (trimmed size content) eqn:E; [done|]. intros [= <-]. rewrite <- E. by apply trim_inplace_fits, stored_fits.
Qed.
#[local] Hint Resolve xml_text_fits name_of_node_fits no_items_fit : level1.

Lemma xml_items_fit {A} outer inner room (item : xml_node -> option A) (P : A -> Prop) nodes :
  (forall n a, item n = Some a -> P a) -> list_fits room P (xml_items outer inner room item nodes).
Proof.
  intros Hi. unfold xml_items. assert (forall l kept, list_fits room P kept ->
    list_fits room P (foldl (fun kept o => foldl (keep room item) kept (elements inner (node_children o))) kept l)) as Hl.
  { induction l as [|o l IH]; intros kept Hk; [done|]. by apply IH, foldl_fits. }
  apply Hl, no_items_fit.
Qed.
#[local] Hint Resolve xml_items_fit : level1.

Lemma xml_field_value_fits al f : value_fits (xml_field_value al f).
Proof.
  unfold xml_field_value.
  assert (fits VALUE_SIZE (fst (from_last (fun content => set_field_value al (trim_inplace content)) ([], None)
    (elements "value" (node_children f))))) as Hv.
  { apply (from_last_ind (fun v => fits VALUE_SIZE (fst v))); [cbn; auto with level1|]. intros c. apply set_field_value_fits. }
  destruct (from_last _ _ _) as [value large]. split_and!; cbn; auto with level1.
Qed.
#[local] Hint Resolve xml_field_value_fits : level1.

Lemma xml_where_key_fits k : key_fits (xml_where_key k).
Proof. split_and!; cbn; auto with level1. Qed.

Lemma xml_row_fits al r row : Forall value_fits (xml_row al r row).
Proof. unfold xml_row. auto with level1. Qed.

Lemma xml_param_fits p : param_fits (xml_param p).
Proof. split_and!; cbn; auto with level1. Qed.

Lemma xml_column_fits c col : xml_column c = Some col -> column_fits col.
Proof.
  unfold xml_column. match goal with |- context [col_name ?x] => set (d := x) end. destruct (col_name d); [done|]. intros [= <-].
  split_and!; cbn; auto with level1.
Qed.

Lemma xml_ddl_param_fits p param : xml_ddl_param p = Some param -> ddl_param_fits param.
Proof.
  unfold xml_ddl_param. match goal with |- context [param_name ?x] => set (d := x) end. destruct (param_name d); [done|]. intros [= <-].
  split_and!; cbn; auto with level1. apply (from_last_ind (fits PARAMETER_MODE_LEN)); [vm_compute; lia|].
  intros content. apply trim_inplace_fits. auto with level1.
Qed.
#[local] Hint Resolve xml_where_key_fits xml_row_fits xml_param_fits xml_column_fits xml_ddl_param_fits : level1.

Lemma xml_payload_fits al n t : payload_fits (build_payload_xml al n t).
Proof.
  unfold build_payload_xml. destruct t; try exact I; destruct (al_req al); try exact I;
    unfold xml_insert, xml_update, xml_delete, xml_procedure;
    repeat match goal with
    | |- context [calloc ?a ?l] => let E := fresh in destruct (calloc a l) eqn:E; cbn [mbind option_bind]; [eapply calloc_Forall in E|exact I]
    end; try apply quota_fallback_fits; cbn [payload_fits]; split_and?; cbn; eauto with level1.
Qed.
End xml_fits.

Section json_fits.
Context `{JsonTree}.

Lemma json_text_fits name size j : Nat.ltb 0 size = true -> fits size (json_text name size j).
Proof. intros Hs. unfold json_text. destruct (json_string j name); auto with level1. Qed.

Lemma name_of_json_fits size j s : Nat.ltb 0 size = true -> name_of_json size j = Some s -> fits size s.
Proof. intros Hs. unfold name_of_json. destruct (string_value j) as [[|c t]|]; try done. intros [= <-]. by apply stored_fits. Qed.

Lemma json_items_fit {A} name room (item : json -> option A) (P : A -> Prop) j :
  (forall v a, item v = Some a -> P a) -> list_fits room P (json_items name room item j).
Proof. intros Hi. apply foldl_fits; [done|]. apply no_items_fit. Qed.
#[local] Hint Resolve json_text_fits name_of_json_fits json_items_fit : level1.

Lemma json_field_value_fits al f : value_fits (json_field_value al f).
Proof.
  unfold json_field_value.
  assert (fits VALUE_SIZE (fst (match json_string f "value" with Some src => set_field_value al src | None => ([], None) end))) as Hv.
  { destruct (json_string f "value"); [apply set_field_value_fits|cbn; auto with level1]. }
  destruct (match json_string f "value" with Some _ => _ | None => _ end) as [value large]. split_and!; cbn; auto with level1.
Qed.
#[local] Hint Resolve json_field_value_fits : level1.

Lemma json_where_key_fits k : key_fits (json_where_key k).
Proof. split_and!; cbn; auto with level1. Qed.

Lemma json_row_fits al r row : Forall value_fits (json_row al r row).
Proof. unfold json_row. auto with level1. Qed.

Lemma json_param_fits p : param_fits (json_param p).
Proof. split_and!; cbn; auto with level1. Qed.

Lemma json_column_fits c col : json_column c = Some col -> column_fits col.
Proof.
  unfold json_column. destruct (is_object c); [|done]. cbn [negb]. match goal with |- context [col_name ?x] => set (d := x) end.
  destruct (col_name d); [done|]. intros [= <-]. split_and!; cbn; auto with level1.
Qed.

Lemma json_ddl_param_fits p param : json_ddl_param p = Some param -> ddl_param_fits param.
Proof.
  unfold json_ddl_param. destruct (is_object p); [|done]. cbn [negb]. match goal with |- context [param_name ?x] => set (d := x) end.
  destruct (param_name d); [done|]. intros [= <-]. split_and!; cbn; auto with level1.
  destruct (json_string p "mode") as [t|]; [by apply (stored_fits PARAMETER_MODE_LEN t)|vm_compute; lia].
Qed.
#[local] Hint Resolve json_where_key_fits json_row_fits json_param_fits json_column_fits json_ddl_param_fits : level1.

Lemma json_payload_fits al j t : payload_fits (build_payload_json al j t).
Proof.
  unfold build_payload_json. destruct t; try exact I; destruct (al_req al); try exact I;
    unfold json_insert, json_update, json_delete, json_procedure;
    repeat match goal with
    | |- context [calloc ?a ?l] => let E := fresh in destruct (calloc a l) eqn:E; cbn [mbind option_bind]; [eapply calloc_Forall in E|exact I]
    end; try apply quota_fallback_fits; cbn [payload_fits]; split_and?; cbn; eauto with level1.
Qed.
End json_fits.

(** ** The envelope *)

Definition envelope_fits (env : envelope) : Prop :=
  (forall id, have_audit_id env = Some id -> id <> [] /\ fits ID_SIZE id) /\
  (forall id, have_session_id env = Some id -> fits ID_SIZE id) /\
  tx_label env <> [] /\ fits NAME_SIZE (tx_label env) /\ Forall (fun op => payload_fits (op_payload op)) (ops env).

Lemma label_fits name : label name <> [] /\ fits NAME_SIZE (label name).
Proof.
  destruct name as [[|c t]|]; try (split; [done|vm_compute; lia]). split; [done|]. by apply (stored_fits NAME_SIZE (c :: t)).
Qed.

Lemma no_envelope_fits : envelope_fits no_envelope.
Proof. split_and!; try done; vm_compute; lia. Qed.

Lemma checked_fits fmt env r : envelope_fits env -> checked fmt env = Ok r -> request_fits r.
Proof.
  unfold checked. intros (H1 & H2 & H3 & H4 & H5). destruct (have_audit_id env) as [a|]; [|done].
  destruct (have_session_id env) as [s|]; [|done]. intros [= <-]. destruct (H1 a eq_refl). split_and!; auto.
Qed.

Lemma envelope_loop_fits `{XmlTree} al nodes : forall env env', envelope_fits env -> envelope_loop al nodes env = Ok env' -> envelope_fits env'.
Proof.
  induction nodes as [|n nodes IH]; intros env env' He; cbn [envelope_loop]; [by intros [= <-]|].
  pose proof He as (H1 & H2 & H3 & H4 & H5). destruct (is_named "external_audit_id" n); [|destruct (is_named "session_id" n)].
  - apply IH. destruct (xmlNodeGetContent n) as [[|c t]|]; try done. split_and!; try done; cbn.
    intros id [= <-]. split; [done|]. by apply (stored_fits ID_SIZE (c :: t)).
  - apply IH. destruct (xmlNodeGetContent n) as [t|]; [|done]. split_and!; try done; cbn. intros id [= <-]. by apply (stored_fits ID_SIZE t).
  - destruct (is_named "transaction" n); [|by apply IH]. destruct (elements "operation" (node_children n)) as [|op op_nodes]; [done|].
    destruct (negb (al_ops al)); [done|]. apply IH. pose proof (label_fits (xmlGetProp n "name")) as [Hl1 Hl2].
    split_and!; try done. apply imap_Forall. intros i a. apply xml_payload_fits.
Qed.

(** C16: whatever the document, whatever cannot be allocated: what Level 1 hands on
    fits the structs.  Every text is shorter than its array, no list of a DDL
    request has more than its elements, the audit id and the name of the
    transaction are never empty. *)
Theorem level1_fits `{XmlTree} `{JsonTree} (al : l1_alloc) (buf : list ascii) (len : nat) (r : request) :
  level1_parse al buf len = Ok r -> request_fits r.
Proof.
  unfold level1_parse. destruct (Nat.eqb len 0); [done|]. destruct (level1_detect_format buf len); [done| |].
  - unfold parse_xml. destruct (xmlReadMemory _) as [[root|]|]; try done. destruct (negb _); [done|].
    destruct (envelope_loop _ _ _) as [env|] eqn:E; [|done]. cbn [res_bind]. apply checked_fits. by eapply envelope_loop_fits, E; apply no_envelope_fits.
  - unfold parse_json. destruct (cJSON_ParseWithLength _) as [root|]; [|done].
    set (env := mk_envelope _ _ _ _ _).
    assert (envelope_fits env) as He.
    { split_and!; try done; try (vm_compute; lia); unfold env; cbn.
      - destruct (json_string root "external_audit_id") as [[|c t]|]; try done. intros id [= <-]. split; [done|]. by apply (stored_fits ID_SIZE (c :: t)).
      - destruct (json_string root "session_id") as [t|]; [|done]. intros id [= <-]. by apply (stored_fits ID_SIZE t). }
    destruct (get_item root "transaction") as [tx|]; [|by apply checked_fits]. destruct (is_object tx); [|by apply checked_fits].
    unfold json_transaction. destruct (json_array "operations" tx) as [|op items]; [done|]. destruct (negb (al_ops al)); [done|].
    apply checked_fits. pose proof (label_fits (json_string tx "name")) as [Hl1 Hl2]. destruct He as (H1 & H2 & _).
    split_and!; try done. apply imap_Forall. intros i a. apply json_payload_fits.
Qed.

(** ** What it accepts *)

Section accepts.
Context `{XmlTree} `{JsonTree}.

(** An element with a content - [filled]: with one that is not empty. *)
Definition has_content (n : xml_node) : Prop := is_Some (xmlNodeGetContent n).
Definition filled (n : xml_node) : Prop := exists c t, xmlNodeGetContent n = Some (c :: t).
Definition has_operations (transaction : xml_node) : Prop := elements "operation" (node_children transaction) <> [].

Definition xml_complete (root : xml_node) : Prop :=
  is_named "request" root = true /\ Exists filled (elements "external_audit_id" (node_children root)) /\
  Exists has_content (elements "session_id" (node_children root)) /\
  Forall has_operations (elements "transaction" (node_children root)).

Definition json_complete (root : json) : Prop :=
  (exists c t, json_string root "external_audit_id" = Some (c :: t)) /\ is_Some (json_string root "session_id") /\
  (forall transaction, get_item root "transaction" = Some transaction -> is_object transaction = true ->
     json_array "operations" transaction <> []).

Lemma elements_cons name n nodes :
  elements name (n :: nodes) = if is_named name n then n :: elements name nodes else elements name nodes.
Proof. unfold elements. rewrite filter_cons. by destruct (is_named name n). Qed.

Lemma named_once name name' n : String.eqb name name' = false -> is_named name n = true -> is_named name' n = false.
Proof.
  unfold is_named. intros Hne ->%bool_decide_eq_true. apply bool_decide_eq_false_2. intros [= E].
  apply (f_equal String.string_of_list_ascii) in E. unfold str in E. rewrite !String.string_of_list_ascii_of_string in E. subst.
  by rewrite String.eqb_refl in Hne.
Qed.

(** The loop ends well when every transaction has an operation, and then it
    has seen the ids that are there. *)
Lemma envelope_loop_spec al nodes : al_ops al = true -> forall env,
  match envelope_loop al nodes env with
  | Ok env' =>
      Forall has_operations (elements "transaction" nodes) /\
      (is_Some (have_audit_id env') <-> is_Some (have_audit_id env) \/ Exists filled (elements "external_audit_id" nodes)) /\
      (is_Some (have_session_id env') <-> is_Some (have_session_id env) \/ Exists has_content (elements "session_id" nodes))
  | Err st => st = no_operation /\ ~ Forall has_operations (elements "transaction" nodes)
  end.
Proof.
  intros Hal. induction nodes as [|n nodes IH]; intros env.
  { cbn. split; [constructor|]. by split; split; [left|intros [?|Hx%Exists_nil]|left|intros [?|Hx%Exists_nil]]. }
  cbn [envelope_loop]. rewrite !elements_cons.
  destruct (is_named "external_audit_id" n) eqn:E1.
  { rewrite (named_once "external_audit_id" "session_id" n eq_refl E1), (named_once "external_audit_id" "transaction" n eq_refl E1).
    match goal with |- context [envelope_loop al nodes ?e] => set (env1 := e); specialize (IH env1) end.
    destruct (envelope_loop al nodes env1) as [env'|st]; [|exact IH]. destruct IH as (H1 & H2 & H3). split; [done|].
    rewrite Exists_cons, H2, H3. unfold env1. destruct (xmlNodeGetContent n) as [[|c t]|] eqn:Ec.
    1, 3: assert (~ filled n) by (intros (? & ? & Hc); rewrite Ec in Hc; discriminate Hc); tauto.
    assert (filled n) by (by eexists _, _). cbn. pose proof (mk_is_Some (Some (stored ID_SIZE (c :: t))) _ eq_refl). tauto. }
  destruct (is_named "session_id" n) eqn:E2.
  { rewrite (named_once "session_id" "transaction" n eq_refl E2).
    match goal with |- context [envelope_loop al nodes ?e] => set (env1 := e); specialize (IH env1) end.
    destruct (envelope_loop al nodes env1) as [env'|st]; [|exact IH]. destruct IH as (H1 & H2 & H3). split; [done|].
    rewrite Exists_cons, H2, H3. unfold env1. destruct (xmlNodeGetContent n) as [t|] eqn:Ec.
    2: assert (~ has_content n) by (intros [? Hc]; rewrite Ec in Hc; discriminate Hc); tauto.
    assert (has_content n) by (by eexists). cbn. pose proof (mk_is_Some (Some (stored ID_SIZE t)) _ eq_refl). tauto. }
  destruct (is_named "transaction" n) eqn:E3; [|apply IH].
  pose proof (Forall_cons_iff has_operations n (elements "transaction" nodes)) as Hf.
  destruct (elements "operation" (node_children n)) as [|op op_nodes] eqn:Eo.
  { split; [done|]. intros Hall. by apply Hf in Hall as [Hall _]. }
  assert (has_operations n) by (unfold has_operations; by rewrite Eo). rewrite Hal. cbn [negb].
  match goal with |- context [envelope_loop al nodes ?e] => set (env1 := e); specialize (IH env1) end.
  destruct (envelope_loop al nodes env1) as [env'|st]; [|tauto]. destruct IH as (H1' & H2 & H3). split; [tauto|]. exact (conj H2 H3).
Qed.

Lemma checked_Ok fmt env : (exists r, checked fmt env = Ok r) <-> is_Some (have_audit_id env) /\ is_Some (have_session_id env).
Proof.
  unfold checked. destruct (have_audit_id env) as [a|], (have_session_id env) as [s|].
  - by split; [split; eexists|eexists].
  - by split; [intros [? [=]]|intros [_ [? [=]]]].
  - by split; [intros [? [=]]|intros [[? [=]] _]].
  - by split; [intros [? [=]]|intros [[? [=]] _]].
Qed.

Lemma xml_accepts al buf : al_ops al = true ->
  (exists r, parse_xml al buf = Ok r) <-> exists root, xmlReadMemory buf = Some (Some root) /\ xml_complete root.
Proof.
  intros Hal. unfold parse_xml, xml_complete.
  destruct (xmlReadMemory buf) as [[root|]|]; try (by split; [intros [? [=]]|intros (? & [=] & _)]).
  transitivity (xml_complete root); [|by split; [intros Hc; by exists root|intros (? & [= <-] & Hc)]]. unfold xml_complete.
  destruct (is_named "request" root); cbn [negb]; [|by split; [intros [? [=]]|intros [[=] _]]].
  pose proof (envelope_loop_spec al (node_children root) Hal no_envelope) as Hs.
  destruct (envelope_loop al (node_children root) no_envelope) as [env|st]; cbn [res_bind].
  - rewrite checked_Ok. destruct Hs as (H1 & -> & ->). cbn. split; [|tauto]. intros [[[? [=]]|?] [[? [=]]|?]]. tauto.
  - destruct Hs as [_ Hs]. split; [by intros [? [=]]|tauto].
Qed.

Lemma json_accepts al buf : al_ops al = true ->
  (exists r, parse_json al buf = Ok r) <-> exists root, cJSON_ParseWithLength buf = Some root /\ json_complete root.
Proof.
  intros Hal. unfold parse_json.
  destruct (cJSON_ParseWithLength buf) as [root|]; [|by split; [intros [? [=]]|intros (? & [=] & _)]].
  transitivity (json_complete root); [|by split; [intros Hc; by exists root|intros (? & [= <-] & Hc)]]. unfold json_complete.
  set (env := mk_envelope _ _ _ _ _).
  assert ((exists c t, json_string root "external_audit_id" = Some (c :: t)) <-> is_Some (have_audit_id env)) as ->.
  { unfold env. cbn. destruct (json_string root "external_audit_id") as [[|c t]|].
    - by split; [intros (? & ? & [=])|intros [? [=]]].
    - by split; [eexists|eexists _, _].
    - by split; [intros (? & ? & [=])|intros [? [=]]]. }
  assert (is_Some (json_string root "session_id") <-> is_Some (have_session_id env)) as ->.
  { unfold env. cbn. destruct (json_string root "session_id"); split; intros [? [=]]; by eexists. }
  destruct (get_item root "transaction") as [tx|]; [|cbn [res_bind]; rewrite checked_Ok; by split; [intros [? ?]|intros (? & ? & _)]].
  destruct (is_object tx) eqn:Eobj.
  2: { cbn [res_bind]. rewrite checked_Ok. split; [|tauto]. intros [? ?]. split_and!; [done|done|]. intros ? [= <-]. by rewrite Eobj. }
  unfold json_transaction. destruct (json_array "operations" tx) as [|op items] eqn:Eo.
  - cbn [res_bind]. split; [by intros [? [=]]|]. intros (_ & _ & Hx). by apply (Hx tx) in Eobj.
  - rewrite Hal. cbn [negb res_bind]. rewrite checked_Ok. cbn. split; [|tauto]. intros [Ha Hb]. split_and!; [done|done|].
    intros ? [= <-] _. by rewrite Eo.
Qed.
End accepts.

(** Every answer but a request. *)
Definition level1_refusals : list operation_status :=
  [empty_input; unknown_format; malformed "XML not well-formed."; malformed "missing <request> root."; malformed "JSON not well-formed.";
   no_operation; alloc_failure; no_audit_id; no_session_id].

Ltac refusal := intros [= <-]; unfold level1_refusals; cbn [In]; tauto.

Lemma checked_refusal fmt env st : checked fmt env = Err st -> In st level1_refusals.
Proof.
  unfold checked. destruct (have_audit_id env); [destruct (have_session_id env); [done|]|]; refusal.
Qed.

Lemma envelope_loop_refusal `{XmlTree} al nodes : forall env st, envelope_loop al nodes env = Err st -> In st level1_refusals.
Proof.
  induction nodes as [|n nodes IH]; intros env st; cbn [envelope_loop]; [done|].
  destruct (is_named _ _); [apply IH|]. destruct (is_named _ _); [apply IH|]. destruct (is_named _ _); [|apply IH].
  destruct (elements _ _); [refusal|].
  destruct (negb _); [refusal|]. apply IH.
Qed.

(** C17: Level 1 accepts exactly the complete requests.  As long as the
    operations can be allocated, a text becomes a request if and only if its
    first character names a format, the reader of that format reads it, the
    root is right, the audit id is there and not empty, the session id is
    there, and every transaction that is there has an operation.  There need
    not be one: a request without a transaction is accepted with nothing to
    do.  Every refusal is one of nine, each with its code and its text, none
    of them cut. *)
Theorem level1_accepts `{XmlTree} `{JsonTree} (al : l1_alloc) (buf : list ascii) (len : nat) :
  (al_ops al = true ->
   (exists r, level1_parse al buf len = Ok r) <->
   match level1_detect_format buf len with
   | INPUT_FORMAT_XML => exists root, xmlReadMemory (take len buf) = Some (Some root) /\ xml_complete root
   | INPUT_FORMAT_JSON => exists root, cJSON_ParseWithLength (take len buf) = Some root /\ json_complete root
   | INPUT_FORMAT_UNKNOWN => False
   end) /\
  (forall st, level1_parse al buf len = Err st ->
   In st level1_refusals /\ status_code st < 0 /\ (length (st_error_code st) < 63)%nat /\ (length (st_error_text st) < 255)%nat).
Proof.
  split.
  - intros Hal. unfold level1_parse. destruct len as [|len]; [cbn; by split; [intros [? [=]]|]|]. cbn [Nat.eqb].
    destruct (level1_detect_format buf (S len)); [by split; [intros [? [=]]|]|by apply xml_accepts|by apply json_accepts].
  - intros st Hst. assert (In st level1_refusals) as Hin.
    { revert Hst. unfold level1_parse. destruct (Nat.eqb len 0); [intros [= <-]; by left|].
      destruct (level1_detect_format buf len); [intros [= <-]; by right; left| |].
      - unfold parse_xml. destruct (xmlReadMemory _) as [[root|]|]; try (refusal).
        destruct (negb _); [refusal|].
        destruct (envelope_loop _ _ _) as [env|st'] eqn:E; cbn [res_bind]; [apply checked_refusal|]. intros [= <-]. by eapply envelope_loop_refusal.
      - unfold parse_json. destruct (cJSON_ParseWithLength _) as [root|]; [|refusal].
        destruct (get_item root "transaction") as [tx|]; [|apply checked_refusal]. destruct (is_object tx); [|apply checked_refusal].
        unfold json_transaction. destruct (json_array _ _); [refusal|].
        destruct (negb _); [refusal|apply checked_refusal]. }
    split; [done|]. revert st Hin Hst.
    assert (Forall (fun st => status_code st < 0 /\ (length (st_error_code st) < 63)%nat /\ (length (st_error_text st) < 255)%nat) level1_refusals) as Hall
      by (repeat constructor; vm_compute; lia).
    intros st Hin _. exact (proj1 (List.Forall_forall _ _) Hall st Hin).
Qed.

(** ** Documents to try it on *)

(** The first of this name. *)
Definition member {A} (name : string) (l : list (string * A)) : option A :=
  snd <$> List.find (fun '(n, _) => String.eqb n name) l.

(** An element with a text, an element with elements. *)
#[warnings="-register-all"]
Inductive xml_tree := Leaf (name : string) (t : list ascii) | Branch (name : string) (attrs : list (string * list ascii)) (nodes : list xml_tree).

(** The texts inside, one after the other. *)
Fixpoint text_inside (n : xml_tree) : list ascii :=
  match n with Leaf _ t => t | Branch _ _ nodes => concat (map text_inside nodes) end.

(** A reader that finds [doc] in every text. *)
Definition tree_reader (doc : option xml_tree) : XmlTree := {|
  xml_node := xml_tree;
  xmlReadMemory _ := option_map Some doc;
  node_children n := match n with Leaf _ _ => [] | Branch _ _ nodes => nodes end;
  element_name n := match n with Leaf name _ | Branch name _ _ => Some (str name) end;
  xmlNodeGetContent n := Some (text_inside n);
  xmlGetProp n k := match n with Leaf _ _ => None | Branch _ attrs _ => member k attrs end |}.

#[warnings="-register-all"]
Inductive json_tree := JStr (t : list ascii) | JNum (n : Z) | JBool (b : bool) | JArr (l : list json_tree) | JObj (l : list (string * json_tree)).

Definition json_reader (doc : option json_tree) : JsonTree := {|
  json := json_tree;
  cJSON_ParseWithLength _ := doc;
  get_item j name := match j with JObj l => member name l | _ => None end;
  string_value j := match j with JStr t => Some t | _ => None end;
  number_value j := match j with JNum n => Some n | _ => None end;
  bool_value j := match j with JBool b => Some b | _ => None end;
  array_items j := match j with JArr l => Some l | _ => None end;
  is_object j := match j with JObj _ => true | _ => false end |}.

Definition demo_alloc : l1_alloc := mk_l1_alloc true (fun _ => mk_op_alloc true true true (fun _ => true) (fun _ _ => true)).

Definition read_xml (doc : xml_tree) (text : list ascii) : res operation_status request :=
  @level1_parse (tree_reader (Some doc)) (json_reader None) demo_alloc text (length text).
Definition read_json (doc : json_tree) (text : list ascii) : res operation_status request :=
  @level1_parse (tree_reader None) (json_reader (Some doc)) demo_alloc text (length text).

(** The ids, and nothing to do. *)
Definition idle_xml : xml_tree := Branch "request" [] [Leaf "external_audit_id" (str "A"); Leaf "session_id" (str "-")].
(** A text that is too long for its array. *)
Definition wide_json : json_tree :=
  JObj [("external_audit_id"%string, JStr (replicate 100 "A"%char)); ("session_id"%string, JStr (str "-"));
        ("transaction"%string, JObj [("operations"%string, JArr [JObj [("type"%string, JStr (str "authenticate"));
           ("username"%string, JStr (replicate 200 "u"%char))]])])].

Lemma level1_accepts_witness :
  (exists r, read_xml idle_xml (str "<request/>") = Ok r) /\ ~ (exists r, read_xml (Leaf "request" []) (str "<request/>") = Ok r).
Proof.
  split.
  - apply (@level1_accepts (tree_reader (Some idle_xml)) (json_reader None) demo_alloc); [reflexivity|]. exists idle_xml. split; [reflexivity|].
    split; [reflexivity|]. split; [|split]; repeat constructor; [exists "A"%char, []; reflexivity|exists (str "-"); reflexivity].
  - intros Hr. apply (@level1_accepts (tree_reader (Some (Leaf "request" []))) (json_reader None) demo_alloc) in Hr; [|reflexivity].
    destruct Hr as (root & [= <-] & _ & Ha & _). inversion Ha.
Defined.

Lemma level1_fits_witness :
  exists r, read_json wide_json (str "{}") = Ok r /\ request_fits r /\ (length (external_audit_id r) = 63)%nat.
Proof.
  eexists. split; [vm_compute; reflexivity|]. split; [|reflexivity].
  apply (@level1_fits (tree_reader None) (json_reader (Some wide_json)) demo_alloc (str "{}") 2). vm_compute. reflexivity.
Defined.
