(* ===== verification/Level1Formats.v ===== *)
(** * The two formats of a request

    How a client writes a request as an XML or a JSON document, and that
    Level 1 (Level1Parser.v) reads it back, as the same request from either.
    Documents are built with the operations of [XmlLaws] and [JsonLaws], which
    say what a reader finds in what was built. *)

From Stdlib Require Import Ascii String ZArith Lia Bool.
From stdpp Require Import base list strings numbers.
From S2P Require Import Prelude Text DdlModules Requests Level1Parser.

#[local] Open Scope Z_scope.

(** ** Building documents *)

Lemma member_cons {A} k name (a : A) l : member k ((name, a) :: l) = if String.eqb name k then Some a else member k l.
Proof. unfold member. cbn [List.find]. by destruct (String.eqb name k). Qed.

(** An element with a text, an element with attributes and elements. *)
Class XmlLaws `{XmlTree} := {
  leaf : string -> list ascii -> xml_node;
  branch : string -> list (string * list ascii) -> list xml_node -> xml_node;
  leaf_name name t : element_name (leaf name t) = Some (str name);
  leaf_content name t : xmlNodeGetContent (leaf name t) = Some t;
  branch_name name attrs nodes : element_name (branch name attrs nodes) = Some (str name);
  branch_children name attrs nodes : node_children (branch name attrs nodes) = nodes;
  branch_prop name attrs nodes k : xmlGetProp (branch name attrs nodes) k = member k attrs;
}.

Class JsonLaws `{JsonTree} := {
  json_str : list ascii -> json;
  json_num : Z -> json;
  json_arr : list json -> json;
  json_obj : list (string * json) -> json;
  str_value t : string_value (json_str t) = Some t;
  num_value n : - 2 ^ 31 <= n < 2 ^ 31 -> number_value (json_num n) = Some n;
  arr_items l : array_items (json_arr l) = Some l;
  obj_is_object l : is_object (json_obj l) = true;
  obj_item l name : get_item (json_obj l) name = member name l;
}.

Definition type_name (t : operation_type) : string :=
  match t with
  | OP_UNKNOWN => "-"
  | OP_GET_TEMPLATE => "GET_TEMPLATE"
  | OP_SELECT => "SELECT"
  | OP_INSERT => "INSERT"
  | OP_UPDATE => "UPDATE"
  | OP_DELETE => "DELETE"
  | OP_EXECUTE_PROCEDURE => "EXECUTE_PROCEDURE"
  | OP_CREATE_SESSION => "CREATE_SESSION"
  | OP_END_SESSION => "END_SESSION"
  | OP_AUTHENTICATE => "AUTHENTICATE"
  | OP_CHECK_PERMISSION => "CHECK_PERMISSION"
  | OP_CREATE_USER => "CREATE_USER"
  | OP_GRANT => "GRANT"
  | OP_CREATE_TABLE => "CREATE_TABLE"
  | OP_DROP_TABLE => "DROP_TABLE"
  | OP_CREATE_VIEW => "CREATE_VIEW"
  | OP_CREATE_PROCEDURE => "CREATE_PROCEDURE"
  end.

Definition direction_name (d : param_direction) : string :=
  match d with PARAM_DIR_IN => "IN" | PARAM_DIR_OUT => "OUT" | PARAM_DIR_IN_OUT => "IN_OUT" end.

Lemma type_name_maps t : map_operation_type (Some (str (type_name t))) = t.
Proof. destruct t; vm_compute; reflexivity. Qed.

Lemma direction_name_maps d : parse_direction_l1 (str (direction_name d)) = d.
Proof. destruct d; vm_compute; reflexivity. Qed.

Definition Z_of_bool (b : bool) : Z := if b then 1 else 0.

(** ** A request as XML *)

Section to_xml.
Context `{XmlLaws}.

Definition number_leaf (name : string) (n : Z) : xml_node := leaf name (print_int n).
Definition flag_leaf (name : string) (b : bool) : xml_node := number_leaf name (Z_of_bool b).
Definition name_leaves (outer inner : string) (l : list (list ascii)) : xml_node := branch outer [] (map (leaf inner) l).

Definition field_to_xml (fv : field_value) : xml_node :=
  branch "field" [] [leaf "field_name" (fv_name fv); leaf "value" (field_value_get fv); leaf "client_date_format" (fv_date_format fv)].
Definition key_to_xml (k : where_key) : xml_node :=
  branch "key" [] [leaf "field_name" (wk_name k); leaf "key_value" (key_value k); leaf "client_date_format" (wk_date_format k)].
Definition row_to_xml (row : insert_row) : xml_node := branch "row" [] (map field_to_xml row).
Definition param_to_xml (p : procedure_param) : xml_node :=
  branch "parameter" [] [leaf "param_name" (pp_name p); leaf "param_type" (pp_type p);
    leaf "param_direction" (str (direction_name (direction p))); leaf "param_value" (pp_value p)].
Definition column_to_xml (c : column_def) : xml_node :=
  branch "column" [] [leaf "name" (col_name c); leaf "data_type" (data_type c); number_leaf "length" (col_length c);
    number_leaf "precision" (precision c); number_leaf "scale" (scale c); flag_leaf "nullable" (nullable c);
    leaf "default_value" (default_value c)].
Definition ddl_param_to_xml (p : ddl_procedure_param) : xml_node :=
  branch "parameter" [] [leaf "name" (param_name p); leaf "data_type" (param_data_type p); leaf "mode" (mode p);
    leaf "default_value" (param_default p)].

Definition payload_to_xml (p : operation_payload) : list xml_node :=
  match p with
  | Select (Some q) =>
      [leaf "sql" (sql q); flag_leaf "execute_async" (execute_async q); leaf "async_call_back_url" (async_call_back_url q)]
  | Insert (Some q) => leaf "table_name" (ins_table q) :: leaf "owner" (ins_owner q) :: map row_to_xml (ins_rows q)
  | Update (Some q) =>
      [leaf "table_name" (upd_table q); leaf "owner" (upd_owner q); branch "where" [] (map key_to_xml (upd_keys q));
       branch "set" [] (map field_to_xml (upd_fields q))]
  | Delete (Some q) =>
      [leaf "table_name" (del_table q); leaf "owner" (del_owner q); branch "where" [] (map key_to_xml (del_keys q))]
  | ExecuteProcedure (Some q) =>
      [leaf "procedure_name" (proc_name q); leaf "owner" (proc_owner q); branch "parameters" [] (map param_to_xml (proc_params q))]
  | Authenticate (Some q) => [leaf "username" (auth_username q); leaf "credential" (credential q)]
  | CheckPermission (Some q) => [leaf "permission_code" (permission_code q)]
  | CreateUser (Some q) =>
      [leaf "username" (username q); leaf "identified_by" (identified_by q); leaf "default_tablespace" (default_tablespace q);
       leaf "temp_tablespace" (temp_tablespace q); leaf "quota" (quota q); leaf "quota_tablespace" (quota_tablespace q);
       leaf "profile" (profile q); name_leaves "roles" "role" (roles q)]
  | Grant (Some q) =>
      [leaf "grantee" (grantee q); leaf "object_type" (object_type q); leaf "object_name" (object_name q); leaf "owner" (grant_owner q);
       flag_leaf "with_grant_option" (with_grant_option q); name_leaves "privileges" "privilege" (privileges q)]
  | CreateTable (Some q) =>
      [leaf "table_name" (table_name q); leaf "owner" (owner q); branch "columns" [] (map column_to_xml (columns q));
       name_leaves "primary_key" "column" (primary_key_columns q)]
  | DropTable (Some q) =>
      [leaf "table_name" (drop_table_name q); leaf "owner" (drop_owner q); flag_leaf "cascade_constraints" (cascade_constraints q);
       flag_leaf "purge" (purge q); flag_leaf "confirm" (confirm q)]
  | CreateView (Some q) =>
      [leaf "view_name" (view_name q); leaf "owner" (view_owner q); flag_leaf "replace" (view_replace q); flag_leaf "force" (force q);
       leaf "query" (query q); name_leaves "columns" "column" (view_columns q)]
  | CreateProcedure (Some q) =>
      [leaf "procedure_name" (procedure_name q); leaf "owner" (procedure_owner q); flag_leaf "replace" (procedure_replace q);
       leaf "body" (body q); branch "parameters" [] (map ddl_param_to_xml (parameters q))]
  | _ => []
  end.

Definition operation_to_xml (op : operation) : xml_node :=
  branch "operation" [("type"%string, str (type_name (type_of (op_payload op))))] (payload_to_xml (op_payload op)).

Definition request_to_xml (r : request) : xml_node :=
  branch "request" [("version"%string, str "1.0")]
    [leaf "external_audit_id" (external_audit_id r); leaf "session_id" (req_session_id r);
     branch "transaction" [("required"%string, print_int (Z_of_bool (transaction_required r))); ("name"%string, transaction_name r)]
       (map operation_to_xml (operations r))].
End to_xml.

(** ** A request as JSON *)

Section to_json.
Context `{JsonLaws}.

Definition text_member (name : string) (t : list ascii) : string * json := (name, json_str t).
Definition number_member (name : string) (n : Z) : string * json := (name, json_num n).
Definition flag_member (name : string) (b : bool) : string * json := number_member name (Z_of_bool b).
Definition array_member {A} (name : string) (f : A -> json) (l : list A) : string * json := (name, json_arr (map f l)).

Definition field_to_json (fv : field_value) : json :=
  json_obj [text_member "field_name" (fv_name fv); text_member "value" (field_value_get fv);
            text_member "client_date_format" (fv_date_format fv)].
Definition key_to_json (k : where_key) : json :=
  json_obj [text_member "field_name" (wk_name k); text_member "key_value" (key_value k);
            text_member "client_date_format" (wk_date_format k)].
Definition row_to_json (row : insert_row) : json := json_obj [array_member "fields" field_to_json row].
Definition param_to_json (p : procedure_param) : json :=
  json_obj [text_member "param_name" (pp_name p); text_member "param_type" (pp_type p);
            text_member "param_direction" (str (direction_name (direction p))); text_member "param_value" (pp_value p)].
Definition column_to_json (c : column_def) : json :=
  json_obj [text_member "name" (col_name c); text_member "data_type" (data_type c); number_member "length" (col_length c);
            number_member "precision" (precision c); number_member "scale" (scale c); flag_member "nullable" (nullable c);
            text_member "default_value" (default_value c)].
Definition ddl_param_to_json (p : ddl_procedure_param) : json :=
  json_obj [text_member "name" (param_name p); text_member "data_type" (param_data_type p); text_member "mode" (mode p);
            text_member "default_value" (param_default p)].

Definition payload_to_json (p : operation_payload) : list (string * json) :=
  match p with
  | Select (Some q) =>
      [text_member "sql" (sql q); flag_member "execute_async" (execute_async q); text_member "async_call_back_url" (async_call_back_url q)]
  | Insert (Some q) =>
      [text_member "table_name" (ins_table q); text_member "owner" (ins_owner q); array_member "rows" row_to_json (ins_rows q)]
  | Update (Some q) =>
      [text_member "table_name" (upd_table q); text_member "owner" (upd_owner q); array_member "where" key_to_json (upd_keys q);
       array_member "set" field_to_json (upd_fields q)]
  | Delete (Some q) =>
      [text_member "table_name" (del_table q); text_member "owner" (del_owner q); array_member "where" key_to_json (del_keys q)]
  | ExecuteProcedure (Some q) =>
      [text_member "procedure_name" (proc_name q); text_member "owner" (proc_owner q);
       array_member "parameters" param_to_json (proc_params q)]
  | Authenticate (Some q) => [text_member "username" (auth_username q); text_member "credential" (credential q)]
  | CheckPermission (Some q) => [text_member "permission_code" (permission_code q)]
  | CreateUser (Some q) =>
      [text_member "username" (username q); text_member "identified_by" (identified_by q);
       text_member "default_tablespace" (default_tablespace q); text_member "temp_tablespace" (temp_tablespace q);
       text_member "quota" (quota q); text_member "quota_tablespace" (quota_tablespace q); text_member "profile" (profile q);
       array_member "roles" json_str (roles q)]
  | Grant (Some q) =>
      [text_member "grantee" (grantee q); text_member "object_type" (object_type q); text_member "object_name" (object_name q);
       text_member "owner" (grant_owner q); flag_member "with_grant_option" (with_grant_option q);
       array_member "privileges" json_str (privileges q)]
  | CreateTable (Some q) =>
      [text_member "table_name" (table_name q); text_member "owner" (owner q); array_member "columns" column_to_json (columns q);
       array_member "primary_key" json_str (primary_key_columns q)]
  | DropTable (Some q) =>
      [text_member "table_name" (drop_table_name q); text_member "owner" (drop_owner q);
       flag_member "cascade_constraints" (cascade_constraints q); flag_member "purge" (purge q); flag_member "confirm" (confirm q)]
  | CreateView (Some q) =>
      [text_member "view_name" (view_name q); text_member "owner" (view_owner q); flag_member "replace" (view_replace q);
       flag_member "force" (force q); text_member "query" (query q); array_member "columns" json_str (view_columns q)]
  | CreateProcedure (Some q) =>
      [text_member "procedure_name" (procedure_name q); text_member "owner" (procedure_owner q);
       flag_member "replace" (procedure_replace q); text_member "body" (body q);
       array_member "parameters" ddl_param_to_json (parameters q)]
  | _ => []
  end.

Definition operation_to_json (op : operation) : json :=
  json_obj (text_member "type" (str (type_name (type_of (op_payload op)))) :: payload_to_json (op_payload op)).

Definition request_to_json (r : request) : json :=
  json_obj [text_member "external_audit_id" (external_audit_id r); text_member "session_id" (req_session_id r);
            ("transaction"%string,
             json_obj [number_member "required" (Z_of_bool (transaction_required r)); text_member "name" (transaction_name r);
                       array_member "operations" operation_to_json (operations r)])].
End to_json.

(** ** What can be written *)

(** A text that fits and has no blanks around it. *)
Definition plain (size : nat) (s : list ascii) : Prop := fits size s /\ trim_inplace s = s.
Definition plain_name (size : nat) (s : list ascii) : Prop := plain size s /\ s <> [].
Definition is_int (n : Z) : Prop := - 2 ^ 31 <= n < 2 ^ 31.

(** A value, with its overflow when it is long. *)
Definition value_plain (fv : field_value) : Prop :=
  plain NAME_SIZE (fv_name fv) /\ plain DATE_FORMAT_SIZE (fv_date_format fv) /\ trim_inplace (field_value_get fv) = field_value_get fv /\
  set_field_value true (field_value_get fv) = (fv_value fv, large_value fv).
Definition key_plain (k : where_key) : Prop :=
  plain NAME_SIZE (wk_name k) /\ plain VALUE_SIZE (key_value k) /\ plain DATE_FORMAT_SIZE (wk_date_format k).
Definition param_plain (p : procedure_param) : Prop :=
  plain NAME_SIZE (pp_name p) /\ plain PARAM_TYPE_SIZE (pp_type p) /\ plain VALUE_SIZE (pp_value p).
Definition column_plain (c : column_def) : Prop :=
  plain_name TABLE_IDENTIFIER_LEN (col_name c) /\ plain COLUMN_DATA_TYPE_LEN (data_type c) /\ plain COLUMN_DEFAULT_LEN (default_value c) /\
  is_int (col_length c) /\ is_int (precision c) /\ is_int (scale c).
Definition ddl_param_plain (p : ddl_procedure_param) : Prop :=
  plain_name PROCEDURE_IDENTIFIER_LEN (param_name p) /\ plain PARAMETER_DATA_TYPE_LEN (param_data_type p) /\
  plain PARAMETER_MODE_LEN (mode p) /\ plain PARAMETER_DEFAULT_LEN (param_default p).

Definition payload_plain (p : operation_payload) : Prop :=
  match p with
  | Select (Some q) =>
      plain SQL_SIZE (sql q) /\ plain URL_SIZE (async_call_back_url q) /\ max_rows q = 0 /\ fetch_batch_size q = 0 /\
      include_column_names q = true
  | Insert (Some q) => plain NAME_SIZE (ins_table q) /\ plain NAME_SIZE (ins_owner q) /\ Forall (Forall value_plain) (ins_rows q)
  | Update (Some q) =>
      plain NAME_SIZE (upd_table q) /\ plain NAME_SIZE (upd_owner q) /\ Forall key_plain (upd_keys q) /\ Forall value_plain (upd_fields q)
  | Delete (Some q) => plain NAME_SIZE (del_table q) /\ plain NAME_SIZE (del_owner q) /\ Forall key_plain (del_keys q)
  | ExecuteProcedure (Some q) => plain NAME_SIZE (proc_name q) /\ plain NAME_SIZE (proc_owner q) /\ Forall param_plain (proc_params q)
  | Authenticate (Some q) => plain NAME_SIZE (auth_username q) /\ plain CREDENTIAL_SIZE (credential q)
  | CheckPermission (Some q) => plain PERMISSION_SIZE (permission_code q)
  | CreateUser (Some q) =>
      plain DDL_IDENTIFIER_LEN (username q) /\ plain DDL_IDENTIFIER_LEN (identified_by q) /\
      plain DDL_IDENTIFIER_LEN (default_tablespace q) /\ plain DDL_IDENTIFIER_LEN (temp_tablespace q) /\ plain QUOTA_SIZE (quota q) /\
      plain DDL_IDENTIFIER_LEN (quota_tablespace q) /\ plain DDL_IDENTIFIER_LEN (profile q) /\
      list_fits MAX_CREATE_USER_ROLES (plain_name DDL_IDENTIFIER_LEN) (roles q) /\ (quota q = [] \/ quota_tablespace q <> [])
  | Grant (Some q) =>
      plain GRANT_IDENTIFIER_LEN (grantee q) /\ plain GRANT_OBJECT_TYPE_LEN (object_type q) /\ plain GRANT_IDENTIFIER_LEN (object_name q) /\
      plain GRANT_IDENTIFIER_LEN (grant_owner q) /\ list_fits MAX_GRANT_PRIVILEGES (plain_name GRANT_PRIVILEGE_LEN) (privileges q)
  | CreateTable (Some q) =>
      plain TABLE_IDENTIFIER_LEN (table_name q) /\ plain TABLE_IDENTIFIER_LEN (owner q) /\
      list_fits DDL_MAX_TABLE_COLUMNS column_plain (columns q) /\
      list_fits MAX_PRIMARY_KEY_COLUMNS (plain_name TABLE_IDENTIFIER_LEN) (primary_key_columns q)
  | DropTable (Some q) => plain DROP_TABLE_IDENTIFIER_LEN (drop_table_name q) /\ plain DROP_TABLE_IDENTIFIER_LEN (drop_owner q)
  | CreateView (Some q) =>
      plain VIEW_IDENTIFIER_LEN (view_name q) /\ plain VIEW_IDENTIFIER_LEN (view_owner q) /\ plain VIEW_QUERY_LEN (query q) /\
      list_fits MAX_VIEW_COLUMNS (plain_name VIEW_IDENTIFIER_LEN) (view_columns q)
  | CreateProcedure (Some q) =>
      plain PROCEDURE_IDENTIFIER_LEN (procedure_name q) /\ plain PROCEDURE_IDENTIFIER_LEN (procedure_owner q) /\
      plain PROCEDURE_BODY_LEN (body q) /\ list_fits MAX_PROCEDURE_PARAMETERS ddl_param_plain (parameters q)
  | Select None | Insert None | Update None | Delete None | ExecuteProcedure None | Authenticate None | CheckPermission None
  | CreateUser None | Grant None | CreateTable None | DropTable None | CreateView None | CreateProcedure None => False
  | GetTemplate | CreateSession | EndSession | Unknown => True
  end.

(** Not yet looked at by Level 2. *)
Definition operation_plain (op : operation) : Prop := payload_plain (op_payload op) /\ validation_status op = mk_status 0 [] [].

Definition request_plain (r : request) : Prop :=
  external_audit_id r <> [] /\ fits ID_SIZE (external_audit_id r) /\ fits ID_SIZE (req_session_id r) /\
  transaction_name r <> [] /\ fits NAME_SIZE (transaction_name r) /\ operations r <> [] /\ Forall operation_plain (operations r).

Definition in_format (fmt : input_format) (r : request) : request :=
  mk_request (external_audit_id r) (req_session_id r) fmt (transaction_required r) (transaction_name r) (operations r).

(** Every allocation succeeds. *)
Definition op_plenty (al : op_alloc) : Prop :=
  al_req al = true /\ al_first al = true /\ al_second al = true /\ (forall r, al_row al r = true) /\ (forall r f, al_value al r f = true).
Definition plenty (al : l1_alloc) : Prop := al_ops al = true /\ forall i, op_plenty (al_op al i).

(** ** Reading the parts *)

Lemma fits_stored size s : fits size s -> stored size s = s.
Proof. intros H. unfold stored. apply take_ge. unfold fits in H. lia. Qed.

Lemma plain_trimmed size s : plain size s -> trimmed size s = s.
Proof. intros [H1 H2]. unfold trimmed. by rewrite fits_stored. Qed.

Lemma plain_stored size s : plain size s -> stored size s = s.
Proof. intros [H _]. by apply fits_stored. Qed.

Lemma print_int_reads n : is_int n -> atoi (print_int n) = n.
Proof.
  intros Hn. unfold is_int in Hn. unfold atoi. rewrite atol_print_int by lia. unfold i32.
  destruct (Z.ltb_spec (n mod 2 ^ 32) (2 ^ 31)); Z.div_mod_to_equations; lia.
Qed.

Lemma bool_is_int b : is_int (Z_of_bool b).
Proof. destruct b; unfold is_int, Z_of_bool; lia. Qed.

Lemma bool_reads b : negb (Z_of_bool b =? 0) = b.
Proof. by destruct b. Qed.

Lemma calloc_true {A} (l : list A) : calloc true l = Some l.
Proof. by destruct l. Qed.

Lemma direction_fits d : trimmed DIRECTION_SIZE (str (direction_name d)) = str (direction_name d).
Proof. by destruct d. Qed.

Lemma imap_reads {A B} (P : A -> Prop) (g : nat -> B -> A) (f : A -> B) l :
  (forall i a, P a -> g i (f a) = a) -> Forall P l -> imap g (map f l) = l.
Proof.
  intros Hg Hl. revert g Hg. induction Hl as [|a l Ha Hl IH]; intros g Hg; [done|]. cbn [map]. rewrite imap_cons, Hg by done. f_equal.
  apply IH. intros i b Hb. by apply Hg.
Qed.

Lemma map_reads {A B} (P : A -> Prop) (g : B -> A) (f : A -> B) l : (forall a, P a -> g (f a) = a) -> Forall P l -> map g (map f l) = l.
Proof. intros Hg Hl. induction Hl as [|a l Ha Hl IH]; [done|]. cbn [map]. by rewrite Hg, IH. Qed.

Lemma keep_reads {N A} (P : A -> Prop) room (item : N -> option A) (f : A -> N) l :
  (forall a, P a -> item (f a) = Some a) -> list_fits room P l -> foldl (keep room item) [] (map f l) = l.
Proof.
  intros Hi [Hroom Hl]. change l with ([] ++ l) at 2. change (length l <= room)%nat with (length ([] : list A) + length l <= room)%nat in Hroom.
  revert Hroom. generalize ([] : list A) as kept. induction Hl as [|a l Ha Hl IH]; intros kept Hroom; [by rewrite app_nil_r|].
  cbn [map foldl]. cbn [length] in Hroom. unfold keep at 2. rewrite (proj2 (Nat.leb_gt _ _)) by lia. rewrite Hi by done. rewrite IH, <- app_assoc; [done|].
  rewrite length_app. cbn. lia.
Qed.

(** ** From XML *)

Section from_xml.
Context `{XmlLaws}.

Lemma is_named_str name k n : element_name n = Some (str name) -> is_named k n = String.eqb name k.
Proof.
  intros E. unfold is_named. rewrite E. destruct (String.eqb_spec name k) as [->|Hne]; [by apply bool_decide_eq_true|].
  apply bool_decide_eq_false. intros [= Es]. apply Hne. apply (f_equal String.string_of_list_ascii) in Es. unfold str in Es.
  by rewrite !String.string_of_list_ascii_of_string in Es.
Qed.

Lemma is_named_leaf name t k : is_named k (leaf name t) = String.eqb name k.
Proof. apply is_named_str, leaf_name. Qed.

Lemma is_named_branch name attrs nodes k : is_named k (branch name attrs nodes) = String.eqb name k.
Proof. apply is_named_str, branch_name. Qed.

Lemma elements_nil name : elements name [] = [].
Proof. reflexivity. Qed.

Lemma elements_map {A} (f : A -> xml_node) name k l :
  (forall a, is_named k (f a) = String.eqb name k) -> elements k (map f l) = if String.eqb name k then map f l else [].
Proof.
  intros Hf. induction l as [|a l IH]; cbn [map]; [by destruct (String.eqb name k)|]. rewrite elements_cons, Hf, IH.
  by destruct (String.eqb name k).
Qed.

Lemma from_last_leaf {A} (f : list ascii -> A) dflt name t : from_last f dflt [leaf name t] = f t.
Proof. unfold from_last. cbn [foldl]. by rewrite leaf_content. Qed.

Lemma elements_leaf k name t nodes :
  elements k (leaf name t :: nodes) = (if String.eqb name k then [leaf name t] else []) ++ elements k nodes.
Proof. rewrite elements_cons, is_named_leaf. by destruct (String.eqb name k). Qed.

Lemma elements_branch k name attrs inside nodes :
  elements k (branch name attrs inside :: nodes) =
    (if String.eqb name k then [branch name attrs inside] else []) ++ elements k nodes.
Proof. rewrite elements_cons, is_named_branch. by destruct (String.eqb name k). Qed.

(** The elements of a name among those of a written document. *)
Ltac seek := rewrite ?elements_leaf, ?elements_branch, ?elements_nil; cbn [String.eqb Ascii.eqb Bool.eqb app].
Ltac seek_in := unfold payload_to_xml, name_leaves, flag_leaf, number_leaf; seek.
Ltac read_leaf :=
  unfold xml_text, xml_flag, xml_int, name_leaves, flag_leaf, number_leaf; seek; rewrite ?from_last_leaf.

Lemma xml_items_reads {A} (P : A -> Prop) outer inner room (item : xml_node -> option A) (f : A -> xml_node) nodes l :
  elements outer nodes = [branch outer [] (map f l)] -> (forall a, is_named inner (f a) = true) -> (forall a, P a -> item (f a) = Some a) ->
  list_fits room P l -> xml_items outer inner room item nodes = l.
Proof.
  intros E Hf Hi Hl. unfold xml_items. rewrite E. cbn [foldl]. rewrite branch_children.
  rewrite (elements_map f inner) by (intros a; by rewrite Hf, String.eqb_refl). rewrite String.eqb_refl. by eapply keep_reads.
Qed.

Lemma name_reads size inner s : plain_name size s -> name_of_node size (leaf inner s) = Some s.
Proof. intros [Hs Hne]. unfold name_of_node. rewrite leaf_content. cbn [mbind option_bind]. rewrite plain_trimmed by done. by destruct s. Qed.

Lemma names_reads size outer inner room nodes l :
  elements outer nodes = [name_leaves outer inner l] -> list_fits room (plain_name size) l ->
  xml_items outer inner room (name_of_node size) nodes = l.
Proof.
  intros E Hl. eapply xml_items_reads; [exact E| |by intros s; apply name_reads|done]. intros s. rewrite is_named_leaf. apply String.eqb_refl.
Qed.

Lemma field_reads fv : value_plain fv -> xml_field_value true (field_to_xml fv) = fv.
Proof.
  intros (H1 & H2 & H3 & H4). unfold xml_field_value, field_to_xml. rewrite branch_children. read_leaf.
  rewrite H3, H4, !plain_trimmed by done. by destruct fv.
Qed.

Lemma key_reads k : key_plain k -> xml_where_key (key_to_xml k) = k.
Proof.
  intros (H1 & H2 & H3). unfold xml_where_key, key_to_xml. rewrite branch_children. read_leaf. rewrite !plain_trimmed by done. by destruct k.
Qed.

Lemma param_reads p : param_plain p -> xml_param (param_to_xml p) = p.
Proof.
  intros (H1 & H2 & H3). unfold xml_param, param_to_xml. rewrite branch_children. read_leaf.
  rewrite direction_fits, direction_name_maps, !plain_trimmed by done. by destruct p.
Qed.

Lemma column_reads c : column_plain c -> xml_column (column_to_xml c) = Some c.
Proof.
  intros ([H1 Hne] & H2 & H3 & H4 & H5 & H6). unfold xml_column, column_to_xml. rewrite branch_children. read_leaf.
  rewrite !print_int_reads, bool_reads, !plain_trimmed by (done || apply bool_is_int). destruct c as [[|] ? ? ? ? ? ?]; done.
Qed.

Lemma ddl_param_reads p : ddl_param_plain p -> xml_ddl_param (ddl_param_to_xml p) = Some p.
Proof.
  intros ([H1 Hne] & H2 & H3 & H4). unfold xml_ddl_param, ddl_param_to_xml. rewrite branch_children. read_leaf.
  rewrite !plain_trimmed by done. destruct p as [[|] ? ? ?]; done.
Qed.

Lemma fields_read (g : nat -> bool) l : (forall i, g i = true) -> Forall value_plain l ->
  imap (fun f n => xml_field_value (g f) n) (map field_to_xml l) = l.
Proof. intros Hg. apply imap_reads. intros i fv Hv. rewrite Hg. by apply field_reads. Qed.

Lemma row_reads al r row : op_plenty al -> Forall value_plain row -> xml_row al r (row_to_xml row) = row.
Proof.
  intros (_ & _ & _ & Hr & Hv) Hrow. unfold xml_row, row_to_xml. rewrite branch_children, (elements_map _ "field") by (intros a; apply is_named_branch).
  cbn [String.eqb Ascii.eqb Bool.eqb]. rewrite fields_read, Hr, calloc_true by done. done.
Qed.

Ltac read_plain := rewrite ?print_int_reads, ?bool_reads, ?plain_trimmed by (done || apply bool_is_int).

Lemma select_reads q : payload_plain (Select (Some q)) -> xml_select (payload_to_xml (Select (Some q))) = q.
Proof.
  intros (H1 & H2 & H3 & H4 & H5). unfold xml_select, payload_to_xml. read_leaf. read_plain. destruct q. cbn in *. by subst.
Qed.

Lemma insert_reads al q : op_plenty al -> payload_plain (Insert (Some q)) -> xml_insert al (payload_to_xml (Insert (Some q))) = Some q.
Proof.
  intros Hal (H1 & H2 & H3). unfold xml_insert, payload_to_xml. read_leaf.
  rewrite !(elements_map row_to_xml "row") by (intros a; apply is_named_branch). cbn [String.eqb Ascii.eqb Bool.eqb].
  rewrite (imap_reads (Forall value_plain)) by (done || (intros i row Hrow; by apply row_reads)). rewrite (proj1 (proj2 Hal)), calloc_true.
  cbn [mbind option_bind]. rewrite !from_last_leaf. read_plain. by destruct q.
Qed.

Lemma inside_branch name nodes n : elements name nodes = [branch name [] n] -> xml_inside name nodes = n.
Proof. intros E. unfold xml_inside. rewrite E. cbn [list.last]. apply branch_children. Qed.

Lemma keys_read l nodes : xml_inside "where" nodes = map key_to_xml l -> Forall key_plain l ->
  map xml_where_key (elements "key" (xml_inside "where" nodes)) = l.
Proof.
  intros -> Hl. rewrite (elements_map key_to_xml "key") by (intros a; apply is_named_branch). cbn [String.eqb Ascii.eqb Bool.eqb].
  eapply map_reads, Hl. apply key_reads.
Qed.

Lemma update_reads al q : op_plenty al -> payload_plain (Update (Some q)) -> xml_update al (payload_to_xml (Update (Some q))) = Some q.
Proof.
  intros Hal (H1 & H2 & H3 & H4). unfold xml_update.
  rewrite (keys_read (upd_keys q)) by (done || (apply inside_branch; by seek_in)).
  rewrite (inside_branch "set" _ (map field_to_xml (upd_fields q))) by (by seek_in).
  rewrite (elements_map field_to_xml "field") by (intros a; apply is_named_branch). cbn [String.eqb Ascii.eqb Bool.eqb].
  destruct Hal as (_ & -> & -> & _ & Hv). rewrite calloc_true. cbn [mbind option_bind].
  rewrite fields_read, calloc_true by done. cbn [mbind option_bind].
  unfold payload_to_xml. read_leaf. read_plain. by destruct q.
Qed.

Lemma delete_reads al q : op_plenty al -> payload_plain (Delete (Some q)) -> xml_delete al (payload_to_xml (Delete (Some q))) = Some q.
Proof.
  intros Hal (H1 & H2 & H3). unfold xml_delete.
  rewrite (keys_read (del_keys q)) by (done || (apply inside_branch; by seek_in)).
  destruct Hal as (_ & -> & _). rewrite calloc_true. cbn [mbind option_bind]. unfold payload_to_xml. read_leaf. read_plain. by destruct q.
Qed.

Lemma procedure_reads al q : op_plenty al -> payload_plain (ExecuteProcedure (Some q)) ->
  xml_procedure al (payload_to_xml (ExecuteProcedure (Some q))) = Some q.
Proof.
  intros Hal (H1 & H2 & H3). unfold xml_procedure.
  rewrite (inside_branch "parameters" _ (map param_to_xml (proc_params q))) by (by seek_in).
  rewrite (elements_map param_to_xml "parameter") by (intros a; apply is_named_branch). cbn [String.eqb Ascii.eqb Bool.eqb].
  rewrite (map_reads param_plain) by (done || apply param_reads).
  destruct Hal as (_ & -> & _). rewrite calloc_true. cbn [mbind option_bind]. unfold payload_to_xml. read_leaf. read_plain. by destruct q.
Qed.

Lemma create_user_reads q : payload_plain (CreateUser (Some q)) -> xml_create_user (payload_to_xml (CreateUser (Some q))) = q.
Proof.
  intros (H1 & H2 & H3 & H4 & H5 & H6 & H7 & H8 & H9). unfold xml_create_user.
  rewrite (names_reads _ _ _ _ _ (roles q)) by (done || (by seek_in)).
  unfold payload_to_xml. read_leaf. read_plain. unfold quota_fallback. cbn [quota quota_tablespace].
  destruct q as [? ? ? ? [|] [|] ? ?]; cbn in *; try done. by destruct H9.
Qed.

Lemma grant_reads q : payload_plain (Grant (Some q)) -> xml_grant (payload_to_xml (Grant (Some q))) = q.
Proof.
  intros (H1 & H2 & H3 & H4 & H5). unfold xml_grant.
  rewrite (names_reads _ _ _ _ _ (privileges q)) by (done || (by seek_in)).
  unfold payload_to_xml. read_leaf. read_plain. by destruct q.
Qed.

Lemma create_table_reads q : payload_plain (CreateTable (Some q)) -> xml_create_table (payload_to_xml (CreateTable (Some q))) = q.
Proof.
  intros (H1 & H2 & H3 & H4). unfold xml_create_table.
  rewrite (names_reads _ _ _ _ _ (primary_key_columns q)) by (done || (by seek_in)).
  rewrite (xml_items_reads column_plain "columns" "column" _ _ column_to_xml _ (columns q))
    by (done || apply column_reads || (intros a; unfold column_to_xml; by rewrite is_named_branch) || (by seek_in)).
  unfold payload_to_xml. read_leaf. read_plain. by destruct q.
Qed.

Lemma drop_table_reads q : payload_plain (DropTable (Some q)) -> xml_drop_table (payload_to_xml (DropTable (Some q))) = q.
Proof. intros (H1 & H2). unfold xml_drop_table, payload_to_xml. read_leaf. read_plain. by destruct q. Qed.

Lemma create_view_reads q : payload_plain (CreateView (Some q)) -> xml_create_view (payload_to_xml (CreateView (Some q))) = q.
Proof.
  intros (H1 & H2 & H3 & H4). unfold xml_create_view.
  rewrite (names_reads _ _ _ _ _ (view_columns q)) by (done || (by seek_in)).
  unfold payload_to_xml. read_leaf. read_plain. by destruct q.
Qed.

Lemma create_procedure_reads q :
  payload_plain (CreateProcedure (Some q)) -> xml_create_procedure (payload_to_xml (CreateProcedure (Some q))) = q.
Proof.
  intros (H1 & H2 & H3 & H4). unfold xml_create_procedure.
  rewrite (xml_items_reads ddl_param_plain "parameters" "parameter" _ _ ddl_param_to_xml _ (parameters q))
    by (done || apply ddl_param_reads || (intros a; unfold ddl_param_to_xml; by rewrite is_named_branch) || (by seek_in)).
  unfold payload_to_xml. read_leaf. read_plain. by destruct q.
Qed.

Lemma payload_reads al attrs p : op_plenty al -> payload_plain p ->
  build_payload_xml al (branch "operation" attrs (payload_to_xml p)) (type_of p) = p.
Proof.
  intros Hal Hp. pose proof (proj1 Hal) as Hreq. unfold build_payload_xml. rewrite branch_children, Hreq.
  destruct p as [[q|]|[q|]|[q|]|[q|]|[q|]|[q|]|[q|]|[q|]|[q|]|[q|]|[q|]|[q|]|[q|]| | | |]; try done; cbn [type_of]; f_equal;
    try (by apply insert_reads || by apply update_reads || by apply delete_reads || by apply procedure_reads); f_equal;
    try (by apply select_reads || by apply create_user_reads || by apply grant_reads || by apply create_table_reads ||
         by apply drop_table_reads || by apply create_view_reads || by apply create_procedure_reads).
  - destruct Hp as (H1 & H2). unfold xml_authenticate, payload_to_xml. read_leaf. read_plain. by destruct q.
  - unfold xml_check_permission, payload_to_xml. read_leaf. read_plain. by destruct q.
Qed.

Lemma operation_reads al op : op_plenty al -> operation_plain op -> xml_operation al (operation_to_xml op) = op.
Proof.
  intros Hal [Hp Hs]. unfold xml_operation, operation_to_xml. rewrite branch_prop, member_cons. cbn [String.eqb Ascii.eqb Bool.eqb].
  rewrite type_name_maps, payload_reads by done. rewrite <- Hs. by destruct op.
Qed.

Lemma label_reads t : t <> [] -> fits NAME_SIZE t -> label (Some t) = t.
Proof. intros Hne Ht. unfold label. destruct t; [done|]. by apply fits_stored. Qed.

Lemma xml_request_reads al buf r : plenty al -> request_plain r -> xmlReadMemory buf = Some (Some (request_to_xml r)) ->
  parse_xml al buf = Ok (in_format INPUT_FORMAT_XML r).
Proof.
  intros [Hops Hal] (H1 & H2 & H3 & H4 & H5 & H6 & H7) Hread. unfold parse_xml. rewrite Hread. unfold request_to_xml.
  rewrite is_named_branch. cbn [String.eqb Ascii.eqb Bool.eqb negb]. rewrite branch_children. cbn [envelope_loop].
  rewrite !is_named_leaf, !is_named_branch. cbn [String.eqb Ascii.eqb Bool.eqb]. rewrite !leaf_content, branch_children.
  rewrite (elements_map operation_to_xml "operation") by (intros a; apply is_named_branch). cbn [String.eqb Ascii.eqb Bool.eqb].
  rewrite !branch_prop, !member_cons. cbn [String.eqb Ascii.eqb Bool.eqb]. destruct (external_audit_id r) as [|c t] eqn:Ea; [done|].
  destruct (operations r) as [|op rest] eqn:Eo; [done|]. cbn [map]. rewrite Hops. cbn [negb].
  change (operation_to_xml op :: map operation_to_xml rest) with (map operation_to_xml (op :: rest)).
  rewrite (imap_reads operation_plain) by (done || (intros i o Hop; by apply operation_reads)).
  cbn [have_audit_id have_session_id required tx_label ops res_bind checked].
  rewrite <- Ea, <- Eo. unfold in_format. rewrite !fits_stored by (done || by rewrite Ea).
  f_equal. f_equal; [|by apply (label_reads (transaction_name r))]. by destruct (transaction_required r).
Qed.
End from_xml.

(** ** From JSON *)

Section from_json.
Context `{JsonLaws}.

(** The member of a name of a written object. *)
Ltac look :=
  unfold text_member, flag_member, number_member, array_member; rewrite ?obj_item, ?member_cons; cbn [String.eqb Ascii.eqb Bool.eqb mbind option_bind].
Ltac read_member :=
  unfold json_text, json_flag, json_int, json_string; look; rewrite ?str_value, ?num_value by (done || apply bool_is_int).
Ltac read_stored := rewrite ?bool_reads, ?plain_stored by done; cbn [default].

Lemma array_reads {A} name (f : A -> json) l members :
  member name members = Some (json_arr (map f l)) -> json_array name (json_obj members) = map f l.
Proof. intros E. unfold json_array. rewrite obj_item, E. cbn [mbind option_bind]. by rewrite arr_items. Qed.

Lemma json_items_read {A} (P : A -> Prop) name room (item : json -> option A) (f : A -> json) members l :
  member name members = Some (json_arr (map f l)) -> (forall a, P a -> item (f a) = Some a) -> list_fits room P l ->
  json_items name room item (json_obj members) = l.
Proof. intros E Hi Hl. unfold json_items. rewrite (array_reads _ f l) by done. by eapply keep_reads. Qed.

Lemma name_of_str size s : plain_name size s -> name_of_json size (json_str s) = Some s.
Proof. intros [Hs Hne]. unfold name_of_json. rewrite str_value. destruct s; [done|]. by rewrite plain_stored. Qed.

Lemma json_field_reads fv : value_plain fv -> json_field_value true (field_to_json fv) = fv.
Proof.
  intros (H1 & H2 & H3 & H4). unfold json_field_value, field_to_json. read_member. rewrite H4. read_stored. by destruct fv.
Qed.

Lemma json_key_reads k : key_plain k -> json_where_key (key_to_json k) = k.
Proof. intros (H1 & H2 & H3). unfold json_where_key, key_to_json. read_member. read_stored. by destruct k. Qed.

Lemma json_param_reads p : param_plain p -> json_param (param_to_json p) = p.
Proof.
  intros (H1 & H2 & H3). unfold json_param, param_to_json. read_member. rewrite direction_name_maps. read_stored. by destruct p.
Qed.

Lemma json_column_reads c : column_plain c -> json_column (column_to_json c) = Some c.
Proof.
  intros ([H1 Hne] & H2 & H3 & H4 & H5 & H6). unfold json_column, column_to_json. rewrite obj_is_object. cbn [negb]. read_member. read_stored.
  destruct c as [[|] ? ? ? ? ? ?]; done.
Qed.

Lemma json_ddl_param_reads p : ddl_param_plain p -> json_ddl_param (ddl_param_to_json p) = Some p.
Proof.
  intros ([H1 Hne] & H2 & H3 & H4). unfold json_ddl_param, ddl_param_to_json. rewrite obj_is_object. cbn [negb]. read_member. read_stored.
  destruct p as [[|] ? ? ?]; done.
Qed.

Lemma json_row_reads al r row : op_plenty al -> Forall value_plain row -> json_row al r (row_to_json row) = row.
Proof.
  intros (_ & _ & _ & Hr & Hv) Hrow. unfold json_row, row_to_json. rewrite (array_reads _ field_to_json row) by (unfold array_member; by rewrite member_cons).
  rewrite (imap_reads value_plain) by (done || (intros i fv Hfv; rewrite Hv; by apply json_field_reads)). by rewrite Hr, calloc_true.
Qed.

Ltac reads_array name f l := rewrite (array_reads name f l) by (unfold text_member, flag_member, number_member, array_member; by rewrite ?member_cons).
Ltac reads_names l :=
  rewrite (json_items_read (plain_name _) _ _ _ json_str _ l)
    by (done || (intros s; apply name_of_str) || (unfold text_member, flag_member, number_member, array_member; by rewrite ?member_cons)).

Lemma json_payload_reads al p : op_plenty al -> payload_plain p ->
  build_payload_json al (json_obj (text_member "type" (str (type_name (type_of p))) :: payload_to_json p)) (type_of p) = p.
Proof.
  intros Hal Hp. pose proof Hal as (Hreq & Ha1 & Ha2 & Hr & Hv). unfold build_payload_json. rewrite Hreq.
  destruct p as [[q|]|[q|]|[q|]|[q|]|[q|]|[q|]|[q|]|[q|]|[q|]|[q|]|[q|]|[q|]|[q|]| | | |]; try done; cbn [type_of payload_to_json type_name];
    f_equal; [f_equal| | | | |f_equal..].
  - destruct Hp as ([H1 H1'] & [H2 H2'] & H3 & H4 & H5). unfold json_select. read_member. rewrite !fits_stored, H1', H2' by done. read_stored.
    destruct q. cbn in *. by subst.
  - destruct Hp as (H1 & H2 & H3). unfold json_insert. reads_array "rows"%string row_to_json (ins_rows q).
    rewrite (imap_reads (Forall value_plain)) by (done || (intros i row Hrow; by apply json_row_reads)).
    rewrite Ha1, calloc_true. read_member. read_stored. by destruct q.
  - destruct Hp as (H1 & H2 & H3 & H4). unfold json_update. reads_array "where"%string key_to_json (upd_keys q). reads_array "set"%string field_to_json (upd_fields q).
    rewrite (map_reads key_plain) by (done || apply json_key_reads).
    rewrite (imap_reads value_plain) by (done || (intros i fv Hfv; rewrite Hv; by apply json_field_reads)).
    rewrite Ha1, Ha2, calloc_true. cbn [mbind option_bind]. rewrite calloc_true. read_member. read_stored. by destruct q.
  - destruct Hp as (H1 & H2 & H3). unfold json_delete. reads_array "where"%string key_to_json (del_keys q).
    rewrite (map_reads key_plain) by (done || apply json_key_reads). rewrite Ha1, calloc_true. read_member. read_stored. by destruct q.
  - destruct Hp as (H1 & H2 & H3). unfold json_procedure. reads_array "parameters"%string param_to_json (proc_params q).
    rewrite (map_reads param_plain) by (done || apply json_param_reads). rewrite Ha1, calloc_true. read_member. read_stored. by destruct q.
  - destruct Hp as (H1 & H2). unfold json_authenticate. read_member. read_stored. by destruct q.
  - unfold json_check_permission. read_member. read_stored. by destruct q.
  - destruct Hp as (H1 & H2 & H3 & H4 & H5 & H6 & H7 & H8 & H9). unfold json_create_user. reads_names (roles q).
    read_member. read_stored. unfold quota_fallback. cbn [quota quota_tablespace].
    destruct q as [? ? ? ? [|] [|] ? ?]; cbn in *; try done. by destruct H9.
  - destruct Hp as (H1 & H2 & H3 & H4 & H5). unfold json_grant. reads_names (privileges q). read_member. read_stored. by destruct q.
  - destruct Hp as (H1 & H2 & H3 & H4). unfold json_create_table. reads_names (primary_key_columns q).
    rewrite (json_items_read column_plain _ _ _ column_to_json _ (columns q))
      by (done || apply json_column_reads || (unfold text_member, array_member; by rewrite ?member_cons)).
    read_member. read_stored. by destruct q.
  - destruct Hp as (H1 & H2). unfold json_drop_table. read_member. read_stored. by destruct q.
  - destruct Hp as (H1 & H2 & H3 & H4). unfold json_create_view. reads_names (view_columns q). read_member. read_stored. by destruct q.
  - destruct Hp as (H1 & H2 & H3 & H4). unfold json_create_procedure.
    rewrite (json_items_read ddl_param_plain _ _ _ ddl_param_to_json _ (parameters q))
      by (done || apply json_ddl_param_reads || (unfold text_member, flag_member, number_member, array_member; by rewrite ?member_cons)).
    read_member. read_stored. by destruct q.
Qed.

Lemma json_operation_reads al op : op_plenty al -> operation_plain op -> json_operation al (operation_to_json op) = op.
Proof.
  intros Hal [Hp Hs]. unfold json_operation, operation_to_json.
  assert (json_string (json_obj (text_member "type" (str (type_name (type_of (op_payload op)))) :: payload_to_json (op_payload op))) "type" =
    Some (str (type_name (type_of (op_payload op))))) as -> by (unfold json_string; look; by rewrite str_value).
  rewrite type_name_maps, json_payload_reads by done. rewrite <- Hs. by destruct op.
Qed.

Lemma json_request_reads al buf r : plenty al -> request_plain r -> cJSON_ParseWithLength buf = Some (request_to_json r) ->
  parse_json al buf = Ok (in_format INPUT_FORMAT_JSON r).
Proof.
  intros [Hops Hal] (H1 & H2 & H3 & H4 & H5 & H6 & H7) Hread. unfold parse_json. rewrite Hread. unfold request_to_json.
  read_member. rewrite obj_is_object. unfold json_transaction. reads_array "operations"%string operation_to_json (operations r).
  destruct (external_audit_id r) as [|c t] eqn:Ea; [done|].
  destruct (operations r) as [|op rest] eqn:Eo; [done|]. cbn [map]. rewrite Hops. cbn [negb].
  change (operation_to_json op :: map operation_to_json rest) with (map operation_to_json (op :: rest)).
  rewrite (imap_reads operation_plain) by (done || (intros i o Hop; by apply json_operation_reads)).
  read_member. cbn [have_audit_id have_session_id required tx_label ops res_bind checked option_map].
  rewrite <- Ea, <- Eo. unfold in_format. rewrite !fits_stored by (done || by rewrite Ea).
  f_equal. f_equal; [|by apply (label_reads (transaction_name r))]. by destruct (transaction_required r).
Qed.
End from_json.

(** ** The property *)

(** C15: Level 1 reads back what a client writes, from either format.  A request
    whose texts fit, have no blanks around them and whose lists have room -
    all thirteen payloads, values of any length - can be written as XML and as
    JSON; when the reader of the format finds that document in the text and
    nothing is short of memory, Level 1 answers with this very request and
    the format it came in, so the two formats say the same. *)
Theorem level1_round_trip `{XmlLaws} `{JsonLaws} (al : l1_alloc) (buf : list ascii) (len : nat) (r : request) :
  plenty al -> request_plain r ->
  (level1_detect_format buf len = INPUT_FORMAT_XML -> xmlReadMemory (take len buf) = Some (Some (request_to_xml r)) ->
   level1_parse al buf len = Ok (in_format INPUT_FORMAT_XML r)) /\
  (level1_detect_format buf len = INPUT_FORMAT_JSON -> cJSON_ParseWithLength (take len buf) = Some (request_to_json r) ->
   level1_parse al buf len = Ok (in_format INPUT_FORMAT_JSON r)).
Proof.
  intros Hal Hr. unfold level1_parse.
  split; intros Hf Hread; rewrite Hf; (destruct len as [|len]; [discriminate Hf|]); cbn [Nat.eqb];
    [by apply xml_request_reads|by apply json_request_reads].
Qed.

(** ** Examples *)

Definition tree_laws (doc : option xml_tree) : @XmlLaws (tree_reader doc).
Proof. by refine (@Build_XmlLaws (tree_reader doc) Leaf Branch _ _ _ _ _). Defined.

Definition json_laws (doc : option json_tree) : @JsonLaws (json_reader doc).
Proof. by refine (@Build_JsonLaws (json_reader doc) JStr JNum JArr JObj _ _ _ _ _). Defined.

Definition new_operation (p : operation_payload) : operation := mk_operation p (mk_status 0 [] []).
Definition demo_long : list ascii := replicate 5000 "x"%char.

Definition demo_booking : request :=
  mk_request (str "AUDIT-1") (str "-") INPUT_FORMAT_UNKNOWN true (str "Save Booking")
    (map new_operation
       [Insert (Some (mk_insert (str "BOOKING") (str "APP")
          [[mk_fv (str "ID") (str "7") None []; mk_fv (str "NOTE") (take 4095 demo_long) (Some demo_long) []]]));
        Delete (Some (mk_delete (str "HOLD") [] [mk_key (str "ID") (str "7") []]));
        CreateTable (Some (mk_create_table (str "T") [] [mk_column (str "A") (str "NUMBER") 0 10 2 false []] [str "A"]));
        ExecuteProcedure (Some (mk_procedure (str "P") [] [mk_proc_param (str "X") (str "NUMBER") PARAM_DIR_IN_OUT (str "1")]))]).

Definition booking_xml : xml_tree := @request_to_xml _ (tree_laws None) demo_booking.
Definition booking_json : json_tree := @request_to_json _ (json_laws None) demo_booking.

Lemma booking_plain : request_plain demo_booking.
Proof.
  repeat match goal with
         | |- _ = _ => vm_compute; reflexivity
         | |- _ <> _ => discriminate
         | |- fits _ _ => apply Nat.ltb_lt; vm_compute; reflexivity
         | |- (_ <= _)%nat => apply Nat.leb_le; vm_compute; reflexivity
         | |- is_int _ => by vm_compute
         | |- _ => first [split|constructor]
         end.
Defined.

Lemma level1_round_trip_witness :
  read_xml booking_xml (str " <request/>") = Ok (in_format INPUT_FORMAT_XML demo_booking) /\
  read_json booking_json (str "{}") = Ok (in_format INPUT_FORMAT_JSON demo_booking).
Proof.
  assert (plenty demo_alloc) as Hal by (repeat split). split.
  - apply (@level1_round_trip _ (tree_laws (Some booking_xml)) _ (json_laws None)); [exact Hal|exact booking_plain|reflexivity|reflexivity].
  - apply (@level1_round_trip _ (tree_laws None) _ (json_laws (Some booking_json))); [exact Hal|exact booking_plain|reflexivity|reflexivity].
Defined.

(** Where the two differ: the last element of a name counts, and the first
    member; an element is trimmed, a member is not; and a number is no text. *)
Example formats_differ :
  let name (r : res operation_status request) :=
    match r with
    | Ok r => map (fun op => match op_payload op with Delete (Some q) => (del_table q, map key_value (del_keys q)) | _ => ([], []) end) (operations r)
    | Err _ => []
    end in
  let ids := [Leaf "external_audit_id" (str "A"); Leaf "session_id" (str "-")] in
  name (read_xml (Branch "request" [] (ids ++ [Branch "transaction" []
         [Branch "operation" [("type"%string, str "delete")]
            [Leaf "table_name" (str "T"); Leaf "table_name" (str " U ");
             Branch "where" [] [Branch "key" [] [Leaf "field_name" (str "ID"); Leaf "key_value" (str "7")]]]]])) (str "<request>")) =
    [(str "U", [str "7"])] /\
  name (read_json (JObj [("external_audit_id"%string, JStr (str "A")); ("session_id"%string, JStr (str "-"));
         ("transaction"%string, JObj [("operations"%string, JArr [JObj [("type"%string, JStr (str "delete"));
            ("table_name"%string, JStr (str " T ")); ("table_name"%string, JStr (str "U"));
            ("where"%string, JArr [JObj [("field_name"%string, JStr (str "ID")); ("key_value"%string, JNum 7)]])]])])]) (str "{}")) =
    [(str " T ", [[]])].
Proof. vm_compute. split; reflexivity. Qed.
