(* ===== verification/ResultsetBuilder.v ===== *)
(** * ResultsetBuilder: rows of a result

    src/src/execute/Resultset_Builder.c and src/include/Resultset_Types.h: a
    result is made with all its rows and fields empty, then its fields are
    set one by one, each text cut to the size of its array.  Copying a row
    that fits its arrays loses nothing. *)

From Stdlib Require Import Ascii String ZArith Lia Bool.
From stdpp Require Import base list strings numbers.
From S2P Require Import Prelude.

#[local] Open Scope Z_scope.

(** ** Data *)

Definition FIELD_NAME_SIZE : nat := 128.
Definition FIELD_TYPE_SIZE : nat := 32.
Definition FIELD_VALUE_SIZE : nat := Z.to_nat 4096.
Definition FILE_NAME_SIZE : nat := 512.
Definition FILE_PATH_SIZE : nat := 768.
Definition MIME_TYPE_SIZE : nat := 128.

(** [file_url] is empty when there is none; [file_size] is a [uint64_t]. *)
Record resultset_blob_detail := mk_blob_detail {
  bd_file_name : list ascii; bd_file_path : list ascii; bd_file_url : list ascii; bd_file_size : Z; bd_mime_type : list ascii }.

Record resultset_field := mk_rs_field {
  field_name : list ascii; field_type : list ascii; value : list ascii; is_blob : bool; blob_detail : resultset_blob_detail }.

(** [field_count] is the length of [fields], [record_count] that of
    [records]. *)
Record resultset_row := mk_rs_row { record_number : Z; fields : list resultset_field }.
Record resultset := mk_resultset { records : list resultset_row }.

#[export] Instance resultset_blob_detail_eq_dec : EqDecision resultset_blob_detail.
Proof. solve_decision. Defined.
#[export] Instance resultset_field_eq_dec : EqDecision resultset_field.
Proof. solve_decision. Defined.
#[export] Instance resultset_row_eq_dec : EqDecision resultset_row.
Proof. solve_decision. Defined.

Definition record_count (rs : resultset) : Z := Z.of_nat (length (records rs)).

Definition no_blob : resultset_blob_detail := mk_blob_detail [] [] [] 0 [].
Definition blank_field : resultset_field := mk_rs_field [] [] [] false no_blob.

(** ** Operations *)

(** The rows, the first numbered [from]. *)
Fixpoint blank_rows (from : Z) (rows fields : nat) : list resultset_row :=
  match rows with
  | O => []
  | S n => mk_rs_row from (replicate fields blank_field) :: blank_rows (from + 1) n fields
  end.

(** [al]: the struct (0), the array of rows (1), the fields of row [i]
    ([2 + i]) are allocated. *)
Definition resultset_create (al : nat -> bool) (record_count fields_per_row : Z) : option resultset :=
  if (record_count <? 0) || (fields_per_row <? 0) then None
  else if negb (al 0%nat) then None
  else if negb (al 1%nat) then None
  else if forallb (fun i => al (2 + i)%nat) (seq 0 (Z.to_nat record_count)) then
    Some (mk_resultset (blank_rows 1 (Z.to_nat record_count) (Z.to_nat fields_per_row)))
  else None.

(** The index of the row. *)
Definition resultset_get_row (rs : resultset) (record_number : Z) : option nat :=
  if (record_number <? 1) || (record_count rs <? record_number) then None else Some (Z.to_nat (record_number - 1)).

(** [strncpy(dst, src, size - 1)] into an array whose last byte stays 0. *)
Definition cut (size : nat) (s : list ascii) : list ascii := take (size - 1) s.
Definition cut_or (size : nat) (src : option (list ascii)) (old : list ascii) : list ascii :=
  match src with Some s => cut size s | None => old end.

Definition set_field_of (name type val : option (list ascii)) (f : resultset_field) : resultset_field :=
  mk_rs_field (cut_or FIELD_NAME_SIZE name (field_name f)) (cut_or FIELD_TYPE_SIZE type (field_type f))
    (cut_or FIELD_VALUE_SIZE val (value f)) false (blob_detail f).

Definition in_row (row : resultset_row) (i : Z) : bool := negb ((i <? 0) || (Z.of_nat (length (fields row)) <=? i)).

Definition resultset_set_field (row : resultset_row) (field_index : Z) (name type val : option (list ascii)) : resultset_row * Z :=
  if in_row row field_index then
    (mk_rs_row (record_number row) (alter (set_field_of name type val) (Z.to_nat field_index) (fields row)), 0)
  else (row, -1).

Definition set_blob_of (name file_name file_path file_url : option (list ascii)) (file_size : Z) (mime_type : option (list ascii))
    (f : resultset_field) : resultset_field :=
  mk_rs_field (cut_or FIELD_NAME_SIZE name (field_name f)) (cut FIELD_TYPE_SIZE (str "BLOB")) [] true
    (mk_blob_detail (cut_or FILE_NAME_SIZE file_name []) (cut_or FILE_PATH_SIZE file_path []) (cut_or FILE_PATH_SIZE file_url [])
       file_size (cut_or MIME_TYPE_SIZE mime_type [])).

Definition resultset_set_blob_field (row : resultset_row) (field_index : Z) (name file_name file_path file_url : option (list ascii))
    (file_size : Z) (mime_type : option (list ascii)) : resultset_row * Z :=
  if in_row row field_index then
    (mk_rs_row (record_number row)
       (alter (set_blob_of name file_name file_path file_url file_size mime_type) (Z.to_nat field_index) (fields row)), 0)
  else (row, -1).

(** ** What a result holds *)

Definition shorter (size : nat) (s : list ascii) : Prop := (length s < size)%nat.

Definition blob_fits (b : resultset_blob_detail) : Prop :=
  shorter FILE_NAME_SIZE (bd_file_name b) /\ shorter FILE_PATH_SIZE (bd_file_path b) /\ shorter FILE_PATH_SIZE (bd_file_url b) /\
  0 <= bd_file_size b < 2 ^ 64 /\ shorter MIME_TYPE_SIZE (bd_mime_type b).

(** The value of a BLOB is empty. *)
Definition field_fits (f : resultset_field) : Prop :=
  shorter FIELD_NAME_SIZE (field_name f) /\ shorter FIELD_TYPE_SIZE (field_type f) /\ shorter FIELD_VALUE_SIZE (value f) /\
  blob_fits (blob_detail f) /\ (is_blob f = true -> value f = [] /\ field_type f = str "BLOB").

Definition row_fits (r : resultset_row) : Prop := Forall field_fits (fields r).
Definition resultset_fits (rs : resultset) : Prop := Forall row_fits (records rs).

(** The rows are numbered from [from]. *)
Definition numbered (from : Z) (rows : list resultset_row) : Prop :=
  forall i r, rows !! i = Some r -> record_number r = from + Z.of_nat i.

Section builder.
Implicit Types (s : list ascii) (f : resultset_field) (r : resultset_row) (rows : list resultset_row).

Lemma cut_fits (size : nat) s : (0 < size)%nat -> shorter size (cut size s).
Proof. intros H. unfold shorter, cut. rewrite length_take. lia. Qed.

Lemma cut_id (size : nat) s : shorter size s -> cut size s = s.
Proof. unfold shorter, cut. intros H. apply take_ge. lia. Qed.

Lemma sizes_positive :
  (0 < FIELD_NAME_SIZE /\ 0 < FIELD_TYPE_SIZE /\ 0 < FIELD_VALUE_SIZE /\ 0 < FILE_NAME_SIZE /\ 0 < FILE_PATH_SIZE /\ 0 < MIME_TYPE_SIZE)%nat.
Proof. unfold FIELD_VALUE_SIZE, FIELD_NAME_SIZE, FIELD_TYPE_SIZE, FILE_NAME_SIZE, FILE_PATH_SIZE, MIME_TYPE_SIZE. lia. Qed.

Lemma cut_or_fits (size : nat) o s : (0 < size)%nat -> shorter size s -> shorter size (cut_or size o s).
Proof. intros H Hs. destruct o; [by apply cut_fits|done]. Qed.

Lemma blank_fits : field_fits blank_field.
Proof. pose proof sizes_positive. unfold field_fits, blob_fits, shorter. cbn. repeat split; try lia; done. Qed.

Lemma set_field_fits name type val f : field_fits f -> field_fits (set_field_of name type val f).
Proof.
  pose proof sizes_positive as (P1 & P2 & P3 & _). intros (H1 & H2 & H3 & H4 & H5).
  unfold field_fits. cbn [set_field_of field_name field_type value blob_detail is_blob]. split_and!; try (by apply cut_or_fits); done.
Qed.

Lemma set_blob_fits name file path url size mime f : 0 <= size < 2 ^ 64 -> field_fits f ->
  field_fits (set_blob_of name file path url size mime f).
Proof.
  pose proof sizes_positive as (P1 & P2 & P3 & P4 & P5 & P6). intros Hs (H1 & _).
  assert (forall n, (0 < n)%nat -> shorter n []) as Hnil by (intros n Hn; exact Hn).
  unfold field_fits, blob_fits. cbn [set_blob_of field_name field_type value blob_detail is_blob bd_file_name bd_file_path bd_file_url bd_file_size bd_mime_type].
  split_and!; try (apply cut_or_fits; auto); try (apply cut_fits); auto; lia.
Qed.

Lemma set_field_row_fits r i name type val : row_fits r -> row_fits (fst (resultset_set_field r i name type val)).
Proof.
  unfold resultset_set_field, row_fits. intros H. destruct (in_row r i); [|done]. apply Forall_alter; [done|]. intros f _ Hf. by apply set_field_fits.
Qed.

Lemma set_blob_row_fits r i name file path url size mime : 0 <= size < 2 ^ 64 -> row_fits r ->
  row_fits (fst (resultset_set_blob_field r i name file path url size mime)).
Proof.
  unfold resultset_set_blob_field, row_fits. intros Hs H. destruct (in_row r i); [|done]. apply Forall_alter; [done|]. intros f _ Hf. by apply set_blob_fits.
Qed.

(** What a created result looks like. *)
Lemma blank_rows_length from n m : length (blank_rows from n m) = n.
Proof. revert from. induction n as [|n IH]; intros from; cbn; [done|]. by rewrite IH. Qed.

Lemma blank_rows_lookup n m : forall from i, (i < n)%nat -> blank_rows from n m !! i = Some (mk_rs_row (from + Z.of_nat i) (replicate m blank_field)).
Proof.
  induction n as [|n IH]; intros from [|i] H; cbn [blank_rows]; try lia.
  - cbn. by rewrite Z.add_0_r.
  - change ((mk_rs_row from (replicate m blank_field) :: blank_rows (from + 1) n m) !! S i) with (blank_rows (from + 1) n m !! i).
    rewrite IH by lia. by replace (from + 1 + Z.of_nat i) with (from + Z.of_nat (S i)) by lia.
Qed.

Lemma create_spec al n m rs : resultset_create al n m = Some rs ->
  0 <= n /\ 0 <= m /\ records rs = blank_rows 1 (Z.to_nat n) (Z.to_nat m) /\ record_count rs = n.
Proof.
  unfold resultset_create. destruct (Z.ltb_spec n 0); [done|]. destruct (Z.ltb_spec m 0); [done|]. cbn [orb].
  destruct (al 0%nat); [|done]. destruct (al 1%nat); [|done]. cbn [negb]. destruct (forallb _ _); [|done]. intros [= <-].
  unfold record_count. cbn [records]. rewrite blank_rows_length. split_and!; [lia|lia|done|lia].
Qed.

Lemma get_row_spec rs n i : resultset_get_row rs n = Some i <-> n = Z.of_nat i + 1 /\ (i < length (records rs))%nat.
Proof.
  unfold resultset_get_row, record_count. destruct (Z.ltb_spec n 1); cbn [orb]; [split; [done|lia]|].
  destruct (Z.ltb_spec (Z.of_nat (length (records rs))) n); [split; [done|lia]|]. split.
  - intros [= <-]. lia.
  - intros [-> H2]. f_equal. lia.
Qed.
End builder.
