(* ===== verification/ResponseWriter.v ===== *)
(** * ResponseWriter: the documents of a result

    src/src/core/Response_Writer.c: a result of ResultsetBuilder.v as XML and
    as JSON, the outcome of a write as XML and as JSON, the store of both
    documents of a SELECT in the result cache; and the check of a JSON
    document against its result in src/src/execute/
    Execute_Query_Batch_Module.c.  cJSON is not in the sources: the class
    [JsonPrinter] has what the writers build and print with.  A document that
    cJSON finds no memory for is one that does not print. *)

From Stdlib Require Import Ascii String ZArith Lia Bool.
From stdpp Require Import base list strings numbers.
From S2P Require Import Prelude Text Hash Cache CacheSpec ResultsetCache XmlHelper DdlModules Requests.
From S2P Require Import Level1Parser Level1Formats ResultsetBuilder.

#[local] Open Scope Z_scope.

(** ** Building JSON *)

Class JsonPrinter := {
  printer_tree :: JsonTree;
  printer_laws :: JsonLaws;
  json_double : double -> json;
  cJSON_PrintUnformatted : json -> option (list ascii);
}.

(** ** The result of a SELECT *)

(** What is appended for each element of a list, one after the other. *)
Fixpoint each {A} (f : A -> xml_builder -> option xml_builder) (l : list A) (x : xml_builder) : option xml_builder :=
  match l with
  | [] => Some x
  | a :: l => x ← f a x; each f l x
  end.

Definition unless_empty (s : list ascii) : option (list ascii) := match s with [] => None | _ => Some s end.

Definition add_field_xml (fld : resultset_field) (x : xml_builder) : option xml_builder :=
  if is_blob fld then
    let b := blob_detail fld in
    xml_add_blob_field_1 (mk_lob (Some (field_name fld)) (Some (bd_file_name b)) (Some (bd_file_path b)) (unless_empty (bd_file_url b))
      (bd_file_size b mod 2 ^ 32) (Some (bd_mime_type b))) x
  else xml_add_field (Some (field_name fld)) (Some (field_type fld)) (Some (value fld)) x.

Definition add_row_xml (row : resultset_row) (x : xml_builder) : option xml_builder :=
  x ← xml_add_row_start (record_number row) x; x ← each add_field_xml (fields row) x; xml_add_row_end x.

(** A C string ends at its first NUL. *)
Definition c_text (s : list ascii) : list ascii := span (fun c => negb (Ascii.eqb c (chr 0))) s.

(** [None]: undefined; [al_copy]: the copy of the text is allocated. *)
Definition response_write_xml (al_copy : bool) (rs : option resultset) : option (option (list ascii)) :=
  match rs with
  | None => Some None
  | Some rs =>
      x ← xml_start_resultset (xml_create 16384); x ← each add_row_xml (records rs) x; x ← xml_end_resultset x;
      Some (if al_copy then Some (c_text (buffer x)) else None)
  end.

Definition or_text (dflt : string) (s : list ascii) : list ascii := match s with [] => str dflt | _ => s end.

Section json.
Context `{JsonPrinter}.

Definition blob_to_json (b : resultset_blob_detail) : json :=
  json_obj
    ([("file_name"%string, json_str (or_text "N/A" (bd_file_name b))); ("file_path"%string, json_str (or_text "N/A" (bd_file_path b)))] ++
     match bd_file_url b with [] => [] | url => [("file_url"%string, json_str url)] end ++
     [("file_size"%string, json_str (print_int (bd_file_size b)));
      ("mime_type"%string, json_str (or_text "application/octet-stream" (bd_mime_type b)))]).

Definition result_field_json (fld : resultset_field) : json :=
  json_obj
    (("field_name"%string, json_str (field_name fld)) ::
     (if is_blob fld then
        [("field_type"%string, json_str (str "BLOB")); ("field_value"%string, json_str []); ("blob"%string, blob_to_json (blob_detail fld))]
      else [("field_type"%string, json_str (field_type fld)); ("field_value"%string, json_str (value fld))])).

Definition result_row_json (row : resultset_row) : json :=
  json_obj [("row_number"%string, json_num (record_number row)); ("fields"%string, json_arr (map result_field_json (fields row)))].

Definition resultset_to_json (rs : resultset) : json := json_obj [("resultset"%string, json_arr (map result_row_json (records rs)))].

(** [al]: the object and its array are allocated. *)
Definition response_write_json (al : bool) (rs : option resultset) : option (list ascii) :=
  match rs with
  | None => None
  | Some rs => if al then cJSON_PrintUnformatted (resultset_to_json rs) else None
  end.

(** The texts are given to the cache when there is one, a key and an XML
    text; [-1]: there is no JSON text. *)
Definition response_writer_cache_store (al_json dup_ok : bool) (al : nat -> bool) (a : nat) (now : Z) (c : option cache)
    (normalised_key : option (list ascii)) (rs : option resultset) (xml_output : option (list ascii)) (row_count : Z)
    (opts : option cache_entry_opts) : option cache * Z * option (list ascii) :=
  match response_write_json al_json rs with
  | None => (c, -1, None)
  | Some json_str =>
      match c, normalised_key, xml_output with
      | Some _, Some _, Some _ =>
          let '(c', _) := resultset_cache_store dup_ok al a now c normalised_key xml_output (Some json_str) row_count opts in
          (c', 0, Some json_str)
      | _, _, _ => (c, 0, Some json_str)
      end
  end.

(** ** The check of a JSON document *)

Definition item (j : option json) (name : string) : option json := j ← j; get_item j name.

(** [cJSON_IsString(j) && strcmp(j->valuestring, s) == 0] *)
Definition is_text (j : option json) (s : list ascii) : bool :=
  match j ≫= string_value with Some t => str_eqb t s | None => false end.
Definition holds_int (j : option json) (n : Z) : bool := match j ≫= number_value with Some m => m =? n | None => false end.

Definition verify_blob (blob : option json) (b : resultset_blob_detail) : bool :=
  is_text (item blob "file_name") (or_text "N/A" (bd_file_name b)) && is_text (item blob "file_path") (or_text "N/A" (bd_file_path b)) &&
  is_text (item blob "file_size") (print_int (bd_file_size b)) &&
  is_text (item blob "mime_type") (or_text "application/octet-stream" (bd_mime_type b)) &&
  match bd_file_url b with [] => true | url => is_text (item blob "file_url") url end.

Definition verify_field (field_obj : json) (fld : resultset_field) : bool :=
  is_text (get_item field_obj "field_name") (field_name fld) &&
  is_text (get_item field_obj "field_type") (if is_blob fld then str "BLOB" else field_type fld) &&
  (if is_blob fld then verify_blob (get_item field_obj "blob") (blob_detail fld)
   else is_text (get_item field_obj "field_value") (value fld)).

(** An array of as many elements, each of which agrees. *)
Definition verify_items {A} (f : json -> A -> bool) (j : option json) (l : list A) : bool :=
  match j ≫= array_items with
  | Some js => Nat.eqb (length js) (length l) && forallb (fun '(j, a) => f j a) (zip js l)
  | None => false
  end.

Definition verify_row (row_obj : json) (row : resultset_row) : bool :=
  holds_int (get_item row_obj "row_number") (record_number row) && verify_items verify_field (get_item row_obj "fields") (fields row).

Definition verify_response_json_against_resultset (rs : option resultset) (json_str : option (list ascii)) : bool :=
  match rs, json_str with
  | Some rs, Some t =>
      match cJSON_ParseWithLength t with
      | Some root => verify_items verify_row (get_item root "resultset") (records rs)
      | None => false
      end
  | _, _ => false
  end.
End json.

(** ** The outcome of a write *)

(** [dml_response_t] *)
Record dml_response := mk_dml_response { dr_table : list ascii; dr_owner : list ascii; rows_affected : Z; lobs_written : Z }.

Definition op_name (op : operation_type) : list ascii :=
  match op with OP_INSERT => str "INSERT" | OP_UPDATE => str "UPDATE" | OP_DELETE => str "DELETE" | _ => str "?" end.

Definition rows_affected_tag_name (op : operation_type) : option string :=
  match op with
  | OP_INSERT => Some "rows_inserted"%string
  | OP_UPDATE => Some "rows_updated"%string
  | OP_DELETE => Some "rows_deleted"%string
  | _ => None
  end.

(** [None]: NULL; [Some None]: undefined, a piece is too long (XmlHelper.v). *)
Definition response_write_dml_xml (op : operation_type) (resp : dml_response) (elapsed : double) : option (option (list ascii)) :=
  match rows_affected_tag_name op with
  | None => None
  | Some tag => Some (
      x ← append_all
        [element "operation" (op_name op) ++ nl; element "table_name" (dr_table resp) ++ nl; element "owner" (dr_owner resp) ++ nl;
         element tag (print_int (rows_affected resp)) ++ nl; element "lobs_written" (print_int (lobs_written resp)) ++ nl;
         element "execution_time" (print_fixed6 elapsed) ++ nl] (xml_create 1024);
      Some (buffer x))
  end.

Definition response_write_dml_json `{JsonPrinter} (op : operation_type) (resp : dml_response) (elapsed : double) : option (list ascii) :=
  tag ← rows_affected_tag_name op;
  cJSON_PrintUnformatted
    (json_obj
       [("operation"%string, json_str (op_name op)); ("table_name"%string, json_str (dr_table resp)); ("owner"%string, json_str (dr_owner resp));
        (tag, json_num (rows_affected resp)); ("lobs_written"%string, json_num (lobs_written resp)); ("execution_time"%string, json_double elapsed)]).

(** ** What a document says *)

(** A field as a reader of the document finds it. *)
Inductive field_view :=
| ScalarView (name type val : list ascii)
| BlobView (name file path : list ascii) (url : option (list ascii)) (size : list ascii) (mime : list ascii).

Definition row_view : Type := Z * list field_view.

#[export] Instance field_view_eq_dec : EqDecision field_view.
Proof. solve_decision. Defined.

Definition view_field (f : resultset_field) : field_view :=
  if is_blob f then
    let b := blob_detail f in
    BlobView (field_name f) (bd_file_name b) (bd_file_path b) (unless_empty (bd_file_url b)) (print_int (bd_file_size b)) (bd_mime_type b)
  else ScalarView (field_name f) (field_type f) (value f).
Definition view_row (r : resultset_row) : row_view := (record_number r, map view_field (fields r)).
Definition view_resultset (rs : resultset) : list row_view := map view_row (records rs).

(** *** Reading the XML document *)

Definition expect (w s : list ascii) : option (list ascii) := if prefix_b w s then Some (drop (length w) s) else None.
Definition not_lt (c : ascii) : bool := negb (Ascii.eqb c "<").

Definition read_element (tag : string) (s : list ascii) : option (list ascii * list ascii) :=
  s ← expect (open_tag tag) s;
  let t := span not_lt s in
  s ← expect (close_tag tag) (skip not_lt s);
  Some (unescape (length t) t, s).

Definition read_field (s : list ascii) : option (field_view * list ascii) :=
  s ← expect (str "<field>") s;
  '(name, s) ← read_element "field_name" s; '(type, s) ← read_element "field_type" s;
  match expect (str "<field_value/>") s with
  | None => '(val, s) ← read_element "field_value" s; s ← expect (str "</field>" ++ nl) s; Some (ScalarView name type val, s)
  | Some s =>
      s ← expect (str "<blob>") s;
      '(file, s) ← read_element "file_name" s; '(path, s) ← read_element "file_path" s;
      let '(url, s) := match read_element "file_url" s with Some (url, s) => (Some url, s) | None => (None, s) end in
      '(sz, s) ← read_element "file_size" s; '(mime, s) ← read_element "mime_type" s;
      s ← expect (str "</blob></field>" ++ nl) s; Some (BlobView name file path url sz mime, s)
  end.

(** Elements up to a closing tag. *)
Fixpoint read_many {A} (read : list ascii -> option (A * list ascii)) (stop : list ascii) (fuel : nat) (s : list ascii)
    : option (list A * list ascii) :=
  match expect stop s with
  | Some s => Some ([], s)
  | None =>
      match fuel with
      | O => None
      | S fuel => '(a, s) ← read s; '(l, s) ← read_many read stop fuel s; Some (a :: l, s)
      end
  end.

Definition read_row (s : list ascii) : option (row_view * list ascii) :=
  s ← expect (str "<row number=" ++ [dquote]) s;
  let n := span isdigit s in
  s ← expect (dquote :: str ">" ++ nl) (skip isdigit s);
  '(fs, s) ← read_many read_field (str "</row>" ++ nl) (length s) s;
  Some ((atol n, fs), s).

Definition read_resultset (s : list ascii) : option (list row_view) :=
  s ← expect (str "<resultset>" ++ nl) s;
  '(rows, s) ← read_many read_row (str "</resultset>" ++ nl) (length s) s;
  match s with [] => Some rows | _ => None end.

(** *** Reading the JSON document *)

Section read_json.
Context `{JsonPrinter}.

Definition text_of (j : option json) : option (list ascii) := j ≫= string_value.

Definition json_field (j : json) : option field_view :=
  name ← text_of (get_item j "field_name"); type ← text_of (get_item j "field_type");
  match get_item j "blob" with
  | None => val ← text_of (get_item j "field_value"); Some (ScalarView name type val)
  | Some b =>
      file ← text_of (get_item b "file_name"); path ← text_of (get_item b "file_path");
      sz ← text_of (get_item b "file_size"); mime ← text_of (get_item b "mime_type");
      Some (BlobView name file path (text_of (get_item b "file_url")) sz mime)
  end.

Definition json_row (j : json) : option row_view :=
  n ← get_item j "row_number" ≫= number_value; fs ← get_item j "fields" ≫= array_items;
  fs ← mapM json_field fs; Some (n, fs).

Definition json_resultset (j : json) : option (list row_view) :=
  rows ← get_item j "resultset" ≫= array_items; mapM json_row rows.
End read_json.

(** ** The XML document, piece by piece *)

Section xml.
Implicit Types (s t k : list ascii) (f : resultset_field) (r : resultset_row) (x : xml_builder).

Definition url_pieces (url : list ascii) : list (list ascii) :=
  match unless_empty url with None => [] | Some url => [element "file_url" (escaped url)] end.

Definition blob_pieces f : list (list ascii) :=
  let b := blob_detail f in
  (blob_head (escaped (field_name f)) ++ str "<blob>" ++ element "file_name" (escaped (bd_file_name b)) ++
     element "file_path" (escaped (bd_file_path b))) ::
  url_pieces (bd_file_url b) ++
  [element "file_size" (print_int (bd_file_size b mod 2 ^ 32)) ++ element "mime_type" (bd_mime_type b) ++ str "</blob></field>" ++ nl].

Definition field_pieces f : list (list ascii) :=
  if is_blob f then blob_pieces f
  else [str "<field>" ++ element "field_name" (escaped (field_name f)) ++ element "field_type" (escaped (field_type f)) ++
        element "field_value" (escaped (value f)) ++ str "</field>" ++ nl].

Definition row_head (n : Z) : list ascii := str "<row number=" ++ dquote :: print_int (n mod 2 ^ 32) ++ dquote :: str ">" ++ nl.

Definition row_pieces r : list (list ascii) :=
  row_head (record_number r) :: concat (map field_pieces (fields r)) ++ [str "</row>" ++ nl].

Definition document_pieces (rs : resultset) : list (list ascii) :=
  (str "<resultset>" ++ nl) :: concat (map row_pieces (records rs)) ++ [str "</resultset>" ++ nl].

(** No piece reaches the 8192 bytes of the builder's array. *)
Definition field_short f : Prop := Forall (fun t => (length t < XML_TEMP)%nat) (field_pieces f).
Definition resultset_short (rs : resultset) : Prop := Forall (fun r => Forall field_short (fields r)) (records rs).

Lemma append_all_app l l' x : append_all (l ++ l') x = append_all l x ≫= append_all l'.
Proof.
  revert x. induction l as [|t l IH]; intros x; cbn [app append_all]; [done|]. destruct (xml_append t x) as [x'|]; [|done]. apply IH.
Qed.

Lemma each_append_all {A} (g : A -> xml_builder -> option xml_builder) (p : A -> list (list ascii)) (l : list A) x :
  (forall a x, g a x = append_all (p a) x) -> each g l x = append_all (concat (map p l)) x.
Proof.
  intros Hg. revert x. induction l as [|a l IH]; intros x; cbn [each map concat]; [done|]. rewrite append_all_app, Hg.
  destruct (append_all (p a) x) as [x'|]; [|done]. apply IH.
Qed.

Lemma append_all_one t x : append_all [t] x = xml_append t x.
Proof. cbn [append_all]. by destruct (xml_append t x). Qed.

Lemma add_field_pieces f x : add_field_xml f x = append_all (field_pieces f) x.
Proof.
  unfold add_field_xml, field_pieces. destruct (is_blob f).
  - unfold xml_add_blob_field_1, blob_pieces.
    cbn [default column_name file_name output_file_destination output_file_url blob_size mime_type].
    rewrite !xml_escape_spec. cbn [mbind option_bind append_all].
    destruct (xml_append _ x) as [x1|]; [|done]. cbn [mbind option_bind].
    assert (u64 (bd_file_size (blob_detail f) mod 2 ^ 32) = bd_file_size (blob_detail f) mod 2 ^ 32) as ->.
    { apply u64_small. pose proof (Z.mod_pos_bound (bd_file_size (blob_detail f)) (2 ^ 32)). lia. }
    unfold url_pieces. destruct (bd_file_url (blob_detail f)) as [|c url]; cbn [unless_empty app append_all mbind option_bind]; [by destruct (xml_append _ x1)|].
    rewrite xml_escape_spec. cbn [mbind option_bind]. destruct (xml_append _ x1) as [x2|]; [|done]. cbn [mbind option_bind]. by destruct (xml_append _ x2).
  - unfold xml_add_field. rewrite !xml_escape_spec. cbn [mbind option_bind]. by rewrite append_all_one.
Qed.

Lemma add_row_pieces r x : add_row_xml r x = append_all (row_pieces r) x.
Proof.
  unfold add_row_xml, row_pieces. cbn [append_all]. change (row_head _) with (row_head (record_number r)).
  unfold xml_add_row_start, row_head. destruct (xml_append _ x) as [x1|]; [|done]. cbn [mbind option_bind].
  rewrite append_all_app, (each_append_all _ field_pieces) by apply add_field_pieces.
  destruct (append_all (concat _) x1) as [x2|]; [|done]. cbn [mbind option_bind]. by rewrite append_all_one.
Qed.

Lemma response_write_xml_pieces al rs :
  response_write_xml al (Some rs) =
    (x ← append_all (document_pieces rs) (xml_create 16384); Some (if al then Some (c_text (buffer x)) else None)).
Proof.
  unfold response_write_xml, document_pieces, xml_start_resultset. cbn [append_all]. destruct (xml_append _ _) as [x1|]; [|done].
  cbn [mbind option_bind]. rewrite append_all_app, (each_append_all _ row_pieces) by apply add_row_pieces.
  destruct (append_all (concat _) x1) as [x2|]; [|done]. cbn [mbind option_bind]. rewrite append_all_one.
  unfold xml_end_resultset. by destruct (xml_append _ x2).
Qed.

Lemma row_head_short n : (length (row_head n) < XML_TEMP)%nat.
Proof.
  unfold row_head. repeat (rewrite length_app || rewrite length_cons).
  pose proof (Z.mod_pos_bound n (2 ^ 32) eq_refl) as Hn.
  assert (length (print_int (n mod 2 ^ 32)) <= 12)%nat.
  { apply (print_int_length _ 10); [|lia]. change (10 ^ Z.of_nat 11) with 100000000000. lia. }
  change (length (str "<row number=")) with 12%nat. change (length (str ">")) with 1%nat. change (length nl) with 1%nat. unfold XML_TEMP. lia.
Qed.

Lemma document_pieces_short rs : resultset_short rs -> Forall (fun t => (length t < XML_TEMP)%nat) (document_pieces rs).
Proof.
  intros H. unfold document_pieces. constructor; [unfold XML_TEMP; cbn; lia|]. apply Forall_app. split; [|constructor; [unfold XML_TEMP; cbn; lia|constructor]].
  apply Forall_concat, Forall_map. eapply List.Forall_impl; [|exact H]. intros r Hr. cbv beta. unfold row_pieces.
  constructor; [apply row_head_short|]. apply Forall_app. split; [|constructor; [unfold XML_TEMP; cbn; lia|constructor]].
  by apply Forall_concat, Forall_map.
Qed.

Lemma resultset_text al rs : resultset_short rs ->
  response_write_xml al (Some rs) = Some (if al then Some (c_text (concat (document_pieces rs))) else None).
Proof.
  intros H. rewrite response_write_xml_pieces.
  destruct (append_all_ok (document_pieces rs) (xml_create 16384)) as (x & -> & E & _); [done|by apply document_pieces_short|].
  cbn [mbind option_bind]. by rewrite E.
Qed.
End xml.

(** ** Reading back *)

Definition c_string (s : list ascii) : Prop := Forall (fun c => c <> chr 0) s.
Definition xml_plain (s : list ascii) : Prop := escaped s = s.

(** What both documents say in full: the name, the path and the type of a
    file are not empty, the type needs no escaping, the size is below 4 GB. *)
Definition blob_documented (b : resultset_blob_detail) : Prop :=
  bd_file_name b <> [] /\ bd_file_path b <> [] /\ bd_mime_type b <> [] /\ xml_plain (bd_mime_type b) /\ 0 <= bd_file_size b < 2 ^ 32.
Definition blob_strings (b : resultset_blob_detail) : Prop :=
  c_string (bd_file_name b) /\ c_string (bd_file_path b) /\ c_string (bd_file_url b) /\ c_string (bd_mime_type b).
Definition field_documented (f : resultset_field) : Prop :=
  c_string (field_name f) /\ c_string (field_type f) /\ c_string (value f) /\
  (is_blob f = true -> blob_strings (blob_detail f) /\ blob_documented (blob_detail f)).
Definition row_documented (r : resultset_row) : Prop := 0 <= record_number r < 2 ^ 31 /\ Forall field_documented (fields r).

#[export] Instance row_documented_dec r : Decision (row_documented r).
Proof. unfold row_documented, field_documented, blob_strings, blob_documented, c_string, xml_plain. apply _. Defined.
#[export] Instance resultset_short_dec rs : Decision (resultset_short rs).
Proof. unfold resultset_short, field_short. apply _. Defined.

Section reading.
Implicit Types (s t k : list ascii) (f : resultset_field) (r : resultset_row) (tag : string).

Lemma expect_app w k : expect w (w ++ k) = Some k.
Proof.
  unfold expect. assert (prefix_b w (w ++ k) = true) as -> by (apply prefix_b_spec; by eexists). by rewrite drop_app_length.
Qed.

Lemma unescape_escaped n s : (length s <= n)%nat -> unescape n (escaped s) = s.
Proof.
  unfold escaped. revert n. induction s as [|c s IH]; intros [|n] H; cbn [map concat length] in *; try lia; try done.
  rewrite unescape_step, IH by lia. done.
Qed.

Lemma escaped_longer s : (length s <= length (escaped s))%nat.
Proof.
  unfold escaped. induction s as [|c s IH]; cbn [map concat length]; [lia|]. rewrite length_app. pose proof (escape_char_length c). lia.
Qed.

Lemma escaped_not_lt s : Forall (fun c => not_lt c = true) (escaped s).
Proof.
  unfold escaped. apply Forall_concat, Forall_map. apply List.Forall_forall. intros c _. cbv beta. unfold escape_char, not_lt.
  destruct (Ascii.eqb_spec c "&"); [by repeat constructor|]. destruct (Ascii.eqb_spec c "<"); [by repeat constructor|].
  destruct (Ascii.eqb_spec c ">"); [by repeat constructor|]. destruct (Ascii.eqb_spec c dquote); [by repeat constructor|].
  destruct (Ascii.eqb_spec c "'"); [by repeat constructor|]. constructor; [|constructor]. by apply negb_true_iff, Ascii.eqb_neq.
Qed.

Lemma read_element_escaped tag s k : read_element tag (element tag (escaped s) ++ k) = Some (s, k).
Proof.
  unfold read_element, element. change (str "<" ++ str tag ++ str ">" ++ escaped s ++ str "</" ++ str tag ++ str ">") with
    (str "<" ++ str tag ++ str ">" ++ (escaped s ++ str "</" ++ str tag ++ str ">")).
  rewrite !app_assoc. rewrite <- (app_assoc (str "<") (str tag) (str ">")). change (str "<" ++ str tag ++ str ">") with (open_tag tag).
  rewrite <- !app_assoc, expect_app. cbn [mbind option_bind]. change (str "</" ++ str tag ++ str ">" ++ k) with ("<"%char :: str "/" ++ str tag ++ str ">" ++ k).
  rewrite span_app_cons, skip_app_cons by done.
  assert (span not_lt (escaped s) = escaped s /\ skip not_lt (escaped s) = []) as [-> ->].
  { pose proof (skip_app_all not_lt (escaped s) [] (escaped_not_lt s)) as E. rewrite app_nil_r in E. split; [|done].
    pose proof (span_skip not_lt (escaped s)) as E2. rewrite E in E2. by rewrite app_nil_r in E2. }
  cbn [app]. assert ("<"%char :: str "/" ++ str tag ++ str ">" ++ k = close_tag tag ++ k) as ->.
  { unfold close_tag. by rewrite <- !app_assoc. }
  rewrite expect_app. cbn [mbind option_bind]. by rewrite unescape_escaped by apply escaped_longer.
Qed.

Lemma read_element_plain tag s k : xml_plain s -> read_element tag (element tag s ++ k) = Some (s, k).
Proof. unfold xml_plain. intros E. rewrite <- E at 1. apply read_element_escaped. Qed.

Lemma print_int_plain n : xml_plain (print_int n).
Proof.
  unfold xml_plain, escaped. induction (print_int_chars n) as [|c s Hc _ IH]; [done|]. cbn [map concat]. rewrite IH.
  assert (escape_char c = [c]) as ->; [|done]. revert Hc. clear. all_ascii c.
Qed.

Lemma read_many_spec {A B} (read : list ascii -> option (B * list ascii)) (text : A -> list ascii) (view : A -> B) stop l k : forall fuel,
  (length l <= fuel)%nat ->
  Forall (fun a => (forall k, read (text a ++ k) = Some (view a, k)) /\ forall k, expect stop (text a ++ k) = None) l ->
  read_many read stop fuel (concat (map text l) ++ stop ++ k) = Some (map view l, k).
Proof.
  induction l as [|a l IH]; intros fuel Hf H; cbn [map concat app].
  - destruct fuel; cbn [read_many]; by rewrite expect_app.
  - apply Forall_cons_iff in H as [[H1 H2] H]. destruct fuel as [|fuel]; [cbn in Hf; lia|]. cbn [read_many].
    rewrite <- app_assoc, H2, H1. cbn [mbind option_bind]. rewrite IH by (done || cbn in Hf; lia). done.
Qed.
Lemma read_scalar f k : is_blob f = false -> read_field (concat (field_pieces f) ++ k) = Some (view_field f, k).
Proof.
  intros Hb. unfold field_pieces, view_field. rewrite Hb. cbn [concat]. rewrite app_nil_r. unfold read_field.
  rewrite <- !app_assoc, expect_app. cbn [mbind option_bind]. rewrite read_element_escaped. cbn [mbind option_bind].
  rewrite read_element_escaped. cbn [mbind option_bind].
  assert (forall z, expect (str "<field_value/>") (element "field_value" (escaped (value f)) ++ z) = None) as -> by done.
  rewrite read_element_escaped. cbn [mbind option_bind]. change (str "</field>" ++ nl ++ k) with ((str "</field>" ++ nl) ++ k).
  rewrite expect_app. done.
Qed.

Definition blob_tail f : list ascii :=
  element "file_size" (print_int (bd_file_size (blob_detail f) mod 2 ^ 32)) ++ element "mime_type" (bd_mime_type (blob_detail f)) ++
  str "</blob></field>" ++ nl.

Lemma read_blob f k : is_blob f = true -> blob_documented (blob_detail f) -> read_field (concat (field_pieces f) ++ k) = Some (view_field f, k).
Proof.
  intros Hb (_ & _ & _ & Hm & Hs). unfold field_pieces, view_field. rewrite Hb. unfold blob_pieces. fold (blob_tail f).
  cbn [concat]. rewrite concat_app. cbn [concat]. rewrite app_nil_r. unfold read_field, blob_head. rewrite <- !app_assoc, expect_app. cbn [mbind option_bind].
  rewrite read_element_escaped. cbn [mbind option_bind]. rewrite (read_element_plain "field_type" (str "BLOB")) by done. cbn [mbind option_bind].
  rewrite expect_app, expect_app. cbn [mbind option_bind]. rewrite read_element_escaped. cbn [mbind option_bind].
  rewrite read_element_escaped. cbn [mbind option_bind].
  set (rest := blob_tail f ++ k).
  assert (match read_element "file_url" (concat (url_pieces (bd_file_url (blob_detail f))) ++ rest) with
          | Some (url, s) => (Some url, s)
          | None => (None, concat (url_pieces (bd_file_url (blob_detail f))) ++ rest)
          end = (unless_empty (bd_file_url (blob_detail f)), rest)) as ->.
  { unfold url_pieces. destruct (bd_file_url (blob_detail f)) as [|c url]; cbn [unless_empty concat app]; [done|].
    by rewrite app_nil_r, read_element_escaped. }
  unfold rest. clear rest.
  unfold blob_tail. rewrite Z.mod_small, <- !app_assoc by done. rewrite read_element_plain by apply print_int_plain. cbn [mbind option_bind].
  rewrite read_element_plain by done. cbn [mbind option_bind]. change (str "</blob></field>" ++ nl ++ k) with ((str "</blob></field>" ++ nl) ++ k).
  rewrite expect_app. done.
Qed.

Lemma read_field_spec f k : field_documented f -> read_field (concat (field_pieces f) ++ k) = Some (view_field f, k).
Proof. intros (_ & _ & _ & H). destruct (is_blob f) eqn:Hb; [apply read_blob; [done|by apply H]|by apply read_scalar]. Qed.

Lemma concat_concat_map {A B} (p : A -> list (list B)) l : concat (concat (map p l)) = concat (map (fun a => concat (p a)) l).
Proof. induction l as [|a l IH]; cbn [map concat]; [done|]. by rewrite concat_app, IH. Qed.

Lemma texts_length {A} (text : A -> list ascii) l k : (forall a, text a <> []) -> (length l <= length (concat (map text l) ++ k))%nat.
Proof.
  intros H. rewrite length_app. induction l as [|a l IH]; cbn [map concat length]; [lia|]. rewrite length_app.
  specialize (H a). destruct (text a); cbn [length]; [done|lia].
Qed.

Lemma field_text_head f : exists s, concat (field_pieces f) = str "<field>" ++ s.
Proof. unfold field_pieces. destruct (is_blob f); [unfold blob_pieces, blob_head|]; cbn [concat]; rewrite <- !app_assoc; by eexists. Qed.

Lemma row_text_head r : exists s, concat (row_pieces r) = str "<row number=" ++ s.
Proof. unfold row_pieces, row_head. cbn [concat]. rewrite <- !app_assoc. by eexists. Qed.

Lemma read_row_spec r k : row_documented r -> read_row (concat (row_pieces r) ++ k) = Some (view_row r, k).
Proof.
  intros [Hn Hf]. unfold row_pieces, row_head, view_row. rewrite Z.mod_small by lia. cbn [concat]. rewrite concat_app, concat_concat_map.
  cbn [concat]. rewrite app_nil_r. unfold read_row. set (stop := str "</row>" ++ nl). rewrite <- !app_assoc.
  set (body := concat (map (fun f => concat (field_pieces f)) (fields r)) ++ stop ++ k).
  change (str "<row number=" ++ (dquote :: print_int (record_number r) ++ dquote :: str ">" ++ nl) ++ body) with
    ((str "<row number=" ++ [dquote]) ++ (print_int (record_number r) ++ dquote :: str ">" ++ nl) ++ body).
  rewrite expect_app. cbn [mbind option_bind]. rewrite <- app_assoc. change ((dquote :: str ">" ++ nl) ++ body) with (dquote :: (str ">" ++ nl) ++ body).
  rewrite span_app_cons, skip_app_cons by done.
  assert (Forall (fun c => isdigit c = true) (print_int (record_number r))) as Hd.
  { unfold print_int. destruct (Z.ltb_spec (record_number r) 0); [lia|]. apply print_dec_digits. }
  pose proof (skip_app_all isdigit _ [] Hd) as E. rewrite app_nil_r in E. cbn [skip] in E.
  pose proof (span_skip isdigit (print_int (record_number r))) as E2. rewrite E, app_nil_r in E2. rewrite E, E2.
  change ([] ++ dquote :: (str ">" ++ nl) ++ body) with ((dquote :: str ">" ++ nl) ++ body). rewrite expect_app. cbn [mbind option_bind].
  unfold body. rewrite (read_many_spec read_field _ view_field).
  - cbn [mbind option_bind]. by rewrite atol_print_int by lia.
  - apply texts_length. intros f. destruct (field_text_head f) as [t ->]. done.
  - eapply List.Forall_impl; [|exact Hf]. intros f H. split; [intros k'; by apply read_field_spec|]. intros k'. by destruct (field_text_head f) as [t ->].
Qed.

Lemma read_resultset_spec rs : Forall row_documented (records rs) -> read_resultset (concat (document_pieces rs)) = Some (view_resultset rs).
Proof.
  intros H. unfold document_pieces, read_resultset, view_resultset. cbn [concat]. rewrite concat_app, concat_concat_map, expect_app.
  cbn [mbind option_bind concat]. rewrite (read_many_spec read_row _ view_row); [done| |].
  - apply texts_length. intros r. destruct (row_text_head r) as [t ->]. done.
  - eapply List.Forall_impl; [|exact H]. intros r Hr. split; [intros k; by apply read_row_spec|]. intros k. by destruct (row_text_head r) as [t ->].
Qed.

(** *** The text has no NUL *)

Lemma c_text_id s : c_string s -> c_text s = s.
Proof.
  unfold c_text. induction 1 as [|c s Hc _ IH]; cbn [span]; [done|]. destruct (Ascii.eqb_spec c (chr 0)); [done|]. cbn [negb]. by rewrite IH.
Qed.

Lemma escaped_c_string s : c_string s -> c_string (escaped s).
Proof.
  unfold c_string, escaped. intros H. apply Forall_concat, Forall_map. eapply List.Forall_impl; [|exact H]. intros c Hc. cbv beta.
  unfold escape_char. repeat case_match; try (by repeat constructor).
Qed.

Lemma print_int_c_string n : c_string (print_int n).
Proof. eapply List.Forall_impl; [|apply print_int_chars]. intros c Hc ->. by vm_compute in Hc. Qed.

Lemma str_c_string (s : string) : forallb (fun c => negb (Ascii.eqb c (chr 0))) (str s) = true -> c_string (str s).
Proof. intros H. apply List.Forall_forall. intros c Hc ->. rewrite forallb_forall in H. by specialize (H _ Hc). Qed.

Lemma element_c_string tag s : forallb (fun c => negb (Ascii.eqb c (chr 0))) (str tag) = true -> c_string s -> c_string (element tag s).
Proof. intros Ht Hs. unfold element. repeat (apply Forall_app; split); try done; try (by apply str_c_string). Qed.

(** Concatenations of literals, elements and numbers. *)
Ltac c_strings :=
  repeat first [apply Forall_app; split | apply element_c_string; [reflexivity|] | apply escaped_c_string; assumption | apply print_int_c_string
               | apply str_c_string; reflexivity | apply Forall_cons; [done|] | assumption | by repeat constructor].

Lemma field_c_string f : field_documented f -> c_string (concat (field_pieces f)).
Proof.
  intros (H1 & H2 & H3 & Hb). unfold field_pieces. destruct (is_blob f).
  - destruct (Hb eq_refl) as [(B1 & B2 & B3 & B4) _]. unfold blob_pieces, blob_head. cbn [concat]. rewrite concat_app. cbn [concat].
    rewrite !app_nil_r. unfold c_string. c_strings. unfold url_pieces. destruct (unless_empty _) as [u|] eqn:E; [|constructor].
    cbn [concat]. rewrite app_nil_r. apply element_c_string; [reflexivity|]. apply escaped_c_string.
    destruct (bd_file_url (blob_detail f)); [done|]. by injection E as <-.
  - cbn [concat]. rewrite app_nil_r. unfold c_string. c_strings.
Qed.

Lemma document_c_string rs : Forall row_documented (records rs) -> c_string (concat (document_pieces rs)).
Proof.
  intros H. unfold document_pieces. cbn [concat]. rewrite concat_app, concat_concat_map. cbn [concat]. rewrite app_nil_r. unfold c_string.
  repeat (apply Forall_app; split); try (by repeat constructor); try (by apply str_c_string).
  apply Forall_concat, Forall_map. eapply List.Forall_impl; [|exact H]. intros r [_ Hf]. cbv beta. unfold row_pieces, row_head.
  cbn [concat]. rewrite concat_app, concat_concat_map. cbn [concat]. rewrite app_nil_r. c_strings.
  apply Forall_concat, Forall_map. eapply List.Forall_impl; [|exact Hf]. intros f. apply field_c_string.
Qed.
End reading.

Section json_reading.
Context `{JsonPrinter}.
Implicit Types (f : resultset_field) (r : resultset_row) (b : resultset_blob_detail).

Lemma or_text_id dflt s : s <> [] -> or_text dflt s = s.
Proof. by destruct s. Qed.

Lemma is_text_str t : is_text (Some (json_str t)) t = true.
Proof. unfold is_text. cbn [mbind option_bind]. rewrite str_value. unfold str_eqb. by apply bool_decide_eq_true_2. Qed.

Lemma text_of_str t : text_of (Some (json_str t)) = Some t.
Proof. apply str_value. Qed.

(** The members of a BLOB's object, by name. *)
Lemma blob_items b :
  item (Some (blob_to_json b)) "file_name" = Some (json_str (or_text "N/A" (bd_file_name b))) /\
  item (Some (blob_to_json b)) "file_path" = Some (json_str (or_text "N/A" (bd_file_path b))) /\
  item (Some (blob_to_json b)) "file_size" = Some (json_str (print_int (bd_file_size b))) /\
  item (Some (blob_to_json b)) "mime_type" = Some (json_str (or_text "application/octet-stream" (bd_mime_type b))) /\
  item (Some (blob_to_json b)) "file_url" = (json_str <$> unless_empty (bd_file_url b)).
Proof.
  unfold blob_to_json, item. cbn [mbind option_bind]. rewrite !obj_item. by destruct (bd_file_url b); cbn [app]; rewrite !member_cons; cbn.
Qed.

Lemma field_items f :
  get_item (result_field_json f) "field_name" = Some (json_str (field_name f)) /\
  get_item (result_field_json f) "field_type" = Some (json_str (if is_blob f then str "BLOB" else field_type f)) /\
  get_item (result_field_json f) "field_value" = Some (json_str (if is_blob f then [] else value f)) /\
  get_item (result_field_json f) "blob" = (if is_blob f then Some (blob_to_json (blob_detail f)) else None).
Proof. unfold result_field_json. rewrite !obj_item, !member_cons. by destruct (is_blob f); cbn [app]; rewrite !member_cons; cbn. Qed.

Lemma verify_field_holds f : verify_field (result_field_json f) f = true.
Proof.
  destruct (field_items f) as (E1 & E2 & E3 & E4). unfold verify_field. rewrite E1, E2, E3, E4, !is_text_str. cbn [andb].
  destruct (is_blob f); [|apply is_text_str]. destruct (blob_items (blob_detail f)) as (B1 & B2 & B3 & B4 & B5).
  unfold verify_blob. rewrite B1, B2, B3, B4, B5, !is_text_str. cbn [andb].
  destruct (bd_file_url (blob_detail f)); [done|]. apply is_text_str.
Qed.

Lemma verify_items_map {A} (g : json -> A -> bool) (to_json : A -> json) l :
  Forall (fun a => g (to_json a) a = true) l -> verify_items g (Some (json_arr (map to_json l))) l = true.
Proof.
  intros Hl. unfold verify_items. cbn [mbind option_bind]. rewrite arr_items, length_map, Nat.eqb_refl. cbn [andb].
  induction Hl as [|a l Ha _ IH]; cbn [map zip zip_with forallb]; [done|]. by rewrite Ha, IH.
Qed.

Lemma row_items r :
  get_item (result_row_json r) "row_number" = Some (json_num (record_number r)) /\
  get_item (result_row_json r) "fields" = Some (json_arr (map result_field_json (fields r))).
Proof. unfold result_row_json. rewrite !obj_item, !member_cons. by cbn. Qed.

Lemma verify_row_holds r : - 2 ^ 31 <= record_number r < 2 ^ 31 -> verify_row (result_row_json r) r = true.
Proof.
  intros Hr. destruct (row_items r) as [E1 E2]. unfold verify_row, holds_int. rewrite E1, E2. cbn [mbind option_bind].
  rewrite num_value, Z.eqb_refl by done. cbn [andb]. apply verify_items_map, List.Forall_forall. intros f _. apply verify_field_holds.
Qed.

Lemma result_field_reads f : field_documented f -> json_field (result_field_json f) = Some (view_field f).
Proof.
  intros (_ & _ & _ & Hd). destruct (field_items f) as (E1 & E2 & E3 & E4). unfold json_field, view_field. rewrite E1, E2, E3, E4, !text_of_str.
  cbn [mbind option_bind]. destruct (is_blob f); [|done]. destruct (Hd eq_refl) as [_ (H1 & H2 & H3 & _)].
  destruct (blob_items (blob_detail f)) as (B1 & B2 & B3 & B4 & B5). unfold item in *. cbn [mbind option_bind] in *.
  rewrite B1, B2, B3, B4, B5, !text_of_str, !or_text_id by done. cbn [mbind option_bind]. destruct (unless_empty _); [|done]. cbn [fmap option_fmap option_map]. by rewrite text_of_str.
Qed.

Lemma mapM_map {A B C} (g : B -> option C) (h : A -> B) (v : A -> C) l : Forall (fun a => g (h a) = Some (v a)) l -> mapM g (map h l) = Some (map v l).
Proof. induction 1 as [|a l Ha _ IH]; cbn [map mapM]; [done|]. rewrite Ha. cbn [mbind option_bind]. by rewrite IH. Qed.

Lemma result_row_reads r : row_documented r -> json_row (result_row_json r) = Some (view_row r).
Proof.
  intros [Hn Hf]. destruct (row_items r) as [E1 E2]. unfold json_row, view_row. rewrite E1, E2. cbn [mbind option_bind].
  rewrite num_value by lia. cbn [mbind option_bind]. rewrite arr_items. cbn [mbind option_bind].
  rewrite (mapM_map _ _ view_field); [done|]. eapply List.Forall_impl; [|exact Hf]. intros f. apply result_field_reads.
Qed.

Lemma result_set_reads rs : Forall row_documented (records rs) -> json_resultset (resultset_to_json rs) = Some (view_resultset rs).
Proof.
  intros Hr. unfold json_resultset, resultset_to_json, view_resultset. rewrite obj_item, member_cons, String.eqb_refl. cbn [mbind option_bind]. rewrite arr_items. cbn [mbind option_bind]. apply mapM_map.
  eapply List.Forall_impl; [|exact Hr]. intros r. apply result_row_reads.
Qed.

Lemma verify_resultset rs t : Forall (fun r => - 2 ^ 31 <= record_number r < 2 ^ 31) (records rs) ->
  cJSON_ParseWithLength t = Some (resultset_to_json rs) -> verify_response_json_against_resultset (Some rs) (Some t) = true.
Proof.
  intros Hr Hp. unfold verify_response_json_against_resultset. rewrite Hp. unfold resultset_to_json. rewrite obj_item, member_cons, String.eqb_refl. apply verify_items_map.
  eapply List.Forall_impl; [|exact Hr]. intros r. apply verify_row_holds.
Qed.
End json_reading.

(** ** The property *)

(** C35: the two documents of a result say the same, and say all of it: as long
    as no field is so long that its piece reaches the builder's array, and
    every file of a BLOB has a name, a path, a plain type and less than 4 GB,
    the XML text - read back by any reader that resolves the five entities -
    and the JSON text - once parsed - give the rows in order with every name,
    type and value as they are in the result; and the check that follows the
    rendering finds no difference. *)
Theorem result_documents_agree `{JsonPrinter} (rs : resultset) :
  Forall row_documented (records rs) -> resultset_short rs ->
  (exists doc, response_write_xml true (Some rs) = Some (Some doc) /\ read_resultset doc = Some (view_resultset rs)) /\
  forall t, response_write_json true (Some rs) = Some t -> cJSON_ParseWithLength t = Some (resultset_to_json rs) ->
    (cJSON_ParseWithLength t ≫= json_resultset) = Some (view_resultset rs) /\
    verify_response_json_against_resultset (Some rs) (Some t) = true.
Proof.
  intros Hd Hs. split.
  - exists (concat (document_pieces rs)). rewrite resultset_text by done. rewrite c_text_id by (by apply document_c_string).
    split; [done|by apply read_resultset_spec].
  - intros t _ Hp. split; [rewrite Hp; by apply result_set_reads|]. apply verify_resultset; [|done].
    eapply List.Forall_impl; [|exact Hd]. intros r [Hr _]. lia.
Qed.

(** ** Examples *)

(** A printer whose texts the reader of the same document reads back. *)
Definition demo_printer (doc : option json_tree) : JsonPrinter := {|
  printer_tree := json_reader doc;
  printer_laws := json_laws doc;
  json_double x := JStr (print_fixed6 x);
  cJSON_PrintUnformatted _ := Some (str "{}") |}.

Definition scalar (name type val : string) : resultset_field := mk_rs_field (str name) (str type) (str val) false no_blob.
Definition demo_blob (url mime : string) (sz : Z) : resultset_field :=
  mk_rs_field (str "PHOTO") (str "BLOB") [] true (mk_blob_detail (str "p.png") (str "/out/p.png") (str url) sz (str mime)).
Definition demo_resultset : resultset :=
  mk_resultset [mk_rs_row 1 [scalar "NAME" "VARCHAR2" "Smith & Sons <Ltd>"; demo_blob "http://h/p.png" "image/png" 10];
                mk_rs_row 2 [scalar "NAME" "VARCHAR2" ""; demo_blob "" "image/png" 11]].

Definition demo_json (rs : resultset) : json_tree := @resultset_to_json (demo_printer None) rs.

Lemma result_documents_agree_witness :
  (exists doc, response_write_xml true (Some demo_resultset) = Some (Some doc) /\ read_resultset doc = Some (view_resultset demo_resultset)) /\
  @verify_response_json_against_resultset (demo_printer (Some (demo_json demo_resultset))) (Some demo_resultset) (Some (str "{}")) = true.
Proof.
  destruct (@result_documents_agree (demo_printer (Some (demo_json demo_resultset))) demo_resultset) as [H1 H2].
  - apply (bool_decide_unpack _). vm_compute. exact I.
  - apply (bool_decide_unpack _). vm_compute. exact I.
  - split; [exact H1|]. apply (H2 (str "{}")); reflexivity.
Defined.

(** A name, a path or a type that is empty, and a size of 4 GB: the two
    documents of the same BLOB differ. *)
Example blob_documents_differ :
  let rs := mk_resultset [mk_rs_row 1 [mk_rs_field (str "PHOTO") (str "BLOB") [] true (mk_blob_detail [] [] [] (2 ^ 32) [])]] in
  (response_write_xml true (Some rs) ≫= fun doc => doc ≫= read_resultset) = Some [(1, [BlobView (str "PHOTO") [] [] None (str "0") []])] /\
  @json_resultset (demo_printer None) (demo_json rs) =
    Some [(1, [BlobView (str "PHOTO") (str "N/A") (str "N/A") None (str "4294967296") (str "application/octet-stream")])].
Proof. vm_compute. split; reflexivity. Qed.

(** A value of 1400 quotes fits its field, and the XML writer reads past its
    array; the JSON writer does not. *)
Example long_value_overruns :
  let rs := mk_resultset [mk_rs_row 1 [mk_rs_field (str "NOTE") (str "VARCHAR2") (replicate 1400 dquote) false no_blob]] in
  response_write_xml true (Some rs) = None /\
  @json_resultset (demo_printer None) (demo_json rs) = Some [(1, [ScalarView (str "NOTE") (str "VARCHAR2") (replicate 1400 dquote)])].
Proof. vm_compute. split; reflexivity. Qed.
