(* ===== verification/Level2Parser.v ===== *)
(** * Level 2: src/src/core/level 2/Level2_Parser.c

    The checks a request passes before anything is executed: one validator
    per operation, and [level2_validate] over all of them.  The columns of a
    table are what the metadata cache answers (MetadataCache.v).  Dates are
    rewritten in their canonical form on the way, so the validators return the
    request they leave behind; the theorems say what an accepted request is,
    and that validating it again - as the execute modules do - accepts it
    unchanged.  Log lines are left out. *)

From Stdlib Require Import Ascii String ZArith Lia Bool.
From stdpp Require Import base list strings numbers.
From S2P Require Import Prelude Text DbTypeClass DateNormalize InsertValidate SqlDependency DdlModules Requests.

#[local] Open Scope Z_scope.

(** ** Codes and statuses *)

Definition LEVEL2_OK : Z := 0.
Definition LEVEL2_ERR_INVALID_ARG : Z := -1.
Definition LEVEL2_ERR_EMPTY_SQL : Z := -2.
Definition LEVEL2_ERR_SQL_INVALID : Z := -3.
Definition LEVEL2_ERR_NOT_IMPLEMENTED : Z := -4.
Definition LEVEL2_ERR_VALIDATION_FAILED : Z := -5.
Definition LEVEL2_ERR_ROW_COUNT_EXCEEDED : Z := -6.
Definition LEVEL2_ERR_METADATA_LOOKUP : Z := -7.
Definition LEVEL2_ERR_FIELD_INVALID : Z := -8.
Definition LEVEL2_ERR_ASYNC_INVALID : Z := -9.

Definition set_error (code : Z) (err_code : string) (err_text : list ascii) : operation_status :=
  mk_status code (take 63 (str err_code)) (take 255 err_text).
Definition set_ok : operation_status := mk_status 0 (str "-") (str "-").

(** "Request aborted. Level 2 validation failed - %s" *)
Definition aborted (why : string) : list ascii := str "Request aborted. Level 2 validation failed - " ++ str why.

(** ** Columns *)

Definition MAX_TABLE_COLUMNS : nat := Z.to_nat 1024.

Record col_metadata := mk_col {
  meta_name : list ascii;
  meta_type : list ascii;
  data_length : Z;
  data_precision : Z;
  data_scale : Z;
  meta_nullable : list ascii;
  data_default : list ascii;
}.

Definition find_column (cols : list col_metadata) (name : list ascii) : option col_metadata :=
  List.find (fun c => ci_eqb (meta_name c) name) cols.

Definition row_has_field (row : insert_row) (name : list ascii) : bool :=
  existsb (fun fv => ci_eqb (fv_name fv) name) row.

Definition row_field_sets_match (reference row : insert_row) : bool :=
  Nat.eqb (length reference) (length row) &&
  forallb (fun a => existsb (fun b => ci_eqb (fv_name a) (fv_name b)) row) reference.

(** [snprintf(msg, 512, ...)] *)
Definition msg512 (t : list ascii) : list ascii := take 511 t.

Section level2.

(** The year and the month of the current date; what [sscanf] makes of a
    number no [int] holds (InsertValidate.v); [max_bulk_inserts]; what the
    metadata cache answers for a table and its owner; and the text the
    logger keeps of the last error. *)
Context (now_y now_m : Z) (out_of_range : Z -> Z) (max_bulk_inserts : Z)
        (columns_of : list ascii -> list ascii -> option (list col_metadata))
        (last_error : string -> list ascii * list ascii).

(** ** Dates *)

(** The format and the value it leaves. *)
Definition normalize_client_date_value (real_data_type client_date_format value : list ascii)
    : res (list ascii) (list ascii * list ascii) :=
  let cls := db_type_class (Some real_data_type) in
  let is_timestamp := bool_decide (cls = DB_TYPE_CLASS_TIMESTAMP) in
  let is_date := bool_decide (cls = DB_TYPE_CLASS_DATE) in
  if negb is_date && negb is_timestamp then Ok (client_date_format, value)
  else if Nat.eqb (length value) 0 then Ok (client_date_format, value)
  else
    let has_client_fmt := negb (Nat.eqb (length client_date_format) 0) in
    let source_fmt :=
      if has_client_fmt then client_date_format else if is_timestamp then DATE_CANONICAL_MASK_TS else DATE_CANONICAL_MASK in
    let mismatch reason :=
      Err (msg512 (str "Invalid date: value='" ++ take 80 value ++ str "' does not match " ++
        (if has_client_fmt then str "client_date_format" else str "nls_date_format") ++ str "='" ++ source_fmt ++ str "' (" ++
        reason ++ str ")")) in
    match date_normalize (Some value) (if has_client_fmt then Some client_date_format else None) is_timestamp
            (Some DATE_NORMALIZE_OUT_MAX) now_y now_m with
    | Some (Ok normalized) => Ok ([], take 4095 normalized)
    | Some (Err (DATE_NORM_BAD_MASK reason)) =>
        Err (msg512 (str "Invalid date: unsupported client_date_format='" ++ source_fmt ++ str "' (" ++ reason ++ str ")"))
    | Some (Err (DATE_NORM_BAD_VALUE reason)) | Some (Err (DATE_NORM_BAD_ARG reason)) => mismatch reason
    | None => mismatch []
    end.

(** ** Fields and keys *)

(** [where]: ["OWNER.TABLE"] in the messages. *)
Definition no_such_column (what name owner table : list ascii) : list ascii :=
  msg512 (what ++ str "'" ++ name ++ str "': no such column on " ++ owner ++ str "." ++ table).

(** The [parsed_field_t] of field [f + 1]; its [insert_value] holds 1023
    characters. *)
Definition parsed (f : Z) (fv : field_value) (col : col_metadata) : parsed_field :=
  InsertValidate.mk_field (f + 1) (take 127 (fv_name fv)) (take 127 (meta_type col)) (data_length col) (data_precision col) (data_scale col)
    (take 3 (meta_nullable col)) (take 511 (data_default col)) (take 1023 (field_value_get fv)).

(** The field it leaves, and the message of its failure. *)
Definition check_field (what : list ascii) (fail : list ascii -> list ascii) (owner table : list ascii) (cols : list col_metadata)
    (f : Z) (fv : field_value) : field_value * list (list ascii) :=
  match find_column cols (fv_name fv) with
  | None => (fv, [no_such_column what (fv_name fv) owner table])
  | Some col =>
      match normalize_client_date_value (meta_type col) (fv_date_format fv) (fv_value fv) with
      | Err date_err => (fv, [msg512 (what ++ str "'" ++ fv_name fv ++ str "': " ++ date_err)])
      | Ok (fmt, value) =>
          let fv := mk_fv (fv_name fv) value (large_value fv) fmt in
          let '(result, field_msg) := validate_field out_of_range (parsed f fv col) 512 in
          (fv, if decide (result = FIELD_VALID) then [] else [fail field_msg])
      end
  end.

(** A loop over the elements with their position: what it leaves, and the
    failures in order. *)
Fixpoint check_loop {A} (turn : Z -> A -> A * list (list ascii)) (i : Z) (l : list A) : list A * list (list ascii) :=
  match l with
  | [] => ([], [])
  | a :: l' =>
      let '(a', errs) := turn i a in
      let '(l'', errs') := check_loop turn (i + 1) l' in
      (a' :: l'', errs ++ errs')
  end.

Definition check_key (owner table : list ascii) (cols : list col_metadata) (_ : Z) (wk : where_key) : where_key * list (list ascii) :=
  match find_column cols (wk_name wk) with
  | None => (wk, [no_such_column (str "WHERE key ") (wk_name wk) owner table])
  | Some col =>
      match normalize_client_date_value (meta_type col) (wk_date_format wk) (key_value wk) with
      | Err date_err => (wk, [msg512 (str "WHERE key '" ++ wk_name wk ++ str "': " ++ date_err)])
      | Ok (fmt, value) =>
          (mk_key (wk_name wk) value fmt,
           if Nat.eqb (length value) 0 then [msg512 (str "WHERE key '" ++ wk_name wk ++ str "': key_value is empty")] else [])
      end
  end.

(** What becomes of the failures of an operation. *)
Definition verdict_of (failures : list (list ascii)) : operation_status :=
  match failures with
  | [] => set_ok
  | first :: _ => set_error LEVEL2_ERR_FIELD_INVALID "LEVEL2_FIELD_INVALID" first
  end.

(** ** SELECT *)

Definition level2_validate_select (req : option select_request) : operation_status :=
  match req with
  | None => set_error LEVEL2_ERR_INVALID_ARG "LEVEL2_INVALID_ARG" (aborted "missing SELECT payload.")
  | Some req =>
      if Nat.eqb (length (sql req)) 0 then set_error LEVEL2_ERR_EMPTY_SQL "LEVEL2_EMPTY_SQL" (aborted "sql is empty.")
      else if execute_async req && Nat.eqb (length (async_call_back_url req)) 0 then
        set_error LEVEL2_ERR_ASYNC_INVALID "LEVEL2_ASYNC_INVALID" (aborted "execute_async=1 requires a non-empty async_call_back_url.")
      else if execute_async req && negb (ci_prefix (str "https://") (async_call_back_url req)) then
        set_error LEVEL2_ERR_ASYNC_INVALID "LEVEL2_ASYNC_INVALID"
          (aborted "async_call_back_url must be https:// - plaintext callback URLs are not permitted.")
      else
        match extract_sql_dependencies (Some (sql req)) with
        | Err e => let '(code, text) := last_error e in mk_status LEVEL2_ERR_SQL_INVALID (take 63 code) (take 255 text)
        | Ok _ => set_ok
        end
  end.

(** ** INSERT *)

(** NOT NULL columns without a default that the row leaves out. *)
Definition missing_columns (r : Z) (cols : list col_metadata) (row : insert_row) : list (list ascii) :=
  map (fun c => msg512 (str "Row " ++ print_int (r + 1) ++ str ": NOT NULL column '" ++ meta_name c ++
                        str "' (no default) was not supplied"))
    (List.filter (fun c => match meta_nullable c with n :: _ => Ascii.eqb n "N" | [] => false end &&
                           Nat.eqb (length (data_default c)) 0 && negb (row_has_field row (meta_name c))) cols).

Definition check_row (owner table : list ascii) (cols : list col_metadata) (r : Z) (row : insert_row)
    : insert_row * list (list ascii) :=
  let row_no := str "Row " ++ print_int (r + 1) in
  let '(row', errs) := check_loop (check_field (row_no ++ str ", field ") (fun m => msg512 (row_no ++ str ": " ++ m)) owner table cols)
                         0 row in
  (row', errs ++ missing_columns r cols row').

Definition level2_validate_insert (req : option insert_request) : option insert_request * operation_status :=
  match req with
  | None => (None, set_error LEVEL2_ERR_INVALID_ARG "LEVEL2_INVALID_ARG" (aborted "missing INSERT payload."))
  | Some req =>
      let fail st := (Some req, st) in
      match ins_rows req with
      | [] => fail (set_error LEVEL2_ERR_ROW_COUNT_EXCEEDED "LEVEL2_ROW_COUNT" (aborted "at least one row is required."))
      | first :: others =>
          if (0 <? max_bulk_inserts) && (max_bulk_inserts <? Z.of_nat (length (ins_rows req))) then
            fail (set_error LEVEL2_ERR_ROW_COUNT_EXCEEDED "LEVEL2_ROW_COUNT" (aborted "row_count exceeds max_bulk_inserts."))
          else if Nat.eqb (length (ins_table req)) 0 then
            fail (set_error LEVEL2_ERR_INVALID_ARG "LEVEL2_INVALID_ARG" (aborted "table_name is empty."))
          else if negb (forallb (row_field_sets_match first) others) then
            fail (set_error LEVEL2_ERR_FIELD_INVALID "LEVEL2_FIELD_INVALID"
                    (aborted "all rows in one INSERT must set the same columns (row column set mismatch)."))
          else
            match columns_of (take 127 (ins_owner req)) (take 127 (ins_table req)) with
            | None =>
                fail (set_error LEVEL2_ERR_METADATA_LOOKUP "LEVEL2_METADATA_LOOKUP"
                        (aborted "could not resolve column metadata for the target table."))
            | Some cols =>
                let '(rows, failures) := check_loop (check_row (ins_owner req) (ins_table req) cols) 0 (ins_rows req) in
                (Some (mk_insert (ins_table req) (ins_owner req) rows), verdict_of failures)
            end
      end
  end.

(** ** UPDATE and DELETE *)

Definition level2_validate_update (req : option update_request) : option update_request * operation_status :=
  match req with
  | None => (None, set_error LEVEL2_ERR_INVALID_ARG "LEVEL2_INVALID_ARG" (aborted "missing UPDATE payload."))
  | Some req =>
      let fail st := (Some req, st) in
      if Nat.eqb (length (upd_table req)) 0 then
        fail (set_error LEVEL2_ERR_INVALID_ARG "LEVEL2_INVALID_ARG" (aborted "table_name is empty."))
      else if Nat.eqb (length (upd_keys req)) 0 then
        fail (set_error LEVEL2_ERR_INVALID_ARG "LEVEL2_INVALID_ARG" (aborted "at least one WHERE key is required."))
      else if Nat.eqb (length (upd_fields req)) 0 then
        fail (set_error LEVEL2_ERR_INVALID_ARG "LEVEL2_INVALID_ARG" (aborted "at least one SET field is required."))
      else
        match columns_of (take 127 (upd_owner req)) (take 127 (upd_table req)) with
        | None =>
            fail (set_error LEVEL2_ERR_METADATA_LOOKUP "LEVEL2_METADATA_LOOKUP"
                    (aborted "could not resolve column metadata for the target table."))
        | Some cols =>
            let '(keys, errs) := check_loop (check_key (upd_owner req) (upd_table req) cols) 0 (upd_keys req) in
            let '(fields, errs') := check_loop (check_field (str "SET field ") (fun m => m) (upd_owner req) (upd_table req) cols)
                                      0 (upd_fields req) in
            (Some (mk_update (upd_table req) (upd_owner req) keys fields), verdict_of (errs ++ errs'))
        end
  end.

Definition level2_validate_delete (req : option delete_request) : option delete_request * operation_status :=
  match req with
  | None => (None, set_error LEVEL2_ERR_INVALID_ARG "LEVEL2_INVALID_ARG" (aborted "missing DELETE payload."))
  | Some req =>
      let fail st := (Some req, st) in
      if Nat.eqb (length (del_table req)) 0 then
        fail (set_error LEVEL2_ERR_INVALID_ARG "LEVEL2_INVALID_ARG" (aborted "table_name is empty."))
      else if Nat.eqb (length (del_keys req)) 0 then
        fail (set_error LEVEL2_ERR_INVALID_ARG "LEVEL2_INVALID_ARG" (aborted "at least one WHERE key is required."))
      else
        match columns_of (take 127 (del_owner req)) (take 127 (del_table req)) with
        | None =>
            fail (set_error LEVEL2_ERR_METADATA_LOOKUP "LEVEL2_METADATA_LOOKUP"
                    (aborted "could not resolve column metadata for the target table."))
        | Some cols =>
            let '(keys, errs) := check_loop (check_key (del_owner req) (del_table req) cols) 0 (del_keys req) in
            (Some (mk_delete (del_table req) (del_owner req) keys), verdict_of errs)
        end
  end.

(** ** EXECUTE_PROCEDURE *)

Definition MAX_PROC_PARAMS : nat := 64.

(** [i]: the position, from 0. *)
Definition check_procedure_param (i : Z) (pp : procedure_param) : procedure_param * list (list ascii) :=
  (pp,
   if Nat.eqb (length (pp_name pp)) 0 then [msg512 (str "Parameter " ++ print_int (i + 1) ++ str ": param_name is empty")]
   else if negb (existsb (fun t => ci_eqb (pp_type pp) (str t)) ["NUMBER"; "INTEGER"; "VARCHAR2"; "DATE"; "TIMESTAMP"; "CURSOR"]%string) then
     [msg512 (str "Parameter '" ++ pp_name pp ++ str "': param_type '" ++ pp_type pp ++
        str "' is not one of NUMBER/INTEGER/VARCHAR2/DATE/TIMESTAMP/CURSOR")]
   else if ci_eqb (pp_type pp) (str "CURSOR") && negb (bool_decide (direction pp = PARAM_DIR_OUT)) then
     [msg512 (str "Parameter '" ++ pp_name pp ++ str "': CURSOR parameters must be OUT (a cursor cannot be passed in)")]
   else []).

Definition level2_validate_procedure (req : option execute_procedure_request) : operation_status :=
  match req with
  | None => set_error LEVEL2_ERR_INVALID_ARG "LEVEL2_INVALID_ARG" (aborted "missing EXECUTE_PROCEDURE payload.")
  | Some req =>
      if Nat.eqb (length (proc_name req)) 0 then
        set_error LEVEL2_ERR_INVALID_ARG "LEVEL2_INVALID_ARG" (aborted "procedure_name is empty.")
      else if (MAX_PROC_PARAMS <? length (proc_params req))%nat then
        set_error LEVEL2_ERR_INVALID_ARG "LEVEL2_INVALID_ARG" (aborted "param_count out of range.")
      else verdict_of (snd (check_loop check_procedure_param 0 (proc_params req)))
  end.

(** ** AUTHENTICATE and CHECK_PERMISSION *)

Definition level2_validate_authenticate (req : option authenticate_request) : operation_status :=
  match req with
  | None => set_error LEVEL2_ERR_INVALID_ARG "LEVEL2_INVALID_ARG" (aborted "missing AUTHENTICATE payload.")
  | Some req =>
      if Nat.eqb (length (auth_username req)) 0 then
        set_error LEVEL2_ERR_FIELD_INVALID "LEVEL2_FIELD_INVALID" (aborted "username is required.")
      else if Nat.eqb (length (credential req)) 0 then
        set_error LEVEL2_ERR_FIELD_INVALID "LEVEL2_FIELD_INVALID" (aborted "credential is required.")
      else set_ok
  end.

Definition level2_validate_check_permission (req : option check_permission_request) : operation_status :=
  match req with
  | None => set_error LEVEL2_ERR_INVALID_ARG "LEVEL2_INVALID_ARG" (aborted "missing CHECK_PERMISSION payload.")
  | Some req =>
      if Nat.eqb (length (permission_code req)) 0 then
        set_error LEVEL2_ERR_FIELD_INVALID "LEVEL2_FIELD_INVALID" (aborted "permission_code is required.")
      else set_ok
  end.

(** ** DDL: the checks of DdlModules.v *)

Definition level2_validate_ddl {R} (op : string) (validate : R -> nat -> outcome) (req : option R) : operation_status :=
  match req with
  | None => set_error LEVEL2_ERR_INVALID_ARG "LEVEL2_INVALID_ARG" (aborted "missing " ++ str op ++ str " payload.")
  | Some req =>
      match validate req 256%nat with
      | Ok _ => set_ok
      | Err error_buf =>
          set_error LEVEL2_ERR_FIELD_INVALID "LEVEL2_FIELD_INVALID"
            (match error_buf with [] => aborted "invalid " ++ str op ++ str " fields." | _ => error_buf end)
      end
  end.

Definition level2_validate_create_user := level2_validate_ddl "CREATE_USER" validate_create_user_request.
Definition level2_validate_grant := level2_validate_ddl "GRANT" validate_grant_request.
Definition level2_validate_create_table := level2_validate_ddl "CREATE_TABLE" validate_create_table_request.
Definition level2_validate_drop_table := level2_validate_ddl "DROP_TABLE" validate_drop_table_request.
Definition level2_validate_create_view := level2_validate_ddl "CREATE_VIEW" validate_create_view_request.
Definition level2_validate_create_procedure := level2_validate_ddl "CREATE_PROCEDURE" validate_create_procedure_request.

(** ** All operations *)

(** One turn of the loop: the operation with what validation makes of it;
    [count]: how many the request has. *)
Definition level2_validate_one (count : nat) (p : operation_payload) : operation_payload * operation_status :=
  match p with
  | Select req =>
      (p, if match req with Some r => execute_async r | None => false end && (1 <? count)%nat then
            set_error LEVEL2_ERR_ASYNC_INVALID "LEVEL2_ASYNC_INVALID"
              (aborted "execute_async=1 is only valid when the SELECT is the only operation in its transaction.")
          else level2_validate_select req)
  | Insert req => let '(req, st) := level2_validate_insert req in (Insert req, st)
  | Update req => let '(req, st) := level2_validate_update req in (Update req, st)
  | Delete req => let '(req, st) := level2_validate_delete req in (Delete req, st)
  | ExecuteProcedure req => (p, level2_validate_procedure req)
  | Authenticate req => (p, level2_validate_authenticate req)
  | CheckPermission req => (p, level2_validate_check_permission req)
  | CreateUser req => (p, level2_validate_create_user req)
  | Grant req => (p, level2_validate_grant req)
  | CreateTable req => (p, level2_validate_create_table req)
  | DropTable req => (p, level2_validate_drop_table req)
  | CreateView req => (p, level2_validate_create_view req)
  | CreateProcedure req => (p, level2_validate_create_procedure req)
  | GetTemplate | CreateSession | EndSession | Unknown =>
      (p, set_error LEVEL2_ERR_NOT_IMPLEMENTED "LEVEL2_NOT_IMPLEMENTED"
            (str "Request aborted. Level 2 validation not yet implemented for this operation type."))
  end.

Fixpoint level2_loop (count : nat) (ops : list operation) : list operation * Z :=
  match ops with
  | [] => ([], LEVEL2_OK)
  | op :: ops' =>
      let '(p, st) := level2_validate_one count (op_payload op) in
      let op' := mk_operation p st in
      if negb (status_code st =? 0) then (op' :: ops', LEVEL2_ERR_VALIDATION_FAILED)
      else let '(ops'', rc) := level2_loop count ops' in (op' :: ops'', rc)
  end.

Definition level2_validate (req : request) : request * Z :=
  let '(ops, rc) := level2_loop (length (operations req)) (operations req) in
  (mk_request (external_audit_id req) (req_session_id req) (source_format req) (transaction_required req) (transaction_name req) ops, rc).
End level2.

(** ** Loops *)

Section loops.
Context {A : Type} (turn turn' : Z -> A -> A * list (list ascii)).

Lemma check_loop_length i l : length (fst (check_loop turn i l)) = length l.
Proof.
  revert i. induction l as [|a l IH]; intros i; cbn [check_loop]; [done|]. destruct (turn i a) as [a' errs].
  specialize (IH (i + 1)). destruct (check_loop turn (i + 1) l). cbn in *. by rewrite IH.
Qed.

Lemma check_loop_again i l l' :
  (forall i a a', turn i a = (a', []) -> turn' i a' = (a', [])) ->
  check_loop turn i l = (l', []) -> check_loop turn' i l' = (l', []).
Proof.
  intros H. revert i l'. induction l as [|a l IH]; intros i l'; cbn [check_loop].
  - by intros [= <-].
  - destruct (turn i a) as [a1 e1] eqn:E1. destruct (check_loop turn (i + 1) l) as [l1 e2] eqn:E2.
    intros [= <- He]. apply app_eq_nil in He as [-> ->]. cbn [check_loop].
    by rewrite (H _ _ _ E1), (IH _ _ E2).
Qed.

Lemma check_loop_Forall (P : A -> Prop) i l l' :
  (forall i a a', turn i a = (a', []) -> P a') -> check_loop turn i l = (l', []) -> Forall P l'.
Proof.
  intros H. revert i l'. induction l as [|a l IH]; intros i l'; cbn [check_loop].
  - by intros [= <-].
  - destruct (turn i a) as [a1 e1] eqn:E1. destruct (check_loop turn (i + 1) l) as [l1 e2] eqn:E2.
    intros [= <- He]. apply app_eq_nil in He as [-> ->]. constructor; [by eapply H|by eapply IH].
Qed.

Lemma check_loop_map {B} (f : A -> B) i l l' errs :
  (forall i a, f (fst (turn i a)) = f a) -> check_loop turn i l = (l', errs) -> map f l' = map f l.
Proof.
  intros H. revert i l' errs. induction l as [|a l IH]; intros i l' errs; cbn [check_loop].
  - by intros [= <- <-].
  - specialize (H i a) as Ha. destruct (turn i a) as [a1 e1]. destruct (check_loop turn (i + 1) l) as [l1 e2] eqn:E2.
    intros [= <- <-]. cbn in *. by rewrite Ha, (IH _ _ _ E2).
Qed.
End loops.

Lemma verdict_ok failures : status_code (verdict_of failures) = 0 -> failures = [].
Proof. by destruct failures. Qed.

(** Which columns a row sets depends on its names alone. *)
Lemma row_match_names a b :
  row_field_sets_match a b =
  Nat.eqb (length (map fv_name a)) (length (map fv_name b)) &&
  forallb (fun n => existsb (ci_eqb n) (map fv_name b)) (map fv_name a).
Proof.
  unfold row_field_sets_match. rewrite !length_map. f_equal.
  induction a as [|x a IH]; [done|]. cbn [forallb map]. rewrite IH. f_equal. clear.
  induction b as [|y b IH]; [done|]. cbn [existsb map]. by rewrite IH.
Qed.

Section again.
Context (oor : Z -> Z) (max_bulk : Z) (columns_of : list ascii -> list ascii -> option (list col_metadata))
        (last_error : string -> list ascii * list ascii).

(** What a date value is once it was accepted. *)
Definition canonical (real_data_type v : list ascii) : Prop :=
  v = [] \/
  (db_type_class (Some real_data_type) = DB_TYPE_CLASS_DATE -> exists d, valid_datetime d /\ v = render false d) /\
  (db_type_class (Some real_data_type) = DB_TYPE_CLASS_TIMESTAMP -> exists d, valid_datetime d /\ v = render true d).

Lemma normalize_spec y m t fmt v fmt' v' :
  normalize_client_date_value y m t fmt v = Ok (fmt', v') ->
  canonical t v' /\ forall y' m', normalize_client_date_value y' m' t fmt' v' = Ok (fmt', v').
Proof.
  unfold normalize_client_date_value, canonical.
  destruct (bool_decide_reflect (db_type_class (Some t) = DB_TYPE_CLASS_DATE)) as [Hd|Hd];
    destruct (bool_decide_reflect (db_type_class (Some t) = DB_TYPE_CLASS_TIMESTAMP)) as [Ht|Ht]; try congruence; cbn [negb andb].
  3:{ intros [= <- <-]. by split; [right|]. }
  all: destruct (Nat.eqb_spec (length v) 0) as [E|E]; [intros [= <- <-]; apply nil_length_inv in E as ->; by split; [left|]|].
  all: destruct (date_normalize _ _ _ _ _ _) as [[o|[]]|] eqn:En; try done; intros [= <- <-].
  all: apply normalized_form in En as (d & Hv & ->).
  all: match goal with |- context [render ?b ?x] => pose proof (render_length b x Hv) as L end.
  all: rewrite take_ge by (rewrite L; cbn; lia).
  all: split; [right; split; [intros ?; (congruence || by exists d)|intros ?; (congruence || by exists d)]|].
  all: intros y' m'; rewrite L; cbn [Nat.eqb length negb]; rewrite canonical_read by done; by rewrite take_ge by (rewrite L; cbn; lia).
Qed.

Lemma check_field_again y m y' m' what fail owner table cols i fv fv' :
  check_field y m oor what fail owner table cols i fv = (fv', []) ->
  check_field y' m' oor what fail owner table cols i fv' = (fv', []).
Proof.
  unfold check_field. destruct (find_column cols (fv_name fv)) as [col|] eqn:Ec; [|done].
  destruct (normalize_client_date_value _ _ _ _ _) as [[fmt v]|e] eqn:En; [|done].
  destruct (validate_field oor (parsed i (mk_fv (fv_name fv) v (large_value fv) fmt) col) 512) as [r msg] eqn:Ev.
  intros [= <- Hr]. cbn [fv_name fv_value fv_date_format large_value]. rewrite Ec.
  destruct (normalize_spec _ _ _ _ _ _ _ En) as [_ ->]. rewrite Ev. by rewrite Hr.
Qed.

Lemma check_field_name y m what fail owner table cols i fv :
  fv_name (fst (check_field y m oor what fail owner table cols i fv)) = fv_name fv.
Proof.
  unfold check_field. destruct (find_column cols (fv_name fv)); [|done].
  destruct (normalize_client_date_value _ _ _ _ _) as [[fmt v]|e]; [|done]. by destruct (validate_field _ _ _).
Qed.

Lemma check_key_again y m y' m' owner table cols i wk wk' :
  check_key y m owner table cols i wk = (wk', []) -> check_key y' m' owner table cols i wk' = (wk', []).
Proof.
  unfold check_key. destruct (find_column cols (wk_name wk)) as [col|] eqn:Ec; [|done].
  destruct (normalize_client_date_value _ _ _ _ _) as [[fmt v]|e] eqn:En; [|done].
  destruct (Nat.eqb (length v) 0) eqn:E0; [done|]. intros [= <-]. cbn [wk_name key_value wk_date_format]. rewrite Ec.
  destruct (normalize_spec _ _ _ _ _ _ _ En) as [_ ->]. by rewrite E0.
Qed.

Lemma check_row_again y m y' m' owner table cols r row row' :
  check_row y m oor owner table cols r row = (row', []) -> check_row y' m' oor owner table cols r row' = (row', []).
Proof.
  unfold check_row. destruct (check_loop _ 0 row) as [l e] eqn:E. intros [= <- He]. apply app_eq_nil in He as [-> Hm].
  erewrite check_loop_again; [by rewrite Hm| |exact E]. intros i a a' Ha. by eapply check_field_again.
Qed.

Lemma check_row_names y m owner table cols r row :
  map fv_name (fst (check_row y m oor owner table cols r row)) = map fv_name row.
Proof.
  unfold check_row. destruct (check_loop _ 0 row) as [l e] eqn:E. eapply check_loop_map; [|exact E]. intros. apply check_field_name.
Qed.

Lemma validate_insert_again y m y' m' req req' st :
  level2_validate_insert y m oor max_bulk columns_of req = (req', st) -> status_code st = 0 ->
  st = set_ok /\ level2_validate_insert y' m' oor max_bulk columns_of req' = (req', set_ok).
Proof.
  unfold level2_validate_insert. destruct req as [req|]; [|by intros [= <- <-]].
  destruct (ins_rows req) as [|first others] eqn:Er; [by intros [= <- <-]|].
  destruct (_ && _) eqn:Em; [by intros [= <- <-]|]. destruct (Nat.eqb _ 0) eqn:Et; [by intros [= <- <-]|].
  destruct (forallb _ _) eqn:Ef; cbn [negb]; [|by intros [= <- <-]].
  destruct (columns_of _ _) as [cols|] eqn:Ec; [|by intros [= <- <-]].
  destruct (check_loop _ 0 _) as [rows failures] eqn:El. intros [= <- <-] ->%verdict_ok.
  cbn [ins_rows ins_table ins_owner].
  pose proof (check_loop_length (check_row y m oor (ins_owner req) (ins_table req) cols) 0 (first :: others)) as Hlen. rewrite El in Hlen. cbn [fst] in Hlen.
  destruct rows as [|first' others']; [done|]. rewrite Hlen, Em, Et.
  pose proof (check_loop_map _ (map fv_name) _ _ _ _ (fun i a => check_row_names y m _ _ _ i a) El) as Hnames.
  injection Hnames as Hf Ho.
  assert (forallb (row_field_sets_match first') others' = true) as ->.
  { rewrite <- Ef. clear - Hf Ho. revert others' Ho. induction others as [|o others IH]; intros [|o' others'] Ho; try done.
    injection Ho as Ho1 Ho2. cbn [forallb]. rewrite IH by done. f_equal. rewrite !row_match_names. by rewrite Hf, Ho1. }
  cbn [negb]. rewrite Ec. erewrite check_loop_again; [done| |exact El]. intros. by eapply check_row_again.
Qed.

Lemma loop_nonempty {A} (turn : Z -> A -> A * list (list ascii)) l l' errs :
  check_loop turn 0 l = (l', errs) -> Nat.eqb (length l) 0 = false -> Nat.eqb (length l') 0 = false.
Proof. intros E H. pose proof (check_loop_length turn 0 l) as Hl. rewrite E in Hl. cbn in Hl. by rewrite Hl. Qed.

Lemma validate_update_again y m y' m' req req' st :
  level2_validate_update y m oor columns_of req = (req', st) -> status_code st = 0 ->
  st = set_ok /\ level2_validate_update y' m' oor columns_of req' = (req', set_ok).
Proof.
  unfold level2_validate_update. destruct req as [req|]; [|by intros [= <- <-]].
  destruct (Nat.eqb (length (upd_table req)) 0) eqn:Et; [by intros [= <- <-]|].
  destruct (Nat.eqb (length (upd_keys req)) 0) eqn:Ek; [by intros [= <- <-]|].
  destruct (Nat.eqb (length (upd_fields req)) 0) eqn:Ef; [by intros [= <- <-]|].
  destruct (columns_of _ _) as [cols|] eqn:Ec; [|by intros [= <- <-]].
  destruct (check_loop _ 0 (upd_keys req)) as [keys errs] eqn:E1. destruct (check_loop _ 0 (upd_fields req)) as [fields errs'] eqn:E2.
  intros [= <- <-] H%verdict_ok. apply app_eq_nil in H as [-> ->]. cbn [upd_table upd_owner upd_keys upd_fields].
  rewrite Et, (loop_nonempty _ _ _ _ E1 Ek), (loop_nonempty _ _ _ _ E2 Ef), Ec.
  erewrite check_loop_again; [|by intros; eapply check_key_again|exact E1].
  erewrite check_loop_again; [done|by intros; eapply check_field_again|exact E2].
Qed.

Lemma validate_delete_again y m y' m' req req' st :
  level2_validate_delete y m columns_of req = (req', st) -> status_code st = 0 ->
  st = set_ok /\ level2_validate_delete y' m' columns_of req' = (req', set_ok).
Proof.
  unfold level2_validate_delete. destruct req as [req|]; [|by intros [= <- <-]].
  destruct (Nat.eqb (length (del_table req)) 0) eqn:Et; [by intros [= <- <-]|].
  destruct (Nat.eqb (length (del_keys req)) 0) eqn:Ek; [by intros [= <- <-]|].
  destruct (columns_of _ _) as [cols|] eqn:Ec; [|by intros [= <- <-]].
  destruct (check_loop _ 0 (del_keys req)) as [keys errs] eqn:E1.
  intros [= <- <-] ->%verdict_ok. cbn [del_table del_owner del_keys].
  rewrite Et, (loop_nonempty _ _ _ _ E1 Ek), Ec.
  erewrite check_loop_again; [done|by intros; eapply check_key_again|exact E1].
Qed.

End again.

Lemma verdict_cases failures : status_code (verdict_of failures) = 0 -> verdict_of failures = set_ok.
Proof. by intros ->%verdict_ok. Qed.

Lemma ddl_ok {R} op (validate : R -> nat -> outcome) req :
  status_code (level2_validate_ddl op validate req) = 0 ->
  level2_validate_ddl op validate req = set_ok /\ exists r, req = Some r /\ validate r 256%nat = Ok tt.
Proof.
  unfold level2_validate_ddl. destruct req as [r|]; [|done]. destruct (validate r 256%nat) as [[]|e] eqn:E; [|done].
  intros _. split; [done|]. by exists r.
Qed.

Lemma select_ok le req : status_code (level2_validate_select le req) = 0 ->
  level2_validate_select le req = set_ok /\ exists r, req = Some r /\ sql r <> [] /\
    (execute_async r = true -> ci_prefix (str "https://") (async_call_back_url r) = true) /\
    exists deps, extract_sql_dependencies (Some (sql r)) = Ok deps.
Proof.
  unfold level2_validate_select. destruct req as [r|]; [|done].
  destruct (Nat.eqb_spec (length (sql r)) 0) as [|Hs]; [done|].
  destruct (execute_async r && Nat.eqb _ 0) eqn:E1; [done|].
  destruct (execute_async r && negb _) eqn:E2; [done|].
  destruct (extract_sql_dependencies _) as [deps|e] eqn:E3; [|by destruct (le e)].
  intros _. split; [done|]. exists r. split_and!; [done|by intros E; rewrite E in Hs| |by exists deps].
  intros Ha. rewrite Ha in E2. cbn [andb] in E2. by apply negb_false_iff in E2.
Qed.

Section idempotent.
Context (oor : Z -> Z) (max_bulk : Z) (columns_of : list ascii -> list ascii -> option (list col_metadata))
        (last_error : string -> list ascii * list ascii).

Lemma validate_one_again y m y' m' count p p' st :
  level2_validate_one y m oor max_bulk columns_of last_error count p = (p', st) -> status_code st = 0 ->
  st = set_ok /\ level2_validate_one y' m' oor max_bulk columns_of last_error count p' = (p', set_ok).
Proof.
  assert (forall (b : bool) s s', (b = true -> status_code s <> 0) -> (status_code s' = 0 -> s' = set_ok) ->
    status_code (if b then s else s') = 0 -> (if b then s else s') = set_ok) as Hif.
  { intros [] s s' H1 H2 H; [by destruct (H1 eq_refl)|by apply H2]. }
  destruct p as [req|req|req|req|req|req|req|req|req|req|req|req|req| | | |]; cbn [level2_validate_one].
  - intros [= <- <-] H. cbn [level2_validate_one].
    apply Hif in H; [|done|by intros [? _]%select_ok]. by rewrite H.
  - destruct (level2_validate_insert _ _ _ _ _ req) as [r s] eqn:E. intros [= <- <-] H. cbn [level2_validate_one].
    eapply (validate_insert_again _ _ _ _ _ y' m') in E as [-> ->]; done.
  - destruct (level2_validate_update _ _ _ _ req) as [r s] eqn:E. intros [= <- <-] H. cbn [level2_validate_one].
    eapply (validate_update_again _ _ _ _ y' m') in E as [-> ->]; done.
  - destruct (level2_validate_delete _ _ _ req) as [r s] eqn:E. intros [= <- <-] H. cbn [level2_validate_one].
    eapply (validate_delete_again _ _ _ y' m') in E as [-> ->]; done.
  - intros [= <- <-] H. cbn [level2_validate_one]. assert (level2_validate_procedure req = set_ok) as ->; [|done].
    unfold level2_validate_procedure in *. destruct req as [r|]; [|done].
    destruct (Nat.eqb _ 0); [done|]. destruct (_ <? _)%nat; [done|]. by apply verdict_cases.
  - intros [= <- <-] H. cbn [level2_validate_one]. assert (level2_validate_authenticate req = set_ok) as ->; [|done].
    unfold level2_validate_authenticate in *. destruct req as [r|]; [|done]. destruct (Nat.eqb _ 0); [done|]. by destruct (Nat.eqb _ 0).
  - intros [= <- <-] H. cbn [level2_validate_one]. assert (level2_validate_check_permission req = set_ok) as ->; [|done].
    unfold level2_validate_check_permission in *. destruct req as [r|]; [|done]. by destruct (Nat.eqb _ 0).
  - intros [= <- <-] [H _]%ddl_ok. cbn [level2_validate_one]. unfold level2_validate_create_user in *. by rewrite H.
  - intros [= <- <-] [H _]%ddl_ok. cbn [level2_validate_one]. unfold level2_validate_grant in *. by rewrite H.
  - intros [= <- <-] [H _]%ddl_ok. cbn [level2_validate_one]. unfold level2_validate_create_table in *. by rewrite H.
  - intros [= <- <-] [H _]%ddl_ok. cbn [level2_validate_one]. unfold level2_validate_drop_table in *. by rewrite H.
  - intros [= <- <-] [H _]%ddl_ok. cbn [level2_validate_one]. unfold level2_validate_create_view in *. by rewrite H.
  - intros [= <- <-] [H _]%ddl_ok. cbn [level2_validate_one]. unfold level2_validate_create_procedure in *. by rewrite H.
  - by intros [= <- <-].
  - by intros [= <- <-].
  - by intros [= <- <-].
  - by intros [= <- <-].
Qed.

Lemma level2_loop_again y m y' m' count ops ops' :
  level2_loop y m oor max_bulk columns_of last_error count ops = (ops', LEVEL2_OK) ->
  length ops' = length ops /\ level2_loop y' m' oor max_bulk columns_of last_error count ops' = (ops', LEVEL2_OK).
Proof.
  revert ops'. induction ops as [|op ops IH]; intros ops'; cbn [level2_loop]; [by intros [= <-]|].
  destruct (level2_validate_one _ _ _ _ _ _ _ _) as [p st] eqn:E.
  destruct (Z.eqb_spec (status_code st) 0) as [Hs|Hs]; cbn [negb]; [|by intros [= _ ?]].
  destruct (level2_loop _ _ _ _ _ _ _ ops) as [l rc] eqn:El. intros [= <- ->].
  destruct (IH _ eq_refl) as [Hl H2]. destruct (validate_one_again _ _ y' m' _ _ _ _ E Hs) as [-> H1].
  split; [cbn [length]; by rewrite Hl|]. cbn [level2_loop op_payload]. by rewrite H1, H2.
Qed.
End idempotent.

(** A request is validated twice, by the dispatcher and again by the
    module that executes it, and the first pass rewrites its dates.  What was
    accepted once is accepted again, on any later day, and is not changed any
    more: neither the dates nor anything else. *)
Theorem level2_accepts_twice (oor : Z -> Z) (max_bulk : Z)
    (columns_of : list ascii -> list ascii -> option (list col_metadata)) (last_error : string -> list ascii * list ascii)
    (y m y' m' : Z) (req req' : request) :
  level2_validate y m oor max_bulk columns_of last_error req = (req', LEVEL2_OK) ->
  level2_validate y' m' oor max_bulk columns_of last_error req' = (req', LEVEL2_OK).
Proof.
  unfold level2_validate. destruct (level2_loop _ _ _ _ _ _ _ _) as [ops rc] eqn:E. intros [= <- ->].
  apply (level2_loop_again _ _ _ _ _ _ y' m') in E as [Hl E]. cbn [operations external_audit_id req_session_id source_format
    transaction_required transaction_name]. by rewrite Hl, E.
Qed.

(** ** What is accepted *)

Section accepted.
Context (oor : Z -> Z) (max_bulk : Z) (columns_of : list ascii -> list ascii -> option (list col_metadata))
        (last_error : string -> list ascii * list ascii).
Implicit Types (cols : list col_metadata).

(** A value of a date column is empty or the canonical text of a date of the
    calendar (DateNormalize.v). *)
Definition dates_in_order (real_data_type v : list ascii) : Prop :=
  v = [] \/
  (db_type_class (Some real_data_type) = DB_TYPE_CLASS_DATE -> calendar_text false v) /\
  (db_type_class (Some real_data_type) = DB_TYPE_CLASS_TIMESTAMP -> calendar_text true v).

(** A field of an accepted write: a column of the table, a value that obeys
    the column - as far as its first 1023 characters tell -, and a date in its
    canonical form. *)
Definition field_accepted cols (fv : field_value) : Prop :=
  exists col i, find_column cols (fv_name fv) = Some col /\ acceptable oor (parsed i fv col) /\ dates_in_order (meta_type col) (fv_value fv).

Definition key_accepted cols (wk : where_key) : Prop :=
  key_value wk <> [] /\ exists col, find_column cols (wk_name wk) = Some col /\ dates_in_order (meta_type col) (key_value wk).

Definition required (col : col_metadata) : Prop := head (meta_nullable col) = Some "N"%char /\ data_default col = [].

Definition row_accepted cols (row : insert_row) : Prop :=
  Forall (field_accepted cols) row /\ Forall (fun col => required col -> row_has_field row (meta_name col) = true) cols.

(** What Level 2 lets through, [count] operations in the request. *)
Definition payload_accepted (count : nat) (p : operation_payload) : Prop :=
  match p with
  | Select (Some r) =>
      sql r <> [] /\ (exists deps, extract_sql_dependencies (Some (sql r)) = Ok deps) /\
      (execute_async r = true -> (count <= 1)%nat /\ ci_prefix (str "https://") (async_call_back_url r) = true)
  | Insert (Some r) =>
      ins_rows r <> [] /\ (0 < max_bulk -> Z.of_nat (length (ins_rows r)) <= max_bulk) /\
      exists cols, columns_of (take 127 (ins_owner r)) (take 127 (ins_table r)) = Some cols /\ Forall (row_accepted cols) (ins_rows r)
  | Update (Some r) =>
      upd_keys r <> [] /\ upd_fields r <> [] /\
      exists cols, columns_of (take 127 (upd_owner r)) (take 127 (upd_table r)) = Some cols /\
        Forall (key_accepted cols) (upd_keys r) /\ Forall (field_accepted cols) (upd_fields r)
  | Delete (Some r) =>
      del_keys r <> [] /\
      exists cols, columns_of (take 127 (del_owner r)) (take 127 (del_table r)) = Some cols /\ Forall (key_accepted cols) (del_keys r)
  | ExecuteProcedure (Some r) => proc_name r <> [] /\ (length (proc_params r) <= MAX_PROC_PARAMS)%nat
  | Authenticate (Some r) => auth_username r <> [] /\ credential r <> []
  | CheckPermission (Some r) => permission_code r <> []
  | CreateUser (Some r) => validate_create_user_request r 256 = Ok tt
  | Grant (Some r) => validate_grant_request r 256 = Ok tt
  | CreateTable (Some r) => validate_create_table_request r 256 = Ok tt
  | DropTable (Some r) => validate_drop_table_request r 256 = Ok tt
  | CreateView (Some r) => validate_create_view_request r 256 = Ok tt
  | CreateProcedure (Some r) => validate_create_procedure_request r 256 = Ok tt
  | _ => False
  end.

Lemma canonical_in_order t v : canonical t v -> dates_in_order t v.
Proof.
  intros [->|[Hd Ht]]; [by left|right].
  split; [intros (d & Hv & ->)%Hd|intros (d & Hv & ->)%Ht]; by apply valid_calendar_text.
Qed.

Lemma nonempty {A} (l : list A) : Nat.eqb (length l) 0 = false -> l <> [].
Proof. by destruct l. Qed.

Lemma field_valid f n : (length (insert_value f) <= 1023)%nat -> fst (validate_field oor f n) = FIELD_VALID -> acceptable oor f.
Proof.
  intros Hl H. apply dispatch_accepted; [apply int_strlen_small; lia|]. unfold validate_field in H.
  pose proof (dispatch_refuses oor f) as Hr. destruct (InsertValidate.dispatch oor f) as [[]|[code msg]]; [done|].
  cbn in Hr, H. by destruct Hr as (_ & H0 & _).
Qed.

Lemma check_field_accepted y m what fail owner table cols i fv fv' :
  check_field y m oor what fail owner table cols i fv = (fv', []) -> field_accepted cols fv'.
Proof.
  unfold check_field. destruct (find_column cols (fv_name fv)) as [col|] eqn:Ec; [|done].
  destruct (normalize_client_date_value _ _ _ _ _) as [[fmt v]|e] eqn:En; [|done].
  destruct (validate_field oor (parsed i (mk_fv (fv_name fv) v (large_value fv) fmt) col) 512) as [r msg] eqn:Ev.
  destruct (decide (r = FIELD_VALID)) as [->|]; [|done]. intros [= <-]. exists col, i. split; [done|]. split.
  - apply (field_valid _ 512); [cbn; apply firstn_le_length|by rewrite Ev].
  - by destruct (normalize_spec _ _ _ _ _ _ _ En) as [?%canonical_in_order _].
Qed.

Lemma check_key_accepted y m owner table cols i wk wk' :
  check_key y m owner table cols i wk = (wk', []) -> key_accepted cols wk'.
Proof.
  unfold check_key. destruct (find_column cols (wk_name wk)) as [col|] eqn:Ec; [|done].
  destruct (normalize_client_date_value _ _ _ _ _) as [[fmt v]|e] eqn:En; [|done].
  destruct (Nat.eqb (length v) 0) eqn:E0; [done|]. intros [= <-]. split; [by apply nonempty|].
  exists col. split; [done|]. by destruct (normalize_spec _ _ _ _ _ _ _ En) as [?%canonical_in_order _].
Qed.

Lemma check_row_accepted y m owner table cols r row row' :
  check_row y m oor owner table cols r row = (row', []) -> row_accepted cols row'.
Proof.
  unfold check_row. destruct (check_loop _ 0 row) as [l e] eqn:E. intros [= <- He]. apply app_eq_nil in He as [-> Hm]. split.
  - eapply check_loop_Forall; [|exact E]. intros. by eapply check_field_accepted.
  - apply List.Forall_forall. intros c Hc [Hn Hd]. unfold missing_columns in Hm. apply map_eq_nil in Hm.
    destruct (row_has_field l (meta_name c)) eqn:Eh; [done|]. exfalso.
    assert (In c []) as []. rewrite <- Hm. apply filter_In. split; [done|]. rewrite Eh, Hd.
    destruct (meta_nullable c) as [|n ?]; [done|]. cbn in Hn. injection Hn as ->. done.
Qed.

Lemma payload_ok y m count p p' st :
  level2_validate_one y m oor max_bulk columns_of last_error count p = (p', st) -> status_code st = 0 -> payload_accepted count p'.
Proof.
  destruct p as [req|req|req|req|req|req|req|req|req|req|req|req|req| | | |]; cbn [level2_validate_one].
  - destruct (_ && _) eqn:Ea; intros [= <- <-]; [done|]. intros [_ (r & -> & H1 & H2 & H3)]%select_ok. cbn [payload_accepted].
    split; [done|]. split; [done|]. intros Ha. split; [|by apply H2]. rewrite Ha in Ea. destruct (Nat.ltb_spec 1 count); [done|lia].
  - unfold level2_validate_insert. destruct req as [req|]; [|by intros [= <- <-]].
    destruct (ins_rows req) as [|first others] eqn:Er; [by intros [= <- <-]|].
    destruct (_ && _) eqn:Em; [by intros [= <- <-]|]. destruct (Nat.eqb _ 0); [by intros [= <- <-]|].
    destruct (negb _); [by intros [= <- <-]|]. destruct (columns_of _ _) as [cols|] eqn:Ec; [|by intros [= <- <-]].
    destruct (check_loop _ 0 _) as [rows failures] eqn:El. intros [= <- <-] ->%verdict_ok.
    pose proof (check_loop_length (check_row y m oor (ins_owner req) (ins_table req) cols) 0 (first :: others)) as Hl. rewrite El in Hl.
    cbn [payload_accepted ins_rows ins_owner ins_table fst] in *. split; [by destruct rows|]. split.
    + intros Hb. rewrite Hl. apply Z.ltb_lt in Hb. rewrite Hb in Em. cbn [andb] in Em. by apply Z.ltb_ge in Em.
    + exists cols. split; [done|]. eapply check_loop_Forall; [|exact El]. intros. by eapply check_row_accepted.
  - unfold level2_validate_update. destruct req as [req|]; [|by intros [= <- <-]].
    destruct (Nat.eqb (length (upd_table req)) 0); [by intros [= <- <-]|].
    destruct (Nat.eqb (length (upd_keys req)) 0) eqn:Ek; [by intros [= <- <-]|].
    destruct (Nat.eqb (length (upd_fields req)) 0) eqn:Ef; [by intros [= <- <-]|].
    destruct (columns_of _ _) as [cols|] eqn:Ec; [|by intros [= <- <-]].
    destruct (check_loop _ 0 (upd_keys req)) as [keys errs] eqn:E1. destruct (check_loop _ 0 (upd_fields req)) as [fields errs'] eqn:E2.
    intros [= <- <-] H%verdict_ok. apply app_eq_nil in H as [-> ->].
    cbn [payload_accepted upd_keys upd_fields upd_owner upd_table].
    split; [eapply nonempty, loop_nonempty; done|]. split; [eapply nonempty, loop_nonempty; done|].
    exists cols. split; [done|]. split; (eapply check_loop_Forall; [|done]); intros; [by eapply check_key_accepted|by eapply check_field_accepted].
  - unfold level2_validate_delete. destruct req as [req|]; [|by intros [= <- <-]].
    destruct (Nat.eqb (length (del_table req)) 0); [by intros [= <- <-]|].
    destruct (Nat.eqb (length (del_keys req)) 0) eqn:Ek; [by intros [= <- <-]|].
    destruct (columns_of _ _) as [cols|] eqn:Ec; [|by intros [= <- <-]].
    destruct (check_loop _ 0 (del_keys req)) as [keys errs] eqn:E1. intros [= <- <-] ->%verdict_ok.
    cbn [payload_accepted del_keys del_owner del_table]. split; [eapply nonempty, loop_nonempty; done|].
    exists cols. split; [done|]. eapply check_loop_Forall; [|exact E1]. intros. by eapply check_key_accepted.
  - intros [= <- <-]. unfold level2_validate_procedure. destruct req as [r|]; [|done].
    destruct (Nat.eqb (length (proc_name r)) 0) eqn:E; [done|]. destruct (Nat.ltb_spec MAX_PROC_PARAMS (length (proc_params r))); [done|].
    intros _. split; [by apply nonempty|done].
  - intros [= <- <-]. unfold level2_validate_authenticate. destruct req as [r|]; [|done].
    destruct (Nat.eqb (length (auth_username r)) 0) eqn:E; [done|]. destruct (Nat.eqb (length (credential r)) 0) eqn:E2; [done|].
    intros _. by split; apply nonempty.
  - intros [= <- <-]. unfold level2_validate_check_permission. destruct req as [r|]; [|done].
    destruct (Nat.eqb (length (permission_code r)) 0) eqn:E; [done|]. intros _. by apply nonempty.
  - by intros [= <- <-] [_ (r & -> & H)]%ddl_ok.
  - by intros [= <- <-] [_ (r & -> & H)]%ddl_ok.
  - by intros [= <- <-] [_ (r & -> & H)]%ddl_ok.
  - by intros [= <- <-] [_ (r & -> & H)]%ddl_ok.
  - by intros [= <- <-] [_ (r & -> & H)]%ddl_ok.
  - by intros [= <- <-] [_ (r & -> & H)]%ddl_ok.
  - by intros [= <- <-].
  - by intros [= <- <-].
  - by intros [= <- <-].
  - by intros [= <- <-].
Qed.
End accepted.

(** C7: what Level 2 lets through.  In an accepted request every operation
    was checked and found in order - an operation without a check is refused
    -: an UPDATE or DELETE has a WHERE key and every key is a column with a
    value, every field written is a column of the table, an INSERT leaves out
    no column it must set and has no more rows than configured, and the
    callback of an asynchronous SELECT is an https URL.  A field's value is
    one the column's type accepts as far as the text tells that the check is
    shown, which is its first 1023 characters: what a longer value has beyond
    them is not looked at ([long_value_unchecked]).  A date, in a key or
    in the member [value] of a field, is empty or the canonical text of a date
    of the calendar; a text too long for [value] is executed from
    [large_value], which nothing normalises.  The operations keep
    their kinds and their order. *)
Theorem level2_accepts_only (oor : Z -> Z) (max_bulk : Z)
    (columns_of : list ascii -> list ascii -> option (list col_metadata)) (last_error : string -> list ascii * list ascii)
    (y m : Z) (req req' : request) :
  level2_validate y m oor max_bulk columns_of last_error req = (req', LEVEL2_OK) ->
  Forall (fun op => validation_status op = set_ok /\
                    payload_accepted oor max_bulk columns_of (length (operations req')) (op_payload op)) (operations req') /\
  map (fun op => type_of (op_payload op)) (operations req') = map (fun op => type_of (op_payload op)) (operations req).
Proof.
  unfold level2_validate. destruct (level2_loop _ _ _ _ _ _ _ _) as [ops rc] eqn:E. intros [= <- ->]. cbn [operations].
  destruct (level2_loop_again _ _ _ _ _ _ y m _ _ _ E) as [Hl _]. rewrite Hl. clear Hl. revert ops E.
  generalize (length (operations req)) as count. intros count.
  induction (operations req) as [|op l IH]; intros ops; cbn [level2_loop]; [by intros [= <-]|].
  destruct (level2_validate_one _ _ _ _ _ _ _ _) as [p st] eqn:Eo.
  destruct (Z.eqb_spec (status_code st) 0) as [Hs|Hs]; cbn [negb]; [|by intros [= _ ?]].
  destruct (level2_loop _ _ _ _ _ _ _ l) as [l' rc] eqn:El. intros [= <- ->]. destruct (IH _ eq_refl) as [H1 H2].
  split.
  - constructor; [|done]. cbn [validation_status op_payload]. split; [|by eapply payload_ok].
    by destruct (validate_one_again _ _ _ _ _ _ y m _ _ _ _ Eo Hs) as [-> _].
  - cbn [map op_payload]. rewrite H2. f_equal. clear - Eo. destruct (op_payload op); cbn [level2_validate_one] in Eo;
      try (by injection Eo as <- _); [destruct (level2_validate_insert _ _ _ _ _ _)|destruct (level2_validate_update _ _ _ _ _)|
        destruct (level2_validate_delete _ _ _ _)]; by injection Eo as <- _.
Qed.

(** ** A table to try it on *)

Definition demo_columns (_ table : list ascii) : option (list col_metadata) :=
  if ci_eqb table (str "BOOKING") then
    Some [mk_col (str "ID") (str "NUMBER") 22 10 0 (str "N") []; mk_col (str "DUE") (str "DATE") 7 (-1) (-1) (str "Y") [];
          mk_col (str "NOTE") (str "VARCHAR2") 2000 (-1) (-1) (str "Y") []]
  else None.

Definition demo_request (ops : list operation_payload) : request :=
  mk_request (str "A1") (str "-") INPUT_FORMAT_XML true (str "demo")
    (map (fun p => mk_operation p (mk_status 0 [] [])) ops).

Definition demo_update : operation_payload :=
  Update (Some (mk_update (str "BOOKING") (str "APP")
    [mk_key (str "due") (str "24/12/2026") (str "DD/MM/YYYY")] [mk_fv (str "note") (str "paid") None []])).

Definition demo_validate := level2_validate 2026 6 (fun n => n) 100 demo_columns (fun _ => ([], [])).

Definition demo_accepted : request := fst (demo_validate (demo_request [demo_update])).

Example demo_key_is_canonical :
  op_payload <$> head (operations demo_accepted) =
    Some (Update (Some (mk_update (str "BOOKING") (str "APP")
      [mk_key (str "due") (str "2026-12-24 00:00:00") []] [mk_fv (str "note") (str "paid") None []]))).
Proof. vm_compute. reflexivity. Qed.

Lemma level2_accepts_twice_witness :
  level2_validate 2031 1 (fun n => n) 100 demo_columns (fun _ => ([], [])) demo_accepted = (demo_accepted, LEVEL2_OK).
Proof.
  apply (level2_accepts_twice (fun n => n) 100 demo_columns (fun _ => ([], [])) 2026 6 2031 1 (demo_request [demo_update])).
  vm_compute. reflexivity.
Defined.

Lemma level2_accepts_only_witness :
  Forall (fun op => validation_status op = set_ok /\ payload_accepted (fun n => n) 100 demo_columns 1 (op_payload op)) (operations demo_accepted) /\
  snd (demo_validate (demo_request [Delete (Some (mk_delete (str "BOOKING") [] []))])) = LEVEL2_ERR_VALIDATION_FAILED.
Proof.
  split; [|vm_compute; reflexivity].
  refine (proj1 (level2_accepts_only (fun n => n) 100 demo_columns (fun _ => ([], [])) 2026 6 (demo_request [demo_update]) demo_accepted _)).
  vm_compute. reflexivity.
Defined.

(** ** Long values *)

(** Only 1023 characters of a value are checked: a text column that holds
    at least as many accepts a value of any length, however far beyond the
    column it goes; the database then refuses it, or cuts it. *)
Theorem long_value_unchecked (oor : Z -> Z)
    (columns_of : list ascii -> list ascii -> option (list col_metadata)) (y m : Z) (table owner : list ascii) (key : where_key) (cols : list col_metadata) (col key_col : col_metadata)
    (name v preview : list ascii) :
  table <> [] -> columns_of (take 127 owner) (take 127 table) = Some cols ->
  find_column cols (wk_name key) = Some key_col -> db_type_class (Some (meta_type key_col)) = DB_TYPE_CLASS_NUMERIC -> key_value key <> [] ->
  find_column cols name = Some col -> (length (meta_type col) <= 127)%nat ->
  db_type_class (Some (meta_type col)) = DB_TYPE_CLASS_STRING -> 1023 <= data_length col ->
  v <> [] ->
  let req := mk_update table owner [key] [mk_fv name preview (Some v) []] in
  level2_validate_update y m oor columns_of (Some req) = (Some req, set_ok).
Proof.
  intros Ht Hc Hk Hkt Hkv Hf Hl Hcl Hd Hv. cbv zeta. unfold level2_validate_update. cbn [upd_table upd_owner upd_keys upd_fields length Nat.eqb].
  destruct (Nat.eqb_spec (length table) 0) as [E|_]; [by apply nil_length_inv in E|]. rewrite Hc. cbn [check_loop].
  unfold check_key. rewrite Hk. unfold normalize_client_date_value. rewrite Hkt.
  rewrite !bool_decide_eq_false_2 by done. cbn [negb andb].
  destruct (Nat.eqb_spec (length (key_value key)) 0) as [E|_]; [by apply nil_length_inv in E|].
  unfold check_field. cbn [fv_name fv_date_format fv_value large_value]. rewrite Hf.
  unfold normalize_client_date_value. rewrite Hcl. rewrite !bool_decide_eq_false_2 by done. cbn [negb andb].
  assert (validate_field oor (parsed 0 (mk_fv name preview (Some v) []) col) 512 = (FIELD_VALID, [])) as ->.
  { unfold validate_field, InsertValidate.dispatch, parsed. change (field_value_get (mk_fv name preview (Some v) [])) with v.
    cbn [insert_value field_type].
    destruct v as [|c v]; [done|]. cbn [take]. rewrite (take_ge (meta_type col)) by done.
    unfold is_numeric_type, is_string_type. rewrite Hcl. rewrite bool_decide_eq_false_2 by done. rewrite bool_decide_eq_true_2 by done.
    unfold validate_string. cbn [insert_value field_length]. rewrite int_strlen_small.
    - destruct (Z.ltb_spec 0 (data_length col)); cbn [andb]; [|done]. destruct (Z.ltb_spec (data_length col) (Z.of_nat (length (c :: take 1022 v)))); [|done].
      cbn [length] in *. pose proof (firstn_le_length 1022 v). lia.
    - cbn [length]. pose proof (firstn_le_length 1022 v). lia. }
  destruct key. cbn. by rewrite decide_True.
Qed.

Definition long_note : list ascii := replicate (Z.to_nat 5000) "x"%char.

Lemma long_value_unchecked_witness :
  level2_validate_update 2026 6 (fun n => n) demo_columns
    (Some (mk_update (str "BOOKING") [] [mk_key (str "ID") (str "7") []] [mk_fv (str "NOTE") [] (Some long_note) []])) =
  (Some (mk_update (str "BOOKING") [] [mk_key (str "ID") (str "7") []] [mk_fv (str "NOTE") [] (Some long_note) []]), set_ok).
Proof.
  eapply (long_value_unchecked (fun n => n) demo_columns 2026 6 (str "BOOKING") [] (mk_key (str "ID") (str "7") []));
    first [discriminate|reflexivity|vm_compute; lia|idtac].
Defined.

(** ** Rows that do not match *)

(** A row that names one column twice matches a row with another one. *)
Example repeated_name_matches :
  row_field_sets_match [mk_fv (str "A") [] None []; mk_fv (str "A") [] None []] [mk_fv (str "A") [] None []; mk_fv (str "B") [] None []] = true.
Proof. reflexivity. Qed.
