(* ===== verification/DmlDriver.v ===== *)
(** * DmlDriver: what the modules that write share

    src/src/execute/Insert_Execute_Module.c, Update_Execute_Module.c and
    Delete_Execute_Module.c run the same stages: check the request again, build
    a statement from the fragments of the dialect (Dialect.v), bind, execute,
    write the LOBs, audit, commit unless a transaction of the caller is active,
    drop the cached results of the table, answer, clean up.  What they do alike
    is here, over the class [DmlDriver] of what they call; what they do
    differently on the way out are two parameters of [run_batch].

    Everything that is asked of the database is an event, oldest first, and an
    answer may depend on all that came before.  A step that jumps to Cleanup
    with -1 is [None] in the monad [stage]; [None] outside is undefined
    behaviour.  Metrics and log lines are left out. *)

From Stdlib Require Import Ascii String ZArith Lia Bool.
From stdpp Require Import base list strings numbers.
From S2P Require Import Prelude Text Hash Cache CacheSpec ResultsetCache TransactionManager.
From S2P Require Import DbEvents DbTypeClass DdlModules XmlHelper DdlExecute Requests ResponseWriter Level2Parser Dialect.

#[local] Open Scope Z_scope.

(** ** Data *)

(** What is called: the driver, the file system, the audit module - which
    writes under the transaction identity of the call, so it neither commits
    nor rolls back -, and what the JSON writer prints with. *)
Class DmlDriver := {
  drv_table_key : list ascii -> list ascii -> option (list (list ascii));
  dml_execute_returning_rowids : list dml_event -> dml_request -> option (list (list ascii));
  dml_execute_rows : list dml_event -> dml_request -> option Z;
  lob_write_by_rowid : list dml_event -> lob_write_request -> bool;
  file_text : list ascii -> option (list ascii);
  fetch_before_image : list dml_event -> before_image -> option Z;
  audit_trail_insert : list dml_event -> audit_trail_request -> Z;
  json_printer :: JsonPrinter;
}.

(** The transactions, the result cache, the events, and the rows the call has
    written so far. *)
Record dml_state := mk_dml { st_tx : tx_world; st_rs : option cache; st_log : list dml_event; st_rows : Z }.

Definition dml_ctx (s : dml_state) : tx_ctx := w_ctx (st_tx s).
Definition set_dml_ctx (c : tx_ctx) (s : dml_state) : dml_state := mk_dml (mk_world c (w_handles (st_tx s))) (st_rs s) (st_log s) (st_rows s).
Definition set_rows (n : Z) (s : dml_state) : dml_state := mk_dml (st_tx s) (st_rs s) (st_log s) n.
Definition log_event (ev : dml_event) (s : dml_state) : dml_state := mk_dml (st_tx s) (st_rs s) (st_log s ++ [ev]) (st_rows s).

(** What a call finds: its clock, frame and random bytes (DdlExecute.v), the
    time at the cache, and which of its allocations succeed: the parsed request
    (0), its values (1), the array of binds (2), that of the texts read from
    files (3), the two builders of the answer (4). *)
Record dml_env := mk_dml_env { de_call : call_env; de_now : Z; de_al : nat -> bool }.

Record dml_answer := mk_dml_answer { dml_rc : Z; dml_xml : option (list ascii); dml_json : option (list ascii) }.

(** ** Steps that may jump to Cleanup *)

Definition stage (A : Type) : Type := dml_state -> dml_state * option A.
Definition ret {A} (a : A) : stage A := fun s => (s, Some a).
Definition goto_cleanup {A} : stage A := fun s => (s, None).
Definition bind {A B} (m : stage A) (k : A -> stage B) : stage B :=
  fun s => match m s with (s, Some a) => k a s | (s, None) => (s, None) end.
Definition lift {A} (o : option A) : stage A := match o with Some a => ret a | None => goto_cleanup end.

Notation "'let!' x ':=' m 'in' k" := (bind m (fun x => k)) (at level 10, x pattern, m at level 100, k at level 200).

(** [for (...)]: the numbers the turns return are added up. *)
Fixpoint sum_acts {A} (turn : A -> stage Z) (l : list A) : stage Z :=
  match l with
  | [] => ret 0
  | a :: l => let! n := turn a in let! m := sum_acts turn l in ret (n + m)
  end.

Definition require (b : bool) : stage unit := if b then ret tt else goto_cleanup.

(** Calls of the transaction manager: what they ask of the driver becomes
    events. *)
Definition tx_events (c c' : tx_ctx) : list dml_event := map EvTx (drop (length (drv_log c)) (drv_log c')).
Definition after_tx (c' : tx_ctx) (s : dml_state) : dml_state :=
  mk_dml (mk_world c' (w_handles (st_tx s))) (st_rs s) (st_log s ++ tx_events (dml_ctx s) c') (st_rows s).

Section steps.
Context `{DmlDriver}.

Definition CLOB_FILE_PREFIX : list ascii := str "file://".

(** [lob_text_resolve], and the same in the two loops that write CLOBs. *)
Definition lob_text_resolve (raw : list ascii) : option (list ascii) :=
  if prefix_b CLOB_FILE_PREFIX raw then file_text (drop (length CLOB_FILE_PREFIX) raw) else Some raw.

Definition write_lob (r : lob_write_request) : stage unit :=
  fun s => let ok := lob_write_by_rowid (st_log s) r in (log_event (EvLob r ok) s, if ok then Some tt else None).

Definition tbl_fq (owner table : list ascii) : list ascii :=
  take 255 (if Nat.eqb (length owner) 0 then table else owner ++ str "." ++ table).

(** The type the metadata gives for a column, empty if it gives none. *)
Definition dtype_of (cols : list col_metadata) (name : list ascii) : list ascii :=
  match find_column cols name with Some c => meta_type c | None => [] end.

Definition is_scalar (cols : list col_metadata) (name : list ascii) : bool :=
  bool_decide (db_type_lob_kind (Some (dtype_of cols name)) = DB_LOB_NONE).

(** [strncat(dst, src, size - strlen(dst) - 1)] *)
Definition strncat (size : nat) (dst src : list ascii) : list ascii := dst ++ take (size - length dst - 1) src.

(** ["INSERT INTO ..."]: a space before each part that is not empty. *)
Definition spaced (s : list ascii) : list ascii := match s with [] => [] | _ => str " " ++ s end.

Definition assemble (sql_max : nat) (sql : list ascii) : option (list ascii) :=
  if (length sql <? sql_max)%nat then Some sql else None.

Definition qualified_name (owner table : list ascii) : list ascii :=
  if Nat.eqb (length owner) 0 then table else owner ++ str "." ++ table.

(** The audit of a write that succeeded does not decide its fate. *)
Definition audit (auditing : bool) (r : audit_trail_request) : stage unit :=
  fun s => if auditing then (s, Some tt) else (log_event (EvAudit r (audit_trail_insert (st_log s) r)) s, Some tt).

Definition reason_or (dflt : string) (tx_name : option (list ascii)) : list ascii :=
  match tx_name with
  | Some ((_ :: _) as name) => if str_eqb name (str "-") then str dflt else take 499 name
  | _ => str dflt
  end.

(** One statement; its rows are those the call has written. *)
Definition run_returning (r : dml_request) : stage (list (list ascii)) :=
  fun s =>
    let answer := dml_execute_returning_rowids (st_log s) r in
    let rows := option_map (fun ids => Z.of_nat (length ids)) answer in
    (set_rows (default 0 rows) (log_event (EvStatement r rows) s), answer).
Definition run_rows (r : dml_request) : stage Z :=
  fun s =>
    let answer := dml_execute_rows (st_log s) r in (set_rows (default 0 answer) (log_event (EvStatement r answer) s), answer).

(** [db_driver_get()] has the functions the module needs. *)
Definition driver_complete : stage unit :=
  fun s => (s, if bool_decide (is_Some (drv_commit (driver (dml_ctx s)))) && bool_decide (is_Some (drv_rollback (driver (dml_ctx s))))
               then Some tt else None).

(** The commit, unless the transaction is the caller's; the retries of a
    context without configuration are 0. *)
Definition commit_own (owns : bool) : stage unit :=
  fun s =>
    if bool_decide (is_Some (active_tx (dml_ctx s))) && negb owns then (s, Some tt)
    else
      let ini := default (mk_tx_ini 0 0 0) (ctx_ini (dml_ctx s)) in
      let '(c, rc, _) := tx_commit_with_retry (dml_ctx s) (ini_retries ini) (ini_delay ini) in
      (after_tx c s, if rc =? 0 then Some tt else None).

(** Whatever the transaction: the cached results of the table go. *)
Definition invalidate (now : Z) (table : list ascii) : stage unit :=
  fun s => (mk_dml (st_tx s) (fst (resultset_cache_invalidate_by_table now (st_rs s) (Some table))) (st_log s ++ [EvInvalidate table]) (st_rows s),
            Some tt).

(** The end of the three bodies. *)
Definition conclude (owns : bool) (now : Z) (table : list ascii) (resp : dml_response) : stage dml_response :=
  let! _ := commit_own owns in let! _ := invalidate now table in ret resp.

(** ** The answer *)

Definition dml_document (fragment : list ascii) : option (list ascii) :=
  x ← xml_start_document (xml_create 4096); x ← xml_start_execution x; x ← xml_append_raw (Some fragment) x;
  x ← xml_end_execution x; x ← xml_finalize x; Some (buffer x).

(** ** The frame of a call *)

(** [ctx->active_tx->tx_name]; [None]: the pointer is dangling. *)
Definition active_name (owns : bool) (s : dml_state) : option (option (list ascii)) :=
  match active_tx (dml_ctx s) with
  | None => Some None
  | Some a => if owns then Some (Some (tx_name (tx_init true))) else h ← w_handles (st_tx s) !! a; Some (Some (tx_name h))
  end.

(** Cleanup: the rollback of what the call has written - INSERT leaves it to
    the caller's transaction, UPDATE and DELETE do not ask -, and the end of the
    call's own identity. *)
Definition cleanup (respects_managed owns : bool) (rc : Z) (s : dml_state) : dml_state :=
  let s := if negb (rc =? 0) && (0 <? st_rows s) then
             if respects_managed && (bool_decide (is_Some (active_tx (dml_ctx s))) && negb owns) then s
             else after_tx (fst (tx_driver_rollback (dml_ctx s))) s
           else s in
  set_dml_ctx (end_standalone_tx_if_owned (dml_ctx s) owns) s.

(** One call: [validated] is Level 2's verdict on the request, [body] the
    stages from there to the answer, given the name of the transaction.
    INSERT and UPDATE return from a refusal without ending the identity they
    began ([ends_on_refusal] is false), DELETE does. *)
Definition run_batch (op : operation_type) (ends_on_refusal respects_managed : bool) (json : bool) (e : dml_env) (validated : bool)
    (body : bool -> option (list ascii) -> stage dml_response) (s : dml_state) : option (dml_state * dml_answer) :=
  let '(c, _, owns) := begin_standalone_tx_if_needed (env_rnd (de_call e)) (frame (de_call e)) (dml_ctx s) (tx_init true) in
  let s := set_rows 0 (set_dml_ctx c s) in
  name ← active_name owns s;
  let failed := mk_dml_answer (-1) None None in
  if negb validated then
    Some (if ends_on_refusal then set_dml_ctx (end_standalone_tx_if_owned (dml_ctx s) owns) s else s, failed)
  else
    match body owns name s with
    | (s, None) => Some (cleanup respects_managed owns (-1) s, failed)
    | (s, Some resp) =>
        match response_write_dml_xml op resp (elapsed (de_call e)) with
        | None => Some (cleanup respects_managed owns (-1) s, failed)
        | Some fragment =>
            if negb (de_al e 4%nat) then Some (cleanup respects_managed owns (-1) s, failed)
            else
              fragment ← fragment; doc ← dml_document fragment;
              Some (cleanup respects_managed owns 0 s,
                    mk_dml_answer 0 (Some doc)
                      (if json then response_write_dml_json op resp (elapsed (de_call e)) else None))
        end
    end.
End steps.

(** ** What a call asks for *)

(** Everything but the end of the transaction and of the cached results. *)
Definition asks (ev : dml_event) : Prop := match ev with EvTx _ | EvInvalidate _ => False | _ => True end.

(** The rows of the last statement. *)
Definition rows_written (n : Z) (evs : list dml_event) : Z :=
  fold_left (fun n ev => match ev with EvStatement _ rows => default 0 rows | _ => n end) evs n.

(** A step that asks, and does nothing to the transaction. *)
Definition quiet {A} (m : stage A) : Prop :=
  forall s, exists evs, Forall asks evs /\
    fst (m s) = mk_dml (st_tx s) (st_rs s) (st_log s ++ evs) (rows_written (st_rows s) evs).

Section quiet.
Context `{DmlDriver}.

Lemma rows_written_app n evs evs' : rows_written n (evs ++ evs') = rows_written (rows_written n evs) evs'.
Proof. apply fold_left_app. Qed.

Lemma quiet_nothing {A} (o : option A) : quiet (fun s => (s, o)).
Proof. intros s. exists []. split; [done|]. rewrite app_nil_r. by destruct s. Qed.

Lemma quiet_emit {A} (f : dml_state -> dml_event) (rows : dml_state -> Z) (o : dml_state -> option A) :
  (forall s, asks (f s) /\ rows s = rows_written (st_rows s) [f s]) -> quiet (fun s => (set_rows (rows s) (log_event (f s) s), o s)).
Proof. intros Hf s. destruct (Hf s) as [Ha Hr]. exists [f s]. split; [by constructor|]. cbn [fst]. by rewrite <- Hr. Qed.

Lemma quiet_ret {A} (a : A) : quiet (ret a).
Proof. apply quiet_nothing. Qed.

Lemma quiet_lift {A} (o : option A) : quiet (lift o).
Proof. destruct o; apply quiet_nothing. Qed.

Lemma quiet_require b : quiet (require b).
Proof. destruct b; apply quiet_nothing. Qed.

Lemma quiet_bind {A B} (m : stage A) (k : A -> stage B) : quiet m -> (forall a, quiet (k a)) -> quiet (bind m k).
Proof.
  intros Hm Hk s. destruct (Hm s) as (evs & Hevs & E). unfold bind. destruct (m s) as [s1 [a|]]; cbn [fst] in *; subst s1.
  - destruct (Hk a (mk_dml (st_tx s) (st_rs s) (st_log s ++ evs) (rows_written (st_rows s) evs))) as (evs' & Hevs' & ->).
    exists (evs ++ evs'). split; [by apply Forall_app|]. cbn [st_tx st_rs st_log st_rows]. by rewrite app_assoc, rows_written_app.
  - by exists evs.
Qed.

Lemma quiet_sum_acts {A} (turn : A -> stage Z) l : (forall a, quiet (turn a)) -> quiet (sum_acts turn l).
Proof.
  intros Ht. induction l as [|a l IH]; [apply quiet_ret|]. cbn [sum_acts]. apply quiet_bind; [done|]. intros n.
  apply quiet_bind; [done|]. intros m. apply quiet_ret.
Qed.

Lemma quiet_write_lob r : quiet (write_lob r).
Proof.
  intros s. exists [EvLob r (lob_write_by_rowid (st_log s) r)]. split; [by constructor|]. done.
Qed.

Lemma quiet_audit b r : quiet (audit b r).
Proof.
  intros s. unfold audit. destruct b; [apply quiet_nothing|]. exists [EvAudit r (audit_trail_insert (st_log s) r)].
  split; [by constructor|]. done.
Qed.

Lemma quiet_run_returning r : quiet (run_returning r).
Proof. apply quiet_emit. done. Qed.

Lemma quiet_run_rows r : quiet (run_rows r).
Proof. apply quiet_emit. done. Qed.

Lemma quiet_driver_complete : quiet driver_complete.
Proof. intros s. apply quiet_nothing. Qed.
End quiet.

#[export] Hint Resolve quiet_nothing quiet_ret quiet_lift quiet_require quiet_sum_acts quiet_write_lob quiet_audit quiet_run_returning
  quiet_run_rows quiet_driver_complete : ocidb.

(** Step by step. *)
Ltac quiet_steps :=
  repeat (cbv beta iota; lazymatch goal with
    | |- quiet (bind _ _) => apply quiet_bind
    | |- quiet _ => solve [auto with ocidb]
    | |- forall _ : _ * _, _ => intros [? ?]
    | |- forall _, _ => intros ?
    end).

(** ** How a call ends *)

Lemma log_events_app evs evs' c : log_events (evs ++ evs') c = log_events evs' (log_events evs c).
Proof. unfold log_events. cbn. by rewrite app_assoc. Qed.

Lemma log_events_nil c : log_events [] c = c.
Proof. unfold log_events. rewrite app_nil_r. by destruct c. Qed.

Lemma after_log evs s : after_tx (log_events evs (dml_ctx s)) s =
  mk_dml (mk_world (log_events evs (dml_ctx s)) (w_handles (st_tx s))) (st_rs s) (st_log s ++ map EvTx evs) (st_rows s).
Proof. unfold after_tx, tx_events, log_events. cbn [drv_log]. by rewrite drop_app_length. Qed.

(** The transaction is the caller's. *)
Definition managed (s : dml_state) : bool := bool_decide (is_Some (active_tx (dml_ctx s))).

Definition undo_log (respects is_managed : bool) (rc rows : Z) (c : tx_ctx) : list drv_event :=
  if negb (rc =? 0) && (0 <? rows) && negb (respects && is_managed) then rollback_log c else [].

Section outcome.
Context `{DmlDriver}.

Lemma commit_own_logs owns s :
  exists commits, fst (commit_own owns s) = after_tx (log_events commits (dml_ctx s)) s /\
    (forall rc, ~ In (EvRollback rc) commits) /\
    (if managed s && negb owns then commits = [] /\ snd (commit_own owns s) = Some tt
     else snd (commit_own owns s) = Some tt <-> In (EvCommit 0) commits).
Proof.
  unfold commit_own, managed. destruct (_ && negb owns).
  - exists []. rewrite after_log, log_events_nil, app_nil_r. split; [by destruct s as [[] ? ? ?]|]. split; [by intros ? []|]. done.
  - pose proof (commit_logs (dml_ctx s) (ini_retries (default (mk_tx_ini 0 0 0) (ctx_ini (dml_ctx s))))
      (ini_delay (default (mk_tx_ini 0 0 0) (ctx_ini (dml_ctx s))))) as (evs & E & Hrc & Hnr).
    destruct (tx_commit_with_retry _ _ _) as [[c rc] n]. cbn [fst snd] in *. subst c. exists evs. split; [done|]. split; [done|].
    rewrite <- Hrc. destruct (Z.eqb_spec rc 0); by split.
Qed.

Lemma cleanup_logs respects owns rc s :
  let undone := undo_log respects (managed s && negb owns) rc (st_rows s) (dml_ctx s) in
  cleanup respects owns rc s =
    set_dml_ctx (end_standalone_tx_if_owned (log_events undone (dml_ctx s)) owns) (after_tx (log_events undone (dml_ctx s)) s).
Proof.
  cbn zeta. unfold cleanup, undo_log, managed. assert (after_tx (log_events [] (dml_ctx s)) s = s) as Hnone.
  { rewrite after_log, log_events_nil, app_nil_r. by destruct s as [[] ? ? ?]. }
  destruct (negb (rc =? 0) && (0 <? st_rows s)); cbn [andb]; [|by rewrite Hnone, log_events_nil].
  destruct (respects && _); cbn [negb]; [by rewrite Hnone, log_events_nil|]. by rewrite rollback_logs.
Qed.
End outcome.

(** ** The outcome of a call *)

Section batch.
Context `{DmlDriver} (op : operation_type) (ends respects json : bool) (e : dml_env) (validated : bool) (table : list ascii)
        (write : option (list ascii) -> stage dml_response).
Hypothesis write_quiet : forall name, quiet (write name).
Hypothesis writes_rows : is_Some (rows_affected_tag_name op).

Definition batch : dml_state -> option (dml_state * dml_answer) :=
  run_batch op ends respects json e validated (fun owns name => let! resp := write name in conclude owns (de_now e) table resp).

(** What was asked, then the attempts to commit, then the rows that are
    dropped from the cache, then a rollback; the context is as it was found,
    but for the identity that a refusal leaves. *)
Definition outcome (s s' : dml_state) (ans : dml_answer) (asked dropped : list dml_event) (commits : list drv_event) : Prop :=
  let c := dml_ctx s in
  let undone := undo_log respects (managed s) (dml_rc ans) (rows_written 0 asked) c in
  let stays := negb validated && negb ends && negb (managed s) in
  st_log s' = st_log s ++ asked ++ map EvTx commits ++ dropped ++ map EvTx undone /\
  st_tx s' = mk_world (log_events (commits ++ undone) (if stays then set_active (Some (frame (de_call e))) (trace_txid c) c else c))
               (w_handles (st_tx s)) /\
  Forall asks asked /\ (forall rc, ~ In (EvRollback rc) commits) /\ st_rows s' = rows_written 0 asked /\
  (dml_rc ans = 0 -> dropped = [EvInvalidate table] /\ (managed s = false -> In (EvCommit 0) commits)) /\
  (dml_rc ans <> 0 -> dml_rc ans = -1 /\ dml_xml ans = None /\ (dropped = [] \/ dropped = [EvInvalidate table]) /\
     (managed s = false -> In (EvCommit 0) commits -> de_al e 4%nat = false)) /\
  (managed s = true -> commits = []) /\
  (validated = false -> dml_rc ans <> 0 /\ asked = [] /\ commits = [] /\ dropped = []).

(** The context while the call runs. *)
Lemma begin_end c : 
  let '(c', _, owns) := begin_standalone_tx_if_needed (env_rnd (de_call e)) (frame (de_call e)) c (tx_init true) in
  owns = negb (bool_decide (is_Some (active_tx c))) /\ driver c' = driver c /\ is_Some (active_tx c') /\
  c' = (if owns then set_active (Some (frame (de_call e))) (trace_txid c) c else c) /\
  (forall evs, end_standalone_tx_if_owned (log_events evs c') owns = log_events evs c).
Proof.
  unfold begin_standalone_tx_if_needed. destruct c as [[a|] ini d t l]; cbn; repeat (split; [done || by eexists|]); done.
Qed.

(** The stages up to the answer: [None] of the result is a failure of a stage
    or of the commit. *)
Lemma body_logs owns name s :
  let '(s', answer) := (let! resp := write name in conclude owns (de_now e) table resp) s in
  exists asked commits dropped rs,
    s' = mk_dml (mk_world (log_events commits (dml_ctx s)) (w_handles (st_tx s))) rs
           (st_log s ++ asked ++ map EvTx commits ++ dropped) (rows_written (st_rows s) asked) /\
    Forall asks asked /\ (forall rc, ~ In (EvRollback rc) commits) /\
    (if managed s && negb owns then commits = [] else is_Some answer <-> In (EvCommit 0) commits) /\
    dropped = match answer with Some _ => [EvInvalidate table] | None => [] end.
Proof.
  destruct (write_quiet name s) as (asked & Hasked & E). unfold bind. destruct (write name s) as [s1 [resp|]]; cbn [fst] in E; subst s1.
  - set (s1 := mk_dml _ _ _ _). unfold conclude, bind.
    destruct (commit_own_logs owns s1) as (commits & E & Hnr & Hin). rewrite after_log in E.
    change (managed s1) with (managed s) in Hin. change (dml_ctx s1) with (dml_ctx s) in E.
    destruct (commit_own owns s1) as [s2 [[]|]]; cbn [fst snd] in *; subst s2; cbn.
    + exists asked, commits, [EvInvalidate table]. eexists. rewrite <- !app_assoc. split; [reflexivity|]. split; [done|]. split; [done|].
      split; [|done]. destruct (managed s && negb owns); [by destruct Hin|]. split; [intros _; by apply Hin|by eexists].
    + exists asked, commits, []. eexists. rewrite app_nil_r, <- !app_assoc. split; [reflexivity|]. split; [done|]. split; [done|].
      split; [|done]. destruct (managed s && negb owns); [by destruct Hin|]. split; [by intros []|]. intros Hc. by apply Hin in Hc.
  - exists asked, [], []. eexists. rewrite log_events_nil, !app_nil_r. split; [by destruct s as [[] ? ? ?]|]. split; [done|]. split; [by intros ? []|].
    split; [|done]. destruct (managed s && negb owns); [done|]. split; [by intros []|by intros []].
Qed.

Lemma cleanup_rows owns rc s : st_rows (cleanup respects owns rc s) = st_rows s.
Proof. unfold cleanup. destruct (_ && (0 <? _)); [|done]. by destruct (_ && (_ && _)). Qed.

Lemma managed_in_call c' s1 evs : dml_ctx s1 = log_events evs c' -> is_Some (active_tx c') -> managed s1 = true.
Proof. intros E Ha. unfold managed. rewrite E. by apply bool_decide_eq_true. Qed.

(** Cleanup after the stages, in a call on [s]. *)
Lemma cleanup_after s c' owns s1 commits dropped asked rc :
  owns = negb (managed s) -> is_Some (active_tx c') -> driver c' = driver (dml_ctx s) ->
  (forall evs, end_standalone_tx_if_owned (log_events evs c') owns = log_events evs (dml_ctx s)) ->
  dml_ctx s1 = log_events commits c' -> w_handles (st_tx s1) = w_handles (st_tx s) ->
  st_log s1 = st_log s ++ asked ++ map EvTx commits ++ dropped -> st_rows s1 = rows_written 0 asked ->
  let undone := undo_log respects (managed s) rc (rows_written 0 asked) (dml_ctx s) in
  st_log (cleanup respects owns rc s1) = st_log s ++ asked ++ map EvTx commits ++ dropped ++ map EvTx undone /\
  st_tx (cleanup respects owns rc s1) = mk_world (log_events (commits ++ undone) (dml_ctx s)) (w_handles (st_tx s)).
Proof.
  intros Howns Hact Hdrv Hend Hctx Hh Hlog Hrows undone. rewrite cleanup_logs, (managed_in_call c' s1 commits Hctx Hact). cbn [andb].
  assert (undo_log respects (negb owns) rc (st_rows s1) (dml_ctx s1) = undone) as ->.
  { unfold undone, undo_log. rewrite Hrows, Howns, negb_involutive, Hctx. unfold rollback_log, log_events. cbn [driver]. by rewrite Hdrv. }
  rewrite after_log. unfold set_dml_ctx. cbn [st_log st_tx w_handles]. rewrite Hh, Hlog, Hctx, <- log_events_app, Hend, <- !app_assoc. done.
Qed.

Lemma batch_outcome s s' ans : batch s = Some (s', ans) -> exists asked dropped commits, outcome s s' ans asked dropped commits.
Proof.
  unfold batch, run_batch. pose proof (begin_end (dml_ctx s)) as Hb.
  destruct (begin_standalone_tx_if_needed _ _ _ _) as [[c' h] owns]. destruct Hb as (Howns & Hdrv & Hact & Hc' & Hend).
  set (s0 := set_rows 0 (set_dml_ctx c' s)). destruct (active_name owns s0) as [name|]; [|done]. cbn [mbind option_bind].
  fold (managed s) in Howns. destruct validated eqn:Ev; cbn [negb].
  - pose proof (body_logs owns name s0) as Hbody. destruct (bind _ _ s0) as [s1 answer].
    destruct Hbody as (asked & commits & dropped & rs & E & Hasked & Hnr & Hcommit & Hdrop).
    rewrite (managed_in_call c' s0 []), Howns, negb_involutive in Hcommit by (done || by rewrite log_events_nil). cbn [andb] in *.
    intros Hr. exists asked, dropped, commits.
    assert (forall rc, _) as Hclean by
      (intros rc; apply (cleanup_after s c' owns s1 commits dropped asked rc Howns Hact Hdrv Hend); subst s1; done).
    assert (Hfail : (answer = None \/ de_al e 4%nat = false) ->
        outcome s (cleanup respects owns (-1) s1) (mk_dml_answer (-1) None None) asked dropped commits).
    { intros Hwhy. unfold outcome. destruct (Hclean (-1)) as [-> ->]. rewrite Ev. cbn [negb andb dml_rc dml_xml].
      do 4 (split; [done|]). split; [by rewrite cleanup_rows; subst s1|]. split; [done|]. split; [|split; [by destruct (managed s)|done]]. intros _.
      split; [done|]. split; [done|]. split; [by subst dropped; destruct answer; [right|left]|]. intros Hm Hin.
      rewrite Hm in Hcommit. apply Hcommit in Hin as [resp ->]. by destruct Hwhy. }
    destruct answer as [resp|]; [|by injection Hr as <- <-; apply Hfail; left].
    unfold response_write_dml_xml in Hr. destruct writes_rows as [tag Etag]. rewrite Etag in Hr.
    destruct (de_al e 4%nat); cbn [negb] in Hr; [|by injection Hr as <- <-; apply Hfail; right].
    apply bind_Some in Hr as (fragment & _ & Hr). apply bind_Some in Hr as (doc & _ & Hr). injection Hr as <- <-.
    unfold outcome. destruct (Hclean 0) as [-> ->]. rewrite Ev. cbn [negb andb dml_rc dml_xml].
    do 4 (split; [done|]). split; [by rewrite cleanup_rows; subst s1|]. split; [|split; [done|split; [by destruct (managed s)|done]]]. intros _. split; [done|]. intros Hm.
    rewrite Hm in Hcommit. by apply Hcommit.
  - intros Hr. exists [], [], []. injection Hr as <- <-. unfold outcome. rewrite Ev. cbn [negb andb dml_rc dml_xml rows_written fold_left].
    change (undo_log respects (managed s) (-1) 0 (dml_ctx s)) with (@nil drv_event). cbn [map app].
    rewrite app_nil_r, log_events_nil. split; [by destruct ends|]. split.
    { specialize (Hend []). rewrite !log_events_nil in Hend.
      destruct ends; [change (dml_ctx s0) with c'; cbn; by rewrite Hend|]. cbn. rewrite Hc', Howns. by destruct (managed s). }
    split; [done|]. split; [by intros ? []|]. split; [by destruct ends|]. split; [done|]. split; [|done]. intros _. split; [done|].
    split; [done|]. split; [by left|]. by intros _ [].
Qed.
End batch.

(** ** The document of an answer *)

(** What [response_write_dml_xml] and the frame around it come to. *)
Definition dml_text (op : operation_type) (tag : string) (resp : dml_response) (elapsed : double) : list ascii :=
  str "<?xml version=" ++ quoted "1.0" ++ str " encoding=" ++ quoted "UTF-8" ++ str "?>" ++ nl ++ str "<output_xml>" ++ nl ++
  str "<execution_envelope>" ++ nl ++
  element "operation" (op_name op) ++ nl ++ element "table_name" (dr_table resp) ++ nl ++ element "owner" (dr_owner resp) ++ nl ++
  element tag (print_int (rows_affected resp)) ++ nl ++ element "lobs_written" (print_int (lobs_written resp)) ++ nl ++
  element "execution_time" (print_fixed6 elapsed) ++ nl ++ str "</execution_envelope>" ++ nl ++ str "</output_xml>" ++ nl.

Lemma tag_short op tag : rows_affected_tag_name op = Some tag -> (String.length tag <= 13)%nat.
Proof. destruct op; intros [= <-]; simpl; lia. Qed.

Lemma document_text fragment : dml_document fragment =
  Some (str "<?xml version=" ++ quoted "1.0" ++ str " encoding=" ++ quoted "UTF-8" ++ str "?>" ++ nl ++ str "<output_xml>" ++ nl ++
        str "<execution_envelope>" ++ nl ++ fragment ++ str "</execution_envelope>" ++ nl ++ str "</output_xml>" ++ nl).
Proof.
  unfold dml_document, xml_start_document, xml_start_execution, xml_end_execution, xml_finalize.
  assert (xml_ok (xml_create 4096)) as Hx by reflexivity.
  do 3 (match goal with |- context [xml_append ?t ?x] =>
    destruct (xml_append_ok x t) as (? & -> & ? & ?); [done|apply Nat.ltb_lt; reflexivity|cbn [mbind option_bind]] end).
  match goal with |- context [xml_append_raw (Some ?s) ?x] =>
    destruct (append_raw_ok x s) as (? & -> & ? & ?); [done|cbn [mbind option_bind]] end.
  do 2 (match goal with |- context [xml_append ?t ?x] =>
    destruct (xml_append_ok x t) as (? & -> & ? & ?); [done|apply Nat.ltb_lt; reflexivity|cbn [mbind option_bind]] end).
  f_equal. repeat match goal with H : buffer ?x = _ |- context [buffer ?x] => rewrite H end. by rewrite <- !app_assoc.
Qed.

(** The texts of a name of the metadata fit: the answer is that document. *)
Lemma dml_document_text op tag resp elapsed :
  rows_affected_tag_name op = Some tag -> (length (dr_table resp) <= 127)%nat -> (length (dr_owner resp) <= 127)%nat ->
  exists fragment, response_write_dml_xml op resp elapsed = Some (Some fragment) /\
    dml_document fragment = Some (dml_text op tag resp elapsed).
Proof.
  intros Htag Ht Ho. unfold response_write_dml_xml. rewrite Htag.
  pose proof (print_int_short (rows_affected resp)). pose proof (print_int_short (lobs_written resp)).
  pose proof (print_fixed6_short elapsed). pose proof (tag_short op tag Htag).
  assert (XML_TEMP = 64 * 128)%nat as Hmax by (apply Nat2Z.inj; reflexivity).
  assert (length (op_name op) <= 6)%nat by (destruct op; simpl; lia).
  edestruct (append_all_ok [element "operation" (op_name op) ++ nl; element "table_name" (dr_table resp) ++ nl;
      element "owner" (dr_owner resp) ++ nl; element tag (print_int (rows_affected resp)) ++ nl;
      element "lobs_written" (print_int (lobs_written resp)) ++ nl; element "execution_time" (print_fixed6 elapsed) ++ nl] (xml_create 1024))
    as (x & -> & E & Hx); [reflexivity| |].
  { repeat (apply Forall_cons_iff; split; [rewrite length_app, element_length; cbn [String.length length nl]; lia|]). apply Forall_nil. }
  cbn [mbind option_bind]. eexists. split; [reflexivity|]. rewrite (document_text (buffer x)), E. f_equal. unfold dml_text.
  cbn [concat xml_create buffer]. by rewrite !app_nil_l, app_nil_r, <- !app_assoc.
Qed.

(** The transaction the context points at is there. *)
Definition tx_here (s : dml_state) : Prop := tx_there (st_tx s).

(** The results of a step. *)
Definition gives {A} (P : A -> Prop) (m : stage A) : Prop := forall s s' a, m s = (s', Some a) -> P a.

Lemma gives_ret {A} (P : A -> Prop) a : P a -> gives P (ret a).
Proof. by intros Ha s s' b [= _ <-]. Qed.

Lemma gives_bind {A B} (P : A -> Prop) (Q : B -> Prop) (m : stage A) k : gives P m -> (forall a, P a -> gives Q (k a)) -> gives Q (bind m k).
Proof.
  intros Hm Hk s s' b. unfold bind. destruct (m s) as [s1 [a|]] eqn:E; [|done]. apply Hk. by apply (Hm s s1).
Qed.

Lemma gives_any {A} (m : stage A) : gives (fun _ => True) m.
Proof. done. Qed.

Lemma gives_lift {A} (o : option A) : gives (fun a => o = Some a) (lift o).
Proof. destruct o; [by apply gives_ret|]. by intros s s' a. Qed.

(** The rows of an answer are those the statement wrote. *)
Definition counts (m : stage dml_response) : Prop := forall s s' resp, m s = (s', Some resp) -> st_rows s' = rows_affected resp.
Definition counts_from (n : Z) (m : stage dml_response) : Prop :=
  forall s s' resp, st_rows s = n -> m s = (s', Some resp) -> st_rows s' = rows_affected resp.
Definition keeps_rows {A} (m : stage A) : Prop := forall s, st_rows (fst (m s)) = st_rows s.

Section rows.
Context `{DmlDriver}.

Lemma counts_bind {A} (m : stage A) k : (forall a, counts (k a)) -> counts (bind m k).
Proof. intros Hk s s' resp. unfold bind. destruct (m s) as [s1 [a|]]; [apply Hk|done]. Qed.

Lemma counts_returning r k : (forall ids, counts_from (Z.of_nat (length ids)) (k ids)) -> counts (bind (run_returning r) k).
Proof.
  intros Hk s s' resp. unfold bind, run_returning. destruct (dml_execute_returning_rowids _ _) as [ids|]; [|done]. by apply Hk.
Qed.

Lemma counts_rows r k : (forall n, counts_from n (k n)) -> counts (bind (run_rows r) k).
Proof. intros Hk s s' resp. unfold bind, run_rows. destruct (dml_execute_rows _ _) as [n|]; [|done]. by apply Hk. Qed.

Lemma counts_from_bind {A} n (m : stage A) k : keeps_rows m -> (forall a, counts_from n (k a)) -> counts_from n (bind m k).
Proof.
  intros Hm Hk s s' resp Hs. unfold bind. specialize (Hm s). destruct (m s) as [s1 [a|]]; [|done]. apply Hk. cbn in Hm. congruence.
Qed.

Lemma counts_from_ret n resp : rows_affected resp = n -> counts_from n (ret resp).
Proof. intros Hr s s' resp' Hs [= <- <-]. congruence. Qed.

Lemma keeps_ret {A} (a : A) : keeps_rows (ret a).
Proof. done. Qed.

Lemma keeps_lift {A} (o : option A) : keeps_rows (lift o).
Proof. by destruct o. Qed.

Lemma keeps_bind {A B} (m : stage A) (k : A -> stage B) : keeps_rows m -> (forall a, keeps_rows (k a)) -> keeps_rows (bind m k).
Proof.
  intros Hm Hk s. unfold bind. specialize (Hm s). destruct (m s) as [s1 [a|]]; [|done]. rewrite <- Hm. apply Hk.
Qed.

Lemma keeps_sum_acts {A} (turn : A -> stage Z) l : (forall a, keeps_rows (turn a)) -> keeps_rows (sum_acts turn l).
Proof. intros Ht. induction l as [|a l IH]; [apply keeps_ret|]. cbn [sum_acts]. do 2 (apply keeps_bind; [done|intros ?]). apply keeps_ret. Qed.

Lemma keeps_write_lob r : keeps_rows (write_lob r).
Proof. done. Qed.

Lemma keeps_audit b r : keeps_rows (audit b r).
Proof. intros s. unfold audit. by destruct b. Qed.

Lemma keeps_commit_own owns : keeps_rows (commit_own owns).
Proof. intros s. unfold commit_own. destruct (_ && _); [done|]. by destruct (tx_commit_with_retry _ _ _) as [[? ?] ?]. Qed.
End rows.

#[export] Hint Resolve keeps_ret keeps_lift keeps_bind keeps_sum_acts keeps_write_lob keeps_audit keeps_commit_own : ocidb.

(** The steps before the statement. *)
Ltac count_steps :=
  repeat (cbv beta iota; lazymatch goal with
    | |- counts (bind (run_returning _) _) => fail
    | |- counts (bind (run_rows _) _) => fail
    | |- counts (bind _ _) => apply counts_bind
    | |- forall _ : _ * _, _ => intros [? ?]
    | |- forall _, _ => intros ?
    end).

Lemma take_short {A} n (l : list A) : (length (take n l) <= n)%nat.
Proof. rewrite length_take. lia. Qed.

(** The rest of the steps do not matter to what the last one gives. *)
Ltac give_rest :=
  repeat (refine (gives_bind _ _ _ _ (gives_any _) _); intros ? _; try match goal with p : (_ * _)%type |- _ => destruct p end).

Section answer.
Context `{DmlDriver} (op : operation_type) (ends respects json : bool) (e : dml_env) (validated : bool) (table : list ascii)
        (write : option (list ascii) -> stage dml_response).
Hypothesis write_short : forall name, gives (fun resp => (length (dr_table resp) <= 127)%nat /\ (length (dr_owner resp) <= 127)%nat) (write name).
Hypothesis write_counts : forall name, counts (write name).

Lemma active_name_here s : tx_here s <->
  let '(c, _, owns) := begin_standalone_tx_if_needed (env_rnd (de_call e)) (frame (de_call e)) (dml_ctx s) (tx_init true) in
  is_Some (active_name owns (set_rows 0 (set_dml_ctx c s))).
Proof.
  unfold tx_here, tx_there, begin_standalone_tx_if_needed, active_name. change (w_ctx (st_tx s)) with (dml_ctx s).
  destruct (active_tx (dml_ctx s)) as [a|] eqn:E; cbn; [rewrite E|by split; [eexists|]].
  by destruct (w_handles (st_tx s) !! a); cbn; split; [by eexists| |intros []|intros []].
Qed.

(** A call answers exactly when it can; the answer of a success is its
    document. *)
Lemma batch_answers tag s : rows_affected_tag_name op = Some tag ->
  match batch op ends respects json e validated table write s with
  | None => ~ tx_here s
  | Some (s', ans) => tx_here s /\
      (dml_rc ans = 0 -> exists resp, dml_xml ans = Some (dml_text op tag resp (elapsed (de_call e))) /\ rows_affected resp = st_rows s')
  end.
Proof.
  intros Htag. pose proof (active_name_here s) as Hhere. unfold batch, run_batch.
  destruct (begin_standalone_tx_if_needed _ _ _ _) as [[c h] owns]. destruct (active_name owns _) as [name|]; cbn [mbind option_bind].
  2: { intros Ht. by apply Hhere in Ht as []. }
  assert (tx_here s) as Ht by (apply Hhere; by eexists). clear Hhere.
  destruct validated; cbn [negb]; [|done]. destruct (bind _ _ _) as [s1 [resp|]] eqn:Eb; [|done].
  assert (length (dr_table resp) <= 127 /\ length (dr_owner resp) <= 127)%nat as [H1 H2].
  { revert Eb. refine (gives_bind _ (fun r => length (dr_table r) <= 127 /\ length (dr_owner r) <= 127)%nat _ _ (write_short name) _ _ _ _).
    intros r Hr. unfold conclude. do 2 (refine (gives_bind _ _ _ _ (gives_any _) _); intros _ _). by apply gives_ret. }
  assert (st_rows s1 = rows_affected resp) as Hrows.
  { unfold bind at 1 in Eb. destruct (write name _) as [s2 [r|]] eqn:Ew; [|done]. apply write_counts in Ew. revert Eb.
    apply (counts_from_bind (rows_affected r)); [apply keeps_commit_own| |exact Ew]. intros _.
    apply counts_from_bind; [done|]. intros _. by apply counts_from_ret. }
  destruct (dml_document_text op tag resp (elapsed (de_call e)) Htag H1 H2) as (fragment & -> & Hd).
  destruct (de_al e 4%nat); cbn [negb]; [|done]. cbn [mbind option_bind]. rewrite Hd. cbn [mbind option_bind]. split; [done|]. intros _. exists resp. split; [done|].
  by rewrite cleanup_rows.
Qed.
End answer.

(** A driver for the examples: every row has the locator AAA, no table has a
    key column, the one file holds a text, an audit succeeds. *)
Definition demo_dml : DmlDriver := {|
  drv_table_key _ _ := Some [];
  dml_execute_returning_rowids _ r := Some (map (fun _ => str "AAA") (bind_values r));
  dml_execute_rows _ r := Some 1;
  lob_write_by_rowid _ _ := true;
  file_text path := if str_eqb path (str "/note") then Some (str "long text") else None;
  fetch_before_image _ _ := Some 1;
  audit_trail_insert _ _ := 0;
  json_printer := demo_printer None |}.

(** ** Lists put together in a buffer *)

(** The pieces with what stands between them; [first]: nothing before. *)
Fixpoint listed (sep : list ascii) (first : bool) (l : list (list ascii)) : list ascii :=
  match l with [] => [] | x :: l => (if first then [] else sep) ++ x ++ listed sep false l end.

(** The same by [strncat], piece by piece. *)
Fixpoint accumulate (size : nat) (sep : list ascii) (first : bool) (l : list (list ascii)) (acc : list ascii) : list ascii :=
  match l with
  | [] => acc
  | x :: l => accumulate size sep false l (strncat size (if first then acc else strncat size acc sep) x)
  end.

Section lists.
Implicit Types (size m : nat) (sep acc x : list ascii) (l : list (list ascii)).

Lemma strncat_fits size acc x : (length acc + length x < size)%nat -> strncat size acc x = acc ++ x.
Proof. intros H. unfold strncat. by rewrite take_ge by lia. Qed.

(** Nothing is cut while the pieces are not longer than their share. *)
Lemma accumulate_exact size sep m first l acc :
  Forall (fun x => (length x <= m)%nat) l -> (length acc + length l * (m + length sep) < size)%nat ->
  accumulate size sep first l acc = acc ++ listed sep first l.
Proof.
  intros H. revert first acc. induction H as [|x l Hx _ IH]; intros first acc Hs; cbn [accumulate listed length] in *; [by rewrite app_nil_r|].
  destruct first.
  - rewrite strncat_fits by nia. rewrite IH by (rewrite length_app; nia). by rewrite <- app_assoc.
  - rewrite (strncat_fits size acc sep) by nia. rewrite strncat_fits by (rewrite length_app; nia).
    rewrite IH by (rewrite !length_app; nia). by rewrite <- !app_assoc.
Qed.

Lemma accumulate_within size sep m n l :
  Forall (fun x => (length x <= m)%nat) l -> (length l <= n)%nat -> Nat.ltb (n * (m + length sep)) size = true ->
  accumulate size sep true l [] = listed sep true l.
Proof.
  intros Hl Hn Hs%Nat.ltb_lt. rewrite (accumulate_exact _ _ m); [done|done|]. simpl.
  pose proof (Nat.mul_le_mono_r _ _ (m + length sep) Hn). lia.
Qed.

Lemma listed_length sep m first l : Forall (fun x => (length x <= m)%nat) l -> (length (listed sep first l) <= length l * (m + length sep))%nat.
Proof.
  intros H. revert first. induction H as [|x l Hx _ IH]; intros first; cbn [listed length]; [lia|].
  rewrite !length_app. specialize (IH false). destruct first; simpl; lia.
Qed.
End lists.

Lemma assemble_some n s t : assemble n s = Some t -> t = s /\ (length t < n)%nat.
Proof. unfold assemble. destruct (Nat.ltb_spec (length s) n); [|done]. by intros [= <-]. Qed.

(** ** One fragment for each column *)

Section fragments.
Context `{Dialect}.

(** The literal of a LOB, or the expression around the next placeholder; then
    the position after it. *)
Definition fragment (cols : list col_metadata) (pos : Z) (name : list ascii) : option (list ascii * Z) :=
  match lob_placeholder (dtype_of cols name) with
  | Some lob_literal => Some (lob_literal, pos)
  | None => bind_ph ← bind_placeholder pos 32; expr ← value_expr (dtype_of cols name) bind_ph 256; Some (expr, pos + 1)
  end.

Fixpoint fragments (cols : list col_metadata) (pos : Z) (names : list (list ascii)) : option (list (list ascii) * Z) :=
  match names with
  | [] => Some ([], pos)
  | name :: names => '(x, pos) ← fragment cols pos name; '(l, pos) ← fragments cols pos names; Some (x :: l, pos)
  end.

Context `{!DialectLaws}.

Lemma dtype_reported cols name : Forall (fun c => reported (meta_type c)) cols -> reported (dtype_of cols name).
Proof.
  intros H1. unfold dtype_of, find_column. destruct (List.find _ _) as [c|] eqn:E; [|apply reported_unknown].
  apply List.find_some in E as [Hin _]. by apply (proj1 (List.Forall_forall _ _) H1).
Qed.

Lemma fragment_short cols pos name x pos' : fragment cols pos name = Some (x, pos') -> (length x <= FRAGMENT_MAX)%nat.
Proof.
  unfold fragment. destruct (lob_placeholder _) eqn:E; [intros [= <- <-]; by eapply lob_placeholder_short|].
  intros H1. apply bind_Some in H1 as (p & Hp & H1). apply bind_Some in H1 as (y & Hy & [= <- <-]).
  apply bind_placeholder_short in Hp. eapply value_expr_short; [exact Hy|lia].
Qed.

Lemma fragments_short cols pos names l pos' : fragments cols pos names = Some (l, pos') ->
  length l = length names /\ Forall (fun x => (length x <= FRAGMENT_MAX)%nat) l.
Proof.
  revert pos l. induction names as [|name names IH]; intros pos l; cbn [fragments]; [by intros [= <- <-]|]. intros H1.
  apply bind_Some in H1 as ((x & p1) & Hx & H1). apply bind_Some in H1 as ((l1 & p2) & Hl & [= <- <-]). apply IH in Hl as [Hlen Hl].
  split; [by cbn; f_equal|]. constructor; [by eapply fragment_short|done].
Qed.

(** The placeholders are those of the columns that values are bound to. *)
Lemma fragments_count cols pos names l pos' : Forall (fun c => reported (meta_type c)) cols -> fragments cols pos names = Some (l, pos') ->
  pos' = pos + Z.of_nat (length (List.filter (is_scalar cols) names)).
Proof.
  intros Hc. revert pos l. induction names as [|name names IH]; intros pos l; cbn [fragments List.filter]; [intros [= <- <-]; simpl; lia|]. intros H1.
  apply bind_Some in H1 as ((x & p1) & Hx & H1). apply bind_Some in H1 as ((l1 & p2) & Hl & [= <- <-]). apply IH in Hl as ->.
  pose proof (lob_views_agree _ (dtype_reported cols name Hc)) as Hv. unfold fragment in Hx. unfold is_scalar.
  destruct (lob_placeholder _) as [lit|].
  - injection Hx as <- <-. rewrite bool_decide_eq_false_2; [done|]. intros Hk. by apply Hv in Hk.
  - apply bind_Some in Hx as (p & _ & Hx). apply bind_Some in Hx as (y & _ & [= <- <-]).
    rewrite bool_decide_eq_true_2 by (by apply Hv). cbn [length]. lia.
Qed.
End fragments.
