(* ===== verification/InsertExecute.v ===== *)
(** * INSERT: src/src/execute/Insert_Execute_Module.c

    From an [insert_request_t] to the statement, its values, row by row, the
    LOBs written afterwards and the audit; the frame of the call is
    [run_batch] of DmlDriver.v.  The theorems say that every value is bound to
    the placeholder of its own column, whatever the order of the fields in its
    row, and that the texts fit the arrays they are put together in. *)

From Stdlib Require Import Ascii String ZArith Lia Bool.
From stdpp Require Import base list strings numbers.
From S2P Require Import Prelude Text TransactionManager DbEvents DbTypeClass MssqlDialect DdlModules DdlExecute Requests ResponseWriter Level2Parser Dialect DmlDriver.

#[local] Open Scope Z_scope.

Definition MAX_INSERT_COLS : Z := 1024.
Definition MAX_INSERT_ROWS : Z := 5000.
Definition MAX_COL_VALUE_SIZE : Z := 32768.

(** ** The parsed request *)

(** [insert_ctx_t]: the values by row, in the order of [col_names].  A value
    is its whole text ([large_value] when [value] does not hold it); it is
    empty when the text is. *)
Record insert_ctx := mk_insert_ctx {
  ic_table : list ascii; ic_owner : list ascii; col_names : list (list ascii); ic_values : list (list (list ascii)) }.

(** What [value] holds of a text. *)
Definition value_part (v : list ascii) : list ascii := take (Z.to_nat (MAX_COL_VALUE_SIZE - 1)) v.

(** The field of that name, whatever its place in the row. *)
Definition field_named (row : insert_row) (name : list ascii) : option field_value :=
  List.find (fun fv => ci_eqb (fv_name fv) name) row.

Definition row_values (names : list (list ascii)) (row : insert_row) : option (list (list ascii)) :=
  if negb (Nat.eqb (length row) (length names)) then None
  else mapM (fun name => field_value_get <$> field_named row name) names.

Definition build_insert_ctx_from_request (al_values : bool) (req : insert_request) : option insert_ctx :=
  match ins_rows req with
  | [] => None
  | row0 :: _ =>
      if MAX_INSERT_ROWS <? Z.of_nat (length (ins_rows req)) then None
      else if Nat.eqb (length row0) 0 then None
      else if MAX_INSERT_COLS <? Z.of_nat (length row0) then None
      else
        let names := map (fun fv => take 127 (fv_name fv)) row0 in
        if negb al_values then None
        else values ← mapM (row_values names) (ins_rows req);
             Some (mk_insert_ctx (take 127 (ins_table req)) (take 127 (ins_owner req)) names values)
  end.

Section insert.
Context `{Dialect} `{DmlDriver}.

(** ** The statement *)

Definition COL_LIST_SIZE : nat := Z.to_nat (MAX_INSERT_COLS * 132).
Definition BIND_LIST_SIZE : nat := Z.to_nat (MAX_INSERT_COLS * 256).
Definition SQL_BUF : nat := Z.to_nat 65536.

(** The loop over the columns: the two lists so far and the placeholders
    used.  A LOB takes the literal of the dialect and no placeholder. *)
Fixpoint column_lists (cols : list col_metadata) (first : bool) (names : list (list ascii)) (col_list bind_list : list ascii) (bind_num : Z)
    : option (list ascii * list ascii * Z) :=
  match names with
  | [] => Some (col_list, bind_list, bind_num)
  | name :: names =>
      let col_list := if first then col_list else strncat COL_LIST_SIZE col_list (str ", ") in
      let bind_list := if first then bind_list else strncat BIND_LIST_SIZE bind_list (str ", ") in
      let col_list := strncat COL_LIST_SIZE col_list name in
      match lob_placeholder (dtype_of cols name) with
      | Some lob_literal => column_lists cols false names col_list (strncat BIND_LIST_SIZE bind_list lob_literal) bind_num
      | None =>
          bind_ph ← bind_placeholder (bind_num + 1) 32;
          expr ← value_expr (dtype_of cols name) bind_ph 256;
          column_lists cols false names col_list (strncat BIND_LIST_SIZE bind_list expr) (bind_num + 1)
      end
  end.

Definition insert_text (ic : insert_ctx) (col_list mid bind_list tail : list ascii) : list ascii :=
  str "INSERT INTO " ++ qualified_name (ic_owner ic) (ic_table ic) ++ str " (" ++ col_list ++ str ")" ++ spaced mid ++
  str " VALUES (" ++ bind_list ++ str ")" ++ spaced tail.

(** The statement and the number of its placeholders. *)
Definition build_insert_sql (ic : insert_ctx) (cols : list col_metadata) : option (list ascii * Z) :=
  '(col_list, bind_list, bind_num) ← column_lists cols true (col_names ic) [] [] 0;
  keys ← drv_table_key (ic_owner ic) (ic_table ic);
  '(mid, tail) ← row_locator_clauses DB_DML_INSERT (mk_locator (ic_table ic) (ic_owner ic) keys) (bind_num + 1) 512 512;
  sql ← assemble SQL_BUF (insert_text ic col_list mid bind_list tail);
  Some (sql, bind_num).

(** ** The values *)

(** What is bound for one column, and 1 when it is a text bound whole; no
    column that is written afterwards is bound. *)
Definition bind_one (cols : list col_metadata) (p : list ascii * list ascii) : option (list (option (list ascii)) * Z) :=
  let '(name, v) := p in
  if negb (is_scalar cols name) then Some ([], 0)
  else if Nat.eqb (length v) 0 then Some ([None], 0)
  else if db_type_text_bound (Some (dtype_of cols name)) then text ← lob_text_resolve v; Some ([Some text], 1)
  else Some ([Some (value_part v)], 0).

Definition sum_binds (l : list (list (option (list ascii)) * Z)) : list (option (list ascii)) * Z :=
  (concat (map fst l), foldr Z.add 0 (map snd l)).

Definition bind_row (cols : list col_metadata) (names : list (list ascii)) (row : list (list ascii))
    : option (list (option (list ascii)) * Z) :=
  sum_binds <$> mapM (bind_one cols) (zip names row).

Definition bind_rows (cols : list col_metadata) (ic : insert_ctx) : option (list (list (option (list ascii))) * Z) :=
  rows ← mapM (bind_row cols (col_names ic)) (ic_values ic);
  Some (map fst rows, foldr Z.add 0 (map snd rows)).

(** ** The LOBs *)

(** The turn for one column of the row at [rowid]: 1 when a LOB is written. *)
Definition write_column (cols : list col_metadata) (fq rowid : list ascii) (p : list ascii * list ascii) : stage Z :=
  let '(name, v) := p in
  if Nat.eqb (length v) 0 then ret 0
  else
    match db_type_lob_kind (Some (dtype_of cols name)) with
    | DB_LOB_NONE => ret 0
    | DB_LOB_BINARY => let! _ := write_lob (mk_lob_write fq name rowid (FilePath (value_part v))) in ret 1
    | DB_LOB_TEXT =>
        let! text := lift (lob_text_resolve v) in
        let! _ := write_lob (mk_lob_write fq name rowid (InlineText text)) in ret 1
    end.

(** The rows that were written are the first of the request, in order. *)
Definition write_row_lobs (cols : list col_metadata) (ic : insert_ctx) (p : list ascii * list (list ascii)) : stage Z :=
  let '(rowid, row) := p in sum_acts (write_column cols (tbl_fq (ic_owner ic) (ic_table ic)) rowid) (zip (col_names ic) row).

(** ** The call *)

Context (now_y now_m : Z) (out_of_range : Z -> Z) (max_bulk_inserts : Z)
        (level2_columns columns_of : list ascii -> list ascii -> option (list col_metadata)) (auditing : bool).

Definition insert_audit (ic : insert_ctx) (cols : list col_metadata) (name : option (list ascii)) (rowids : list (list ascii))
    : audit_trail_request :=
  mk_audit (ic_table ic) (match list.last rowids with Some ((_ :: _) as r) => take 99 r | _ => str "-" end) (str "INSERT")
    (str "OCI_Insert_Execute") (reason_or "Business INSERT via Data_Manager" name) (col_names ic) (map meta_type cols) (ic_values ic).

(** Stages 2 to 4, and the audit. *)
Definition insert_write (e : dml_env) (req : insert_request) (tx_name : option (list ascii)) : stage dml_response :=
  let! _ := require (de_al e 0%nat) in
  let! ic := lift (build_insert_ctx_from_request (de_al e 1%nat) req) in
  let max_batch := if max_bulk_inserts <? 1 then 1 else max_bulk_inserts in
  let! _ := require (negb (max_batch <? Z.of_nat (length (ic_values ic)))) in
  let! cols := lift (columns_of (ic_owner ic) (ic_table ic)) in
  let! (sql, bind_num) := lift (build_insert_sql ic cols) in
  let! _ := driver_complete in
  let! _ := require (de_al e 2%nat) in
  let! _ := require (de_al e 3%nat) in
  let! (binds, text_bound) := lift (bind_rows cols ic) in
  let! rowids := run_returning (mk_dml_request sql binds (bind_num + 1)) in
  let! written := sum_acts (write_row_lobs cols ic) (zip rowids (ic_values ic)) in
  let! _ := audit auditing (insert_audit ic cols tx_name rowids) in
  ret (mk_dml_response (ic_table ic) (ic_owner ic) (Z.of_nat (length rowids)) (text_bound + written)).

Definition insert_body (e : dml_env) (req : insert_request) (owns : bool) (tx_name : option (list ascii)) : stage dml_response :=
  let! resp := insert_write e req tx_name in conclude owns (de_now e) (ins_table req) resp.

(** The state, the answer and the request as validation left it. *)
Definition execute_insert_batch (json : bool) (e : dml_env) (req : insert_request) (s : dml_state)
    : option (dml_state * dml_answer * insert_request) :=
  let '(checked, st) := level2_validate_insert now_y now_m out_of_range max_bulk_inserts level2_columns (Some req) in
  let req := default req checked in
  '(s, answer) ← run_batch OP_INSERT false true json e (status_code st =? 0) (insert_body e req) s;
  Some (s, answer, req).
End insert.

(** ** The stages ask and answer *)

Section stages.
Context `{Dialect} `{DmlDriver}.

Lemma insert_write_quiet max_bulk columns_of auditing e req name : quiet (insert_write max_bulk columns_of auditing e req name).
Proof.
  assert (forall cols fq rowid p, quiet (write_column cols fq rowid p)) as Hcol.
  { intros cols fq rowid [n v]. unfold write_column. destruct (Nat.eqb _ _); [auto with ocidb|]. destruct (db_type_lob_kind _); quiet_steps. }
  assert (forall cols ic p, quiet (write_row_lobs cols ic p)) as Hrow.
  { intros cols ic [rowid row]. apply quiet_sum_acts. intros p. apply Hcol. }
  unfold insert_write. quiet_steps.
Qed.

Lemma insert_write_short max_bulk columns_of auditing e req name :
  gives (fun resp => length (dr_table resp) <= 127 /\ length (dr_owner resp) <= 127)%nat (insert_write max_bulk columns_of auditing e req name).
Proof.
  unfold insert_write. refine (gives_bind _ _ _ _ (gives_any _) _); intros _ _. refine (gives_bind _ _ _ _ (gives_lift _) _); intros ic Hic.
  assert (length (ic_table ic) <= 127 /\ length (ic_owner ic) <= 127)%nat as Hshort.
  { unfold build_insert_ctx_from_request in Hic. break_in Hic. apply bind_Some in Hic as (values & _ & [= <-]). cbn [ic_table ic_owner].
    split; apply take_short. }
  give_rest.
  by apply gives_ret.
Qed.

Lemma insert_write_counts max_bulk columns_of auditing e req name : counts (insert_write max_bulk columns_of auditing e req name).
Proof.
  assert (forall cols fq rowid p, keeps_rows (write_column cols fq rowid p)) as Hcol.
  { intros cols fq rowid [n v]. unfold write_column. destruct (Nat.eqb _ _); [done|]. destruct (db_type_lob_kind _); auto 10 with ocidb. }
  assert (forall cols ic p, keeps_rows (write_row_lobs cols ic p)) as Hrow.
  { intros cols ic [rowid row]. apply keeps_sum_acts. intros p. apply Hcol. }
  unfold insert_write. count_steps. apply counts_returning. intros ids. do 2 (apply counts_from_bind; [auto with ocidb|intros ?]).
  by apply counts_from_ret.
Qed.
End stages.

(** ** The statement *)

Section statement.
Context `{Dialect} `{DmlDriver}.

(** The loop is one fragment for each column, put together by [strncat]. *)
Lemma column_lists_fragments cols first names col_list bind_list n :
  column_lists cols first names col_list bind_list n =
    ('(exprs, pos) ← fragments cols (n + 1) names;
     Some (accumulate COL_LIST_SIZE (str ", ") first names col_list, accumulate BIND_LIST_SIZE (str ", ") first exprs bind_list, pos - 1)).
Proof.
  revert first col_list bind_list n. induction names as [|name names IH]; intros first cl bl n; cbn [column_lists fragments].
  - cbn. by replace (n + 1 - 1) with n by lia.
  - unfold fragment. destruct (lob_placeholder _) as [lit|]; cbn [mbind option_bind].
    + rewrite IH. destruct (fragments cols (n + 1) names) as [[l p]|]; [|done]. cbn. by destruct first.
    + destruct (bind_placeholder _ _) as [ph|]; [|done]. cbn [mbind option_bind]. destruct (value_expr _ _ _) as [x|]; [|done].
      cbn [mbind option_bind]. rewrite IH. destruct (fragments _ _ names) as [[l p]|]; [|done]. cbn. by destruct first.
Qed.

Context `{!DialectLaws}.

Lemma build_ctx_sizes al req ic : build_insert_ctx_from_request al req = Some ic ->
  Z.of_nat (length (col_names ic)) <= MAX_INSERT_COLS /\ Forall (fun n => (length n <= 127)%nat) (col_names ic).
Proof.
  unfold build_insert_ctx_from_request. intros Hic. break_in Hic. apply bind_Some in Hic as (values & _ & [= <-]). cbn [col_names].
  bools. rewrite length_map. split; [done|]. apply Forall_map, List.Forall_forall. intros fv _. apply take_short.
Qed.

(** The statement that is built names every column and has every fragment,
    whole. *)
Lemma insert_sql_whole al req ic cols sql n :
  build_insert_ctx_from_request al req = Some ic -> build_insert_sql ic cols = Some (sql, n) ->
  exists exprs mid tail, fragments cols 1 (col_names ic) = Some (exprs, n + 1) /\
    sql = insert_text ic (listed (str ", ") true (col_names ic)) mid (listed (str ", ") true exprs) tail /\
    Z.of_nat (length sql) < 65536.
Proof.
  intros [Hcount Hnames]%build_ctx_sizes Hb. unfold build_insert_sql in Hb. apply bind_Some in Hb as ([[cl bl] k] & Hl & Hb).
  apply bind_Some in Hb as (keys & _ & Hb). apply bind_Some in Hb as ([mid tail] & _ & Hb). apply bind_Some in Hb as (text & Ht & [= <- <-]).
  rewrite column_lists_fragments in Hl. apply bind_Some in Hl as ((exprs & pos) & Hf & [= <- <- <-]).
  change (0 + 1) with 1 in Hf. exists exprs, mid, tail. split; [rewrite Hf; do 2 f_equal; lia|]. pose proof (fragments_short _ _ _ _ _ Hf) as [Hlen Hshort].
  unfold MAX_INSERT_COLS in Hcount.
  assert (length (col_names ic) <= 1024)%nat as Hc by lia.
  rewrite (accumulate_within _ _ 127 1024), (accumulate_within _ _ FRAGMENT_MAX 1024) in Ht;
    try lazymatch goal with |- Nat.ltb _ _ = true => vm_compute; reflexivity | |- _ => assumption end.
  - apply assemble_some in Ht as [-> Hs]. split; [done|]. apply Nat2Z.inj_lt in Hs. exact Hs.
  - by rewrite Hlen.
Qed.
End statement.

(** ** The values of a row *)

Section values.
Context `{Dialect} `{DmlDriver}.

(** What is bound for a value of a column: NULL for no text, a text that is
    bound whole - or the file it names -, the part that fits otherwise. *)
Definition bound_value (cols : list col_metadata) (name v : list ascii) : option (option (list ascii)) :=
  if Nat.eqb (length v) 0 then Some None
  else if db_type_text_bound (Some (dtype_of cols name)) then Some <$> lob_text_resolve v
  else Some (Some (value_part v)).

Definition scalars (cols : list col_metadata) (names : list (list ascii)) : list (list ascii) := List.filter (is_scalar cols) names.

Lemma row_values_fields names row vals : row_values names row = Some vals ->
  Forall2 (fun name v => exists fv, field_named row name = Some fv /\ v = field_value_get fv) names vals.
Proof.
  unfold row_values. destruct (negb _); [done|]. intros Hm%mapM_Some. induction Hm as [|name v names vals Hv _ IH]; [done|].
  constructor; [|done]. apply fmap_Some in Hv. exact Hv.
Qed.

Lemma bind_one_value cols name v bs k : bind_one cols (name, v) = Some (bs, k) ->
  if is_scalar cols name then exists b, bs = [b] /\ bound_value cols name v = Some b else bs = [].
Proof.
  unfold bind_one, bound_value. destruct (is_scalar cols name); cbn [negb]; [|by intros [= <- _]].
  destruct (Nat.eqb _ _); [intros [= <- _]; by eexists|]. destruct (db_type_text_bound _).
  - intros Ht. apply bind_Some in Ht as (text & -> & [= <- _]). by eexists.
  - intros [= <- _]. by eexists.
Qed.

(** The binds of a row are those of its scalar columns, in their order. *)
Lemma bind_row_values cols names row vals bs k :
  Forall2 (fun name v => exists fv, field_named row name = Some fv /\ v = field_value_get fv) names vals ->
  bind_row cols names vals = Some (bs, k) ->
  Forall2 (fun name b => exists fv, field_named row name = Some fv /\ bound_value cols name (field_value_get fv) = Some b)
    (scalars cols names) bs.
Proof.
  intros Hf Hb. unfold bind_row in Hb. apply fmap_Some in Hb as (l & Hl%mapM_Some & [= -> _]). revert l Hl.
  induction Hf as [|name v names vals (fv & Hfv & ->) _ IH]; intros l Hl; cbn [zip zip_with] in Hl.
  - apply Forall2_nil_inv_l in Hl as ->. constructor.
  - apply Forall2_cons_inv_l in Hl as ([b0 k0] & l' & Hb & Hl & ->). apply IH in Hl. apply bind_one_value in Hb.
    cbn [scalars List.filter map concat fst]. destruct (is_scalar cols name); [|by subst b0].
    destruct Hb as (b & -> & Hb). constructor; [by exists fv|done].
Qed.
End values.

(** ** Every value to its column *)

Section binds.
Context `{Dialect} `{!DialectLaws} `{DmlDriver}.

(** C13: on a driver that reports its own type names, the statement of an
    INSERT has as many placeholders as every row has values bound to it, and
    the k-th value of a row is the one its field of the k-th bound column's
    name has - wherever the field stands in the row -: NULL for an empty text,
    the whole text (or that of the file it names) for a text bound whole, what
    fits the array otherwise; the columns written afterwards have neither
    placeholder nor value.  No row is lost, and they keep their order. *)
Theorem insert_binds_by_name (al : bool) (req : insert_request) (ic : insert_ctx) (cols : list col_metadata) (sql : list ascii) (n k : Z)
    (binds : list (list (option (list ascii)))) :
  Forall (fun c => reported (meta_type c)) cols ->
  build_insert_ctx_from_request al req = Some ic -> build_insert_sql ic cols = Some (sql, n) -> bind_rows cols ic = Some (binds, k) ->
  Forall2 (fun row bound => Z.of_nat (length bound) = n /\
      Forall2 (fun name b => exists fv, field_named row name = Some fv /\ bound_value cols name (field_value_get fv) = Some b)
        (scalars cols (col_names ic)) bound) (ins_rows req) binds.
Proof.
  intros Hcols Hic Hsql Hb. destruct (insert_sql_whole al req ic cols sql n Hic Hsql) as (exprs & _ & _ & Hf & _ & _).
  apply (fragments_count cols) in Hf; [|done]. fold (scalars cols (col_names ic)) in Hf.
  unfold build_insert_ctx_from_request in Hic. destruct (ins_rows req) as [|row0 rest]; [done|]. break_in Hic.
  apply bind_Some in Hic as (values & Hv%mapM_Some & [= <-]). cbn [col_names] in *. unfold bind_rows in Hb.
  apply bind_Some in Hb as (rows & Hr%mapM_Some & [= <- _]). cbn [ic_values col_names] in Hr.
  remember (map (fun fv => take 127 (fv_name fv)) row0) as names eqn:En. clear En. remember (row0 :: rest) as all eqn:Ea. clear Ea.
  clear Hsql Heqb Heqb0 Heqb1 Heqb2. revert rows Hr. induction Hv as [|row vals rows0 values0 Hrow _ IH]; intros rows Hr.
  - apply Forall2_nil_inv_l in Hr as ->. constructor.
  - apply Forall2_cons_inv_l in Hr as ([b0 k0] & rows' & Hb & Hr & ->). cbn [map fst]. constructor; [|by apply IH].
    apply row_values_fields in Hrow. pose proof (bind_row_values cols names row vals b0 k0 Hrow Hb) as H2. split; [|done].
    apply Forall2_length in H2. lia.
Qed.
End binds.

(** ** An example on Oracle *)

#[local] Existing Instance oracle_dialect.
#[local] Existing Instance demo_dml.

Definition demo_columns : list col_metadata :=
  let col name t := mk_col (str name) (str t) 0 0 0 (str "Y") [] in
  [col "ID" "NUMBER"; col "BORN" "DATE"; col "NOTE" "CLOB"; col "NAME" "VARCHAR2"]%string.

Definition demo_field (name value : string) : field_value := mk_fv (str name) (str value) None [].

(** The second row has its fields in another order. *)
Definition demo_insert : insert_request :=
  mk_insert (str "T") (str "APP")
    [[demo_field "ID" "1"; demo_field "NOTE" "file:///note"; demo_field "NAME" ""];
     [demo_field "name" "x"; demo_field "id" "2"; demo_field "note" ""]]%string.

Definition demo_insert_ctx : insert_ctx :=
  mk_insert_ctx (str "T") (str "APP") [str "ID"; str "NOTE"; str "NAME"]
    [[str "1"; str "file:///note"; []]; [str "2"; []; str "x"]].

Definition demo_insert_sql : list ascii :=
  str "INSERT INTO APP.T (ID, NOTE, NAME) VALUES (:1, EMPTY_CLOB(), :2) RETURNING ROWID INTO :3".

Lemma insert_binds_by_name_witness :
  build_insert_sql demo_insert_ctx demo_columns = Some (demo_insert_sql, 2) /\
  bind_rows demo_columns demo_insert_ctx = Some ([[Some (str "1"); None]; [Some (str "2"); Some (str "x")]], 0) /\
  Forall2 (fun (row : insert_row) (bound : list (option (list ascii))) => Z.of_nat (length bound) = 2) (ins_rows demo_insert)
    [[Some (str "1"); None]; [Some (str "2"); Some (str "x")]].
Proof.
  assert (build_insert_sql demo_insert_ctx demo_columns = Some (demo_insert_sql, 2)) as Hs
    by (vm_compute; reflexivity).
  assert (bind_rows demo_columns demo_insert_ctx = Some ([[Some (str "1"); None]; [Some (str "2"); Some (str "x")]], 0)) as Hb
    by (vm_compute; reflexivity).
  split; [exact Hs|]. split; [exact Hb|].
  assert (Forall (fun c => reported (meta_type c)) demo_columns) as Hcols by repeat constructor.
  pose proof (insert_binds_by_name true demo_insert demo_insert_ctx demo_columns demo_insert_sql 2 0 _ Hcols eq_refl Hs Hb) as H.
  eapply Forall2_impl; [|exact H]. by intros row bound [H1 _].
Defined.
