(* ===== verification/UpdateExecute.v ===== *)
(** * UPDATE and DELETE: src/src/execute/Update_Execute_Module.c and
    Delete_Execute_Module.c

    The rows are found by their key columns; an UPDATE reads the values they
    had before, and both write them to the audit - DELETE before the statement
    runs, UPDATE after it.  The frame of the calls is [run_batch] of
    DmlDriver.v. *)

From Stdlib Require Import Ascii String ZArith Lia Bool.
From stdpp Require Import base list strings numbers.
From S2P Require Import Prelude Text TransactionManager DbEvents DbTypeClass MssqlDialect DdlModules DdlExecute Requests ResponseWriter Level2Parser Dialect DmlDriver.

#[local] Open Scope Z_scope.

Definition MAX_UPD_COLS : Z := 1024.
Definition MAX_UPD_KEY_COLS : Z := 32.
Definition MAX_DEL_KEY_COLS : Z := 32.
Definition KEY_VALUE_SIZE : Z := 32768.

Definition SET_LIST_SIZE : nat := Z.to_nat (MAX_UPD_COLS * 256).
Definition WHERE_LIST_SIZE : nat := Z.to_nat (MAX_UPD_KEY_COLS * 256).
Definition UPD_SQL_BUF : nat := Z.to_nat 65536.
Definition DEL_SQL_BUF : nat := Z.to_nat 8192.

(** ** The parsed requests *)

(** [upd_key_field_t]: the type is looked up where it is used. *)
Abbreviation key_field := (list ascii * list ascii)%type.

Definition key_part (k : where_key) : key_field := (take 127 (wk_name k), take (Z.to_nat (KEY_VALUE_SIZE - 1)) (key_value k)).

Record update_ctx := mk_update_ctx {
  uc_table : list ascii; uc_owner : list ascii; uc_names : list (list ascii); uc_values : list (list ascii); uc_keys : list key_field }.

Definition build_update_ctx_from_request (al_values : bool) (req : update_request) : option update_ctx :=
  if Nat.eqb (length (upd_keys req)) 0 || (MAX_UPD_KEY_COLS <? Z.of_nat (length (upd_keys req))) then None
  else if Nat.eqb (length (upd_fields req)) 0 || (MAX_UPD_COLS <? Z.of_nat (length (upd_fields req))) then None
  else if negb al_values then None
  else Some (mk_update_ctx (take 127 (upd_table req)) (take 127 (upd_owner req)) (map (fun fv => take 127 (fv_name fv)) (upd_fields req))
               (map field_value_get (upd_fields req)) (map key_part (upd_keys req))).

Record delete_ctx := mk_delete_ctx { dc_table : list ascii; dc_owner : list ascii; dc_keys : list key_field }.

(** The type of a key, VARCHAR2 when the metadata has none. *)
Definition key_type (cols : list col_metadata) (name : list ascii) : list ascii :=
  match find_column cols name with Some c => take 127 (meta_type c) | None => str "VARCHAR2" end.

Definition build_delete_ctx_from_request (req : delete_request) : option delete_ctx :=
  if Nat.eqb (length (del_keys req)) 0 || (MAX_DEL_KEY_COLS <? Z.of_nat (length (del_keys req))) then None
  else Some (mk_delete_ctx (take 127 (del_table req)) (take 127 (del_owner req)) (map key_part (del_keys req))).

Section update.
Context `{Dialect} `{DmlDriver}.

(** ** The statements *)

(** [snprintf(assignment, 512, "%s=%s", ...)] *)
Definition assignment (name expr : list ascii) : list ascii := take 511 (name ++ str "=" ++ expr).

Fixpoint set_clause (cols : list col_metadata) (first : bool) (names : list (list ascii)) (set_list : list ascii) (bind_pos : Z)
    : option (list ascii * Z) :=
  match names with
  | [] => Some (set_list, bind_pos)
  | name :: names =>
      let set_list := if first then set_list else strncat SET_LIST_SIZE set_list (str ", ") in
      match lob_placeholder (dtype_of cols name) with
      | Some lob_literal => set_clause cols false names (strncat SET_LIST_SIZE set_list (assignment name lob_literal)) bind_pos
      | None =>
          bind_ph ← bind_placeholder bind_pos 32;
          expr ← value_expr (dtype_of cols name) bind_ph 256;
          set_clause cols false names (strncat SET_LIST_SIZE set_list (assignment name expr)) (bind_pos + 1)
      end
  end.

(** [typ]: the type a key column has. *)
Fixpoint where_clause (typ : list ascii -> list ascii) (first : bool) (keys : list key_field) (where_list : list ascii) (bind_pos : Z)
    : option (list ascii * Z) :=
  match keys with
  | [] => Some (where_list, bind_pos)
  | (name, _) :: keys =>
      let where_list := if first then where_list else strncat WHERE_LIST_SIZE where_list (str " AND ") in
      bind_ph ← bind_placeholder bind_pos 32;
      expr ← value_expr (typ name) bind_ph 256;
      where_clause typ false keys (strncat WHERE_LIST_SIZE where_list (assignment name expr)) (bind_pos + 1)
  end.

(** The statement and the position after its placeholders. *)
Definition build_update_sql (uc : update_ctx) (cols : list col_metadata) : option (list ascii * Z) :=
  '(set_list, pos) ← set_clause cols true (uc_names uc) [] 1;
  '(where_list, pos) ← where_clause (dtype_of cols) true (uc_keys uc) [] pos;
  keys ← drv_table_key (uc_owner uc) (uc_table uc);
  '(mid, tail) ← row_locator_clauses DB_DML_UPDATE (mk_locator (uc_table uc) (uc_owner uc) keys) pos 512 512;
  sql ← assemble UPD_SQL_BUF (str "UPDATE " ++ qualified_name (uc_owner uc) (uc_table uc) ++ str " SET " ++ set_list ++ spaced mid ++
                              str " WHERE " ++ where_list ++ spaced tail);
  Some (sql, pos).

Definition build_delete_sql (dc : delete_ctx) (cols : list col_metadata) : option (list ascii) :=
  '(where_list, _) ← where_clause (key_type cols) true (dc_keys dc) [] 1;
  assemble DEL_SQL_BUF (str "DELETE FROM " ++ qualified_name (dc_owner dc) (dc_table dc) ++ str " WHERE " ++ where_list).

(** ** The values of an UPDATE *)

(** As for INSERT, but a long value is bound whole. *)
Definition bind_set (cols : list col_metadata) (p : list ascii * list ascii) : option (list (option (list ascii)) * Z) :=
  let '(name, v) := p in
  if negb (is_scalar cols name) then Some ([], 0)
  else if Nat.eqb (length v) 0 then Some ([None], 0)
  else if db_type_text_bound (Some (dtype_of cols name)) then text ← lob_text_resolve v; Some ([Some text], 1)
  else Some ([Some v], 0).

Definition bind_values_of (cols : list col_metadata) (uc : update_ctx) : option (list (option (list ascii)) * Z) :=
  sets ← mapM (bind_set cols) (zip (uc_names uc) (uc_values uc));
  Some (concat (map fst sets) ++ map (fun k => Some (snd k)) (uc_keys uc), foldr Z.add 0 (map snd sets)).

(** A LOB goes to every row that was updated; its text is read once. *)
Definition write_rows (fq : list ascii) (rowids : list (list ascii)) (name : list ascii) (c : lob_content) : stage Z :=
  sum_acts (fun rowid => let! _ := write_lob (mk_lob_write fq name rowid c) in ret 1) rowids.

Definition write_set_lob (cols : list col_metadata) (fq : list ascii) (rowids : list (list ascii)) (p : list ascii * list ascii) : stage Z :=
  let '(name, v) := p in
  if Nat.eqb (length v) 0 then ret 0
  else
    match db_type_lob_kind (Some (dtype_of cols name)) with
    | DB_LOB_NONE => ret 0
    | DB_LOB_BINARY => write_rows fq rowids name (FilePath (take (Z.to_nat (KEY_VALUE_SIZE - 1)) v))
    | DB_LOB_TEXT => let! text := lift (lob_text_resolve v) in write_rows fq rowids name (InlineText text)
    end.

(** ** The before-image *)

(** Nothing while an audit is being written, and nothing when the arrays for
    the keys are not allocated; the answer is the number of rows read. *)
Definition read_before (auditing al_keys : bool) (r : before_image) : stage (option Z) :=
  fun s => if auditing || negb al_keys then (s, Some None)
           else let rows := fetch_before_image (st_log s) r in (log_event (EvBeforeImage r rows) s, Some rows).

Definition first_key (keys : list key_field) : list ascii := match keys with (_, v) :: _ => take 255 v | [] => str "-" end.

(** ** The calls *)

Context (now_y now_m : Z) (out_of_range : Z -> Z)
        (level2_columns columns_of : list ascii -> list ascii -> option (list col_metadata)) (auditing : bool).

Definition update_audit (uc : update_ctx) (cols : list col_metadata) (name : option (list ascii)) : audit_trail_request :=
  mk_audit (uc_table uc) (first_key (uc_keys uc)) (str "UPDATE") (str "OCI_Update_Execute")
    (reason_or "Business UPDATE via Data_Manager" name) (uc_names uc) (map meta_type cols) [uc_values uc].

Definition update_write (e : dml_env) (req : update_request) (tx_name : option (list ascii)) : stage dml_response :=
  let! _ := require (de_al e 0%nat) in
  let! uc := lift (build_update_ctx_from_request (de_al e 1%nat) req) in
  let! cols := lift (columns_of (uc_owner uc) (uc_table uc)) in
  let! (sql, pos) := lift (build_update_sql uc cols) in
  let! _ := driver_complete in
  let! _ := require (de_al e 2%nat && de_al e 3%nat) in
  let! (binds, text_bound) := lift (bind_values_of cols uc) in
  let! old := read_before auditing (de_al e 5%nat)
                (mk_before_image (uc_table uc) (uc_owner uc) (uc_names uc) (map (fun k => (fst k, snd k, key_type cols (fst k))) (uc_keys uc))) in
  let! rowids := run_returning (mk_dml_request sql [binds] pos) in
  let! written := sum_acts (write_set_lob cols (tbl_fq (uc_owner uc) (uc_table uc)) rowids) (zip (uc_names uc) (uc_values uc)) in
  let! _ := audit (auditing || negb (bool_decide (is_Some old))) (update_audit uc cols tx_name) in
  ret (mk_dml_response (uc_table uc) (uc_owner uc) (Z.of_nat (length rowids)) (text_bound * Z.of_nat (length rowids) + written)).

Definition update_body (e : dml_env) (req : update_request) (owns : bool) (tx_name : option (list ascii)) : stage dml_response :=
  let! resp := update_write e req tx_name in conclude owns (de_now e) (upd_table req) resp.

Definition execute_update_batch (json : bool) (e : dml_env) (req : update_request) (s : dml_state)
    : option (dml_state * dml_answer * update_request) :=
  let '(checked, st) := level2_validate_update now_y now_m out_of_range level2_columns (Some req) in
  let req := default req checked in
  '(s, answer) ← run_batch OP_UPDATE false false json e (status_code st =? 0) (update_body e req) s;
  Some (s, answer, req).

(** The values in the audit are those of the before-image. *)
Definition delete_audit (dc : delete_ctx) (cols : list col_metadata) (name : option (list ascii)) : audit_trail_request :=
  mk_audit (dc_table dc) (first_key (dc_keys dc)) [] (str "OCI_Delete_Execute")
    (reason_or "Business DELETE via Data_Manager" name) (map fst (dc_keys dc)) (map meta_type cols) [].

Definition delete_write (e : dml_env) (req : delete_request) (tx_name : option (list ascii)) : stage dml_response :=
  let! _ := require (de_al e 0%nat) in
  let! cols := lift (columns_of (take 127 (del_owner req)) (take 127 (del_table req))) in
  let! dc := lift (build_delete_ctx_from_request req) in
  let! sql := lift (build_delete_sql dc cols) in
  let! _ := driver_complete in
  let! old := read_before auditing (de_al e 5%nat)
                (mk_before_image (dc_table dc) (dc_owner dc) (map fst (dc_keys dc)) (map (fun k => (fst k, snd k, key_type cols (fst k))) (dc_keys dc))) in
  let! _ := audit (auditing || negb (bool_decide (is_Some old))) (delete_audit dc cols tx_name) in
  let! rows := run_rows (mk_dml_request sql [map (fun k => Some (snd k)) (dc_keys dc)] 0) in
  ret (mk_dml_response (dc_table dc) (dc_owner dc) rows 0).

Definition delete_body (e : dml_env) (req : delete_request) (owns : bool) (tx_name : option (list ascii)) : stage dml_response :=
  let! resp := delete_write e req tx_name in conclude owns (de_now e) (del_table req) resp.

Definition execute_delete_batch (json : bool) (e : dml_env) (req : delete_request) (s : dml_state)
    : option (dml_state * dml_answer * delete_request) :=
  let '(checked, st) := level2_validate_delete now_y now_m level2_columns (Some req) in
  let req := default req checked in
  '(s, answer) ← run_batch OP_DELETE true false json e (status_code st =? 0) (delete_body e req) s;
  Some (s, answer, req).
End update.

(** ** The stages ask and answer *)

Section stages.
Context `{Dialect} `{DmlDriver}.

Lemma quiet_read_before auditing al r : quiet (read_before auditing al r).
Proof.
  intros s. unfold read_before. destruct (_ || _); [apply quiet_nothing|]. exists [EvBeforeImage r (fetch_before_image (st_log s) r)].
  split; [by constructor|done].
Qed.

Lemma write_set_lob_quiet cols fq rowids p : quiet (write_set_lob cols fq rowids p).
Proof.
  assert (forall name c, quiet (write_rows fq rowids name c)) as Hrows.
  { intros name c. apply quiet_sum_acts. intros rowid. quiet_steps. }
  destruct p as [n v]. unfold write_set_lob. destruct (Nat.eqb _ _); [auto with ocidb|]. destruct (db_type_lob_kind _); quiet_steps.
Qed.

#[local] Hint Resolve quiet_read_before write_set_lob_quiet : ocidb.

Lemma update_write_quiet columns_of auditing e req name : quiet (update_write columns_of auditing e req name).
Proof. unfold update_write. quiet_steps. Qed.

Lemma delete_write_quiet columns_of auditing e req name : quiet (delete_write columns_of auditing e req name).
Proof. unfold delete_write. quiet_steps. Qed.

Lemma update_write_short columns_of auditing e req name :
  gives (fun resp => length (dr_table resp) <= 127 /\ length (dr_owner resp) <= 127)%nat (update_write columns_of auditing e req name).
Proof.
  unfold update_write. refine (gives_bind _ _ _ _ (gives_any _) _); intros _ _. refine (gives_bind _ _ _ _ (gives_lift _) _); intros uc Huc.
  assert (length (uc_table uc) <= 127 /\ length (uc_owner uc) <= 127)%nat as Hshort.
  { unfold build_update_ctx_from_request in Huc. break_in Huc. injection Huc as <-. split; apply take_short. }
  give_rest. by apply gives_ret.
Qed.

Lemma delete_write_short columns_of auditing e req name :
  gives (fun resp => length (dr_table resp) <= 127 /\ length (dr_owner resp) <= 127)%nat (delete_write columns_of auditing e req name).
Proof.
  unfold delete_write. do 2 (refine (gives_bind _ _ _ _ (gives_any _) _); intros ? _). refine (gives_bind _ _ _ _ (gives_lift _) _); intros dc Hdc.
  assert (length (dc_table dc) <= 127 /\ length (dc_owner dc) <= 127)%nat as Hshort.
  { unfold build_delete_ctx_from_request in Hdc. break_in Hdc. injection Hdc as <-. split; apply take_short. }
  give_rest. by apply gives_ret.
Qed.

Lemma write_set_lob_keeps cols fq rowids p : keeps_rows (write_set_lob cols fq rowids p).
Proof.
  assert (forall name c, keeps_rows (write_rows fq rowids name c)) as Hrows.
  { intros name c. apply keeps_sum_acts. intros rowid. auto with ocidb. }
  destruct p as [n v]. unfold write_set_lob. destruct (Nat.eqb _ _); [done|]. destruct (db_type_lob_kind _); auto with ocidb.
Qed.

#[local] Hint Resolve write_set_lob_keeps : ocidb.

Lemma update_write_counts columns_of auditing e req name : counts (update_write columns_of auditing e req name).
Proof.
  unfold update_write. count_steps. apply counts_returning. intros ids. do 2 (apply counts_from_bind; [auto with ocidb|intros ?]).
  by apply counts_from_ret.
Qed.

Lemma delete_write_counts columns_of auditing e req name : counts (delete_write columns_of auditing e req name).
Proof. unfold delete_write. count_steps. apply counts_rows. intros n. by apply counts_from_ret. Qed.
End stages.

(** ** The statements *)

Section statement.
Context `{Dialect}.

(** The expressions of the keys; a key always has a placeholder. *)
Fixpoint key_fragments (typ : list ascii -> list ascii) (pos : Z) (keys : list key_field) : option (list (list ascii) * Z) :=
  match keys with
  | [] => Some ([], pos)
  | (name, _) :: keys =>
      bind_ph ← bind_placeholder pos 32; expr ← value_expr (typ name) bind_ph 256;
      '(l, pos) ← key_fragments typ (pos + 1) keys; Some (expr :: l, pos)
  end.

(** An assignment, or a comparison, that is not cut. *)
Definition equals (name expr : list ascii) : list ascii := name ++ str "=" ++ expr.

Lemma set_clause_fragments cols first names acc pos :
  set_clause cols first names acc pos =
    ('(exprs, pos) ← fragments cols pos names; Some (accumulate SET_LIST_SIZE (str ", ") first (zip_with assignment names exprs) acc, pos)).
Proof.
  revert first acc pos. induction names as [|name names IH]; intros first acc pos; cbn [set_clause fragments]; [done|].
  unfold fragment. destruct (lob_placeholder _) as [lit|]; cbn [mbind option_bind].
  - rewrite IH. destruct (fragments cols pos names) as [[l p]|]; [|done]. cbn. by destruct first.
  - destruct (bind_placeholder _ _) as [ph|]; [|done]. cbn [mbind option_bind]. destruct (value_expr _ _ _) as [x|]; [|done].
    cbn [mbind option_bind]. rewrite IH. destruct (fragments _ _ names) as [[l p]|]; [|done]. cbn. by destruct first.
Qed.

Lemma where_clause_fragments typ first keys acc pos :
  where_clause typ first keys acc pos =
    ('(exprs, pos) ← key_fragments typ pos keys;
     Some (accumulate WHERE_LIST_SIZE (str " AND ") first (zip_with assignment (map fst keys) exprs) acc, pos)).
Proof.
  revert first acc pos. induction keys as [|[name v] keys IH]; intros first acc pos; cbn [where_clause key_fragments]; [done|].
  destruct (bind_placeholder _ _) as [ph|]; [|done]. cbn [mbind option_bind]. destruct (value_expr _ _ _) as [x|]; [|done].
  cbn [mbind option_bind]. rewrite IH. destruct (key_fragments _ _ keys) as [[l p]|]; [|done]. cbn. by destruct first.
Qed.

Context `{!DialectLaws}.

Lemma key_fragments_short typ pos keys l pos' : key_fragments typ pos keys = Some (l, pos') ->
  length l = length keys /\ pos' = pos + Z.of_nat (length keys) /\ Forall (fun x => (length x <= FRAGMENT_MAX)%nat) l.
Proof.
  revert pos l. induction keys as [|[name v] keys IH]; intros pos l; cbn [key_fragments]; [intros [= <- <-]; simpl; split_and!; [done|lia|done]|].
  intros Hk. apply bind_Some in Hk as (ph & Hp & Hk). apply bind_Some in Hk as (x & Hx & Hk). apply bind_Some in Hk as ((l1 & p1) & Hl & [= <- <-]).
  apply IH in Hl as (Hlen & -> & Hl). apply bind_placeholder_short in Hp. split; [by cbn; f_equal|]. split; [cbn [length]; lia|].
  constructor; [eapply value_expr_short; [exact Hx|lia]|done].
Qed.

(** An assignment fits its own array and its share of the list. *)
Definition ASSIGNMENT_MAX : nat := 127 + 1 + FRAGMENT_MAX.

Lemma assignments_whole names exprs :
  Forall (fun n => (length n <= 127)%nat) names -> Forall (fun x => (length x <= FRAGMENT_MAX)%nat) exprs ->
  zip_with assignment names exprs = zip_with equals names exprs /\
  Forall (fun x => (length x <= ASSIGNMENT_MAX)%nat) (zip_with assignment names exprs).
Proof.
  intros Hn. revert exprs. induction Hn as [|name names Hname _ IH]; intros [|x exprs] Hx; [done..|]. apply Forall_cons_iff in Hx as [Hx Hxs].
  destruct (IH exprs Hxs) as [IH1 IH2]. cbn [zip_with].
  assert (length (equals name x) <= ASSIGNMENT_MAX)%nat as Hlen by (unfold equals, ASSIGNMENT_MAX; rewrite !length_app; simpl; lia).
  assert (assignment name x = equals name x) as ->.
  { unfold assignment. apply take_ge. unfold FRAGMENT_MAX in Hx. unfold equals. rewrite !length_app. simpl. lia. }
  split; [by f_equal|by constructor].
Qed.

Lemma key_part_names keys : Forall (fun n => (length n <= 127)%nat) (map fst (map key_part keys)).
Proof. rewrite map_map. apply Forall_map, List.Forall_forall. intros k _. apply take_short. Qed.

(** The WHERE list of at most 32 keys is whole. *)
Lemma where_whole typ keys pos : (length keys <= 32)%nat ->
  where_clause typ true (map key_part keys) [] pos =
    ('(exprs, pos) ← key_fragments typ pos (map key_part keys);
     Some (listed (str " AND ") true (zip_with equals (map fst (map key_part keys)) exprs), pos)).
Proof.
  intros Hk. rewrite where_clause_fragments. destruct (key_fragments _ _ _) as [[exprs p]|] eqn:E; [|done]. cbn [mbind option_bind].
  apply key_fragments_short in E as (Hlen & _ & Hx). destruct (assignments_whole _ exprs (key_part_names keys) Hx) as [Heq Hfit].
  rewrite (accumulate_within _ _ ASSIGNMENT_MAX 32); [by rewrite Heq|exact Hfit| |vm_compute; reflexivity].
  rewrite length_zip_with, !length_map. lia.
Qed.
End statement.

(** ** Whole, or refused *)

Section sizes.
Context `{Dialect} `{!DialectLaws} `{DmlDriver}.

Lemma qualified_name_length owner table : (length owner <= 127)%nat -> (length table <= 127)%nat -> (length (qualified_name owner table) <= 255)%nat.
Proof. intros Ho Ht. unfold qualified_name. destruct (Nat.eqb _ _); rewrite ?length_app; simpl; lia. Qed.

Definition update_text (uc : update_ctx) (sets mid wheres tail : list ascii) : list ascii :=
  str "UPDATE " ++ qualified_name (uc_owner uc) (uc_table uc) ++ str " SET " ++ sets ++ spaced mid ++ str " WHERE " ++ wheres ++ spaced tail.

(** An UPDATE that is built assigns every column and compares every key. *)
Lemma update_sql_whole al req uc cols sql pos :
  build_update_ctx_from_request al req = Some uc -> build_update_sql uc cols = Some (sql, pos) ->
  exists sets set_pos keys mid tail,
    fragments cols 1 (uc_names uc) = Some (sets, set_pos) /\ key_fragments (dtype_of cols) set_pos (uc_keys uc) = Some (keys, pos) /\
    sql = update_text uc (listed (str ", ") true (zip_with equals (uc_names uc) sets)) mid
            (listed (str " AND ") true (zip_with equals (map fst (uc_keys uc)) keys)) tail /\
    Z.of_nat (length sql) < 65536.
Proof.
  intros Huc Hb. unfold build_update_ctx_from_request in Huc. break_in Huc. injection Huc as <-. bools.
  unfold build_update_sql in Hb. cbn [uc_names uc_keys uc_owner uc_table] in *. set (names := map _ (upd_fields req)) in *.
  assert (length names <= 1024)%nat as Hcount by (unfold names; rewrite length_map; unfold MAX_UPD_COLS in *; lia).
  assert (Forall (fun n => (length n <= 127)%nat) names) as Hnames by (apply Forall_map, List.Forall_forall; intros fv _; apply take_short).
  clearbody names.
  apply bind_Some in Hb as ([sl p1] & Hset & Hb). apply bind_Some in Hb as ([wl p2] & Hwhere & Hb).
  apply bind_Some in Hb as (tk & _ & Hb). apply bind_Some in Hb as ([mid tail] & _ & Hb). apply bind_Some in Hb as (text & Ht & [= <- <-]).
  rewrite where_whole in Hwhere by (unfold MAX_UPD_KEY_COLS in *; lia). apply bind_Some in Hwhere as ((keys & p3) & Hk & [= <- <-]).
  rewrite set_clause_fragments in Hset. apply bind_Some in Hset as ((sets & p4) & Hf & [= <- <-]).
  pose proof (fragments_short _ _ _ _ _ Hf) as [Hlen Hshort]. destruct (assignments_whole names sets Hnames Hshort) as [Heq Hfit].
  rewrite (accumulate_within _ _ ASSIGNMENT_MAX 1024), Heq in Ht.
  - apply assemble_some in Ht as [-> Hs]. exists sets, p4, keys, mid, tail. split; [done|]. split; [done|]. split; [done|].
    apply Nat2Z.inj_lt in Hs. exact Hs.
  - exact Hfit.
  - rewrite length_zip_with. lia.
  - vm_compute. reflexivity.
Qed.

(** A DELETE always fits its 8192 bytes. *)
Lemma delete_sql_whole req dc cols :
  build_delete_ctx_from_request req = Some dc ->
  build_delete_sql dc cols =
    ('(keys, _) ← key_fragments (key_type cols) 1 (dc_keys dc);
     Some (str "DELETE FROM " ++ qualified_name (dc_owner dc) (dc_table dc) ++ str " WHERE " ++
           listed (str " AND ") true (zip_with equals (map fst (dc_keys dc)) keys))).
Proof.
  intros Hdc. unfold build_delete_ctx_from_request in Hdc. break_in Hdc. injection Hdc as <-. bools. unfold build_delete_sql.
  cbn [dc_keys dc_owner dc_table]. assert (length (del_keys req) <= 32)%nat as Hk by (unfold MAX_DEL_KEY_COLS in *; lia).
  rewrite where_whole by done. destruct (key_fragments _ _ _) as [[keys p]|] eqn:E; [|done]. cbn [mbind option_bind].
  apply key_fragments_short in E as (Hlen & _ & Hx). destruct (assignments_whole _ keys (key_part_names (del_keys req)) Hx) as [Heq Hfit].
  rewrite Heq in Hfit. apply (listed_length (str " AND ") _ true) in Hfit. rewrite length_zip_with, !length_map in Hfit.
  pose proof (qualified_name_length (take 127 (del_owner req)) (take 127 (del_table req)) (take_short _ _) (take_short _ _)) as Hq.
  unfold assemble. match goal with |- (if ?b then _ else _) = _ => destruct b eqn:Eb; [done|] end. exfalso. apply Nat.ltb_ge in Eb.
  unfold DEL_SQL_BUF, ASSIGNMENT_MAX, FRAGMENT_MAX in *. rewrite !length_app in Eb. simpl in Eb, Hfit. lia.
Qed.
End sizes.
