(* ===== verification/Writes.v ===== *)
(** * Writes: INSERT, UPDATE and DELETE as one operation

    The three entry points of src/src/execute behind one type of request, and
    what holds of all: how a call treats the transaction, when it answers, what
    its statement holds, and what a run of calls does. *)

From Stdlib Require Import Ascii String ZArith Lia Bool.
From stdpp Require Import base list strings numbers.
From S2P Require Import Prelude Text TransactionManager DbEvents DdlModules DdlExecute.
From S2P Require Import Requests ResponseWriter Level2Parser Dialect DmlDriver InsertExecute UpdateExecute.

#[local] Open Scope Z_scope.

Inductive write_request := WInsert (r : insert_request) | WUpdate (r : update_request) | WDelete (r : delete_request).

Section writes.
Context `{Dialect} `{DmlDriver}.
Context (now_y now_m : Z) (out_of_range : Z -> Z) (max_bulk_inserts : Z)
        (level2_columns columns_of : list ascii -> list ascii -> option (list col_metadata)) (auditing : bool).

(** What the dispatcher does with a payload of the three types. *)
Definition execute_write (json : bool) (e : dml_env) (w : write_request) (s : dml_state) : option (dml_state * dml_answer) :=
  match w with
  | WInsert r => fst <$> execute_insert_batch now_y now_m out_of_range max_bulk_inserts level2_columns columns_of auditing json e r s
  | WUpdate r => fst <$> execute_update_batch now_y now_m out_of_range level2_columns columns_of auditing json e r s
  | WDelete r => fst <$> execute_delete_batch now_y now_m level2_columns columns_of auditing json e r s
  end.

(** Calls on one context, until one does not return. *)
Fixpoint run_writes (json : bool) (calls : list (dml_env * write_request)) (s : dml_state) : option (dml_state * list dml_answer) :=
  match calls with
  | [] => Some (s, [])
  | (e, w) :: calls => '(s, ans) ← execute_write json e w s; '(s, answers) ← run_writes json calls s; Some (s, ans :: answers)
  end.

(** ** What the three have in common *)

(** Level 2's verdict, and the request as it leaves it. *)
Definition accepted (w : write_request) : bool :=
  let ok {A} (r : option A * operation_status) := status_code (snd r) =? 0 in
  match w with
  | WInsert r => ok (level2_validate_insert now_y now_m out_of_range max_bulk_inserts level2_columns (Some r))
  | WUpdate r => ok (level2_validate_update now_y now_m out_of_range level2_columns (Some r))
  | WDelete r => ok (level2_validate_delete now_y now_m level2_columns (Some r))
  end.

Definition op_of (w : write_request) : operation_type :=
  match w with WInsert _ => OP_INSERT | WUpdate _ => OP_UPDATE | WDelete _ => OP_DELETE end.

(** The module ends the identity of a refused call. *)
Definition ends_on_refusal (w : write_request) : bool := match w with WDelete _ => true | _ => false end.

(** The module leaves the rollback to the caller's transaction. *)
Definition respects_managed (w : write_request) : bool := match w with WInsert _ => true | _ => false end.

Definition tag_of (w : write_request) : string :=
  match w with WInsert _ => "rows_inserted" | WUpdate _ => "rows_updated" | WDelete _ => "rows_deleted" end.

(** The table whose cached results go. *)
Definition table_of (w : write_request) : list ascii :=
  match w with
  | WInsert r => ins_table (default r (fst (level2_validate_insert now_y now_m out_of_range max_bulk_inserts level2_columns (Some r))))
  | WUpdate r => upd_table (default r (fst (level2_validate_update now_y now_m out_of_range level2_columns (Some r))))
  | WDelete r => del_table (default r (fst (level2_validate_delete now_y now_m level2_columns (Some r))))
  end.

Lemma tag_of_op w : rows_affected_tag_name (op_of w) = Some (tag_of w).
Proof. by destruct w. Qed.

(** Each of the three is a batch of quiet steps whose answer is short. *)
Lemma execute_write_batch json e w s :
  exists write, (forall name, quiet (write name)) /\
    (forall name, gives (fun resp => length (dr_table resp) <= 127 /\ length (dr_owner resp) <= 127)%nat (write name)) /\
    (forall name, counts (write name)) /\
    execute_write json e w s = batch (op_of w) (ends_on_refusal w) (respects_managed w) json e (accepted w) (table_of w) write s.
Proof.
  destruct w as [r|r|r]; unfold accepted, table_of; cbn [execute_write op_of ends_on_refusal respects_managed].
  - unfold execute_insert_batch. destruct (level2_validate_insert _ _ _ _ _ _) as [checked st]. cbn [fst snd].
    exists (insert_write max_bulk_inserts columns_of auditing e (default r checked)).
    split; [apply insert_write_quiet|]. split; [apply insert_write_short|]. split; [apply insert_write_counts|].
    unfold batch, insert_body. by destruct (run_batch _ _ _ _ _ _ _ _) as [[? ?]|].
  - unfold execute_update_batch. destruct (level2_validate_update _ _ _ _ _) as [checked st]. cbn [fst snd].
    exists (update_write columns_of auditing e (default r checked)).
    split; [apply update_write_quiet|]. split; [apply update_write_short|]. split; [apply update_write_counts|].
    unfold batch, update_body. by destruct (run_batch _ _ _ _ _ _ _ _) as [[? ?]|].
  - unfold execute_delete_batch. destruct (level2_validate_delete _ _ _ _) as [checked st]. cbn [fst snd].
    exists (delete_write columns_of auditing e (default r checked)).
    split; [apply delete_write_quiet|]. split; [apply delete_write_short|]. split; [apply delete_write_counts|].
    unfold batch, delete_body. by destruct (run_batch _ _ _ _ _ _ _ _) as [[? ?]|].
Qed.

(** ** The properties *)

(** C11: what a write does to the transaction, on every way out.  Every call
    that returns first asks its questions - the statement, the LOBs, the
    before-image, the audit -, then tries to commit, then drops the cached
    rows of its table, then undoes.  It answers 0 only after a commit of the
    driver succeeded, or inside a transaction of the caller, which it never
    commits; it answers -1 with nothing committed, unless the answer itself
    could not be allocated; a failure asks for one rollback exactly when its
    statement had written rows - an INSERT only when the transaction is its
    own, an UPDATE or a DELETE also when it is the caller's -, and a request
    that is refused asks nothing at all.  The handles are untouched, and the
    context is as it was found but for what was asked of the driver - and but
    for the identity that a refused INSERT or UPDATE of its own leaves. *)
Theorem write_all_or_nothing (json : bool) (e : dml_env) (w : write_request) (s s' : dml_state) (ans : dml_answer) :
  execute_write json e w s = Some (s', ans) ->
  exists asked dropped commits,
    let undone := if negb (dml_rc ans =? 0) && (0 <? rows_written 0 asked) && negb (respects_managed w && managed s)
                  then rollback_log (dml_ctx s) else [] in
    let stays := negb (accepted w) && negb (ends_on_refusal w) && negb (managed s) in
    st_log s' = st_log s ++ asked ++ map EvTx commits ++ dropped ++ map EvTx undone /\
    Forall asks asked /\ (forall rc, ~ In (EvRollback rc) commits) /\ st_rows s' = rows_written 0 asked /\
    (dml_rc ans = 0 -> dropped = [EvInvalidate (table_of w)] /\ (managed s = false -> In (EvCommit 0) commits)) /\
    (dml_rc ans <> 0 -> dml_rc ans = -1 /\ dml_xml ans = None /\ (managed s = false -> In (EvCommit 0) commits -> de_al e 4%nat = false)) /\
    (managed s = true -> commits = []) /\
    (accepted w = false -> dml_rc ans <> 0 /\ asked = [] /\ commits = [] /\ dropped = []) /\
    w_handles (st_tx s') = w_handles (st_tx s) /\
    dml_ctx s' = log_events (commits ++ undone)
      (if stays then set_active (Some (frame (de_call e))) (trace_txid (dml_ctx s)) (dml_ctx s) else dml_ctx s).
Proof.
  destruct (execute_write_batch json e w s) as (write & Hq & _ & _ & ->). intros Hr.
  apply batch_outcome in Hr as (asked & dropped & commits & Ho); [|exact Hq|by rewrite tag_of_op].
  destruct Ho as (Hlog & Htx & Hasked & Hnr & Hrows & Hok & Hfail & Hm & Hrefused). exists asked, dropped, commits. cbn zeta.
  do 5 (split; [done|]). split; [intros Hrc; by destruct (Hfail Hrc) as (H1 & H2 & _ & H3)|]. do 2 (split; [done|]).
  change (dml_ctx s') with (w_ctx (st_tx s')). by rewrite Htx.
Qed.

(** Every write answers: a call on a context without a transaction, or
    with one that is there, returns, whatever the database answers and
    whatever can be allocated; the answer of a success is its document, whole:
    the operation, table and owner, the rows its statement wrote, the LOBs,
    the time.  Only a context whose transaction is gone is undefined. *)
Theorem write_answers (json : bool) (e : dml_env) (w : write_request) (s : dml_state) :
  match execute_write json e w s with
  | None => ~ tx_here s
  | Some (s', ans) => tx_here s /\
      (dml_rc ans = 0 -> exists resp, dml_xml ans = Some (dml_text (op_of w) (tag_of w) resp (elapsed (de_call e))) /\
         rows_affected resp = st_rows s')
  end.
Proof.
  destruct (execute_write_batch json e w s) as (write & _ & Hshort & Hcounts & ->).
  pose proof (batch_answers (op_of w) (ends_on_refusal w) (respects_managed w) json e (accepted w) (table_of w) write Hshort Hcounts (tag_of w) s
    (tag_of_op w)) as Ha. exact Ha.
Qed.

(** ** Runs of calls *)

(** The call leaves its own identity behind. *)
Definition left_over (w : write_request) : bool := negb (accepted w) && negb (ends_on_refusal w).

Lemma write_step json e w s : active_tx (dml_ctx s) = None ->
  exists s' ans, execute_write json e w s = Some (s', ans) /\ w_handles (st_tx s') = w_handles (st_tx s) /\
    active_tx (dml_ctx s') = if left_over w then Some (frame (de_call e)) else None.
Proof.
  intros Hidle. destruct (execute_write_batch json e w s) as (write & Hq & Hshort & Hcounts & ->).
  pose proof (batch_answers (op_of w) (ends_on_refusal w) (respects_managed w) json e (accepted w) (table_of w) write Hshort Hcounts (tag_of w) s
    (tag_of_op w)) as Ha.
  destruct (batch _ _ _ _ _ _ _ _ _) as [[s' ans]|] eqn:E; [|by destruct Ha; unfold tx_here, tx_there; change (w_ctx (st_tx s)) with (dml_ctx s); rewrite Hidle].
  apply batch_outcome in E as (asked & dropped & commits & _ & Htx & _); [|exact Hq|by rewrite tag_of_op]. exists s', ans. split; [done|].
  rewrite Htx. split; [done|]. change (dml_ctx s') with (w_ctx (st_tx s')). rewrite Htx. unfold managed, left_over. rewrite Hidle.
  destruct (accepted w), (ends_on_refusal w); done.
Qed.

Lemma write_stuck json e w s a : active_tx (dml_ctx s) = Some a -> w_handles (st_tx s) !! a = None -> execute_write json e w s = None.
Proof.
  intros Ha Hn. destruct (execute_write_batch json e w s) as (write & _ & Hshort & Hcounts & ->).
  pose proof (batch_answers (op_of w) (ends_on_refusal w) (respects_managed w) json e (accepted w) (table_of w) write Hshort Hcounts (tag_of w) s
    (tag_of_op w)) as H1.
  destruct (batch _ _ _ _ _ _ _ _ _) as [[s' ans]|]; [|done]. destruct H1 as [Hh _]. unfold tx_here, tx_there in Hh.
  change (w_ctx (st_tx s)) with (dml_ctx s) in Hh. rewrite Ha, Hn in Hh. by destruct Hh.
Qed.

(** What the dispatcher relies on: the handles, the transaction and the driver
    stay, and inside a transaction nothing is committed. *)
Lemma write_frame json e w s s' ans : execute_write json e w s = Some (s', ans) -> managed s = true \/ accepted w = true ->
  exists evs, st_tx s' = mk_world (log_events evs (dml_ctx s)) (w_handles (st_tx s)) /\
    (managed s = true -> forall rc, ~ In (EvCommit rc) evs).
Proof.
  destruct (execute_write_batch json e w s) as (write & Hq & _ & _ & ->). intros Hr Hw.
  apply batch_outcome in Hr as (asked & dropped & commits & _ & Htx & _ & _ & _ & _ & _ & Hm & _); [|exact Hq|by rewrite tag_of_op].
  eexists. split; [rewrite Htx|].
  - replace (negb (accepted w) && negb (ends_on_refusal w) && negb (managed s)) with false by (destruct Hw as [Hw|Hw]; rewrite Hw; by rewrite ?andb_false_r).
    reflexivity.
  - intros Hman rc. rewrite (Hm Hman). cbn [app]. unfold undo_log, rollback_log.
    match goal with |- context [if ?b then _ else _] => destruct b end; [|by intros []].
    destruct (drv_rollback _); [by intros [|[]]|by intros []].
Qed.

(** What it asks inside a transaction of the caller. *)
Lemma write_within json e w s s' ans : execute_write json e w s = Some (s', ans) -> managed s = true ->
  exists l, st_log s' = st_log s ++ l /\ (forall rc, ~ In (EvTx (EvCommit rc)) l) /\
    (dml_rc ans = 0 -> In (EvInvalidate (table_of w)) l).
Proof.
  destruct (execute_write_batch json e w s) as (write & Hq & _ & _ & ->). intros Hr Hman.
  apply batch_outcome in Hr as (asked & dropped & commits & Hlog & _ & Hasked & _ & _ & Hok & Hfail & Hm & _); [|exact Hq|by rewrite tag_of_op].
  rewrite (Hm Hman) in Hlog. eexists. split; [exact Hlog|]. cbn [map app]. split.
  - intros rc [Hi|[Hi|Hi]%in_app_or]%in_app_or.
    + by apply (proj1 (List.Forall_forall _ _) Hasked) in Hi.
    + destruct (Z.eq_dec (dml_rc ans) 0) as [E|E]; [destruct (Hok E) as [-> _]; by destruct Hi as [|[]]|].
      destruct (Hfail E) as (_ & _ & [-> | ->] & _); [done|by destruct Hi as [|[]]].
    + apply in_map_iff in Hi as (ev & [= ->] & Hi). unfold undo_log, rollback_log in Hi.
      match type of Hi with context [if ?b then _ else _] => destruct b end; [|done]. destruct (drv_rollback _); [by destruct Hi as [|[]]|done].
  - intros E. destruct (Hok E) as [-> _]. apply in_or_app. right. apply in_or_app. left. by left.
Qed.

Lemma write_returns json e w s : tx_here s -> is_Some (execute_write json e w s).
Proof.
  intros Hh. destruct (execute_write_batch json e w s) as (write & _ & Hshort & Hcounts & ->).
  pose proof (batch_answers (op_of w) (ends_on_refusal w) (respects_managed w) json e (accepted w) (table_of w) write Hshort Hcounts (tag_of w) s
    (tag_of_op w)) as Ha. destruct (batch _ _ _ _ _ _ _ _ _) as [[s' ans]|]; [by eexists|done].
Qed.

(** C19: a run of writes, each on its own, on one context returns exactly when
    only its last call may be an INSERT or an UPDATE that Level 2 refuses.
    Such a call returns without ending the identity it began, so the context
    points at its local handle, which is gone: the next write reads through
    it.  A refused DELETE ends its own, and a call that passes Level 2 always
    does, whatever fails afterwards. *)
Theorem refused_write_dangles (json : bool) (calls : list (dml_env * write_request)) (s : dml_state) :
  active_tx (dml_ctx s) = None ->
  Forall (fun call => w_handles (st_tx s) !! frame (de_call (fst call)) = None) calls ->
  is_Some (run_writes json calls s) <-> forallb (fun call => negb (left_over (snd call))) (removelast calls) = true.
Proof.
  intros Hidle Hframes. revert s Hidle Hframes. induction calls as [|[e w] calls IH]; intros s Hidle Hframes; [by split; [|eexists]|].
  apply Forall_cons_iff in Hframes as [Hframe Hframes]. cbn [fst] in Hframe. cbn [run_writes].
  destruct (write_step json e w s Hidle) as (s' & ans & -> & Hh & Hact). cbn [mbind option_bind].
  destruct calls as [|[e2 w2] calls]; [by split; [|eexists]|].
  change (removelast ((e, w) :: (e2, w2) :: calls)) with ((e, w) :: removelast ((e2, w2) :: calls)). cbn [forallb snd].
  destruct (left_over w) eqn:El; cbn [negb andb].
  - cbn [run_writes]. rewrite (write_stuck json e2 w2 s' _ Hact) by (by rewrite Hh). by split; [intros []|].
  - assert (is_Some (run_writes json ((e2, w2) :: calls) s') <->
      forallb (fun call => negb (left_over (snd call))) (removelast ((e2, w2) :: calls)) = true) as <- by (apply IH; [done|by rewrite Hh]).
    destruct (run_writes json ((e2, w2) :: calls) s') as [[s2 answers]|]; cbn [mbind option_bind]; split; try done; by eexists.
Qed.
End writes.

(** ** What a statement holds *)

Section statements.
Context `{Dialect} `{!DialectLaws} `{DmlDriver}.

(** A statement with every column, and a fragment for each. *)
Definition insert_complete (ic : insert_ctx) (cols : list col_metadata) (sql : list ascii) (n : Z) : Prop :=
  exists exprs mid tail, fragments cols 1 (col_names ic) = Some (exprs, n + 1) /\
    sql = insert_text ic (listed (str ", ") true (col_names ic)) mid (listed (str ", ") true exprs) tail /\
    Z.of_nat (length sql) < 65536.

(** One that assigns every column and compares every key. *)
Definition update_complete (uc : update_ctx) (cols : list col_metadata) (sql : list ascii) (pos : Z) : Prop :=
  exists sets set_pos keys mid tail,
    fragments cols 1 (uc_names uc) = Some (sets, set_pos) /\ key_fragments (dtype_of cols) set_pos (uc_keys uc) = Some (keys, pos) /\
    sql = update_text uc (listed (str ", ") true (zip_with equals (uc_names uc) sets)) mid
            (listed (str " AND ") true (zip_with equals (map fst (uc_keys uc)) keys)) tail /\
    Z.of_nat (length sql) < 65536.

Definition delete_text (dc : delete_ctx) (keys : list (list ascii)) : list ascii :=
  str "DELETE FROM " ++ qualified_name (dc_owner dc) (dc_table dc) ++ str " WHERE " ++
  listed (str " AND ") true (zip_with equals (map fst (dc_keys dc)) keys).

(** C14: no statement is cut.  The lists are put together by [strncat] in
    arrays of 132 or 256 bytes a column, each assignment in one of 512; with
    names of at most 127 characters, at most 1024 columns and 32 keys and
    fragments of a driver's length nothing is dropped: an INSERT that is built
    names every column and has every fragment, an UPDATE assigns every column
    and compares every key, and both are shorter than the 65536 bytes they
    are put in - what is longer is refused -; a DELETE always fits its 8192
    bytes. *)
Theorem statements_whole (al : bool) (ins : insert_request) (upd : update_request) (del : delete_request) (cols : list col_metadata) :
  (forall ic sql n, build_insert_ctx_from_request al ins = Some ic -> build_insert_sql ic cols = Some (sql, n) -> insert_complete ic cols sql n) /\
  (forall uc sql pos, build_update_ctx_from_request al upd = Some uc -> build_update_sql uc cols = Some (sql, pos) ->
     update_complete uc cols sql pos) /\
  (forall dc, build_delete_ctx_from_request del = Some dc ->
     build_delete_sql dc cols = ('(keys, _) ← key_fragments (key_type cols) 1 (dc_keys dc); Some (delete_text dc keys))).
Proof.
  split; [|split].
  - intros ic sql n Hic. by apply (insert_sql_whole al ins).
  - intros uc sql pos Huc. by apply (update_sql_whole al upd).
  - intros dc Hdc. by apply (delete_sql_whole del).
Qed.
End statements.

(** ** Examples on Oracle *)

#[local] Existing Instance oracle_dialect.
#[local] Existing Instance demo_dml.

Definition demo_env : dml_env := mk_dml_env quiet_call 0 (fun _ => true).
Definition demo_state : dml_state :=
  mk_dml (mk_world (mk_ctx None None (mk_driver (Some (fun _ => 0)) (Some 0)) None []) []) None [] 0.
Definition demo_meta (owner table : list ascii) : option (list col_metadata) := if str_eqb table (str "T") then Some demo_columns else None.
Definition demo_delete (table : string) : delete_request := mk_delete (str table) (str "APP") [mk_key (str "ID") (str "1") []].
Definition demo_update : update_request :=
  mk_update (str "T") (str "APP") [mk_key (str "ID") (str "1") []] [demo_field "NOTE" "short"; demo_field "NAME" "y"].

Definition demo_write : write_request -> dml_state -> option (dml_state * dml_answer) :=
  execute_write 2026 1 (fun z => z) 10 demo_meta demo_meta false false demo_env.

(** What a call asked and did, by kind. *)
Definition event_kind (ev : dml_event) : string :=
  match ev with
  | EvStatement _ _ => "statement" | EvLob _ _ => "lob" | EvBeforeImage _ _ => "before" | EvAudit _ _ => "audit"
  | EvTx (EvCommit _) => "commit" | EvTx (EvRollback _) => "rollback" | EvTx (EvSleep _) => "sleep" | EvInvalidate _ => "invalidate"
  end.
Definition kinds (w : write_request) : option (list string * Z) :=
  option_map (fun '(s, ans) => (map event_kind (st_log s), dml_rc ans)) (demo_write w demo_state).

Example write_kinds :
  kinds (WInsert demo_insert) = Some (["statement"; "lob"; "audit"; "commit"; "invalidate"]%string, 0) /\
  kinds (WUpdate demo_update) = Some (["before"; "statement"; "lob"; "audit"; "commit"; "invalidate"]%string, 0) /\
  kinds (WDelete (demo_delete "T")) = Some (["before"; "audit"; "statement"; "commit"; "invalidate"]%string, 0) /\
  kinds (WDelete (demo_delete "MISSING")) = Some ([], -1).
Proof. vm_compute. repeat split. Qed.

Lemma write_all_or_nothing_witness :
  exists s' ans asked dropped commits,
    demo_write (WInsert demo_insert) demo_state = Some (s', ans) /\ dml_rc ans = 0 /\
    st_log s' = st_log demo_state ++ asked ++ map EvTx commits ++ dropped ++ [] /\ In (EvCommit 0) commits.
Proof.
  destruct (demo_write (WInsert demo_insert) demo_state) as [[s' ans]|] eqn:E; [|vm_compute in E; discriminate E].
  assert (dml_rc ans = 0) as Hrc by (vm_compute in E; injection E as _ <-; reflexivity).
  destruct (write_all_or_nothing 2026 1 (fun z => z) 10 demo_meta demo_meta false false demo_env (WInsert demo_insert) demo_state s' ans E)
    as (asked & dropped & commits & Hlog & _ & _ & _ & Hok & _).
  destruct (Hok Hrc) as [_ Hc]. rewrite Hrc in Hlog. exists s', ans, asked, dropped, commits.
  split; [reflexivity|]. split; [exact Hrc|]. split; [exact Hlog|]. apply Hc. reflexivity.
Defined.

(** The table is not there: the INSERT is refused, and the DELETE after it
    never answers; a DELETE that is refused does no harm. *)
Lemma refused_write_dangles_witness :
  let calls := [(demo_env, WInsert (mk_insert (str "MISSING") (str "APP") (ins_rows demo_insert))); (demo_env, WDelete (demo_delete "T"))] in
  ~ is_Some (run_writes 2026 1 (fun z => z) 10 demo_meta demo_meta false false calls demo_state) /\
  is_Some (run_writes 2026 1 (fun z => z) 10 demo_meta demo_meta false false
             [(demo_env, WDelete (demo_delete "MISSING")); (demo_env, WInsert demo_insert)] demo_state).
Proof.
  cbn zeta. split.
  - intros H. apply refused_write_dangles in H; [|reflexivity|repeat constructor]. vm_compute in H. discriminate H.
  - apply refused_write_dangles; [reflexivity|repeat constructor|]. vm_compute. reflexivity.
Defined.

Lemma statements_whole_witness :
  exists dc, build_delete_ctx_from_request (demo_delete "T") = Some dc /\
    build_delete_sql dc demo_columns = Some (str "DELETE FROM APP.T WHERE ID=:1").
Proof.
  eexists. split; [reflexivity|].
  rewrite (proj2 (proj2 (statements_whole true demo_insert demo_update (demo_delete "T") demo_columns)) _ eq_refl). vm_compute. reflexivity.
Defined.
