(* ===== verification/SessionManager.v ===== *)
(** * Sessions: src/src/session/Session_Manager.c

    A session is a row of OCI_SESSION and, for speed, a record in the session
    cache (SessionCache.v): [session_create] writes both, [session_validate]
    reads the cache alone, [session_touch] moves its expiry on,
    [session_end] closes the row and expires the record, and
    [session_reconcile_orphans] closes, at start-up, the rows that were left
    open.  The cache is any [KeyedStore]; the table is what the update, insert
    and query modules answer ([SessionDb]).  Log lines are left out. *)

From Stdlib Require Import Ascii String ZArith Lia Bool.
From stdpp Require Import base list strings numbers.
From S2P Require Import Prelude Text Hash Cache CacheSpec KeyedStore SessionCache TransactionManager XmlHelper DdlModules Requests.

#[local] Open Scope Z_scope.

Definition SESSION_TABLE_NAME : list ascii := str "OCI_SESSION".
Definition SESSION_UUID_LEN : nat := 37.

(** ** The request *)

Record session_request := mk_session_request {
  operation : list ascii;
  client_id : list ascii;
  client_ip : list ascii;
  client_host : list ascii;
  req_application_name : list ascii;
  requested_ttl_seconds : Z;
}.

Definition extract_tag (src : list ascii) (tag : string) (dest_max : nat) : option (list ascii) :=
  s ← strstr (open_tag tag) src;
  let s := drop (length (open_tag tag)) s in
  e ← strstr (close_tag tag) s;
  Some (trim_inplace (take (dest_max - 1) (between s e))).

Definition parse_session_request (input_xml : option (list ascii)) : res Z session_request :=
  match input_xml with
  | None => Err SESSION_ERR_INVALID_ARG
  | Some x =>
      match extract_tag x "operation" 32 with
      | None => Err SESSION_ERR_PARSE
      | Some op =>
          let text tag size := default [] (extract_tag x tag size) in
          Ok (mk_session_request op (text "client_id"%string 128%nat) (text "client_ip"%string 64%nat) (text "client_host"%string 128%nat)
                (text "application_name"%string 128%nat)
                (match extract_tag x "requested_ttl_seconds" 16 with Some t => atoi t | None => 0 end))
      end
  end.

(** ** What is called *)

(** The modules that run an INSERT, an UPDATE and a query - the XML of its
    result -, and the two expressions of the driver's dialect. *)
Class SessionDb (D : Type) := {
  db_insert : insert_request -> D -> D * Z;
  db_update : update_request -> D -> D * Z;
  db_query : list ascii -> D -> D * Z * option (list ascii);
  add_seconds_expr : list ascii -> list ascii -> nat -> option (list ascii);
  server_now : list ascii;
}.

(** The context: the cache, the table, and the session it is tagged with. *)
Record session_world (C D : Type) := mk_sw { sw_cache : option C; sw_db : D; sw_session_id : list ascii; sw_client_ip : list ascii }.
Arguments mk_sw {C D} _ _ _ _.
Arguments sw_cache {C D} _.
Arguments sw_db {C D} _.
Arguments sw_session_id {C D} _.
Arguments sw_client_ip {C D} _.

(** What a call finds: the random bytes, the clock when it starts and when it
    comes to the cache, the allocations of the record, of the cache and of
    the answer, and an address for the entry. *)
Record sm_env := mk_sm_env {
  sm_rnd : list Z; sm_now : Z; sm_later : Z; sm_us : Z; sm_al_doc : bool; sm_al : nat -> bool; sm_addr : nat; sm_al_xml : bool }.

Section sessions.
Context {C D : Type} {K : KeyedStore C} {Sdb : SessionDb D} (local_offset : Z -> Z) (username : list ascii) (default_ttl : Z).
Implicit Types (w : session_world C D) (e : sm_env) (sid : list ascii).

Definition set_cache (c : C) w : session_world C D := mk_sw (Some c) (sw_db w) (sw_session_id w) (sw_client_ip w).
Definition set_db (d : D) w : session_world C D := mk_sw (sw_cache w) d (sw_session_id w) (sw_client_ip w).
Definition attach_session sid ip w : session_world C D := mk_sw (sw_cache w) (sw_db w) sid ip.

(** [localtime_r] and ["%Y-%m-%d %H:%M:%S"]. *)
Definition format_timestamp (t : Z) : list ascii :=
  let t := t + local_offset t in
  let '(y, m, d) := civil_of_days (t / 86400) in
  let s := t mod 86400 in
  print_int y ++ str "-" ++ pad 2 m ++ str "-" ++ pad 2 d ++ str " " ++
  pad 2 (s / 3600) ++ str ":" ++ pad 2 (s / 60 mod 60) ++ str ":" ++ pad 2 (s mod 60).

(** ** Creation *)

(** [SESSION_SET] and [SESSION_END_SET]. *)
Definition session_set (name : string) (v : list ascii) : field_value := mk_fv (str name) (take 4095 v) None [].
Definition set_unless_empty (name : string) (v : list ascii) : list field_value :=
  match v with [] => [] | _ => [session_set name v] end.

Definition new_record e (req : session_request) : session_record :=
  mk_session (tx_generate_uuid (sm_rnd e)) SESSION_STATUS_ACTIVE (sm_now e) (sm_now e)
    (if 0 <? requested_ttl_seconds req then requested_ttl_seconds req else if 0 <? default_ttl then default_ttl else 1800)
    (take 127 (client_id req)) (take 63 (client_ip req)) (take 127 (client_host req)) (take 127 (req_application_name req)).

Definition session_row (rec : session_record) : insert_row :=
  [session_set "SESSION_ID" (session_id rec); session_set "STATUS" (session_status_str (status rec));
   session_set "TTL_SECONDS" (print_int (s_ttl_seconds rec))] ++
  set_unless_empty "CLIENT_ID" (s_client_id rec) ++ set_unless_empty "CLIENT_IP" (s_client_ip rec) ++
  set_unless_empty "CLIENT_HOST" (s_client_host rec) ++ set_unless_empty "APPLICATION_NAME" (application_name rec) ++
  [session_set "CREATED_TS" (format_timestamp (s_created_ts rec)); session_set "LAST_ACTIVITY_TS" (format_timestamp (last_activity_ts rec))].

Definition session_xml (op : string) (elements : list (list ascii)) : list ascii :=
  take 511 (str "<session>" ++ nl ++ concat (map (fun x => str "  " ++ x ++ nl) (element "operation" (str op) :: elements)) ++
            str "</session>" ++ nl).

Definition store_record e (rec : session_record) w : session_world C D * Z :=
  match sw_cache w with
  | None => (w, -1)
  | Some c =>
      let '(c, rc) := session_cache_store (sm_al_doc e) (sm_al e) (sm_addr e) (sm_later e) c (Some rec) in (set_cache c w, rc)
  end.

(** The answer: the return code and [*result_xml]. *)
Definition session_create e (req : session_request) w : session_world C D * Z * option (list ascii) :=
  let rec := new_record e req in
  let '(d, rc) := db_insert (mk_insert SESSION_TABLE_NAME (take 127 username) [session_row rec]) (sw_db w) in
  let w := set_db d w in
  if negb (rc =? 0) then (w, SESSION_ERR_DB_FAILURE, None)
  else
    let w := fst (store_record e rec w) in
    let w := attach_session (take 63 (session_id rec)) (take 63 (s_client_ip rec)) w in
    (w, SESSION_OK,
     if sm_al_xml e then
       Some (session_xml "CREATE_SESSION"
               [element "session_id" (session_id rec); element "status" (session_status_str (status rec));
                element "created_ts" (format_timestamp (s_created_ts rec)); element "ttl_seconds" (print_int (s_ttl_seconds rec))])
     else None).

(** ** Use *)

(** Looks the record up, copies it out and gives the entry back; [None]: the
    pointer given back is not one of the cache's. *)
Definition read_record e sid w : option (session_world C D * option (option session_record)) :=
  match sw_cache w with
  | None => Some (w, None)
  | Some c =>
      match session_cache_lookup (sm_now e) (sm_us e) c (Some sid) with
      | (c, None) => Some (set_cache c w, None)
      | (c, Some (a, doc)) =>
          let rec := session_cache_decode (Some doc) in
          c ← session_cache_release c (Some a); Some (set_cache c w, Some rec)
      end
  end.

(** The return code and [*out]; [want]: [out] is not NULL, and only then is the
    record decoded. *)
Definition session_validate (want : bool) e sid w : option (session_world C D * Z * option session_record) :=
  if Nat.eqb (length sid) 0 then Some (w, SESSION_ERR_INVALID_ARG, None)
  else
    '(w, found) ← read_record e sid w;
    Some match found with
         | None => (w, SESSION_ERR_NOT_FOUND, None)
         | Some rec =>
             if negb want then (w, SESSION_OK, None)
             else match rec with None => (w, SESSION_ERR_NOT_FOUND, None) | Some rec => (w, SESSION_OK, Some rec) end
         end.

(** The two halves of [session_touch]: the cache is free in between. *)
Definition touch_read e sid w : option (session_world C D * res Z session_record) :=
  if Nat.eqb (length sid) 0 then Some (w, Err SESSION_ERR_INVALID_ARG)
  else
    '(w, found) ← read_record e sid w;
    Some (w, match found with Some (Some rec) => Ok rec | _ => Err SESSION_ERR_NOT_FOUND end).

Definition active_at (now : Z) (rec : session_record) : session_record :=
  mk_session (session_id rec) (status rec) (s_created_ts rec) now (s_ttl_seconds rec) (s_client_id rec) (s_client_ip rec)
    (s_client_host rec) (application_name rec).

Definition touch_write e (rec : session_record) w : session_world C D * Z :=
  let '(w, rc) := store_record e (active_at (sm_now e) rec) w in (w, if negb (rc =? 0) then SESSION_ERR_DB_FAILURE else SESSION_OK).

Definition session_touch e sid w : option (session_world C D * Z) :=
  '(w, r) ← touch_read e sid w;
  Some (match r with Err code => (w, code) | Ok rec => touch_write e rec w end).

Definition session_key sid : where_key := mk_key (str "SESSION_ID") (take 4095 sid) [].

Definition session_touch_db e sid w : session_world C D * Z :=
  if Nat.eqb (length sid) 0 then (w, SESSION_ERR_INVALID_ARG)
  else
    let '(d, rc) := db_update (mk_update SESSION_TABLE_NAME (take 127 username) [session_key sid]
                                 [session_set "LAST_ACTIVITY_TS" (format_timestamp (sm_now e))]) (sw_db w) in
    (set_db d w, if negb (rc =? 0) then SESSION_ERR_DB_FAILURE else SESSION_OK).

(** The thread of session_manager_runner.c, for the identifiers it takes off
    its queue until that is shut down: both touches, whatever they answer. *)
Fixpoint runner_loop (work : list (sm_env * sm_env * list ascii)) w : option (session_world C D) :=
  match work with
  | [] => Some w
  | (e1, e2, sid) :: work => '(w, _) ← session_touch e1 sid w; runner_loop work (fst (session_touch_db e2 sid w))
  end.

(** ** The end *)

Definition terminal (st : session_status) : bool :=
  match st with SESSION_STATUS_EXPIRED | SESSION_STATUS_LOGGED_OUT | SESSION_STATUS_EXPIRED_ORPHAN => true | _ => false end.

Definition end_request (now : Z) sid (st : session_status) (reason : option (list ascii)) : update_request :=
  mk_update SESSION_TABLE_NAME (take 127 username) [session_key sid]
    [session_set "STATUS" (session_status_str st); session_set "CLOSED_TS" (format_timestamp now);
     session_set "CLOSE_REASON" (default (str "-") reason); session_set "LAST_ACTIVITY_TS" (format_timestamp now)].

Definition session_end e sid (st : session_status) (reason : option (list ascii)) w : session_world C D * Z * option (list ascii) :=
  if Nat.eqb (length sid) 0 || negb (terminal st) then (w, SESSION_ERR_INVALID_ARG, None)
  else
    let '(d, rc) := db_update (end_request (sm_now e) sid st reason) (sw_db w) in
    let w := set_db d w in
    if negb (rc =? 0) then (w, SESSION_ERR_DB_FAILURE, None)
    else
      let w := match sw_cache w with
               | None => w
               | Some c => set_cache (fst (session_cache_invalidate (sm_later e) c (Some sid))) w
               end in
      let w := if str_eqb (sw_session_id w) sid then attach_session [] [] w else w in
      (w, SESSION_OK,
       if sm_al_xml e then
         Some (session_xml "END_SESSION"
                 [element "session_id" sid; element "status" (session_status_str st); element "closed_ts" (format_timestamp (sm_later e))])
       else None).

(** ** Reconciliation *)

(** The row from the cursor on - the start of the text when it is NULL -, and
    what follows it. *)
Definition next_row (cursor : list ascii) : option (list ascii * list ascii) :=
  s ← strstr (str "<row ") cursor;
  e ← strstr (str "</row>") s;
  let row_end := drop 6 e in Some (between s row_end, row_end).

(** [al]: the copy of the row is allocated. *)
Definition row_field_value (al : bool) (row : list ascii) (field_name : string) (dest_max : nat) : option (list ascii) :=
  if negb al then None
  else
    name_pos ← strstr (take 159 (element "field_name" (str field_name))) row;
    val_start ← strstr (str "<field_value>") name_pos;
    let val_start := drop 13 val_start in
    val_end ← strstr (str "</field_value>") val_start;
    Some (take (dest_max - 1) (between val_start val_end)).

Definition orphan_reason : list ascii :=
  str "Startup reconciliation - session left ACTIVE past TTL, likely due to an unclean process shutdown".

(** The loop over the rows, each turn of which finds its own [e]; a turn
    moves past a row, so the length of the text is enough fuel. *)
Fixpoint reconcile_loop (fuel : nat) (env : nat -> sm_env) (i : nat) (cursor : list ascii) (closed : Z) w : session_world C D * Z :=
  match fuel with
  | O => (w, closed)
  | S f =>
      match next_row cursor with
      | None => (w, closed)
      | Some (row, cursor) =>
          match row_field_value (sm_al_doc (env i)) row "SESSION_ID" SESSION_UUID_LEN with
          | None => reconcile_loop f env (S i) cursor closed w
          | Some sid =>
              let '(w, end_rc, _) := session_end (env i) sid SESSION_STATUS_EXPIRED_ORPHAN (Some orphan_reason) w in
              reconcile_loop f env (S i) cursor (if end_rc =? SESSION_OK then closed + 1 else closed) w
          end
      end
  end.

Definition orphan_sql (expiry_expr : list ascii) : list ascii :=
  take 511 (str "SELECT SESSION_ID, TTL_SECONDS FROM OCI_SESSION WHERE STATUS = 'ACTIVE' AND CLOSED_TS IS NULL AND " ++ expiry_expr ++
            str " < " ++ server_now).

(** The number of sessions closed; the return code is always 0. *)
Definition session_reconcile_orphans (env : nat -> sm_env) w : session_world C D * Z :=
  match add_seconds_expr (str "CREATED_TS") (str "TTL_SECONDS") 160 with
  | None => (w, 0)
  | Some expiry_expr =>
      let '(d, rc, xml) := db_query (orphan_sql expiry_expr) (sw_db w) in
      let w := set_db d w in
      if negb (rc =? 0) then (w, 0)
      else
        match xml with
        | None => (w, 0)
        | Some xml => reconcile_loop (length xml) env 0 xml 0 w
        end
  end.
End sessions.

(** ** The store behind the calls *)

Section facts.
Context {C D : Type} {K : KeyedStore C} {Sdb : SessionDb D} (local_offset : Z -> Z) (username : list ascii) (default_ttl : Z).
Implicit Types (c : C) (w : session_world C D) (e : sm_env) (sid : list ascii) (rec : session_record).

Definition store_ok c : Prop := ks_ok c /\ ks_on c = true.
Definition allocated e : Prop := sm_al_doc e = true /\ sm_al e = (fun _ => true).
(** [same_but c c' sid s]: the documents of [c], but for [s] under [sid]. *)
Definition same_but c c' sid (s : option stored) : Prop :=
  store_ok c' /\ ks_ttl c' = ks_ttl c /\ forall k, ks_view c' k = upd sid s (ks_view c) k.

Lemma read_found e sid w c s : store_ok c -> 0 <= sm_now e -> sw_cache w = Some c -> ks_view c sid = Some s -> live (sm_now e) s = true ->
  exists c', read_record e sid w = Some (set_cache c' w, Some (session_cache_decode (Some (st_doc s)))) /\ same_but c c' sid (Some (lend false s)).
Proof.
  intros [Hok Hon] Hn Hw Hv Hl. unfold read_record, session_cache_lookup. rewrite Hw.
  pose proof (get_law c (sm_now e) (sm_us e) sid Hok Hn) as Hg. destruct (ks_get _ _ c (Some sid)) as [c1 r].
  rewrite Hon, Hv, Hl in Hg. destruct Hg as (Hok1 & Hon1 & Ht1 & a & -> & Hh & Hv1).
  destruct (release_law c1 a sid (lend true s) Hok1 Hh) as (c2 & Hr & Hok2 & Hon2 & Ht2 & Hv2); [by rewrite Hv1, upd_eq|].
  unfold session_cache_release. rewrite Hr. exists c2. split; [done|]. split; [split; [done|congruence]|]. split; [congruence|].
  intros k. rewrite Hv2. unfold upd. case_decide; [done|]. rewrite Hv1. by rewrite upd_ne.
Qed.

Definition gone (now : Z) (s : option stored) : Prop := match s with None => True | Some s => live now s = false end.

Lemma read_refused e sid w c : ks_ok c -> 0 <= sm_now e -> sw_cache w = Some c -> ks_on c = false \/ gone (sm_now e) (ks_view c sid) ->
  exists c', read_record e sid w = Some (set_cache c' w, None).
Proof.
  intros Hok Hn Hw Hg. unfold read_record, session_cache_lookup. rewrite Hw.
  pose proof (get_law c (sm_now e) (sm_us e) sid Hok Hn) as Hl. destruct (ks_get _ _ c (Some sid)) as [c1 r].
  destruct (ks_on c); [destruct Hg as [|Hg]; [done|]|by destruct Hl as (_ & _ & _ & -> & _); exists c1].
  destruct (ks_view c sid) as [s|]; cbn [gone] in Hg; [rewrite Hg in Hl|]; destruct Hl as (_ & _ & _ & -> & _); by exists c1.
Qed.

Lemma read_gone e sid w c : store_ok c -> 0 <= sm_now e -> sw_cache w = Some c -> gone (sm_now e) (ks_view c sid) ->
  exists c', read_record e sid w = Some (set_cache c' w, None).
Proof. intros [Hok _] Hn Hw Hg. apply (read_refused e sid w c); try done. by right. Qed.

(** What [session_validate] answers is what the cache says at that moment. *)
Lemma validate_live e sid w c s : store_ok c -> 0 <= sm_now e -> sw_cache w = Some c -> sid <> [] -> ks_view c sid = Some s ->
  live (sm_now e) s = true -> exists w', session_validate false e sid w = Some (w', SESSION_OK, None).
Proof.
  intros Hc Hn Hw Hs Hv Hl. destruct (read_found e sid w c s Hc Hn Hw Hv Hl) as (c' & Hr & _).
  unfold session_validate. rewrite Hr. destruct sid; [done|]. by exists (set_cache c' w).
Qed.

Lemma validate_gone want e sid w c : store_ok c -> 0 <= sm_now e -> sw_cache w = Some c -> sid <> [] -> gone (sm_now e) (ks_view c sid) ->
  exists w', session_validate want e sid w = Some (w', SESSION_ERR_NOT_FOUND, None).
Proof.
  intros Hc Hn Hw Hs Hg. destruct (read_gone e sid w c Hc Hn Hw Hg) as (c' & Hr).
  unfold session_validate. rewrite Hr. destruct sid; [done|]. by exists (set_cache c' w).
Qed.

Lemma validate_refused want e sid w c : ks_ok c -> 0 <= sm_now e -> sw_cache w = Some c -> sid <> [] ->
  ks_on c = false \/ gone (sm_now e) (ks_view c sid) -> exists w', session_validate want e sid w = Some (w', SESSION_ERR_NOT_FOUND, None).
Proof.
  intros Hc Hn Hw Hs Hg. destruct (read_refused e sid w c Hc Hn Hw Hg) as (c' & Hr).
  unfold session_validate. rewrite Hr. destruct sid; [done|]. by exists (set_cache c' w).
Qed.

(** A record that finds no place in the cache leaves none there. *)
Lemma store_lost e rec w c : ks_ok c -> 0 <= sm_later e -> sw_cache w = Some c -> ks_fresh c (sm_addr e) -> ks_view c (session_id rec) = None ->
  ks_on c = false \/ snd (store_record e rec w) <> 0 ->
  exists c', fst (store_record e rec w) = set_cache c' w /\ ks_ok c' /\ (ks_on c' = false \/ ks_view c' (session_id rec) = None).
Proof.
  intros Hok Hn Hw Hf Hv Hl. unfold store_record, session_cache_store in *. rewrite Hw in *.
  assert (exists c', set_cache c w = set_cache c' w /\ ks_ok c' /\ (ks_on c' = false \/ ks_view c' (session_id rec) = None)) as Hsame
    by (exists c; split_and!; [done..|by right]).
  destruct (session_id rec) as [|x sid] eqn:Es; [exact Hsame|]. destruct (session_cache_encode _ _) as [doc|]; [|exact Hsame].
  pose proof (put_lost_law (sm_al e) c (sm_addr e) (sm_later e) (x :: sid) doc (session_opts rec) Hok Hn Hf Hv) as Hp.
  destruct (ks_put _ _ _ _ _ _ _) as [[c1 rc] fate]. destruct Hp as (H1 & _ & H3). cbn [fst snd] in *.
  exists c1. split; [done|]. split; [done|]. right. by apply H3.
Qed.

Lemma store_spec e rec doc w c : store_ok c -> allocated e -> 0 <= sm_later e -> sw_cache w = Some c -> ks_fresh c (sm_addr e) ->
  session_id rec <> [] -> session_cache_encode true rec = Some doc -> 0 < s_ttl_seconds rec ->
  (forall s, ks_view c (session_id rec) = Some s -> st_borrowed s = false) ->
  exists c', store_record e rec w = (set_cache c' w, 0) /\
             same_but c c' (session_id rec) (Some (mk_stored doc (sm_later e + s_ttl_seconds rec) false)).
Proof.
  intros [Hok Hon] [Ha1 Ha2] Hn Hw Hf Hs He Ht Hb. unfold store_record, session_cache_store. rewrite Hw, Ha1, Ha2, He.
  pose proof (put_law c (sm_addr e) (sm_later e) (session_id rec) doc (session_opts rec) Hok Hon Hn Hf Hb) as Hp.
  destruct (session_id rec) as [|x sid] eqn:Es; [done|].
  destruct (ks_put _ _ _ _ _ _ _) as [[c1 rc] fate]. cbv zeta in Hp. cbn [session_opts o_ttl_seconds] in Hp.
  rewrite (proj2 (Z.ltb_lt 0 (s_ttl_seconds rec)) Ht) in Hp. rewrite (proj2 (Z.ltb_lt 0 (s_ttl_seconds rec)) Ht) in Hp.
  destruct Hp as (-> & _ & Hok1 & Hon1 & Ht1 & Hv). exists c1. done.
Qed.

Lemma end_spec e sid st reason w c : store_ok c -> sw_cache w = Some c -> sid <> [] -> terminal st = true ->
  snd (db_update (end_request local_offset username (sm_now e) sid st reason) (sw_db w)) = 0 ->
  exists c' w' x, session_end local_offset username e sid st reason w = (w', SESSION_OK, x) /\ sw_cache w' = Some c' /\
    same_but c c' sid (match ks_view c sid with
                       | Some s => Some (mk_stored (st_doc s) (past (sm_later e)) (st_borrowed s)) | None => None end) /\
    sw_session_id w' = (if str_eqb (sw_session_id w) sid then [] else sw_session_id w).
Proof.
  intros [Hok Hon] Hw Hs Ht Hd. unfold session_end. destruct sid as [|x sid]; [done|]. cbn [length Nat.eqb orb]. rewrite Ht. cbn [negb].
  destruct (db_update _ _) as [d rc]. cbn [snd] in Hd. subst rc. cbn [Z.eqb negb sw_cache set_db]. rewrite Hw.
  pose proof (expire_law c (sm_later e) (x :: sid) Hok) as He. unfold session_cache_invalidate.
  destruct (ks_expire _ c _) as [c1 rc1]. destruct He as (Hok1 & Hon1 & Ht1 & He). cbn [fst].
  eexists c1, _, _. split; [reflexivity|]. cbn [set_cache set_db sw_session_id sw_cache].
  split; [by destruct (str_eqb _ _)|]. split; [|by destruct (str_eqb _ _)].
  split; [split; [done|congruence]|]. split; [done|]. intros k. destruct (ks_view c (x :: sid)) as [s|] eqn:Ev; destruct He as [_ He]; rewrite He; [done|].
  unfold upd. case_decide; [by subst|done].
Qed.

(** An end that succeeds had a valid request and a table that took it. *)
Lemma end_inv e sid st reason w w' x : session_end local_offset username e sid st reason w = (w', SESSION_OK, x) ->
  (forall c, store_ok c -> sw_cache w = Some c -> exists c', sw_cache w' = Some c' /\
    same_but c c' sid (match ks_view c sid with
                       | Some s => Some (mk_stored (st_doc s) (past (sm_later e)) (st_borrowed s)) | None => None end) /\
    sw_session_id w' = (if str_eqb (sw_session_id w) sid then [] else sw_session_id w)) /\
  sid <> [] /\ terminal st = true.
Proof.
  intros H. assert (sid <> [] /\ terminal st = true /\
    snd (db_update (end_request local_offset username (sm_now e) sid st reason) (sw_db w)) = 0) as (Hs & Ht & Hd).
  { unfold session_end in H. destruct sid as [|y sid]; [done|]. destruct (terminal st); [|done]. cbn [length Nat.eqb orb negb] in H.
    destruct (db_update _ _) as [d rc]. destruct (Z.eqb_spec rc 0); [by subst|done]. }
  split; [|done]. intros c Hc Hw. destruct (end_spec e sid st reason w c Hc Hw Hs Ht Hd) as (c' & w2 & x2 & He & Hr).
  rewrite He in H. injection H as -> _. by exists c'.
Qed.

Lemma live_until now now' ttl doc b : 0 < ttl -> 0 <= now -> live now' (mk_stored doc (now + ttl) b) = (now' <? now + ttl).
Proof.
  intros Ht Hn. unfold live. cbn [st_expiry]. rewrite (proj2 (Z.ltb_lt 0 (now + ttl))) by lia. cbn [andb]. by rewrite Z.leb_antisym, negb_involutive.
Qed.

Lemma past_gone now now' doc b : 1 < now -> now <= now' -> live now' (mk_stored doc (past now) b) = false.
Proof.
  intros Hn Hl. unfold live, past. cbn [st_expiry]. destruct (Z.ltb_spec 0 now); [|lia]. apply negb_false_iff, andb_true_intro.
  split; [apply Z.ltb_lt|apply Z.leb_le]; lia.
Qed.
End facts.

(** ** The life of a session *)

Definition session_ttl (default_ttl : Z) (req : session_request) : Z :=
  if 0 <? requested_ttl_seconds req then requested_ttl_seconds req else if 0 <? default_ttl then default_ttl else 1800.

Lemma session_ttl_bounds default_ttl req : default_ttl < 2 ^ 31 -> requested_ttl_seconds req < 2 ^ 31 -> 0 < session_ttl default_ttl req < 2 ^ 31.
Proof. intros H1 H2. unfold session_ttl. destruct (Z.ltb_spec 0 (requested_ttl_seconds req)); [lia|]. destruct (Z.ltb_spec 0 default_ttl); lia. Qed.

Lemma or_dash_take n s : (0 < n)%nat -> (length (or_dash (take n s)) <= n)%nat.
Proof. intros Hn. pose proof (firstn_le_length n s). destruct (take n s) eqn:E; cbn [or_dash length] in *; [change (length (str "-")) with 1%nat|]; lia. Qed.

(** Whatever the client sends, the record fits the buffer it is encoded in. *)
Lemma new_record_encodes default_ttl e req : 0 <= sm_now e < 2 ^ 63 -> default_ttl < 2 ^ 31 -> requested_ttl_seconds req < 2 ^ 31 ->
  exists doc, session_cache_encode true (new_record default_ttl e req) = Some doc.
Proof.
  intros Hn Hd Hr. unfold session_cache_encode. cbn [negb].
  set (rec := new_record default_ttl e req). pose proof (sep_by_length bar (session_fields rec)) as H. cbn [session_fields foldr] in H.
  pose proof (session_ttl_bounds default_ttl req Hd Hr) as Ht. change (session_ttl default_ttl req) with (s_ttl_seconds rec) in Ht.
  assert (s_created_ts rec = sm_now e /\ last_activity_ts rec = sm_now e) as [Hcr Hla] by done.
  pose proof (print_int_length (s_created_ts rec) 19 ltac:(lia) ltac:(lia)).
  pose proof (print_int_length (last_activity_ts rec) 19 ltac:(lia) ltac:(lia)).
  pose proof (print_int_length (s_ttl_seconds rec) 9 ltac:(lia) ltac:(lia)).
  assert (length (session_id rec) <= 36)%nat by apply (firstn_le_length 36).
  assert (length (or_dash (s_client_id rec)) <= 127)%nat by (apply or_dash_take; lia).
  assert (length (or_dash (s_client_ip rec)) <= 63)%nat by (apply or_dash_take; lia).
  assert (length (or_dash (s_client_host rec)) <= 127)%nat by (apply or_dash_take; lia).
  assert (length (or_dash (application_name rec)) <= 127)%nat by (apply or_dash_take; lia).
  change (length SESSION_CACHE_ENCODING_VERSION) with 3%nat in H. change (length (session_status_str (status rec))) with 6%nat in H.
  rewrite (proj2 (Nat.leb_gt 1024 _)) by lia. by eexists.
Qed.

Lemma uuid_fits rnd : (length (tx_generate_uuid rnd) <= 63)%nat.
Proof. apply (Nat.le_trans _ 36); [apply (firstn_le_length 36)|lia]. Qed.

Lemma uuid_not_empty rnd : tx_generate_uuid rnd <> [].
Proof. done. Qed.

Section lifetime.
Context {C D : Type} {K : KeyedStore C} {Sdb : SessionDb D} (local_offset : Z -> Z) (username : list ascii) (default_ttl : Z).
Implicit Types (c : C) (w : session_world C D) (e : sm_env) (sid : list ascii) (rec : session_record).

(** C8: a session lives exactly as long as it should.  [session_create]
    answers SESSION_OK whenever the table takes the row, whatever the client
    sent, and tags the context.  With a cache that is on and the memory the
    record needs there, [session_validate] accepts the new identifier - one the
    cache does not know yet - until the TTL asked for - the default one, or
    1800 seconds - has run out, and not from then on, nor once [session_end]
    has succeeded.  Where the cache is off, or does not take the record, the
    session just announced is refused by every [session_validate].  When the
    table refuses the row, the answer is SESSION_ERR_DB_FAILURE and no session
    exists at all. *)
Theorem session_lifetime e req w c :
  ks_ok c -> sw_cache w = Some c -> ks_fresh c (sm_addr e) -> ks_view c (tx_generate_uuid (sm_rnd e)) = None ->
  0 <= sm_now e < 2 ^ 63 -> 0 <= sm_later e -> default_ttl < 2 ^ 31 -> requested_ttl_seconds req < 2 ^ 31 ->
  let sid := tx_generate_uuid (sm_rnd e) in
  let '(w1, rc, _) := session_create local_offset username default_ttl e req w in
  if snd (db_insert (mk_insert SESSION_TABLE_NAME (take 127 username) [session_row local_offset (new_record default_ttl e req)]) (sw_db w)) =? 0
  then
    rc = SESSION_OK /\ sw_session_id w1 = sid /\
    (ks_on c = true -> allocated e ->
     (forall e', 0 <= sm_now e' -> exists w2,
        session_validate false e' sid w1 =
          Some (w2, (if sm_now e' <? sm_later e + session_ttl default_ttl req then SESSION_OK else SESSION_ERR_NOT_FOUND), None)) /\
     (forall e2 e3 st reason w2 x, 1 < sm_later e2 <= sm_now e3 ->
        session_end local_offset username e2 sid st reason w1 = (w2, SESSION_OK, x) ->
        exists w3, session_validate false e3 sid w2 = Some (w3, SESSION_ERR_NOT_FOUND, None))) /\
    (ks_on c = false \/ snd (store_record e (new_record default_ttl e req) w) <> 0 ->
     forall e', 0 <= sm_now e' -> exists w2, session_validate false e' sid w1 = Some (w2, SESSION_ERR_NOT_FOUND, None))
  else rc = SESSION_ERR_DB_FAILURE /\ sw_cache w1 = Some c /\ sw_session_id w1 = sw_session_id w.
Proof.
  intros Hok Hw Hf Hv Hn Hl Hd Hr sid. unfold session_create. destruct (db_insert _ _) as [d rc]. cbn [snd].
  destruct (Z.eqb_spec rc 0) as [->|Hrc]; cbn [negb]; [|by split_and!].
  split; [done|]. split; [apply take_ge, uuid_fits|]. split.
  - intros Hon Ha. pose proof (conj Hok Hon : store_ok c) as Hc.
    destruct (new_record_encodes default_ttl e req Hn Hd Hr) as (doc & Hdoc). pose proof (session_ttl_bounds default_ttl req Hd Hr) as Ht.
    destruct (store_spec e (new_record default_ttl e req) doc (set_db d w) c Hc Ha Hl Hw Hf (uuid_not_empty _) Hdoc ltac:(apply Ht))
      as (c1 & Hs & Hc1 & _ & Hv1).
    { intros s Hs. exfalso. cbn [session_id new_record] in Hs. congruence. }
    rewrite Hs. cbn [fst]. pose proof (Hv1 sid) as Hview. rewrite upd_eq in Hview.
    change (s_ttl_seconds (new_record default_ttl e req)) with (session_ttl default_ttl req) in Hview. split.
    + intros e' He'. destruct (Z.ltb_spec (sm_now e') (sm_later e + session_ttl default_ttl req)) as [Hlt|Hge].
      * eapply (validate_live e' sid _ c1); try done. rewrite live_until by lia. by apply Z.ltb_lt.
      * eapply (validate_gone false e' sid _ c1); try done. rewrite Hview. cbn [gone]. rewrite live_until by lia. by apply Z.ltb_ge.
    + intros e2 e3 st reason w2 x He2 He. apply end_inv in He as (He & _).
      destruct (He c1 Hc1) as (c2 & Hw2 & (Hc2 & _ & Hv2) & _); [done|].
      eapply (validate_gone false e3 sid w2 c2); try done; [lia|]. rewrite Hv2, upd_eq, Hview. cbn [gone]. apply past_gone; lia.
  - intros Hlost e' He'. destruct (store_lost e (new_record default_ttl e req) (set_db d w) c) as (c1 & Hs & Hok1 & Hg); try done.
    { destruct Hlost as [|Hlost]; [by left|right]. unfold store_record in *. cbn [sw_cache set_db]. rewrite Hw in *.
      by destruct (session_cache_store _ _ _ _ _ _). }
    rewrite Hs. eapply (validate_refused false e' sid _ c1); try done. destruct Hg as [Hg|Hg]; [by left|right].
    cbn [session_id new_record] in Hg. fold sid in Hg. by rewrite Hg.
Qed.

Lemma active_at_ok now rec : session_ok rec -> - 2 ^ 63 <= now < 2 ^ 63 -> session_ok (active_at now rec).
Proof. intros [] Hn. by split. Qed.

(** The two halves of a touch leave the cache in between, and a session that
    ends there comes back: the thread that has read the record stores it anew,
    and an identifier that was refused after [session_end] is accepted for
    another whole TTL, although its row is closed.  A touch that starts after
    the end is refused as it should be. *)
Theorem touch_revives_ended_session e sid w c s rec w1 e2 st reason w2 x c2 :
  store_ok c -> sw_cache w = Some c -> ks_view c sid = Some s -> live (sm_now e) s = true ->
  session_cache_decode (Some (st_doc s)) = Some rec -> session_ok rec -> session_id rec = sid -> 0 < s_ttl_seconds rec ->
  0 <= sm_now e < 2 ^ 63 -> allocated e -> 0 <= sm_later e -> 1 < sm_later e2 ->
  touch_read e sid w = Some (w1, Ok rec) ->
  session_end local_offset username e2 sid st reason w1 = (w2, SESSION_OK, x) -> sw_cache w2 = Some c2 -> ks_fresh c2 (sm_addr e) ->
  (forall e3, sm_later e2 <= sm_now e3 ->
     (exists w3, session_validate false e3 sid w2 = Some (w3, SESSION_ERR_NOT_FOUND, None)) /\
     (exists w3, session_touch e3 sid w2 = Some (w3, SESSION_ERR_NOT_FOUND))) /\
  let '(w3, rc) := touch_write e rec w2 in
  rc = SESSION_OK /\ sw_db w3 = sw_db w2 /\
  forall e3, 0 <= sm_now e3 < sm_later e + s_ttl_seconds rec -> exists w4, session_validate false e3 sid w3 = Some (w4, SESSION_OK, None).
Proof.
  intros Hc Hw Hv Hl Hdec Hrec Hid Ht Hn Ha Hlat He2 Hread Hend Hw2 Hf.
  apply end_inv in Hend as (Hend & Hsid & _).
  destruct (read_found e sid w c s Hc ltac:(lia) Hw Hv Hl) as (c1 & Hr1 & Hc1 & _ & Hv1).
  unfold touch_read in Hread. rewrite Hr1 in Hread. destruct (Nat.eqb_spec (length sid) 0) as [Hz|_]; [by destruct sid|].
  cbn [mbind option_bind] in Hread. injection Hread as <- _.
  destruct (Hend c1 Hc1 eq_refl) as (c2' & Hw2' & (Hc2 & _ & Hv2) & _). rewrite Hw2 in Hw2'. injection Hw2' as <-.
  pose proof (Hv2 sid) as Hview. rewrite upd_eq, Hv1, upd_eq in Hview. split.
  - intros e3 He3. assert (gone (sm_now e3) (ks_view c2 sid)) as Hg by (rewrite Hview; cbn [gone]; apply past_gone; lia). split.
    + eapply (validate_gone false e3 sid w2 c2); try done. lia.
    + destruct (read_gone e3 sid w2 c2 Hc2 ltac:(lia) Hw2 Hg) as (c3 & Hr3). exists (set_cache c3 w2). unfold session_touch, touch_read.
      rewrite Hr3. by destruct sid.
  - pose proof (active_at_ok (sm_now e) rec Hrec ltac:(lia)) as Hok.
    destruct (store_spec e (active_at (sm_now e) rec) _ w2 c2 Hc2 Ha Hlat Hw2 Hf ltac:(cbn; by rewrite Hid) (encode_ok _ Hok) Ht)
      as (c3 & Hs & Hc3 & _ & Hv3).
    { cbn [active_at session_id]. rewrite Hid, Hview. by intros s' [= <-]. }
    unfold touch_write. rewrite Hs. cbn [Z.eqb negb]. split; [done|]. split; [done|]. intros e3 He3.
    pose proof (Hv3 sid) as Hview3. cbn [active_at session_id s_ttl_seconds] in Hview3. rewrite Hid, upd_eq in Hview3.
    eapply (validate_live e3 sid _ c3); try done; [lia|]. rewrite live_until by lia. apply Z.ltb_lt. lia.
Qed.
End lifetime.

(** ** The rows of a result document *)

(** [clear w s]: no occurrence of [w] begins in [s], whatever comes after. *)
Fixpoint clash (w s : list ascii) : bool :=
  match w, s with
  | c :: w', d :: s' => negb (Ascii.eqb c d) || clash w' s'
  | _, _ => false
  end.
Fixpoint clear (w s : list ascii) : bool :=
  match s with [] => true | _ :: s' => clash w s && clear w s' end.

Section scanning.
Implicit Types (w s t r : list ascii).

Lemma clash_no_prefix w s r : clash w s = true -> prefix_b w (s ++ r) = false.
Proof.
  revert s. induction w as [|c w IH]; intros [|d s]; cbn [clash app prefix_b]; try done.
  destruct (Ascii.eqb c d); cbn [negb orb andb]; [apply IH|done].
Qed.

Lemma strstr_clear w s r : clear w s = true -> strstr w (s ++ r) = strstr w r.
Proof.
  induction s as [|d s IH]; [done|]. cbn [clear]. intros [H1 H2]%andb_prop. apply (clash_no_prefix _ _ r) in H1.
  cbn [app strstr] in *. rewrite H1. by apply IH.
Qed.

Lemma clash_app w s t : clash w s = true -> clash w (s ++ t) = true.
Proof.
  revert s. induction w as [|c w IH]; intros [|d s]; cbn [clash app]; try done.
  destruct (Ascii.eqb c d); cbn [negb orb]; [apply IH|done].
Qed.

Lemma clear_app w s t : clear w s = true -> clear w t = true -> clear w (s ++ t) = true.
Proof.
  intros Hs Ht. induction s as [|d s IH]; [done|]. cbn [clear] in Hs. apply andb_prop in Hs as [H1 H2].
  change (clear w ((d :: s) ++ t)) with (clash w ((d :: s) ++ t) && clear w (s ++ t)). by rewrite (IH H2), clash_app.
Qed.

Lemma clear_no_markup c w s : Forall (fun d => Ascii.eqb d c = false) s -> clear (c :: w) s = true.
Proof. induction 1 as [|d s Hd _ IH]; [done|]. cbn [clear clash]. rewrite Ascii.eqb_sym, Hd, IH. done. Qed.

Lemma between_app s r : between (s ++ r) r = s.
Proof. unfold between. rewrite length_app. replace (_ + _ - _)%nat with (length s) by lia. apply take_app_length. Qed.
End scanning.

(** A row as the result writer puts it: its attributes, the type of the first
    column, the identifier in it, and the fields that follow. *)
Record listed_row := mk_listed { row_attributes : list ascii; column_type : list ascii; listed_id : list ascii; row_rest : list ascii }.

Definition row_text (r : listed_row) : list ascii :=
  str "<row " ++ row_attributes r ++ nl ++
  (str "<field>" ++ element "field_name" (str "SESSION_ID") ++ element "field_type" (column_type r) ++
   element "field_value" (listed_id r) ++ str "</field>" ++ nl) ++
  row_rest r ++ str "</row>".

Definition listed_ok (r : listed_row) : Prop :=
  no_markup (row_attributes r) /\ no_markup (column_type r) /\ no_markup (listed_id r) /\ (length (listed_id r) < SESSION_UUID_LEN)%nat /\
  clear (str "</row>") (row_rest r) = true.

Definition rows_text (rows : list listed_row) : list ascii := concat (map (fun r => row_text r ++ nl) rows).

Section rows.
Implicit Types (r : listed_row) (head k : list ascii).

(** Everything of a row but its end is clear of the end tag. *)
Definition row_inside r : list ascii :=
  str "<row " ++ row_attributes r ++ (nl ++ str "<field>" ++ element "field_name" (str "SESSION_ID") ++ str "<field_type>") ++ column_type r ++
  str "</field_type><field_value>" ++ listed_id r ++ (str "</field_value></field>" ++ nl) ++ row_rest r.

Lemma row_text_inside r : row_text r = row_inside r ++ str "</row>".
Proof. unfold row_text, row_inside, element. rewrite <- !app_assoc. reflexivity. Qed.

Ltac clear_tac := repeat first [reflexivity | assumption | apply (clear_no_markup "<"%char (str "/row>")); assumption | apply clear_app].

Lemma row_inside_clear r : listed_ok r -> clear (str "</row>") (row_inside r) = true.
Proof. intros (Ha & Hc & Hi & _ & Hr). unfold row_inside. clear_tac. Qed.

Lemma next_row_reads head r k : clear (str "<row ") head = true -> listed_ok r -> next_row (head ++ row_text r ++ k) = Some (row_text r, k).
Proof.
  intros Hh Hr. unfold next_row. rewrite strstr_clear by done.
  assert (strstr (str "<row ") (row_text r ++ k) = Some (row_text r ++ k)) as ->.
  { unfold row_text. rewrite <- app_assoc. by apply strstr_here. }
  cbn [mbind option_bind]. rewrite row_text_inside, <- app_assoc, (strstr_clear _ _ _ (row_inside_clear r Hr)), strstr_here by done.
  cbn [mbind option_bind]. change 6%nat with (length (str "</row>")). rewrite drop_app_length, app_assoc, between_app. done.
Qed.

Lemma row_field_reads r : listed_ok r -> row_field_value true (row_text r) "SESSION_ID" SESSION_UUID_LEN = Some (listed_id r).
Proof.
  intros (Ha & Hc & Hi & Hl & _). unfold row_field_value. cbn [negb].
  change (take 159 (element "field_name" (str "SESSION_ID"))) with (element "field_name" (str "SESSION_ID")).
  unfold row_text. rewrite <- !app_assoc.
  rewrite (strstr_clear _ (str "<row ")) by done. rewrite (strstr_clear _ (row_attributes r)) by (by apply clear_no_markup).
  rewrite (strstr_clear _ nl), (strstr_clear _ (str "<field>")) by done. rewrite strstr_here by done. cbn [mbind option_bind].
  rewrite (strstr_clear _ (element "field_name" (str "SESSION_ID"))) by done. unfold element. rewrite <- !app_assoc.
  change (strstr (str "<field_value>") _) with
    (strstr (str "<field_value>") (str "<field_type>" ++ column_type r ++ str "</field_type>" ++ str "<field_value>" ++ listed_id r ++
       str "</field_value>" ++ (str "</field>" ++ nl ++ row_rest r ++ str "</row>"))).
  rewrite strstr_clear by done. rewrite (strstr_clear _ (column_type r)) by (by apply clear_no_markup). rewrite strstr_clear, strstr_here by done.
  cbn [mbind option_bind]. change 13%nat with (length (str "<field_value>")). rewrite drop_app_length.
  rewrite strstr_clear, strstr_here by (done || by apply clear_no_markup). cbn [mbind option_bind]. rewrite between_app, take_ge; [done|].
  unfold SESSION_UUID_LEN in *. lia.
Qed.
End rows.

Section reconciliation.
Context {C D : Type} {K : KeyedStore C} {Sdb : SessionDb D} (local_offset : Z -> Z) (username : list ascii).
Implicit Types (w : session_world C D) (e : sm_env) (sids : list (list ascii)).

(** One end after the other, and how many succeeded. *)
Fixpoint end_all (env : nat -> sm_env) (i : nat) sids (closed : Z) w : session_world C D * Z :=
  match sids with
  | [] => (w, closed)
  | sid :: sids =>
      let '(w, rc, _) := session_end local_offset username (env i) sid SESSION_STATUS_EXPIRED_ORPHAN (Some orphan_reason) w in
      end_all env (S i) sids (if rc =? SESSION_OK then closed + 1 else closed) w
  end.

(** The reconciliation at start-up ends exactly the sessions the query
    lists, in their order, and counts those whose row was closed: the scanner
    finds every row of the result document, and the identifier in it, whatever
    the attributes, the types and the other fields. *)
Theorem reconcile_ends_listed (env : nat -> sm_env) w expiry d head (rows : list listed_row) tail :
  add_seconds_expr (str "CREATED_TS") (str "TTL_SECONDS") 160 = Some expiry ->
  let doc := head ++ rows_text rows ++ tail in
  db_query (orphan_sql expiry) (sw_db w) = (d, 0, Some doc) ->
  Forall listed_ok rows -> clear (str "<row ") head = true -> clear (str "<row ") tail = true ->
  (forall i, sm_al_doc (env i) = true) ->
  session_reconcile_orphans local_offset username env w = end_all env 0 (map listed_id rows) 0 (set_db d w).
Proof.
  intros He doc Hq Hrows Hh Ht Hal. unfold session_reconcile_orphans. rewrite He, Hq. cbn [Z.eqb negb].
  assert (forall fuel i closed w head, (length (head ++ rows_text rows ++ tail) <= fuel)%nat -> clear (str "<row ") head = true ->
            reconcile_loop local_offset username fuel env i (head ++ rows_text rows ++ tail) closed w =
            end_all env i (map listed_id rows) closed w) as Hloop.
  { clear - Hrows Ht Hal. induction Hrows as [|r rows Hr _ IH]; intros fuel i closed w head Hf Hh.
    - destruct fuel as [|f]; [done|]. cbn [reconcile_loop rows_text map concat app]. unfold next_row.
      rewrite strstr_clear by done. rewrite <- (app_nil_r tail), strstr_clear by done. done.
    - unfold rows_text in *. cbn [map concat] in *. fold (rows_text rows) in *. rewrite <- !app_assoc in *.
      destruct fuel as [|f].
      { exfalso. rewrite !length_app in Hf. change (length nl) with 1%nat in Hf. lia. }
      cbn [reconcile_loop map end_all]. rewrite next_row_reads by done. rewrite Hal, row_field_reads by done.
      destruct (session_end _ _ _ _ _ _ _) as [[w' rc] x]. apply (IH f (S i) _ w' nl); [|done].
      rewrite !length_app in *. change (length nl) with 1%nat in *.
      assert (0 < length (row_text r))%nat by (unfold row_text; rewrite length_app; change (length (str "<row ")) with 5%nat; lia). lia. }
  by apply Hloop.
Qed.
End reconciliation.

(** ** Runs *)

(** A table that takes everything and keeps what it was asked. *)
Definition demo_listing : list listed_row :=
  [mk_listed (str "number='1'>") (str "VARCHAR2") (str "one") (str "<field/>"); mk_listed (str "number='2'>") [] (str "two") []].

#[export] Instance demo_table : SessionDb (list (list ascii)) := {|
  db_insert r d := (ins_table r :: d, 0);
  db_update r d := (map key_value (upd_keys r) ++ d, 0);
  db_query q d := (q :: d, 0, Some (str "<resultset>" ++ rows_text demo_listing ++ str "</resultset>"));
  add_seconds_expr a b n := Some (a ++ str " + " ++ b);
  server_now := str "NOW" |}.

Definition demo_client : session_request := mk_session_request (str "CREATE_SESSION") (str "teller-7") [] (str "a|b") (str "ledger") 900.
Definition at_time (a : nat) (t : Z) : sm_env :=
  mk_sm_env [0x12; 0xff; 0; 7; 8; 9; 0xa; 0xbb; 0xc; 0xdd; 1; 2; 3; 4; 5; 6] t t 0 true (fun _ => true) a true.
Definition demo_world (c : cache) : session_world cache (list (list ascii)) := mk_sw (Some c) [] [] [].

Lemma demo_store_ok : store_ok demo.
Proof. split; [exact (reachable_inv demo (demo_reachable [] I ltac:(by eexists)))|reflexivity]. Qed.

Definition demo_created := session_create (fun _ => 0) (str "APP") 1800 (at_time 5 1000) demo_client (demo_world demo).

(** The same call without memory for the record. *)
Definition demo_lost := session_create (fun _ => 0) (str "APP") 1800
  (mk_sm_env (sm_rnd (at_time 5 1000)) 1000 1000 0 false (fun _ => true) 5%nat true) demo_client (demo_world demo).

(** It is announced, and refused at once. *)
Example announced_and_refused :
  snd (fst demo_lost) = SESSION_OK /\ is_Some (snd demo_lost) /\
  option_map (fun r => snd (fst r)) (session_validate false (at_time 6 1000) (sw_session_id (fst (fst demo_lost))) (fst (fst demo_lost))) =
    Some SESSION_ERR_NOT_FOUND.
Proof. split; [vm_compute; reflexivity|]. split; [vm_compute; by eexists|vm_compute; reflexivity]. Qed.

Lemma session_lifetime_witness :
  sw_session_id (fst (fst demo_created)) = tx_generate_uuid (sm_rnd (at_time 5 1000)) /\
  (exists w, session_validate false (at_time 6 1899) (tx_generate_uuid (sm_rnd (at_time 5 1000))) (fst (fst demo_created)) =
               Some (w, SESSION_OK, None)) /\
  exists w, session_validate false (at_time 6 1900) (tx_generate_uuid (sm_rnd (at_time 5 1000))) (fst (fst demo_created)) =
              Some (w, SESSION_ERR_NOT_FOUND, None).
Proof.
  pose proof (session_lifetime (fun _ => 0) (str "APP") 1800 (at_time 5 1000) demo_client (demo_world demo) demo (proj1 demo_store_ok) eq_refl
    ltac:(vm_compute; by intros ?%elem_of_nil) ltac:(vm_compute; reflexivity) ltac:(cbn; lia) ltac:(cbn; lia)
    ltac:(lia) ltac:(cbn; lia)) as H.
  unfold demo_created. destruct (session_create _ _ _ _ _ _) as [[w1 rc] x]. cbn [fst] in *.
  replace (snd (db_insert _ _) =? 0) with true in H by reflexivity. destruct H as (_ & H1 & H2 & _).
  destruct (H2 eq_refl (conj eq_refl eq_refl)) as [H3 _].
  split; [exact H1|]. split; [apply (H3 (at_time 6 1899))|apply (H3 (at_time 6 1900))]; cbn; lia.
Defined.

Definition demo_id : list ascii := session_id demo_session.
Definition demo_stored := fst (session_cache_store true (fun _ => true) 5 1700000000 demo (Some demo_session)).
Definition demo_half : session_world cache (list (list ascii)) :=
  match touch_read (at_time 7 1700000100) demo_id (demo_world demo_stored) with Some (w, _) => w | None => demo_world demo end.
Definition demo_end := session_end (fun _ => 0) (str "APP") (at_time 8 1700000100) demo_id SESSION_STATUS_LOGGED_OUT None demo_half.
Definition demo_after : session_world cache (list (list ascii)) := fst (fst demo_end).

Lemma demo_stored_ok : store_ok demo_stored.
Proof.
  pose proof (put_law demo 5 1700000000 (session_id demo_session) (sep_by bar (session_fields demo_session)) (session_opts demo_session)
    (proj1 demo_store_ok) eq_refl ltac:(lia) ltac:(vm_compute; by intros ?%elem_of_nil) ltac:(by intros s Hs; vm_compute in Hs)) as Hp.
  unfold demo_stored, session_cache_store. rewrite (encode_ok _ demo_session_ok).
  destruct (session_id demo_session) as [|x t] eqn:E; [discriminate E|].
  destruct (ks_put _ _ _ _ _ _ _) as [[c1 rc] fate]. by destruct Hp as (_ & _ & Hok1 & Hon1 & _).
Qed.

Lemma touch_revives_ended_session_witness :
  (exists w, session_validate false (at_time 8 1700000101) demo_id demo_after = Some (w, SESSION_ERR_NOT_FOUND, None)) /\
  exists w, session_validate false (at_time 8 1700000101) demo_id (fst (touch_write (at_time 7 1700000100) demo_session demo_after)) =
              Some (w, SESSION_OK, None).
Proof.
  pose proof (touch_revives_ended_session (fun _ => 0) (str "APP") (at_time 7 1700000100) demo_id (demo_world demo_stored) demo_stored
    (mk_stored (sep_by bar (session_fields demo_session)) 1700000900 false) demo_session demo_half (at_time 8 1700000100) SESSION_STATUS_LOGGED_OUT
    None demo_after (snd demo_end) (default demo (sw_cache demo_after)) demo_stored_ok eq_refl ltac:(vm_compute; reflexivity)
    ltac:(vm_compute; reflexivity) (decode_encoded _ demo_session_ok) demo_session_ok eq_refl ltac:(vm_compute; reflexivity)
    ltac:(cbn; lia) (conj eq_refl eq_refl) ltac:(cbn; lia) ltac:(cbn; lia) ltac:(vm_compute; reflexivity) ltac:(vm_compute; reflexivity)
    ltac:(vm_compute; reflexivity) ltac:(vm_compute; intros [Hx|Hx]%elem_of_cons; [discriminate Hx|by apply elem_of_nil in Hx])) as (H1 & H2).
  split; [apply (H1 (at_time 8 1700000101)); cbn; lia|].
  destruct (touch_write _ _ _) as [w3 rc]. destruct H2 as (_ & _ & H2). apply (H2 (at_time 8 1700000101)). cbn. lia.
Defined.

Lemma reconcile_ends_listed_witness :
  snd (session_reconcile_orphans (fun _ => 0) (str "APP") (fun i => at_time i 5000) (demo_world demo)) = 2.
Proof.
  rewrite (reconcile_ends_listed (fun _ => 0) (str "APP") (fun i => at_time i 5000) (demo_world demo) (str "CREATED_TS + TTL_SECONDS")
    [orphan_sql (str "CREATED_TS + TTL_SECONDS")] (str "<resultset>") demo_listing (str "</resultset>"));
    [vm_compute; reflexivity|reflexivity|reflexivity| |reflexivity|reflexivity|reflexivity].
  repeat constructor; vm_compute; reflexivity.
Defined.

(** The orphans are looked for by the time of creation: the activity that
    [session_touch_db] writes to the table plays no part. *)
Example orphans_by_creation : contains_ci (str "last_activity") (orphan_sql (str "CREATED_TS + TTL_SECONDS")) = false.
Proof. vm_compute. reflexivity. Qed.
