(* ===== verification/AuthManager.v ===== *)
(** * Authentication: src/src/infra/Auth_Manager.c and the verification of
    src/src/infra/crypt_helper.c

    [auth_authenticate] looks a user up, checks the credential - against the
    stored hash, or by a bind to a directory -, counts the failures, locks the
    account at the configured number, and opens a session.  The driver and the
    modules it calls are parameters: what a query answers, what an update
    does, the password hash, the bind, the JSON parser, the session and the
    audit trail.  Log lines, metrics and timings are left out. *)

From Stdlib Require Import Ascii String ZArith Lia Bool.
From stdpp Require Import base list strings numbers.
From S2P Require Import Prelude Text TransactionManager DdlModules Requests.

#[local] Open Scope Z_scope.

Definition AUTH_OK : Z := 0.
Definition AUTH_ERR_INVALID_ARG : Z := -1.
Definition AUTH_ERR_DENIED : Z := -2.
Definition AUTH_ERR_DB_FAILURE : Z := -4.
Definition AUTH_ERR_ALLOC : Z := -5.

(** ** Small helpers *)

(** A whole number: blanks, a sign, digits, then spaces only. *)
Definition auth_parse_int (text : list ascii) : option Z :=
  let s := skip isspace text in
  let unsigned := match s with c :: s' => if Ascii.eqb c "-" || Ascii.eqb c "+" then s' else s | [] => [] end in
  match span isdigit unsigned with
  | [] => None
  | _ =>
      match skip (fun c => Ascii.eqb c " ") (skip isdigit unsigned) with
      | [] => Some (i32 (atol text))
      | _ => None
      end
  end.

(** [auth_copy]: [None] when the text does not fit. *)
Definition auth_copy (dst_size : nat) (src : list ascii) : option (list ascii) :=
  if (dst_size <=? length src)%nat then None else Some src.

(** The value of an element, not trimmed. *)
Definition extract_session_field (xml : list ascii) (tag : string) (out_size : nat) : list ascii :=
  match strstr (open_tag tag) xml with
  | None => []
  | Some start =>
      let start := drop (length (open_tag tag)) start in
      match strstr (close_tag tag) start with
      | None => []
      | Some fin => take (out_size - 1) (between start fin)
      end
  end.

(** [snprintf(bind_dn, 384, pattern, username)]: one argument, so a second
    conversion, or one that is not ["%s"], is undefined. *)
Fixpoint format_dn (pattern username : list ascii) (used : bool) : option (list ascii) :=
  match pattern with
  | [] => Some []
  | c :: rest =>
      if Ascii.eqb c "%" then
        match rest with
        | d :: rest' =>
            if Ascii.eqb d "%" then cons "%"%char <$> format_dn rest' username used
            else if Ascii.eqb d "s" && negb used then app username <$> format_dn rest' username true
            else None
        | [] => None
        end
      else cons c <$> format_dn rest username used
  end.

(** ** Data *)

Record auth_user_row := mk_user {
  user_id : Z;
  user_display_name : list ascii;
  password_hash : list ascii;
  enabled : list ascii;
  locked : list ascii;
  failed_attempts : Z;
  source_type : list ascii;
  ldap_configuration : option (list ascii);
}.

Inductive lookup_result := Found (u : auth_user_row) | NoSuchUser | LookupFailed.

(** What the cursor of a query answers: the number of columns, then the rows
    of the first batch, or a failure. *)
Inductive cursor_answer := OpenFailed | Opened (col_count : Z) (rows : option (list (list (list ascii)))).

(** The row of the audit trail: the columns with their old and new value. *)
Record audit_row := mk_audit {
  record_id : list ascii;
  changed_by : list ascii;
  change_reason : list ascii;
  changes : list (list ascii * list ascii * list ascii);
}.

Record ldap_config := mk_ldap { ldap_host : option (list ascii); ldap_port : option Z; bind_dn_pattern : option (list ascii); use_tls : bool }.

Record auth_answer := mk_auth_answer { auth_rc : Z; new_session_id : list ascii; display_name : list ascii; ttl_seconds : Z }.

(** An answer without a session. *)
Definition denied (rc : Z) : auth_answer := mk_auth_answer rc [] [] 0.

(** The context and the database; [db] is whatever state it has. *)
Record auth_world (db : Type) := mk_auth_world { aw_ctx : tx_ctx; aw_db : db }.
Arguments mk_auth_world {db} _ _.
Arguments aw_ctx {db} _.
Arguments aw_db {db} _.

(** What the module calls. *)
Class AuthServices (db : Type) := {
  db_select : db -> list ascii -> list (list ascii) -> cursor_answer;
  db_dml : db -> list ascii -> list (list ascii) -> db * Z;
  db_commit : db -> db;
  db_rollback : db -> db;
  bind_placeholder : Z -> option (list ascii);
  now_expr : list ascii;
  pwhash_verify : list ascii -> list ascii -> bool;
  ldap_bind_ok : list ascii -> list ascii -> list ascii -> bool;
  parse_configuration : list ascii -> option ldap_config;
  session_create : list ascii -> auth_world db -> auth_world db * Z * option (list ascii);
  audit_trail_insert : audit_row -> auth_world db -> auth_world db * Z;
  build_permission_cache : list ascii -> Z -> auth_world db -> auth_world db;
}.

(** [crypt_verify_password(...) == CRYPT_OK]. *)
Definition crypt_verify_password `{AuthServices db} (password hash : list ascii) : bool :=
  negb (Nat.eqb (length password) 0) && negb (Nat.eqb (length hash) 0) && pwhash_verify hash password.

Section auth.
Context {db : Type} `{AuthServices db} (max_failed_attempts : Z).
Implicit Types (w : auth_world db).

Definition auth_placeholder (pos : Z) : option (list ascii) := bind_placeholder pos.

(** 0: committed; -1: the update failed; -2: the commit failed. *)
Definition auth_update_and_commit (sql : list ascii) (binds : list (list ascii)) w : auth_world db * Z :=
  let '(d, rc) := db_dml (aw_db w) sql binds in
  if negb (rc =? 0) then (mk_auth_world (aw_ctx w) d, -1)
  else
    let ini := default (mk_tx_ini 0 0 0) (ctx_ini (aw_ctx w)) in
    let '(c, commit_rc, _) := tx_commit_with_retry (aw_ctx w) (ini_retries ini) (ini_delay ini) in
    if negb (commit_rc =? 0) then (mk_auth_world (fst (tx_driver_rollback c)) (db_rollback d), -2)
    else (mk_auth_world c (db_commit d), 0).

(** ** The user *)

Definition lookup_sql (ph : list ascii) : list ascii :=
  take 511 (str "SELECT u.USER_ID, u.DISPLAY_NAME, u.PASSWORD_HASH,        u.ENABLED, u.LOCKED, u.FAILED_ATTEMPTS, s.SOURCE_TYPE,        s.CONFIGURATION FROM   APP_USER u JOIN   AUTH_SOURCE s ON s.AUTH_SOURCE_ID = u.AUTH_SOURCE_ID WHERE  UPPER(u.USERNAME) = UPPER(" ++
            ph ++ str ")").

(** [al]: the copy of the configuration is allocated. *)
Definition lookup_user (al : bool) (username : list ascii) w : lookup_result :=
  match auth_placeholder 1 with
  | None => LookupFailed
  | Some ph =>
      match db_select (aw_db w) (lookup_sql ph) [username] with
      | OpenFailed => LookupFailed
      | Opened col_count rows =>
          if negb (col_count =? 8) then LookupFailed
          else
            match rows with
            | None => LookupFailed
            | Some [] => NoSuchUser
            | Some (f :: _) =>
                let field i := nth i f [] in
                default LookupFailed
                  (id ← auth_parse_int (field 0%nat); failed ← auth_parse_int (field 5%nat);
                   display ← auth_copy 256 (field 1%nat); hash ← auth_copy 256 (field 2%nat);
                   en ← auth_copy 2 (field 3%nat); lo ← auth_copy 2 (field 4%nat); src ← auth_copy 21 (field 6%nat);
                   match field 7%nat with
                   | [] => Some (Found (mk_user id display hash en lo failed src None))
                   | conf => if al then Some (Found (mk_user id display hash en lo failed src (Some conf))) else None
                   end)
            end
      end
  end.

(** ** Counting *)

Definition failure_sql (should_lock : bool) (p1 now p2 : list ascii) : list ascii :=
  take 511
    (if should_lock then
       str "UPDATE APP_USER SET    FAILED_ATTEMPTS = " ++ p1 ++ str ",        LOCKED = 'Y', LOCKED_TS = " ++ now ++
       str ",        MODIFIED_TS = " ++ now ++ str " WHERE  USER_ID = " ++ p2
     else
       str "UPDATE APP_USER SET    FAILED_ATTEMPTS = " ++ p1 ++ str ",        MODIFIED_TS = " ++ now ++ str " WHERE  USER_ID = " ++ p2).

Definition record_auth_failure (id : Z) (username : list ascii) (current_failed_attempts : Z) w : auth_world db :=
  let new_failed_attempts := i32 (current_failed_attempts + 1) in
  let should_lock := max_failed_attempts <=? new_failed_attempts in
  match auth_placeholder 1, auth_placeholder 2 with
  | Some p1, Some p2 =>
      let '(w, upd_rc) := auth_update_and_commit (failure_sql should_lock p1 now_expr p2) [print_int new_failed_attempts; print_int id] w in
      if negb (upd_rc =? 0) then w
      else
        let atr := mk_audit (print_int id) (take 99 username)
          (if should_lock then str "Account locked after " ++ print_int new_failed_attempts ++ str " failed login attempts (manual unlock only)"
           else str "Failed login attempt")
          ((str "FAILED_ATTEMPTS", print_int current_failed_attempts, print_int new_failed_attempts) ::
           (if should_lock then [(str "LOCKED", str "N", str "Y")] else [])) in
        fst (audit_trail_insert atr w)
  | _, _ => w
  end.

Definition success_sql (p1 now : list ascii) : list ascii :=
  take 511 (str "UPDATE APP_USER SET    FAILED_ATTEMPTS = 0, LAST_LOGIN_TS = " ++ now ++ str ",        MODIFIED_TS = " ++ now ++
            str " WHERE  USER_ID = " ++ p1).

Definition record_auth_success (id : Z) (username : list ascii) (previous_failed_attempts : Z) w : auth_world db :=
  match auth_placeholder 1 with
  | None => w
  | Some p1 =>
      let '(w, upd_rc) := auth_update_and_commit (success_sql p1 now_expr) [print_int id] w in
      if negb (upd_rc =? 0) then w
      else if 0 <? previous_failed_attempts then
        fst (audit_trail_insert
               (mk_audit (print_int id) (take 99 username) (str "Successful login - failed attempt counter reset")
                  [(str "FAILED_ATTEMPTS", print_int previous_failed_attempts, str "0")]) w)
      else w
  end.

(** ** The credential *)

(** Whether it is right, and the world after; [None]: undefined. *)
Definition check_credential (u : auth_user_row) (username credential : list ascii) w : option (auth_world db * bool) :=
  if ci_eqb (source_type u) (str "LOCAL") then
    if crypt_verify_password credential (password_hash u) then Some (w, true)
    else Some (record_auth_failure (user_id u) username (failed_attempts u) w, false)
  else if ci_eqb (source_type u) (str "LDAP") || ci_eqb (source_type u) (str "AD") then
    match ldap_configuration u with
    | None => Some (w, false)
    | Some conf =>
        match parse_configuration conf with
        | Some (mk_ldap (Some host) (Some port) (Some pattern) tls) =>
            let ldap_url := take 255 ((if tls then str "ldaps" else str "ldap") ++ str "://" ++ host ++ str ":" ++ print_int port) in
            dn ← format_dn pattern username false;
            Some (w, ldap_bind_ok ldap_url (take 383 dn) credential)
        | _ => Some (w, false)
        end
    end
  else Some (w, false).

(** ** The call; [al]: the copies of the configuration, the session id and
    the display name are allocated *)

Definition auth_authenticate (al : nat -> bool) (req : authenticate_request) w : option (auth_world db * auth_answer) :=
  let name := auth_username req in
  if Nat.eqb (length name) 0 || Nat.eqb (length (credential req)) 0 then Some (w, denied AUTH_ERR_INVALID_ARG)
  else
    match lookup_user (al 0%nat) name w with
    | LookupFailed => Some (w, denied AUTH_ERR_DB_FAILURE)
    | NoSuchUser => Some (w, denied AUTH_ERR_DENIED)
    | Found u =>
        if negb (str_eqb (enabled u) (str "Y")) then Some (w, denied AUTH_ERR_DENIED)
        else if str_eqb (locked u) (str "Y") then Some (w, denied AUTH_ERR_DENIED)
        else
          '(w, credential_ok) ← check_credential u name (credential req) w;
          if negb credential_ok then Some (w, denied AUTH_ERR_DENIED)
          else
            let '(w, session_rc, session_xml) := session_create (take 127 name) w in
            match session_xml with
            | Some xml =>
                if negb (session_rc =? 0) then Some (w, denied AUTH_ERR_DB_FAILURE)
                else
                  let sid := extract_session_field xml "session_id" 64 in
                  let ttl := extract_session_field xml "ttl_seconds" 16 in
                  if Nat.eqb (length sid) 0 then Some (w, denied AUTH_ERR_DB_FAILURE)
                  else if negb (al 1%nat && al 2%nat) then Some (w, denied AUTH_ERR_ALLOC)
                  else
                    let w := record_auth_success (user_id u) name (failed_attempts u) w in
                    let w := build_permission_cache sid (user_id u) w in
                    Some (w, mk_auth_answer AUTH_OK sid (match user_display_name u with [] => name | n => n end)
                               (match ttl with [] => 0 | _ => atoi ttl end))
            | None => Some (w, denied AUTH_ERR_DB_FAILURE)
            end
    end.
End auth.

(** ** Numbers in a row *)

Lemma i32_id n : - 2 ^ 31 <= n < 2 ^ 31 -> i32 n = n.
Proof.
  intros H. unfold i32. cbv zeta. destruct (Z.ltb_spec (n mod 2 ^ 32) (2 ^ 31)).
  - destruct (Z.ltb_spec n 0); [|rewrite Z.mod_small; lia].
    rewrite <- (Z.mod_add n 1) in * by lia. rewrite Z.mod_small in *; lia.
  - destruct (Z.ltb_spec n 0); [|rewrite Z.mod_small in *; lia].
    rewrite <- (Z.mod_add n 1) by lia. rewrite Z.mod_small; lia.
Qed.

Lemma digits_spanned s : Forall (fun c => isdigit c = true) s -> span isdigit s = s /\ skip isdigit s = [].
Proof. induction 1 as [|c s Hc _ [IH1 IH2]]; [done|]. cbn [span skip]. by rewrite Hc, IH1, IH2. Qed.

Lemma parse_print_int n : - 2 ^ 31 <= n < 2 ^ 31 -> auth_parse_int (print_int n) = Some n.
Proof.
  intros H. unfold auth_parse_int.
  assert (forall m, 0 <= m -> exists c s, print_dec m = c :: s /\ isdigit c = true /\ span isdigit (c :: s) = c :: s /\ skip isdigit (c :: s) = []) as Hd.
  { intros m _. destruct (print_dec_head m) as (c & s & E & Hc). exists c, s. split_and!; [done|done|..];
      destruct (digits_spanned (print_dec m) (print_dec_digits m)) as [H1 H2]; by rewrite <- E. }
  assert (i32 (atol (print_int n)) = n) as Hv by (rewrite atol_print_int by lia; by apply i32_id).
  unfold print_int in *. destruct (Z.ltb_spec n 0).
  - destruct (Hd (- n) ltac:(lia)) as (c & s & E & _ & H1 & H2).
    rewrite skip_id by done. change (Ascii.eqb "-" "-") with true. cbn [orb]. rewrite E in *. rewrite H1, H2. by rewrite Hv.
  - destruct (Hd n ltac:(lia)) as (c & s & E & Hc & H1 & H2). rewrite E in *.
    rewrite skip_id by (by apply isdigit_not_space).
    replace (Ascii.eqb c "-" || Ascii.eqb c "+") with false by (revert Hc; clear; all_ascii c).
    rewrite H1, H2. by rewrite Hv.
Qed.

(** ** What an APP_USER row says *)

Record account := mk_account {
  ac_id : Z; ac_display : list ascii; ac_hash : list ascii; ac_enabled : bool; ac_locked : bool; ac_failed : Z;
  ac_source : list ascii; ac_config : list ascii }.

Definition flag (b : bool) : list ascii := if b then str "Y" else str "N".
Definition fields (a : account) : list (list ascii) :=
  [print_int (ac_id a); ac_display a; ac_hash a; flag (ac_enabled a); flag (ac_locked a); print_int (ac_failed a);
   ac_source a; ac_config a].
Definition row_of (a : account) : auth_user_row :=
  mk_user (ac_id a) (ac_display a) (ac_hash a) (flag (ac_enabled a)) (flag (ac_locked a)) (ac_failed a) (ac_source a)
    (match ac_config a with [] => None | c => Some c end).

Lemma flag_length b : (length (flag b) < 2)%nat.
Proof. destruct b; apply Nat.ltb_lt; reflexivity. Qed.

Lemma auth_copy_fits n s : (length s < n)%nat -> auth_copy n s = Some s.
Proof. intros H. unfold auth_copy. destruct (Nat.leb_spec n (length s)); [lia|done]. Qed.

(** The columns have room for it. *)
Definition fits (a : account) : Prop :=
  - 2 ^ 31 <= ac_id a < 2 ^ 31 /\ - 2 ^ 31 <= ac_failed a < 2 ^ 31 /\
  (length (ac_display a) < 256)%nat /\ (length (ac_hash a) < 256)%nat /\ (length (ac_source a) < 21)%nat.

Definition set_failures (n : Z) (lock : bool) (a : account) : account :=
  mk_account (ac_id a) (ac_display a) (ac_hash a) (ac_enabled a) (ac_locked a || lock) n (ac_source a) (ac_config a).

(** What the statements do to the accounts, as their text says: the lookup
    finds the account of the name, the updates set the columns of the one with
    the id; and nothing else of what is called touches an account. *)
Definition ctx_grows (c c' : tx_ctx) : Prop :=
  active_tx c' = active_tx c /\ driver c' = driver c /\ exists evs, drv_log c' = drv_log c ++ evs.

Class AuthLaws {db} (S : AuthServices db) (account_of : db -> list ascii -> option account) := {
  law_placeholder i : is_Some (bind_placeholder i);
  law_select d name ph : bind_placeholder 1 = Some ph ->
    db_select d (lookup_sql ph) [name] = Opened 8 (Some (match account_of d name with Some a => [fields a] | None => [] end));
  law_failure d lock p1 p2 n id : - 2 ^ 31 <= n < 2 ^ 31 -> - 2 ^ 31 <= id < 2 ^ 31 -> bind_placeholder 1 = Some p1 -> bind_placeholder 2 = Some p2 ->
    let '(d', rc) := db_dml d (failure_sql lock p1 now_expr p2) [print_int n; print_int id] in
    rc = 0 -> forall name, account_of (db_commit d') name =
      (fun a => if ac_id a =? id then set_failures n lock a else a) <$> account_of d name;
  law_audit row w : let w' := fst (audit_trail_insert row w) in
    ctx_grows (aw_ctx w) (aw_ctx w') /\ forall name, account_of (aw_db w') name = account_of (aw_db w) name;
  law_success d p1 id : bind_placeholder 1 = Some p1 -> snd (db_dml d (success_sql p1 now_expr) [print_int id]) = 0;
  law_session name w : ctx_grows (aw_ctx w) (aw_ctx (fst (fst (session_create name w))));
  law_cache sid id w : ctx_grows (aw_ctx w) (aw_ctx (build_permission_cache sid id w));
}.

Section laws.
Context {db} {S : AuthServices db} {account_of} `{!AuthLaws S account_of} (max_failed_attempts : Z).
Implicit Types (w : auth_world db) (name : list ascii) (a : account).

Lemma lookup_account al name w a :
  account_of (aw_db w) name = Some a -> fits a -> al = true -> lookup_user al name w = Found (row_of a).
Proof.
  intros Ha (H1 & H2 & H3 & H4 & H5) ->. unfold lookup_user, auth_placeholder.
  destruct (law_placeholder 1) as [ph Hp]. rewrite Hp, (law_select _ _ _ Hp), Ha. cbn [Z.eqb Pos.eqb negb fields nth].
  rewrite !parse_print_int by done. cbn [mbind option_bind].
  repeat (rewrite auth_copy_fits by (done || apply flag_length); cbn [mbind option_bind]). unfold row_of. by destruct (ac_config a).
Qed.

(** The database accepts every commit. *)
Definition commits w : Prop := drv_commit (driver (aw_ctx w)) = Some (fun _ => 0).

(** It accepts every UPDATE that counts a wrong password. *)
Definition counts_accepted : Prop := forall d lock p1 p2 n id, bind_placeholder 1 = Some p1 -> bind_placeholder 2 = Some p2 ->
  snd (db_dml d (failure_sql lock p1 now_expr p2) [print_int n; print_int id]) = 0.

Lemma commit_accepted c r d : drv_commit (driver c) = Some (fun _ => 0) -> 
  exists c', tx_commit_with_retry c r d = (c', 0, 1) /\ driver c' = driver c /\ drv_log c' = drv_log c ++ [EvCommit 0].
Proof. intros E. unfold tx_commit_with_retry. rewrite E. cbn. eexists. by split_and!. Qed.

Lemma failure_recorded id name cur w :
  commits w -> counts_accepted -> - 2 ^ 31 <= id < 2 ^ 31 -> - 2 ^ 31 <= cur < 2 ^ 31 - 1 ->
  let w' := record_auth_failure max_failed_attempts id name cur w in
  commits w' /\ forall n, account_of (aw_db w') n =
    (fun a => if ac_id a =? id then set_failures (cur + 1) (max_failed_attempts <=? cur + 1) a else a) <$> account_of (aw_db w) n.
Proof.
  intros Hc Hu Hid Hr. cbv zeta. unfold record_auth_failure, auth_placeholder.
  destruct (law_placeholder 1) as [p1 Hp1], (law_placeholder 2) as [p2 Hp2]. rewrite Hp1, Hp2, i32_id by lia.
  unfold auth_update_and_commit.
  pose proof (law_failure (aw_db w) (max_failed_attempts <=? cur + 1) p1 p2 (cur + 1) id ltac:(lia) Hid Hp1 Hp2) as Hl.
  specialize (Hu (aw_db w) (max_failed_attempts <=? cur + 1) p1 p2 (cur + 1) id Hp1 Hp2).
  destruct (db_dml _ _ _) as [d rc]. cbn [snd] in Hu. subst rc. specialize (Hl eq_refl). cbn [Z.eqb negb].
  destruct (commit_accepted (aw_ctx w) (ini_retries (default (mk_tx_ini 0 0 0) (ctx_ini (aw_ctx w))))
              (ini_delay (default (mk_tx_ini 0 0 0) (ctx_ini (aw_ctx w)))) Hc) as (c' & -> & Hd & _). cbn [Z.eqb negb].
  match goal with |- context [audit_trail_insert ?r ?v] => destruct (law_audit r v) as [(_ & H1 & _) H2] end.
  cbn [aw_ctx aw_db] in *. split; [unfold commits; congruence|]. intros n. by rewrite H2.
Qed.
End laws.

(** ** Lockout *)

(** One wrong password, as the module means it: a locked account stays as it
    is, another one counts it and is locked when the count reaches [max]. *)
Definition bad_attempt (max : Z) (a : account) : account :=
  if ac_locked a then a else set_failures (ac_failed a + 1) (max <=? ac_failed a + 1) a.

(** Passwords tried one after the other: the answers, in order. *)
Fixpoint logins {db} `{AuthServices db} (max : Z) (al : nat -> bool) (name : list ascii) (tries : list (list ascii)) (w : auth_world db)
    : option (auth_world db * list auth_answer) :=
  match tries with
  | [] => Some (w, [])
  | cred :: tries' =>
      '(w, ans) ← auth_authenticate max al (mk_authenticate name cred) w;
      '(w, answers) ← logins max al name tries' w; Some (w, ans :: answers)
  end.

Lemma bad_attempts_lock max a n :
  ac_locked (Nat.iter n (bad_attempt max) a) = true <-> ac_locked a = true \/ (1 <= n)%nat /\ max <= ac_failed a + Z.of_nat n.
Proof.
  assert (forall k, ac_locked a = false -> ac_locked (Nat.iter k (bad_attempt max) a) = false ->
            ac_failed (Nat.iter k (bad_attempt max) a) = ac_failed a + Z.of_nat k) as Hf.
  { induction k as [|k IH]; intros Ha Hk; [cbn; lia|]. cbn [Nat.iter nat_rect] in *. unfold bad_attempt at 1 in Hk. unfold bad_attempt at 1.
    change (nat_rect (fun _ => account) a (fun _ => bad_attempt max) k) with (Nat.iter k (bad_attempt max) a) in *.
    destruct (ac_locked (Nat.iter k (bad_attempt max) a)) eqn:El; [congruence|]. cbn [ac_failed set_failures]. rewrite IH by done. lia. }
  induction n as [|n IH]; [cbn; intuition lia|]. cbn [Nat.iter nat_rect]. unfold bad_attempt at 1.
  change (nat_rect (fun _ => account) a (fun _ => bad_attempt max) n) with (Nat.iter n (bad_attempt max) a) in *.
  destruct (ac_locked (Nat.iter n (bad_attempt max) a)) eqn:El.
  - rewrite El. split; [|done]. intros _. destruct (proj1 IH eq_refl) as [|[]]; [by left|right; lia].
  - cbn [ac_locked set_failures]. rewrite El. cbn [orb].
    assert (ac_locked a = false) as Ha by (destruct (ac_locked a); [|done]; destruct IH as [_ IH]; by specialize (IH (or_introl eq_refl))).
    rewrite (Hf n Ha El), Ha, Z.leb_le. split; [intros; right; lia|]. intros [|[]]; [done|lia].
Qed.

Section lockout.
Context {db} {S : AuthServices db} {account_of} `{!AuthLaws S account_of} (max : Z) (al : nat -> bool) (name : list ascii).
Implicit Types (w : auth_world db) (a : account) (cred : list ascii).

(** An account that checks its own passwords. *)
Definition local_account a : Prop := fits a /\ ac_enabled a = true /\ ci_eqb (ac_source a) (str "LOCAL") = true.

Lemma locked_is_denied w a cred :
  al 0%nat = true -> name <> [] -> cred <> [] -> account_of (aw_db w) name = Some a -> local_account a -> ac_locked a = true ->
  auth_authenticate max al (mk_authenticate name cred) w = Some (w, denied AUTH_ERR_DENIED).
Proof.
  intros Hal Hn Hc Ha (Hf & He & Hs) Hl. unfold auth_authenticate. cbn [auth_username credential].
  destruct name as [|n0 name']; [done|]. destruct cred as [|c0 cred']; [done|]. cbn [length Nat.eqb orb].
  rewrite (lookup_account _ _ _ _ Ha Hf Hal). cbn [enabled locked row_of]. by rewrite He, Hl.
Qed.

(** A wrong password is denied, whatever becomes of the count. *)
Lemma wrong_is_denied w a cred :
  al 0%nat = true -> name <> [] -> cred <> [] -> account_of (aw_db w) name = Some a -> local_account a -> ac_locked a = false ->
  crypt_verify_password cred (ac_hash a) = false ->
  auth_authenticate max al (mk_authenticate name cred) w = Some (record_auth_failure max (ac_id a) name (ac_failed a) w, denied AUTH_ERR_DENIED).
Proof.
  intros Hal Hn Hc Ha (Hf & He & Hs) Hl Hv. unfold auth_authenticate. cbn [auth_username credential].
  destruct name as [|n0 name']; [done|]. destruct cred as [|c0 cred']; [done|]. cbn [length Nat.eqb orb].
  rewrite (lookup_account _ _ _ _ Ha Hf Hal). cbn [enabled locked row_of]. rewrite He, Hl. cbn [flag str_eqb].
  change (negb (str_eqb (str "Y") (str "Y"))) with false. change (str_eqb (str "N") (str "Y")) with false. cbn iota.
  unfold check_credential. cbn [source_type row_of user_id failed_attempts password_hash]. rewrite Hs, Hv. reflexivity.
Qed.

Lemma wrong_is_counted w a cred :
  al 0%nat = true -> name <> [] -> cred <> [] -> commits w -> counts_accepted -> account_of (aw_db w) name = Some a -> local_account a ->
  ac_locked a = false -> ac_failed a < 2 ^ 31 - 1 -> crypt_verify_password cred (ac_hash a) = false ->
  exists w', auth_authenticate max al (mk_authenticate name cred) w = Some (w', denied AUTH_ERR_DENIED) /\
    commits w' /\ account_of (aw_db w') name = Some (bad_attempt max a).
Proof.
  intros Hal Hn Hc Hok Hu Ha Hlo Hl Hlt Hv. rewrite (wrong_is_denied w a cred) by done.
  destruct Hlo as ((Hid & Hf & _) & _).
  destruct (failure_recorded max (ac_id a) name (ac_failed a) w Hok Hu Hid ltac:(lia)) as [H1 H2].
  eexists. split; [reflexivity|]. split; [done|]. rewrite H2, Ha. cbn. rewrite Z.eqb_refl. unfold bad_attempt. by rewrite Hl.
Qed.
End lockout.

(** C6: wrong passwords lock an account.  An enabled account of the source
    LOCAL is tried with one wrong, non-empty password after the other; there is
    memory for the lookup, and the count stays below 2^31.  Each attempt is
    answered DENIED, also one whose UPDATE or commit the database refuses.  As
    long as it accepts the UPDATE and the commit of every attempt, the account
    afterwards is what the counter makes of it: each attempt up to the one that
    locks adds one, and the account is locked exactly when it was before or
    the count has reached the configured number.  Once it is locked, every
    password - the right one too - is denied, and the world stays as it is, so
    that no attempt unlocks it. *)
Theorem wrong_passwords_lock {db} {S : AuthServices db} {account_of} `{!AuthLaws S account_of} (max : Z) (al : nat -> bool)
    (name : list ascii) (tries : list (list ascii)) (w : auth_world db) (a : account) :
  al 0%nat = true -> name <> [] -> account_of (aw_db w) name = Some a -> local_account a ->
  ac_failed a + Z.of_nat (length tries) < 2 ^ 31 -> Forall (fun cred => cred <> [] /\ crypt_verify_password cred (ac_hash a) = false) tries ->
  (forall cred, In cred tries -> exists w1, auth_authenticate max al (mk_authenticate name cred) w = Some (w1, denied AUTH_ERR_DENIED)) /\
  (commits w -> counts_accepted ->
   let after := Nat.iter (length tries) (bad_attempt max) a in
   exists w', logins max al name tries w = Some (w', replicate (length tries) (denied AUTH_ERR_DENIED)) /\
     account_of (aw_db w') name = Some after /\
     (ac_locked after = true <-> ac_locked a = true \/ (1 <= length tries)%nat /\ max <= ac_failed a + Z.of_nat (length tries)) /\
     (ac_locked after = true -> forall cred, cred <> [] ->
        auth_authenticate max al (mk_authenticate name cred) w' = Some (w', denied AUTH_ERR_DENIED))).
Proof.
  intros Hal Hn Ha Hlo Hlt Hw. split.
  { intros cred Hin. rewrite List.Forall_forall in Hw. destruct (Hw cred Hin) as [Hc Hv]. destruct (ac_locked a) eqn:Hl.
    - eexists. by apply (locked_is_denied max al name w a).
    - eexists. by apply (wrong_is_denied max al name w a). }
  intros Hok Hu. cbv zeta.
  enough (exists w', logins max al name tries w = Some (w', replicate (length tries) (denied AUTH_ERR_DENIED)) /\
            account_of (aw_db w') name = Some (Nat.iter (length tries) (bad_attempt max) a) /\
            local_account (Nat.iter (length tries) (bad_attempt max) a)) as (w' & H1 & H2 & H3).
  { exists w'. split_and!; [done|done|apply bad_attempts_lock|]. intros Hl cred Hc. by eapply locked_is_denied. }
  revert w a Hok Ha Hlo Hlt Hw. induction tries as [|cred tries IH]; intros w a Hok Ha Hlo Hlt Hw; [by exists w|].
  apply Forall_cons_iff in Hw as [[Hc Hv] Hw]. cbn [logins length] in *.
  rewrite Nat.iter_succ_r. destruct (ac_locked a) eqn:Hl.
  - assert (bad_attempt max a = a) as Hb by (unfold bad_attempt; by rewrite Hl). rewrite Hb.
    rewrite (locked_is_denied max al name w a cred) by done. cbn [mbind option_bind].
    destruct (IH w a) as (w' & -> & H2 & H3); [done..|lia|done|]. by exists w'.
  - destruct (wrong_is_counted max al name w a cred) as (w1 & -> & Hok1 & Ha1); [done..|lia|done|]. cbn [mbind option_bind].
    assert (ac_hash (bad_attempt max a) = ac_hash a) as Hh by (unfold bad_attempt; by rewrite Hl).
    assert (ac_failed (bad_attempt max a) = ac_failed a + 1) as Hf1 by (unfold bad_attempt; by rewrite Hl).
    destruct (IH w1 (bad_attempt max a)) as (w' & -> & H2 & H3); [done|done| |lia|by rewrite Hh|by exists w'].
    destruct Hlo as ((? & ? & ?) & ? & ?). unfold local_account, fits, bad_attempt. rewrite Hl. cbn. split_and!; try done; lia.
Qed.

(** The count is not read and written in one step.  However many wrong
    passwords are tried by sessions that looked the account up before the
    first of them was recorded, the account counts one. *)
Theorem concurrent_failures_count_once {db} {S : AuthServices db} {account_of} `{!AuthLaws S account_of} (max : Z)
    (name : list ascii) (w : auth_world db) (a : account) (n : nat) :
  commits w -> counts_accepted -> account_of (aw_db w) name = Some a -> fits a -> ac_failed a < 2 ^ 31 - 1 ->
  let w' := Nat.iter (Datatypes.S n) (record_auth_failure max (ac_id a) name (ac_failed a)) w in
  option_map ac_failed (account_of (aw_db w') name) = Some (ac_failed a + 1) /\
  (ac_locked a = false -> ac_failed a + 1 < max -> option_map ac_locked (account_of (aw_db w') name) = Some false).
Proof.
  intros Hok Hu Ha (Hid & Hf & _) Hlt. cbv zeta.
  set (lock := max <=? ac_failed a + 1).
  enough (let w' := Nat.iter (Datatypes.S n) (record_auth_failure max (ac_id a) name (ac_failed a)) w in
          commits w' /\ exists b, account_of (aw_db w') name = Some b /\ ac_id b = ac_id a /\ ac_failed b = ac_failed a + 1 /\
            ac_locked b = (ac_locked a || lock)) as (_ & b & -> & _ & H1 & H2).
  { cbn [option_map]. rewrite H1, H2. split; [done|]. intros -> Hm. subst lock. destruct (Z.leb_spec max (ac_failed a + 1)); [lia|done]. }
  induction n as [|n IH].
  - destruct (failure_recorded max (ac_id a) name (ac_failed a) w Hok Hu Hid ltac:(lia)) as [H1 H2]. split; [exact H1|].
    eexists. cbn [Nat.iter nat_rect]. rewrite H2, Ha. cbn [fmap option_fmap option_map]. rewrite Z.eqb_refl. by split_and!.
  - destruct IH as (Hc & b & Hb & Hi & H1 & H2). cbv zeta. rewrite Nat.iter_succ.
    destruct (failure_recorded max (ac_id a) name (ac_failed a) _ Hc Hu Hid ltac:(lia)) as [K1 K2]. split; [exact K1|].
    eexists. rewrite K2, Hb. cbn [fmap option_fmap option_map]. rewrite Hi, Z.eqb_refl. split_and!; [done|done|done|].
    cbn [ac_locked set_failures]. rewrite H2. fold lock. clearbody lock. by destruct (ac_locked a), lock.
Qed.

(** ** Who gets a session *)

(** C21: a session is opened only for a user who exists, is enabled and not
    locked, and whose credential was verified by the source of the account:
    the password hash, or the directory of its configuration.  Every other
    answer carries neither a session nor a name. *)
Theorem session_needs_credential {db} `{AuthServices db} (max : Z) (al : nat -> bool) (req : authenticate_request) (w w' : auth_world db)
    (ans : auth_answer) :
  auth_authenticate max al req w = Some (w', ans) ->
  (auth_rc ans <> AUTH_OK /\ ans = denied (auth_rc ans)) \/
  (exists u, auth_rc ans = AUTH_OK /\ new_session_id ans <> [] /\ lookup_user (al 0%nat) (auth_username req) w = Found u /\
     enabled u = str "Y" /\ locked u <> str "Y" /\
     (ci_eqb (source_type u) (str "LOCAL") = true /\ pwhash_verify (password_hash u) (credential req) = true \/
      exists conf host port pattern dn tls, ldap_configuration u = Some conf /\
        parse_configuration conf = Some (mk_ldap (Some host) (Some port) (Some pattern) tls) /\
        format_dn pattern (auth_username req) false = Some dn /\
        ldap_bind_ok (take 255 ((if tls then str "ldaps" else str "ldap") ++ str "://" ++ host ++ str ":" ++ print_int port))
          (take 383 dn) (credential req) = true)).
Proof.
  unfold auth_authenticate. destruct (_ || _); [intros [= <- <-]; by left|].
  destruct (lookup_user _ _ _) as [u| |] eqn:El; [|intros [= <- <-]; by left..].
  destruct (str_eqb (enabled u) (str "Y")) eqn:Ee; cbn [negb]; [|intros [= <- <-]; by left].
  destruct (str_eqb (locked u) (str "Y")) eqn:Ek; [intros [= <- <-]; by left|].
  destruct (check_credential _ _ _ _ _) as [[w1 []]|] eqn:Ec; cbn [mbind option_bind negb]; [|intros [= <- <-]; by left|done].
  destruct (session_create _ _) as [[w2 rc] [xml|]]; [|intros [= <- <-]; by left].
  destruct (rc =? 0); cbn [negb]; [|intros [= <- <-]; by left].
  destruct (Nat.eqb_spec (length (extract_session_field xml "session_id" 64)) 0) as [|Hs]; [intros [= <- <-]; by left|].
  destruct (al 1%nat && al 2%nat); cbn [negb]; intros [= <- <-]; [|by left].
  right. exists u. cbn [auth_rc new_session_id]. apply bool_decide_eq_true in Ee. apply bool_decide_eq_false in Ek.
  split_and!; [done| |done|done|done|]. { intros E. by rewrite E in Hs. }
  revert Ec. unfold check_credential. destruct (ci_eqb (source_type u) (str "LOCAL")).
  - unfold crypt_verify_password. destruct (_ && _) eqn:Ev; [|done]. intros _. left. split; [done|]. by apply andb_prop in Ev as [_ ?].
  - destruct (_ || _); [|done]. destruct (ldap_configuration u) as [conf|]; [|done].
    destruct (parse_configuration conf) as [[[host|] [port|] [pattern|] tls]|] eqn:Ep; try done.
    destruct (format_dn pattern (auth_username req) false) as [dn|] eqn:Ed; [|done]. cbn [mbind option_bind]. intros [= _ Hb].
    right. by exists conf, host, port, pattern, dn, tls.
Qed.

(** ** What it asks of the driver *)

Lemma grows_refl c : ctx_grows c c.
Proof. split_and!; [done..|]. exists []. by rewrite app_nil_r. Qed.

Lemma grows_trans c c1 c2 : ctx_grows c c1 -> ctx_grows c1 c2 -> ctx_grows c c2.
Proof.
  intros (H1 & H2 & e1 & H3) (K1 & K2 & e2 & K3). split_and!; [congruence..|]. exists (e1 ++ e2). by rewrite K3, H3, app_assoc.
Qed.

Section driver.
Context {db} {S : AuthServices db} {account_of} `{!AuthLaws S account_of} (max : Z).
Implicit Types (w : auth_world db).

Lemma audit_grows row w : ctx_grows (aw_ctx w) (aw_ctx (fst (audit_trail_insert row w))).
Proof. by destruct (law_audit row w). Qed.

Lemma update_grows sql binds w : ctx_grows (aw_ctx w) (aw_ctx (fst (auth_update_and_commit sql binds w))).
Proof.
  unfold auth_update_and_commit. destruct (db_dml _ _ _) as [d rc]. destruct (negb (rc =? 0)); [apply grows_refl|].
  set (r := ini_retries _). set (t := ini_delay _).
  destruct (commit_events (aw_ctx w) r t) as (evs & H1 & _). pose proof (retry_frame (aw_ctx w) r t) as [H2 H3].
  destruct (tx_commit_with_retry _ r t) as [[c rc2] n]. cbn [fst snd] in *.
  assert (ctx_grows (aw_ctx w) c) as Hg by (split_and!; [done..|by exists evs]).
  destruct (negb (rc2 =? 0)); [|exact Hg]. cbn [fst aw_ctx]. eapply grows_trans; [exact Hg|].
  split_and!; [apply rollback_active|apply rollback_driver|]. eexists. apply rollback_drv_log.
Qed.

Lemma failure_grows id name cur w : ctx_grows (aw_ctx w) (aw_ctx (record_auth_failure max id name cur w)).
Proof.
  unfold record_auth_failure. destruct (auth_placeholder 1); [|apply grows_refl]. destruct (auth_placeholder 2); [|apply grows_refl].
  match goal with |- context [auth_update_and_commit ?s ?b w] => pose proof (update_grows s b w) as Hg end.
  destruct (auth_update_and_commit _ _ w) as [w1 rc]. destruct (negb (rc =? 0)); [exact Hg|].
  eapply grows_trans; [exact Hg|apply audit_grows].
Qed.

Lemma success_grows id name prev w : ctx_grows (aw_ctx w) (aw_ctx (record_auth_success id name prev w)).
Proof.
  unfold record_auth_success. destruct (auth_placeholder 1); [|apply grows_refl].
  match goal with |- context [auth_update_and_commit ?s ?b w] => pose proof (update_grows s b w) as Hg end.
  destruct (auth_update_and_commit _ _ w) as [w1 rc]. destruct (negb (rc =? 0)); [exact Hg|]. destruct (0 <? prev); [|exact Hg].
  eapply grows_trans; [exact Hg|apply audit_grows].
Qed.

Lemma credential_grows u name cred w w' ok : check_credential max u name cred w = Some (w', ok) -> ctx_grows (aw_ctx w) (aw_ctx w').
Proof.
  unfold check_credential. destruct (ci_eqb _ _).
  - destruct (crypt_verify_password _ _); intros [= <- <-]; [apply grows_refl|apply failure_grows].
  - destruct (_ || _); [|intros [= <- <-]; apply grows_refl].
    destruct (ldap_configuration u) as [conf|]; [|intros [= <- <-]; apply grows_refl].
    destruct (parse_configuration conf) as [[[host|] [port|] [pattern|] tls]|]; try (intros [= <- <-]; apply grows_refl).
    destruct (format_dn _ _ _) as [dn|]; [|done]. intros [= <- <-]. apply grows_refl.
Qed.

Lemma success_commits id name prev w : commits w ->
  exists evs, drv_log (aw_ctx (record_auth_success id name prev w)) = drv_log (aw_ctx w) ++ evs /\ In (EvCommit 0) evs.
Proof.
  intros Hok. unfold record_auth_success, auth_placeholder. destruct (law_placeholder 1) as [p1 Hp]. rewrite Hp.
  unfold auth_update_and_commit. pose proof (law_success (aw_db w) p1 id Hp) as Hs. destruct (db_dml _ _ _) as [d rc].
  cbn [snd] in Hs. subst rc. cbn [Z.eqb negb].
  match goal with |- context [tx_commit_with_retry _ ?r ?t] => destruct (commit_accepted (aw_ctx w) r t Hok) as (c' & -> & Hd & Hl) end.
  cbn [Z.eqb negb]. destruct (0 <? prev).
  - match goal with |- context [audit_trail_insert ?r ?v] => destruct (law_audit r v) as [(_ & _ & evs & He) _] end.
    exists (EvCommit 0 :: evs). rewrite He. cbn [aw_ctx]. rewrite Hl, <- app_assoc. split; [done|by left].
  - exists [EvCommit 0]. split; [exact Hl|by left].
Qed.
End driver.

Lemma authenticate_grows {db} {S : AuthServices db} {account_of} `{!AuthLaws S account_of} max al req w w' ans :
  auth_authenticate max al req w = Some (w', ans) ->
  ctx_grows (aw_ctx w) (aw_ctx w') /\
  (commits w -> auth_rc ans = AUTH_OK -> exists evs, drv_log (aw_ctx w') = drv_log (aw_ctx w) ++ evs /\ In (EvCommit 0) evs).
Proof.
  unfold auth_authenticate. destruct (_ || _); [intros [= <- <-]; split; [apply grows_refl|done]|].
  destruct (lookup_user _ _ _) as [u| |]; [|intros [= <- <-]; split; [apply grows_refl|done]..].
  destruct (negb _); [intros [= <- <-]; split; [apply grows_refl|done]|].
  destruct (str_eqb _ _); [intros [= <- <-]; split; [apply grows_refl|done]|].
  destruct (check_credential _ _ _ _ _) as [[w1 ok]|] eqn:Ec; [|done]. apply credential_grows in Ec. cbn [mbind option_bind].
  destruct (negb ok); [intros [= <- <-]; split; [exact Ec|done]|].
  pose proof (law_session (take 127 (auth_username req)) w1) as Hs.
  destruct (session_create _ _) as [[w2 rc] xml]. cbn [fst] in Hs. pose proof (grows_trans _ _ _ Ec Hs) as Hg.
  destruct xml as [xml|]; [|intros [= <- <-]; split; [exact Hg|done]].
  destruct (negb (rc =? 0)); [intros [= <- <-]; split; [exact Hg|done]|].
  destruct (Nat.eqb _ 0); [intros [= <- <-]; split; [exact Hg|done]|].
  destruct (negb _); intros [= <- <-]; [split; [exact Hg|done]|].
  set (sid := extract_session_field xml "session_id" 64).
  pose proof (success_grows (user_id u) (auth_username req) (failed_attempts u) w2) as H3.
  pose proof (law_cache sid (user_id u) (record_auth_success (user_id u) (auth_username req) (failed_attempts u) w2)) as H4.
  split; [by eapply grows_trans; [exact Hg|eapply grows_trans]|]. intros Hok _.
  assert (commits w2) as Hok2 by (destruct Hg as (_ & Hg & _); unfold commits; congruence).
  destruct (success_commits (user_id u) (auth_username req) (failed_attempts u) w2 Hok2) as (e2 & L2 & Hi).
  destruct Hg as (_ & _ & e1 & L1). destruct H4 as (_ & _ & e3 & L3).
  exists (e1 ++ e2 ++ e3). rewrite L3, L2, L1, !app_assoc. split; [done|]. rewrite <- app_assoc.
  apply in_or_app. right. apply in_or_app. by left.
Qed.

(** A login that succeeds has committed, and not only its own update: the
    commit goes to the connection of the request, whether or not a managed
    transaction is active on it, and leaves that transaction registered as
    if nothing had happened. *)
Theorem login_commits_what_is_pending {db} {S : AuthServices db} {account_of} `{!AuthLaws S account_of} (max : Z) (al : nat -> bool)
    (req : authenticate_request) (w w' : auth_world db) (ans : auth_answer) :
  commits w -> auth_authenticate max al req w = Some (w', ans) -> auth_rc ans = AUTH_OK ->
  active_tx (aw_ctx w') = active_tx (aw_ctx w) /\
  exists evs, drv_log (aw_ctx w') = drv_log (aw_ctx w) ++ evs /\ In (EvCommit 0) evs.
Proof. intros Hok E Ha. destruct (authenticate_grows _ _ _ _ _ _ E) as [(H1 & _) H2]. split; [exact H1|by apply H2]. Qed.

(** ** A small database *)

Definition demo_db := list (list ascii * account).

Definition demo_account_of (d : demo_db) (name : list ascii) : option account :=
  snd <$> List.find (fun na => str_eqb (fst na) name) d.

Definition demo_now : list ascii := str "SYSTIMESTAMP".
Definition demo_placeholder (i : Z) : list ascii := str ":" ++ print_int i.

Definition demo_set_row (id : Z) (f : account -> account) (d : demo_db) : demo_db :=
  map (fun na => (fst na, if ac_id (snd na) =? id then f (snd na) else snd na)) d.

Definition demo_dml (d : demo_db) (sql : list ascii) (binds : list (list ascii)) : demo_db * Z :=
  match binds with
  | [n; id] =>
      let lock := str_eqb sql (failure_sql true (demo_placeholder 1) demo_now (demo_placeholder 2)) in
      (demo_set_row (atol id) (set_failures (atol n) lock) d, 0)
  | [id] => (demo_set_row (atol id) (set_failures 0 false) d, 0)
  | _ => (d, -1)
  end.

(** Hashes are the passwords; a directory accepts nobody. *)
Definition demo_services : AuthServices demo_db := {|
  db_select d _ binds :=
    Opened 8 (Some (match binds with [name] => match demo_account_of d name with Some a => [fields a] | None => [] end | _ => [] end));
  db_dml := demo_dml;
  db_commit d := d;
  db_rollback d := d;
  bind_placeholder i := Some (demo_placeholder i);
  now_expr := demo_now;
  pwhash_verify hash password := str_eqb hash password;
  ldap_bind_ok _ _ _ := false;
  parse_configuration _ := None;
  session_create name w :=
    (w, 0, Some (str "<session_id>S-1</session_id><ttl_seconds>900</ttl_seconds>"));
  audit_trail_insert _ w := (w, 0);
  build_permission_cache _ _ w := w;
|}.

Lemma demo_set_row_account id f d name :
  demo_account_of (demo_set_row id f d) name = (fun a => if ac_id a =? id then f a else a) <$> demo_account_of d name.
Proof.
  unfold demo_account_of. induction d as [|[n a] d IH]; [done|]. cbn [demo_set_row map List.find fst snd] in *.
  by destruct (str_eqb n name).
Qed.

Lemma demo_laws : AuthLaws demo_services demo_account_of.
Proof.
  constructor.
  - intros i. by eexists.
  - intros d name ph _. reflexivity.
  - intros d lock p1 p2 n id Hn Hid [= <-] [= <-]. cbn [db_dml db_commit demo_services demo_dml now_expr]. intros _ name. rewrite demo_set_row_account, !atol_print_int by lia. f_equal.
    assert (str_eqb (failure_sql lock (demo_placeholder 1) demo_now (demo_placeholder 2))
              (failure_sql true (demo_placeholder 1) demo_now (demo_placeholder 2)) = lock) as -> by (destruct lock; vm_compute; reflexivity).
    done.
  - intros row w. split; [|done]. split_and!; [done..|]. exists []. by rewrite app_nil_r.
  - intros d p1 id _. reflexivity.
  - intros name w. split_and!; [done..|]. exists []. by rewrite app_nil_r.
  - intros sid id w. split_and!; [done..|]. exists []. by rewrite app_nil_r.
Qed.

Lemma demo_counts : @counts_accepted _ demo_services.
Proof. intros d lock p1 p2 n id _ _. reflexivity. Defined.

Definition alice : account := mk_account 7 (str "Alice") (str "wonder") true false 0 (str "local") [].
Definition demo_start : auth_world demo_db :=
  mk_auth_world (mk_ctx None (Some (mk_tx_ini 60 3 500)) (mk_driver (Some (fun _ => 0)) (Some 0)) None []) [(str "alice", alice)].

(** The right password, then three wrong ones, then the right one. *)
Example demo_logins :
  option_map (fun r => map auth_rc (snd r))
    (@logins _ demo_services 3 (fun _ => true) (str "alice") [str "wonder"; str "x"; str "y"; str "z"; str "wonder"] demo_start) =
  Some [AUTH_OK; AUTH_ERR_DENIED; AUTH_ERR_DENIED; AUTH_ERR_DENIED; AUTH_ERR_DENIED].
Proof. vm_compute. reflexivity. Qed.

Lemma wrong_passwords_lock_witness :
  exists w', @logins _ demo_services 3 (fun _ => true) (str "alice") [str "x"; str "y"; str "z"] demo_start =
    Some (w', replicate 3 (denied AUTH_ERR_DENIED)) /\
    @auth_authenticate _ demo_services 3 (fun _ => true) (mk_authenticate (str "alice") (str "wonder")) w' = Some (w', denied AUTH_ERR_DENIED).
Proof.
  destruct (proj2 (@wrong_passwords_lock _ demo_services _ demo_laws 3 (fun _ => true) (str "alice") [str "x"; str "y"; str "z"] demo_start alice
    ltac:(reflexivity) ltac:(discriminate) ltac:(reflexivity)
    ltac:(unfold local_account, fits; split_and!; first [reflexivity|apply Nat.ltb_lt; reflexivity|cbn; lia]) ltac:(cbn; lia)
    ltac:(repeat constructor; try discriminate)) eq_refl demo_counts) as (w' & H1 & _ & _ & H2).
  exists w'. split; [exact H1|]. apply H2; [reflexivity|discriminate].
Defined.

Lemma concurrent_failures_count_once_witness :
  option_map ac_locked (demo_account_of (aw_db (Nat.iter 10 (@record_auth_failure _ demo_services 3 7 (str "alice") 0) demo_start)) (str "alice")) =
  Some false.
Proof.
  refine (proj2 (@concurrent_failures_count_once _ demo_services _ demo_laws 3 (str "alice") demo_start alice 9 _ demo_counts _ _ _) _ _).
  - reflexivity.
  - reflexivity.
  - unfold fits. split_and!; first [apply Nat.ltb_lt; reflexivity|cbn; lia].
  - cbn; lia.
  - reflexivity.
  - cbn; lia.
Defined.

Lemma session_needs_credential_witness :
  exists w' ans, @auth_authenticate _ demo_services 3 (fun _ => true) (mk_authenticate (str "alice") (str "wonder")) demo_start = Some (w', ans) /\
    exists u, @lookup_user _ demo_services true (str "alice") demo_start = Found u /\ password_hash u = str "wonder".
Proof.
  eexists _, _. split; [vm_compute; reflexivity|].
  destruct (@session_needs_credential _ demo_services 3 (fun _ => true) (mk_authenticate (str "alice") (str "wonder")) demo_start
              _ _ ltac:(vm_compute; reflexivity)) as [[H _]|(u & _ & _ & H & _ & _ & [[_ Hv]|(conf & host & port & pattern & dn & tls & _ & Hp & _)])].
  - exfalso. apply H. reflexivity.
  - exists u. split; [exact H|]. cbn in Hv. by apply bool_decide_eq_true in Hv.
  - discriminate Hp.
Defined.

Lemma login_commits_what_is_pending_witness :
  exists w' ans evs, @auth_authenticate _ demo_services 3 (fun _ => true) (mk_authenticate (str "alice") (str "wonder")) demo_start = Some (w', ans) /\
    drv_log (aw_ctx w') = [] ++ evs /\ In (EvCommit 0) evs.
Proof.
  destruct (@login_commits_what_is_pending _ demo_services _ demo_laws 3 (fun _ => true) (mk_authenticate (str "alice") (str "wonder")) demo_start
              _ _ ltac:(reflexivity) ltac:(vm_compute; reflexivity) ltac:(vm_compute; reflexivity)) as (_ & evs & H1 & H2).
  eexists _, _, evs. split; [vm_compute; reflexivity|]. split; [exact H1|exact H2].
Defined.
