(* ===== verification/Dispatcher.v ===== *)
(** * The dispatcher: src/src/core/dispatcher.c

    [process_xml_file], from the text of a request to its response: the
    envelope (Level 1), the session, the checks of Level 2 (Level2Parser.v),
    then the operations in order, in one transaction when the request asks for
    it (TransactionManager.v), each by its dispatch function - the six for DDL
    are in DdlExecute.v.  The older flat format, of which only SELECT is left,
    goes another way.

    What the dispatch functions call is an interface: [Executors] are the
    operations, [ExecutorLaws] what the transaction relies on.  Level 1 is the
    answer of [level1_parse], which Level1Parser.v supplies; log lines and
    timings are left out. *)

From Stdlib Require Import Ascii String ZArith Lia Bool.
From stdpp Require Import base list strings numbers.
From S2P Require Import Prelude Text TransactionManager XmlHelper DdlModules Response DdlExecute Requests Level1Parser Level2Parser AuthManager.

#[local] Open Scope Z_scope.

(** ** Looking at the text *)

(** The value of the first element [tag], cut, then trimmed. *)
Definition extract_tag (src : list ascii) (tag : string) (dest_max : nat) : option (list ascii) :=
  s ← strstr (open_tag tag) src;
  let s := drop (length (open_tag tag)) s in
  e ← strstr (close_tag tag) s;
  Some (trim_inplace (take (dest_max - 1) (between s e))).

Definition upper (s : list ascii) : list ascii := map toupper s.

(** ** What is called *)

Definition AUTHZ_OK : Z := 0.

(** The fields a dispatch function sets; [async_batch]: the URL the callback
    posts to. *)
Record execute_config := mk_config {
  SQL : option (list ascii);
  cfg_max_rows : Z;
  fetch_array_size : Z;
  cfg_column_names : bool;
  log_execution_results : bool;
  ReturnFormat : option (list ascii);
  input_file_name : list ascii;
  async_batch : option (list ascii);
}.

Inductive batch_call :=
| CallQuery
| CallInsert (req : insert_request)
| CallUpdate (req : update_request)
| CallDelete (req : delete_request)
| CallProcedure (req : execute_procedure_request).

(** The return code, [cfg.xml->OUTPUT_XML] and [cfg.OUTPUT_JSON]. *)
Record batch_answer := mk_batch_answer { batch_rc : Z; OUTPUT_XML : option (list ascii); OUTPUT_JSON : option (list ascii) }.

(** What the dispatch functions call: the five batch functions of the execute
    modules and [auth_authenticate] - [None]: undefined -, and
    [authz_has_permission]. *)
Class Executors := {
  execute_batch : execute_config -> batch_call -> ddl_world -> option (ddl_world * batch_answer);
  authenticate : authenticate_request -> ddl_world -> option (ddl_world * auth_answer);
  authz_has_permission : list ascii -> list ascii -> ddl_world -> ddl_world * Z;
}.

(** [kept P w w']: same handles, same transaction, same driver, and what the
    driver was asked for satisfies [P]. *)
Definition kept (P : list drv_event -> Prop) (w w' : ddl_world) : Prop :=
  w_handles (tx_part w') = w_handles (tx_part w) /\ active_tx (ddl_ctx w') = active_tx (ddl_ctx w) /\
  driver (ddl_ctx w') = driver (ddl_ctx w) /\
  exists evs, drv_log (ddl_ctx w') = drv_log (ddl_ctx w) ++ evs /\ P evs.

Definition no_commit (evs : list drv_event) : Prop := forall rc, ~ In (EvCommit rc) evs.

(** A batch function returns when the transaction of the context is there, and
    leaves it as it found it - within one, or when the module accepts the
    request (Writes.v: a refused INSERT or UPDATE of its own does not) -;
    within one, it does not ask the driver for a commit.  [authenticate] makes
    no such promise: it commits what it writes (AuthManager.v). *)
Class ExecutorLaws `{Executors} := {
  acceptable : batch_call -> Prop;
  query_acceptable : acceptable CallQuery;
  batch_returns cfg call w : tx_there (tx_part w) -> is_Some (execute_batch cfg call w);
  batch_frame cfg call w w' ans : execute_batch cfg call w = Some (w', ans) -> active_tx (ddl_ctx w) <> None \/ acceptable call ->
    kept (fun evs => active_tx (ddl_ctx w) <> None -> no_commit evs) w w';
  authz_frame sid code w : kept (eq []) w (fst (authz_has_permission sid code w));
  auth_frame req w w' ans : authenticate req w = Some (w', ans) -> kept (fun _ => True) w w';
}.

(** ** What a request finds *)

(** For one operation: the buffers of the envelope, of a DDL body and of the
    body of the other responses are allocated, and what each DDL statement
    finds (DdlExecute.v). *)
Record op_env := mk_op_env {
  oe_envelope : nat -> bool; oe_json : nat -> bool; oe_body : bool; oe_call1 : call_env; oe_call2 : call_env }.

(** [session_validation_enabled], [query_max_record_count] and
    [query_fetch_batch_size]. *)
Record dispatch_ini := mk_dispatch_ini { validate_sessions : bool; max_record_count : Z; fetch_batch : Z }.

(** The copy of the text, the buffers of the envelope and the body of a
    request that is passed over are allocated; the random bytes of the transaction, the clock in microseconds and in seconds
    at its start, and at its end. *)
Record request_env := mk_request_env {
  al_input : bool; al_error : nat -> bool; al_skip : nat -> bool; tx_rnd : list Z; begin_us : Z; begin_s : Z; end_us : Z;
  ops_env : nat -> op_env }.

Definition env_of (request : request) (e : op_env) : dispatch_env :=
  mk_dispatch_env (external_audit_id request) (bool_decide (source_format request = INPUT_FORMAT_JSON)) (oe_envelope e) (oe_json e)
    (oe_call1 e) (oe_call2 e).

(** A PASS that leaves the audit id and the operation as they were. *)
Definition answered (d : dispatch_env) (body : option (list ascii)) (resp : response_object) : response_object :=
  mk_response RESPONSE_STATUS_PASS (resp_audit_id resp) (resp_operation resp) (error_code resp) (error_text resp) body (is_json d).

Section dispatch.
Context `{Executors} (ini : dispatch_ini) (filename : list ascii).

(** ** The operations on data *)

Definition errtext (fn log : string) (rc : Z) : list ascii :=
  take 255 (str fn ++ str " failed (rc=" ++ print_int rc ++ str ") - see " ++ str log ++ str "_Data_Manager.log").

(** The end of the five functions: the body of a success, if there is one.
    Without a body the response is an error and the return code 0. *)
Definition batch_response (d : dispatch_env) (op fn log : string) (ans : batch_answer) (w : ddl_world) (resp : response_object) : reply :=
  let error code text :=
    build_error_envelope (al_envelope d) (Some (audit_id d)) (Some (str op)) (Some (str code)) (Some text) (is_json d) resp in
  if batch_rc ans =? 0 then
    match (if is_json d then OUTPUT_JSON ans else OUTPUT_XML ans) with
    | Some body => passed d op body w resp
    | None => Some (w, error "NO_RESULT_BODY"%string (str fn ++ str " succeeded but produced no result body"), 0)
    end
  else Some (w, error "EXECUTE_FAILED"%string (errtext fn log (batch_rc ans)), batch_rc ans).

Definition return_format (d : dispatch_env) : list ascii := if is_json d then str "JSON" else str "XML".

Definition async_ack (d : dispatch_env) : list ascii :=
  if is_json d then
    str "{" ++ json_member "status" (str "ACCEPTED") ++ str "," ++ json_member "message" (str "Batches delivered to callback URL.") ++ str "}"
  else
    str "<output_xml>" ++ element "status" (str "ACCEPTED") ++ element "message" (str "Batches delivered to callback URL.") ++
    str "</output_xml>".

Definition dispatch_select_new (d : dispatch_env) (al_body : bool) (payload : option select_request) (w : ddl_world)
    (resp : response_object) : reply :=
  match payload with
  | None => no_payload d "SELECT" "select_request_t" w resp
  | Some req =>
      let cfg := mk_config (Some (sql req))
        (if 0 <? max_rows req then max_rows req else max_record_count ini)
        (if 0 <? fetch_batch_size req then fetch_batch_size req else fetch_batch ini)
        (include_column_names req) true (Some (return_format d)) filename
        (if execute_async req then Some (async_call_back_url req) else None) in
      '(w, ans) ← execute_batch cfg CallQuery w;
      if (batch_rc ans =? 0) && execute_async req then
        Some (w, mk_response RESPONSE_STATUS_PASS (take 127 (audit_id d)) (str "SELECT") (error_code resp) (error_text resp)
                   (if al_body then Some (take 255 (async_ack d)) else None) (is_json d), 0)
      else batch_response d "SELECT" "execute_query_batch" "select" ans w resp
  end.

(** The configuration of the four functions that write. *)
Definition write_config (d : dispatch_env) : execute_config := mk_config None 0 0 false false (Some (return_format d)) filename None.

Definition dispatch_insert_new (d : dispatch_env) (payload : option insert_request) (w : ddl_world) (resp : response_object) : reply :=
  match payload with
  | None => no_payload d "INSERT" "insert_request_t" w resp
  | Some req =>
      '(w, ans) ← execute_batch (write_config d) (CallInsert req) w;
      batch_response d "INSERT" "execute_insert_batch" "insert" ans w resp
  end.

Definition dispatch_update_new (d : dispatch_env) (payload : option update_request) (w : ddl_world) (resp : response_object) : reply :=
  match payload with
  | None => no_payload d "UPDATE" "update_request_t" w resp
  | Some req =>
      '(w, ans) ← execute_batch (write_config d) (CallUpdate req) w;
      batch_response d "UPDATE" "execute_update_batch" "update" ans w resp
  end.

Definition dispatch_delete_new (d : dispatch_env) (payload : option delete_request) (w : ddl_world) (resp : response_object) : reply :=
  match payload with
  | None => no_payload d "DELETE" "delete_request_t" w resp
  | Some req =>
      '(w, ans) ← execute_batch (write_config d) (CallDelete req) w;
      batch_response d "DELETE" "execute_delete_batch" "delete" ans w resp
  end.

Definition dispatch_procedure_new (d : dispatch_env) (payload : option execute_procedure_request) (w : ddl_world)
    (resp : response_object) : reply :=
  match payload with
  | None => no_payload d "EXECUTE_PROCEDURE" "execute_procedure_request_t" w resp
  | Some req =>
      '(w, ans) ← execute_batch (write_config d) (CallProcedure req) w;
      batch_response d "EXECUTE_PROCEDURE" "execute_procedure" "procedure" ans w resp
  end.

(** ** Security *)

Definition auth_body (d : dispatch_env) (ans : auth_answer) : list ascii :=
  take 1023
    (if is_json d then
       str "{" ++ json_member "operation" (str "AUTHENTICATE") ++ str "," ++ json_member "status" (str "SUCCESS") ++ str "," ++
       json_member "session_id" (new_session_id ans) ++ str "," ++ json_member "display_name" (display_name ans) ++ str "," ++
       quoted "ttl_seconds" ++ str ":" ++ print_int (ttl_seconds ans) ++ str "}"
     else
       str "<auth>" ++ nl ++ str "  " ++ element "operation" (str "AUTHENTICATE") ++ nl ++ str "  " ++ element "status" (str "SUCCESS") ++ nl ++
       str "  " ++ element "session_id" (new_session_id ans) ++ nl ++ str "  " ++ element "display_name" (display_name ans) ++ nl ++
       str "  " ++ element "ttl_seconds" (print_int (ttl_seconds ans)) ++ nl ++ str "</auth>" ++ nl).

Definition dispatch_authenticate_new (d : dispatch_env) (al_body : bool) (payload : option authenticate_request) (w : ddl_world)
    (resp : response_object) : reply :=
  match payload with
  | None => no_payload d "AUTHENTICATE" "authenticate_request_t" w resp
  | Some req =>
      '(w, ans) ← authenticate req w;
      if auth_rc ans =? AUTH_OK then Some (w, answered d (if al_body then Some (auth_body d ans) else None) resp, 0)
      else refused d "AUTHENTICATE" "DENIED" (str "Authentication failed") w resp
  end.

Definition authz_body (d : dispatch_env) (code : list ascii) (rc : Z) : list ascii :=
  let result := if rc =? AUTHZ_OK then str "ALLOWED" else str "DENIED" in
  take 511
    (if is_json d then
       str "{" ++ json_member "operation" (str "CHECK_PERMISSION") ++ str "," ++ json_member "permission_code" code ++ str "," ++
       json_member "result" result ++ str "}"
     else
       str "<authz>" ++ nl ++ str "  " ++ element "operation" (str "CHECK_PERMISSION") ++ nl ++
       str "  " ++ element "permission_code" code ++ nl ++ str "  " ++ element "result" result ++ nl ++ str "</authz>" ++ nl).

Definition dispatch_check_permission_new (d : dispatch_env) (al_body : bool) (session_id : list ascii)
    (payload : option check_permission_request) (w : ddl_world) (resp : response_object) : reply :=
  match payload with
  | None => no_payload d "CHECK_PERMISSION" "check_permission_request_t" w resp
  | Some req =>
      let '(w, rc) := authz_has_permission session_id (permission_code req) w in
      Some (w, answered d (if al_body then Some (authz_body d (permission_code req) rc) else None) resp, 0)
  end.

(** ** One operation, then all of them *)

Definition dispatch_one (request : request) (e : op_env) (p : operation_payload) (dml_execute : option (list (list ascii) -> list ascii -> Z * list ascii))
    (w : ddl_world) (resp : response_object) : reply :=
  let d := env_of request e in
  match p with
  | Select req => dispatch_select_new d (oe_body e) req w resp
  | Insert req => dispatch_insert_new d req w resp
  | Update req => dispatch_update_new d req w resp
  | Delete req => dispatch_delete_new d req w resp
  | ExecuteProcedure req => dispatch_procedure_new d req w resp
  | Authenticate req => dispatch_authenticate_new d (oe_body e) req w resp
  | CheckPermission req => dispatch_check_permission_new d (oe_body e) (req_session_id request) req w resp
  | CreateUser req => dispatch_create_user_new dml_execute d req w resp
  | Grant req => dispatch_grant_new dml_execute d req w resp
  | CreateTable req => dispatch_create_table_new dml_execute d req w resp
  | DropTable req => dispatch_drop_table_new dml_execute d req w resp
  | CreateView req => dispatch_create_view_new dml_execute d req w resp
  | CreateProcedure req => dispatch_create_procedure_new dml_execute d req w resp
  | GetTemplate | CreateSession | EndSession | Unknown =>
      refused d "-" "UNSUPPORTED_OPERATION_TYPE" (str "This operation type isn't implemented by the new dispatch pipeline yet") w resp
  end.

Context (dml_execute : option (list (list ascii) -> list ascii -> Z * list ascii)).

(** From operation [i] on; a transaction stops at the first failure, and [rc]
    is that of the last operation that ran. *)
Fixpoint operation_loop (tx_active : bool) (request : request) (envs : nat -> op_env) (i : nat) (ops : list operation) (rc : Z)
    (w : ddl_world) (resp : response_object) : reply :=
  match ops with
  | [] => Some (w, resp, rc)
  | op :: ops' =>
      '(w, resp, rc) ← dispatch_one request (envs i) (op_payload op) dml_execute w resp;
      if tx_active && negb (rc =? 0) then Some (w, resp, rc)
      else operation_loop tx_active request envs (S i) ops' rc w resp
  end.

(** The error envelope of a request whose format is known. *)
Definition request_error (e : request_env) (request : request) (op code : list ascii) (text : list ascii) (resp : response_object) : response_object :=
  build_error_envelope (al_error e) (Some (external_audit_id request)) (Some op) (Some code) (Some text)
    (bool_decide (source_format request = INPUT_FORMAT_JSON)) resp.

(** The context after the transaction: the handle is written back. *)
Definition leave_transaction (a : nat) (c : tx_ctx) (tx : tx_handle) (w : ddl_world) (resp : response_object) (rc : Z) : reply :=
  Some (set_tx_part (mk_world (set_active None (trace_txid c) c) (<[a := tx]> (w_handles (tx_part w)))) w, resp, rc).

(** The operations of a request that passed Level 2.  The handle of the
    transaction is a new one, at the end of the list. *)
Definition run_operations (e : request_env) (request : request) (w : ddl_world) (resp : response_object) : reply :=
  if transaction_required request then
    let a := length (w_handles (tx_part w)) in
    let '(c, tx, ans) := tx_begin (tx_rnd e) (begin_us e) (begin_s e) true true a (ddl_ctx w) (tx_init true)
                           (Some (req_session_id request)) (Some (transaction_name request)) in
    if decide (tx_rc ans = TX_OK) then
      let w := set_tx_part (mk_world (set_active (Some a) (trace_txid c) c) (w_handles (tx_part w) ++ [tx])) w in
      '(w, resp, rc) ← operation_loop true request (ops_env e) 0 (operations request) 0 w resp;
      let tx := default tx (w_handles (tx_part w) !! a) in
      if rc =? 0 then
        let '(c, tx, ans) := tx_commit (end_us e) true true (ddl_ctx w) tx in
        if decide (tx_rc ans = TX_OK) then leave_transaction a c tx w resp rc
        else
          leave_transaction a c tx w
            (request_error e request (str "-") (str "TX_COMMIT_FAILED") (str "The transaction failed to commit") resp) (-1)
      else
        let '(c, tx, _) := tx_rollback (end_us e) true true (ddl_ctx w) tx in leave_transaction a c tx w resp rc
    else
      Some (set_tx_part (mk_world c (w_handles (tx_part w) ++ [tx])) w,
            request_error e request (str "-") (str "TX_BEGIN_FAILED") (str "Could not start the required transaction for this request") resp, -1)
  else operation_loop false request (ops_env e) 0 (operations request) 0 w resp.

(** ** The flat format *)

Definition MAX_OPERATION_LEN : nat := 32.

Definition legacy_error (e : request_env) (op : string) (code : string) (text : list ascii) (resp : response_object) : response_object :=
  build_error_envelope (al_error e) (Some (str "-")) (Some (str op)) (Some (str code)) (Some text) false resp.

Definition dispatch_select (e : request_env) (xml : list ascii) (w : ddl_world) (resp : response_object) : reply :=
  match extract_tag xml "sql" (Z.to_nat 8192) with
  | None => Some (w, legacy_error e "SELECT" "NO_SQL_ELEMENT" (str "No <sql> element found in legacy-format request") resp, -1)
  | Some sql =>
      let cfg := mk_config (Some sql) (max_record_count ini) (fetch_batch ini) true true None filename None in
      '(w, ans) ← execute_batch cfg CallQuery w;
      Some (w,
            if batch_rc ans =? 0 then
              match OUTPUT_XML ans with
              | Some body =>
                  mk_response RESPONSE_STATUS_PASS (resp_audit_id resp) (str "SELECT") (error_code resp) (error_text resp) (Some body) false
              | None => legacy_error e "SELECT" "NO_RESULT_BODY" (str "execute_query_batch succeeded but produced no XML body") resp
              end
            else legacy_error e "SELECT" "EXECUTE_FAILED" (errtext "execute_query_batch" "select" (batch_rc ans)) resp,
            batch_rc ans)
  end.

Definition skipped (e : request_env) (op : list ascii) (body : option (list ascii)) (resp : response_object) : response_object :=
  mk_response RESPONSE_STATUS_PASS (resp_audit_id resp) op (error_code resp) (error_text resp) body false.

Definition legacy_unsupported (e : request_env) (op : string) (w : ddl_world) (resp : response_object) : reply :=
  Some (w, legacy_error e op "LEGACY_FORMAT_UNSUPPORTED"
             (str "Old flat-XML " ++ str op ++ str " format is no longer supported - convert to the new <request version=" ++ quoted "1.0" ++
              str "> format") resp, -1).

Definition skipped_body (note : list ascii) : list ascii :=
  str "<?xml version=" ++ quoted "1.0" ++ str " encoding=" ++ quoted "UTF-8" ++ str "?>" ++ nl ++
  str "<output_xml><execution_envelope><status>SKIPPED</status><note>" ++ note ++ str "</note></execution_envelope></output_xml>" ++ nl.

Definition process_legacy (e : request_env) (xml : list ascii) (w : ddl_world) (resp : response_object) : reply :=
  match extract_tag xml "operation" MAX_OPERATION_LEN with
  | None =>
      Some (w, skipped e (str "-") (if al_skip e 0%nat then Some (skipped_body (str "No &lt;operation&gt; element found in input")) else None) resp, 0)
  | Some operation =>
      let operation := upper operation in
      if str_eqb operation (str "INSERT") then legacy_unsupported e "INSERT" w resp
      else if str_eqb operation (str "SELECT") then dispatch_select e xml w resp
      else if str_eqb operation (str "UPDATE") then legacy_unsupported e "UPDATE" w resp
      else if str_eqb operation (str "DELETE") then legacy_unsupported e "DELETE" w resp
      else if str_eqb operation (str "EXECUTE_PROCEDURE") then legacy_unsupported e "EXECUTE_PROCEDURE" w resp
      else
        let esc_op := xml_escape_alloc (al_error e 0%nat) operation in
        let bufsize := (length esc_op + 200)%nat in
        Some (w, skipped e (take 31 operation)
                   (if al_skip e 0%nat then Some (take (bufsize - 1) (skipped_body (str "Unknown operation '" ++ esc_op ++ str "'")))
                    else if al_skip e 1%nat then
                      Some (str "<output_xml><execution_envelope><status>SKIPPED</status></execution_envelope></output_xml>")
                    else None) resp, 0)
  end.

(** ** The whole request *)

(** The context as far as a request changes it: what the database knows of,
    [INPUT_XML], the ids the metrics are tagged with, and the session id on
    the thread's log lines. *)
Record dispatcher_world := mk_disp {
  ddl_part : ddl_world;
  input_xml : option (list ascii);
  active_session_id : list ascii;
  active_audit_id : list ascii;
  thread_sid : list ascii;
}.

Definition set_ddl (d : ddl_world) (w : dispatcher_world) : dispatcher_world :=
  mk_disp d (input_xml w) (active_session_id w) (active_audit_id w) (thread_sid w).
Definition set_sid (sid : list ascii) (w : dispatcher_world) : dispatcher_world :=
  mk_disp (ddl_part w) (input_xml w) (active_session_id w) (active_audit_id w) (take 63 sid).

(** [session_validate]; [level1_parse] of a text and its length; and
    [level2_validate] (Level2Parser.v). *)
Context (session_validate : list ascii -> Z) (level1_parse : list ascii -> nat -> res operation_status request)
        (level2 : request -> request * Z).

Definition with_session (override : option (list ascii)) (r : request) : request :=
  match override with
  | Some ((_ :: _) as sid) =>
      mk_request (external_audit_id r) (take 63 sid) (source_format r) (transaction_required r) (transaction_name r) (operations r)
  | _ => r
  end.

Definition standalone_authenticate (r : request) : bool :=
  match operations r with
  | [op] => bool_decide (type_of (op_payload op) = OP_AUTHENTICATE)
  | _ => false
  end.

(** The first operation that failed speaks for the request. *)
Definition level2_refusal (e : request_env) (r : request) (resp : response_object) : response_object :=
  match List.find (fun op => negb (status_code (validation_status op) =? 0)) (operations r) with
  | Some op => request_error e r (str "-") (st_error_code (validation_status op)) (st_error_text (validation_status op)) resp
  | None => request_error e r (str "-") (str "LEVEL2_VALIDATION_FAILED") (str "Level 2 validation failed - see dispatcher log") resp
  end.

Definition reply_ddl (w : dispatcher_world) (r : reply) : option (dispatcher_world * response_object * Z) :=
  '(d, resp, rc) ← r; Some (set_ddl d w, resp, rc).

(** A request of the new format, parsed. *)
Definition process_request (e : request_env) (override : option (list ascii)) (r : request) (w : dispatcher_world)
    (resp : response_object) : option (dispatcher_world * response_object * Z) :=
  let r := with_session override r in
  let w := set_sid (req_session_id r) w in
  let session_rc := if validate_sessions ini && negb (standalone_authenticate r) then session_validate (req_session_id r) else SESSION_OK in
  if negb (session_rc =? SESSION_OK) then
    Some (w, request_error e r (str "SESSION_VALIDATION")
               (if session_rc =? SESSION_ERR_NOT_FOUND then str "SESSION_NOT_FOUND" else str "SESSION_INVALID")
               (str "The session_id on this request is missing, unknown, or expired - a valid session is required before this request can be processed.")
               resp, -1)
  else
    let w := mk_disp (ddl_part w) (input_xml w) (take 63 (req_session_id r)) (take 63 (external_audit_id r)) (thread_sid w) in
    let '(r, level2_rc) := level2 r in
    if level2_rc =? LEVEL2_OK then reply_ddl w (run_operations e r (ddl_part w) resp)
    else Some (w, level2_refusal e r resp, -1).

(** [payload_length] is the length the caller gives: the text when it is
    right. *)
Definition process_xml_file (e : request_env) (payload : option (list ascii)) (payload_length : Z) (override : option (list ascii))
    (w : dispatcher_world) (resp : response_object) : option (dispatcher_world * response_object * Z) :=
  let w := set_sid [] w in
  let fail w code text :=
    Some (w, build_error_envelope (al_error e) (Some (str "-")) (Some (str "-")) (Some code) (Some text) false resp, -1) in
  match payload with
  | None => fail w (str "EMPTY_PAYLOAD") (str "process_xml_file() received an empty payload")
  | Some xml =>
      if payload_length <=? 0 then fail w (str "EMPTY_PAYLOAD") (str "process_xml_file() received an empty payload")
      else
        let len := Z.to_nat payload_length in
        let w := mk_disp (ddl_part w) (if al_input e then Some xml else None) (active_session_id w) (active_audit_id w) (thread_sid w) in
        if level1_looks_like_new_format xml len then
          match level1_parse xml len with
          | Err st => fail w (st_error_code st) (st_error_text st)
          | Ok r => process_request e override r w resp
          end
        else reply_ddl w (process_legacy e xml (ddl_part w) resp)
  end.

(** The check made before an asynchronous SELECT is accepted. *)
Definition validate_async_select_request (al : nat -> bool) (payload : list ascii) (payload_length : Z) (resp : response_object)
    : response_object * Z :=
  let len := Z.to_nat payload_length in
  if negb (level1_looks_like_new_format payload len) then (resp, 0)
  else
    match level1_parse payload len with
    | Err st => (build_error_envelope al (Some (str "-")) (Some (str "-")) (Some (st_error_code st)) (Some (st_error_text st)) false resp, -1)
    | Ok r =>
        let '(r, level2_rc) := level2 r in
        if negb (level2_rc =? LEVEL2_OK) then
          let st := match operations r with
                    | op :: _ => validation_status op
                    | [] => mk_status 0 (str "-") (str "Level 2 validation failed")
                    end in
          (build_error_envelope al (Some (external_audit_id r)) (Some (str "-")) (Some (st_error_code st)) (Some (st_error_text st))
             (bool_decide (source_format r = INPUT_FORMAT_JSON)) resp, -1)
        else (resp, 0)
    end.
End dispatch.

(** ** What an operation leaves behind *)

Definition ddl_of (p : operation_payload) : option ddl_operation :=
  match p with
  | CreateUser (Some req) => Some (DdlCreateUser req)
  | Grant (Some req) => Some (DdlGrant req)
  | CreateTable (Some req) => Some (DdlCreateTable req)
  | DropTable (Some req) => Some (DdlDropTable req)
  | CreateView (Some req) => Some (DdlCreateView req)
  | CreateProcedure (Some req) => Some (DdlCreateProcedure req)
  | _ => None
  end.

(** The request of an operation is one its module accepts. *)
Definition op_acceptable `{ExecutorLaws} (p : operation_payload) : Prop :=
  match p with
  | Insert (Some req) => acceptable (CallInsert req)
  | Update (Some req) => acceptable (CallUpdate req)
  | Delete (Some req) => acceptable (CallDelete req)
  | ExecuteProcedure (Some req) => acceptable (CallProcedure req)
  | _ => True
  end.

(** The operations that run DDL. *)
Definition is_ddl (t : operation_type) : bool :=
  match t with
  | OP_CREATE_USER | OP_GRANT | OP_CREATE_TABLE | OP_DROP_TABLE | OP_CREATE_VIEW | OP_CREATE_PROCEDURE => true
  | _ => false
  end.

Section kept.
Context `{ExecutorLaws} (ini : dispatch_ini) (filename : list ascii)
        (dml_execute : option (list (list ascii) -> list ascii -> Z * list ascii)).
Implicit Types (w : ddl_world) (resp : response_object) (p : operation_payload) (r : request).

Lemma kept_refl (P : list drv_event -> Prop) w : P [] -> kept P w w.
Proof. intros HP. split_and!; [done|done|done|]. exists []. by rewrite app_nil_r. Qed.

Lemma kept_mono (P Q : list drv_event -> Prop) w w' : kept P w w' -> (forall evs, P evs -> Q evs) -> kept Q w w'.
Proof. intros (H1 & H2 & H3 & evs & H4 & H5) HPQ. split_and!; [done|done|done|]. exists evs. auto. Qed.

Lemma kept_trans (P Q R : list drv_event -> Prop) w w1 w2 :
  kept P w w1 -> kept Q w1 w2 -> (forall e1 e2, P e1 -> Q e2 -> R (e1 ++ e2)) -> kept R w w2.
Proof.
  intros (H1 & H2 & H3 & e1 & H4 & H5) (K1 & K2 & K3 & e2 & K4 & K5) HR. split_and!; [congruence|congruence|congruence|].
  exists (e1 ++ e2). rewrite K4, H4, app_assoc. auto.
Qed.

(** What a reply promises: [P] of the events, and an error response with every
    return code but 0. *)
Definition keeps (P : list drv_event -> Prop) w (rep : reply) : Prop :=
  forall w' resp' rc, rep = Some (w', resp', rc) ->
    kept P w w' /\ (rc <> 0 -> resp_status resp' = RESPONSE_STATUS_ERROR).

Lemma refused_keeps P d op code text w resp : P [] -> keeps P w (refused d op code text w resp).
Proof. intros HP w' resp' rc [= <- <- <-]. split; [by apply kept_refl|done]. Qed.

Lemma batch_keeps P d op fn log ans w w' resp : kept P w w' -> keeps P w (batch_response d op fn log ans w' resp).
Proof.
  intros Hk w2 resp2 rc2. unfold batch_response. destruct (Z.eqb_spec (batch_rc ans) 0) as [E|E].
  - destruct (if is_json d then _ else _); intros [= <- <- <-]; by split.
  - intros [= <- <- <-]. by split.
Qed.

Definition quiet p w (evs : list drv_event) : Prop :=
  active_tx (ddl_ctx w) <> None -> type_of p <> OP_AUTHENTICATE -> no_commit evs.

Lemma no_commit_nil : no_commit [].
Proof. by intros rc []. Qed.
#[local] Hint Resolve no_commit_nil : core.

Lemma batch_kept p cfg call w w' ans : execute_batch cfg call w = Some (w', ans) -> active_tx (ddl_ctx w) <> None \/ acceptable call ->
  kept (quiet p w) w w'.
Proof. intros E Hw. eapply kept_mono; [by eapply batch_frame|]. intros evs Hq Ha _. auto. Qed.

Lemma batch_one_keeps p d op fn log cfg call w resp : active_tx (ddl_ctx w) <> None \/ acceptable call ->
  keeps (quiet p w) w ('(w', ans) ← execute_batch cfg call w; batch_response d op fn log ans w' resp).
Proof.
  intros Hw. destruct (execute_batch cfg call w) as [[w' ans]|] eqn:E; [|by intros w2 resp2 rc2]. cbn [mbind option_bind].
  by eapply batch_keeps, batch_kept.
Qed.

Lemma ddl_dispatch r e p op w resp :
  ddl_of p = Some op -> dispatch_one ini filename r e p dml_execute w resp = dispatch_ddl dml_execute (env_of r e) op w resp.
Proof. by destruct p as [[]|[]|[]|[]|[]|[]|[]|[]|[]|[]|[]|[]|[]| | | |]; intros [= <-]. Qed.

Lemma dispatch_one_keeps r e p w resp : active_tx (ddl_ctx w) <> None \/ op_acceptable p ->
  keeps (quiet p w) w (dispatch_one ini filename r e p dml_execute w resp).
Proof.
  intros Hw.
  assert (quiet p w []) as Hnil by (intros _ _; auto).
  destruct (ddl_of p) as [op|] eqn:Ed.
  - rewrite (ddl_dispatch _ _ _ _ _ _ Ed). intros w' resp' rc E.
    destruct (dispatch_ddl_replies _ _ _ _ _ _ _ _ E) as [[Ht _] Hs]. split.
    + destruct w as [t x], w' as [t' x']. cbn in Ht. subst t'. split_and!; [done..|]. exists []. by rewrite app_nil_r.
    + intros Hn. destruct (resp_status resp'); [|done]. tauto.
  - destruct p as [[req|]|[req|]|[req|]|[req|]|[req|]|[req|]|[req|]|[]|[]|[]|[]|[]|[]| | | |]; try discriminate Ed;
      cbn [dispatch_one]; try (by apply refused_keeps); try (by apply batch_one_keeps).
    + unfold dispatch_select_new. destruct (execute_batch _ _ _) as [[w' ans]|] eqn:E; [|by intros w2 resp2 rc2]. cbn [mbind option_bind].
      pose proof (batch_kept (Select (Some req)) _ _ _ _ _ E (or_intror query_acceptable)) as Hk.
      destruct (_ && _); [|by apply batch_keeps]. intros w2 resp2 rc2 [= <- <- <-]. by split.
    + unfold dispatch_authenticate_new. destruct (authenticate req w) as [[w' ans]|] eqn:E; [|done]. cbn [mbind option_bind].
      assert (kept (quiet (Authenticate (Some req)) w) w w') as Hk' by (eapply kept_mono; [by eapply auth_frame|]; intros ? _ ? []; reflexivity).
      destruct (_ =? _); intros w2 resp2 rc2 [= <- <- <-]; by split.
    + unfold dispatch_check_permission_new. pose proof (authz_frame (req_session_id r) (permission_code req) w) as Hk.
      destruct (authz_has_permission _ _ w) as [w' rc]. intros w2 resp2 rc2 [= <- <- <-]. split; [|done].
      eapply kept_mono; [exact Hk|]. by intros evs <-.
Qed.

Lemma kept_there P w w' : kept P w w' -> tx_there (tx_part w) -> tx_there (tx_part w').
Proof. intros (H1 & H2 & _). unfold tx_there. change (w_ctx (tx_part w')) with (ddl_ctx w'). by rewrite H1, H2. Qed.

(** Within a transaction an operation always has a reply, and DDL fails. *)
Lemma dispatch_one_within r e p w resp :
  active_tx (ddl_ctx w) <> None -> tx_there (tx_part w) -> type_of p <> OP_AUTHENTICATE ->
  exists w' resp' rc, dispatch_one ini filename r e p dml_execute w resp = Some (w', resp', rc) /\ (is_ddl (type_of p) = true -> rc <> 0).
Proof.
  intros Ha Hthere Hna. destruct (ddl_of p) as [op|] eqn:Ed.
  - rewrite (ddl_dispatch _ _ _ _ _ _ Ed). destruct (dispatch_ddl_within dml_execute (env_of r e) op w resp Ha) as (resp' & -> & _).
    eexists _, _, _. split; [reflexivity|done].
  - destruct p as [[req|]|[req|]|[req|]|[req|]|[req|]|[req|]|[req|]|[]|[]|[]|[]|[]|[]| | | |]; try discriminate Ed; try done;
      cbn [dispatch_one type_of is_ddl];
      try (eexists _, _, _; split; [reflexivity|done]);
      unfold dispatch_select_new, dispatch_insert_new, dispatch_update_new, dispatch_delete_new, dispatch_procedure_new, dispatch_check_permission_new;
      [match goal with |- context [execute_batch ?c ?b w] => destruct (batch_returns c b w Hthere) as [[w' ans] ->]; cbn [mbind option_bind] end..
      |destruct (authz_has_permission _ _ _) as [w' rc]];
      try destruct (_ && _); unfold batch_response; try destruct (_ =? _); try destruct (if is_json _ then _ else _);
      eexists _, _, _; (split; [reflexivity|done]).
Qed.

(** Every operation in its turn answers 0: what the last one leaves. *)
Fixpoint each_succeeds r (envs : nat -> op_env) (i : nat) (ops : list operation) w resp : option (ddl_world * response_object) :=
  match ops with
  | [] => Some (w, resp)
  | op :: ops' =>
      '(w, resp, rc) ← dispatch_one ini filename r (envs i) (op_payload op) dml_execute w resp;
      if rc =? 0 then each_succeeds r envs (S i) ops' w resp else None
  end.

Lemma operation_loop_within r envs ops : forall i w resp,
  active_tx (ddl_ctx w) <> None -> tx_there (tx_part w) -> Forall (fun op => type_of (op_payload op) <> OP_AUTHENTICATE) ops ->
  exists w' resp' rc, operation_loop ini filename dml_execute true r envs i ops 0 w resp = Some (w', resp', rc) /\
    kept no_commit w w' /\
    (rc <> 0 -> resp_status resp' = RESPONSE_STATUS_ERROR) /\
    (rc = 0 -> each_succeeds r envs i ops w resp = Some (w', resp')) /\
    (Exists (fun op => is_ddl (type_of (op_payload op)) = true) ops -> rc <> 0).
Proof.
  induction ops as [|op ops IH]; intros i w resp Ha Hthere Hna; cbn [operation_loop each_succeeds].
  { eexists _, _, _. split; [reflexivity|]. split; [by apply kept_refl|]. split; [done|]. split; [done|]. by intros Hx%Exists_nil. }
  apply Forall_cons_iff in Hna as [Hna1 Hna].
  destruct (dispatch_one_within r (envs i) (op_payload op) w resp Ha Hthere Hna1) as (w1 & resp1 & rc1 & E & Hd).
  destruct (dispatch_one_keeps _ _ _ _ _ (or_introl Ha) _ _ _ E) as [Hk Hs]. rewrite E. cbn [mbind option_bind].
  assert (kept no_commit w w1) as Hk1 by (eapply kept_mono; [exact Hk|]; auto).
  destruct (Z.eqb_spec rc1 0) as [->|Hrc]; cbn [negb andb].
  - destruct (IH (S i) w1 resp1) as (w2 & resp2 & rc2 & E2 & Hk2 & Hs2 & Ho2 & Hd2); [by destruct Hk as (_ & -> & _)|by eapply kept_there|done|].
    rewrite E2. eexists _, _, _. split; [reflexivity|]. split; [|split; [done|split; [done|]]].
    + eapply kept_trans; [exact Hk1|exact Hk2|]. intros e1 e2 H1 H2 rc [Hi|Hi]%in_app_or; [by apply (H1 rc)|by apply (H2 rc)].
    + intros Hx. apply Exists_cons in Hx as [Hx|Hx]; [by apply Hd in Hx|auto].
  - eexists _, _, _. by split_and!.
Qed.

Lemma operation_loop_keeps r envs (tx : bool) ops : forall i rc w resp w' resp' rc',
  Forall (fun op => op_acceptable (op_payload op)) ops ->
  operation_loop ini filename dml_execute tx r envs i ops rc w resp = Some (w', resp', rc') -> kept (fun _ => True) w w'.
Proof.
  induction ops as [|op ops IH]; intros i rc w resp w' resp' rc' Hops; cbn [operation_loop].
  { intros [= <- <- <-]. by apply kept_refl. }
  apply Forall_cons_iff in Hops as [Hop Hops].
  destruct (dispatch_one _ _ _ _ _ _ _ _) as [[[w1 resp1] rc1]|] eqn:E; [|done]. cbn [mbind option_bind].
  destruct (dispatch_one_keeps _ _ _ _ _ (or_intror Hop) _ _ _ E) as [Hk _].
  destruct (tx && negb (rc1 =? 0)); [intros [= <- <- <-]; by eapply kept_mono|]. intros E2.
  eapply kept_trans; [exact Hk|by eapply IH|done].
Qed.
End kept.

(** ** Transactions *)

Lemma rollback_no_commit c rc : ~ In (EvCommit rc) (rollback_log c).
Proof. unfold rollback_log. destruct (drv_rollback _); [|by intros []]. by intros [|[]]. Qed.

Section transactions.
Context `{ExecutorLaws} (ini : dispatch_ini) (filename : list ascii)
        (dml_execute : option (list (list ascii) -> list ascii -> Z * list ascii)).
Implicit Types (w : ddl_world) (resp : response_object) (r : request).

(** The transaction a request starts, with its handle at the end. *)
Definition in_transaction (e : request_env) (r : request) (w : ddl_world) : ddl_world * tx_handle :=
  let a := length (w_handles (tx_part w)) in
  let '(c, tx, _) := tx_begin (tx_rnd e) (begin_us e) (begin_s e) true true a (ddl_ctx w) (tx_init true)
                       (Some (req_session_id r)) (Some (transaction_name r)) in
  (set_tx_part (mk_world (set_active (Some a) (trace_txid c) c) (w_handles (tx_part w) ++ [tx])) w, tx).

Lemma in_transaction_spec e r w :
  let '(w1, tx) := in_transaction e r w in
  has_ctx tx = true /\ tx_state tx = TX_STATUS_ACTIVE /\ active_tx (ddl_ctx w1) = Some (length (w_handles (tx_part w))) /\
  driver (ddl_ctx w1) = driver (ddl_ctx w) /\ drv_log (ddl_ctx w1) = drv_log (ddl_ctx w) /\
  w_handles (tx_part w1) = w_handles (tx_part w) ++ [tx].
Proof. done. Qed.

(** The operations, in the transaction, and how it ends. *)
Lemma run_in_transaction e r w resp :
  transaction_required r = true ->
  run_operations ini filename dml_execute e r w resp =
    let '(w1, tx) := in_transaction e r w in
    '(w2, resp, rc) ← operation_loop ini filename dml_execute true r (ops_env e) 0 (operations r) 0 w1 resp;
    let a := length (w_handles (tx_part w)) in
    let tx := default tx (w_handles (tx_part w2) !! a) in
    if rc =? 0 then
      let '(c, tx, ans) := tx_commit (end_us e) true true (ddl_ctx w2) tx in
      if decide (tx_rc ans = TX_OK) then leave_transaction a c tx w2 resp rc
      else leave_transaction a c tx w2 (request_error e r (str "-") (str "TX_COMMIT_FAILED") (str "The transaction failed to commit") resp) (-1)
    else let '(c, tx, _) := tx_rollback (end_us e) true true (ddl_ctx w2) tx in leave_transaction a c tx w2 resp rc.
Proof. intros Ht. unfold run_operations, in_transaction. rewrite Ht. done. Qed.
End transactions.

(** How a transaction ends. *)
Lemma transaction_outcome `{ExecutorLaws} (ini : dispatch_ini) (filename : list ascii)
    (dml_execute : option (list (list ascii) -> list ascii -> Z * list ascii))
    (e : request_env) (r : request) (w : ddl_world) (resp : response_object) :
  transaction_required r = true ->
  Forall (fun op => type_of (op_payload op) <> OP_AUTHENTICATE) (operations r) ->
  exists w' resp' rc evs, run_operations ini filename dml_execute e r w resp = Some (w', resp', rc) /\
    active_tx (ddl_ctx w') = None /\
    drv_log (ddl_ctx w') = drv_log (ddl_ctx w) ++ evs /\
    (rc = 0 <-> In (EvCommit 0) evs) /\
    (rc = 0 -> is_Some (each_succeeds ini filename dml_execute r (ops_env e) 0 (operations r) (fst (in_transaction e r w)) resp)) /\
    (rc <> 0 -> resp_status resp' = RESPONSE_STATUS_ERROR /\ rollback_log (ddl_ctx w) `suffix_of` evs) /\
    (Exists (fun op => is_ddl (type_of (op_payload op)) = true) (operations r) -> rc <> 0).
Proof.
  intros Ht Hf. rewrite run_in_transaction by done.
  pose proof (in_transaction_spec e r w) as Hs. destruct (in_transaction e r w) as [w1 tx].
  destruct Hs as (Hc & Hst & Ha & Hd & Hl & Hh).
  destruct (operation_loop_within ini filename dml_execute r (ops_env e) (operations r) 0 w1 resp) as
    (w2 & resp2 & rc & -> & (Kh & Ka & Kd & e1 & Kl & Kn) & Hs2 & Hok & Hddl); [by rewrite Ha| |done|].
  { unfold tx_there. change (w_ctx (tx_part w1)) with (ddl_ctx w1). rewrite Ha, Hh, list_lookup_middle by done. by eexists. }
  cbn [mbind option_bind]. rewrite Kh, Hh, list_lookup_middle by done.
  change (default tx (Some tx)) with tx. destruct (Z.eqb_spec rc 0) as [->|Hrc].
  - unfold tx_commit. rewrite Hc, bool_decide_eq_true_2 by done. cbn [negb].
    destruct (commit_events (ddl_ctx w2) (max_retries tx) (retry_delay_ms tx)) as (e2 & L1 & L2 & L3).
    pose proof (retry_frame (ddl_ctx w2) (max_retries tx) (retry_delay_ms tx)) as [Hd2 _].
    destruct (tx_commit_with_retry _ _ _) as [[c rc2] n]. cbn [fst snd] in *.
    destruct (Z.eqb_spec rc2 0) as [->|Hrc2].
    + eexists _, _, _, (e1 ++ e2). split; [reflexivity|]. split; [done|].
      split; [cbn; by rewrite L1, Kl, Hl, app_assoc|]. split; [|split; [intros _; by rewrite Hok|by split]].
      split; [|done]. intros _. apply in_or_app. right. tauto.
    + eexists _, _, _, (e1 ++ e2 ++ rollback_log (ddl_ctx w)). split; [reflexivity|]. split; [done|].
      split; [|split; [|split; [done|split; [|done]]]].
      * unfold leave_transaction, ddl_ctx. cbn. change (w_ctx (tx_part w2)) with (ddl_ctx w2) in *.
        rewrite rollback_drv_log. unfold rollback_log. cbn [driver drv_log set_active]. rewrite L1, Kl, Hl, Hd2, Kd, Hd, !app_assoc. done.
      * split; [done|]. intros [Hi|[Hi|Hi]%in_app_or]%in_app_or; [by apply Kn in Hi|tauto|by apply rollback_no_commit in Hi].
      * intros _. split; [done|]. by apply suffix_app_r, suffix_app_r.
  - unfold tx_rollback. rewrite Hc, bool_decide_eq_true_2 by done. cbn [negb].
    eexists _, _, _, (e1 ++ rollback_log (ddl_ctx w)). split; [reflexivity|]. split; [done|].
    split; [|split; [|split; [done|split; [|done]]]].
    * unfold leave_transaction, ddl_ctx. cbn. change (w_ctx (tx_part w2)) with (ddl_ctx w2) in *.
      rewrite rollback_drv_log, Kl, Hl. unfold rollback_log. rewrite Kd, Hd. by rewrite app_assoc.
    * split; [done|]. intros [Hi|Hi]%in_app_or; [by apply Kn in Hi|by apply rollback_no_commit in Hi].
    * intros _. split; [by apply Hs2|by apply suffix_app_r].
Qed.

(** C2: a request that asks for a transaction is all or nothing, if it does
    not authenticate: it always comes to an end, in which no transaction is
    active; it returns 0 exactly when the database committed, once all its
    operations had succeeded; otherwise the response is an error and, last,
    the database was asked to roll back.  With a DDL operation in it, it never
    commits. *)
Theorem transaction_all_or_nothing `{ExecutorLaws} (ini : dispatch_ini) (filename : list ascii)
    (dml_execute : option (list (list ascii) -> list ascii -> Z * list ascii))
    (e : request_env) (r : request) (w : ddl_world) (resp : response_object) :
  transaction_required r = true ->
  Forall (fun op => type_of (op_payload op) <> OP_AUTHENTICATE) (operations r) ->
  exists w' resp' rc evs, run_operations ini filename dml_execute e r w resp = Some (w', resp', rc) /\
    active_tx (ddl_ctx w') = None /\
    drv_log (ddl_ctx w') = drv_log (ddl_ctx w) ++ evs /\
    (rc = 0 <-> In (EvCommit 0) evs) /\
    (rc = 0 -> is_Some (each_succeeds ini filename dml_execute r (ops_env e) 0 (operations r) (fst (in_transaction e r w)) resp)) /\
    (rc <> 0 -> resp_status resp' = RESPONSE_STATUS_ERROR /\ rollback_log (ddl_ctx w) `suffix_of` evs) /\
    (Exists (fun op => is_ddl (type_of (op_payload op)) = true) (operations r) -> rc <> 0).
Proof. apply transaction_outcome. Qed.

(** ** What gets as far as an operation *)

Section gates.
Context `{Executors} (ini : dispatch_ini) (filename : list ascii)
        (dml_execute : option (list (list ascii) -> list ascii -> Z * list ascii))
        (session_validate : list ascii -> Z) (level1_parse : list ascii -> nat -> res operation_status request)
        (level2 : request -> request * Z).

(** The request that is executed: it has an envelope, its session is valid -
    if sessions are checked, and but for one that only authenticates - and it
    passed Level 2. *)
Definition admitted (xml : list ascii) (len : nat) (override : option (list ascii)) (r' : request) : Prop :=
  exists r, level1_parse xml len = Ok r /\
    (validate_sessions ini = true -> standalone_authenticate r = false ->
     session_validate (req_session_id (with_session override r)) = SESSION_OK) /\
    level2 (with_session override r) = (r', LEVEL2_OK).

Lemma with_session_authenticate override r : standalone_authenticate (with_session override r) = standalone_authenticate r.
Proof. by destruct override as [[]|]. Qed.
End gates.

(** C4: no request of the new format reaches the database unless it was
    admitted: either it is, and what happens is what its operations do; or
    nothing was run, the return code is -1 and the response an error with a
    body. *)
Theorem only_admitted_requests_run `{Executors} (ini : dispatch_ini) (filename : list ascii)
    (dml_execute : option (list (list ascii) -> list ascii -> Z * list ascii)) (session_validate : list ascii -> Z)
    (level1_parse : list ascii -> nat -> res operation_status request) (level2 : request -> request * Z)
    (e : request_env) (xml : list ascii) (len : Z) (override : option (list ascii)) (w : dispatcher_world) (resp : response_object) :
  level1_looks_like_new_format xml (Z.to_nat len) = true ->
  let result := process_xml_file ini filename dml_execute session_validate level1_parse level2 e (Some xml) len override w resp in
  (exists r, admitted ini session_validate level1_parse level2 xml (Z.to_nat len) override r /\
     option_map (fun '(w', resp', rc) => (ddl_part w', resp', rc)) result = run_operations ini filename dml_execute e r (ddl_part w) resp)
  \/
  (exists w' resp' body, result = Some (w', resp', -1) /\ ddl_part w' = ddl_part w /\
     resp_status resp' = RESPONSE_STATUS_ERROR /\ response_body resp' = Some body).
Proof.
  intros Hn. cbv zeta. unfold process_xml_file. destruct (len <=? 0); [right; eexists _, _, _; split; [reflexivity|done]|].
  rewrite Hn. destruct (level1_parse xml (Z.to_nat len)) as [r|st] eqn:E1; [|right; eexists _, _, _; split; [reflexivity|done]].
  unfold process_request. cbn [ddl_part input_xml active_session_id active_audit_id thread_sid set_sid].
  match goal with |- context [negb (?s =? SESSION_OK)] => destruct (Z.eqb_spec s SESSION_OK) as [Es|Es] end; cbn [negb];
    [|right; eexists _, _, _; split; [reflexivity|done]].
  destruct (level2 (with_session override r)) as [r' rc2] eqn:E2.
  destruct (Z.eqb_spec rc2 LEVEL2_OK) as [->|Hrc].
  - left. exists r'. split.
    + exists r. split_and!; [done| |done]. intros Hv Ha. by rewrite Hv, with_session_authenticate, Ha in Es.
    + unfold reply_ddl. destruct (run_operations _ _ _ _ _ _ _) as [[[d resp'] rc]|]; done.
  - right. unfold level2_refusal. destruct (List.find _ _); eexists _, _, _; (split; [reflexivity|done]).
Qed.

(** A request in the older flat format needs no session: whatever
    [session_validate] says, and without a word of Level 2, the statement of
    its [sql] element is run - cut to 8191 characters. *)
Theorem flat_select_needs_no_session `{Executors} (ini : dispatch_ini) (filename : list ascii)
    (dml_execute : option (list (list ascii) -> list ascii -> Z * list ascii)) (session_validate : list ascii -> Z)
    (level1_parse : list ascii -> nat -> res operation_status request) (level2 : request -> request * Z)
    (e : request_env) (xml op sql : list ascii) (len : Z) (override : option (list ascii)) (w : dispatcher_world) (resp : response_object) :
  0 < len -> level1_looks_like_new_format xml (Z.to_nat len) = false ->
  extract_tag xml "operation" MAX_OPERATION_LEN = Some op -> upper op = str "SELECT" -> extract_tag xml "sql" (Z.to_nat 8192) = Some sql ->
  exists cfg, SQL cfg = Some sql /\
    option_map (fun '(w', _, rc) => (ddl_part w', rc))
      (process_xml_file ini filename dml_execute session_validate level1_parse level2 e (Some xml) len override w resp) =
    option_map (fun '(w', ans) => (w', batch_rc ans)) (execute_batch cfg CallQuery (ddl_part w)).
Proof.
  intros Hl Hn Ho Hu Hs. unfold process_xml_file. apply Z.leb_gt in Hl. rewrite Hl, Hn. unfold process_legacy. rewrite Ho, Hu.
  unfold str_eqb. rewrite (bool_decide_eq_false_2 (str "SELECT" = str "INSERT")) by done. rewrite bool_decide_eq_true_2 by done.
  unfold dispatch_select. rewrite Hs. cbn [ddl_part].
  unfold reply_ddl. change (ddl_part (set_sid [] w)) with (ddl_part w).
  set (cfg := mk_config (Some sql) (max_record_count ini) (fetch_batch ini) true true None filename None).
  exists cfg. split; [done|]. by destruct (execute_batch cfg CallQuery (ddl_part w)) as [[d ans]|].
Qed.

Lemma run_operations_leaves `{ExecutorLaws} ini filename dml_execute e r w resp w' resp' rc :
  active_tx (ddl_ctx w) = None -> Forall (fun op => op_acceptable (op_payload op)) (operations r) ->
  run_operations ini filename dml_execute e r w resp = Some (w', resp', rc) -> active_tx (ddl_ctx w') = None.
Proof.
  intros Ha Hops. destruct (transaction_required r) eqn:Ht.
  - rewrite run_in_transaction by done. destruct (in_transaction e r w) as [w1 tx].
    destruct (operation_loop _ _ _ _ _ _ _ _ _ _ _) as [[[w2 resp2] rc2]|]; [|done]. cbn [mbind option_bind].
    destruct (rc2 =? 0).
    + destruct (tx_commit _ _ _ _ _) as [[c tx'] ans]. by destruct (decide _); intros [= <- <- <-].
    + destruct (tx_rollback _ _ _ _ _) as [[c tx'] ans]. by intros [= <- <- <-].
  - unfold run_operations. rewrite Ht. intros E. apply operation_loop_keeps in E as (_ & -> & _); done.
Qed.

Lemma process_legacy_leaves `{ExecutorLaws} ini filename e xml w resp w' resp' rc :
  active_tx (ddl_ctx w) = None ->
  process_legacy ini filename e xml w resp = Some (w', resp', rc) -> active_tx (ddl_ctx w') = None.
Proof.
  intros Ha. unfold process_legacy, legacy_unsupported. destruct (extract_tag xml "operation" _) as [op|]; [|by intros [= <- _ _]].
  repeat (destruct (str_eqb _ _)); try (by intros [= <- _ _]).
  unfold dispatch_select. destruct (extract_tag xml "sql" _) as [sql|]; [|by intros [= <- _ _]].
  destruct (execute_batch _ _ _) as [[w1 ans]|] eqn:E; [|done]. cbn [mbind option_bind].
  destruct (batch_frame _ _ _ _ _ E (or_intror query_acceptable)) as (_ & Hk & _). intros [= <- _ _]. by rewrite Hk.
Qed.

(** Whatever comes in, a worker's context has no active transaction after
    a request if it had none before it - as long as Level 2 lets pass only what
    the modules accept when they check it again. *)
Theorem no_transaction_left `{ExecutorLaws} (ini : dispatch_ini) (filename : list ascii)
    (dml_execute : option (list (list ascii) -> list ascii -> Z * list ascii)) (session_validate : list ascii -> Z)
    (level1_parse : list ascii -> nat -> res operation_status request) (level2 : request -> request * Z)
    (e : request_env) (payload : option (list ascii)) (len : Z) (override : option (list ascii)) (w w' : dispatcher_world)
    (resp resp' : response_object) (rc : Z) :
  active_tx (ddl_ctx (ddl_part w)) = None ->
  (forall r r', level2 r = (r', LEVEL2_OK) -> Forall (fun op => op_acceptable (op_payload op)) (operations r')) ->
  process_xml_file ini filename dml_execute session_validate level1_parse level2 e payload len override w resp = Some (w', resp', rc) ->
  active_tx (ddl_ctx (ddl_part w')) = None.
Proof.
  intros Ha Hl2. unfold process_xml_file. destruct payload as [xml|]; [|by intros [= <- _ _]].
  destruct (len <=? 0); [by intros [= <- _ _]|]. destruct (level1_looks_like_new_format _ _).
  - destruct (level1_parse _ _) as [r|st]; [|by intros [= <- _ _]]. unfold process_request.
    destruct (negb _); [by intros [= <- _ _]|]. destruct (level2 _) as [r' rc2] eqn:El2. destruct (Z.eqb_spec rc2 LEVEL2_OK) as [->|]; [|by intros [= <- _ _]].
    apply Hl2 in El2.
    unfold reply_ddl. destruct (run_operations _ _ _ _ _ _ _) as [[[d resp2] rc3]|] eqn:E; [|done].
    intros [= <- _ _]. by eapply run_operations_leaves.
  - unfold reply_ddl. destruct (process_legacy _ _ _ _ _ _) as [[[d resp2] rc3]|] eqn:E; [|done].
    intros [= <- _ _]. by eapply process_legacy_leaves.
Qed.

(** ** A database to try it on *)

(** An UPDATE, an INSERT, a procedure and a query succeed; a DELETE fails,
    after it rolled back, as the module does.  Logins are those of
    [demo_start] (AuthManager.v). *)
Definition demo_batch (cfg : execute_config) (call : batch_call) (w : ddl_world) : option (ddl_world * batch_answer) :=
  match call with
  | CallDelete _ => Some (set_ctx (log_events [EvRollback 0] (ddl_ctx w)) w, mk_batch_answer (-1) None None)
  | _ => Some (w, mk_batch_answer 0 (Some (str "<ok/>")) (Some (str "{}")))
  end.

Definition demo_executors : Executors := {|
  execute_batch := demo_batch;
  authenticate req w :=
    '(aw, ans) ← @auth_authenticate _ demo_services 3 (fun _ => true) req (mk_auth_world (ddl_ctx w) (aw_db demo_start));
    Some (set_ctx (aw_ctx aw) w, ans);
  authz_has_permission _ _ w := (w, AUTHZ_OK);
|}.

Lemma demo_executor_laws : @ExecutorLaws demo_executors.
Proof.
  refine {| acceptable _ := True |}; [done| | | |].
  - intros cfg call w _. by destruct call; eexists.
  - intros cfg call w w' ans E _. destruct call; injection E as <- <-; try (apply kept_refl; intros _; apply no_commit_nil).
    split_and!; [done..|]. exists [EvRollback 0]. split; [done|]. by intros _ rc [|[]].
  - intros sid code w. by apply kept_refl.
  - intros req w w' ans. cbn [authenticate demo_executors].
    destruct (auth_authenticate _ _ _ _) as [[aw a]|] eqn:E; [|done]. intros [= <- <-].
    destruct (@authenticate_grows _ demo_services _ demo_laws _ _ _ _ _ _ E) as [(H1 & H2 & evs & H3) _].
    split_and!; [done|exact H1|exact H2|]. by exists evs.
Defined.

Definition open_world : ddl_world := mk_ddl_world (mk_world (aw_ctx demo_start) []) [] None [].
Definition demo_env : request_env :=
  mk_request_env true (fun _ => true) (fun _ => true) (replicate 16 7) 100 1 200
    (fun _ => mk_op_env (fun _ => true) (fun _ => true) true quiet_call quiet_call).
Definition demo_ini : dispatch_ini := mk_dispatch_ini true 1000 100.
Definition demo_run := @run_operations demo_executors demo_ini (str "r.xml") None demo_env.

Definition an_insert : operation_payload := Insert (Some (mk_insert (str "BOOKING") (str "APP") [])).
Definition a_delete : operation_payload := Delete (Some (mk_delete (str "BOOKING") (str "APP") [])).
Definition a_login : operation_payload := Authenticate (Some (mk_authenticate (str "alice") (str "wonder"))).

Definition run_summary (ops : list operation_payload) : option (Z * response_status * list drv_event) :=
  option_map (fun '(w, resp, rc) => (rc, resp_status resp, drv_log (ddl_ctx w)))
    (demo_run (demo_request ops) open_world response_object_init).

Example two_inserts_commit : run_summary [an_insert; an_insert] = Some (0, RESPONSE_STATUS_PASS, [EvCommit 0]).
Proof. vm_compute. reflexivity. Qed.

Example a_failure_rolls_back : run_summary [an_insert; a_delete; an_insert] = Some (-1, RESPONSE_STATUS_ERROR, [EvRollback 0; EvRollback 0]).
Proof. vm_compute. reflexivity. Qed.

Lemma transaction_all_or_nothing_witness :
  exists w' resp' rc evs, demo_run (demo_request [an_insert; CreateTable None]) open_world response_object_init = Some (w', resp', rc) /\
    drv_log (ddl_ctx w') = evs /\ rc <> 0 /\ ~ In (EvCommit 0) evs.
Proof.
  destruct (@transaction_all_or_nothing demo_executors demo_executor_laws demo_ini (str "r.xml") None demo_env
              (demo_request [an_insert; CreateTable None]) open_world response_object_init eq_refl
              ltac:(repeat constructor; discriminate)) as (w' & resp' & rc & evs & H1 & _ & H2 & H3 & _ & _ & H4).
  assert (rc <> 0) as Hrc by (apply H4, List.Exists_cons_tl, List.Exists_cons_hd; reflexivity).
  exists w', resp', rc, evs. split; [exact H1|]. split; [exact H2|]. split; [exact Hrc|]. intros Hi. apply Hrc, H3, Hi.
Defined.

(** The one exception.  An INSERT, a login, a DELETE that fails, as one
    transaction: the request fails, and is rolled back, but the INSERT was
    committed - by the login. *)
Theorem login_breaks_atomicity (ins : insert_request) (del : delete_request) :
  run_summary [Insert (Some ins); a_login; Delete (Some del)] = Some (-1, RESPONSE_STATUS_ERROR, [EvCommit 0; EvRollback 0; EvRollback 0]).
Proof. vm_compute. reflexivity. Qed.

(** ** Requests, from their text *)

Definition demo_world : dispatcher_world := mk_disp open_world None [] [] [].
Definition no_session (_ : list ascii) : Z := SESSION_ERR_NOT_FOUND.
Definition demo_level1 (_ : list ascii) (_ : nat) : res operation_status request := Ok (demo_request [demo_update]).

Definition demo_process (session : list ascii -> Z) (text : list ascii) :=
  @process_xml_file demo_executors demo_ini (str "r.xml") None session demo_level1 demo_validate demo_env (Some text)
    (Z.of_nat (length text)) None demo_world response_object_init.

Definition new_text : list ascii := str "<?xml version='1.0'?> <!-- booking --> <request version='1.0'></request>".
Definition flat_text : list ascii := str "<r><operation>select</operation><sql> SELECT * FROM APP_USER </sql></r>".

Definition summary (r : option (dispatcher_world * response_object * Z)) : option (Z * list ascii * list drv_event) :=
  option_map (fun '(w, resp, rc) => (rc, error_code resp, drv_log (ddl_ctx (ddl_part w)))) r.

Example without_session : summary (demo_process no_session new_text) = Some (-1, str "SESSION_NOT_FOUND", []).
Proof. vm_compute. reflexivity. Qed.

Example with_a_session : summary (demo_process (fun _ => SESSION_OK) new_text) = Some (0, str "-", [EvCommit 0]).
Proof. vm_compute. reflexivity. Qed.

Lemma only_admitted_requests_run_witness :
  exists r, @admitted demo_ini (fun _ => SESSION_OK) demo_level1 demo_validate new_text (length new_text) None r /\
    option_map (fun '(w', resp', rc) => (ddl_part w', resp', rc)) (demo_process (fun _ => SESSION_OK) new_text) =
      demo_run r open_world response_object_init.
Proof.
  destruct (@only_admitted_requests_run demo_executors demo_ini (str "r.xml") None (fun _ => SESSION_OK) demo_level1 demo_validate demo_env
              new_text (Z.of_nat (length new_text)) None demo_world response_object_init ltac:(vm_compute; reflexivity))
    as [(r & H1 & H2)|(w' & resp' & body & H & _)].
  - exists r. rewrite Nat2Z.id in H1. split; [exact H1|exact H2].
  - exfalso. apply (f_equal summary) in H. vm_compute in H. discriminate H.
Defined.

Lemma flat_select_needs_no_session_witness :
  exists cfg, SQL cfg = Some (str "SELECT * FROM APP_USER") /\
    option_map (fun '(w', _, rc) => (ddl_part w', rc)) (demo_process no_session flat_text) =
    option_map (fun '(w', ans) => (w', batch_rc ans)) (demo_batch cfg CallQuery open_world).
Proof.
  destruct (@flat_select_needs_no_session demo_executors demo_ini (str "r.xml") None no_session demo_level1 demo_validate demo_env
              flat_text (str "select") (str "SELECT * FROM APP_USER") (Z.of_nat (length flat_text)) None demo_world response_object_init
              ltac:(reflexivity) ltac:(vm_compute; reflexivity) ltac:(vm_compute; reflexivity) ltac:(vm_compute; reflexivity)
              ltac:(vm_compute; reflexivity)) as (cfg & H1 & H2).
  exists cfg. split; [exact H1|exact H2].
Defined.

Lemma no_transaction_left_witness :
  exists w' resp' rc, demo_process (fun _ => SESSION_OK) new_text = Some (w', resp', rc) /\ active_tx (ddl_ctx (ddl_part w')) = None.
Proof.
  eexists _, _, _. split; [vm_compute; reflexivity|].
  refine (@no_transaction_left demo_executors demo_executor_laws demo_ini (str "r.xml") None (fun _ => SESSION_OK) demo_level1 demo_validate
            demo_env (Some new_text) (Z.of_nat (length new_text)) None demo_world _ response_object_init _ _ eq_refl _ _).
  - intros r r' _. apply List.Forall_forall. intros op _. by destruct (op_payload op) as [[]|[]|[]|[]|[]|[]|[]|[]|[]|[]|[]|[]|[]| | | |].
  - vm_compute. reflexivity.
Defined.
