(* ===== verification/QueryBatch.v ===== *)
(** * QueryBatch: a SELECT

    src/src/execute/Execute_Query_Batch_Module.c with [trim_sql_inplace] of
    src/src/core/string_utils.c and [db_select_int] of
    src/src/execute/db_driver.c: a statement is answered from the result cache
    (ResultsetCache.v), or counted, fetched batch by batch through a cursor of
    the driver, copied into one result (ResultsetBuilder.v), rendered in both
    formats (ResponseWriter.v), stored and answered.  An asynchronous request
    takes another way through the same loop: each batch is rendered and handed
    to the callback at once, and the cache is left alone.

    The driver is a class: its state is threaded through, and the calls made
    to it are kept as a list.  A step that jumps to Cleanup with -1 is [None]
    in the monad [qstage]; [None] outside is undefined behaviour.  Metrics,
    log lines and the printed comparison of the JSON text with the result are
    left out; [xml_create] takes its memory without a look (XML_Helper.c), so
    the tests of its result never fail and are left out too. *)

From Stdlib Require Import Ascii String ZArith Lia Bool.
From stdpp Require Import base list strings numbers gmap.
From S2P Require Import Prelude Text Hash Cache CacheSpec SqlDependency ResultsetCache XmlHelper.
From S2P Require Import Level1Parser Level1Formats ResultsetBuilder ResponseWriter Dialect Dispatcher.

#[local] Open Scope Z_scope.

(** ** The text of the statement *)

(** From the left: control characters, blanks and the two bytes of a
    no-break space. *)
Fixpoint trim_front (s : list ascii) : list ascii :=
  match s with
  | [] => []
  | c :: s' =>
      if code c <=? 32 then trim_front s'
      else if code c =? 0xC2 then
        match s' with d :: s'' => if code d =? 0xA0 then trim_front s'' else s | [] => s end
      else s
  end.

(** From the right, the text reversed; the byte A0 alone goes as well. *)
Fixpoint trim_back (r : list ascii) : list ascii :=
  match r with
  | [] => []
  | c :: r' =>
      if code c <=? 32 then trim_back r'
      else if code c =? 0xA0 then
        match r' with d :: r'' => if code d =? 0xC2 then trim_back r'' else trim_back r' | [] => [] end
      else r
  end.

Definition trim_sql_inplace (s : list ascii) : list ascii := rev (trim_back (rev (trim_front s))).

(** ** The driver *)

(** [db_select_request_t]; there are no binds, and the timeout and the memory
    limit, which the dispatcher leaves 0, are not here. *)
Record db_select_request := mk_select_request { sr_sql : list ascii; sr_max_rows : Z; sr_fetch_array_size : Z; sr_column_names : bool }.

(** What a fetch gives: [out_rs], [out_rows_fetched] and the LOBs of
    [out_stats]. *)
Record fetched_batch := mk_fetched { batch_rs : option resultset; rows_fetched : Z; blob_count : Z; clob_count : Z }.

(** [select_open] gives the cursor, the number of columns and the size of a
    batch.  [rows_left] bounds the rows a cursor has yet to give. *)
Class SelectDriver := {
  select_dialect :: Dialect;
  db : Type;
  cursor : Type;
  select_open : db -> db_select_request -> db * option (cursor * Z * Z);
  select_fetch_batch : db -> cursor -> db * option (cursor * fetched_batch);
  select_close : db -> cursor -> db;
  rows_left : db -> cursor -> nat;
}.

Inductive select_event := EvOpen (r : db_select_request) (ok : bool) | EvFetch (rows : option Z) | EvClose.

(** A call of the batch callback. *)
Record delivery := mk_delivery { dl_text : list ascii; dl_json : bool; dl_final : bool; dl_number : Z }.

Record query_world `{SelectDriver} := mk_query_world {
  q_db : db; q_cache : option cache; q_log : list select_event; q_sent : list delivery }.
Arguments mk_query_world {_}.

(** What a call finds: the clock and the measured time of a lookup; which
    allocations succeed - those of [resultset_create], the copies of the XML
    texts, the JSON objects and the buffers of the batches, each by the number
    of its batch (0: the whole result) -; [cfg->xml] and the copy of the text
    handed out; the store in the cache and the address it finds; the time a
    batch or the whole query took. *)
Record query_env := mk_query_env {
  qe_now : Z; qe_us : Z; qe_rs : nat -> bool; qe_copy : Z -> bool; qe_json : Z -> bool; qe_buffer : Z -> bool;
  qe_config : bool; qe_out : bool; qe_dup : bool; qe_al : nat -> bool; qe_addr : nat; qe_elapsed : Z -> double }.

Section query.
Context `{SelectDriver} `{JsonPrinter}.

Definition set_db (d : db) (w : query_world) : query_world := mk_query_world d (q_cache w) (q_log w) (q_sent w).
Definition set_cache (c : option cache) (w : query_world) : query_world := mk_query_world (q_db w) c (q_log w) (q_sent w).
Definition log_select (d : db) (ev : select_event) (w : query_world) : query_world :=
  mk_query_world d (q_cache w) (q_log w ++ [ev]) (q_sent w).
Definition send (dl : delivery) (w : query_world) : query_world := mk_query_world (q_db w) (q_cache w) (q_log w) (q_sent w ++ [dl]).

Definition qstage (A : Type) : Type := query_world -> option (query_world * option A).
Definition qret {A} (a : A) : qstage A := fun w => Some (w, Some a).
Definition qfail {A} : qstage A := fun w => Some (w, None).
Definition undefined {A} : qstage A := fun _ => None.
Definition qbind {A B} (m : qstage A) (k : A -> qstage B) : qstage B :=
  fun w => match m w with None => None | Some (w, None) => Some (w, None) | Some (w, Some a) => k a w end.

Local Notation "'let!' x ':=' m 'in' k" := (qbind m (fun x => k)) (at level 10, x pattern, m at level 100, k at level 200).

Definition or_fail {A} (o : option A) : qstage A := match o with Some a => qret a | None => qfail end.
Definition defined {A} (o : option A) : qstage A := match o with Some a => qret a | None => undefined end.

Definition open_cursor (r : db_select_request) : qstage (cursor * Z * Z) :=
  fun w => let '(d, o) := select_open (q_db w) r in Some (log_select d (EvOpen r (is_some o)) w, o).
Definition fetch_next (c : cursor) : qstage (cursor * fetched_batch) :=
  fun w => let '(d, o) := select_fetch_batch (q_db w) c in Some (log_select d (EvFetch (rows_fetched ∘ snd <$> o)) w, o).
Definition close_cursor (c : cursor) : qstage unit := fun w => Some (log_select (select_close (q_db w) c) EvClose w, Some tt).

(** [... select_close(cursor); rc = -1; goto Cleanup;] *)
Definition close_and_fail {A} (c : cursor) : qstage A := let! _ := close_cursor c in qfail.

(** ** A number from the database *)

(** [strtoll(s, &end, 10)]: the number and what follows; [None]: there is no
    digit, or the number does not fit. *)
Definition strtoll (s : list ascii) : option (Z * list ascii) :=
  let s := skip isspace s in
  let '(neg, s) := match s with
                   | c :: s' => if Ascii.eqb c "-" then (true, s') else if Ascii.eqb c "+" then (false, s') else (false, s)
                   | [] => (false, s)
                   end in
  match span isdigit s with
  | [] => None
  | ds =>
      let n := if neg : bool then - read_dec ds 0 else read_dec ds 0 in
      if (- 2 ^ 63 <=? n) && (n <? 2 ^ 63) then Some (n, skip isdigit s) else None
  end.

(** Blanks before and after are skipped, nothing else may be there. *)
Definition whole_number (text : list ascii) : option Z :=
  '(v, rest) ← strtoll (skip is_blank text);
  match skip is_blank rest with [] => Some v | _ => None end.

(** The first row's first field, if there is exactly one row. *)
Definition only_value (first : fetched_batch) (more : Z) : option (list ascii) :=
  if rows_fetched first + more =? 1 then
    rs ← batch_rs first; r ← head (records rs); f ← head (fields r); Some (value f)
  else None.

(** The cursor is closed whatever happened after it was opened. *)
Definition then_close {A} (c : cursor) (m : qstage A) : qstage A :=
  fun w => match m w with
           | None => None
           | Some (w, o) => match close_cursor c w with None => None | Some (w, _) => Some (w, o) end
           end.

Definition read_number (c : cursor) (col_count : Z) : qstage Z :=
  let! _ := or_fail (if col_count =? 1 then Some tt else None) in
  let! (c, first) := fetch_next c in
  let! more := (if rows_fetched first =? 1 then let! (_, extra) := fetch_next c in qret (rows_fetched extra) else qret 0) in
  or_fail (only_value first more ≫= whole_number).

Definition db_select_int (sql : list ascii) : qstage Z :=
  let! (c, col_count, _) := open_cursor (mk_select_request sql 2 2 false) in
  then_close c (read_number c col_count).

(** ** Rows into the result *)

Definition copy_field (i : Z) (sf : resultset_field) (dst : resultset_row) : resultset_row :=
  if is_blob sf then
    let b := blob_detail sf in
    fst (resultset_set_blob_field dst i (Some (field_name sf)) (Some (bd_file_name b)) (Some (bd_file_path b)) (Some (bd_file_url b))
           (bd_file_size b) (Some (bd_mime_type b)))
  else fst (resultset_set_field dst i (Some (field_name sf)) (Some (field_type sf)) (Some (value sf))).

Fixpoint copy_fields (i : Z) (src : list resultset_field) (dst : resultset_row) : resultset_row :=
  match src with
  | [] => dst
  | sf :: src => copy_fields (i + 1) src (copy_field i sf dst)
  end.

(** [unsigned int] *)
Definition u32 (n : Z) : Z := n mod 2 ^ 32.

(** [None]: there is no row of this number. *)
Fixpoint copy_rows (src : list resultset_row) (abs_rownum : Z) (rs : resultset) : option (Z * resultset) :=
  match src with
  | [] => Some (abs_rownum, rs)
  | r :: src =>
      let abs_rownum := u32 (abs_rownum + 1) in
      i ← resultset_get_row rs (i32 abs_rownum);
      copy_rows src abs_rownum (mk_resultset (alter (copy_fields 0 (fields r)) i (records rs)))
  end.

(** [batch_rs->records[0 .. rows_fetched)]; [None]: there are not so many. *)
Definition batch_rows (f : fetched_batch) : option (list resultset_row) :=
  rs ← batch_rs f;
  if (rows_fetched f <=? record_count rs) then Some (take (Z.to_nat (rows_fetched f)) (records rs)) else None.

(** ** A batch for the callback *)

Definition bool_text (b : bool) : list ascii := if b then str "true" else str "false".

(** Without its outer braces. *)
Definition json_inside (body : list ascii) : list ascii :=
  match body with
  | c :: s => if Ascii.eqb c "{" && bool_decide (list.last s = Some "}"%char) then removelast s else body
  | [] => []
  end.

Record batch_facts := mk_batch_facts {
  bf_number : Z; bf_final : bool; bf_blobs : Z; bf_clobs : Z; bf_rows : Z; bf_truncated : bool; bf_elapsed : double }.

Definition member_of (name : string) (v : list ascii) : list ascii := quoted name ++ str ":" ++ v ++ str ",".

(** What [snprintf] leaves in a buffer of [inner_len + 512] bytes. *)
Definition json_batch (b : batch_facts) (body : list ascii) : list ascii :=
  let inner := json_inside body in
  take (length inner + 511)
    (str "{" ++ member_of "batch_number" (print_int (bf_number b)) ++ member_of "final" (bool_text (bf_final b)) ++
     member_of "blobs_extracted" (print_int (bf_blobs b)) ++ member_of "clobs_extracted" (print_int (bf_clobs b)) ++
     (if bf_final b then
        member_of "num_rows" (print_int (bf_rows b)) ++ member_of "execution_time_total" (print_fixed6 (bf_elapsed b)) ++
        member_of "truncated" (bool_text (bf_truncated b))
      else []) ++ inner ++ str "}").

Definition line (tag : string) (v : list ascii) : list ascii := element tag v ++ nl.

Definition xml_batch (b : batch_facts) (body : list ascii) : option (list ascii) :=
  x ← xml_start_document (xml_create (Z.of_nat (length body) + 1024)); x ← xml_start_execution x;
  x ← append_all
        ([line "batch_number" (print_int (bf_number b)); line "final" (bool_text (bf_final b));
          line "blobs_extracted" (print_int (bf_blobs b)); line "clobs_extracted" (print_int (bf_clobs b))] ++
         (if bf_final b then
            [line "num_rows" (print_int (bf_rows b)); line "execution_time_total" (print_fixed6 (bf_elapsed b));
             line "truncated" (bool_text (bf_truncated b))]
          else [])) x;
  x ← xml_end_execution x; x ← xml_append_raw (Some body) x; x ← xml_finalize x; Some (buffer x).

(** A batch that cannot be rendered, or for which there is no buffer, is not
    delivered. *)
Definition deliver (e : query_env) (json : bool) (b : batch_facts) (batch : resultset) : qstage unit :=
  let n := bf_number b in
  if json then
    match response_write_json (qe_json e n) (Some batch) with
    | Some body =>
        if qe_buffer e n then fun w => Some (send (mk_delivery (json_batch b body) true (bf_final b) n) w, Some tt) else qret tt
    | None => qret tt
    end
  else
    let! body := defined (response_write_xml (qe_copy e n) (Some batch)) in
    match body with
    | Some body =>
        let! text := defined (xml_batch b body) in
        fun w => Some (send (mk_delivery text false (bf_final b) n) w, Some tt)
    | None => qret tt
    end.

(** ** The fetch loop *)

Record loop_state := mk_loop {
  lp_cursor : cursor; abs_rownum : Z; lp_rs : resultset; BLOB_index : Z; CLOB_index : Z; batch_number : Z }.

Definition fetch_or_close (c : cursor) : qstage (cursor * fetched_batch) :=
  fun w => match fetch_next c w with
           | Some (w, None) => close_and_fail c w
           | r => r
           end.

(** A turn with rows: into the result, or to the callback. *)
Definition take_batch (e : query_env) (async json : bool) (record_count : Z) (truncated : bool) (c : cursor) (f : fetched_batch) (st : loop_state)
    : qstage loop_state :=
  let blobs := BLOB_index st + blob_count f in
  let clobs := CLOB_index st + clob_count f in
  if async then
    let rows := u32 (abs_rownum st + rows_fetched f) in
    let n := batch_number st + 1 in
    let facts := mk_batch_facts n (u32 record_count <=? rows) (blob_count f) (clob_count f) rows truncated (qe_elapsed e n) in
    let! _ := match batch_rs f with Some rs => deliver e json facts rs | None => qret tt end in
    qret (mk_loop c rows (lp_rs st) blobs clobs n)
  else
    let! rows := defined (batch_rows f) in
    match copy_rows rows (abs_rownum st) (lp_rs st) with
    | Some (n, rs) => qret (mk_loop c n rs blobs clobs (batch_number st))
    | None => close_and_fail c
    end.

(** Until a fetch gives no row. *)
Fixpoint fetch_loop (fuel : nat) (e : query_env) (async json : bool) (record_count : Z) (truncated : bool) (st : loop_state)
    : qstage loop_state :=
  let! (c, f) := fetch_or_close (lp_cursor st) in
  if rows_fetched f =? 0 then
    qret (mk_loop c (abs_rownum st) (lp_rs st) (BLOB_index st + blob_count f) (CLOB_index st + clob_count f) (batch_number st))
  else
    match fuel with
    | O => undefined
    | S fuel =>
        let! st := take_batch e async json record_count truncated c f st in
        fetch_loop fuel e async json record_count truncated st
    end.

(** ** A run *)

(** [cfg->ReturnFormat && strcasecmp(cfg->ReturnFormat, "JSON") == 0] *)
Definition wants_json (cfg : execute_config) : bool :=
  match ReturnFormat cfg with Some f => ci_eqb f (str "JSON") | None => false end.

Definition SQL_MAX : nat := Z.to_nat 4096.

(** The batch size asked for: 0 becomes 1, a negative one does not. *)
Definition fetch_size (n : Z) : Z := if u32 n <? 1 then 1 else i32 n.

Definition INT_MAX : Z := 2 ^ 31 - 1.

(** The rows there is room for, and whether there are more. *)
Definition capped (max counted : Z) : Z * bool :=
  let record_count := if INT_MAX <? counted then INT_MAX else if counted <? 0 then 0 else counted in
  if record_count <? 1 then (record_count, false)
  else if max <? record_count then (max, true)
  else (record_count, false).

Definition query_head (sql : list ascii) (truncated : bool) : option xml_builder :=
  x ← xml_start_document (xml_create 16384); x ← xml_start_execution x;
  x ← append_all [line "sql_query" sql; line "truncated" (bool_text truncated)] x; xml_end_execution x.

Definition query_document (e : query_env) (head : xml_builder) (st : loop_state) (batch_size : Z) (rs_xml : option (list ascii))
    : option (list ascii) :=
  x ← xml_append_raw rs_xml head; x ← xml_start_execution x;
  x ← append_all
        [line "num_rows" (print_int (abs_rownum st)); line "execution_time_total" (print_fixed6 (qe_elapsed e 0));
         line "fetch_batch_size" (print_int batch_size); line "blobs_extracted" (print_int (BLOB_index st));
         line "clobs_extracted" (print_int (CLOB_index st))] x;
  x ← xml_end_execution x; x ← xml_finalize x; Some (buffer x).

(** What a run ends with: the result, the rows fetched, the document. *)
Record query_result := mk_query_result { qr_rs : resultset; qr_rows : Z; qr_xml : list ascii }.

(** From the count to the open cursor: the rows there is room for, whether
    there are more, the cursor, its columns and its batch size. *)
Definition open_select (ini : dispatch_ini) (cfg : execute_config) (sql : list ascii) : qstage (Z * bool * (cursor * Z * Z)) :=
  let! query_count := or_fail (count_rows_sql sql SQL_MAX) in
  let! counted := db_select_int query_count in
  let '(record_count, truncated) := capped (max_record_count ini) counted in
  let! fetch_sql := (if truncated then or_fail (row_limit_sql sql record_count SQL_MAX) else qret sql) in
  let! opened := open_cursor (mk_select_request fetch_sql record_count (fetch_size (fetch_batch ini)) (cfg_column_names cfg)) in
  qret (record_count, truncated, opened).

(** The rows of an open cursor, and the document. *)
Definition read_cursor (e : query_env) (cfg : execute_config) (record_count : Z) (truncated : bool) (c : cursor) (rs : resultset) (head : xml_builder)
    (batch_size : Z) (fuel : nat) : qstage query_result :=
  let! st := fetch_loop fuel e (is_some (async_batch cfg)) (wants_json cfg) record_count truncated (mk_loop c 0 rs 0 0 0) in
  let! _ := close_cursor (lp_cursor st) in
  let! rs_xml := defined (response_write_xml (qe_copy e 0) (Some (lp_rs st))) in
  let! doc := defined (query_document e head st batch_size rs_xml) in
  qret (mk_query_result (lp_rs st) (abs_rownum st) doc).

(** From the open cursor to the document. *)
Definition read_select (e : query_env) (cfg : execute_config) (sql : list ascii) (record_count : Z) (truncated : bool) (c : cursor)
    (col_count batch_size : Z) : qstage query_result :=
  match resultset_create (qe_rs e) record_count col_count with
  | None => close_and_fail c
  | Some rs =>
      let! head := defined (query_head sql truncated) in
      fun w => read_cursor e cfg record_count truncated c rs head batch_size (rows_left (q_db w) c) w
  end.

Definition run_select (ini : dispatch_ini) (e : query_env) (cfg : execute_config) (sql : list ascii) : qstage query_result :=
  let! (record_count, truncated, (c, col_count, batch_size)) := open_select ini cfg sql in
  read_select e cfg sql record_count truncated c col_count batch_size.

(** ** The cache around it *)

Definition failed_answer : batch_answer := mk_batch_answer (-1) None None.

(** The texts of an entry, handed out as a copy; [None]: execute. *)
Definition serve (e : query_env) (json : bool) (entry : cache_entry) : option batch_answer :=
  let copy (s : list ascii) := if qe_out e then Some s else None in
  if json then
    text ← output_document_json entry; Some (mk_batch_answer 0 None (copy text))
  else Some (mk_batch_answer 0 (if qe_config e then copy (output_document entry) else None) None).

(** [None]: a release of an entry that is not there. *)
Definition try_cache (e : query_env) (cfg : execute_config) (key : option (list ascii)) (w : query_world)
    : option (query_world * option batch_answer) :=
  match key with
  | None => Some (w, None)
  | Some _ =>
      let '(c, hit) := resultset_cache_lookup (qe_now e) (qe_us e) (q_cache w) key in
      match hit with
      | None => Some (set_cache c w, None)
      | Some entry =>
          c ← resultset_cache_release c (Some (addr entry));
          match serve e (wants_json cfg) entry with
          | None => Some (set_cache c w, None)
          | Some ans =>
              Some (set_cache ((fun c => cache_update_exec_stats (qe_now e) c (dbl_of 0) (dbl_of 0) (row_count entry) true true) <$> c) w,
                    Some ans)
          end
      end
  end.

(** The key, when the cache is used. *)
Definition query_key (cfg : execute_config) (sql : list ascii) (c : option cache) : option (list ascii) :=
  match c, async_batch cfg with
  | Some _, None => resultset_cache_make_key (Some sql) (Z.to_nat 8192)
  | _, _ => None
  end.

Definition keep_result (e : query_env) (cfg : execute_config) (deps : DEPENDENCY_LIST) (key : option (list ascii)) (r : query_result)
    (w : query_world) : option (query_world * batch_answer) :=
  if qe_config e then
    let xml := if qe_out e then Some (qr_xml r) else None in
    let target := match key with Some (_ :: _) => q_cache w | _ => None end in
    let '(c, _, json) :=
      response_writer_cache_store (qe_json e 0) (qe_dup e) (qe_al e) (qe_addr e) (qe_now e) target (Some (default [] key)) (Some (qr_rs r)) xml
        (qr_rows r) (select_opts deps) in
    let c := match target, xml with
             | Some _, Some _ =>
                 (fun c => cache_update_exec_stats (qe_now e) c (dbl_mul (qe_elapsed e 0) (dbl_of 1000)) (dbl_of 0) (qr_rows r) false true) <$> c
             | _, _ => c
             end in
    Some (match target with Some _ => set_cache c w | None => w end, mk_batch_answer 0 xml (if wants_json cfg then json else None))
  else None.

(** A statement that is NULL is logged and Cleanup works on metrics that were
    never set up. *)
Definition execute_query_batch (ini : dispatch_ini) (e : query_env) (cfg : execute_config) (w : query_world)
    : option (query_world * batch_answer) :=
  match SQL cfg with
  | None => None
  | Some s =>
      let sql := trim_sql_inplace s in
      match extract_sql_dependencies (Some sql) with
      | Err _ => Some (w, failed_answer)
      | Ok deps =>
          let key := query_key cfg sql (q_cache w) in
          '(w, answer) ← try_cache e cfg key w;
          match answer with
          | Some ans => Some (w, ans)
          | None =>
              '(w, r) ← run_select ini e cfg sql w;
              match r with Some r => keep_result e cfg deps key r w | None => Some (w, failed_answer) end
          end
      end
  end.
End query.

(** ** What is relied on *)

(** A driver as db_driver.h has it: a cursor gives rows with the columns it was
    opened with, in arrays they fit, and comes to an end; a statement that can
    be counted is shorter than the text that counts it. *)
Class SelectLaws `{SelectDriver} := {
  columns : cursor -> nat;
  open_columns d r d' c n b : select_open d r = (d', Some (c, n, b)) -> n = Z.of_nat (columns c);
  fetch_columns d c d' c' f : select_fetch_batch d c = (d', Some (c', f)) -> columns c' = columns c;
  fetch_rows d c d' c' f : select_fetch_batch d c = (d', Some (c', f)) ->
    rows_fetched f = 0 \/
    exists rs, batch_rs f = Some rs /\ rows_fetched f = record_count rs /\ resultset_fits rs /\
      Forall (fun r => length (fields r) = columns c) (records rs);
  fetch_left d c d' c' f : select_fetch_batch d c = (d', Some (c', f)) ->
    (Z.to_nat (rows_fetched f) + rows_left d' c' <= rows_left d c)%nat;
  count_sql_longer sql n q : count_rows_sql sql n = Some q -> (length sql < n)%nat;
}.

(** The data: no field that overruns the array of the XML writer
    ([long_value_overruns]). *)
Class ShortRows `{SelectDriver} :=
  fetch_short d c d' c' f rs : select_fetch_batch d c = (d', Some (c', f)) -> batch_rs f = Some rs -> resultset_short rs.

Lemma oracle_count_longer sql n q : oracle_count_rows_sql (Some sql) n = Some q -> (length sql < n)%nat.
Proof.
  unfold oracle_count_rows_sql, oracle_fmt. cbn [mbind option_bind]. rewrite !length_app. destruct (Nat.ltb_spec (length (str "SELECT COUNT(*) FROM (SELECT 1 FROM (") + (length sql + length (str "))"))) n); [|done].
  intros _. lia.
Qed.

(** ** Copying rows *)

(** A field as the copy leaves it: no details of a file but for a BLOB. *)
Definition clean_field (f : resultset_field) : resultset_field :=
  if is_blob f then f else mk_rs_field (field_name f) (field_type f) (value f) false no_blob.
Definition clean_row (n : Z) (r : resultset_row) : resultset_row := mk_rs_row n (map clean_field (fields r)).

Fixpoint clean_rows (n : Z) (rows : list resultset_row) : list resultset_row :=
  match rows with [] => [] | r :: rows => clean_row n r :: clean_rows (n + 1) rows end.

Section copying.
Implicit Types (f : resultset_field) (r : resultset_row) (rows : list resultset_row) (rs : resultset).

Lemma set_clean f : field_fits f ->
  (if is_blob f then
     set_blob_of (Some (field_name f)) (Some (bd_file_name (blob_detail f))) (Some (bd_file_path (blob_detail f))) (Some (bd_file_url (blob_detail f)))
       (bd_file_size (blob_detail f)) (Some (bd_mime_type (blob_detail f))) blank_field
   else set_field_of (Some (field_name f)) (Some (field_type f)) (Some (value f)) blank_field) = clean_field f.
Proof.
  intros (H1 & H2 & H3 & (B1 & B2 & B3 & B4 & B5) & H4). unfold clean_field. destruct f as [name type val blob b]. cbn [field_name field_type value is_blob blob_detail] in *.
  destruct blob.
  - destruct (H4 eq_refl) as [-> ->]. unfold set_blob_of, cut_or. rewrite !cut_id by done. by destruct b.
  - unfold set_field_of, cut_or. by rewrite !cut_id by done.
Qed.

(** Field by field, into the rest of a row of blank fields. *)
Lemma copy_fields_spec n src : forall done_ rest,
  Forall field_fits src -> length src = length rest -> Forall (eq blank_field) rest ->
  copy_fields (Z.of_nat (length done_)) src (mk_rs_row n (done_ ++ rest)) = mk_rs_row n (done_ ++ map clean_field src).
Proof.
  induction src as [|f src IH]; intros done_ [|g rest] Hf Hl Hb; cbn in Hl; try lia; cbn [copy_fields map]; [done|].
  apply Forall_cons_iff in Hf as [Hf Hfs]. apply Forall_cons_iff in Hb as [<- Hb].
  assert (copy_field (Z.of_nat (length done_)) f (mk_rs_row n (done_ ++ blank_field :: rest)) =
            mk_rs_row n ((done_ ++ [clean_field f]) ++ rest)) as ->.
  { rewrite <- (set_clean f Hf), <- app_assoc. unfold copy_field, resultset_set_blob_field, resultset_set_field.
    assert (in_row (mk_rs_row n (done_ ++ blank_field :: rest)) (Z.of_nat (length done_)) = true) as ->.
    { unfold in_row. cbn [fields]. rewrite length_app. cbn [length]. apply negb_true_iff, orb_false_iff. split; [by apply Z.ltb_ge; lia|apply Z.leb_gt; lia]. }
    cbn [fst record_number fields]. rewrite Nat2Z.id. by destruct (is_blob f); rewrite alter_app_r_alt, Nat.sub_diag by lia. }
  replace (Z.of_nat (length done_) + 1) with (Z.of_nat (length (done_ ++ [clean_field f]))) by (rewrite length_app; cbn; lia).
  rewrite IH by (done || lia). by rewrite <- app_assoc.
Qed.

Lemma copy_row_spec n r cols : row_fits r -> length (fields r) = cols ->
  copy_fields 0 (fields r) (mk_rs_row n (replicate cols blank_field)) = clean_row n r.
Proof.
  intros Hf Hl. change 0 with (Z.of_nat (length ([] : list resultset_field))).
  change (replicate cols blank_field) with ([] ++ replicate cols blank_field). rewrite copy_fields_spec; [done|done|by rewrite length_replicate|].
  by apply Forall_replicate.
Qed.

Lemma clean_rows_length n rows : length (clean_rows n rows) = length rows.
Proof. revert n. induction rows as [|r rows IH]; intros n; cbn; [done|]. by rewrite IH. Qed.

Lemma clean_rows_app n rows rows' : clean_rows n (rows ++ rows') = clean_rows n rows ++ clean_rows (n + Z.of_nat (length rows)) rows'.
Proof.
  revert n. induction rows as [|r rows IH]; intros n; cbn [app clean_rows length]; [by rewrite Z.add_0_r|]. rewrite IH. do 3 f_equal. lia.
Qed.

Lemma drop_blank n m : forall from k, (k < n)%nat ->
  drop k (blank_rows from n m) = mk_rs_row (from + Z.of_nat k) (replicate m blank_field) :: drop (S k) (blank_rows from n m).
Proof.
  induction n as [|n IH]; intros from [|k] Hk; cbn [blank_rows drop]; try lia.
  - by rewrite Z.add_0_r.
  - rewrite (IH (from + 1)) by lia. f_equal. by replace (from + 1 + Z.of_nat k) with (from + Z.of_nat (S k)) by lia.
Qed.

(** The result after some rows: those, numbered, then the blank ones. *)
Definition filled (n cols : nat) (rows : list resultset_row) : resultset :=
  mk_resultset (clean_rows 1 rows ++ drop (length rows) (blank_rows 1 n cols)).

Lemma filled_length n cols rows : (length rows <= n)%nat -> length (records (filled n cols rows)) = n.
Proof. intros H. unfold filled. cbn [records]. rewrite length_app, clean_rows_length, length_drop, blank_rows_length. lia. Qed.

(** The row after those: the array's next one, or none. *)
Lemma next_row n cols rows : Z.of_nat n < 2 ^ 31 -> (length rows <= n)%nat ->
  resultset_get_row (filled n cols rows) (i32 (Z.of_nat (length rows) + 1)) = if Nat.ltb (length rows) n then Some (length rows) else None.
Proof.
  intros Hn Hl. unfold i32. rewrite Z.mod_small by lia.
  destruct (Nat.ltb_spec (length rows) n).
  - destruct (Z.ltb_spec (Z.of_nat (length rows) + 1) (2 ^ 31)); [|lia]. apply get_row_spec. rewrite filled_length by lia. lia.
  - destruct (resultset_get_row _ _) as [i|] eqn:E; [|done]. apply get_row_spec in E as [E Hi]. rewrite filled_length in Hi by lia.
    destruct (Z.ltb_spec (Z.of_nat (length rows) + 1) (2 ^ 31)); lia.
Qed.

Lemma copy_rows_spec n cols src : forall rows,
  (Z.of_nat n < 2 ^ 31) -> (length rows <= n)%nat -> Forall (fun r => row_fits r /\ length (fields r) = cols) src ->
  copy_rows src (Z.of_nat (length rows)) (filled n cols rows) =
    if Nat.leb (length rows + length src) n then Some (Z.of_nat (length (rows ++ src)), filled n cols (rows ++ src)) else None.
Proof.
  induction src as [|r src IH]; intros rows Hn Hl Hs; cbn [copy_rows length].
  - rewrite app_nil_r, Nat.add_0_r. by destruct (Nat.leb_spec (length rows) n); [|lia].
  - apply Forall_cons_iff in Hs as [[Hf Hc] Hs]. unfold u32. rewrite Z.mod_small by lia. rewrite next_row by lia.
    destruct (Nat.ltb_spec (length rows) n); cbn [mbind option_bind].
    + assert (mk_resultset (alter (copy_fields 0 (fields r)) (length rows) (records (filled n cols rows))) = filled n cols (rows ++ [r])) as ->.
      { unfold filled. cbn [records]. f_equal. rewrite (drop_blank n cols 1 (length rows)) by lia.
        rewrite alter_app_r_alt, clean_rows_length, Nat.sub_diag by (rewrite clean_rows_length; lia). cbn [alter list_alter].
        rewrite copy_row_spec by done. rewrite clean_rows_app, length_app, Nat.add_1_r. cbn [clean_rows length]. by rewrite <- app_assoc. }
      replace (Z.of_nat (length rows) + 1) with (Z.of_nat (length (rows ++ [r]))) by (rewrite length_app; cbn; lia).
      rewrite IH; [|lia|rewrite length_app; cbn; lia|done]. rewrite length_app, <- app_assoc. cbn [length app].
      by replace (length rows + 1 + length src)%nat with (length rows + S (length src))%nat by lia.
    + by destruct (Nat.leb_spec (length rows + S (length src)) n); [lia|].
Qed.
End copying.

(** ** What a cursor gives *)

(** The batches with rows, and how it ends: with a last, empty one, or with a
    failure. *)
Fixpoint drain_cursor `{SelectDriver} (fuel : nat) (d : db) (c : cursor) : list fetched_batch * bool :=
  match select_fetch_batch d c with
  | (_, None) => ([], false)
  | (d, Some (c, f)) =>
      if rows_fetched f =? 0 then ([], true)
      else match fuel with
           | O => ([], false)
           | S fuel => let '(l, ok) := drain_cursor fuel d c in (f :: l, ok)
           end
  end.

Definition rows_of (l : list fetched_batch) : list resultset_row := concat (map (fun f => default [] (records <$> batch_rs f)) l).

(** The rows of a cursor, in order; [None]: a fetch fails. *)
Definition cursor_rows `{SelectDriver} (d : db) (c : cursor) : option (list resultset_row) :=
  let '(l, ok) := drain_cursor (rows_left d c) d c in if ok then Some (rows_of l) else None.

Section fetching.
Context `{SelectLaws}.

Lemma fetched_rows_spec d c d' c' f : select_fetch_batch d c = (d', Some (c', f)) -> rows_fetched f <> 0 ->
  exists rows, batch_rs f = Some (mk_resultset rows) /\ batch_rows f = Some rows /\ rows <> [] /\ rows_fetched f = Z.of_nat (length rows) /\
    Forall (fun r => row_fits r /\ length (fields r) = columns c) rows /\ columns c' = columns c /\
    (length rows + rows_left d' c' <= rows_left d c)%nat.
Proof.
  intros Hf Hn. pose proof (fetch_left _ _ _ _ _ Hf) as Hleft. pose proof (fetch_columns _ _ _ _ _ Hf) as Hcols.
  destruct (fetch_rows _ _ _ _ _ Hf) as [?|(rs & Hb & Hr & Hfit & Hw)]; [done|]. exists (records rs). unfold batch_rows, record_count in *. rewrite Hb. cbn [mbind option_bind].
  rewrite Hr, Z.leb_refl, Nat2Z.id, take_ge by lia. destruct rs as [rows]. cbn [records] in *. split_and!; try done.
  - destruct rows; [by rewrite Hr in Hn|done].
  - by apply List.Forall_and.
  - rewrite Hr, Nat2Z.id in Hleft. lia.
Qed.

Lemma rows_of_cons f l rows : batch_rs f = Some (mk_resultset rows) -> rows_of (f :: l) = rows ++ rows_of l.
Proof. intros E. unfold rows_of. cbn [map concat]. by rewrite E. Qed.

Lemma fetch_failed c w d : select_fetch_batch (q_db w) c = (d, None) ->
  exists w', fetch_or_close c w = Some (w', None) /\ q_cache w' = q_cache w /\ q_sent w' = q_sent w.
Proof. intros E. unfold fetch_or_close, fetch_next, close_and_fail, qbind, close_cursor, qfail. rewrite E. by eexists. Qed.

Lemma fetch_given c w d c' f : select_fetch_batch (q_db w) c = (d, Some (c', f)) ->
  exists w', fetch_or_close c w = Some (w', Some (c', f)) /\ q_db w' = d /\ q_cache w' = q_cache w /\ q_sent w' = q_sent w.
Proof. intros E. unfold fetch_or_close, fetch_next. rewrite E. by eexists. Qed.

End fetching.

Section loop.
Context `{SelectLaws} `{JsonPrinter} (e : query_env) (json : bool) (n : nat) (truncated : bool).
Hypothesis small : Z.of_nat n < 2 ^ 31.

Lemma loop_rows fuel : forall c rows st w,
  (rows_left (q_db w) c <= fuel)%nat -> (length rows <= n)%nat ->
  lp_cursor st = c -> abs_rownum st = Z.of_nat (length rows) -> lp_rs st = filled n (columns c) rows ->
  let '(l, ok) := drain_cursor fuel (q_db w) c in
  exists w' st', fetch_loop fuel e false json (Z.of_nat n) truncated st w =
      Some (w', if ok && Nat.leb (length rows + length (rows_of l)) n then Some st' else None) /\
    q_cache w' = q_cache w /\ q_sent w' = q_sent w /\
    abs_rownum st' = Z.of_nat (length (rows ++ rows_of l)) /\ lp_rs st' = filled n (columns c) (rows ++ rows_of l).
Proof.
  induction fuel as [|fuel IH]; intros c rows st w Hfuel Hl Hc Ha Hr; cbn [drain_cursor fetch_loop]; unfold qbind; rewrite Hc;
    (destruct (select_fetch_batch (q_db w) c) as [d [[c' f]|]] eqn:Ef;
      [destruct (fetch_given _ _ _ _ _ Ef) as (w1 & -> & Hd & Hca & Hse)
      |destruct (fetch_failed _ _ _ Ef) as (w1 & -> & Hca & Hse); cbv beta iota; eexists w1, (mk_loop c (Z.of_nat (length (rows ++ rows_of []))) (filled n (columns c) (rows ++ rows_of [])) 0 0 0);
       by split_and!]).
  1,2: destruct (Z.eqb_spec (rows_fetched f) 0) as [E|Hn].
  1,3: eexists w1, _; change (rows_of []) with (@nil resultset_row); rewrite Nat.add_0_r, app_nil_r;
       (destruct (Nat.leb_spec (length rows) n); [|lia]); cbn [andb]; (split; [reflexivity|]); by split_and!.
  - destruct (fetched_rows_spec _ _ _ _ _ Ef Hn) as ([|r rows'] & _ & _ & Hne & _ & _ & _ & Hleft); [done|cbn in Hleft; lia].
  - destruct (fetched_rows_spec _ _ _ _ _ Ef Hn) as (rows' & Hb & Hbr & Hne & Hrf & Hfit & Hcols & Hleft).
    unfold take_batch, qbind. rewrite Hbr, Ha, Hr. cbn [defined qret]. rewrite copy_rows_spec by done.
    destruct (Nat.leb_spec (length rows + length rows') n) as [Hle|Hgt].
    + specialize (IH c' (rows ++ rows') (mk_loop c' (Z.of_nat (length (rows ++ rows'))) (filled n (columns c) (rows ++ rows'))
        (BLOB_index st + blob_count f) (CLOB_index st + clob_count f) (batch_number st)) w1).
      rewrite Hd in IH. destruct (drain_cursor fuel d c') as [l ok]. destruct IH as (w' & st' & E & I1 & I2 & I3 & I4); try done.
      { destruct rows'; [done|cbn in Hleft; lia]. } { rewrite length_app; lia. } { cbn [lp_rs]. by rewrite Hcols. }
      exists w', st'. rewrite (rows_of_cons f l rows') by done. cbn [qret]. rewrite E, !length_app, Nat.add_assoc. rewrite <- app_assoc in I3, I4.
      rewrite Hcols in I4. split; [done|]. split_and!; [congruence|congruence|rewrite I3, !length_app; lia|done].
    + destruct (drain_cursor fuel d c') as [l ok]. unfold close_and_fail, qbind, close_cursor, qfail.
      eexists _, (mk_loop c (Z.of_nat (length (rows ++ rows_of (f :: l)))) (filled n (columns c) (rows ++ rows_of (f :: l))) 0 0 0).
      rewrite (rows_of_cons f l rows') by done. rewrite !length_app. destruct (Nat.leb_spec (length rows + (length rows' + length (rows_of l))) n); [lia|].
      rewrite andb_false_r. split; [reflexivity|]. cbn [q_cache q_sent log_select abs_rownum lp_rs]. split_and!; [done|done|by rewrite ?length_app|done].
Qed.
End loop.

(** ** The documents can be built *)

Section documents.
Implicit Types (t s : list ascii) (x : xml_builder) (f : resultset_field) (rows : list resultset_row).

(** A text so far begins with [p]. *)
Definition starts (p : list ascii) x : Prop := xml_ok x /\ p `prefix_of` buffer x.

Lemma append_ok p t x : starts p x -> (length t < XML_TEMP)%nat -> exists x', xml_append t x = Some x' /\ starts p x'.
Proof. intros [Hx Hp] Ht. destruct (xml_append_ok x t Hx Ht) as (x' & E & Eb & H). exists x'. split; [done|]. split; [done|]. rewrite Eb. by apply prefix_app_r. Qed.

Lemma lines_ok p l x : starts p x -> Forall (fun t => (length t < XML_TEMP)%nat) l -> exists x', append_all l x = Some x' /\ starts p x'.
Proof. intros [Hx Hp] Hl. destruct (append_all_ok l x Hx Hl) as (x' & E & Eb & H). exists x'. split; [done|]. split; [done|]. rewrite Eb. by apply prefix_app_r. Qed.

Lemma line_short tag s : (2 * String.length tag + 6 + length s < XML_TEMP)%nat -> (length (line tag s) < XML_TEMP)%nat.
Proof. intros H. unfold line. rewrite length_app, element_length. change (length nl) with 1%nat. lia. Qed.

Lemma number_line tag n : (String.length tag <= 20)%nat -> (length (line tag (print_int n)) < XML_TEMP)%nat.
Proof. intros Ht. apply line_short. pose proof (print_int_short n). unfold XML_TEMP. lia. Qed.
Lemma time_line tag d : (String.length tag <= 20)%nat -> (length (line tag (print_fixed6 d)) < XML_TEMP)%nat.
Proof. intros Ht. apply line_short. pose proof (print_fixed6_short d). unfold XML_TEMP. lia. Qed.
Lemma bool_line tag b : (String.length tag <= 20)%nat -> (length (line tag (bool_text b)) < XML_TEMP)%nat.
Proof. intros Ht. apply line_short. destruct b; cbn [bool_text str String.list_ascii_of_string length]; unfold XML_TEMP; lia. Qed.

(** One literal after the other. *)
Ltac literals :=
  repeat match goal with
         | H : starts ?p ?x |- context [xml_append ?t ?x] =>
             destruct (append_ok p t x H) as (? & -> & ?); [apply Nat.ltb_lt; vm_compute; reflexivity|]; clear H; cbn [mbind option_bind]
         end.

Ltac short_lines :=
  repeat (apply List.Forall_cons; [first [apply number_line|apply time_line|apply bool_line]; vm_compute; lia|]); apply List.Forall_nil.

Lemma query_head_ok sql truncated : (length sql < SQL_MAX)%nat -> exists x, query_head sql truncated = Some x /\ xml_ok x.
Proof.
  intros Hs. unfold query_head, xml_start_document, xml_start_execution, xml_end_execution.
  assert (starts [] (xml_create 16384)) as Hx by (split; [reflexivity|apply prefix_nil]). literals.
  match goal with H : starts ?p ?x |- context [append_all ?l ?x] => destruct (lines_ok p l x H) as (y & -> & Hy) end.
  - apply List.Forall_cons; [|short_lines]. apply line_short. cbn [String.length]. unfold SQL_MAX, XML_TEMP in *. lia.
  - cbn [mbind option_bind]. literals. eexists. split; [reflexivity|]. by match goal with H : starts _ _ |- _ => destruct H end.
Qed.

Lemma raw_ok o x : xml_ok x -> exists x', xml_append_raw o x = Some x' /\ starts (buffer x ++ default [] o) x'.
Proof.
  intros Hx. destruct o as [s|]; [|exists x; by rewrite app_nil_r]. destruct (append_raw_ok x s Hx) as (x' & E & Eb & H). exists x'.
  split; [done|]. split; [done|]. by rewrite Eb.
Qed.

Context `{SelectDriver}.

(** What has been written, then the text of the result, then the figures. *)
Lemma query_document_ok e x st b rs_xml : xml_ok x ->
  exists doc, query_document e x st b rs_xml = Some doc /\ (buffer x ++ default [] rs_xml) `prefix_of` doc.
Proof.
  intros Hx. unfold query_document, xml_start_execution, xml_end_execution, xml_finalize.
  destruct (raw_ok rs_xml x Hx) as (x1 & -> & H1). cbn [mbind option_bind]. clear Hx. literals.
  match goal with H : starts ?p ?x |- context [append_all ?l ?x] => destruct (lines_ok p l x H) as (y & -> & Hy); [short_lines|clear H] end.
  cbn [mbind option_bind]. literals. eexists. split; [reflexivity|]. by match goal with H : starts _ _ |- _ => destruct H end.
Qed.

Lemma xml_batch_ok b body : is_Some (xml_batch b body).
Proof.
  unfold xml_batch, xml_start_document, xml_start_execution, xml_end_execution, xml_finalize.
  assert (starts [] (xml_create (Z.of_nat (length body) + 1024))) as Hx
    by (split; [unfold xml_ok, size, xml_create; cbn [buffer capacity length]; lia|apply prefix_nil]). literals.
  match goal with H : starts ?p ?x |- context [append_all ?l ?x] => destruct (lines_ok p l x H) as (y & -> & Hy); [|clear H] end.
  { apply Forall_app. split; [short_lines|]. destruct (bf_final b); [short_lines|constructor]. }
  cbn [mbind option_bind]. literals.
  match goal with H : starts _ ?x |- context [xml_append_raw ?o ?x] => destruct (raw_ok o x (proj1 H)) as (z & -> & Hz); clear H end.
  cbn [mbind option_bind]. literals. by eexists.
Qed.

(** *** The rows *)

Lemma clean_pieces f : field_pieces (clean_field f) = field_pieces f.
Proof. unfold clean_field. destruct (is_blob f) eqn:E; [done|]. unfold field_pieces. rewrite E. reflexivity. Qed.

Lemma clean_rows_short n rows : Forall (fun r => Forall field_short (fields r)) rows -> Forall (fun r => Forall field_short (fields r)) (clean_rows n rows).
Proof.
  intros Hr. revert n. induction Hr as [|r rows Hr _ IH]; intros n; cbn [clean_rows]; constructor; [|apply IH].
  cbn [clean_row fields]. apply Forall_map. eapply List.Forall_impl; [|exact Hr]. intros f. unfold field_short. by rewrite clean_pieces.
Qed.

Lemma blank_rows_short from n m : Forall (fun r => Forall field_short (fields r)) (blank_rows from n m).
Proof.
  revert from. induction n as [|n IH]; intros from; cbn [blank_rows]; constructor; [|apply IH]. cbn [fields]. apply Forall_replicate.
  unfold field_short. constructor; [apply Nat.ltb_lt; vm_compute; reflexivity|constructor].
Qed.

Lemma filled_short n cols rows : Forall (fun r => Forall field_short (fields r)) rows -> resultset_short (filled n cols rows).
Proof.
  intros Hr. unfold resultset_short, filled. cbn [records]. apply Forall_app. split; [by apply clean_rows_short|]. apply Forall_drop, blank_rows_short.
Qed.
End documents.

(** ** A run returns, and what it returns *)

Section run.
Context `{SelectLaws} `{!ShortRows} `{JsonPrinter}.
Implicit Types (w : query_world) (d : db) (c : cursor) (rows : list resultset_row).

Lemma capped_spec max counted n truncated : 0 <= max < INT_MAX -> capped max counted = (n, truncated) ->
  0 <= n <= max /\ (truncated = true -> n = max /\ max < counted) /\ (truncated = false -> n = Z.max 0 counted).
Proof.
  unfold capped, INT_MAX. intros Hm.
  destruct (Z.ltb_spec (2 ^ 31 - 1) counted); [|destruct (Z.ltb_spec counted 0)]; cbn [Z.ltb Z.compare].
  - destruct (Z.ltb_spec (2 ^ 31 - 1) 1); [lia|]. destruct (Z.ltb_spec max (2 ^ 31 - 1)); intros [= <- <-]; split_and!; try done; lia.
  - destruct (Z.ltb_spec 0 1); [|lia]. intros [= <- <-]. split_and!; try done; lia.
  - destruct (Z.ltb_spec counted 1); [intros [= <- <-]; split_and!; try done; lia|].
    destruct (Z.ltb_spec max counted); intros [= <- <-]; split_and!; try done; lia.
Qed.

Lemma drain_short fuel d c : Forall (fun r => Forall field_short (fields r)) (rows_of (fst (drain_cursor fuel d c))).
Proof.
  revert d c. induction fuel as [|fuel IH]; intros d c; cbn [drain_cursor]; destruct (select_fetch_batch d c) as [d' [[c' f]|]] eqn:E; try apply List.Forall_nil;
    (destruct (Z.eqb_spec (rows_fetched f) 0) as [Hz|Hn]; [apply List.Forall_nil|]); [apply List.Forall_nil|].
  specialize (IH d' c'). destruct (drain_cursor fuel d' c') as [l ok]. cbn [fst] in *. destruct (fetched_rows_spec _ _ _ _ _ E Hn) as (rows & Hb & _).
  rewrite (rows_of_cons f l rows) by done. apply Forall_app. split; [|done]. exact (fetch_short _ _ _ _ _ _ E Hb).
Qed.

(** The rows fetched into a blank result of [n] rows, and the document. *)
Lemma read_cursor_rows e cfg n truncated c head b w :
  async_batch cfg = None -> 0 <= n <= INT_MAX -> xml_ok head ->
  exists w' o, read_cursor e cfg n truncated c (filled (Z.to_nat n) (columns c) []) head b (rows_left (q_db w) c) w = Some (w', o) /\
    q_cache w' = q_cache w /\ q_sent w' = q_sent w /\
    match cursor_rows (q_db w) c with
    | Some rows =>
        let rs := filled (Z.to_nat n) (columns c) rows in
        if Nat.leb (length rows) (Z.to_nat n) then
          exists doc text, o = Some (mk_query_result rs (Z.of_nat (length rows)) doc) /\
            response_write_xml (qe_copy e 0) (Some rs) = Some text /\ (buffer head ++ default [] text) `prefix_of` doc
        else o = None
    | None => o = None
    end.
Proof.
  intros Ha Hn Hh. unfold read_cursor. rewrite Ha. cbn [is_some].
  pose proof (loop_rows e (wants_json cfg) (Z.to_nat n) truncated ltac:(unfold INT_MAX in *; lia) (rows_left (q_db w) c) c []
    (mk_loop c 0 (filled (Z.to_nat n) (columns c) []) 0 0 0) w (Nat.le_refl _) ltac:(cbn; lia) eq_refl eq_refl eq_refl) as Hl.
  pose proof (drain_short (rows_left (q_db w) c) (q_db w) c) as Hshort. unfold cursor_rows.
  destruct (drain_cursor (rows_left (q_db w) c) (q_db w) c) as [l ok]. cbn [fst] in Hshort. rewrite Z2Nat.id in Hl by lia.
  destruct Hl as (w' & st' & E & Hca & Hse & Hab & Hrs). unfold qbind at 1. rewrite E.
  cbn [length app Nat.add] in *. destruct ok; cbn [andb]; [|by exists w', None].
  destruct (Nat.leb_spec (length (rows_of l)) (Z.to_nat n)); [|by exists w', None].
  unfold qbind, close_cursor. rewrite Hrs, resultset_text by (by apply filled_short). cbn [defined qret].
  match goal with |- context [query_document e head st' b ?t] => destruct (query_document_ok e head st' b t Hh) as (doc & -> & Hp) end.
  cbn [defined qret]. eexists _, _. split; [reflexivity|]. do 2 (split; [done|]). rewrite Hab. by eexists _, _.
Qed.

End run.

(** ** Every cursor that was opened is closed *)

(** The calls in their order, from a state with a cursor open or not; [None]:
    a second cursor, or a call without one. *)
Fixpoint trace (is_open : bool) (evs : list select_event) : option bool :=
  match evs with
  | [] => Some is_open
  | EvOpen _ ok :: evs => if is_open then None else trace ok evs
  | EvFetch _ :: evs => if is_open then trace true evs else None
  | EvClose :: evs => if is_open then trace false evs else None
  end.

Section closing.
Context `{SelectDriver} `{JsonPrinter}.

(** A stage that finds a cursor open or not, and leaves it so when it goes on
    and when it jumps; the cache it leaves alone. *)
Definition moves {A} (before : bool) (m : qstage A) (after jumped : bool) : Prop :=
  forall w w' o, m w = Some (w', o) ->
  exists evs, q_log w' = q_log w ++ evs /\ trace before evs = Some (if is_some o then after else jumped) /\ q_cache w' = q_cache w.

Lemma trace_app b evs evs' : trace b (evs ++ evs') = trace b evs ≫= fun b' => trace b' evs'.
Proof. revert b. induction evs as [|[r ok|rows|] evs IH]; intros b; cbn [app trace]; [done| | |]; destruct b; try done; apply IH. Qed.

Lemma moves_bind {A B} b1 b2 b3 bj (m : qstage A) (k : A -> qstage B) :
  moves b1 m b2 bj -> (forall a, moves b2 (k a) b3 bj) -> moves b1 (qbind m k) b3 bj.
Proof.
  intros Hm Hk w w' o. unfold qbind. destruct (m w) as [[w1 [a|]]|] eqn:E; [|intros [= <- <-]; exact (Hm _ _ _ E)|done].
  intros E2. apply Hm in E as (evs & L & T & C). apply Hk in E2 as (evs' & L' & T' & C'). exists (evs ++ evs').
  rewrite L', L, app_assoc. split; [done|]. rewrite trace_app, T. split; [exact T'|by rewrite C'].
Qed.

Lemma moves_ret {A} b bj (a : A) : moves b (qret a) b bj.
Proof. intros w w' o [= <- <-]. exists []. by rewrite app_nil_r. Qed.
Lemma moves_fail {A} b b' : moves b (@qfail _ A) b' b.
Proof. intros w w' o [= <- <-]. exists []. by rewrite app_nil_r. Qed.
Lemma moves_or_fail {A} b (o : option A) : moves b (or_fail o) b b.
Proof. destruct o; [apply moves_ret|apply moves_fail]. Qed.
Lemma moves_defined {A} b bj (o : option A) : moves b (defined o) b bj.
Proof. destruct o; [apply moves_ret|]. by intros w w' o'. Qed.

Lemma moves_open r : moves false (open_cursor r) true false.
Proof.
  intros w w' o. unfold open_cursor. destruct (select_open (q_db w) r) as [d oo]. intros [= <- <-]. eexists. split; [reflexivity|]. by destruct oo.
Qed.

Lemma moves_fetch c : moves true (fetch_next c) true true.
Proof.
  intros w w' o. unfold fetch_next. destruct (select_fetch_batch (q_db w) c) as [d oo]. intros [= <- <-]. eexists. split; [reflexivity|]. by destruct oo.
Qed.

Lemma moves_close c bj : moves true (close_cursor c) false bj.
Proof. intros w w' o [= <- <-]. by eexists. Qed.

Lemma moves_close_and_fail {A} c b : moves true (@close_and_fail _ A c) b false.
Proof. eapply moves_bind; [apply moves_close|]. intros _. apply moves_fail. Qed.

Lemma moves_fetch_or_close c : moves true (fetch_or_close c) true false.
Proof.
  intros w w' o. unfold fetch_or_close. destruct (fetch_next c w) as [[w1 [a|]]|] eqn:E; [| |done].
  - intros [= <- <-]. by apply moves_fetch in E.
  - intros E2. apply moves_fetch in E as (evs & L & T & C). apply (moves_close_and_fail c true) in E2 as (evs' & L' & T' & C'). exists (evs ++ evs').
    rewrite L', L, app_assoc. split; [done|]. rewrite trace_app, T. split; [done|by rewrite C'].
Qed.

Lemma moves_then_close {A} c (m : qstage A) : moves true m true true -> moves true (then_close c m) false false.
Proof.
  intros Hm w w' o. unfold then_close. destruct (m w) as [[w1 o1]|] eqn:E; [|done]. intros [= <- <-].
  apply Hm in E as (evs & L & T & C). exists (evs ++ [EvClose]). cbn [log_select q_log q_cache]. rewrite L, app_assoc. split; [done|].
  rewrite trace_app, T. split; [by destruct o1|done].
Qed.

Lemma moves_select_int sql : moves false (db_select_int sql) false false.
Proof.
  unfold db_select_int. eapply moves_bind; [apply moves_open|]. intros [[c cols] b]. apply moves_then_close. unfold read_number.
  eapply moves_bind; [apply moves_or_fail|intros _]. eapply moves_bind; [apply moves_fetch|intros [c' f]]. eapply (moves_bind _ true); [|intros more; apply moves_or_fail].
  destruct (rows_fetched f =? 1); [|apply moves_ret]. eapply moves_bind; [apply moves_fetch|intros [c2 f2]]. apply moves_ret.
Qed.

Lemma moves_deliver e json b rs bj : moves true (deliver e json b rs) true bj.
Proof.
  assert (forall dl, moves true (fun w => Some (send dl w, Some tt)) true bj) as Hs.
  { intros dl w w' o [= <- <-]. exists []. by rewrite app_nil_r. }
  unfold deliver. destruct json.
  - destruct (response_write_json _ _); [|apply moves_ret]. destruct (qe_buffer e _); [apply Hs|apply moves_ret].
  - eapply moves_bind; [apply moves_defined|]. intros [body|]; [|apply moves_ret]. eapply moves_bind; [apply moves_defined|]. intros text. apply Hs.
Qed.

Lemma moves_loop fuel e async json n truncated : forall st, moves true (fetch_loop fuel e async json n truncated st) true false.
Proof.
  induction fuel as [|fuel IH]; intros st; cbn [fetch_loop]; (eapply moves_bind; [apply moves_fetch_or_close|intros [c f]]);
    (destruct (rows_fetched f =? 0); [apply moves_ret|]).
  - by intros w w' o.
  - eapply moves_bind; [|exact IH]. unfold take_batch. destruct async.
    + eapply moves_bind; [|intros _; apply moves_ret]. destruct (batch_rs f); [apply moves_deliver|apply moves_ret].
    + eapply moves_bind; [apply moves_defined|intros rows]. destruct (copy_rows _ _ _) as [[m rs]|]; [apply moves_ret|apply moves_close_and_fail].
Qed.

Lemma moves_read_cursor e cfg n truncated c rs head b fuel : moves true (read_cursor e cfg n truncated c rs head b fuel) false false.
Proof.
  unfold read_cursor. eapply moves_bind; [apply moves_loop|intros st]. eapply moves_bind; [apply moves_close|intros _].
  eapply moves_bind; [apply moves_defined|intros x]. eapply moves_bind; [apply moves_defined|intros doc]. apply moves_ret.
Qed.

Lemma moves_open_select ini cfg sql : moves false (open_select ini cfg sql) true false.
Proof.
  unfold open_select. eapply moves_bind; [apply moves_or_fail|intros q]. eapply moves_bind; [apply moves_select_int|intros counted].
  destruct (capped _ _) as [n truncated]. eapply (moves_bind _ false); [destruct truncated; [apply moves_or_fail|apply moves_ret]|intros s].
  eapply moves_bind; [apply moves_open|]. intros [[c cols] b]. apply moves_ret.
Qed.

Lemma moves_run ini e cfg sql : moves false (run_select ini e cfg sql) false false.
Proof.
  unfold run_select. eapply (moves_bind _ true); [apply moves_open_select|].
  intros [[n truncated] [[c cols] b]]. unfold read_select. destruct (resultset_create _ _ _); [|apply moves_close_and_fail].
  eapply moves_bind; [apply moves_defined|intros head]. intros w w' o. apply moves_read_cursor.
Qed.

(** A stage that hands nothing to the callback. *)
Definition silent {A} (m : qstage A) : Prop := forall w w' o, m w = Some (w', o) -> q_sent w' = q_sent w.

Lemma silent_bind {A B} (m : qstage A) (k : A -> qstage B) : silent m -> (forall a, silent (k a)) -> silent (qbind m k).
Proof.
  intros Hm Hk w w' o. unfold qbind. destruct (m w) as [[w1 [a|]]|] eqn:E; [|intros [= <- _]; exact (Hm _ _ _ E)|done].
  intros E2. by rewrite (Hk _ _ _ _ E2), (Hm _ _ _ E).
Qed.
Lemma silent_ret {A} (a : A) : silent (qret a).
Proof. by intros w w' o [= <- _]. Qed.
Lemma silent_or_fail {A} (o : option A) : silent (or_fail o).
Proof. destruct o; by intros w w' o' [= <- _]. Qed.
Lemma silent_open r : silent (open_cursor r).
Proof. intros w w' o. unfold open_cursor. destruct (select_open _ _). by intros [= <- _]. Qed.
Lemma silent_fetch c : silent (fetch_next c).
Proof. intros w w' o. unfold fetch_next. destruct (select_fetch_batch _ _). by intros [= <- _]. Qed.
Lemma silent_then_close {A} c (m : qstage A) : silent m -> silent (then_close c m).
Proof. intros Hm w w' o. unfold then_close. destruct (m w) as [[w1 o1]|] eqn:E; [|done]. intros [= <- _]. exact (Hm _ _ _ E). Qed.

Lemma silent_open_select ini cfg sql : silent (open_select ini cfg sql).
Proof.
  apply silent_bind; [apply silent_or_fail|intros q]. apply silent_bind.
  { apply silent_bind; [apply silent_open|]. intros [[c cols] b]. apply silent_then_close, silent_bind; [apply silent_or_fail|intros _].
    apply silent_bind; [apply silent_fetch|]. intros [c' f]. apply silent_bind; [|intros more; apply silent_or_fail].
    destruct (rows_fetched f =? 1); [|apply silent_ret]. apply silent_bind; [apply silent_fetch|]. intros [c2 f2]. apply silent_ret. }
  intros counted. destruct (capped _ _) as [n truncated]. apply silent_bind; [destruct truncated; [apply silent_or_fail|apply silent_ret]|intros s].
  apply silent_bind; [apply silent_open|intros o]. apply silent_ret.
Qed.
End closing.

(** ** The cache around a run *)

(** What an entry holds for a reader, and where it is. *)
Definition info (en : cache_entry) : nat * list ascii * option (list ascii) * Z := (addr en, output_document en, output_document_json en, row_count en).

Definition same_entries (c c' : cache) : Prop := forall k, info <$> abs c' !! k = info <$> abs c !! k.

Section caching.
Implicit Types (c : cache) (k : list ascii) (en : cache_entry).

#[export] Instance same_entries_preorder : PreOrder same_entries.
Proof. split; [done|]. intros c1 c2 c3 H1 H2 k. by rewrite H2, H1. Qed.

Lemma addr_abs c a : cinv c -> a ∈ map addr (entries c) <-> exists k en, abs c !! k = Some en /\ addr en = a.
Proof.
  intros H. rewrite list_elem_of_In, in_map_iff. split.
  - intros (en & <- & Hin). exists (normalized_sql en), en. split; [|done]. apply abs_lookup; [done|]. split; [by apply list_elem_of_In|done].
  - intros (k & en & He & <-). apply abs_lookup in He as [He _]; [|done]. exists en. split; [done|by apply list_elem_of_In].
Qed.

Lemma same_info c c' k en' : same_entries c c' -> abs c' !! k = Some en' -> exists en, abs c !! k = Some en /\ info en' = info en.
Proof. intros Hs He. specialize (Hs k). rewrite He in Hs. destruct (abs c !! k) as [en|]; [|done]. exists en. split; [done|]. change (Some (info en') = Some (info en)) in Hs. congruence. Qed.

Lemma same_addrs c c' a : cinv c -> cinv c' -> same_entries c c' -> a ∈ map addr (entries c') -> a ∈ map addr (entries c).
Proof.
  intros H H' Hs Ha. apply addr_abs in Ha as (k & en' & He & <-); [|done]. destruct (same_info _ _ _ _ Hs He) as (en & E & Hi).
  apply addr_abs; [done|]. exists k, en. split; [done|]. by injection Hi.
Qed.

(** Nobody has borrowed the entry under a key, if there is one. *)
Definition unborrowed c k : Prop := forall en, abs c !! k = Some en -> in_use en = false.

Lemma lookup_same c now us key : cinv c -> 0 <= now ->
  let '(c', o) := cache_lookup now us c (Some key) in
  cinv c' /\ same_entries c c' /\ params_of c' = params_of c /\
  match o with
  | Some en' => abs c' = <[key := en']> (abs c) /\ exists en, abs c !! key = Some en /\ expired now en = false /\ en' = touched now en
  | None => abs c' = abs c
  end.
Proof.
  intros H Hnow. pose proof (lookup_simulates c now us (Some key) H Hnow) as Hs. destruct (cache_lookup _ _ _ _) as [c' o].
  destruct Hs as (H1 & Hp & E). cbn [fst snd] in *. split; [done|]. unfold spec_lookup in E. destruct (negb _); [injection E as E ->; split; [intros k; by rewrite E|done]|].
  destruct (abs c !! key) as [en|] eqn:Ek; [|injection E as E ->; split; [intros k; by rewrite E|done]].
  destruct (expired now en) eqn:Ex; injection E as E ->; (split; [intros k; rewrite E|]); try done.
  - destruct (decide (k = key)) as [->|Hk]; [by rewrite lookup_insert_eq, Ek|by rewrite lookup_insert_ne by congruence].
  - split; [done|]. split; [done|]. by exists en.
Qed.

Lemma release_same c key en : cinv c -> abs c !! key = Some en ->
  exists c', resultset_cache_release (Some c) (Some (addr en)) = Some (Some c') /\ cinv c' /\ same_entries c c' /\
    params_of c' = params_of c /\ abs c' = release_entry (addr en) <$> abs c.
Proof.
  intros H He. destruct (release_simulates c (Some (addr en)) H) as (c' & E & H1 & Hp & Ha).
  { cbn [call_ok]. apply addr_abs; [done|]. by exists key, en. }
  exists c'. unfold resultset_cache_release. rewrite E. split; [done|]. split; [done|]. cbn [fst snd spec_run] in Ha. injection Ha as Ha.
  split; [|by split]. intros k. rewrite Ha, lookup_fmap.
  destruct (abs c !! k) as [en'|]; [|done]. cbn [fmap option_fmap option_map]. unfold release_entry. by destruct (Nat.eqb _ _).
Qed.

(** An entry that was looked up and handed back is free; the others are as
    they were. *)
Lemma handed_back c c1 c2 now key en k :
  abs c !! key = Some en -> abs c1 = <[key := touched now en]> (abs c) -> abs c2 = release_entry (addr (touched now en)) <$> abs c1 ->
  unborrowed c k -> unborrowed c2 k.
Proof.
  intros He E1 E2 Hu x. rewrite E2, lookup_fmap, E1. destruct (decide (k = key)) as [->|Hk].
  - rewrite lookup_insert_eq. cbn [fmap option_fmap option_map]. intros [= <-]. unfold release_entry. by rewrite Nat.eqb_refl.
  - rewrite lookup_insert_ne by congruence. destruct (abs c !! k) as [y|] eqn:Ey; [|done]. cbn [fmap option_fmap option_map]. intros [= <-].
    unfold release_entry. destruct (Nat.eqb _ _); [done|]. by apply Hu.
Qed.

Lemma stats_same c now x f r h s : cinv c -> cinv (cache_update_exec_stats now c x f r h s) /\ same_entries c (cache_update_exec_stats now c x f r h s).
Proof.
  intros H. destruct (run_simulates c (CallExecStats now x f r h s) H I) as (c' & a & E & H1 & _ & Ha). injection E as E E2.
  cbn [fst snd spec_run] in *. subst c'. split; [done|]. done.
Qed.

(** An insert leaves the other entries, and puts the texts it was given; it
    does when the cache is on, nobody has borrowed what is under the key, and
    there is memory. *)
Lemma insert_info c (al : nat -> bool) a now key d n (opts : cache_entry_opts) : cinv c -> 0 <= now -> a ∉ map addr (entries c) ->
  let put en := output_document en = d /\ row_count en = o_row_count opts /\
    output_document_json en = (if al 2%nat then o_output_document_json opts else None) in
  let '(c', _, _) := cache_insert al a now c (Some key) (Some d) n (Some opts) in
  cinv c' /\ (forall k, k <> key -> abs c' !! k = abs c !! k) /\
  (forall en, abs c' !! key = Some en -> abs c !! key = Some en \/ put en) /\
  (enabled c = true -> unborrowed c key -> al 0%nat = true -> al 1%nat = true ->
   exists en, abs c' !! key = Some en /\ addr en = a /\ put en).
Proof.
  intros H Hnow Ha put. pose proof (insert_simulates c al a now (Some key) (Some d) n (Some opts) H (conj Hnow Ha)) as Hs.
  destruct (cache_insert _ _ _ _ _ _ _ _) as [[c' z] f]. destruct Hs as (H1 & _ & E). cbn [fst snd] in *. split; [done|].
  unfold spec_insert in E. change (p_enabled (params_of c)) with (enabled c) in E. destruct (enabled c); cbn [negb] in E.
  2:{ injection E as E _. rewrite E. split; [done|]. split; [by left|done]. }
  set (ttl := if 0 <? o_ttl_seconds opts then o_ttl_seconds opts else p_ttl (params_of c)) in E.
  assert (match alloc_entry al a now key d n (p_hash (params_of c) key) ttl (Some opts) with
          | None => (delete key (abs c), AnsInsert (-1) DOC_CALLER)
          | Some e => (<[key := e]> (abs c), AnsInsert 0 DOC_STORED)
          end = (abs c', AnsInsert z f) \/ (abs c' = abs c /\ ~ unborrowed c key)) as [Hput|[-> Hb]].
  { destruct (abs c !! key) as [old|] eqn:Eo; [destruct (in_use old) eqn:Eu|]; [|by left|by left].
    right. injection E as E _. split; [done|]. intros Hu. rewrite (Hu old Eo) in Eu. done. }
  2:{ split; [done|]. split; [by left|done]. }
  unfold alloc_entry in Hput. destruct (al 0%nat); cbn [negb] in Hput; [destruct (al 1%nat); cbn [negb] in Hput|].
  2,3: injection Hput as <- _; (split; [intros k Hk; by rewrite lookup_delete_ne by congruence|]); (split; [intros en He; by rewrite lookup_delete_eq in He|done]).
  injection Hput as <- _. split; [intros k Hk; by rewrite lookup_insert_ne by congruence|]. rewrite lookup_insert_eq.
  split; [intros en [= <-]; by right|]. intros _ _ _ _. by eexists.
Qed.
End caching.

Section cached.
Context `{SelectDriver} `{JsonPrinter}.
Implicit Types (w : query_world) (c : cache) (k : list ascii) (en : cache_entry).

(** An entry with the texts of a run. *)
Definition of_run (r : query_result) en : Prop :=
  output_document en = qr_xml r /\ row_count en = qr_rows r /\
  forall j, output_document_json en = Some j -> response_write_json true (Some (qr_rs r)) = Some j.

Definition old_entry c k en' : Prop := exists en, abs c !! k = Some en /\ info en' = info en.

Lemma same_old c c' k en' : same_entries c c' -> abs c' !! k = Some en' -> old_entry c k en'.
Proof. apply same_info. Qed.

Lemma old_trans c c1 k en' : same_entries c c1 -> old_entry c1 k en' -> old_entry c k en'.
Proof. intros Hs (en & He & Hi). destruct (same_info _ _ _ _ Hs He) as (en0 & E & Hi0). exists en0. by rewrite Hi, Hi0. Qed.

(** What it takes for a run's texts to be kept: a key, a cache that is on, no
    borrower of what is under the key, the memory. *)
Definition storable (e : query_env) (key : option (list ascii)) (r : query_result) c k (j : list ascii) : Prop :=
  key = Some k /\ k <> [] /\ enabled c = true /\ unborrowed c k /\ qe_out e = true /\ qe_dup e = true /\ (forall i, qe_al e i = true) /\
  response_write_json (qe_json e 0) (Some (qr_rs r)) = Some j.

(** The entries after a run: under other keys the same; under its own the one
    that was there or the run's, and the run's whenever it can be stored. *)
Definition kept_entries (e : query_env) (key : option (list ascii)) (r : query_result) c c' : Prop :=
  (forall k, key <> Some k -> info <$> abs c' !! k = info <$> abs c !! k) /\
  (forall k en, abs c' !! k = Some en -> old_entry c k en \/ (key = Some k /\ of_run r en)) /\
  (forall k j, storable e key r c k j -> exists en, abs c' !! k = Some en /\ info en = (qe_addr e, qr_xml r, Some j, qr_rows r)).

Lemma kept_entries_same e key r c c' : same_entries c c' -> (forall k j, ~ storable e key r c k j) -> kept_entries e key r c c'.
Proof. intros Hs Hn. split; [intros k _; apply Hs|]. split; [intros k en He; left; by eapply same_old|]. intros k j Hst. by destruct (Hn k j). Qed.

(** The store of a run's texts under a key. *)
Lemma store_kept e key r c opts j :
  cinv c -> 0 <= qe_now e -> qe_addr e ∉ map addr (entries c) -> qe_dup e = true -> response_write_json (qe_json e 0) (Some (qr_rs r)) = Some j ->
  o_output_document_json opts = Some j -> o_row_count opts = qr_rows r ->
  let '(c', _, _) := cache_insert (qe_al e) (qe_addr e) (qe_now e) c (Some key) (Some (qr_xml r)) (Z.of_nat (length (qr_xml r))) (Some opts) in
  cinv c' /\ kept_entries e (Some key) r c c'.
Proof.
  intros Hi Hnow Ha Hd Ej Hoj Hor. pose proof (insert_info c (qe_al e) (qe_addr e) (qe_now e) key (qr_xml r) (Z.of_nat (length (qr_xml r))) opts Hi Hnow Ha) as Hins.
  cbv zeta in Hins. destruct (cache_insert _ _ _ _ _ _ _ _) as [[c' z] f]. destruct Hins as (Hi' & Hother & Hown & Hput). rewrite Hoj, Hor in *.
  split; [done|]. split; [|split].
  - intros k Hk. rewrite Hother; [done|congruence].
  - intros k en He. destruct (decide (k = key)) as [->|Hk]; [|left; exists en; by rewrite <- Hother].
    destruct (Hown en He) as [Hold|(D1 & D2 & D3)]; [left; by exists en|right]. split; [done|]. split; [done|]. split; [done|].
    intros j' Hj'. rewrite D3 in Hj'. destruct (qe_al e 2%nat); [|done]. injection Hj' as <-. unfold response_write_json in *. by destruct (qe_json e 0).
  - intros k j' (Hk & _ & Hen & Hu & _ & _ & Hal & Ej'). injection Hk as <-. rewrite Ej in Ej'. injection Ej' as <-.
    destruct (Hput Hen Hu (Hal _) (Hal _)) as (en & He & Hadd & D1 & D2 & D3). exists en. split; [done|]. unfold info. by rewrite Hadd, D1, D2, D3, Hal.
Qed.

(** The figures are updated afterwards, the entries are not touched. *)
Lemma kept_entries_trans e key r c c1 c2 : kept_entries e key r c c1 -> same_entries c1 c2 -> kept_entries e key r c c2.
Proof.
  intros (K1 & K2 & K3) Hs. split; [|split].
  - intros k Hk. by rewrite Hs, K1.
  - intros k en He. destruct (same_info _ _ _ _ Hs He) as (en1 & E1 & I1). destruct (K2 _ _ E1) as [(en0 & E0 & I0)|[Hk (D1 & D2 & D3)]].
    + left. exists en0. by rewrite I1.
    + right. split; [done|]. unfold info in I1. injection I1 as _ J1 J2 J3. unfold of_run. by rewrite J1, J2, J3.
  - intros k j Hst. destruct (K3 k j Hst) as (en & E & Hi). specialize (Hs k). rewrite E in Hs. destruct (abs c2 !! k) as [en2|]; [|done].
    exists en2. split; [done|]. change (Some (info en2) = Some (info en)) in Hs. congruence.
Qed.

(** The same of what was there before a look into the cache. *)
Lemma kept_entries_after e key r c c1 c2 : same_entries c c1 -> enabled c1 = enabled c -> (forall k, unborrowed c k -> unborrowed c1 k) ->
  kept_entries e key r c1 c2 -> kept_entries e key r c c2.
Proof.
  intros Hs Hen Hun (K1 & K2 & K3). split; [|split].
  - intros k Hk. by rewrite K1, Hs.
  - intros k en He. destruct (K2 _ _ He) as [Hold|Hr]; [left|by right]. by eapply old_trans.
  - intros k j (S1 & S2 & S3 & S4 & S5). apply (K3 k j). split; [done|]. split; [done|]. split; [congruence|]. split; [by apply Hun|done].
Qed.

Lemma keep_result_entries e cfg deps key r w w' ans c :
  keep_result e cfg deps key r w = Some (w', ans) -> q_cache w = Some c -> cinv c -> 0 <= qe_now e -> qe_addr e ∉ map addr (entries c) ->
  ans = mk_batch_answer 0 (if qe_out e then Some (qr_xml r) else None) (if wants_json cfg then response_write_json (qe_json e 0) (Some (qr_rs r)) else None) /\
  exists c', q_cache w' = Some c' /\ cinv c' /\ kept_entries e key r c c'.
Proof.
  unfold keep_result. destruct (qe_config e); [|done]. intros Hk Hc Hi Hnow Ha. rewrite Hc in Hk.
  destruct key as [[|ch key]|]; cbn [default] in Hk.
  1,3: destruct (response_writer_cache_store _ _ _ _ _ _ _ _ _ _ _) as [[c1 rc] json] eqn:E; unfold response_writer_cache_store in E;
       (destruct (response_write_json _ _) eqn:Ej); injection E as <- <- <-; injection Hk as <- <-; (split; [done|]); exists c; (split; [done|]);
       (split; [done|]); (apply kept_entries_same; [done|]); by intros k j (Hkey & Hne & _); congruence.
  destruct (response_writer_cache_store _ _ _ _ _ _ _ _ _ _ _) as [[c1 rc] json] eqn:E. unfold response_writer_cache_store in E.
  pose proof (fun c => stats_same c (qe_now e) (dbl_mul (qe_elapsed e 0) (dbl_of 1000)) (dbl_of 0) (qr_rows r) false true) as Hst.
  destruct (response_write_json (qe_json e 0) _) as [j|] eqn:Ej.
  2:{ injection E as <- <- <-. destruct (qe_out e); cbn [fmap option_fmap option_map] in Hk; injection Hk as <- <-; (split; [done|]);
        (eexists; split; [reflexivity|]); [destruct (Hst c Hi) as [Hi' Hs]|]; (split; [done|]); (apply kept_entries_same; [done|]); intros k j' (_ & _ & _ & _ & _ & _ & _ & Ej'); congruence. }
  destruct (qe_out e) eqn:Eout; cbn [fmap option_fmap option_map] in Hk.
  2:{ injection E as <- <- <-. injection Hk as <- <-. split; [done|]. exists c. split; [done|]. split; [done|]. apply kept_entries_same; [done|].
      intros k j' (_ & _ & _ & _ & Ho & _). congruence. }
  unfold resultset_cache_store in E. destruct (qe_dup e) eqn:Ed; cbn [negb] in E.
  - pose proof (store_kept e (ch :: key) r c (local_opts (select_opts deps) (qr_rows r) (Some j)) j Hi Hnow Ha Ed Ej eq_refl eq_refl) as Hs.
    destruct (cache_insert _ _ _ _ _ _ _ _) as [[c2 z] f]. destruct Hs as [Hi2 Hkept]. injection E as <- <- <-.
    cbn [fmap option_fmap option_map] in Hk. injection Hk as <- <-. split; [done|]. destruct (Hst c2 Hi2) as [Hi3 Hs3].
    eexists. split; [reflexivity|]. split; [done|]. by eapply kept_entries_trans.
  - injection E as <- <- <-. cbn [fmap option_fmap option_map] in Hk. injection Hk as <- <-. split; [done|]. destruct (Hst c Hi) as [Hi' Hs].
    eexists. split; [reflexivity|]. split; [done|]. apply kept_entries_same; [done|]. intros k j' (_ & _ & _ & _ & _ & Hdup & _). congruence.
Qed.

(** The look into the cache: served, or on to the run. *)
Lemma try_cache_entries e cfg key w w' o c :
  try_cache e cfg key w = Some (w', o) -> q_cache w = Some c -> cinv c -> 0 <= qe_now e ->
  exists c', q_cache w' = Some c' /\ cinv c' /\ same_entries c c' /\ q_log w' = q_log w /\ q_db w' = q_db w /\ q_sent w' = q_sent w /\
    match o with
    | Some ans => exists k en, key = Some k /\ abs c !! k = Some en /\ expired (qe_now e) en = false /\ serve e (wants_json cfg) en = Some ans
    | None => enabled c' = enabled c /\ forall k, unborrowed c k -> unborrowed c' k
    end.
Proof.
  unfold try_cache. intros Ht Hc Hi Hnow. destruct key as [k|]; [|injection Ht as <- <-; by exists c].
  rewrite Hc in Ht. unfold resultset_cache_lookup in Ht. pose proof (lookup_same c (qe_now e) (qe_us e) k Hi Hnow) as Hl.
  destruct (cache_lookup _ _ _ _) as [c1 [en'|]]; destruct Hl as (Hi1 & Hs1 & Hp1 & Hl).
  2:{ injection Ht as <- <-. exists c1. do 6 (split; [done|]). split; [exact (f_equal p_enabled Hp1)|]. intros x Hu. unfold unborrowed. by rewrite Hl. }
  destruct Hl as (Ha1 & en & He & Hx & ->).
  assert (abs c1 !! k = Some (touched (qe_now e) en)) as He1 by (rewrite Ha1; apply lookup_insert_eq).
  destruct (release_same c1 k _ Hi1 He1) as (c2 & E & Hi2 & Hs2 & Hp2 & Ha2). rewrite E in Ht. cbn [mbind option_bind] in Ht.
  assert (same_entries c c2) as Hs by by etransitivity.
  change (serve e (wants_json cfg) (touched (qe_now e) en)) with (serve e (wants_json cfg) en) in Ht.
  destruct (serve e (wants_json cfg) en) as [ans|] eqn:Ev; injection Ht as <- <-.
  - destruct (stats_same c2 (qe_now e) (dbl_of 0) (dbl_of 0) (row_count en) true true Hi2) as [Hi3 Hs3].
    eexists. split; [reflexivity|]. split; [exact Hi3|]. split; [by etransitivity|]. do 3 (split; [done|]). by exists k, en.
  - exists c2. do 6 (split; [done|]). split; [by rewrite <- (f_equal p_enabled Hp1 : enabled c1 = enabled c); exact (f_equal p_enabled Hp2)|].
    intros x. by eapply handed_back.
Qed.
End cached.

(** ** Batches for the callback *)

(** The deliveries of XML batches: their numbers, the rows up to them, their
    texts. *)
Fixpoint delivered (n rows number : Z) (batches : list fetched_batch) (dls : list delivery) : Prop :=
  match batches, dls with
  | [], [] => True
  | f :: batches, dl :: dls =>
      let rows := rows + rows_fetched f in
      dl_number dl = number + 1 /\ dl_final dl = (n <=? rows) /\
      (exists body facts, response_write_xml true (batch_rs f) = Some (Some body) /\ xml_batch facts body = Some (dl_text dl)) /\
      delivered n rows (number + 1) batches dls
  | _, _ => False
  end.

Section async.
Context `{SelectLaws} `{!ShortRows} `{JsonPrinter} (e : query_env) (json : bool) (n : Z) (truncated : bool).

Lemma deliver_returns (facts : batch_facts) (rs : resultset) w : resultset_short rs ->
  exists w', deliver e json facts rs w = Some (w', Some tt) /\ q_db w' = q_db w /\ q_cache w' = q_cache w /\
    (json = false -> qe_copy e (bf_number facts) = true ->
     exists body text, response_write_xml true (Some rs) = Some (Some body) /\ xml_batch facts body = Some text /\
       q_sent w' = q_sent w ++ [mk_delivery text false (bf_final facts) (bf_number facts)]).
Proof.
  intros Hs. unfold deliver. destruct json.
  - destruct (response_write_json _ _) as [body|]; [destruct (qe_buffer e _)|]; (eexists; split; [reflexivity|]); by split_and!.
  - unfold qbind. rewrite !resultset_text by done. cbn [defined qret]. destruct (qe_copy e _); [|exists w; by split_and!].
    destruct (xml_batch_ok facts (c_text (concat (document_pieces rs)))) as [text E]. rewrite E. cbn [defined qret]. eexists. split; [reflexivity|].
    do 2 (split; [done|]). intros _ _. by eexists _, text.
Qed.

Lemma loop_async fuel : forall c st w, (rows_left (q_db w) c <= fuel)%nat -> lp_cursor st = c ->
  let '(l, ok) := drain_cursor fuel (q_db w) c in
  exists w' st', fetch_loop fuel e true json n truncated st w = Some (w', if ok then Some st' else None) /\
    q_cache w' = q_cache w /\ lp_rs st' = lp_rs st /\
    (json = false -> (forall i, qe_copy e i = true) -> 0 <= n < 2 ^ 32 -> 0 <= abs_rownum st ->
     abs_rownum st + Z.of_nat (length (rows_of l)) < 2 ^ 32 ->
     exists dls, q_sent w' = q_sent w ++ dls /\ delivered n (abs_rownum st) (batch_number st) l dls).
Proof.
  induction fuel as [|fuel IH]; intros c st w Hfuel Hc; cbn [drain_cursor fetch_loop]; unfold qbind at 1; rewrite Hc;
    (destruct (select_fetch_batch (q_db w) c) as [d [[c' f]|]] eqn:Ef;
      [destruct (fetch_given _ _ _ _ _ Ef) as (w1 & -> & Hd & Hca & Hse)
      |destruct (fetch_failed _ _ _ Ef) as (w1 & -> & Hca & Hse); cbv beta iota; eexists w1, st; split; [reflexivity|]; split; [done|]; split; [done|];
       intros; exists []; by rewrite app_nil_r]).
  1,2: destruct (Z.eqb_spec (rows_fetched f) 0) as [Ez|Hn].
  1,3: cbv beta iota; eexists w1, _; split; [reflexivity|]; split; [done|]; split; [done|]; intros; exists []; by rewrite app_nil_r.
  - destruct (fetched_rows_spec _ _ _ _ _ Ef Hn) as ([|r rows'] & _ & _ & Hne & _ & _ & _ & Hleft); [done|cbn in Hleft; lia].
  - destruct (fetched_rows_spec _ _ _ _ _ Ef Hn) as (rows' & Hb & _ & Hne & Hrf & _ & _ & Hleft).
    pose proof (fetch_short _ _ _ _ _ _ Ef Hb) as Hshort. unfold take_batch at 1. rewrite Hb.
    match goal with |- context [deliver e json ?facts ?rs] => destruct (deliver_returns facts rs w1 Hshort) as (w2 & E2 & Hd2 & Hca2 & Hsent); set (fa := facts) in * end.
    unfold qbind. rewrite E2. cbn [qret].
    match goal with |- context [fetch_loop fuel e true json n truncated ?st1 w2] => specialize (IH c' st1 w2) end.
    rewrite Hd2, Hd in IH. destruct (drain_cursor fuel d c') as [l ok]. destruct IH as (w' & st' & E & I1 & I2 & I3).
    { destruct rows'; [done|]. cbn in Hleft. lia. } { done. }
    cbn [abs_rownum batch_number lp_rs] in *. exists w', st'. split; [exact E|]. split; [by rewrite I1, Hca2|]. split; [done|].
    intros Hj Hcopy Hn2 Ha Hlt. rewrite (rows_of_cons f l rows'), length_app in Hlt by done.
    assert (u32 (abs_rownum st + rows_fetched f) = abs_rownum st + rows_fetched f) as Hu by (unfold u32; rewrite Z.mod_small by lia; lia).
    rewrite Hu in I3. destruct (Hsent Hj (Hcopy _)) as (body & text & B1 & B2 & B3).
    destruct I3 as (dls & D1 & D2); [done|done|done|lia|lia|]. eexists (_ :: dls). split; [by rewrite D1, B3, Hse, <- app_assoc|].
    cbn [delivered dl_number dl_final dl_text]. split; [done|]. split.
    + unfold fa. cbn [bf_final]. rewrite Hu. unfold u32. by rewrite (Z.mod_small n) by done.
    + split; [|exact D2]. rewrite Hb. by exists body, fa.
Qed.
(** The result itself stays blank. *)
Lemma read_cursor_async cfg c rs head b w :
  is_Some (async_batch cfg) -> wants_json cfg = json -> resultset_short rs -> xml_ok head ->
  let '(l, ok) := drain_cursor (rows_left (q_db w) c) (q_db w) c in
  exists w' o, read_cursor e cfg n truncated c rs head b (rows_left (q_db w) c) w = Some (w', o) /\ qr_rs <$> o = (if ok then Some rs else None) /\
    (json = false -> (forall i, qe_copy e i = true) -> 0 <= n < 2 ^ 32 -> Z.of_nat (length (rows_of l)) < 2 ^ 32 ->
     exists dls, q_sent w' = q_sent w ++ dls /\ delivered n 0 0 l dls).
Proof.
  intros Ha Hj Hs Hh. unfold read_cursor. destruct (async_batch cfg) as [f|]; [|by destruct Ha]. cbn [is_some]. rewrite Hj.
  pose proof (loop_async (rows_left (q_db w) c) c (mk_loop c 0 rs 0 0 0) w (Nat.le_refl _) eq_refl) as Hl.
  destruct (drain_cursor (rows_left (q_db w) c) (q_db w) c) as [l ok]. destruct Hl as (w' & st' & E & _ & Hrs & Hd). cbn [lp_rs abs_rownum batch_number] in *.
  unfold qbind at 1. rewrite E. destruct ok; cbn [andb].
  - unfold qbind, close_cursor. rewrite Hrs, resultset_text by done. cbn [defined qret].
    match goal with |- context [query_document e head st' b ?t] => destruct (query_document_ok e head st' b t Hh) as (doc & -> & _) end.
    cbn [defined qret]. eexists _, _. split; [reflexivity|]. split; [done|]. intros ????. by apply Hd.
  - exists w', None. split; [done|]. split; [done|]. intros ????. by apply Hd.
Qed.
End async.

(** ** A call returns *)

Section returning.
Context `{SelectDriver} `{JsonPrinter}.

Definition total {A} (m : qstage A) : Prop := forall w, is_Some (m w).

Lemma total_bind {A B} (m : qstage A) (k : A -> qstage B) : total m -> (forall a, total (k a)) -> total (qbind m k).
Proof. intros Hm Hk w. unfold qbind. destruct (Hm w) as [[w1 [a|]] ->]; [apply Hk|by eexists]. Qed.
Lemma total_ret {A} (a : A) : total (qret a).
Proof. intros w. by eexists. Qed.
Lemma total_or_fail {A} (o : option A) : total (or_fail o).
Proof. intros w. destruct o; by eexists. Qed.
Lemma total_open r : total (open_cursor r).
Proof. intros w. unfold open_cursor. destruct (select_open _ _). by eexists. Qed.
Lemma total_fetch c : total (fetch_next c).
Proof. intros w. unfold fetch_next. destruct (select_fetch_batch _ _). by eexists. Qed.
Lemma total_then_close {A} c (m : qstage A) : total m -> total (then_close c m).
Proof. intros Hm w. unfold then_close. destruct (Hm w) as [[w1 o] ->]. by eexists. Qed.

Lemma total_select_int sql : total (db_select_int sql).
Proof.
  apply total_bind; [apply total_open|]. intros [[c cols] b]. apply total_then_close, total_bind; [apply total_or_fail|intros _].
  apply total_bind; [apply total_fetch|]. intros [c' f]. apply total_bind; [|intros more; apply total_or_fail].
  destruct (rows_fetched f =? 1); [|apply total_ret]. apply total_bind; [apply total_fetch|]. intros [c2 f2]. apply total_ret.
Qed.

Lemma total_open_select ini cfg sql : total (open_select ini cfg sql).
Proof.
  apply total_bind; [apply total_or_fail|intros q]. apply total_bind; [apply total_select_int|intros counted].
  destruct (capped _ _) as [n truncated]. apply total_bind; [destruct truncated; [apply total_or_fail|apply total_ret]|intros s].
  apply total_bind; [apply total_open|intros o]. apply total_ret.
Qed.

(** What is known once the cursor is open. *)
Lemma open_select_inv ini cfg sql w w2 n truncated c cols b :
  open_select ini cfg sql w = Some (w2, Some (n, truncated, (c, cols, b))) ->
  exists q counted w1 d fsql r d', count_rows_sql sql SQL_MAX = Some q /\ db_select_int q w = Some (w1, Some counted) /\ capped (max_record_count ini) counted = (n, truncated) /\
    (if truncated then row_limit_sql sql n SQL_MAX else Some sql) = Some fsql /\ sr_sql r = fsql /\ select_open d r = (d', Some (c, cols, b)).
Proof.
  unfold open_select, qbind at 1. destruct (count_rows_sql sql SQL_MAX) as [q|]; cbn [or_fail qret qfail]; [|done].
  unfold qbind at 1. destruct (db_select_int q w) as [[w1 [counted|]]|] eqn:Ei; [|done|done]. destruct (capped _ _) as [n0 tr] eqn:Ec.
  unfold qbind at 1.
  assert (forall o : option (list ascii), (if tr then or_fail (row_limit_sql sql n0 SQL_MAX) else qret sql) = or_fail (if tr then row_limit_sql sql n0 SQL_MAX else Some sql)) as Hx
    by (by destruct tr).
  rewrite (Hx None). destruct (if tr then row_limit_sql sql n0 SQL_MAX else Some sql) as [fsql|] eqn:Ef; cbn [or_fail qret qfail]; [|done].
  unfold qbind, open_cursor. destruct (select_open (q_db w1) _) as [d' [[[c1 cols1] b1]|]] eqn:Eo; cbn [qret]; [|done].
  intros [= <- <- <- <- <- <-]. eexists q, counted, w1, _, fsql, _, d'. split; [done|]. split; [done|]. split; [done|]. split; [done|]. split; [|exact Eo]. done.
Qed.
End returning.

(** ** A run, whole *)

Section answers.
Context `{SelectLaws} `{!ShortRows} `{JsonPrinter}.

Lemma created (al : nat -> bool) n cols rs : resultset_create al n (Z.of_nat cols) = Some rs -> 0 <= n /\ rs = filled (Z.to_nat n) cols [].
Proof.
  intros E. destruct (create_spec _ _ _ _ E) as (Hn & _ & Hrs & _). rewrite Nat2Z.id in Hrs. destruct rs as [recs]. cbn [records] in Hrs. by subst recs.
Qed.

Lemma create_total (al : nat -> bool) n cols : 0 <= n -> (forall i, al i = true) -> is_Some (resultset_create al n (Z.of_nat cols)).
Proof.
  intros Hn Hal. unfold resultset_create. destruct (Z.ltb_spec n 0); [lia|]. destruct (Z.ltb_spec (Z.of_nat cols) 0); [lia|].
  cbn [orb]. rewrite !Hal. cbn [negb].
  assert (forallb (fun i => al (2 + i)%nat) (seq 0 (Z.to_nat n)) = true) as -> by (apply forallb_forall; intros i _; apply Hal). by eexists.
Qed.

(** With the cursor open, what the rest works on. *)
Lemma open_select_facts ini cfg sql w w2 n truncated c cols b : 0 <= max_record_count ini < INT_MAX ->
  open_select ini cfg sql w = Some (w2, Some (n, truncated, (c, cols, b))) ->
  0 <= n <= max_record_count ini /\ cols = Z.of_nat (columns c) /\ exists head, query_head sql truncated = Some head /\ xml_ok head.
Proof.
  intros Hm E. destruct (open_select_inv _ _ _ _ _ _ _ _ _ _ E) as (q & counted & w1 & d & fsql & r & d' & Eq & _ & Ec & _ & _ & Eo).
  split; [by apply (capped_spec _ _ _ _ Hm Ec)|]. split; [by eapply open_columns|]. apply query_head_ok. by eapply count_sql_longer.
Qed.

Lemma total_read ini e cfg sql n truncated c cols b w w2 : 0 <= max_record_count ini < INT_MAX ->
  open_select ini cfg sql w = Some (w2, Some (n, truncated, (c, cols, b))) -> is_Some (read_select e cfg sql n truncated c cols b w2).
Proof.
  intros Hm E. destruct (open_select_facts _ _ _ _ _ _ _ _ _ _ Hm E) as (Hn & -> & head & Eh & Hh). unfold read_select.
  destruct (resultset_create _ _ _) as [rs|] eqn:Er; [|by eexists]. apply created in Er as [_ ->]. rewrite Eh. cbn [defined qbind qret].
  unfold INT_MAX in Hm. destruct (async_batch cfg) eqn:Ea.
  - pose proof (read_cursor_async e (wants_json cfg) n truncated cfg c (filled (Z.to_nat n) (columns c) []) head b w2 ltac:(by rewrite Ea) eq_refl
      ltac:(by apply filled_short) Hh) as Hf.
    destruct (drain_cursor _ _ _). destruct Hf as (w' & o & E' & _). unfold qbind. cbn. rewrite E'. by eexists.
  - destruct (read_cursor_rows e cfg n truncated c head b w2 Ea ltac:(unfold INT_MAX; lia) Hh) as (w' & o & E' & _). unfold qbind. cbn. rewrite E'. by eexists.
Qed.

Lemma total_run ini e cfg sql : 0 <= max_record_count ini < INT_MAX -> total (run_select ini e cfg sql).
Proof.
  intros Hm w. unfold run_select, qbind. destruct (total_open_select ini cfg sql w) as [[w2 [[[n truncated] [[c cols] b]]|]] E]; rewrite E; [|by eexists].
  by eapply total_read.
Qed.
End answers.

(** ** The result is well formed *)

Section typing.
Context `{SelectLaws} `{!ShortRows} `{JsonPrinter}.

Lemma drain_fit fuel d c : Forall (fun r => row_fits r /\ length (fields r) = columns c) (rows_of (fst (drain_cursor fuel d c))).
Proof.
  revert d c. induction fuel as [|fuel IH]; intros d c; cbn [drain_cursor]; destruct (select_fetch_batch d c) as [d' [[c' f]|]] eqn:E; try apply List.Forall_nil;
    (destruct (Z.eqb_spec (rows_fetched f) 0) as [Hz|Hn]; [apply List.Forall_nil|]); [apply List.Forall_nil|].
  specialize (IH d' c'). destruct (drain_cursor fuel d' c') as [l ok]. cbn [fst] in *. destruct (fetched_rows_spec _ _ _ _ _ E Hn) as (rows & Hb & _ & _ & _ & Hf & Hcols & _).
  rewrite (rows_of_cons f l rows) by done. apply Forall_app. split; [done|]. by rewrite Hcols in IH.
Qed.

Lemma clean_field_fits f : field_fits f -> field_fits (clean_field f).
Proof.
  intros Hf. unfold clean_field. destruct (is_blob f) eqn:E; [done|]. destruct Hf as (Ha1 & Ha2 & Ha3 & _ & _). pose proof blank_fits as (_ & _ & _ & Hb & _).
  unfold field_fits. cbn [field_name field_type value blob_detail is_blob]. by split_and!.
Qed.

Lemma blank_rows_all from n m : Forall (fun r => row_fits r /\ length (fields r) = m) (blank_rows from n m).
Proof.
  revert from. induction n as [|n IH]; intros from; cbn [blank_rows]; [apply List.Forall_nil|]. apply List.Forall_cons; [|apply IH].
  split; [|apply length_replicate]. apply Forall_replicate, blank_fits.
Qed.

Lemma clean_rows_all n cols rows : Forall (fun r => row_fits r /\ length (fields r) = cols) rows ->
  Forall (fun r => row_fits r /\ length (fields r) = cols) (clean_rows n rows).
Proof.
  intros Hr. revert n. induction Hr as [|r rows [Hf Hl] _ IH]; intros n; cbn [clean_rows]; [apply List.Forall_nil|]. apply List.Forall_cons; [|apply IH].
  split; [|by cbn [clean_row fields]; rewrite length_map]. unfold row_fits, clean_row. cbn [fields]. apply Forall_map. eapply List.Forall_impl; [|exact Hf]. apply clean_field_fits.
Qed.

Lemma clean_numbered n rows : numbered n (clean_rows n rows).
Proof.
  revert n. induction rows as [|r rows IH]; intros n i x; cbn [clean_rows]; [done|]. destruct i as [|i]; cbn [lookup list_lookup].
  - intros [= <-]. cbn [clean_row record_number]. lia.
  - intros Hx. rewrite (IH _ _ _ Hx). lia.
Qed.

Lemma filled_row n cols rows i x : (length rows <= n)%nat -> records (filled n cols rows) !! i = Some x -> record_number x = 1 + Z.of_nat i.
Proof.
  intros Hl. unfold filled. cbn [records]. intros Hx. apply lookup_app_Some in Hx as [Hx|[Hi Hx]]; [by apply clean_numbered in Hx|].
  rewrite clean_rows_length in *. rewrite lookup_drop in Hx.
  assert (numbered 1 (blank_rows 1 n cols)) as Hn.
  { clear. generalize 1 at 1 2. induction n as [|n IH]; intros from i x; cbn [blank_rows]; [done|]. destruct i as [|i]; cbn [lookup list_lookup].
    - intros [= <-]. cbn [record_number]. lia.
    - intros Hx. rewrite (IH _ _ _ Hx). lia. }
  apply Hn in Hx. lia.
Qed.

(** A result of [n] rows of [cols] fields, the rows numbered from 1, every
    field within its array. *)
Definition well_formed (n cols : nat) (rs : resultset) : Prop :=
  length (records rs) = n /\ numbered 1 (records rs) /\ Forall (fun r => row_fits r /\ length (fields r) = cols) (records rs).

Lemma filled_well_formed n cols rows : (length rows <= n)%nat -> Forall (fun r => row_fits r /\ length (fields r) = cols) rows ->
  well_formed n cols (filled n cols rows).
Proof.
  intros Hl Hr. split; [by apply filled_length|]. split; [intros i x; by apply filled_row|]. unfold filled. cbn [records].
  apply Forall_app. split; [by apply clean_rows_all|]. apply Forall_drop, blank_rows_all.
Qed.

(** C36: a SELECT ends with a result of the type the writers and the cache rely
    on.  The driver keeps its contract (db_driver.h) and gives no value so long
    that it overruns the array of the XML writer; the statement, the format,
    the sizes of the batches and the allocations are any, and the call is
    synchronous or not.  When a run ends with a result, that has as many rows
    as the count on the database said, but no more than the maximum and not
    less than none; each has as many fields as the cursor that was opened has
    columns; the rows are numbered from 1, and every text in them fits the
    array of its field with the zero that ends it. *)
Theorem query_result_typed ini e cfg sql w w' r : 0 <= max_record_count ini < INT_MAX ->
  run_select ini e cfg sql w = Some (w', Some r) ->
  exists q w1 counted w2 truncated c cols b,
    count_rows_sql sql SQL_MAX = Some q /\ db_select_int q w = Some (w1, Some counted) /\
    let n := Z.min (max_record_count ini) (Z.max 0 counted) in
    open_select ini cfg sql w = Some (w2, Some (n, truncated, (c, cols, b))) /\ 0 <= cols /\
    well_formed (Z.to_nat n) (Z.to_nat cols) (qr_rs r).
Proof.
  intros Hm. unfold run_select, qbind at 1. destruct (open_select ini cfg sql w) as [[w2 [[[n truncated] [[c cols] b]]|]]|] eqn:E; [|done|done].
  destruct (open_select_facts _ _ _ _ _ _ _ _ _ _ Hm E) as (Hn & -> & head & Eh & Hh). unfold read_select.
  destruct (open_select_inv _ _ _ _ _ _ _ _ _ _ E) as (q & counted & w1 & _ & _ & _ & _ & Eq & Ei & Ec & _).
  assert (n = Z.min (max_record_count ini) (Z.max 0 counted)) as Hcount
    by (destruct (capped_spec _ _ _ _ Hm Ec) as (_ & Ht & Hf); destruct truncated; [destruct (Ht eq_refl)|specialize (Hf eq_refl)]; lia).
  destruct (resultset_create _ _ _) as [rs|] eqn:Er; [|done]. apply created in Er as [_ ->]. rewrite Eh. cbn [defined qbind qret]. intros Er.
  exists q, w1, counted, w2, truncated, c, (Z.of_nat (columns c)), b. split; [done|]. split; [done|]. cbv zeta. rewrite <- Hcount. split; [done|]. split; [lia|].
  rewrite Nat2Z.id. unfold qbind in Er. cbn [qret defined] in Er. unfold INT_MAX in *.
  destruct (async_batch cfg) as [name|] eqn:Ea.
  - pose proof (read_cursor_async e (wants_json cfg) n truncated cfg c (filled (Z.to_nat n) (columns c) []) head b w2 ltac:(by rewrite Ea) eq_refl
      ltac:(by apply filled_short) Hh) as Hf.
    destruct (drain_cursor _ _ _) as [l ok]. destruct Hf as (w3 & o & E' & Ho & _). rewrite E' in Er. injection Er as _ ->. destruct ok; [|done].
    injection Ho as ->. apply filled_well_formed; [cbn; lia|done].
  - destruct (read_cursor_rows e cfg n truncated c head b w2 Ea ltac:(unfold INT_MAX; lia) Hh) as (w3 & o & E' & _ & _ & Ho). rewrite E' in Er. injection Er as _ ->.
    pose proof (drain_fit (rows_left (q_db w2) c) (q_db w2) c) as Hfit. unfold cursor_rows in Ho. destruct (drain_cursor _ _ _) as [l ok]. cbn [fst] in Hfit.
    destruct ok; [|done]. cbv zeta in Ho. destruct (Nat.leb_spec (length (rows_of l)) (Z.to_nat n)); [|done]. destruct Ho as (doc & text & [= ->] & _).
    by apply filled_well_formed.
Qed.
End typing.

(** ** What a SELECT promises *)

Section promises.
Context `{SelectLaws} `{!ShortRows} `{JsonPrinter}.
Implicit Types (w : query_world) (c : cursor) (rows : list resultset_row).

(** C9: a SELECT answers with the rows of its cursor.  The driver keeps its
    contract and gives no value so long that it overruns the array of the XML
    writer, and there is memory for the result.  Once its rows have been
    counted and the cursor is open, a synchronous run returns; it takes all
    the rows the cursor gives, in their order and whatever the size of the
    batches, numbers them and puts them in a result with room for the rows
    that were counted, and no more than the maximum; what is left of that room
    stays blank.  The number of rows it reports is the number the cursor gave,
    the document holds the XML text of exactly this result.  The run fails when
    a fetch fails or the cursor gives more rows than there is room for, and
    only then; in each case the cache and the callback are left alone. *)
Theorem select_returns_rows ini e cfg sql w w2 n truncated c cols b :
  async_batch cfg = None -> 0 <= max_record_count ini < INT_MAX -> (forall i, qe_rs e i = true) ->
  open_select ini cfg sql w = Some (w2, Some (n, truncated, (c, cols, b))) ->
  0 <= n <= max_record_count ini /\
  exists w' o, run_select ini e cfg sql w = Some (w', o) /\ q_cache w' = q_cache w /\ q_sent w' = q_sent w /\
    match cursor_rows (q_db w2) c with
    | Some rows =>
        let rs := filled (Z.to_nat n) (columns c) rows in
        if Nat.leb (length rows) (Z.to_nat n) then
          exists doc head text, o = Some (mk_query_result rs (Z.of_nat (length rows)) doc) /\ query_head sql truncated = Some head /\
            response_write_xml (qe_copy e 0) (Some rs) = Some text /\ (buffer head ++ default [] text) `prefix_of` doc
        else o = None
    | None => o = None
    end.
Proof.
  intros Ha Hm Hal E. destruct (open_select_facts _ _ _ _ _ _ _ _ _ _ Hm E) as (Hn & -> & head & Eh & Hh). split; [done|].
  pose proof (silent_open_select _ _ _ _ _ _ E) as Hsent. destruct (moves_open_select _ _ _ _ _ _ E) as (_ & _ & _ & Hcache).
  unfold run_select, qbind at 1. rewrite E. unfold read_select. destruct (create_total (qe_rs e) n (columns c)) as [rs Er]; [lia|done|]. rewrite Er.
  apply created in Er as [_ ->]. rewrite Eh. unfold qbind. cbn [defined qret].
  destruct (read_cursor_rows e cfg n truncated c head b w2 Ha ltac:(unfold INT_MAX in *; lia) Hh) as (w' & o & E' & Hca & Hse & Ho). exists w', o.
  split; [exact E'|]. split; [congruence|]. split; [congruence|].
  destruct (cursor_rows (q_db w2) c) as [rows|]; [|done]. cbv zeta in *. destruct (Nat.leb _ _); [|done].
  destruct Ho as (doc & text & H3 & H4 & H5). by exists doc, head, text.
Qed.

(** The rows of the batches of a cursor, none of them empty. *)
Definition fetched_in (l : list fetched_batch) : Z := foldr Z.add 0 (map rows_fetched l).

Lemma drain_counts fuel d c : let l := fst (drain_cursor fuel d c) in Forall (fun f => 0 < rows_fetched f) l /\ fetched_in l = Z.of_nat (length (rows_of l)).
Proof.
  revert d c. induction fuel as [|fuel IH]; intros d c; cbn [drain_cursor]; destruct (select_fetch_batch d c) as [d' [[c' f]|]] eqn:E; try by split.
  1,2: destruct (Z.eqb_spec (rows_fetched f) 0) as [Hz|Hn]; [by split|].
  - by split.
  - specialize (IH d' c'). destruct (drain_cursor fuel d' c') as [l ok]. cbn [fst] in *. destruct IH as [I1 I2].
    destruct (fetched_rows_spec _ _ _ _ _ E Hn) as (rows & Hb & _ & Hne & Hr & _). rewrite (rows_of_cons f l rows), length_app by done.
    unfold fetched_in in *. cbn [map foldr]. split; [|lia]. apply List.Forall_cons; [|done]. destruct rows; [done|cbn [length] in Hr; lia].
Qed.

(** The numbers of the batches, the mark of the last one, and their texts. *)
Lemma delivered_spec n : forall l dls (rows number : Z),
  delivered n rows number l dls -> Forall (fun f => 0 < rows_fetched f) l -> rows + fetched_in l = n ->
  map dl_number dls = seqZ (number + 1) (Z.of_nat (length l)) /\
  (l <> [] -> map dl_final dls = replicate (length l - 1) false ++ [true]) /\
  Forall2 (fun f dl => exists body facts, response_write_xml true (batch_rs f) = Some (Some body) /\ xml_batch facts body = Some (dl_text dl)) l dls.
Proof.
  induction l as [|f l IH]; intros [|dl dls] rows number Hd Hpos Hsum; cbn [delivered] in Hd; try done.
  destruct Hd as (D1 & D2 & D3 & D4). apply Forall_cons_iff in Hpos as [Hf Hpos]. unfold fetched_in in *. cbn [map foldr length] in *.
  destruct (IH dls (rows + rows_fetched f) (number + 1) D4 Hpos ltac:(lia)) as (I1 & I2 & I3). split; [|split].
  - rewrite seqZ_cons by lia. rewrite D1. f_equal. by replace (Z.pred (Z.of_nat (S (length l)))) with (Z.of_nat (length l)) by lia.
  - intros _. destruct l as [|g l]; cbn [length].
    + destruct dls; [|done]. cbn [map replicate app Nat.sub]. rewrite D2. cbn [map foldr] in Hsum. do 2 f_equal. apply Z.leb_le. lia.
    + rewrite I2 by done. cbn [length Nat.sub replicate app]. rewrite Nat.sub_0_r, D2. f_equal.
      apply Z.leb_gt. apply Forall_cons_iff in Hpos as [Hg Hpos]. cbn [map foldr] in Hsum.
      assert (0 <= foldr Z.add 0 (map rows_fetched l)); [|lia]. clear -Hpos. induction Hpos; cbn [map foldr]; lia.
  - by apply Forall2_cons.
Qed.

(** C37: what an asynchronous request for XML receives.  The driver keeps its
    contract and gives no value so long that it overruns the array of the XML
    writer, and there is memory for the result and for the copy of each text.
    When the cursor gives just the rows that were counted, each of its batches
    is handed to the callback once, in order, as the XML document of its own
    rows; they are numbered from 1 without a gap, and the last of them, and
    only that one, is marked final.  The run succeeds when every fetch did and
    fails when one fails; its own result stays blank throughout: as many rows
    as were counted, none of them filled. *)
Theorem async_batches_end ini e cfg sql w w2 n truncated c cols b :
  is_Some (async_batch cfg) -> wants_json cfg = false -> 0 <= max_record_count ini < INT_MAX ->
  (forall i, qe_rs e i = true) -> (forall i, qe_copy e i = true) ->
  open_select ini cfg sql w = Some (w2, Some (n, truncated, (c, cols, b))) ->
  let '(l, ok) := drain_cursor (rows_left (q_db w2) c) (q_db w2) c in
  Z.of_nat (length (rows_of l)) = n -> 0 < n ->
  exists w' o dls, run_select ini e cfg sql w = Some (w', o) /\
    qr_rs <$> o = (if ok then Some (mk_resultset (blank_rows 1 (Z.to_nat n) (Z.to_nat cols))) else None) /\ q_sent w' = q_sent w ++ dls /\
    map dl_number dls = seqZ 1 (Z.of_nat (length l)) /\ map dl_final dls = replicate (length l - 1) false ++ [true] /\
    Forall2 (fun f dl => exists body facts, response_write_xml true (batch_rs f) = Some (Some body) /\ xml_batch facts body = Some (dl_text dl)) l dls.
Proof.
  intros Ha Hj Hm Hal Hcopy E. destruct (open_select_facts _ _ _ _ _ _ _ _ _ _ Hm E) as (Hn & -> & head & Eh & Hh).
  pose proof (silent_open_select _ _ _ _ _ _ E) as Hsent. rewrite <- Hsent, Nat2Z.id.
  unfold run_select, qbind at 1. rewrite E. unfold read_select. destruct (create_total (qe_rs e) n (columns c)) as [rs Er]; [lia|done|]. rewrite Er.
  apply created in Er as [_ ->]. rewrite Eh. unfold qbind. cbn [defined qret].
  pose proof (read_cursor_async e (wants_json cfg) n truncated cfg c (filled (Z.to_nat n) (columns c) []) head b w2 Ha eq_refl ltac:(by apply filled_short) Hh) as Hf.
  pose proof (drain_counts (rows_left (q_db w2) c) (q_db w2) c) as Hd.
  destruct (drain_cursor (rows_left (q_db w2) c) (q_db w2) c) as [l ok]. cbn [fst] in Hd. destruct Hd as [Hpos Hsum].
  destruct Hf as (w' & o & E' & Ho & Hd). intros Hc Hn0. unfold INT_MAX in Hm. destruct Hd as (dls & D1 & D2); [done|done|lia|lia|].
  destruct (delivered_spec _ _ _ _ _ D2 Hpos ltac:(lia)) as (S1 & S2 & S3). exists w', o, dls.
  split; [exact E'|]. split; [exact Ho|]. split; [done|]. split; [exact S1|]. split; [|exact S3]. apply S2. intros ->. by cbn in Hc; lia.
Qed.
End promises.

(** ** What the cache serves *)

Section serving.
Context `{SelectDriver} `{JsonPrinter}.
Implicit Types (w : query_world) (c : cache) (k : list ascii) (r : query_result).

(** The runs so far under their keys: every entry has the texts of one of
    them. *)
Definition honest (runs : list (list ascii * query_result)) c : Prop :=
  forall k en, abs c !! k = Some en -> exists r, (k, r) ∈ runs /\ of_run r en.

(** The answer with the texts of a run, as the cache gives it. *)
Definition answer_of (e : query_env) (json : bool) r : batch_answer -> Prop := fun ans =>
  batch_rc ans = 0 /\
  if json then exists j, response_write_json true (Some (qr_rs r)) = Some j /\ OUTPUT_XML ans = None /\ OUTPUT_JSON ans = (if qe_out e then Some j else None)
  else OUTPUT_XML ans = (if qe_config e && qe_out e then Some (qr_xml r) else None) /\ OUTPUT_JSON ans = None.

Lemma of_run_info r en en' : info en' = info en -> of_run r en -> of_run r en'.
Proof. unfold of_run, info. intros [= _ -> -> ->]. done. Qed.

Lemma honest_old runs c c' : honest runs c -> (forall k en', abs c' !! k = Some en' -> old_entry c k en') -> honest runs c'.
Proof.
  intros Hh Ho k en' He. destruct (Ho _ _ He) as (en & Hen & Hi). destruct (Hh _ _ Hen) as (r & Hr & Hof). exists r. split; [done|]. by eapply of_run_info.
Qed.

Lemma honest_new runs c c' key r : honest runs c ->
  (forall k en', abs c' !! k = Some en' -> old_entry c k en' \/ (key = Some k /\ of_run r en')) ->
  honest (match key with Some k => (k, r) :: runs | None => runs end) c'.
Proof.
  intros Hh Ho k en' He. destruct (Ho _ _ He) as [(en & Hen & Hi)|[-> Hof]].
  - destruct (Hh _ _ Hen) as (r' & Hr & Hof). exists r'. split; [destruct key; [by right|done]|by eapply of_run_info].
  - exists r. split; [by left|done].
Qed.

Lemma serve_answer e json en ans r : serve e json en = Some ans -> of_run r en -> answer_of e json r ans.
Proof.
  unfold serve, answer_of, of_run. intros Hs (Hd & _ & Hj). destruct json.
  - destruct (output_document_json en) as [t|]; [|done]. injection Hs as <-. split; [done|]. exists t. split; [by apply Hj|]. by destruct (qe_out e).
  - injection Hs as <-. split; [done|]. cbn [OUTPUT_XML OUTPUT_JSON]. rewrite Hd. by destruct (qe_config e), (qe_out e).
Qed.

(** C5: what the cache serves is what a run gave.  Take a cache in a reachable
    state whose entries all hold the texts of runs made under their keys.  A
    call that returns does one of three things: it answers, without a call of
    the driver, with the text - in the format asked for - that an earlier run
    of a statement with the same key ended with, and every entry stays; it
    fails with -1 and no text, and every entry stays; or it runs the statement
    on the database as it found it and answers with the documents of that
    run.  After a run the entries under other keys are the ones that were
    there; under its own key is the one that was there or an entry with the
    run's texts and rows, and it is the run's, at the new address, whenever
    there is a key, the cache is on, nobody has borrowed what was there and
    the memory suffices.  After each of the three the entries again hold the
    texts of the runs made under their keys, and the cache is in a reachable
    state.  (The texts of an entry, its address and its number of rows are
    meant; a call also updates the time of its last use.) *)
Theorem cached_select ini e cfg s w w' ans c runs :
  SQL cfg = Some s -> q_cache w = Some c -> cinv c -> 0 <= qe_now e -> qe_addr e ∉ map addr (entries c) -> honest runs c ->
  execute_query_batch ini e cfg w = Some (w', ans) ->
  let key := query_key cfg (trim_sql_inplace s) (Some c) in
  exists c', q_cache w' = Some c' /\ cinv c' /\
    ((exists k r, key = Some k /\ (k, r) ∈ runs /\ answer_of e (wants_json cfg) r ans /\ q_log w' = q_log w /\ honest runs c' /\ same_entries c c') \/
     (ans = failed_answer /\ honest runs c' /\ same_entries c c') \/
     (exists w1 w2 r, q_db w1 = q_db w /\ q_log w1 = q_log w /\ run_select ini e cfg (trim_sql_inplace s) w1 = Some (w2, Some r) /\
        ans = mk_batch_answer 0 (if qe_out e then Some (qr_xml r) else None)
                (if wants_json cfg then response_write_json (qe_json e 0) (Some (qr_rs r)) else None) /\
        honest (match key with Some k => (k, r) :: runs | None => runs end) c' /\
        (forall k, key <> Some k -> info <$> abs c' !! k = info <$> abs c !! k) /\
        (forall k en, abs c' !! k = Some en -> old_entry c k en \/ (key = Some k /\ of_run r en)) /\
        (forall k j, storable e key r c k j -> exists en, abs c' !! k = Some en /\ info en = (qe_addr e, qr_xml r, Some j, qr_rows r)))).
Proof.
  intros Hsql Hc Hi Hnow Ha Hh. unfold execute_query_batch. rewrite Hsql, Hc. set (sql := trim_sql_inplace s). cbv zeta.
  destruct (extract_sql_dependencies (Some sql)) as [deps|]; [|intros [= <- <-]; exists c; split; [done|]; split; [done|]; by right; left].
  set (key := query_key cfg sql (Some c)).
  destruct (try_cache e cfg key w) as [[w1 o]|] eqn:Et; [|done]. cbn [mbind option_bind].
  destruct (try_cache_entries _ _ _ _ _ _ _ Et Hc Hi Hnow) as (c1 & Hc1 & Hi1 & Hs1 & Hl1 & Hd1 & _ & Hserved).
  assert (honest runs c1) as Hh1 by (eapply honest_old; [exact Hh|]; intros k en'; by apply same_old).
  destruct o as [ans0|].
  - intros [= <- <-]. destruct Hserved as (k & en & Hk & He & _ & Hs). destruct (Hh _ _ He) as (r & Hr & Hof).
    exists c1. split; [done|]. split; [done|]. left. exists k, r. split_and!; try done. by eapply serve_answer.
  - destruct Hserved as [Hen Hun]. destruct (run_select ini e cfg sql w1) as [[w2 [r|]]|] eqn:Er; cbn [mbind option_bind]; [| |done];
      destruct (moves_run ini e cfg sql _ _ _ Er) as (evs & _ & _ & Hc2); rewrite Hc1 in Hc2.
    + intros Hk. destruct (keep_result_entries _ _ _ _ _ _ _ _ _ Hk Hc2 Hi1 Hnow) as (Hans & c' & Hc' & Hi' & Hent).
      { intros Hin. by apply Ha, (same_addrs c c1). }
      destruct (kept_entries_after _ _ _ _ _ _ Hs1 Hen Hun Hent) as (K1 & K2 & K3).
      exists c'. split; [done|]. split; [done|]. right; right. exists w1, w2, r. do 4 (split; [done|]). split; [apply (honest_new runs c c'); done|done].
    + intros [= <- <-]. exists c1. split; [done|]. split; [done|]. by right; left.
Qed.

(** The log of the driver is left alone by the cache. *)
Lemma try_cache_log e cfg key w w' o : try_cache e cfg key w = Some (w', o) -> q_log w' = q_log w.
Proof.
  unfold try_cache. destruct key; [|by intros [= <- _]]. destruct (resultset_cache_lookup _ _ _ _) as [c [en|]]; [|by intros [= <- _]].
  destruct (resultset_cache_release _ _); cbn [mbind option_bind]; [|done]. destruct (serve _ _ _); by intros [= <- _].
Qed.

Lemma keep_result_log e cfg deps key r w w' ans : keep_result e cfg deps key r w = Some (w', ans) -> q_log w' = q_log w /\ batch_rc ans = 0.
Proof.
  unfold keep_result. destruct (qe_config e); [|done]. destruct (response_writer_cache_store _ _ _ _ _ _ _ _ _ _ _) as [[c3 rc] j].
  intros [= <- <-]. split; [|done]. by destruct (match key with Some _ => _ | None => _ end).
Qed.
End serving.

Section termination.
Context `{SelectLaws} `{!ShortRows} `{JsonPrinter}.

Lemma total_try_cache e cfg key w : 0 <= qe_now e -> (forall c, q_cache w = Some c -> cinv c) -> is_Some (try_cache e cfg key w).
Proof.
  intros Hnow Hi. unfold try_cache. destruct key as [k|]; [|by eexists]. unfold resultset_cache_lookup. destruct (q_cache w) as [c|]; [|by eexists].
  specialize (Hi c eq_refl). pose proof (lookup_same c (qe_now e) (qe_us e) k Hi Hnow) as Hl.
  destruct (cache_lookup _ _ _ _) as [c1 [en'|]]; destruct Hl as (Hi1 & Hs1 & _ & Hl); [|by eexists]. destruct Hl as (Ha1 & _).
  assert (abs c1 !! k = Some en') as He1 by (rewrite Ha1; apply lookup_insert_eq).
  destruct (release_same c1 k _ Hi1 He1) as (c2 & -> & _). cbn [mbind option_bind]. destruct (serve _ _ _); by eexists.
Qed.

(** C18: every SELECT is answered.  The driver keeps its contract - its cursors
    come to an end and give rows with the columns they were opened with, in
    arrays they fit - and gives no value so long that it overruns the array of
    the XML writer; any of its calls may fail.  Then, whatever the statement
    and the allocations the code checks, a call with a statement and a
    configuration to hand the text out to returns, with 0 or with -1 and no
    text; and whichever way it took, each cursor it opened was closed, once,
    before the next one was opened, and none was used after that. *)
Theorem query_answers ini e cfg s w :
  SQL cfg = Some s -> qe_config e = true -> 0 <= max_record_count ini < INT_MAX -> 0 <= qe_now e -> (forall c, q_cache w = Some c -> cinv c) ->
  exists w' ans evs, execute_query_batch ini e cfg w = Some (w', ans) /\ (batch_rc ans = 0 \/ ans = failed_answer) /\
    q_log w' = q_log w ++ evs /\ trace false evs = Some false.
Proof.
  intros Hsql Hcfg Hm Hnow Hi. unfold execute_query_batch. rewrite Hsql. set (sql := trim_sql_inplace s). cbv zeta.
  destruct (extract_sql_dependencies (Some sql)) as [deps|]; [|exists w, failed_answer, []; rewrite app_nil_r; by split_and!; try right].
  destruct (total_try_cache e cfg (query_key cfg sql (q_cache w)) w Hnow Hi) as [[w1 o] Et]. rewrite Et. cbn [mbind option_bind].
  pose proof (try_cache_log _ _ _ _ _ _ Et) as Hl1. destruct o as [ans|].
  - exists w1, ans, []. rewrite app_nil_r. split; [done|]. split; [|done]. left. revert Et. unfold try_cache. destruct (query_key _ _ _); [|done].
    destruct (resultset_cache_lookup _ _ _ _) as [c [en|]]; [|done]. destruct (resultset_cache_release _ _); cbn [mbind option_bind]; [|done].
    destruct (serve _ _ _) as [ans'|] eqn:Es; [|done]. intros [= _ ->]. revert Es. unfold serve. destruct (wants_json cfg); [destruct (output_document_json en); [|done]|]; by intros [= <-].
  - destruct (total_run ini e cfg sql Hm w1) as [[w2 r] Er]. rewrite Er. cbn [mbind option_bind].
    destruct (moves_run ini e cfg sql _ _ _ Er) as (evs & Hl & Ht & _). rewrite Hl1 in Hl.
    assert (trace false evs = Some false) as Ht' by (by destruct r). destruct r as [r|].
    + assert (exists w3 ans, keep_result e cfg deps (query_key cfg sql (q_cache w)) r w2 = Some (w3, ans)) as (w3 & ans & Ek).
      { unfold keep_result. rewrite Hcfg. destruct (response_writer_cache_store _ _ _ _ _ _ _ _ _ _ _) as [[c3 rc] j]. by eexists _, _. }
      destruct (keep_result_log _ _ _ _ _ _ _ _ Ek) as [Hl3 Hrc]. exists w3, ans, evs. rewrite Hl3. split; [done|]. split; [by left|by split].
    + exists w2, failed_answer, evs. split; [done|]. split; [by right|by split].
Qed.
End termination.

(** ** Examples *)

(** A driver over a table: a text of its count, and its rows, [size] of them
    in a batch. *)
Section table.
Variables (count : string) (rows : list resultset_row) (width size : nat).

Definition table_rows (c : bool * nat) : list resultset_row :=
  drop (snd c) (if fst c then [mk_rs_row 1 [scalar "COUNT(*)" "NUMBER" count]] else rows).

Definition table_driver : SelectDriver := {|
  select_dialect := oracle_dialect;
  db := unit;
  cursor := bool * nat;
  select_open _ r :=
    let counting := bool_decide (take 15 (sr_sql r) = str "SELECT COUNT(*)") in
    (tt, Some ((counting, O), if counting then 1 else Z.of_nat width, Z.of_nat size));
  select_fetch_batch _ c :=
    let batch := take size (table_rows c) in
    (tt, Some ((fst c, (snd c + length batch)%nat),
               mk_fetched (Some (mk_resultset batch)) (Z.of_nat (length batch)) 0 0));
  select_close _ _ := tt;
  rows_left _ c := length (table_rows c) |}.

Hypothesis count_fits : field_fits (scalar "COUNT(*)" "NUMBER" count).
Hypothesis rows_fit : Forall (fun r => row_fits r /\ length (fields r) = width) rows.

Lemma table_laws : @SelectLaws table_driver.
Proof using count_fits rows_fit.
  refine (@Build_SelectLaws table_driver (fun c : bool * nat => if fst c then 1%nat else width) _ _ _ _ _).
  - intros d r d' c n b. cbn. intros [= _ <- <- _]. cbn [fst]. by destruct (bool_decide _).
  - intros d c d' c' f. cbn. intros [= _ <- _]. done.
  - intros d c d' c' f. cbn. intros [= _ _ <-]. right. eexists. split; [reflexivity|]. cbn [rows_fetched record_count records]. split; [done|].
    assert (Forall (fun r => row_fits r /\ length (fields r) = if fst c then 1%nat else width) (take size (table_rows c))) as Hf.
    { apply Forall_take, Forall_drop. destruct (fst c); [|exact rows_fit]. apply List.Forall_cons; [|apply List.Forall_nil].
      split; [|done]. by apply List.Forall_cons. }
    apply List.Forall_and_inv in Hf as [H1 H2]. by split.
  - intros d c d' c' f. cbn. intros [= _ <- <-]. cbn [rows_fetched]. rewrite Nat2Z.id. unfold table_rows. cbn [fst snd].
    rewrite length_take, !length_drop. lia.
  - intros sql n q. apply oracle_count_longer.
Defined.

Hypothesis rows_short : Forall (fun r => Forall field_short (fields r)) ([mk_rs_row 1 [scalar "COUNT(*)" "NUMBER" count]] ++ rows).

Lemma table_short : @ShortRows table_driver.
Proof using rows_short.
  intros d c d' c' f rs. cbn. intros [= _ _ <-] [= <-]. unfold resultset_short. cbn [records].
  apply Forall_app in rows_short as [H1 H2]. apply Forall_take, Forall_drop. by destruct (fst c).
Defined.
End table.

Definition a_row (name city : string) : resultset_row := mk_rs_row 7 [scalar "NAME" "VARCHAR2" name; scalar "CITY" "VARCHAR2" city].
Definition three_rows : list resultset_row := [a_row "Ada" "Turin"; a_row "Bob" "Bern"; a_row "Cleo" "Ghent"].
Definition counts (n : string) : SelectDriver := table_driver n three_rows 2 2.
Definition select_start (n : string) (c : option cache) : @query_world (counts n) := @mk_query_world (counts n) tt c [] [].
Definition select_env : query_env :=
  mk_query_env 100 5 (fun _ => true) (fun _ => true) (fun _ => true) (fun _ => true) true true true (fun _ => true) 9 dbl_of.
Definition select_ini (max : Z) : dispatch_ini := mk_dispatch_ini true max 2.
Definition a_select (sql format : string) (job : option string) : execute_config :=
  mk_config (Some (str sql)) 100 2 true true (Some (str format)) (str "r.xml") (str <$> job).
Definition people : string := "SELECT name, city FROM people".

(** The number of rows a run reports, and the names in its result. *)
Definition names (r : query_result) : Z * list (list ascii) :=
  (qr_rows r, map (fun x => default [] (value <$> head (fields x))) (records (qr_rs r))).
Definition ran (n : string) (max : Z) : option (option (Z * list (list ascii)) * list select_event) :=
  match @run_select (counts n) (demo_printer None) (select_ini max) select_env (a_select people "XML" None) (str people) (select_start n None) with
  | Some (w, o) => Some (names <$> o, q_log w)
  | None => None
  end.

Example rows_as_counted : fst <$> ran "3" 100 = Some (Some (3, [str "Ada"; str "Bob"; str "Cleo"])).
Proof. vm_compute. reflexivity. Qed.

(** A row that is gone between the count and the fetch leaves a blank row, and
    the document says how many there really are. *)
Example a_row_gone : fst <$> ran "4" 100 = Some (Some (3, [str "Ada"; str "Bob"; str "Cleo"; []])).
Proof. vm_compute. reflexivity. Qed.

(** A row that came in between is an error; the cursor is closed. *)
Example a_row_more : (fun p => (fst p, list.last (snd p))) <$> ran "2" 100 = Some (None, Some EvClose).
Proof. vm_compute. reflexivity. Qed.

Ltac scalar_fits :=
  unfold field_fits, blob_fits; cbn [scalar field_name field_type value blob_detail is_blob no_blob bd_file_name bd_file_path bd_file_url bd_file_size bd_mime_type];
  split_and!; try (apply Nat.ltb_lt; vm_compute; reflexivity); done.

Lemma counts_laws : @SelectLaws (counts "3").
Proof.
  apply table_laws; [scalar_fits|].
  repeat (apply List.Forall_cons; [split; [repeat (apply List.Forall_cons; [scalar_fits|]); apply List.Forall_nil|reflexivity]|]). apply List.Forall_nil.
Defined.

Lemma counts_short : @ShortRows (counts "3").
Proof. apply table_short. apply (bool_decide_unpack _). vm_compute. exact I. Defined.

(** A stage that goes on. *)
Definition goes_on {W A} (o : option (W * option A)) : bool := match o with Some (_, Some _) => true | _ => false end.
Lemma goes_on_spec {W A} (o : option (W * option A)) : goes_on o = true -> exists w a, o = Some (w, Some a).
Proof. destruct o as [[w [a|]]|]; [by eexists _, _|done..]. Defined.

Definition people_run (format : string) (job : option string) :=
  @run_select (counts "3") (demo_printer None) (select_ini 100) select_env (a_select people format job) (str people) (select_start "3" None).

Lemma ends_with {W A} (o : option (W * option A)) a : (match o with Some (_, o) => o | None => None end) = Some a -> exists w, o = Some (w, Some a).
Proof. destruct o as [[w [b|]]|]; [intros [= ->]; by eexists|done..]. Defined.

Definition people_open (format : string) (job : option string) :=
  @open_select (counts "3") (select_ini 100) (a_select people format job) (str people) (select_start "3" None).

Lemma people_opened format job : exists w2, people_open format job = Some (w2, Some (3, false, (((false, O) : @cursor (counts "3")), 2, 2))).
Proof. apply ends_with. vm_compute. reflexivity. Defined.

Lemma query_result_typed_witness : exists w r, people_run "XML" None = Some (w, Some r) /\ well_formed 3 2 (qr_rs r).
Proof.
  destruct (goes_on_spec (people_run "XML" None) ltac:(vm_compute; reflexivity)) as (w & r & E).
  destruct (@query_result_typed (counts "3") counts_laws counts_short (demo_printer None) (select_ini 100) select_env (a_select people "XML" None) (str people) (select_start "3" None) w r)
    as (q & w1 & counted & w2 & truncated & c & cols & b & H1 & H2 & H3 & _ & H5); [split; [apply Z.leb_le|apply Z.ltb_lt]; vm_compute; reflexivity|exact E|].
  destruct (people_opened "XML" None) as [w3 E3]. unfold people_open in E3. rewrite E3 in H3. injection H3 as _ Hn _ _ Hcols _.
  cbv zeta in H5. change (max_record_count (select_ini 100)) with 100 in H5. rewrite <- Hn, <- Hcols in H5. exists w, r. split; [exact E|exact H5].
Defined.

Lemma select_returns_rows_witness : exists w r doc, people_run "XML" None = Some (w, Some r) /\
  r = mk_query_result (filled 3 2 three_rows) 3 doc.
Proof.
  destruct (people_opened "XML" None) as [w2 E].
  destruct (@select_returns_rows (counts "3") counts_laws counts_short (demo_printer None) (select_ini 100) select_env (a_select people "XML" None) (str people)
              (select_start "3" None) w2 3 false ((false, O) : @cursor (counts "3")) 2 2 eq_refl) as (_ & w' & o & E' & _ & _ & Ho);
    [split; [apply Z.leb_le|apply Z.ltb_lt]; vm_compute; reflexivity|reflexivity|exact E|].
  destruct (cursor_rows (q_db w2) _) as [rows|] eqn:Er; [|vm_compute in Er; discriminate Er].
  assert (rows = three_rows) as -> by (vm_compute in Er; injection Er as <-; reflexivity).
  change (Nat.leb (length three_rows) (Z.to_nat 3)) with true in Ho. cbv zeta iota in Ho. destruct Ho as (doc & head & text & -> & _).
  exists w', (mk_query_result (filled 3 2 three_rows) 3 doc), doc. split; [exact E'|reflexivity].
Defined.

Lemma async_batches_end_witness : exists w o dls, people_run "XML" (Some "job") = Some (w, o) /\ q_sent w = dls /\
  map dl_number dls = [1; 2] /\ map dl_final dls = [false; true].
Proof.
  destruct (people_opened "XML" (Some "job")) as [w2 E].
  pose proof (@async_batches_end (counts "3") counts_laws counts_short (demo_printer None) (select_ini 100) select_env (a_select people "XML" (Some "job")) (str people)
              (select_start "3" None) w2 3 false ((false, O) : @cursor (counts "3")) 2 2 ltac:(by eexists) ltac:(vm_compute; reflexivity)
              ltac:(split; [apply Z.leb_le|apply Z.ltb_lt]; vm_compute; reflexivity) ltac:(reflexivity) ltac:(reflexivity) E) as Hw.
  destruct (drain_cursor _ _ _) as [l ok] eqn:Ed. assert (rows_of l = three_rows /\ length l = 2%nat) as [Hl Hl2] by (vm_compute in Ed; injection Ed as <- _; split; reflexivity).
  destruct (Hw ltac:(rewrite Hl; reflexivity) ltac:(lia)) as (w' & o & dls & E' & _ & Hs & Hn & Hf & _). rewrite Hl2 in Hn, Hf. change (q_sent (select_start "3" None)) with (@nil delivery) in Hs.
  exists w', o, dls. split; [exact E'|]. split; [exact Hs|]. split; [exact Hn|exact Hf].
Defined.

(** A cache before and after a first call; the second is served from it. *)
Definition first_call := @execute_query_batch (counts "3") (demo_printer None) (select_ini 100) select_env (a_select people "XML" None)
  (select_start "3" (Some CacheSpec.demo)).

Lemma query_answers_witness : exists w ans evs, first_call = Some (w, ans) /\ (batch_rc ans = 0 \/ ans = failed_answer) /\
  q_log w = evs /\ trace false evs = Some false.
Proof.
  refine (@query_answers (counts "3") counts_laws counts_short (demo_printer None) (select_ini 100) select_env (a_select people "XML" None) (str people)
           (select_start "3" (Some CacheSpec.demo)) eq_refl eq_refl _ _ _).
  - split; [apply Z.leb_le|apply Z.ltb_lt]; vm_compute; reflexivity.
  - apply Z.leb_le. reflexivity.
  - intros c [= <-]. exact (reachable_inv CacheSpec.demo (demo_reachable [] I ltac:(by eexists))).
Defined.

Lemma cached_select_witness : exists w ans c' r en, first_call = Some (w, ans) /\ q_cache w = Some c' /\ cinv c' /\
  OUTPUT_XML ans = Some (qr_xml r) /\ @honest (demo_printer None) [(str "SELECT NAME, CITY FROM PEOPLE", r)] c' /\
  abs c' !! str "SELECT NAME, CITY FROM PEOPLE" = Some en /\ output_document en = qr_xml r.
Proof.
  assert ((fun p => batch_rc (snd p)) <$> first_call = Some 0) as Hrc by (vm_compute; reflexivity).
  destruct first_call as [[w ans]|] eqn:E; [|discriminate Hrc]. injection Hrc as Hrc.
  destruct (@cached_select (counts "3") (demo_printer None) (select_ini 100) select_env (a_select people "XML" None) (str people)
              (select_start "3" (Some CacheSpec.demo)) w ans CacheSpec.demo [] eq_refl eq_refl
              (reachable_inv CacheSpec.demo (demo_reachable [] I ltac:(by eexists))) ltac:(apply Z.leb_le; reflexivity)
              ltac:(vm_compute; by intros ?%elem_of_nil) ltac:(intros k en He; vm_compute in He; discriminate He) E)
    as (c' & Hc & Hi & [(k & r & _ & Hin & _)|[[-> _]|(w1 & w2 & r & _ & _ & _ & Hx & Hh & _ & _ & Hput)]]).
  - apply elem_of_nil in Hin. destruct Hin.
  - exfalso. clear -Hrc. cbn in Hrc. lia.
  - assert (query_key (a_select people "XML" None) (trim_sql_inplace (str people)) (Some CacheSpec.demo) = Some (str "SELECT NAME, CITY FROM PEOPLE")) as Ek
      by (vm_compute; reflexivity). rewrite Ek in Hh, Hput.
    assert (exists j, @response_write_json (demo_printer None) true (Some (qr_rs r)) = Some j) as [j Hj] by (eexists; reflexivity).
    destruct (Hput (str "SELECT NAME, CITY FROM PEOPLE") j) as (en & He & Hinfo).
    { split; [reflexivity|]. split; [discriminate|]. split; [reflexivity|]. split; [intros en He; vm_compute in He; discriminate He|].
      split; [reflexivity|]. split; [reflexivity|]. split; [reflexivity|exact Hj]. }
    injection Hinfo as _ Hd _ _. exists w, ans, c', r, en. split; [reflexivity|]. split; [exact Hc|]. split; [exact Hi|].
    split; [rewrite Hx; reflexivity|]. split; [exact Hh|]. split; [exact He|exact Hd].
Defined.

(** The calls of the driver a second request makes after the first, and its
    answer: the statements differ in letters and blanks. *)
Definition second_call (first second format : string) : option (batch_answer * nat) :=
  match @execute_query_batch (counts "3") (demo_printer None) (select_ini 100) select_env (a_select first "XML" None) (select_start "3" (Some CacheSpec.demo)) with
  | Some (w, _) =>
      (fun p => (snd p, (length (q_log (fst p)) - length (q_log w))%nat)) <$>
      @execute_query_batch (counts "3") (demo_printer None) (select_ini 100) select_env (a_select second format None) w
  | None => None
  end.

Example served_again :
  option_map (fun p => (batch_rc (fst p), snd p)) (second_call people " select  NAME, City from People" "XML") = Some (0, 0%nat).
Proof. vm_compute. reflexivity. Qed.

(** Blanks inside a literal are taken for blanks between words: two statements
    that ask for different rows share an entry, and the second gets the rows of
    the first. *)
Example literals_share_a_key :
  let a := "SELECT name FROM people WHERE city = 'New  York'" in
  let b := "SELECT name FROM people WHERE city = 'New York'" in
  option_map (fun p => (batch_rc (fst p), snd p)) (second_call a b "XML") = Some (0, 0%nat).
Proof. vm_compute. reflexivity. Qed.

(** An asynchronous request without a row receives no batch, so none marked
    final. *)
Example empty_async_run :
  let d := table_driver "0" [] 2 2 in
  match @run_select d (demo_printer None) (select_ini 100) select_env (a_select people "XML" (Some "job")) (str people) (@mk_query_world d tt None [] []) with
  | Some (w, Some r) => (q_sent w, qr_rows r) = ([], 0)
  | _ => False
  end.
Proof. vm_compute. reflexivity. Qed.

(** The statement goes into the document as it is. *)
Example sql_not_escaped :
  (fun x => is_some (strstr (str "<sql_query>SELECT 1 FROM t WHERE a < 3</sql_query>") (buffer x))) <$>
    query_head (str "SELECT 1 FROM t WHERE a < 3") false = Some true.
Proof. vm_compute. reflexivity. Qed.

(** A negative batch size is passed on; of a letter that ends in the byte A0
    the first byte is left. *)
Example negative_batch_size : fetch_size (-5) = -5 /\ fetch_size 0 = 1.
Proof. vm_compute. by split. Qed.
Example half_a_letter : map code (trim_sql_inplace (map ascii_of_N [65; 195; 160]%N)) = [65; 195].
Proof. vm_compute. reflexivity. Qed.
