(* ===== verification/Procedures.v ===== *)
(** * Procedures: a stored procedure and its cursors

    src/src/execute/Execute_Procedure_Module.c with the procedure documents of
    src/src/core/Response_Writer.c: a request that Level 2 accepts becomes one
    call statement (Dialect.v), the driver runs it and fills in what comes
    back, the scalar values are collected, each cursor the procedure opened is
    fetched into one result (QueryBatch.v has the cursor functions and the copy
    of a row) and rendered, and both documents are made.

    The driver's part is the class [ProcDriver]; the calls made to it are kept
    as a list.  [None] is undefined behaviour; an early end with -1 is the
    answer [failed_answer].  Metrics and log lines are left out; [xml_create]
    takes its memory without a look (XML_Helper.c), so the test of its result
    here never fails and is left out too. *)

From Stdlib Require Import Ascii String ZArith Lia Bool.
From stdpp Require Import base list strings numbers.
From S2P Require Import Prelude Text XmlHelper SqlDependency DdlModules Requests Level1Parser Level1Formats Level2Parser.
From S2P Require Import Dialect ResultsetBuilder ResponseWriter Dispatcher QueryBatch.

#[local] Open Scope Z_scope.

(** ** The driver *)

Inductive db_proc_param_type := DB_PROC_TYPE_STR | DB_PROC_TYPE_INT | DB_PROC_TYPE_CURSOR.

(** What is handed in: [db_proc_param_t] without what comes back. *)
Record db_proc_param := mk_db_proc_param {
  dp_name : list ascii; dp_type : db_proc_param_type; dp_direction : param_direction; in_value : option (list ascii) }.

(** What comes back for one parameter. *)
Record proc_out (handle : Type) := mk_proc_out {
  out_value : list ascii; out_int : Z; out_is_null : bool; out_cursor_handle : option handle }.
Arguments mk_proc_out {_}.
Arguments out_value {_}.
Arguments out_int {_}.
Arguments out_is_null {_}.
Arguments out_cursor_handle {_}.

(** The answer to a call: what was written for each parameter; what the driver
    does not write stays as [calloc] left it. *)
Class ProcDriver := {
  proc_select :: SelectDriver;
  handle : Type;
  dml_execute_procedure : db -> list ascii -> list db_proc_param -> db * option (list (proc_out handle));
  select_open_from_cursor : db -> handle -> db * option (cursor * Z * Z);
  cursor_handle_free : db -> handle -> db;
}.

Inductive proc_event (handle : Type) :=
| PCall (ok : bool)
| POpen (h : handle) (ok : bool)
| PFetch
| PClose
| PFree (h : handle).
Arguments PCall {_}.
Arguments POpen {_}.
Arguments PFetch {_}.
Arguments PClose {_}.
Arguments PFree {_}.

Record proc_world `{ProcDriver} := mk_proc_world { p_db : db; p_log : list (proc_event handle) }.
Arguments mk_proc_world {_}.

(** Which allocations succeed - [pe_calloc]: the context, the parameters, the
    scalar values, the result sets; for each cursor by its number: the arrays
    of its batches, by the number of batches kept so far, those of
    [resultset_create], the copy of its text, the text with its attribute; the
    text of a cursor never opened -, [cfg->xml], and the time measured. *)
Record proc_env := mk_proc_env {
  pe_calloc : nat -> bool; pe_realloc : nat -> nat -> bool; pe_rs : nat -> nat -> bool; pe_copy : nat -> bool; pe_attribute : nat -> bool;
  pe_empty : nat -> bool; pe_fragment : bool; pe_config : bool; pe_out : bool; pe_json : bool; pe_elapsed : double }.

(** ** The call statement *)

Definition MAX_PROC_NAME_LEN : nat := 256.
Definition MAX_PARAM_VALUE_SIZE : nat := Z.to_nat 32768.
Definition MAX_PLSQL_BLOCK_LEN : nat := Z.to_nat 8192.
Definition PROC_NAME_SIZE : nat := 128.
Definition PROC_TYPE_SIZE : nat := 64.

Record proc_param (handle : Type) := mk_param {
  param_name : list ascii; param_type : list ascii; param_direction_of : param_direction; param_value : list ascii;
  out_text : list ascii; out_number : Z; is_null : bool; cursor_handle : option handle; is_cursor : bool; is_integer : bool }.
Arguments mk_param {_}.
Arguments param_name {_}.
Arguments param_type {_}.
Arguments param_direction_of {_}.
Arguments param_value {_}.
Arguments out_text {_}.
Arguments out_number {_}.
Arguments is_null {_}.
Arguments cursor_handle {_}.
Arguments is_cursor {_}.
Arguments is_integer {_}.

Section procedure.
Context `{ProcDriver} `{JsonPrinter}.

Abbreviation param := (proc_param handle).

Definition set_proc_param (rp : procedure_param) : param :=
  let type := map toupper (cut PROC_TYPE_SIZE (pp_type rp)) in
  mk_param (cut PROC_NAME_SIZE (pp_name rp)) type (direction rp) (cut MAX_PARAM_VALUE_SIZE (pp_value rp)) [] 0 false None
    (str_eqb type (str "CURSOR")) (str_eqb type (str "INTEGER") || str_eqb type (str "NUMBER")).

(** The name with its owner, if it has none yet; the parameters. *)
Definition build_proc_ctx_from_request (req : execute_procedure_request) : option (list ascii * list param) :=
  match proc_name req with
  | [] => None
  | _ =>
      let name := cut MAX_PROC_NAME_LEN (proc_name req) in
      let owner := cut 128 (proc_owner req) in
      let name :=
        match owner with
        | _ :: _ => if existsb (fun c => Ascii.eqb c ".") name then name else cut MAX_PROC_NAME_LEN (owner ++ str "." ++ name)
        | [] => name
        end in
      if (MAX_PROC_PARAMS <? length (proc_params req))%nat then None else Some (name, map set_proc_param (proc_params req))
  end.

Definition build_plsql_block (name : list ascii) (params : list param) : option (list ascii) :=
  procedure_call_sql name (map param_name params) MAX_PLSQL_BLOCK_LEN.

Definition driver_param (p : param) : db_proc_param :=
  mk_db_proc_param (param_name p)
    (if is_cursor p then DB_PROC_TYPE_CURSOR else if is_integer p then DB_PROC_TYPE_INT else DB_PROC_TYPE_STR) (param_direction_of p)
    match param_value p with [] => None | v => Some v end.

(** What the driver wrote, back into the parameter. *)
Definition copy_back (o : proc_out handle) (p : param) : param :=
  mk_param (param_name p) (param_type p) (param_direction_of p) (param_value p) (out_value o)
    (if is_integer p then out_int o else 0) (out_is_null o) (if is_cursor p then out_cursor_handle o else None) (is_cursor p) (is_integer p).

Definition blank_out : proc_out handle := mk_proc_out [] 0 false None.

Definition run_call (block : list ascii) (params : list param) (w : proc_world) : proc_world * option (list param) :=
  let '(d, o) := dml_execute_procedure (p_db w) block (map driver_param params) in
  (mk_proc_world d (p_log w ++ [PCall (is_some o)]),
   (fun outs => imap (fun i p => copy_back (default blank_out (outs !! i)) p) params) <$> o).

(** ** The scalar values *)

Definition comes_back (p : param) : bool := negb (bool_decide (param_direction_of p = PARAM_DIR_IN)).

Definition out_parameter (p : param) : procedure_param :=
  mk_proc_param (cut 128 (param_name p)) (cut 32 (param_type p)) (param_direction_of p)
    (if is_null p then [] else if is_integer p then print_int (out_number p) else cut 4096 (out_text p)).

Definition out_parameters_of (params : list param) : list procedure_param :=
  map out_parameter (filter (fun p => negb (is_cursor p) && comes_back p) params).

(** ** The cursors *)

Record procedure_resultset := mk_proc_resultset { pr_param_name : list ascii; resultset_xml_fragment : option (list ascii) }.

Definition RESULTSET_TAG : list ascii := str "<resultset>".

(** [al]: the new text is allocated. *)
Definition inject_param_name_attribute (al : bool) (fragment name : list ascii) : option (list ascii) :=
  if prefix_b RESULTSET_TAG fragment then
    if al then Some (str "<resultset param_name=" ++ dquote :: name ++ dquote :: str ">" ++ drop (length RESULTSET_TAG) fragment) else None
  else Some fragment.

(** [char empty_frag[128]] *)
Definition empty_fragment (name : list ascii) : list ascii :=
  take 127 (str "<resultset param_name=" ++ dquote :: name ++ dquote :: str "/>" ++ nl).

Definition log_proc (d : db) (ev : proc_event handle) (w : proc_world) : proc_world := mk_proc_world d (p_log w ++ [ev]).

Definition open_handle (h : handle) (w : proc_world) : proc_world * option (cursor * Z * Z) :=
  let '(d, o) := select_open_from_cursor (p_db w) h in (log_proc d (POpen h (is_some o)) w, o).
Definition fetch_one (c : cursor) (w : proc_world) : proc_world * option (cursor * fetched_batch) :=
  let '(d, o) := select_fetch_batch (p_db w) c in (log_proc d PFetch w, o).
Definition close_one (c : cursor) (w : proc_world) : proc_world := log_proc (select_close (p_db w) c) PClose w.

(** The arrays of the batches and of their row counts grow from 8 by doubling.
    [None]: the new ones are not allocated, which is not looked at before the
    batch is written through them. *)
Definition grow_batches (al : nat -> bool) (num_batches batch_capacity : nat) : option nat :=
  if (batch_capacity <=? num_batches)%nat then
    if al num_batches then Some (if Nat.eqb batch_capacity 0 then 8 else batch_capacity * 2)%nat else None
  else Some batch_capacity.

(** Batch after batch, up to an empty one or one that is not full; [None]
    inside: a fetch failed. *)
Fixpoint collect (fuel : nat) (al : nat -> bool) (num_batches batch_capacity : nat) (batch_size : Z) (c : cursor) (w : proc_world)
    : option (proc_world * cursor * option (list fetched_batch)) :=
  match fetch_one c w with
  | (w, None) => Some (w, c, None)
  | (w, Some (c, f)) =>
      if rows_fetched f =? 0 then Some (w, c, Some [])
      else
        batch_capacity ← grow_batches al num_batches batch_capacity;
        if rows_fetched f <? batch_size then Some (w, c, Some [f])
        else match fuel with
             | O => None
             | S fuel =>
                 '(w, c, r) ← collect fuel al (S num_batches) batch_capacity batch_size c w;
                 Some (w, c, option_map (cons f) r)
             end
  end.

(** The first [column_count] fields of each row; undefined where a row has
    fewer. *)
Definition columns_of_row (column_count : Z) (r : resultset_row) : option resultset_row :=
  if Z.of_nat (length (fields r)) <? column_count then None else Some (mk_rs_row (record_number r) (take (Z.to_nat column_count) (fields r))).

(** The rows of the batches in one result. *)
Definition combine (column_count : Z) (batches : list fetched_batch) (combined : resultset) : option resultset :=
  rows ← mapM batch_rows batches; rows ← mapM (columns_of_row column_count) (concat rows);
  '(_, rs) ← copy_rows rows 0 combined; Some rs.

Definition batch_total (batches : list fetched_batch) : option Z :=
  let n := foldr Z.add 0 (map rows_fetched batches) in if n <? 2 ^ 31 then Some n else None.

(** The [i]-th result set; [None] inside: the request fails. *)
Definition fetch_cursor (e : proc_env) (i : nat) (name : list ascii) (h : handle) (w : proc_world) : option (proc_world * option (list ascii)) :=
  match open_handle h w with
  | (w, None) => Some (w, None)
  | (w, Some (c, column_count, batch_size)) =>
      '(w, c, batches) ← collect (rows_left (p_db w) c) (pe_realloc e i) 0 0 batch_size c w;
      let w := close_one c w in
      match batches with
      | None => Some (w, None)
      | Some batches =>
          total ← batch_total batches;
          match resultset_create (pe_rs e i) total column_count with
          | None => Some (w, None)
          | Some combined =>
              combined ← combine column_count batches combined; fragment ← response_write_xml (pe_copy e i) (Some combined);
              Some (w, fragment ≫= fun t => inject_param_name_attribute (pe_attribute e i) t name)
          end
      end
  end.

Definition opt_cons {A} (o : option A) (l : list A) : list A := match o with Some a => a :: l | None => l end.

(** The result sets from the [i]-th on, and the handles still held at the
    end. *)
Fixpoint fetch_cursors (e : proc_env) (i : nat) (params : list param) (w : proc_world)
    : option (proc_world * list handle * option (list procedure_resultset)) :=
  match params with
  | [] => Some (w, [], Some [])
  | p :: params =>
      let result f w := '(w, held, r) ← fetch_cursors e (S i) params w;
                        Some (w, held, option_map (cons (mk_proc_resultset (cut 128 (param_name p)) f)) r) in
      if negb (is_cursor p) || negb (comes_back p) then
        '(w, held, r) ← fetch_cursors e i params w; Some (w, opt_cons (cursor_handle p) held, r)
      else if is_null p then result (if pe_empty e i then Some (empty_fragment (param_name p)) else None) w
      else
        match cursor_handle p with
        | None => result None w
        | Some h =>
            '(w, fragment) ← fetch_cursor e i (param_name p) h w;
            match fragment with
            | Some f => result (Some f) w
            | None => Some (w, omap cursor_handle params, None)
            end
        end
  end.

(** ** The documents *)

Record execute_procedure_response := mk_proc_response {
  procedure_name : list ascii; out_parameters : list procedure_param; resultsets : list procedure_resultset; execution_time_seconds : double }.

Definition parameter_xml (p : procedure_param) : list ascii :=
  str "  <parameter>" ++ element "param_name" (pp_name p) ++ element "param_type" (pp_type p) ++ element "param_value" (pp_value p) ++
  str "</parameter>" ++ nl.

Definition response_write_procedure_xml (al : bool) (resp : execute_procedure_response) : option (option (list ascii)) :=
  x ← append_all
        ([element "procedure_name" (procedure_name resp) ++ nl; element "execution_time" (print_fixed6 (execution_time_seconds resp)) ++ nl] ++
         match out_parameters resp with
         | [] => []
         | ps => (str "<out_parameters>" ++ nl) :: map parameter_xml ps ++ [str "</out_parameters>" ++ nl]
         end) (xml_create 4096);
  x ← each (fun r => xml_append_raw (resultset_xml_fragment r)) (resultsets resp) x;
  Some (if al then Some (buffer x) else None).

Definition response_write_procedure_json (al : bool) (resp : execute_procedure_response) : option (list ascii) :=
  if al then
    cJSON_PrintUnformatted
      (json_obj
         [("procedure_name"%string, json_str (procedure_name resp)); ("execution_time"%string, json_double (execution_time_seconds resp));
          ("out_parameters"%string,
             json_arr (map (fun p => json_obj [("param_name"%string, json_str (pp_name p)); ("param_type"%string, json_str (pp_type p));
                                               ("param_value"%string, json_str (pp_value p))]) (out_parameters resp)));
          ("resultsets"%string,
             json_arr (map (fun r => json_obj [("param_name"%string, json_str (pr_param_name r));
                                               ("resultset_xml"%string, json_str (default [] (resultset_xml_fragment r)))]) (resultsets resp)))])
  else None.

Definition procedure_document (fragment : list ascii) : option (list ascii) :=
  x ← xml_start_document (xml_create 16384); x ← xml_append (str "<Procedure_Result>" ++ nl) x; x ← xml_start_execution x;
  x ← xml_append_raw (Some fragment) x; x ← xml_end_execution x; x ← xml_append (str "</Procedure_Result>" ++ nl) x; x ← xml_finalize x;
  Some (buffer x).

(** ** The module *)

Definition answer_documents (e : proc_env) (cfg : execute_config) (resp : execute_procedure_response) : option batch_answer :=
  fragment ← response_write_procedure_xml (pe_fragment e) resp;
  match fragment with
  | None => Some failed_answer
  | Some fragment =>
      doc ← procedure_document fragment;
      if pe_config e then
        Some (mk_batch_answer 0 (if pe_out e then Some doc else None)
                (if wants_json cfg then response_write_procedure_json (pe_json e) resp else None))
      else None
  end.

(** An array of nothing is not allocated. *)
Definition array_of {A} (al : bool) (l : list A) : bool := match l with [] => true | _ => al end.

Definition cursors_out (params : list param) : list param := filter (fun p => is_cursor p && comes_back p) params.

(** From the values that came back to the answer, and the handles still held. *)
Definition collect_results (e : proc_env) (cfg : execute_config) (name : list ascii) (params : list param) (w : proc_world)
    : option (proc_world * list handle * batch_answer) :=
  let outs := out_parameters_of params in
  if array_of (pe_calloc e 2%nat) outs && array_of (pe_calloc e 3%nat) (cursors_out params) then
    '(w, held, sets) ← fetch_cursors e 0 params w;
    match sets with
    | None => Some (w, held, failed_answer)
    | Some sets => ans ← answer_documents e cfg (mk_proc_response (cut 128 name) outs sets (pe_elapsed e)); Some (w, held, ans)
    end
  else Some (w, omap cursor_handle params, failed_answer).

Definition free_handles (held : list handle) (w : proc_world) : proc_world :=
  foldl (fun w h => log_proc (cursor_handle_free (p_db w) h) (PFree h) w) w held.

Definition execute_procedure (e : proc_env) (cfg : execute_config) (req : execute_procedure_request) (w : proc_world)
    : option (proc_world * batch_answer) :=
  if negb (status_code (level2_validate_procedure (Some req)) =? 0) then Some (w, failed_answer)
  else if negb (pe_calloc e 0%nat) then Some (w, failed_answer)
  else
    match build_proc_ctx_from_request req with
    | None => Some (w, failed_answer)
    | Some (name, params) =>
        match build_plsql_block name params with
        | None => Some (w, failed_answer)
        | Some block =>
            if array_of (pe_calloc e 1%nat) params then
              match run_call block params w with
              | (w, None) => Some (w, failed_answer)
              | (w, Some params) =>
                  '(w, held, ans) ← collect_results e cfg name params w;
                  Some (free_handles held w, ans)
              end
            else Some (w, failed_answer)
        end
    end.
End procedure.

(** ** What is relied on *)

(** The driver as db_driver.h has it: it is handed an array of parameters and
    writes into each; a cursor the procedure never opened has no handle; an
    opened one has the columns it was opened with.  A cursor gives fewer rows
    than an [int] can count. *)
Class ProcLaws `{ProcDriver} := {
  proc_select_laws :: SelectLaws;
  outs_given d block ps d' outs : dml_execute_procedure d block ps = (d', Some outs) -> length outs = length ps;
  null_never_opened d block ps d' outs : dml_execute_procedure d block ps = (d', Some outs) ->
    Forall (fun o => out_is_null o = true -> out_cursor_handle o = None) outs;
  handle_columns d h d' c n b : select_open_from_cursor d h = (d', Some (c, n, b)) -> n = Z.of_nat (columns c);
  handle_rows d h d' c n b : select_open_from_cursor d h = (d', Some (c, n, b)) -> Z.of_nat (rows_left d' c) < 2 ^ 31;
}.

(** ** The calls *)

(** The calls in their order, from a state with a cursor open or not; a handle
    is freed, and a procedure called, only between cursors. *)
Fixpoint proc_trace {handle} (is_open : bool) (evs : list (proc_event handle)) : option bool :=
  match evs with
  | [] => Some is_open
  | PCall _ :: evs | PFree _ :: evs => if is_open then None else proc_trace false evs
  | POpen _ ok :: evs => if is_open then None else proc_trace ok evs
  | PFetch :: evs => if is_open then proc_trace true evs else None
  | PClose :: evs => if is_open then proc_trace false evs else None
  end.

(** The handle a call gives back: the driver owns it from then on. *)
Definition given_back {handle} (ev : proc_event handle) : option handle :=
  match ev with POpen h _ | PFree h => Some h | _ => None end.

Lemma proc_trace_app {handle} b (evs evs' : list (proc_event handle)) : proc_trace b (evs ++ evs') = proc_trace b evs ≫= fun b' => proc_trace b' evs'.
Proof. revert b. induction evs as [|[ok|h ok| | |h] evs IH]; intros b; cbn [app proc_trace]; [done|..]; destruct b; try done; apply IH. Qed.

(** ** The rows of a cursor *)

(** The batches up to an empty one or one that is not full; whether no fetch
    failed; what is left of the database and the cursor. *)
Fixpoint drain_full `{SelectDriver} (fuel : nat) (b : Z) (d : db) (c : cursor) : list fetched_batch * bool * db * cursor :=
  match select_fetch_batch d c with
  | (d, None) => ([], false, d, c)
  | (d, Some (c, f)) =>
      if rows_fetched f =? 0 then ([], true, d, c)
      else if rows_fetched f <? b then ([f], true, d, c)
      else match fuel with
           | O => ([], false, d, c)
           | S fuel => let '(l, ok, d, c) := drain_full fuel b d c in (f :: l, ok, d, c)
           end
  end.

Section fetching.
Context `{ProcLaws} `{JsonPrinter}.
Implicit Types (c : cursor) (d : db) (w : proc_world) (l : list fetched_batch) (name : list ascii).

Lemma grow_batches_total al n cap : (forall n, al n = true) -> is_Some (grow_batches al n cap).
Proof. intros Hal. unfold grow_batches. rewrite Hal. destruct (_ <=? _)%nat; by eexists. Qed.

Lemma collect_spec fuel al b : (forall n, al n = true) -> forall n cap c w, (rows_left (p_db w) c <= fuel)%nat ->
  let '(l, ok, d', c') := drain_full fuel b (p_db w) c in
  exists evs, collect fuel al n cap b c w = Some (mk_proc_world d' (p_log w ++ evs), c', if ok then Some l else None) /\
    proc_trace true evs = Some true /\ omap given_back evs = [].
Proof.
  intros Hal. induction fuel as [|fuel IH]; intros n cap c w Hfuel; cbn [drain_full collect]; unfold fetch_one, log_proc;
    destruct (select_fetch_batch (p_db w) c) as [d [[c' f]|]] eqn:Ef; try (by exists [PFetch]);
    (destruct (Z.eqb_spec (rows_fetched f) 0) as [Hz|Hn]; [by exists [PFetch]|]);
    (destruct (grow_batches_total al n cap Hal) as [cap' ->]); cbn [mbind option_bind];
    (destruct (Z.ltb_spec (rows_fetched f) b); [by exists [PFetch]|]);
    destruct (fetched_rows_spec _ _ _ _ _ Ef Hn) as (rows & _ & _ & Hne & _ & _ & _ & Hleft); (destruct rows; [done|]); cbn [length] in Hleft; [lia|].
  specialize (IH (S n) cap' c' (mk_proc_world d (p_log w ++ [PFetch]))). cbn [p_db p_log] in IH.
  destruct (drain_full fuel b d c') as [[[l ok] d'] c'']. destruct IH as (evs & E & T & G); [lia|]. rewrite E. cbn [mbind option_bind].
  exists (PFetch :: evs). rewrite <- app_assoc. split; [by destruct ok|]. by split.
Qed.

Lemma drain_full_rows fuel b : forall d c,
  let '(l, ok, d', c') := drain_full fuel b d c in
  (exists rr, mapM batch_rows l = Some rr /\ concat rr = rows_of l) /\
  Forall (fun r => row_fits r /\ length (fields r) = columns c) (rows_of l) /\
  fetched_in l = Z.of_nat (length (rows_of l)) /\ (length (rows_of l) <= rows_left d c)%nat.
Proof.
  assert (forall d c d' c' f l, select_fetch_batch d c = (d', Some (c', f)) -> rows_fetched f <> 0 ->
    (exists rr, mapM batch_rows l = Some rr /\ concat rr = rows_of l) ->
    Forall (fun r => row_fits r /\ length (fields r) = columns c') (rows_of l) ->
    fetched_in l = Z.of_nat (length (rows_of l)) -> (length (rows_of l) <= rows_left d' c')%nat ->
    (exists rr, mapM batch_rows (f :: l) = Some rr /\ concat rr = rows_of (f :: l)) /\
    Forall (fun r => row_fits r /\ length (fields r) = columns c) (rows_of (f :: l)) /\
    fetched_in (f :: l) = Z.of_nat (length (rows_of (f :: l))) /\ (length (rows_of (f :: l)) <= rows_left d c)%nat) as Hcons.
  { intros d c d' c' f l Ef Hn (rr & Hm & Hc) Hfit Hin Hleft. destruct (fetched_rows_spec _ _ _ _ _ Ef Hn) as (rows & Hb & Hbr & _ & Hr & Hf & Hcols & Hle).
    rewrite (rows_of_cons f l rows) by done. rewrite length_app. unfold fetched_in in *. cbn [map foldr]. split_and!.
    - exists (rows :: rr). cbn [mapM]. rewrite Hbr. cbn [mbind option_bind]. rewrite Hm. cbn [mbind option_bind mret option_ret concat]. by rewrite Hc.
    - apply Forall_app. split; [done|]. by rewrite <- Hcols.
    - lia.
    - lia. }
  induction fuel as [|fuel IH]; intros d c; cbn [drain_full]; destruct (select_fetch_batch d c) as [d' [[c' f]|]] eqn:Ef;
    try (split_and!; [by exists []|apply List.Forall_nil|done|cbn; lia]);
    (destruct (Z.eqb_spec (rows_fetched f) 0) as [Hz|Hn]; [split_and!; [by exists []|apply List.Forall_nil|done|cbn; lia]|]);
    (destruct (Z.ltb_spec (rows_fetched f) b);
       [apply (Hcons d c d' c'); [done|done|by exists []|apply List.Forall_nil|done|cbn; lia]|]).
  - split_and!; [by exists []|apply List.Forall_nil|done|cbn; lia].
  - specialize (IH d' c'). destruct (drain_full fuel b d' c') as [[[l ok] d''] c'']. destruct IH as (I1 & I2 & I3 & I4). by apply (Hcons d c d' c').
Qed.

Lemma columns_of_rows cols rows : Forall (fun r => row_fits r /\ length (fields r) = cols) rows ->
  mapM (columns_of_row (Z.of_nat cols)) rows = Some rows.
Proof.
  induction 1 as [|r rows [_ Hl] _ IH]; [done|].
  assert (columns_of_row (Z.of_nat cols) r = Some r) as E.
  { unfold columns_of_row. rewrite Hl, Z.ltb_irrefl, Nat2Z.id, take_ge by lia. by destruct r. }
  cbn [mapM]. rewrite E. cbn [mbind option_bind]. by rewrite IH.
Qed.

(** The rows of the batches fill the result. *)
Lemma combine_rows l rr cols : mapM batch_rows l = Some rr -> concat rr = rows_of l ->
  Forall (fun r => row_fits r /\ length (fields r) = cols) (rows_of l) -> Z.of_nat (length (rows_of l)) < 2 ^ 31 ->
  combine (Z.of_nat cols) l (filled (length (rows_of l)) cols []) = Some (filled (length (rows_of l)) cols (rows_of l)).
Proof.
  intros Hm Hc Hf Hs. unfold combine. rewrite Hm. cbn [mbind option_bind]. rewrite Hc, columns_of_rows by done. cbn [mbind option_bind].
  pose proof (copy_rows_spec (length (rows_of l)) cols (rows_of l) [] Hs ltac:(cbn; lia) Hf) as E. cbn [length Nat.add app] in E.
  rewrite Nat.leb_refl in E. change (Z.of_nat 0) with 0 in E. by rewrite E.
Qed.
End fetching.

(** ** A cursor *)

Section cursors.
Context `{ProcLaws} `{!ShortRows} `{JsonPrinter}.
Implicit Types (c : cursor) (d : db) (w : proc_world) (l : list fetched_batch) (name t : list ascii) (h : handle).

(** A text with the name in its first tag. *)
Definition with_name name t : list ascii := str "<resultset param_name=" ++ dquote :: name ++ dquote :: str ">" ++ drop (length RESULTSET_TAG) t.

(** The text of rows: all of them, numbered from 1. *)
Definition rows_text (cols : nat) (rows : list resultset_row) : list ascii :=
  c_text (concat (document_pieces (filled (length rows) cols rows))).

Lemma drain_full_short fuel b d c : let '(l, _, _, _) := drain_full fuel b d c in Forall (fun r => Forall field_short (fields r)) (rows_of l).
Proof.
  revert d c. induction fuel as [|fuel IH]; intros d c; cbn [drain_full]; destruct (select_fetch_batch d c) as [d' [[c' f]|]] eqn:E; try apply List.Forall_nil;
    (destruct (Z.eqb_spec (rows_fetched f) 0) as [Hz|Hn]; [apply List.Forall_nil|]);
    destruct (fetched_rows_spec _ _ _ _ _ E Hn) as (rows & Hb & _); pose proof (fetch_short _ _ _ _ _ _ E Hb) as Hs; unfold resultset_short in Hs; cbn [records] in Hs;
    (destruct (Z.ltb_spec (rows_fetched f) b); [rewrite (rows_of_cons f [] rows) by done; by rewrite app_nil_r|]); [apply List.Forall_nil|].
  specialize (IH d' c'). destruct (drain_full fuel b d' c') as [[[l ok] d''] c'']. rewrite (rows_of_cons f l rows) by done. by apply Forall_app.
Qed.

Lemma inject_rows al name cols rows : inject_param_name_attribute al (rows_text cols rows) name =
  if al then Some (with_name name (rows_text cols rows)) else None.
Proof. done. Qed.

Lemma fetch_cursor_open_fails e i name h w d1 : select_open_from_cursor (p_db w) h = (d1, None) ->
  fetch_cursor e i name h w = Some (mk_proc_world d1 (p_log w ++ [POpen h false]), None).
Proof. intros E. unfold fetch_cursor, open_handle. by rewrite E. Qed.

(** An opened cursor is fetched to its end and closed; its text has all its
    rows. *)
Lemma fetch_cursor_spec e i name h w d1 c n b : (forall n, pe_realloc e i n = true) -> select_open_from_cursor (p_db w) h = (d1, Some (c, n, b)) ->
  let '(l, ok, d2, c2) := drain_full (rows_left d1 c) b d1 c in
  exists evs o, fetch_cursor e i name h w = Some (mk_proc_world (select_close d2 c2) (p_log w ++ evs), o) /\
    proc_trace false evs = Some false /\ omap given_back evs = [h] /\ (ok = false -> o = None) /\
    (ok = true -> (forall j, pe_rs e i j = true) -> pe_copy e i = true -> pe_attribute e i = true ->
     o = Some (with_name name (rows_text (columns c) (rows_of l)))).
Proof.
  intros Hre E. pose proof (handle_columns _ _ _ _ _ _ E) as ->. pose proof (handle_rows _ _ _ _ _ _ E) as Hmax.
  pose proof (collect_spec (rows_left d1 c) (pe_realloc e i) b Hre 0 0 c (mk_proc_world d1 (p_log w ++ [POpen h true])) (Nat.le_refl _)) as Hc. cbn [p_db p_log] in Hc.
  pose proof (drain_full_rows (rows_left d1 c) b d1 c) as Hr. pose proof (drain_full_short (rows_left d1 c) b d1 c) as Hs.
  unfold fetch_cursor, open_handle, log_proc. rewrite E. cbv beta iota zeta. cbn [p_db p_log is_some].
  destruct (drain_full (rows_left d1 c) b d1 c) as [[[l ok] d2] c2]. destruct Hc as (evs & -> & Ht & Hg). cbn [mbind option_bind].
  unfold close_one, log_proc. cbn [p_db p_log].
  assert (((p_log w ++ [POpen h true]) ++ evs) ++ [PClose] = p_log w ++ POpen h true :: evs ++ [PClose]) as -> by (by rewrite <- !app_assoc).
  assert (proc_trace false (POpen h true :: evs ++ [PClose]) = Some false) as Ht2 by (cbn [proc_trace]; by rewrite proc_trace_app, Ht).
  assert (omap given_back (POpen h true :: evs ++ [PClose]) = [h]) as Hg2 by (cbn [omap list_omap given_back]; rewrite omap_app, Hg; done).
  destruct ok; [|by exists (POpen h true :: evs ++ [PClose]), None].
  destruct Hr as ((rr & Hm & Hcat) & Hfit & Hin & Hleft). unfold batch_total. fold (fetched_in l). rewrite Hin.
  destruct (Z.ltb_spec (Z.of_nat (length (rows_of l))) (2 ^ 31)); [|lia]. cbn [mbind option_bind].
  destruct (resultset_create (pe_rs e i) _ _) as [rs|] eqn:Er.
  - apply created in Er as [_ ->]. rewrite Nat2Z.id, (combine_rows l rr) by (done || lia). cbn [mbind option_bind].
    rewrite resultset_text by (by apply filled_short). fold (rows_text (columns c) (rows_of l)). cbn [mbind option_bind].
    exists (POpen h true :: evs ++ [PClose]). eexists. split; [reflexivity|]. split_and!; try done.
    intros _ _ -> ->. cbn [mbind option_bind]. by rewrite inject_rows.
  - exists (POpen h true :: evs ++ [PClose]), None. split_and!; try done. intros _ Hal.
    destruct (create_total (pe_rs e i) (Z.of_nat (length (rows_of l))) (columns c) ltac:(lia) Hal) as [rs Er']. congruence.
Qed.

(** *** All of them *)

Inductive set_content := NeverOpened | NoHandle | Rows (cols : nat) (rows : list resultset_row).

(** The cursors of a call in order, each read to its end; [None]: one of them
    cannot be opened or read. *)
Fixpoint result_sets (params : list (proc_param handle)) d : option (list (list ascii * set_content)) :=
  match params with
  | [] => Some []
  | p :: params =>
      if negb (is_cursor p) || negb (comes_back p) then result_sets params d
      else
        match is_null p, cursor_handle p with
        | true, _ => option_map (cons (param_name p, NeverOpened)) (result_sets params d)
        | false, None => option_map (cons (param_name p, NoHandle)) (result_sets params d)
        | false, Some h =>
            match select_open_from_cursor d h with
            | (_, None) => None
            | (d, Some (c, _, b)) =>
                let '(l, ok, d, c') := drain_full (rows_left d c) b d c in
                if ok then option_map (cons (param_name p, Rows (columns c) (rows_of l))) (result_sets params (select_close d c')) else None
            end
        end
  end.

Definition set_text name (s : set_content) : option (list ascii) :=
  match s with
  | NeverOpened => Some (empty_fragment name)
  | NoHandle => None
  | Rows cols rows => Some (with_name name (rows_text cols rows))
  end.
Definition rendered (s : list ascii * set_content) : procedure_resultset := mk_proc_resultset (cut 128 (fst s)) (set_text (fst s) (snd s)).

Definition texts_allocated (e : proc_env) : Prop :=
  (forall i j, pe_rs e i j = true) /\ (forall i, pe_copy e i = true) /\ (forall i, pe_attribute e i = true) /\ (forall i, pe_empty e i = true).

Definition null_ok (p : proc_param handle) : Prop := is_null p = true -> cursor_handle p = None.

Lemma opt_cons_omap {A B} (f : A -> option B) (a : A) (k : list A) : omap f (a :: k) = opt_cons (f a) (omap f k).
Proof. cbn. by destruct (f a). Qed.

(** The arrays of the batches are always allocated. *)
Definition batches_kept (e : proc_env) : Prop := forall i n, pe_realloc e i n = true.

Lemma fetch_cursors_spec e params : batches_kept e -> forall i w,
  exists w' held r evs, fetch_cursors e i params w = Some (w', held, r) /\ p_log w' = p_log w ++ evs /\ proc_trace false evs = Some false /\
    (Forall null_ok params -> omap given_back evs ++ held ≡ₚ omap cursor_handle params) /\
    (texts_allocated e -> r = map rendered <$> result_sets params (p_db w)).
Proof.
  intros Hre. induction params as [|p params IH]; intros i w; cbn [fetch_cursors result_sets].
  { exists w, [], (Some []), []. rewrite app_nil_r. by split_and!. }
  rewrite opt_cons_omap. destruct (negb (is_cursor p) || negb (comes_back p)) eqn:Ep.
  { destruct (IH i w) as (w' & held & r & evs & -> & L & T & G & R). cbn [mbind option_bind]. exists w', (opt_cons (cursor_handle p) held), r, evs.
    split_and!; try done. intros [_ Hn]%Forall_cons_iff. specialize (G Hn). destruct (cursor_handle p) as [h|]; [|exact G]. cbn [opt_cons].
    by rewrite <- Permutation_middle, G. }
  apply orb_false_iff in Ep as [Hcur _].
  assert (forall f s0, (texts_allocated e -> rendered s0 = mk_proc_resultset (cut 128 (param_name p)) f) ->
    exists w' held r evs,
      ('(w, held, r) ← fetch_cursors e (S i) params w;
       Some (w, held, option_map (cons (mk_proc_resultset (cut 128 (param_name p)) f)) r)) = Some (w', held, r) /\ p_log w' = p_log w ++ evs /\
      proc_trace false evs = Some false /\ (Forall null_ok params -> omap given_back evs ++ held ≡ₚ omap cursor_handle params) /\
      (texts_allocated e -> r = map rendered <$> option_map (cons s0) (result_sets params (p_db w)))) as Hno.
  { intros f s0 Hf. destruct (IH (S i) w) as (w' & held & r & evs & -> & L & T & G & R). cbn [mbind option_bind].
    eexists w', held, _, evs. split; [reflexivity|]. split_and!; try done. intros Ha. rewrite (R Ha).
    destruct (result_sets params (p_db w)); [|done]. cbn [fmap option_fmap option_map map]. by rewrite (Hf Ha). }
  destruct (is_null p) eqn:Enull.
  { destruct (Hno (if pe_empty e i then Some (empty_fragment (param_name p)) else None) (param_name p, NeverOpened)) as (w' & held & r & evs & E & L & T & G & R).
    { intros (_ & _ & _ & ->). done. }
    exists w', held, r, evs. split_and!; try done. intros [H1' Hn]%Forall_cons_iff. rewrite (H1' Enull). by apply G. }
  destruct (cursor_handle p) as [h|] eqn:Eh.
  2:{ destruct (Hno None (param_name p, NoHandle)) as (w' & held & r & evs & E & L & T & G & R); [done|]. exists w', held, r, evs. split_and!; try done.
      intros [_ Hn]%Forall_cons_iff. by apply G. }
  destruct (select_open_from_cursor (p_db w) h) as [d1 [[[c n] b]|]] eqn:Eo.
  - pose proof (fetch_cursor_spec e i (param_name p) h w d1 c n b (Hre i) Eo) as Hf. destruct (drain_full _ _ _ _) as [[[l ok] d2] c2].
    destruct Hf as (evs & o & -> & T & G & Hfail & Hok). cbn [mbind option_bind]. destruct o as [t|].
    + destruct (IH (S i) (mk_proc_world (select_close d2 c2) (p_log w ++ evs))) as (w' & held & r & evs' & -> & L & T' & G' & R).
      cbn [mbind option_bind p_log p_db] in *. eexists w', held, _, (evs ++ evs'). split; [reflexivity|]. split; [by rewrite L, app_assoc|].
      split; [by rewrite proc_trace_app, T|]. split.
      * intros [_ Hn]%Forall_cons_iff. rewrite omap_app, G. cbn [opt_cons app]. by rewrite (G' Hn).
      * intros Ha. rewrite (R Ha). destruct ok; [|by specialize (Hfail eq_refl)]. destruct Ha as (A1 & A2 & A3 & A4).
        specialize (Hok eq_refl (A1 i) (A2 i) (A3 i)). injection Hok as ->. by destruct (result_sets params (select_close d2 c2)).
    + eexists _, (omap cursor_handle params), None, evs. split; [reflexivity|]. split; [done|]. split; [done|]. split.
      * intros _. rewrite G. done.
      * intros (A1 & A2 & A3 & A4). destruct ok; [|done]. by specialize (Hok eq_refl (A1 i) (A2 i) (A3 i)).
  - rewrite (fetch_cursor_open_fails _ _ _ _ _ _ Eo). cbn [mbind option_bind]. eexists _, _, None, [POpen h false]. split; [reflexivity|]. split_and!; done.
Qed.
End cursors.

(** ** The documents can be built *)

Section documents.
Implicit Types (resp : execute_procedure_response) (x : xml_builder) (t : list ascii).

(** The XML text of an answer, and the frame around it. *)
Definition response_pieces resp : list (list ascii) :=
  [element "procedure_name" (procedure_name resp) ++ nl; element "execution_time" (print_fixed6 (execution_time_seconds resp)) ++ nl] ++
  match out_parameters resp with
  | [] => []
  | ps => (str "<out_parameters>" ++ nl) :: map parameter_xml ps ++ [str "</out_parameters>" ++ nl]
  end.
Definition procedure_text resp : list ascii :=
  concat (response_pieces resp) ++ concat (map (fun r => default [] (resultset_xml_fragment r)) (resultsets resp)).

Definition frame_head : list ascii :=
  str "<?xml version=" ++ quoted "1.0" ++ str " encoding=" ++ quoted "UTF-8" ++ str "?>" ++ nl ++ str "<output_xml>" ++ nl ++
  str "<Procedure_Result>" ++ nl ++ str "<execution_envelope>" ++ nl.
Definition frame_tail : list ascii := str "</execution_envelope>" ++ nl ++ str "</Procedure_Result>" ++ nl ++ str "</output_xml>" ++ nl.

(** Texts that fit the members of the response. *)
Definition response_fits resp : Prop :=
  (length (procedure_name resp) < 128)%nat /\
  Forall (fun p => (length (pp_name p) < 128)%nat /\ (length (pp_type p) < 32)%nat /\ (length (pp_value p) < Z.to_nat 4096)%nat) (out_parameters resp).

Lemma response_pieces_short resp : response_fits resp -> Forall (fun t => (length t < XML_TEMP)%nat) (response_pieces resp).
Proof.
  intros [Hn Hp]. unfold response_pieces. apply Forall_app. split.
  - apply List.Forall_cons; [apply (line_short "procedure_name"); cbn [String.length]; unfold XML_TEMP; lia|].
    apply List.Forall_cons; [apply (time_line "execution_time"); vm_compute; lia|apply List.Forall_nil].
  - destruct (out_parameters resp) as [|p ps]; [apply List.Forall_nil|].
    apply List.Forall_cons; [apply Nat.ltb_lt; vm_compute; reflexivity|]. apply Forall_app. split.
    + apply Forall_map. eapply List.Forall_impl; [|exact Hp]. intros q (H1 & H2 & H3). unfold parameter_xml. rewrite !length_app, !element_length.
      cbn [String.length str String.list_ascii_of_string length nl]. unfold XML_TEMP. lia.
    + apply List.Forall_cons; [apply Nat.ltb_lt; vm_compute; reflexivity|apply List.Forall_nil].
Qed.

Lemma each_raw_ok l x : xml_ok x ->
  exists x', each (fun r => xml_append_raw (resultset_xml_fragment r)) l x = Some x' /\ xml_ok x' /\
    buffer x' = buffer x ++ concat (map (fun r => default [] (resultset_xml_fragment r)) l).
Proof.
  revert x. induction l as [|r l IH]; intros x Hx; cbn [each map concat]; [exists x; by rewrite app_nil_r|].
  destruct (resultset_xml_fragment r) as [t|]; cbn [default].
  - destruct (append_raw_ok x t Hx) as (x1 & -> & E1 & H1). cbn [mbind option_bind]. destruct (IH x1 H1) as (x2 & -> & H2 & E2).
    exists x2. split; [done|]. split; [done|]. by rewrite E2, E1, app_assoc.
  - cbn [xml_append_raw mbind option_bind]. destruct (IH x Hx) as (x2 & -> & H2 & E2). by exists x2.
Qed.

Lemma procedure_xml_text al resp : response_fits resp ->
  response_write_procedure_xml al resp = Some (if al then Some (procedure_text resp) else None).
Proof.
  intros Hf. unfold response_write_procedure_xml. fold (response_pieces resp).
  destruct (append_all_ok (response_pieces resp) (xml_create 4096)) as (x1 & -> & E1 & H1); [reflexivity|by apply response_pieces_short|].
  cbn [mbind option_bind]. destruct (each_raw_ok (resultsets resp) x1 H1) as (x2 & -> & _ & E2). cbn [mbind option_bind]. by rewrite E2, E1.
Qed.

Lemma procedure_document_text t : procedure_document t = Some (frame_head ++ t ++ frame_tail).
Proof.
  unfold procedure_document, xml_start_document, xml_start_execution, xml_end_execution, xml_finalize.
  assert (xml_ok (xml_create 16384)) as Hx by reflexivity. assert (buffer (xml_create 16384) = []) as Hb by reflexivity.
  repeat match goal with
         | H : xml_ok ?x |- context [xml_append ?s ?x] =>
             let y := fresh "y" in let E := fresh "E" in
             destruct (xml_append_ok x s H) as (y & -> & E & ?); [apply Nat.ltb_lt; vm_compute; reflexivity|]; clear H; cbn [mbind option_bind]
         | H : xml_ok ?x |- context [xml_append_raw (Some ?s) ?x] =>
             let y := fresh "y" in let E := fresh "E" in destruct (append_raw_ok x s H) as (y & -> & E & ?); clear H; cbn [mbind option_bind]
         end.
  f_equal. repeat match goal with E : buffer _ = _ |- _ => rewrite E; clear E end.
  unfold frame_head, frame_tail. by rewrite !app_nil_l, <- !app_assoc.
Qed.
End documents.

(** ** What a call promises *)

Section promises.
Context `{ProcLaws} `{!ShortRows} `{JsonPrinter}.
Implicit Types (w : proc_world) (e : proc_env) (cfg : execute_config).

Lemma cut_shorter n (s : list ascii) : (0 < n)%nat -> (length (cut n s) < n)%nat.
Proof. intros Hn. unfold cut. rewrite length_take. lia. Qed.

Lemma response_fits_built name (params : list (proc_param handle)) sets x :
  response_fits (mk_proc_response (cut 128 name) (out_parameters_of params) sets x).
Proof.
  split; cbn [procedure_name out_parameters]; [apply cut_shorter; lia|]. unfold out_parameters_of. apply Forall_map, List.Forall_forall.
  intros p _. unfold out_parameter. cbn [pp_name pp_type pp_value]. split_and!; [apply cut_shorter; lia..|].
  destruct (is_null p); [cbn; lia|]. destruct (is_integer p); [pose proof (print_int_short (out_number p)); lia|apply cut_shorter; lia].
Qed.




(** The answer from the values on. *)
Lemma collect_results_spec e cfg name params w : pe_config e = true -> batches_kept e ->
  exists w' held ans evs, collect_results e cfg name params w = Some (w', held, ans) /\ (batch_rc ans = 0 \/ ans = failed_answer) /\
    p_log w' = p_log w ++ evs /\ proc_trace false evs = Some false /\
    (Forall null_ok params -> omap given_back evs ++ held ≡ₚ omap cursor_handle params) /\
    ((forall i, pe_calloc e i = true) -> texts_allocated e -> pe_fragment e = true -> pe_out e = true ->
     ans = match result_sets params (p_db w) with
           | None => failed_answer
           | Some sets =>
               let resp := mk_proc_response (cut 128 name) (out_parameters_of params) (map rendered sets) (pe_elapsed e) in
               mk_batch_answer 0 (Some (frame_head ++ procedure_text resp ++ frame_tail))
                 (if wants_json cfg then response_write_procedure_json (pe_json e) resp else None)
           end).
Proof.
  intros Hcfg Hre. unfold collect_results. destruct (array_of _ _ && array_of _ _) eqn:Ea.
  2:{ exists w, (omap cursor_handle params), failed_answer, []. rewrite app_nil_r. split_and!; try done; [by right|].
      intros Hal. exfalso. rewrite !Hal in Ea. by destruct (out_parameters_of params), (cursors_out params). }
  destruct (fetch_cursors_spec e params Hre 0 w) as (w' & held & r & evs & -> & L & T & G & R). cbn [mbind option_bind].
  destruct r as [sets|].
  - unfold answer_documents. rewrite procedure_xml_text by apply response_fits_built. cbn [mbind option_bind].
    destruct (pe_fragment e) eqn:Ef.
    + rewrite procedure_document_text, Hcfg. cbn [mbind option_bind]. eexists w', held, _, evs. split; [reflexivity|]. split; [by left|]. split_and!; try done.
      intros _ Ha _ ->. specialize (R Ha). destruct (result_sets params (p_db w)) as [l|]; [|done]. cbn [fmap option_fmap option_map] in R. by injection R as ->.
    + cbn [mbind option_bind]. exists w', held, failed_answer, evs. split_and!; try done. by right.
  - exists w', held, failed_answer, evs. split_and!; try done; [by right|]. intros _ Ha _ _. specialize (R Ha). by destruct (result_sets params (p_db w)).
Qed.



End promises.

(** ** What an answer has to say

    Said anew, of the parameters of the request and what the driver wrote for
    each of them. *)

(** A text with [']s for the quotes. *)
Definition tick (t : string) : list ascii := map (fun c => if Ascii.eqb c "'" then dquote else c) (str t).

Definition of_type (t : string) (p : procedure_param) : bool := ci_eqb (pp_type p) (str t).
Definition of_number (p : procedure_param) : bool := of_type "INTEGER" p || of_type "NUMBER" p.

(** What is called, and what is handed in for a parameter. *)
Definition called_name (req : execute_procedure_request) : list ascii :=
  match proc_owner req with
  | [] => proc_name req
  | _ => if bool_decide ("."%char ∈ proc_name req) then proc_name req else proc_owner req ++ "."%char :: proc_name req
  end.
Definition handed (p : procedure_param) : db_proc_param :=
  mk_db_proc_param (pp_name p)
    (if of_type "CURSOR" p then DB_PROC_TYPE_CURSOR else if of_number p then DB_PROC_TYPE_INT else DB_PROC_TYPE_STR)
    (direction p) (if bool_decide (pp_value p = []) then None else Some (pp_value p)).

(** A value that comes back: the name and the type of its parameter, and its
    text. *)
Abbreviation reported_value := (list ascii * list ascii * list ascii)%type.

Section expected.
Context `{ProcDriver}.
Abbreviation answered := (list (procedure_param * proc_out handle)).

Fixpoint values_back (l : answered) : list reported_value :=
  match l with
  | [] => []
  | (p, o) :: l =>
      match direction p, of_type "CURSOR" p with
      | PARAM_DIR_OUT, false | PARAM_DIR_IN_OUT, false =>
          (pp_name p, map toupper (pp_type p), if out_is_null o then [] else if of_number p then print_int (out_int o) else out_value o) :: values_back l
      | _, _ => values_back l
      end
  end.

(** The result sets: each cursor opened, read and closed in turn; [None]: one
    of them cannot be opened or read. *)
Fixpoint sets_back (l : answered) (d : db) : option (list (list ascii * set_content)) :=
  match l with
  | [] => Some []
  | (p, o) :: l =>
      match direction p, of_type "CURSOR" p with
      | PARAM_DIR_OUT, true | PARAM_DIR_IN_OUT, true =>
          if out_is_null o then option_map (cons (pp_name p, NeverOpened)) (sets_back l d)
          else
            match out_cursor_handle o with
            | None => option_map (cons (pp_name p, NoHandle)) (sets_back l d)
            | Some h =>
                match select_open_from_cursor d h with
                | (_, None) => None
                | (d, Some (c, n, b)) =>
                    match drain_full (rows_left d c) b d c with
                    | (l', true, d, c) => option_map (cons (pp_name p, Rows (Z.to_nat n) (rows_of l'))) (sets_back l (select_close d c))
                    | _ => None
                    end
                end
            end
      | _, _ => sets_back l d
      end
  end.
End expected.

Definition set_xml (s : list ascii * set_content) : list ascii :=
  match snd s with
  | NeverOpened => take 127 (tick "<resultset param_name='" ++ fst s ++ tick "'/>" ++ nl)
  | NoHandle => []
  | Rows cols rows => tick "<resultset param_name='" ++ fst s ++ tick "'>" ++ drop 11 (rows_text cols rows)
  end.
Definition value_xml (v : reported_value) : list ascii :=
  let '(name, type, value) := v in
  str "  <parameter><param_name>" ++ name ++ str "</param_name><param_type>" ++ type ++ str "</param_type><param_value>" ++ value ++
  str "</param_value></parameter>" ++ nl.

Definition procedure_xml (name : list ascii) (seconds : double) (values : list reported_value) (sets : list (list ascii * set_content)) : list ascii :=
  tick "<?xml version='1.0' encoding='UTF-8'?>" ++ nl ++ str "<output_xml>" ++ nl ++ str "<Procedure_Result>" ++ nl ++ str "<execution_envelope>" ++ nl ++
  str "<procedure_name>" ++ name ++ str "</procedure_name>" ++ nl ++ str "<execution_time>" ++ print_fixed6 seconds ++ str "</execution_time>" ++ nl ++
  match values with
  | [] => []
  | _ => str "<out_parameters>" ++ nl ++ concat (map value_xml values) ++ str "</out_parameters>" ++ nl
  end ++ concat (map set_xml sets) ++
  str "</execution_envelope>" ++ nl ++ str "</Procedure_Result>" ++ nl ++ str "</output_xml>" ++ nl.

Definition procedure_json `{JsonPrinter} (name : list ascii) (seconds : double) (values : list reported_value) (sets : list (list ascii * set_content)) : json :=
  json_obj
    [("procedure_name"%string, json_str name); ("execution_time"%string, json_double seconds);
     ("out_parameters"%string,
        json_arr (map (fun '(n, t, v) => json_obj [("param_name"%string, json_str n); ("param_type"%string, json_str t); ("param_value"%string, json_str v)]) values));
     ("resultsets"%string, json_arr (map (fun s => json_obj [("param_name"%string, json_str (fst s)); ("resultset_xml"%string, json_str (set_xml s))]) sets))].

(** Every allocation of a call succeeds. *)
Definition all_allocated (e : proc_env) : Prop :=
  (forall i, pe_calloc e i = true) /\ texts_allocated e /\ batches_kept e /\ pe_fragment e = true /\ pe_config e = true /\ pe_out e = true /\ pe_json e = true.

(** *** The code says that *)

Section reports.
Context `{ProcLaws} `{!ShortRows} `{JsonPrinter}.
Implicit Types (p : procedure_param) (o : proc_out handle) (ps : list procedure_param) (outs : list (proc_out handle)).

Lemma toupper_tolower (ch : ascii) : toupper (tolower ch) = toupper ch.
Proof. all_ascii ch. Qed.

Lemma upper_eq_ci t u : str_eqb (map toupper t) (map toupper u) = ci_eqb t u.
Proof.
  unfold ci_eqb, str_eqb. apply bool_decide_ext. split; intros E.
  - apply (f_equal (map tolower)) in E. rewrite !map_map in E.
    by rewrite !(map_ext (fun c => tolower (toupper c)) tolower) in E by apply tolower_toupper.
  - apply (f_equal (map toupper)) in E. rewrite !map_map in E.
    by rewrite !(map_ext (fun c => toupper (tolower c)) toupper) in E by apply toupper_tolower.
Qed.

(** A parameter as Level 1 hands it on loses nothing. *)
Lemma set_param p : param_fits p ->
  set_proc_param p = mk_param (pp_name p) (map toupper (pp_type p)) (direction p) (pp_value p) [] 0 false None (of_type "CURSOR" p) (of_number p).
Proof.
  intros (Hn & Ht & Hv). unfold fits, NAME_SIZE, PARAM_TYPE_SIZE, VALUE_SIZE in *. unfold set_proc_param.
  rewrite !cut_id by (unfold shorter, PROC_TYPE_SIZE, PROC_NAME_SIZE, MAX_PARAM_VALUE_SIZE; lia).
  unfold of_number, of_type. by rewrite <- !(upper_eq_ci (pp_type p)).
Qed.

Lemma set_params ps : Forall param_fits ps ->
  map param_name (map set_proc_param ps) = map pp_name ps /\ map driver_param (map set_proc_param ps) = map handed ps.
Proof.
  induction 1 as [|p ps Hp _ [I1 I2]]; [done|]. cbn [map]. rewrite I1, I2, (set_param p Hp). split; [done|]. f_equal.
  unfold driver_param, handed. cbn [param_name is_cursor is_integer param_direction_of param_value]. by destruct (pp_value p).
Qed.

Lemma accepted_procedure req : status_code (level2_validate_procedure (Some req)) = 0 ->
  proc_name req <> [] /\ (length (proc_params req) <= MAX_PROC_PARAMS)%nat.
Proof.
  unfold level2_validate_procedure. destruct (Nat.eqb (length (proc_name req)) 0) eqn:E; [done|].
  destruct (Nat.ltb_spec MAX_PROC_PARAMS (length (proc_params req))); [done|]. intros _. split; [intros E2; by rewrite E2 in E|lia].
Qed.

Lemma called req : proc_name req <> [] -> (length (proc_params req) <= MAX_PROC_PARAMS)%nat -> payload_fits (ExecuteProcedure (Some req)) ->
  build_proc_ctx_from_request req = Some (called_name req, map set_proc_param (proc_params req)).
Proof.
  intros Hne Hcount (Hn & Ho & _). unfold build_proc_ctx_from_request, called_name. destruct (proc_name req) as [|ch name] eqn:En; [done|].
  unfold fits, NAME_SIZE in *. rewrite !cut_id by (unfold shorter, MAX_PROC_NAME_LEN; lia).
  destruct (Nat.ltb_spec MAX_PROC_PARAMS (length (proc_params req))); [lia|]. do 2 f_equal.
  destruct (proc_owner req) as [|o owner]; [done|]. destruct (existsb _ _) eqn:Ex; case_bool_decide as Hin; try done.
  - exfalso. apply Hin. apply existsb_exists in Ex as (x & Hx & Hd). apply Ascii.eqb_eq in Hd as ->. by apply list_elem_of_In.
  - exfalso. apply list_elem_of_In in Hin. assert (existsb (fun c => Ascii.eqb c ".") (ch :: name) = true) as E; [|congruence].
    apply existsb_exists. by exists "."%char.
  - apply cut_id. unfold shorter. rewrite !length_app. cbn [length str String.list_ascii_of_string] in *. unfold MAX_PROC_NAME_LEN. lia.
Qed.

(** The parameters after the call. *)
Definition after_call (l : list (procedure_param * proc_out handle)) : list (proc_param handle) :=
  map (fun x => copy_back (snd x) (set_proc_param (fst x))) l.

Lemma copied_back ps outs : length outs = length ps ->
  imap (fun i (q : proc_param handle) => copy_back (default blank_out (outs !! i)) q) (map set_proc_param ps) = after_call (zip ps outs).
Proof.
  revert outs. induction ps as [|p ps IH]; intros [|o outs] Hl; cbn in Hl; try lia; [done|]. cbn [map]. rewrite imap_cons. unfold after_call in *. cbn [zip_with map fst snd].
  f_equal. rewrite <- (IH outs) by lia. done.
Qed.

Lemma copied p o : param_fits p ->
  copy_back o (set_proc_param p) =
    mk_param (pp_name p) (map toupper (pp_type p)) (direction p) (pp_value p) (out_value o) (if of_number p then out_int o else 0) (out_is_null o)
      (if of_type "CURSOR" p then out_cursor_handle o else None) (of_type "CURSOR" p) (of_number p).
Proof. intros Hp. by rewrite (set_param p Hp). Qed.

Lemma comes_back_spec (q : proc_param handle) : comes_back q = match param_direction_of q with PARAM_DIR_IN => false | _ => true end.
Proof. unfold comes_back. by destruct (param_direction_of q). Qed.

(** The scalar values. *)
Lemma values_reported l : Forall (fun x => param_fits (fst x)) l -> Forall (fun v => (length (snd v) < Z.to_nat 4096)%nat) (values_back l) ->
  map (fun q => (pp_name q, pp_type q, pp_value q)) (out_parameters_of (after_call l)) = values_back l.
Proof.
  induction 1 as [|[p o] l Hp _ IH]; [done|]. unfold after_call. cbn [map fst snd]. rewrite (copied p o Hp). fold (after_call l). cbn [fst] in Hp.
  destruct Hp as (Hn & Ht & _). unfold fits, NAME_SIZE, PARAM_TYPE_SIZE in *. unfold out_parameters_of in *. rewrite filter_cons. cbn [values_back].
  rewrite comes_back_spec. cbn [is_cursor param_direction_of].
  destruct (direction p), (of_type "CURSOR" p); cbn [negb andb]; try exact IH; intros [Hv Hs]%Forall_cons_iff;
    (destruct (decide _) as [_|Hno]; [|by destruct Hno]); cbn [map]; (rewrite IH by done); f_equal;
    unfold out_parameter; cbn [param_name param_type is_null is_integer out_number out_text pp_name pp_type pp_value snd] in *;
    (rewrite !(cut_id 128), !(cut_id 32) by (unfold shorter; rewrite ?length_map; lia)); f_equal;
    (destruct (out_is_null o); [done|]); (destruct (of_number p); [done|]); (apply cut_id; unfold shorter; lia).
Qed.

(** The result sets. *)
Lemma sets_reported l : Forall (fun x => param_fits (fst x)) l -> forall d, result_sets (after_call l) d = sets_back l d.
Proof.
  induction 1 as [|[p o] l Hp _ IH]; intros d; [done|]. unfold after_call. cbn [map fst snd]. rewrite (copied p o Hp). fold (after_call l).
  cbn [result_sets sets_back]. rewrite comes_back_spec. cbn [is_cursor param_direction_of param_name is_null cursor_handle].
  destruct (direction p), (of_type "CURSOR" p); cbn [negb orb]; try (by apply IH);
    (destruct (out_is_null o); [by rewrite IH|]); (destruct (out_cursor_handle o) as [h|]; [|by rewrite IH]);
    (destruct (select_open_from_cursor d h) as [d1 [[[c n] b]|]] eqn:Eo; [|done]); rewrite (handle_columns _ _ _ _ _ _ Eo), Nat2Z.id;
    destruct (drain_full _ _ _ _) as [[[l' ok] d2] c2]; (destruct ok; [|done]); by rewrite IH.
Qed.

(** The documents of these values and result sets. *)
Lemma named_sets l d sets : Forall (fun x => param_fits (fst x)) l -> sets_back l d = Some sets -> Forall (fun s => (length (fst s) < 128)%nat) sets.
Proof.
  intros Hl. revert d sets. induction Hl as [|[p o] l Hp _ IH]; intros d sets; cbn [sets_back]; [intros [= <-]; apply List.Forall_nil|].
  destruct Hp as (Hn & _). cbn [fst] in Hn. unfold fits, NAME_SIZE in Hn.
  assert (forall x d', option_map (cons (pp_name p, x)) (sets_back l d') = Some sets -> Forall (fun s => (length (fst s) < 128)%nat) sets) as Hcons.
  { intros x d'. destruct (sets_back l d') as [l'|] eqn:E; [|done]. intros [= <-]. apply List.Forall_cons; [exact Hn|by eapply IH]. }
  destruct (direction p), (of_type "CURSOR" p); try (by apply IH); (destruct (out_is_null o); [by apply Hcons|]);
    (destruct (out_cursor_handle o) as [h|]; [|by apply Hcons]); (destruct (select_open_from_cursor d h) as [d1 [[[c n] b]|]]; [|done]);
    destruct (drain_full _ _ _ _) as [[[l' ok] d2] c2]; (destruct ok; [by apply Hcons|done]).
Qed.

Lemma set_rendered s : (length (fst s) < 128)%nat ->
  pr_param_name (rendered s) = fst s /\ default [] (resultset_xml_fragment (rendered s)) = set_xml s.
Proof. intros Hs. split; [by apply cut_id|]. destruct s as [name [| |cols rows]]; done. Qed.

Lemma xml_reported name (values : list procedure_param) sets x : Forall (fun s => (length (fst s) < 128)%nat) sets ->
  frame_head ++ procedure_text (mk_proc_response name values (map rendered sets) x) ++ frame_tail =
  procedure_xml name x (map (fun q => (pp_name q, pp_type q, pp_value q)) values) sets.
Proof.
  intros Hs. unfold procedure_text, procedure_xml, frame_head, frame_tail, response_pieces.
  cbn [procedure_name out_parameters resultsets execution_time_seconds]. rewrite map_map.
  assert (map (fun s => default [] (resultset_xml_fragment (rendered s))) sets = map set_xml sets) as ->
    by (apply map_ext_Forall; eapply List.Forall_impl; [|exact Hs]; intros s Hl; by apply set_rendered).
  assert (forall l : list procedure_param, concat (map parameter_xml l) = concat (map value_xml (map (fun q => (pp_name q, pp_type q, pp_value q)) l))) as Ev.
  { intros l. rewrite map_map. f_equal. apply map_ext. intros q. unfold parameter_xml, element, value_xml. by rewrite <- !app_assoc. }
  rewrite !concat_app. cbn [concat]. unfold element. rewrite app_nil_r.
  destruct values as [|v values]; [by rewrite <- !app_assoc|]. rewrite <- Ev. cbn [map concat]. rewrite !concat_app. cbn [concat]. rewrite app_nil_r.
  by rewrite <- !app_assoc.
Qed.

Lemma json_reported name (values : list procedure_param) sets x : Forall (fun s => (length (fst s) < 128)%nat) sets ->
  response_write_procedure_json true (mk_proc_response name values (map rendered sets) x) =
  cJSON_PrintUnformatted (procedure_json name x (map (fun q => (pp_name q, pp_type q, pp_value q)) values) sets).
Proof.
  intros Hs. unfold response_write_procedure_json, procedure_json. cbn [procedure_name out_parameters resultsets execution_time_seconds].
  rewrite !map_map. do 3 f_equal. do 3 (f_equal; []). f_equal. f_equal. apply map_ext_Forall. eapply List.Forall_impl; [|exact Hs].
  intros s Hl. by destruct (set_rendered s Hl) as [-> ->].
Qed.

(** C38: what a procedure answers.  A request that fits its arrays, as Level 1
    hands it on, and that Level 2 accepts; a call statement that fits; a driver
    that keeps its contract, runs the call and gives no value so long that it
    overruns the array of the XML writer; no scalar value of 4096 characters or
    more, which would be cut; and every allocation succeeds.  Then the driver
    is asked to run the statement with each parameter under its name, its
    direction, its kind - cursor, number or text - and its value, if it has
    one; and the answer says, of each OUT or IN OUT parameter that is no
    cursor, in the order of the request, its name, its type in capitals and
    its value: empty for NULL, the digits of the number for INTEGER and NUMBER,
    else the text that was written; then of each cursor that came back, in that
    order too, all its rows up to an empty batch or one that is not full,
    numbered from 1, or an empty element if the procedure never opened it.
    The XML document is that, between its frame, with at most 127 characters of
    the name of the procedure; the JSON text, when it was asked for, is the
    print of the same tree.  When a cursor cannot be opened or read the request
    fails. *)
Theorem procedure_reports e cfg req w block d1 outs :
  status_code (level2_validate_procedure (Some req)) = 0 -> payload_fits (ExecuteProcedure (Some req)) ->
  procedure_call_sql (called_name req) (map pp_name (proc_params req)) (Z.to_nat 8192) = Some block ->
  dml_execute_procedure (p_db w) block (map handed (proc_params req)) = (d1, Some outs) -> all_allocated e ->
  let answers := zip (proc_params req) outs in
  Forall (fun v => (length (snd v) < Z.to_nat 4096)%nat) (values_back answers) ->
  exists w', execute_procedure e cfg req w = Some (w',
    match sets_back answers d1 with
    | None => failed_answer
    | Some sets =>
        let name := take 127 (called_name req) in
        mk_batch_answer 0 (Some (procedure_xml name (pe_elapsed e) (values_back answers) sets))
          (if wants_json cfg then cJSON_PrintUnformatted (procedure_json name (pe_elapsed e) (values_back answers) sets) else None)
    end).
Proof.
  intros Hv Hfit Hsql Hrun (Hal & Ht & Hre & Hf & Hcfg & Ho & Hj) answers Hshort. unfold execute_procedure.
  destruct (accepted_procedure req Hv) as [Hne Hcount]. pose proof Hfit as (_ & _ & Hps). destruct (set_params _ Hps) as [Hnames Hdrv].
  rewrite Hv, Hal, (called req Hne Hcount Hfit). cbn [Z.eqb negb]. unfold build_plsql_block, MAX_PLSQL_BLOCK_LEN. rewrite Hnames, Hsql, Hal.
  assert (array_of true (map set_proc_param (proc_params req)) = true) as -> by (by destruct (proc_params req)).
  unfold run_call. rewrite Hdrv, Hrun. cbn [fmap option_fmap option_map].
  pose proof (outs_given _ _ _ _ _ Hrun) as Hlen. rewrite length_map in Hlen. rewrite (copied_back _ _ Hlen). fold answers.
  assert (Forall (fun x => param_fits (fst x)) answers) as Hfits.
  { apply Forall_lookup. intros i x Hx. unfold answers in Hx. apply lookup_zip_with_Some in Hx as (q & o & -> & Hq & _). rewrite Forall_lookup in Hps. exact (Hps _ _ Hq). }
  destruct (collect_results_spec e cfg (called_name req) (after_call answers) (mk_proc_world d1 (p_log w ++ [PCall (is_some (Some outs))])) Hcfg Hre)
    as (w2 & held & ans & evs & -> & _ & _ & _ & _ & R). cbn [mbind option_bind].
  eexists. rewrite (R Hal Ht Hf Ho). cbn [p_db]. rewrite (sets_reported answers Hfits). destruct (sets_back answers d1) as [sets|] eqn:Es; [|done].
  pose proof (named_sets _ _ _ Hfits Es) as Hnamed. cbv zeta. rewrite Hj, (xml_reported _ _ _ _ Hnamed), (json_reported _ _ _ _ Hnamed).
  by rewrite (values_reported answers Hfits Hshort).
Qed.

End reports.

(** ** Examples *)

(** A driver over the table of QueryBatch.v: a cursor but the one named P_NONE
    comes back open. *)
Definition demo_out (p : db_proc_param) : proc_out nat :=
  match dp_type p with
  | DB_PROC_TYPE_STR => mk_proc_out (str "a < b") 0 false None
  | DB_PROC_TYPE_INT => mk_proc_out [] 42 false None
  | DB_PROC_TYPE_CURSOR => if str_eqb (dp_name p) (str "P_NONE") then mk_proc_out [] 0 true None else mk_proc_out [] 0 false (Some 7%nat)
  end.
Definition demo_proc_driver : ProcDriver := {|
  proc_select := counts "3";
  handle := nat;
  dml_execute_procedure _ _ ps := (tt, Some (map demo_out ps));
  select_open_from_cursor _ _ := (tt, Some ((false, O), 2, 2));
  cursor_handle_free _ _ := tt |}.

Lemma demo_proc_laws : @ProcLaws demo_proc_driver.
Proof.
  refine (@Build_ProcLaws demo_proc_driver counts_laws _ _ _ _).
  - intros d block ps d' outs. cbn. intros [= _ <-]. apply length_map.
  - intros d block ps d' outs. cbn. intros [= _ <-]. apply Forall_map, List.Forall_forall. intros p _. unfold demo_out.
    destruct (dp_type p); [done|done|]. by destruct (str_eqb _ _).
  - intros d h d' c n b. cbn. intros [= _ <- <- _]. reflexivity.
  - intros d h d' c n b. cbn. intros [= _ <- _ _]. reflexivity.
Defined.

Definition a_procedure_param (name type : string) (d : param_direction) (v : string) : procedure_param := mk_proc_param (str name) (str type) d (str v).
Definition demo_procedure : execute_procedure_request :=
  mk_procedure (str "REPORT") (str "HR")
    [a_procedure_param "P_ID" "number" PARAM_DIR_IN "7"; a_procedure_param "P_N" "INTEGER" PARAM_DIR_OUT "";
     a_procedure_param "P_TEXT" "VARCHAR2" PARAM_DIR_IN_OUT "x"; a_procedure_param "P_ROWS" "CURSOR" PARAM_DIR_OUT "";
     a_procedure_param "P_NONE" "CURSOR" PARAM_DIR_OUT ""].
Definition proc_env_ok : proc_env :=
  mk_proc_env (fun _ => true) (fun _ _ => true) (fun _ _ => true) (fun _ => true) (fun _ => true) (fun _ => true) true true true true (dbl_of 1).
Definition proc_start : @proc_world demo_proc_driver := @mk_proc_world demo_proc_driver tt [].
Definition demo_execute (e : proc_env) : option (@proc_world demo_proc_driver * batch_answer) :=
  @execute_procedure demo_proc_driver (demo_printer None) e (a_select people "XML" None) demo_procedure proc_start.


Definition demo_block : list ascii := str "BEGIN HR.REPORT(:P_ID, :P_N, :P_TEXT, :P_ROWS, :P_NONE); END;".
Definition demo_outs : list (proc_out (@handle demo_proc_driver)) := map demo_out (map handed (proc_params demo_procedure)).

Lemma procedure_reports_witness : exists w ans, demo_execute proc_env_ok = Some (w, ans) /\ batch_rc ans = 0 /\
  @values_back demo_proc_driver (zip (proc_params demo_procedure) demo_outs) =
    [(str "P_N", str "INTEGER", str "42"); (str "P_TEXT", str "VARCHAR2", str "a < b")].
Proof.
  destruct (@procedure_reports demo_proc_driver demo_proc_laws counts_short (demo_printer None) proc_env_ok (a_select people "XML" None)
              demo_procedure proc_start demo_block tt demo_outs) as [w E].
  - vm_compute. reflexivity.
  - split; [apply Nat.ltb_lt; vm_compute; reflexivity|]. split; [apply Nat.ltb_lt; vm_compute; reflexivity|].
    repeat (apply List.Forall_cons; [split; [|split]; apply Nat.ltb_lt; vm_compute; reflexivity|]). apply List.Forall_nil.
  - vm_compute. reflexivity.
  - reflexivity.
  - split; [reflexivity|]. split; [split; [|split; [|split]]; intros; reflexivity|]. split; [intros i n; reflexivity|].
    split; [reflexivity|]. split; [reflexivity|]. split; reflexivity.
  - change (@values_back demo_proc_driver (zip (proc_params demo_procedure) demo_outs))
      with [(str "P_N", str "INTEGER", str "42"); (str "P_TEXT", str "VARCHAR2", str "a < b")].
    repeat (apply List.Forall_cons; [apply Nat.ltb_lt; vm_compute; reflexivity|]). apply List.Forall_nil.
  - eexists w, _. split; [exact E|]. split; vm_compute; reflexivity.
Defined.

(** The calls of this run: one cursor, opened, read - its second batch is not
    full - and closed; nothing is left to free. *)
Example demo_calls : p_log <$> (fst <$> demo_execute proc_env_ok) = Some [PCall true; POpen (7%nat : @handle demo_proc_driver) true; PFetch; PFetch; PClose].
Proof. vm_compute. reflexivity. Qed.

(** Without memory for the result the open handle's cursor is closed, without
    memory for the list of result sets the handle is freed. *)
Example no_memory_for_sets :
  (fun p => (p_log (fst p), batch_rc (snd p))) <$>
    demo_execute (mk_proc_env (fun i => negb (Nat.eqb i 3)) (fun _ _ => true) (fun _ _ => true) (fun _ => true) (fun _ => true) (fun _ => true) true true true true (dbl_of 1)) =
  Some ([PCall true; PFree (7%nat : @handle demo_proc_driver)], -1).
Proof. vm_compute. reflexivity. Qed.

(** Without memory for the arrays of the batches the first batch is written
    through NULL. *)
Definition no_batches : proc_env :=
  mk_proc_env (fun _ => true) (fun _ _ => false) (fun _ _ => true) (fun _ => true) (fun _ => true) (fun _ => true) true true true true (dbl_of 1).
Example no_memory_for_batches : is_some (demo_execute no_batches) = false.
Proof. vm_compute. reflexivity. Qed.

(** What comes back goes into the XML document as it is. *)
Example out_values_not_escaped :
  (fun p => is_some (OUTPUT_XML (snd p) ≫= strstr (str "<param_value>a < b</param_value>"))) <$> demo_execute proc_env_ok = Some true.
Proof. vm_compute. reflexivity. Qed.

(** The name is not looked at before it becomes part of the statement: a
    request for a procedure can run statements of the client's own. *)
Example procedure_name_is_code :
  let req := mk_procedure (str "P; DELETE FROM ACCOUNT") [] [] in
  status_code (level2_validate_procedure (Some req)) = 0 /\
  (@build_proc_ctx_from_request demo_proc_driver req ≫= fun c => build_plsql_block (fst c) (snd c)) = Some (str "BEGIN P; DELETE FROM ACCOUNT; END;").
Proof. split; vm_compute; reflexivity. Qed.

(** A value of 4096 characters or more loses its end, the element of a cursor
    never opened loses its end when its name is long. *)
Example long_value_is_cut :
  let p := @mk_param nat (str "P_TEXT") (str "VARCHAR2") PARAM_DIR_OUT [] (replicate (Z.to_nat 5000) "x"%char) 0 false None false false in
  Z.of_nat (length (pp_value (@out_parameter demo_proc_driver p))) = 4095.
Proof. vm_compute. reflexivity. Qed.
Example long_name_ill_formed : list.last (empty_fragment (replicate 110 "N"%char)) = Some "N"%char.
Proof. vm_compute. reflexivity. Qed.
