(* ===== verification/Application.v ===== *)
(** * Application: the dispatcher on top of the modules that write

    [Executors] of Dispatcher.v with INSERT, UPDATE and DELETE as Writes.v has
    them; queries, procedures, logins and permissions stay what any other
    instance says.  The laws the dispatcher relies on hold of it.  Each module checks its
    request again before it writes (Insert_Execute_Module.c, Stage 1); what the
    database says of a table's columns then is an argument that may differ from
    call to call, and from what Level 2 was told.  Only the last theorem
    supposes that it does not: then what Level 2 (Level2Parser.v) lets pass the
    modules accept. *)

From Stdlib Require Import Ascii String ZArith Lia Bool.
From stdpp Require Import base list strings numbers.
From S2P Require Import Prelude Text TransactionManager DbEvents Response DdlExecute Requests.
From S2P Require Import Level2Parser Dialect DmlDriver InsertExecute UpdateExecute Writes Dispatcher QueryBatch.

#[local] Open Scope Z_scope.

Section application.
Context `{Dialect} `{DmlDriver} (rest : Executors) (rest_laws : @ExecutorLaws rest).
Context (now_y now_m : Z) (out_of_range : Z -> Z) (max_bulk_inserts : Z)
        (level2_columns columns_of : batch_call -> ddl_world -> list ascii -> list ascii -> option (list col_metadata))
        (env : batch_call -> ddl_world -> dml_env).

Definition write_of (call : batch_call) : option write_request :=
  match call with
  | CallInsert r => Some (WInsert r)
  | CallUpdate r => Some (WUpdate r)
  | CallDelete r => Some (WDelete r)
  | _ => None
  end.

(** The context as a module finds it, and as it leaves it. *)
Definition to_dml (w : ddl_world) : dml_state := mk_dml (tx_part w) (results w) (db_log w) 0.
Definition of_dml (s : dml_state) (w : ddl_world) : ddl_world := mk_ddl_world (st_tx s) (executed w) (st_rs s) (st_log s).

(** A client's write, so no audit is being written. *)
Definition execute_call (cfg : execute_config) (call : batch_call) (w : ddl_world) : option (ddl_world * batch_answer) :=
  match write_of call with
  | Some wr =>
      '(s, ans) ← execute_write now_y now_m out_of_range max_bulk_inserts (level2_columns call w) (columns_of call w) false (wants_json cfg) (env call w) wr
                    (to_dml w);
      Some (of_dml s w, mk_batch_answer (dml_rc ans) (dml_xml ans) (dml_json ans))
  | None => @execute_batch rest cfg call w
  end.

Definition application : Executors := {|
  execute_batch := execute_call;
  authenticate := @authenticate rest;
  authz_has_permission := @authz_has_permission rest |}.

(** ** The laws *)

Definition call_acceptable (call : batch_call) : Prop :=
  match write_of call with
  | Some wr => forall w, accepted now_y now_m out_of_range max_bulk_inserts (level2_columns call w) wr = true
  | None => @acceptable rest rest_laws call
  end.

Lemma application_returns cfg call w : tx_there (tx_part w) -> is_Some (execute_call cfg call w).
Proof.
  intros Hw. unfold execute_call. destruct (write_of call) as [wr|]; [|by apply batch_returns].
  edestruct (write_returns now_y now_m out_of_range max_bulk_inserts (level2_columns call w) (columns_of call w) false (wants_json cfg) (env call w) wr (to_dml w))
    as [[s ans] ->]; [exact Hw|by eexists].
Qed.

Lemma application_frame cfg call w w' ans : execute_call cfg call w = Some (w', ans) ->
  active_tx (ddl_ctx w) <> None \/ call_acceptable call -> kept (fun evs => active_tx (ddl_ctx w) <> None -> no_commit evs) w w'.
Proof.
  unfold execute_call, call_acceptable. destruct (write_of call) as [wr|]; [|by apply batch_frame].
  destruct (execute_write _ _ _ _ _ _ _ _ _ _ _) as [[s' a]|] eqn:E; [|done]. cbn [mbind option_bind]. intros [= <- <-] Hw.
  assert (managed (to_dml w) = true <-> active_tx (ddl_ctx w) <> None) as Hm.
  { unfold managed. rewrite bool_decide_eq_true. change (dml_ctx (to_dml w)) with (ddl_ctx w).
    by destruct (active_tx (ddl_ctx w)); split. }
  apply write_frame in E as (evs & Htx & Hc); [|destruct Hw as [Hw|Hw]; [left; tauto|right; apply Hw]].
  unfold kept, ddl_ctx, of_dml. cbn [tx_part]. rewrite Htx. split_and!; [done|done|done|]. exists evs. split; [done|]. intros Ha. exact (Hc (proj2 Hm Ha)).
Qed.

#[local] Instance application_laws : @ExecutorLaws application.
Proof.
  refine {| acceptable := call_acceptable |}.
  - apply query_acceptable.
  - apply application_returns.
  - apply application_frame.
  - exact (@authz_frame rest rest_laws).
  - exact (@auth_frame rest rest_laws).
Defined.

(** ** Level 2 lets pass what the modules accept *)

Context (last_error : string -> list ascii * list ascii) (y m : Z).
Context (checked_columns : list ascii -> list ascii -> option (list col_metadata)).
Hypothesis same_answers : forall call w, level2_columns call w = checked_columns.
Hypothesis procedures_acceptable : forall r, @acceptable rest rest_laws (CallProcedure r).

Lemma loop_accepts count ops ops' :
  level2_loop now_y now_m out_of_range max_bulk_inserts checked_columns last_error count ops = (ops', LEVEL2_OK) ->
  Forall (fun op => @op_acceptable _ application_laws (op_payload op)) ops.
Proof.
  revert ops'. induction ops as [|op ops IH]; intros ops'; cbn [level2_loop]; [by constructor|].
  destruct (level2_validate_one _ _ _ _ _ _ _ _) as [p st] eqn:E. destruct (Z.eqb_spec (status_code st) 0) as [Hs|Hs]; cbn [negb]; [|by intros [= _ ?]].
  destruct (level2_loop _ _ _ _ _ _ _ ops) as [l rc] eqn:El. intros [= _ ->]. constructor; [|by eapply IH].
  destruct (op_payload op) as [req|[req|]|[req|]|[req|]|[req|]|req|req|req|req|req|req|req|req| | | |]; try done;
    cbn [op_acceptable acceptable application_laws call_acceptable write_of accepted]; cbn [level2_validate_one] in E.
  - unfold call_acceptable. cbn [write_of accepted]. intros w. rewrite same_answers. destruct (level2_validate_insert _ _ _ _ _ _) as [r s]. injection E as _ <-. by apply Z.eqb_eq.
  - unfold call_acceptable. cbn [write_of accepted]. intros w. rewrite same_answers. destruct (level2_validate_update _ _ _ _ _) as [r s]. injection E as _ <-. by apply Z.eqb_eq.
  - unfold call_acceptable. cbn [write_of accepted]. intros w. rewrite same_answers. destruct (level2_validate_delete _ _ _ _) as [r s]. injection E as _ <-. by apply Z.eqb_eq.
  - apply procedures_acceptable.
Qed.

Lemma level2_acceptable r r' :
  level2_validate y m out_of_range max_bulk_inserts checked_columns last_error r = (r', LEVEL2_OK) ->
  Forall (fun op => @op_acceptable _ application_laws (op_payload op)) (operations r').
Proof.
  unfold level2_validate. destruct (level2_loop _ _ _ _ _ _ _ _) as [ops rc] eqn:E. intros [= <- ->]. cbn [operations].
  apply (level2_loop_again _ _ _ _ _ _ now_y now_m) in E as [_ E]. by eapply loop_accepts.
Qed.

(** ** Writes within a transaction *)

Context (ini : dispatch_ini) (filename : list ascii)
        (dml_execute : option (list (list ascii) -> list ascii -> Z * list ascii)).

Definition write_op (p : operation_payload) : option write_request :=
  match p with
  | Insert (Some r) => Some (WInsert r)
  | Update (Some r) => Some (WUpdate r)
  | Delete (Some r) => Some (WDelete r)
  | _ => None
  end.

Definition no_commit_logged (l : list dml_event) : Prop := forall rc, ~ In (EvTx (EvCommit rc)) l.

(** The table a request names. *)
Definition table_written (wr : write_request) : list ascii :=
  match wr with WInsert r => ins_table r | WUpdate r => upd_table r | WDelete r => del_table r end.

Definition table_changed (wr : write_request) : dml_event := EvInvalidate (table_written wr).

(** An operation that writes, as the module's call with the answer's rc. *)
Lemma dispatch_write r e p wr w resp : write_op p = Some wr ->
  exists d op fn log cfg call, write_of call = Some wr /\
    @dispatch_one application ini filename r e p dml_execute w resp =
      ('(w', ans) ← execute_call cfg call w; batch_response d op fn log ans w' resp).
Proof.
  destruct p as [[]|[req|]|[req|]|[req|]|[]|[]|[]|[]|[]|[]|[]|[]|[]| | | |]; intros [= <-];
    (eexists _, _, _, _, _, _; split; [|reflexivity]; reflexivity).
Qed.

Lemma batch_response_rc d op fn log ans w resp w' resp' rc :
  batch_response d op fn log ans w resp = Some (w', resp', rc) -> w' = w /\ rc = batch_rc ans.
Proof.
  unfold batch_response, passed. destruct (Z.eqb_spec (batch_rc ans) 0) as [->|Hn]; [|by intros [= <- _ <-]].
  destruct (if is_json d then _ else _); by intros [= <- _ <-].
Qed.

Lemma table_checked max_bulk cols wr : table_of now_y now_m out_of_range max_bulk cols wr = table_written wr.
Proof.
  destruct wr as [r|r|r]; cbn [table_of table_written]; [unfold level2_validate_insert|unfold level2_validate_update|unfold level2_validate_delete];
    repeat first [reflexivity | case_match].
Qed.

Lemma write_logs r e p wr w resp w' resp' rc : write_op p = Some wr -> active_tx (ddl_ctx w) <> None ->
  @dispatch_one application ini filename r e p dml_execute w resp = Some (w', resp', rc) ->
  exists l, db_log w' = db_log w ++ l /\ no_commit_logged l /\ (rc = 0 -> In (table_changed wr) l).
Proof.
  intros Hp Ha. destruct (dispatch_write r e p wr w resp Hp) as (d & op & fn & log & cfg & call & Hc & ->).
  unfold execute_call. rewrite Hc. destruct (execute_write _ _ _ _ _ _ _ _ _ _ _) as [[s ans]|] eqn:E; [|done].
  cbn [mbind option_bind]. intros [-> ->]%batch_response_rc.
  apply write_within in E; [destruct E as (l & E1 & E2 & E3); rewrite table_checked in E3; by exists l|]. unfold managed. apply bool_decide_eq_true_2. by destruct (active_tx (ddl_ctx w)) eqn:E1; [eexists|].
Qed.

Lemma loop_logs r envs ops : forall i w resp w' resp' rc,
  Forall (fun op => is_Some (write_op (op_payload op))) ops -> active_tx (ddl_ctx w) <> None -> tx_there (tx_part w) ->
  @operation_loop application ini filename dml_execute true r envs i ops 0 w resp = Some (w', resp', rc) ->
  exists l, db_log w' = db_log w ++ l /\ no_commit_logged l /\
    (rc = 0 -> Forall (fun op => exists wr, write_op (op_payload op) = Some wr /\ In (table_changed wr) l) ops).
Proof.
  induction ops as [|op ops IH]; intros i w resp w' resp' rc Hops Ha Hthere; cbn [operation_loop].
  { intros [= <- _ _]. exists []. split; [by rewrite app_nil_r|]. split; [by intros rc' []|constructor]. }
  apply Forall_cons_iff in Hops as [[wr Hw] Hops].
  destruct (dispatch_one _ _ _ _ _ _ _ _) as [[[w1 resp1] rc1]|] eqn:E; [|done]. cbn [mbind option_bind].
  pose proof (write_logs _ _ _ _ _ _ _ _ _ Hw Ha E) as (l1 & L1 & N1 & I1).
  destruct (dispatch_one_keeps _ _ _ _ _ _ _ _ (or_introl Ha) _ _ _ E) as [Hk _].
  destruct (Z.eqb_spec rc1 0) as [->|Hrc]; cbn [negb andb].
  - intros E2. eapply IH in E2 as (l2 & L2 & N2 & I2); [|done|by destruct Hk as (_ & -> & _)|by eapply kept_there].
    exists (l1 ++ l2). split; [by rewrite L2, L1, app_assoc|]. split.
    + intros rc' [Hi|Hi]%in_app_or; [by apply N1 in Hi|by apply N2 in Hi].
    + intros ->. constructor; [exists wr; split; [done|apply in_or_app; left; by apply I1]|].
      eapply List.Forall_impl; [|by apply I2]. intros op' (wr' & H1 & H2). exists wr'. split; [done|]. apply in_or_app. by right.
  - intros [= <- _ <-]. exists l1. by split_and!.
Qed.

(** ** The properties *)

(** C12: a transaction of writes, with the modules themselves: it comes to an end
    whatever the database answers, also when it says one thing of a table's
    columns to one check and another to the next; no module commits, so the
    transaction ends as one: it returns 0 exactly when the dispatcher's commit
    succeeded, and then every operation ran and dropped the cached rows of the
    table it names; otherwise the response is an error and the last thing the
    database was asked is to roll back. *)
Theorem write_transaction (e : request_env) (r : request) (w : ddl_world) (resp : response_object) :
  transaction_required r = true -> Forall (fun op => is_Some (write_op (op_payload op))) (operations r) ->
  exists w' resp' rc evs l, @run_operations application ini filename dml_execute e r w resp = Some (w', resp', rc) /\
    active_tx (ddl_ctx w') = None /\
    drv_log (ddl_ctx w') = drv_log (ddl_ctx w) ++ evs /\ db_log w' = db_log w ++ l /\ no_commit_logged l /\
    (rc = 0 <-> In (EvCommit 0) evs) /\
    (rc = 0 -> Forall (fun op => exists wr, write_op (op_payload op) = Some wr /\ In (table_changed wr) l) (operations r)) /\
    (rc <> 0 -> resp_status resp' = RESPONSE_STATUS_ERROR /\ rollback_log (ddl_ctx w) `suffix_of` evs).
Proof.
  intros Ht Hops. assert (Forall (fun op => type_of (op_payload op) <> OP_AUTHENTICATE) (operations r)) as Hna.
  { eapply List.Forall_impl; [|exact Hops]. intros op [wr Hw] E. by destruct (op_payload op) as [[]|[]|[]|[]|[]|[]|[]|[]|[]|[]|[]|[]|[]| | | |]. }
  destruct (@transaction_outcome application application_laws ini filename dml_execute e r w resp Ht Hna) as (w' & resp' & rc & evs & E & Ha & Hl & Hc & _ & He & _).
  pose proof E as E2. rewrite (@run_in_transaction application) in E2 by done.
  pose proof (in_transaction_spec e r w) as Hs.
  assert (db_log (fst (in_transaction e r w)) = db_log w) as Hdb by done. destruct (in_transaction e r w) as [w1 tx]. cbn [fst] in Hdb.
  destruct Hs as (_ & _ & Ha1 & _ & _ & Hh).
  destruct (operation_loop _ _ _ _ _ _ _ _ _ _ _) as [[[w2 resp2] rc2]|] eqn:El; [|done]. cbn [mbind option_bind] in E2.
  apply loop_logs in El as (l & L1 & L2 & L3); [|done|by rewrite Ha1|].
  2:{ unfold tx_there. change (w_ctx (tx_part w1)) with (ddl_ctx w1). rewrite Ha1, Hh, list_lookup_middle by done. by eexists. }
  assert (db_log w' = db_log w2 /\ (rc = 0 -> rc2 = 0)) as [Hdb2 Hrc].
  { destruct (Z.eqb_spec rc2 0) as [->|Hn].
    - destruct (tx_commit _ _ _ _ _) as [[c tx'] ans]. by destruct (decide _); injection E2 as <- _ <-.
    - destruct (tx_rollback _ _ _ _ _) as [[c tx'] ans]. by injection E2 as <- _ <-. }
  exists w', resp', rc, evs, l. do 3 (split; [done|]). split; [by rewrite Hdb2, L1, Hdb|].
  split; [done|]. split; [done|]. split; [|done]. intros Hz. by apply L3, Hrc.
Qed.

(** A database that answers the modules' check as it answered Level 2's, at
    whatever date each is made, and whatever else can be called leaving no
    transaction behind: then a request leaves a worker's context without an
    active transaction if it found it so, because what Level 2 lets pass the
    modules accept when they check it again.  When the answers differ a write
    can be refused there, and then its identity is left behind
    ([Writes.refused_write_dangles]). *)
Theorem application_leaves_no_transaction (session_validate : list ascii -> Z)
    (level1_parse : list ascii -> nat -> res operation_status request)
    (e : request_env) (payload : option (list ascii)) (len : Z) (override : option (list ascii)) (w w' : dispatcher_world)
    (resp resp' : response_object) (rc : Z) :
  active_tx (ddl_ctx (ddl_part w)) = None ->
  @process_xml_file application ini filename dml_execute session_validate level1_parse
    (level2_validate y m out_of_range max_bulk_inserts checked_columns last_error) e payload len override w resp = Some (w', resp', rc) ->
  active_tx (ddl_ctx (ddl_part w')) = None.
Proof. intros Ha. apply no_transaction_left; [done|]. intros r r'. apply level2_acceptable. Qed.
End application.

(** ** Examples on Oracle *)

#[local] Existing Instance oracle_dialect.
#[local] Existing Instance demo_dml.

Definition demo_application : Executors :=
  application demo_executors 2026 1 (fun z => z) 10 (fun _ _ => demo_meta) (fun _ _ => demo_meta) (fun _ _ => mk_dml_env quiet_call 0 (fun _ => true)).

Definition demo_ops : list operation_payload :=
  [Insert (Some demo_insert); Update (Some Writes.demo_update); Delete (Some (demo_delete "T"))].

Definition demo_application_run (ops : list operation_payload) :=
  @run_operations demo_application demo_ini (str "r.xml") None Dispatcher.demo_env (demo_request ops) open_world response_object_init.

(** Three writes commit once, together; with one that is refused nothing is
    committed. *)
Example transaction_kinds :
  option_map (fun '(w, _, rc) => (map event_kind (db_log w), drv_log (ddl_ctx w), rc)) (demo_application_run demo_ops) =
    Some (["statement"; "lob"; "audit"; "invalidate"; "before"; "statement"; "lob"; "audit"; "invalidate"; "before"; "audit"; "statement";
           "invalidate"]%string, [EvCommit 0], 0) /\
  option_map (fun '(w, _, rc) => (map event_kind (db_log w), drv_log (ddl_ctx w), rc))
      (demo_application_run [Insert (Some demo_insert); Delete (Some (demo_delete "MISSING"))]) =
    Some (["statement"; "lob"; "audit"; "invalidate"]%string, [EvRollback 0], -1).
Proof. vm_compute. repeat split. Qed.

Lemma write_transaction_witness :
  exists w' resp' rc evs l, demo_application_run demo_ops = Some (w', resp', rc) /\ db_log w' = l /\ drv_log (ddl_ctx w') = evs /\
    (rc = 0 <-> In (EvCommit 0) evs) /\ no_commit_logged l.
Proof.
  destruct (@write_transaction oracle_dialect demo_dml demo_executors demo_executor_laws 2026 1 (fun z => z) 10 (fun _ _ => demo_meta) (fun _ _ => demo_meta)
              (fun _ _ => mk_dml_env quiet_call 0 (fun _ => true)) demo_ini (str "r.xml") None Dispatcher.demo_env
              (demo_request demo_ops) open_world response_object_init eq_refl ltac:(repeat constructor; eexists; reflexivity))
    as (w' & resp' & rc & evs & l & H1 & _ & H2 & H3 & H4 & H5 & _).
  exists w', resp', rc, evs, l. split; [exact H1|]. split; [exact H3|]. split; [exact H2|]. split; [exact H5|exact H4].
Defined.

Lemma application_leaves_no_transaction_witness :
  let level1 (_ : list ascii) (_ : nat) := Ok (demo_request [Insert (Some demo_insert)]) : res operation_status request in
  let level2 := level2_validate 2026 2 (fun z => z) 10 demo_meta (fun _ => ([], [])) in
  exists w' resp' rc, @process_xml_file demo_application demo_ini (str "r.xml") None (fun _ => SESSION_OK) level1 level2 Dispatcher.demo_env
      (Some new_text) (Z.of_nat (length new_text)) None demo_world response_object_init = Some (w', resp', rc) /\
    rc = 0 /\ active_tx (ddl_ctx (ddl_part w')) = None.
Proof.
  cbn zeta. destruct (process_xml_file _ _ _ _ _ _ _ _ _ _ _ _) as [[[w' resp'] rc]|] eqn:E; [|vm_compute in E; discriminate E].
  exists w', resp', rc. split; [reflexivity|]. split; [vm_compute in E; injection E as _ _ <-; reflexivity|].
  refine (@application_leaves_no_transaction oracle_dialect demo_dml demo_executors demo_executor_laws 2026 1 (fun z => z) 10 (fun _ _ => demo_meta)
            (fun _ _ => demo_meta) (fun _ _ => mk_dml_env quiet_call 0 (fun _ => true)) (fun _ => ([], [])) 2026 2 demo_meta _ _ _ _ _ _ _ _ _ _ _ _ _ _ _ _ _ E).
  - intros call w. reflexivity.
  - intros r. exact I.
  - reflexivity.
Defined.
